(* ===== verification/_CoqProject ===== *)
-Q . S2P
Prelude.v
Digits.v
JobManager.v
Storage.v
TosStorage.v
Scheduler.v
BatchDriver.v
RWLock.v
Num.v
Rewards.v
RewardDispatch.v
PrefixGroup.v
TrainData.v
RunningStats.v
ShiftDetector.v
FeatureNorm.v
StatsFile.v
ReplayBuffer.v
Inference.v
LoadBuffer.v
Centeroid.v
Clusterer.v
Optimizer.v
LoadReader.v
ModelMonitor.v
GpuApp.v
Downloader.v
PodRegistry.v
Preprocess.v
Encoding.v
RewardNet.v
RewardService.v
RowNorm.v
HandleInfer.v
CacheSim.v
