(* ===== verification/Prelude.v ===== *)
(** * A verification library for Lodestar's Python services

    Lodestar routes requests of large language models to the pods of a cluster
    with a learned policy, runs batches of requests in the background, and sizes
    the cluster to the load. Four Python programs of the repository carry its own
    logic, and this library models them by executable definitions and proves what
    they promise. Paths below are relative to [src/python/].

    ** The programs

    The batch service ([aibrix/aibrix/batch/]). [BatchDriver] (driver.py) stores
    an uploaded file through the storage layer (storage/), creates a job in the
    [JobManager] (job_manager.py) and queues it in the [JobScheduler]
    (scheduler.py). Each turn of its loop lets the scheduler choose a job of the
    round-robin pool, and the [RequestProxy] (request_proxy.py) fetch the next
    request of that job, run it, store the output and mark the progress.

    The routing agent ([routing_agent_service/agent_codes/]). The service
    (routing_agent_service.py) answers inference requests: it checks the features
    against the training distribution (distribution_shift_detector.py), normalizes
    them (data_normalizer.py), asks the agent (reward_predictor.py) for a pod, restricts the choice to
    the candidate pods of the prefix group and breaks ties. Before that the message
    of the gateway has its addresses replaced by the ids of a registry of pods
    (utils.py), is parsed into a row of features (preprocess.py), and the row is
    encoded into tensors by an encoder kept between requests (encoding.py). Served requests are
    flushed back as training rows; a training round selects rows (new batch,
    recent history, replay buffer of replay_buffer.py), computes their rewards
    (rewards.py, preprocess.py), trains the agent's network, saves it, and evicts old
    rows; the next request has the saved model loaded by a thread. The model is guarded
    by a readers-writer lock (rwlock.py).

    The GPU optimizer ([aibrix/aibrix/gpu_optimizer/]). A service (app.py) keeps a
    monitor per model (load_monitor/monitor.py) and tells it about deployments.
    The monitor's thread reads the load (load_reader.py) into a moving window
    (helpers.py), clusters it (clusterer.py), turns the clusters into a
    distribution over the cells of the GPUs' throughput tables
    (optimizer/optimizer.py) and has a solver choose the cheapest number of GPUs of
    each type (optimizer/solver/melange/), which become the replicas it reports.

    The model downloader ([aibrix/aibrix/downloader/]) of the runtime beside each
    engine. The model manager ([aibrix/aibrix/openapi/model.py]) chooses a
    downloader by the URI, infers the state of the model from the lock and metadata
    files of its directory, and starts a download unless it looks complete.

    A simulator of the prefix cache ([routing_agent_service/workloads/mooncake/]) stands
    beside them: it replays a workload against caches of several capacities and policies.

    ** The files

    - [Prelude]: outcomes and exceptions of Python code, the state monad [M],
      Python's list indexing, shared lemmas, tactics and the hint database.
    - [Digits]: decimal numbers in texts, as [int] reads them.
    - [JobManager]: job_manager.py. A job is the record [JobMetaInfo], the manager
      the record of its three pools; [create_job], [cancel_job],
      [start_execute_job], [mark_job_progress], [expire_job] and the queries are
      one definition each, and [manager_step] is any call of them.
    - [Storage]: storage/generic_storage.py and batch_storage.py. The abstract
      storage is the class [PersistentStorage], what it owes its client the class
      [StorageLaws], discharged by the local-disk files; the request window
      [read_job_requests] is proved over the classes alone.
    - [TosStorage]: storage/tos_storage.py, the object-store backend, as a second
      instance of the same classes over a client class [TosClient].
    - [Scheduler]: scheduler.py. Queue, due list, inactive jobs and the pool with
      its round-robin index, over the job manager.
    - [BatchDriver]: driver.py and request_proxy.py, composing the three.
    - [RWLock]: rwlock.py, as a step relation over any number of threads, each
      with a program counter, and the two condition queues.
    - [Num]: the numbers of the agent: the class [Num] with the rationals and
      binary64 as instances, the class [Numpy] of the library routines used and
      their laws.
    - [Rewards], [RewardDispatch]: rewards.py and the reward branch of
      preprocess.py.
    - [PodRegistry]: the registry of pods of utils.py: the search for addresses,
      [register_pod_ips] with the views it rebuilds, and the replacement in messages
      and files.
    - [Preprocess]: the parsers of preprocess.py, the unified preprocessing of a frame,
      the fast one of a request, and [get_sorted_all_pod_ids] of utils.py.
    - [Encoding]: encoding.py: [DataEncoder] with its caches as a record, the features
      of pods for a request and for a batch, and the two entry points, over [PodRegistry].
    - [PrefixGroup]: [PrefixGroupManager] and [_select_candidate_pods] of
      routing_agent_service.py.
    - [TrainData]: [handle_flush], the row selection, eviction and the phases of
      [online_train_routine] of routing_agent_service.py.
    - [RunningStats], [FeatureNorm], [StatsFile]: data_normalizer.py: the
      statistics of a feature, the normalization of frames with its caches, the
      statistics file and the normalization of a training file.
    - [ShiftDetector]: distribution_shift_detector.py.
    - [ReplayBuffer]: replay_buffer.py.
    - [Inference]: the decision of [handle_infer] of routing_agent_service.py,
      over [PrefixGroup] and [ShiftDetector].
    - [RewardNet]: [RewardNetwork] and [RewardPredictor] of reward_predictor.py: the layers,
      the exploration, a learning step with its metrics, and the model files, over the class
      [Torch] with its laws [TorchLaws].
    - [RewardService]: the functions of reward_predictor.py around the cached agent:
      [preload_agent_from_metadata], [infer_from_tensor] with the reload in the request
      and the one in a thread, and [train], over [RewardNet] and [Inference].
    - [RowNorm]: the normalization of the row of a request of data_normalizer.py, and
      its agreement with the one of frames in [FeatureNorm].
    - [HandleInfer]: [handle_infer] of routing_agent_service.py as a whole, over the record
      [server] of the globals and the components above, with [initialize] and the end of
      [online_train_routine] as far as they change these globals; [step] is any of them.
    - [LoadBuffer], [Centeroid]: [DataBuffer] and [Centeroid] of helpers.py.
    - [Clusterer]: clusterer.py and the reading half of a turn of the monitor
      ([load_turn]), with the abstract window of generations it refines.
    - [Optimizer]: optimizer/: profiles, the workload distribution, the integer
      program of the solver and its answer.
    - [LoadReader]: load_reader.py and profile_reader.py.
    - [ModelMonitor]: monitor.py: deployments, shared profiles as a heap, the lock,
      and the turn that composes the four files above.
    - [GpuApp]: app.py: the registry of monitors, the request handlers and a round of
      the watch.
    - [Downloader]: base.py, entity.py, utils.py, s3.py, tos.py and huggingface.py of
      the downloader, over a class [S3Client] with its laws, and the model manager.
    - [CacheSim]: workloads/mooncake/simulate_kvcache.py beside the agent: the prefix
      cache with its three policies, as replays of a workload, and the capacities of a run.

    ** What the theorems show

    - Batch service: the invariant of the pools and of the progress bits in every
      reachable state, the next request as the least one left, progress marking;
      correctness of the request window over any lawful storage, and the round
      trips of uploads and results; job choice without errors in every run,
      compaction, exact expiry, and which jobs stay in the pool; and, end to end,
      that an uploaded batch is complete after as many turns as it has requests,
      with its results in order. The object-store backend agrees with the local
      disk, deletes exactly a job's objects and keeps results by index.
    - Lock: mutual exclusion and writer priority in every interleaving, no lost
      wake-up, and that waiting threads drain.
    - Rewards: bounds and monotonicity of the functions against an objective,
      bounds and centring of the quantile rewards, agreement of the offline and
      the online dispatcher, and their error behaviour.
    - Pods and messages: ids are consecutive, permanent and independent of the order
      in which addresses are listed in a call, in the order of first sight, and the views agree with the registry; every
      address in a message is replaced by its own id; a written message is parsed back,
      both parsers agree on plain values, and the fast preprocessing of a request is the
      unified one it replaces, except that only this one rounds the numbers of the pods to float32 and
      fills in a missing algorithm, with a number for every feature of every pod.
    - Tensors: a request is encoded as its row is in a training batch; the caches of the
      encoder kept between requests never change a result; the tensors of a batch have
      one shape, and the saved names say what its columns hold.
    - Features: incremental statistics equal those of all values at once; scores
      have mean zero and variance one; the batch path of inference equals the loop
      over features; caches do not change results; the statistics file round
      trips; fixed-range normalization divides by the range; the detector sends
      exactly the samples outside the training range to the fallback.
    - Routing and learning: candidates are distinct pods and grow with K; the
      controller keeps K in range; a routing decision is always a pod of the
      cluster; the filter keeps the agent's choice if it is a candidate and takes a best
      candidate otherwise; the rows of a round are the new batch, the newest history, the
      replayed rows and a backfill, each id once; eviction keeps the newest rows;
      the replay selection is a greedy farthest-point choice; validation windows
      are frozen.
    - The agent: a choice is a pod, a best one when nothing is explored; learning keeps the
      shapes of the network and the lengths of the metrics; a saved model is loaded back;
      the cached agent answers every request that fits the saved model, after any requests,
      reloads and rounds, and the handler sends it to a pod of the cluster; a trained
      model reaches the requests; a round learns from every training row once per epoch,
      holds the test rows out and saves exactly the agent it leaves; the schedules
      of the learning rate.
    - The handler, end to end: after a start and any requests, reloads and rounds, a ready
      service answers a message of the gateway with a pod it names and the address the registry
      has for it; whatever a request is, the registry, the caches, the encoder and
      the agent stay in order; the row of a request is normalized as a frame of one row.
    - Sizing: the buffer and the clusterers refine a moving window of generations;
      clusters partition the points and a centre's signature is a nearest cell; the
      workload distribution sums to one; the solver's answer is feasible and
      cheapest; an optimization sets the replicas from such an answer, or nothing when there is none. Readers
      count no window twice and lose no request of a trace. The types of the
      optimizer and of the monitor hold in every reachable state, the lock is given
      back, an override holds until it is reset, and requests to start, scale and
      report compose.
    - Downloads: what a directory download leaves on the disk is what the bucket has for
      the page it lists, whatever was there before, and a second one is idle.
    - The cache simulator: every policy returns at a positive capacity; the curve of the
      least recently used policy never falls; the lazy heap of the offline policy has the
      fewest misses of blocks over all choices of victims, and with it the optimum for requests of single blocks.
    - Behaviour the code does not intend is proved as it is: a read that overlaps
      the cached window duplicates a request, filling slots can overwrite a
      running job, a rejected job blocks the service, a flush during a round is
      lost, an unknown strategy stops training, a constant batch resets a feature's
      statistics, the tie-break needs rewards that are not negative, integer tables
      lose the load, stopping an unknown deployment blocks the watch, a deployment
      started by a request ends it, updates of profiles matched by a short name are
      lost, a profile file with one object per line is ignored, a model named
      without its slash is never fetched, a second page of files is lost, a
      download that stopped half-way looks finished, training and serving number the
      pods differently after a scale-up, a map logged as null fails a request, a batch of
      a single pod cannot be encoded, a batch has the GPUs of its first row, requests are
      served with dropout, features of another width stop the serving, a scale-up during a round
      loses what it learnt, recorded activations are those
      before the last ReLU, a message without a request id is refused, a service that found no model at its
      start is never ready, with the strategy lodestar it never trains, inverse rewards
      leave their documented range for large latencies, and the offline policy of the
      cache simulator can be beaten by an online one.

    ** Modelling choices

    A call that may raise returns an [outcome]; a method that changes an object is
    a computation of [M] over the object's record, so that what it changed before
    an exception stays changed. A loop that is not structural recurses on fuel:
    the scan of [next_request_id] has the number of progress bits, the probing of
    [_select_candidate_pods] the number of pods, the two-pointer loop of
    [tighten_jobs] and the bisection of [append_job] the length of their list, the
    growth of the data buffer the requested size, the search of a signature the
    number of ticks, the loop over a trace the number of its rows; a paged listing
    or scan has the number of pages its server promises.
    A blocked [acquire] is [OutOfFuel] too: only the theorems that say a call waits
    for ever have it as a result.
    The theorems prove the bounds enough.
    Python integers are unbounded, hence [Z]. Floats are exact rationals where a
    theorem is about order or sums, any number type where it is about structure,
    and binary64 where rounding or NaN decides.

    Code of other packages is a parameter with the documented behaviour the code
    relies on as named laws: [Json] (dump and load), [Numpy] (mean, percentile,
    logarithm and the like), [Pandas] (sorting, sampling, duplicate removal),
    [Sqrt], the norm, the seeded random choice, the hash of a pair, [Torch] (layers, dropout masks,
    gradients, Adam and the schedulers), the random draws of exploration and training, what a float becomes in a CSV file, [TosClient] and [S3Client] (the object
    stores), JSON, Python literals and floats read from a text, rounding to float32, [nan_to_num], the exponential,
    [Dbscan] (labels of inserted points), [LpSolver] (an optimal solution of
    an integer program), the logarithm of the ticks, and what Redis and Kubernetes
    answer. Clock readings are arguments. Log lines are left out except where they raise.

    ** What is not modelled

    The command line front ends data_processor.py and offline_routing_agent.py, which call the
    modules above; the plots and timing summaries of reward_predictor.py; the latency predictor of
    unused_models/, whose answer is an argument of the handler; the interleaving
    of threads inside the calls of a model monitor and of an agent, beyond the requests
    that come between two steps of a reload or a round; the optimizer's dashboard and profiling
    tools; the runtime's HTTP layer; analysis scripts, plots, the workload generators and the
    remaining simulators, and the unused earlier models, whose results no service reads; the control plane in Go. *)

From stdpp Require Export prelude gmap strings list fin_maps.
From Stdlib Require Export ZArith Lia.

Open Scope Z_scope.

(** ** Python exceptions and stateful code

    A Python call either returns or raises, and in both cases the objects it
    mutated stay mutated: [M S A] threads a state of type [S] through a
    computation that ends with a value or an exception. A [while] loop is a
    recursion on a number of iterations; [OutOfFuel] says that it did not end
    within them, and no theorem that promises a result accepts it as one. *)

Inductive exn :=
| KeyError | IndexError | TypeError | ValueError | AssertionError
| StopIteration | FileNotFoundError | FileExistsError | JSONDecodeError
| ZeroDivisionError | RuntimeError | OSError
| InvalidArgumentError | ModelNotFoundError | SystemExit | AttributeError
| Exception_.  (* a bare [Exception] *)

#[export] Instance exn_eq_dec : EqDecision exn.
Proof. solve_decision. Defined.

Inductive outcome (A : Type) :=
| Ret (a : A)
| Raise (e : exn)
| OutOfFuel.

Arguments Ret {A} a.
Arguments Raise {A} e.
Arguments OutOfFuel {A}.

#[export] Instance outcome_eq_dec {A} `{EqDecision A} : EqDecision (outcome A).
Proof. solve_decision. Defined.

Definition M (S A : Type) : Type := S → outcome A * S.

Declare Scope py_scope.
Delimit Scope py_scope with py.

Section monad.
Context {S : Type}.

Definition ret {A} (a : A) : M S A := λ s, (Ret a, s).

Definition raise {A} (e : exn) : M S A := λ s, (Raise e, s).

Definition bind {A B} (m : M S A) (k : A → M S B) : M S B := λ s,
  match m s with
  | (Ret a, s') => k a s'
  | (Raise e, s') => (Raise e, s')
  | (OutOfFuel, s') => (OutOfFuel, s')
  end.

Definition get : M S S := λ s, (Ret s, s).

Definition gets {A} (f : S → A) : M S A := λ s, (Ret (f s), s).

Definition modify (f : S → S) : M S unit := λ s, (Ret tt, f s).

(** A computation without state, run for its outcome. *)
Definition lift {A} (o : outcome A) : M S A := λ s, (o, s).

(** [try: m] with a handler for every exception; what [m] changed stays changed. *)
Definition catch {A} (m : M S A) (handler : exn → M S A) : M S A := λ s,
  match m s with (Raise e, s') => handler e s' | r => r end.

(** [for x in l: body(x)] *)
Fixpoint for_each {A} (l : list A) (body : A → M S unit) : M S unit :=
  match l with
  | [] => ret tt
  | x :: l' => bind (body x) (λ _, for_each l' body)
  end.

End monad.

(** Running a component's method on the part of a larger state that holds it. *)
Definition zoom {S T A} (proj : S → T) (upd : T → S → S) (m : M T A) : M S A := λ s,
  let '(o, t) := m (proj s) in (o, upd t s).

Notation "'let*' x := m 'in' k" := (bind m (λ x, k))
  (at level 10, x binder, m at level 100, k at level 200) : py_scope.
Notation "m ;; k" := (bind m (λ _, k))
  (at level 100, k at level 200, right associativity) : py_scope.

(** Outcomes without state compose the same way. *)
Definition obind {A B} (o : outcome A) (k : A → outcome B) : outcome B :=
  match o with Ret a => k a | Raise e => Raise e | OutOfFuel => OutOfFuel end.

Notation "'try*' x := o 'in' k" := (obind o (λ x, k))
  (at level 10, x binder, o at level 100, k at level 200) : py_scope.

(** [mapM]: the outcome of a list comprehension whose body may raise. *)
Fixpoint omapM {A B} (f : A → outcome B) (l : list A) : outcome (list B) :=
  match l with
  | [] => Ret []
  | x :: l' => obind (f x) (λ y, obind (omapM f l') (λ ys, Ret (y :: ys)))
  end.

(** ** Python lists

    Indices and slices follow Python: a negative index counts from the end, a
    slice clamps its bounds, an index out of range raises. *)

Definition py_len {A} (l : list A) : Z := Z.of_nat (length l).

Definition py_norm_index (n i : Z) : Z := if i <? 0 then i + n else i.

Definition py_index {A} (l : list A) (i : Z) : outcome A :=
  let j := py_norm_index (py_len l) i in
  if j <? 0 then Raise IndexError
  else match l !! Z.to_nat j with Some x => Ret x | None => Raise IndexError end.

Definition py_setitem {A} (l : list A) (i : Z) (x : A) : outcome (list A) :=
  let j := py_norm_index (py_len l) i in
  if (j <? 0) || (py_len l <=? j) then Raise IndexError
  else Ret (<[Z.to_nat j := x]> l).

Definition py_clamp (n i : Z) : Z := Z.max 0 (Z.min n (py_norm_index n i)).

Definition py_slice {A} (l : list A) (a b : Z) : list A :=
  let a' := py_clamp (py_len l) a in
  let b' := py_clamp (py_len l) b in
  take (Z.to_nat (b' - a')) (drop (Z.to_nat a') l).

(** [min] and [max] of two integers, [range(n)] *)
Definition py_range (n : Z) : list Z := Z.of_nat <$> seq 0 (Z.to_nat n).

(** ** Dictionaries

    A Python dict with string keys as a list of its items, in the order the keys
    were first inserted. *)

Fixpoint assoc {A} (key : string) (l : list (string * A)) : option A :=
  match l with
  | [] => None
  | (k, v) :: l' => if decide (k = key) then Some v else assoc key l'
  end.

(** [d[key] = v]: an existing key keeps its place. *)
Fixpoint assoc_set {A} (key : string) (v : A) (l : list (string * A)) : list (string * A) :=
  match l with
  | [] => [(key, v)]
  | (k, w) :: l' => if decide (k = key) then (key, v) :: l' else (k, w) :: assoc_set key v l'
  end.

(** [d.update(e)] *)
Definition assoc_update {A} (d e : list (string * A)) : list (string * A) :=
  foldl (λ d '(k, v), assoc_set k v d) d e.

(** [del d[key]] *)
Definition assoc_del {A} (key : string) (l : list (string * A)) : list (string * A) :=
  List.filter (λ e, negb (String.eqb e.1 key)) l.

(** A change of the value of a key that is there. *)
Definition assoc_upd {A} (key : string) (f : A → A) (l : list (string * A)) : list (string * A) :=
  (λ e : string * A, if String.eqb e.1 key then (e.1, f e.2) else e) <$> l.

(** ** Text files

    The text of a file, read line by line: each line keeps its terminator, the
    last one may lack it, exactly as [readlines()] and [for line in file]. *)

Definition nl : Ascii.ascii := Ascii.ascii_of_nat 10.

Definition newline : string := String nl EmptyString.

Fixpoint readlines (s : string) : list string :=
  match s with
  | EmptyString => []
  | String c s' =>
    if Ascii.eqb c nl then newline :: readlines s'
    else match readlines s' with
         | [] => [String c EmptyString]
         | l :: ls => String c l :: ls
         end
  end.

Fixpoint has_newline (s : string) : bool :=
  match s with
  | EmptyString => false
  | String c s' => Ascii.eqb c nl || has_newline s'
  end.

(** A text without the separator of keys and paths *)
Definition slash : Ascii.ascii := Ascii.ascii_of_nat 47.

Fixpoint no_slash (s : string) : bool :=
  match s with EmptyString => true | String c s' => negb (Ascii.eqb c slash) && no_slash s' end.

(** The text written by one [file.write(line + newline)] per element. *)
Definition unlines (ls : list string) : string :=
  foldr (λ l acc, (l +:+ newline) +:+ acc) EmptyString ls.

(** ** Automation *)

Create HintDb lodestar.

Ltac py_unfold :=
  unfold bind, ret, raise, get, gets, modify, lift, zoom, obind in *; simpl in *.

Ltac destruct_match :=
  match goal with
  | |- context [match ?x with _ => _ end] => destruct x eqn:?
  | H : context [match ?x with _ => _ end] |- _ => destruct x eqn:?
  end.

Ltac py_cases := repeat (destruct_match; simplify_eq/=).

(** ** Lemmas on lists, indices and slices *)

Section lists.
Context {A : Type}.
Implicit Types l : list A.

Lemma py_len_nonneg l : 0 ≤ py_len l.
Proof. unfold py_len. lia. Qed.

Lemma py_len_app l1 l2 : py_len (l1 ++ l2) = py_len l1 + py_len l2.
Proof. unfold py_len. rewrite length_app. lia. Qed.

Lemma py_index_lookup l i x :
  0 ≤ i → l !! Z.to_nat i = Some x → py_index l i = Ret x.
Proof.
  intros Hi Hx. unfold py_index, py_norm_index.
  destruct (Z.ltb_spec i 0); [lia|]. destruct (Z.ltb_spec i 0); [lia|]. by rewrite Hx.
Qed.

Lemma py_slice_take_drop l a b :
  0 ≤ a → a ≤ b → b ≤ py_len l →
  py_slice l a b = take (Z.to_nat (b - a)) (drop (Z.to_nat a) l).
Proof.
  intros ???. unfold py_slice, py_clamp, py_norm_index.
  destruct (Z.ltb_spec a 0), (Z.ltb_spec b 0); try lia.
  f_equal; [|f_equal]; lia.
Qed.

Lemma take_drop_nil l n k : (length l ≤ n)%nat → take k (drop n l) = [].
Proof. intros. rewrite drop_ge; [by destruct k | lia]. Qed.

(** Two adjacent windows of a list make one window. *)
Lemma take_drop_adjacent l s n k :
  take n (drop s l) ++ take k (drop (s + n) l) = take (n + k) (drop s l).
Proof. by rewrite <-drop_drop, take_take_drop. Qed.

(** A window of a window. *)
Lemma take_drop_window l s n a k :
  (a + k ≤ n)%nat → take k (drop a (take n (drop s l))) = take k (drop (s + a) l).
Proof.
  intros Hle. rewrite skipn_firstn_comm, drop_drop, take_take. f_equal. lia.
Qed.

#[export] Instance filter_perm (f : A → bool) : Proper ((≡ₚ) ==> (≡ₚ)) (List.filter f).
Proof.
  induction 1; simpl; repeat case_match; try done; [by f_equiv|apply Permutation_swap|by etrans].
Qed.

Lemma elem_of_filter_b (f : A → bool) l x : x ∈ List.filter f l ↔ f x = true ∧ x ∈ l.
Proof. rewrite !list_elem_of_In, filter_In. tauto. Qed.

Lemma elem_of_concat (ls : list (list A)) x : x ∈ concat ls ↔ ∃ l, l ∈ ls ∧ x ∈ l.
Proof.
  induction ls as [|l ls IH]; simpl; [set_solver|]. rewrite elem_of_app, IH. set_solver.
Qed.

Lemma elem_of_concat_map {B} (f : B → list A) (ys : list B) x :
  x ∈ concat (f <$> ys) ↔ ∃ y, y ∈ ys ∧ x ∈ f y.
Proof. rewrite elem_of_concat. setoid_rewrite list_elem_of_fmap. naive_solver. Qed.

Lemma concat_singletons l : concat ((λ x, [x]) <$> l) = l.
Proof. induction l as [|x l IH]; csimpl; [done|]. by rewrite IH. Qed.

Lemma replicate_shift (x : A) n l : replicate n x ++ x :: l = x :: replicate n x ++ l.
Proof. induction n as [|n IH]; simpl; [done|]. by rewrite IH. Qed.

End lists.

(** ** Lemmas on text files *)

Lemma append_cons c (s1 s2 : string) : String c s1 +:+ s2 = String c (s1 +:+ s2).
Proof. reflexivity. Qed.

Lemma append_assoc (s1 s2 s3 : string) : (s1 +:+ s2) +:+ s3 = s1 +:+ (s2 +:+ s3).
Proof. induction s1 as [|c s1 IH]; [done|]. by rewrite !append_cons, IH. Qed.

Lemma append_nil_r (s : string) : s +:+ EmptyString = s.
Proof. induction s as [|c s IH]; [done|]. by rewrite !append_cons, IH. Qed.

Lemma list_ascii_append (s1 s2 : string) :
  String.list_ascii_of_string (s1 +:+ s2) = String.list_ascii_of_string s1 ++ String.list_ascii_of_string s2.
Proof. induction s1 as [|c s1 IH]; [done|]. rewrite append_cons. simpl. by rewrite IH. Qed.

Lemma length_append (s1 s2 : string) : String.length (s1 +:+ s2) = (String.length s1 + String.length s2)%nat.
Proof. induction s1 as [|c s1 IH]; [done|]. rewrite append_cons. simpl. by rewrite IH. Qed.

Lemma append_inj_l (p r r' : string) : p +:+ r = p +:+ r' → r = r'.
Proof. induction p as [|c p IH]; [done|]. rewrite !append_cons. intros [=]. by apply IH. Qed.

Lemma append_inj_r (n n' r : string) : n +:+ r = n' +:+ r → n = n'.
Proof.
  intros H%(f_equal String.list_ascii_of_string). rewrite !list_ascii_append in H. simplify_list_eq.
  rewrite <-(String.string_of_list_ascii_of_string n), <-(String.string_of_list_ascii_of_string n'). by f_equal.
Qed.

Lemma no_slash_cons c (s : string) : no_slash (String c s) = negb (Ascii.eqb c slash) && no_slash s.
Proof. done. Qed.

Lemma no_slash_app (s1 s2 : string) : no_slash (s1 +:+ s2) = no_slash s1 && no_slash s2.
Proof.
  induction s1 as [|c s1 IH]; [done|]. rewrite append_cons, !no_slash_cons, IH. by rewrite andb_assoc.
Qed.

Lemma readlines_line (l s : string) :
  has_newline l = false → readlines ((l +:+ newline) +:+ s) = (l +:+ newline) :: readlines s.
Proof.
  induction l as [|c l IH]; [done|]. rewrite !append_cons. simpl.
  intros [Hc Hl]%orb_false_iff. by rewrite Hc, IH.
Qed.

Lemma readlines_unlines (ls : list string) :
  Forall (λ l, has_newline l = false) ls →
  readlines (unlines ls) = (λ l, l +:+ newline) <$> ls.
Proof.
  induction 1 as [|l ls Hl _ IH]; simpl; [done|].
  rewrite readlines_line by done. by f_equal.
Qed.

Lemma unlines_app (ls ks : list string) : unlines (ls ++ ks) = unlines ls +:+ unlines ks.
Proof.
  unfold unlines. induction ls as [|l ls IH]; simpl; [done|].
  by rewrite IH, !append_assoc.
Qed.

(** ** Lemmas on outcomes *)

Lemma omapM_Ret {A B} (f : A → outcome B) (g : A → B) (l : list A) :
  Forall (λ x, f x = Ret (g x)) l → omapM f l = Ret (g <$> l).
Proof. induction 1 as [|x l Hx _ IH]; simpl; [done|]. by rewrite Hx, IH. Qed.

Lemma omapM_length {A B} (f : A → outcome B) l r : omapM f l = Ret r → length r = length l.
Proof.
  revert r. induction l as [|x l IH]; simpl; [by intros ? [= <-]|]. intros r.
  destruct (f x); [|done..]. simpl. destruct (omapM f l) as [r'| |]; [|done..]. intros [= <-]. simpl. by rewrite (IH r').
Qed.

Lemma omapM_total {A B} (f : A → outcome B) (l : list A) : Forall (λ x, ∃ y, f x = Ret y) l →
  ∃ ys, omapM f l = Ret ys ∧ Forall2 (λ x y, f x = Ret y) l ys.
Proof.
  induction 1 as [|x l [y Hy] _ (ys & IH & Hys)]; [by exists []|]. exists (y :: ys). simpl. rewrite Hy, IH. by split; [|constructor].
Qed.

Lemma omapM_lookup {A B} (f : A → outcome B) l r i x : omapM f l = Ret r → l !! i = Some x → ∃ y, r !! i = Some y ∧ f x = Ret y.
Proof.
  revert r i. induction l as [|a l IH]; intros r i; [done|]. cbn [omapM]. destruct (f a) as [b| |] eqn:Ea; [|done..]. cbn [obind].
  destruct (omapM f l) as [bs| |]; [|done..]. intros [= <-]. destruct i as [|i]; [intros [= <-]; eauto|]. intros Hi. by apply (IH bs i).
Qed.

Lemma omapM_ext {A B} (f g : A → outcome B) l : (∀ x, x ∈ l → f x = g x) → omapM f l = omapM g l.
Proof.
  induction l as [|x l IH]; intros H; [done|]. cbn [omapM]. rewrite (H x) by left. destruct (g x); [|done..]. cbn [obind].
  rewrite IH; [done|]. intros y Hy. apply H. by right.
Qed.

Lemma omapM_fmap {A B C} (f : B → outcome C) (g : A → B) (l : list A) : omapM f (g <$> l) = omapM (λ x, f (g x)) l.
Proof. induction l as [|x l IH]; csimpl; [done|]. by rewrite IH. Qed.

(** Sequencing is associative. *)
Lemma bind_bind {S A B C} (m : M S A) (k : A → M S B) (h : B → M S C) s :
  bind m (λ x, bind (k x) h) s = bind (bind m k) h s.
Proof. unfold bind. by destruct (m s) as [[] ?]. Qed.

Lemma bind_Ret {S A B} (m : M S A) (k : A → M S B) s a s' : m s = (Ret a, s') → bind m k s = k a s'.
Proof. unfold bind. by intros ->. Qed.

Lemma bind_get {S A} (k : S → M S A) s : bind get k s = k s s.
Proof. reflexivity. Qed.

Lemma bind_modify {S A} f (k : unit → M S A) s : bind (modify f) k s = k tt (f s).
Proof. reflexivity. Qed.

Lemma bind_lift {S A B} (a : A) (k : A → M S B) s : bind (lift (Ret a)) k s = k a s.
Proof. reflexivity. Qed.

#[export] Hint Resolve py_len_nonneg : lodestar.

(** ** Lemmas: dictionaries *)

Lemma assoc_None {A} key (l : list (string * A)) : key ∉ l.*1 → assoc key l = None.
Proof.
  induction l as [|[k v] l IH]; csimpl; [done|]. intros [Hk Hl]%not_elem_of_cons.
  rewrite decide_False by done. by apply IH.
Qed.

Lemma assoc_Some {A} key (l : list (string * A)) : key ∈ l.*1 → ∃ v, assoc key l = Some v.
Proof.
  induction l as [|[k v] l IH]; csimpl; [by intros ?%not_elem_of_nil|].
  intros [->|Hl]%elem_of_cons; [rewrite decide_True by done; eauto|].
  case_decide; [eauto|by apply IH].
Qed.

Lemma assoc_set_eq {A} key (v : A) l : assoc key (assoc_set key v l) = Some v.
Proof.
  induction l as [|[k w] l IH]; simpl; [by rewrite decide_True|].
  case_decide; simpl; [by rewrite decide_True|]. by rewrite decide_False.
Qed.

Lemma assoc_set_ne {A} key key' (v : A) l :
  key ≠ key' → assoc key' (assoc_set key v l) = assoc key' l.
Proof.
  intros Hne. induction l as [|[k w] l IH]; simpl; [by rewrite decide_False|].
  case_decide as Hk; simpl; [subst; by rewrite !decide_False|]. case_decide; [done|by apply IH].
Qed.

Lemma assoc_elem {A} key (v : A) l : assoc key l = Some v → (key, v) ∈ l.
Proof.
  induction l as [|[k w] l IH]; simpl; [done|]. case_decide; [intros [= <-]; subst; left|]. right. auto.
Qed.

Lemma assoc_set_Forall {A} (P : string * A → Prop) k v l :
  P (k, v) → Forall P l → Forall P (assoc_set k v l).
Proof.
  intros Hp. induction 1 as [|[k' v'] l Hk Hl IH]; simpl; [by repeat constructor|].
  case_decide; constructor; done.
Qed.

Lemma assoc_upd_keys {A} key (f : A → A) l : (assoc_upd key f l).*1 = l.*1.
Proof. unfold assoc_upd. induction l as [|[k v] l IH]; csimpl; [done|]. rewrite IH. by destruct (String.eqb k key). Qed.

Lemma assoc_upd_eq {A} key (f : A → A) l d : assoc key l = Some d → assoc key (assoc_upd key f l) = Some (f d).
Proof.
  induction l as [|[k v] l IH]; csimpl; [done|]. destruct (decide (k = key)) as [->|Hk].
  - intros [= ->]. by rewrite String.eqb_refl, decide_True.
  - intros Hl. rewrite (proj2 (String.eqb_neq k key) Hk), decide_False by done. by apply IH.
Qed.

Lemma assoc_upd_ne {A} key key' (f : A → A) l : key ≠ key' → assoc key' (assoc_upd key f l) = assoc key' l.
Proof.
  intros Hne. induction l as [|[k v] l IH]; csimpl; [done|]. destruct (String.eqb_spec k key) as [->|Hk]; csimpl.
  - by rewrite !decide_False.
  - by rewrite IH.
Qed.

Lemma assoc_upd_Forall {A} (P : string * A → Prop) key f l :
  (∀ v, P (key, v) → P (key, f v)) → Forall P l → Forall P (assoc_upd key f l).
Proof.
  intros Hf Hl. apply Forall_fmap. eapply Forall_impl; [exact Hl|]. intros [k v] Hv. simpl.
  destruct (String.eqb_spec k key); [subst; by apply Hf|done].
Qed.

Lemma assoc_del_Forall {A} (P : string * A → Prop) key l : Forall P l → Forall P (assoc_del key l).
Proof. intros Hl. apply Forall_forall. intros e [_ He]%elem_of_filter_b. by eapply Forall_forall in Hl. Qed.

Lemma assoc_del_keys {A} key (l : list (string * A)) k : k ∈ (assoc_del key l).*1 ↔ k ≠ key ∧ k ∈ l.*1.
Proof.
  rewrite !list_elem_of_fmap. unfold assoc_del. setoid_rewrite elem_of_filter_b. split.
  - intros ([k' v] & -> & Hk & Hin). simpl in Hk. apply negb_true_iff, String.eqb_neq in Hk. eauto.
  - intros (Hk & [k' v] & -> & Hin). exists (k', v). split_and!; [done| |done]. by apply negb_true_iff, String.eqb_neq.
Qed.

Lemma assoc_del_NoDup {A} key (l : list (string * A)) : NoDup l.*1 → NoDup (assoc_del key l).*1.
Proof.
  induction l as [|[k v] l IH]; csimpl; [done|]. intros [Hk Hl]%NoDup_cons.
  destruct (negb _); [|auto]. csimpl. apply NoDup_cons. split; [|auto]. intros Hin. apply Hk.
  by apply (assoc_del_keys key l k).
Qed.

Lemma assoc_set_dom {A} key (v : A) l : (assoc_set key v l).*1 = if decide (key ∈ l.*1) then l.*1 else l.*1 ++ [key].
Proof.
  induction l as [|[k w] l IH]; csimpl; [done|]. destruct (decide (k = key)) as [->|Hk]; csimpl.
  - by rewrite decide_True by (apply elem_of_cons; by left).
  - rewrite IH. destruct (decide (key ∈ l.*1)) as [H|H].
    + by rewrite decide_True by (apply elem_of_cons; by right).
    + rewrite decide_False; [done|]. intros [?|?]%elem_of_cons; congruence.
Qed.

Lemma assoc_set_NoDup {A} key (v : A) l : NoDup l.*1 → NoDup (assoc_set key v l).*1.
Proof.
  intros Hl. rewrite assoc_set_dom. case_decide; [done|]. apply NoDup_app. split_and!; [done| |apply NoDup_singleton].
  by intros x Hx ->%list_elem_of_singleton.
Qed.

Lemma assoc_set_new {A} key (v : A) l : assoc key l = None → assoc_set key v l = l ++ [(key, v)].
Proof.
  induction l as [|[k w] l IH]; simpl; [done|]. destruct (decide (k = key)); [done|]. intros Hl. by rewrite IH.
Qed.

Lemma assoc_elem_of {A} key (v : A) l : NoDup l.*1 → (key, v) ∈ l → assoc key l = Some v.
Proof.
  induction l as [|[k w] l IH]; csimpl; [by intros _ ?%elem_of_nil|].
  intros [Hk Hl]%NoDup_cons [[= -> ->]|Hin]%elem_of_cons; [by rewrite decide_True|].
  rewrite decide_False; [by apply IH|]. intros ->. apply Hk, list_elem_of_fmap. by exists (key, v).
Qed.

Lemma assoc_app {A} key (l l' : list (string * A)) :
  assoc key (l ++ l') = match assoc key l with Some v => Some v | None => assoc key l' end.
Proof. induction l as [|[k v] l IH]; simpl; [done|]. by case_decide. Qed.

Lemma assoc_update_new {A} (d l : list (string * A)) : NoDup (d ++ l).*1 → assoc_update d l = d ++ l.
Proof.
  revert d. induction l as [|[k v] l IH]; intros d Hnd; [by rewrite app_nil_r|]. unfold assoc_update in *. simpl.
  rewrite assoc_set_new; [|apply assoc_None].
  - rewrite IH; rewrite <-app_assoc; done.
  - rewrite fmap_app in Hnd. apply NoDup_app in Hnd as (_ & Hd & _). intros Hk. apply (Hd _ Hk). csimpl. left.
Qed.

Lemma assoc_update_nil {A} (l : list (string * A)) : NoDup l.*1 → assoc_update [] l = l.
Proof. apply (assoc_update_new []). Qed.

(** ** Invariants of computations

    [keeps P c]: a computation keeps a property of the state, whether it returns,
    raises or never ends. *)

Definition keeps {S A} (P : S → Prop) (c : M S A) : Prop := ∀ s, P s → P (c s).2.

Section keeps.
Context {S : Type} (P : S → Prop).

Lemma keeps_ret {A} (a : A) : keeps P (ret a).
Proof. by intros s Hs. Qed.

Lemma keeps_raise {A} e : keeps P (raise (A:=A) e).
Proof. by intros s Hs. Qed.

Lemma keeps_lift {A} (o : outcome A) : keeps P (lift o).
Proof. by intros s Hs. Qed.

Lemma keeps_get : keeps P get.
Proof. by intros s Hs. Qed.

Lemma keeps_gets {A} (f : S → A) : keeps P (gets f).
Proof. by intros s Hs. Qed.

Lemma keeps_modify f : (∀ s, P s → P (f s)) → keeps P (modify f).
Proof. intros Hf s Hs. by apply Hf. Qed.

Lemma keeps_bind {A B} (c : M S A) (k : A → M S B) : keeps P c → (∀ a, keeps P (k a)) → keeps P (bind c k).
Proof.
  intros Hc Hk s Hs. specialize (Hc s Hs). unfold bind. destruct (c s) as [[a| |] s']; simpl in *; [by apply Hk|done..].
Qed.

Lemma keeps_lift_bind {A B} (o : outcome A) (k : A → M S B) :
  (∀ a, o = Ret a → keeps P (k a)) → keeps P (bind (lift o) k).
Proof. intros Hk s Hs. unfold bind, lift. destruct o as [a| |]; simpl; [by apply Hk|done..]. Qed.

Lemma keeps_catch {A} (c : M S A) h : keeps P c → (∀ e, keeps P (h e)) → keeps P (catch c h).
Proof.
  intros Hc Hh s Hs. specialize (Hc s Hs). unfold catch. destruct (c s) as [[a| |] s']; simpl in *; [done|by apply Hh|done].
Qed.

Lemma keeps_for_each {A} (l : list A) (body : A → M S unit) : (∀ x, keeps P (body x)) → keeps P (for_each l body).
Proof. intros Hb. induction l as [|x l IH]; simpl; [apply keeps_ret|]. by apply keeps_bind. Qed.

End keeps.

#[export] Hint Resolve keeps_ret keeps_raise keeps_lift keeps_get keeps_gets : lodestar.

(** One step along the shape of a computation. *)
Ltac keeps_step :=
  match goal with
  | |- keeps _ (bind (lift _) _) => apply keeps_lift_bind; intros ? ?
  | |- keeps _ (bind _ _) => apply keeps_bind; [|intros ?]
  | |- keeps _ (catch _ _) => apply keeps_catch; [|intros ?]
  | |- keeps _ (for_each _ _) => apply keeps_for_each; intros ?
  | |- keeps _ (match ?x with _ => _ end) => destruct x eqn:?
  | |- keeps _ _ => solve [auto with lodestar]
  end.

(** ** Computations with a known result

    [runs c s o Q]: from [s] the computation has the outcome [o] and ends in a state with
    [Q], also when it raises. *)

Definition runs {S A} (c : M S A) (s : S) (o : outcome A) (Q : S → Prop) : Prop := (c s).1 = o ∧ Q (c s).2.

Section runs.
Context {S : Type}.

Lemma runs_ret {A} (a : A) (s : S) (Q : S → Prop) : Q s → runs (ret a) s (Ret a) Q.
Proof. done. Qed.

Lemma runs_raise {A} e (s : S) (Q : S → Prop) : Q s → runs (raise e) s (Raise (A:=A) e) Q.
Proof. done. Qed.

Lemma runs_weaken {A} (c : M S A) s o (Q Q' : S → Prop) : runs c s o Q → (∀ s', Q s' → Q' s') → runs c s o Q'.
Proof. intros [H1 H2] HQ. split; eauto. Qed.

Lemma runs_bind {A B} (c : M S A) (k : A → M S B) s o (o' : A → outcome B) (Q Q' : S → Prop) :
  runs c s o Q → (∀ s', Q s' → Q' s') → (∀ a s', o = Ret a → Q s' → runs (k a) s' (o' a) Q') →
  runs (bind c k) s (obind o o') Q'.
Proof.
  intros [H1 H2] HQ Hk. unfold runs, bind in *. destruct (c s) as [[a|e|] s'] eqn:E; simpl in *; subst o; simpl.
  - by apply Hk.
  - auto.
  - auto.
Qed.

Lemma runs_lift {A B} (o : outcome A) (k : A → M S B) s (o' : A → outcome B) (Q' : S → Prop) :
  Q' s → (∀ a, o = Ret a → runs (k a) s (o' a) Q') → runs (bind (lift o) k) s (obind o o') Q'.
Proof. intros HQ Hk. apply (runs_bind _ _ _ _ _ (λ s', s' = s)); [by split|by intros ? ->|]. intros a ? Ho ->. by apply Hk. Qed.

Lemma runs_get {A} (k : S → M S A) s o (Q : S → Prop) : runs (k s) s o Q → runs (bind get k) s o Q.
Proof. unfold runs. by rewrite bind_get. Qed.

Lemma runs_modify {A} f (k : unit → M S A) s o (Q : S → Prop) : runs (k tt) (f s) o Q → runs (bind (modify f) k) s o Q.
Proof. unfold runs. by rewrite bind_modify. Qed.

(** The first computation of a sequence, with the state it leaves *)
Lemma runs_seq {A B} (c : M S A) (k : A → M S B) s o s' o' (Q : S → Prop) :
  c s = (o, s') →
  match o with Ret a => runs (k a) s' o' Q | Raise x => o' = Raise x ∧ Q s' | OutOfFuel => o' = OutOfFuel ∧ Q s' end →
  runs (bind c k) s o' Q.
Proof. intros H. unfold runs, bind. rewrite H. destruct o; [done|by intros [-> ?]..]. Qed.

Lemma runs_elim {A} (c : M S A) s o (Q : S → Prop) : runs c s o Q → ∃ s', c s = (o, s') ∧ Q s'.
Proof. intros [<- H]. exists (c s).2. split; [apply surjective_pairing|done]. Qed.

End runs.
