(* ===== verification/Digits.v ===== *)
(** * Numbers in text

    Python's [int(...)] of ASCII text, and what the decimal text of a number is made of. *)

From stdpp Require Import pretty.
From Stdlib Require Import Ascii.
From S2P Require Import Prelude.

Open Scope Z_scope.

(** ** [int(...)] *)

Definition ascii_is_space (c : Ascii.ascii) : bool :=
  let n := Ascii.nat_of_ascii c in
  ((9 <=? n) && (n <=? 13) || (28 <=? n) && (n <=? 32))%nat.

Definition ascii_digit (c : Ascii.ascii) : option Z :=
  let n := Ascii.nat_of_ascii c in
  if ((48 <=? n) && (n <=? 57))%nat then Some (Z.of_nat n - 48) else None.

Fixpoint drop_spaces (l : list Ascii.ascii) : list Ascii.ascii :=
  match l with
  | c :: l' => if ascii_is_space c then drop_spaces l' else l
  | [] => []
  end.

(** Digits, with single underscores between digits. *)
Fixpoint int_digits (acc : Z) (after_digit : bool) (l : list Ascii.ascii) : option Z :=
  match l with
  | [] => if after_digit then Some acc else None
  | c :: l' =>
    match ascii_digit c with
    | Some d => int_digits (10 * acc + d) true l'
    | None =>
      if Ascii.eqb c "_"%char && after_digit then int_digits acc false l' else None
    end
  end.

Definition py_int (s : string) : option Z :=
  let l := reverse (drop_spaces (reverse (drop_spaces (String.list_ascii_of_string s)))) in
  match l with
  | c :: l' =>
    if Ascii.eqb c "-"%char then Z.opp <$> int_digits 0 false l'
    else if Ascii.eqb c "+"%char then int_digits 0 false l'
    else int_digits 0 false l
  | [] => None
  end.

(** The number a list of digits stands for *)
Definition digits_val (ds : list Z) : Z := foldl (λ acc d, 10 * acc + d) 0 ds.

(** ** Lemmas *)

Definition is_digits : list ascii → list Z → Prop := Forall2 (λ c d, ascii_digit c = Some d).

Lemma digits_val_snoc ds d : digits_val (ds ++ [d]) = 10 * digits_val ds + d.
Proof. unfold digits_val. by rewrite foldl_app. Qed.

Lemma pretty_N_char_digit x : (x < 10)%N → ascii_digit (pretty_N_char x) = Some (Z.of_N x).
Proof.
  intros Hx. assert (x = 0 ∨ x = 1 ∨ x = 2 ∨ x = 3 ∨ x = 4 ∨ x = 5 ∨ x = 6 ∨ x = 7 ∨ x = 8 ∨ x = 9)%N as H by lia.
  repeat (destruct H as [->|H]; [done|]). by subst.
Qed.

Lemma pretty_go_digits x s :
  ∃ cs ds, String.list_ascii_of_string (pretty_N_go x s) = cs ++ String.list_ascii_of_string s ∧
    is_digits cs ds ∧ digits_val ds = Z.of_N x ∧ (x ≠ 0%N → cs ≠ []).
Proof.
  revert s. induction (N.lt_wf_0 x) as [x _ IH]. intros s.
  assert (x = 0 ∨ 0 < x)%N as [->|Hx] by lia; [exists [], []; rewrite pretty_N_go_0; by split_and!; [|constructor|..]|].
  rewrite pretty_N_go_step by done.
  destruct (IH (x `div` 10)%N ltac:(by apply N.div_lt) (String (pretty_N_char (x `mod` 10)) s))
    as (cs & ds & H1 & H2 & H3 & _).
  exists (cs ++ [pretty_N_char (x `mod` 10)]), (ds ++ [Z.of_N (x `mod` 10)]). split_and!.
  - by rewrite H1, <-app_assoc.
  - apply Forall2_app; [done|]. constructor; [|constructor]. apply pretty_N_char_digit. by apply N.mod_lt.
  - rewrite digits_val_snoc, H3. rewrite N2Z.inj_div, N2Z.inj_mod. pose proof (Z.div_mod (Z.of_N x) 10). simpl in *. lia.
  - intros _. by destruct cs.
Qed.

Lemma pretty_digits (x : N) :
  ∃ c cs ds, String.list_ascii_of_string (pretty x) = c :: cs ∧ is_digits (c :: cs) ds ∧ digits_val ds = Z.of_N x.
Proof.
  unfold pretty, pretty_N. case_decide as Hx.
  - subst. by exists "0"%char, [], [0]; split_and!; [|constructor; [|constructor]|].
  - destruct (pretty_go_digits x EmptyString) as (cs & ds & H1 & H2 & H3 & H4). rewrite app_nil_r in H1.
    destruct cs as [|c cs]; [by destruct (H4 Hx)|]. by exists c, cs, ds.
Qed.
