(* ===== verification/JobManager.v ===== *)
(** * The batch job manager

    Models [python/aibrix/aibrix/batch/job_manager.py]: the metadata of one
    batch job ([JobMetaInfo]), the three job pools ([JobManager]) and every
    operation on them. The number of requests of a job comes from the storage
    layer and is an argument of [create_job]; the clock reading taken by the
    constructor is an argument too. The asyncio lock and the [_meta_data]
    dictionary of a job are never used by the code and are left out. *)

From Stdlib Require Import Ascii.
From S2P Require Import Prelude Digits.

Open Scope Z_scope.
Open Scope py_scope.

(** ** Job status and job metadata *)

Inductive JobStatus :=
| CREATED | VALIDATING | FAILED | PENDING | IN_PROGRESS
| EXPIRED | CANCELLING | CANCELED | COMPLETED.

#[export] Instance JobStatus_eq_dec : EqDecision JobStatus.
Proof. solve_decision. Defined.

(** A job is named by a [uuid.UUID], a 128-bit number in an object that is
    always true in a condition. *)
Definition job_id : Type := N.

Record JobMetaInfo := mkJobMetaInfo {
  meta_job_id : job_id;
  num_requests : Z;
  started_time : Z;
  end_time : option Z;
  model_endpoint : string;
  completion_window_str : string;
  completion_window : Z;
  current_request_id : Z;
  request_progress_bits : list bool;
  succeed_num_requests : Z;
  job_status : JobStatus
}.

(** [JobMetaInfo.__init__] *)
Definition new_JobMetaInfo (now : Z) (jid : job_id) (endpoint window : string) : JobMetaInfo :=
  {| meta_job_id := jid; num_requests := 0; started_time := now; end_time := None;
     model_endpoint := endpoint; completion_window_str := window; completion_window := 0;
     current_request_id := 0; request_progress_bits := []; succeed_num_requests := 0;
     job_status := CREATED |}.

Definition set_job_status (st : JobStatus) (m : JobMetaInfo) : JobMetaInfo :=
  {| meta_job_id := meta_job_id m; num_requests := num_requests m;
     started_time := started_time m; end_time := end_time m;
     model_endpoint := model_endpoint m;
     completion_window_str := completion_window_str m;
     completion_window := completion_window m;
     current_request_id := current_request_id m;
     request_progress_bits := request_progress_bits m;
     succeed_num_requests := succeed_num_requests m; job_status := st |}.

Definition set_progress (bits : list bool) (succeed : Z) (m : JobMetaInfo) : JobMetaInfo :=
  {| meta_job_id := meta_job_id m; num_requests := num_requests m;
     started_time := started_time m; end_time := end_time m;
     model_endpoint := model_endpoint m;
     completion_window_str := completion_window_str m;
     completion_window := completion_window m;
     current_request_id := current_request_id m;
     request_progress_bits := bits;
     succeed_num_requests := succeed; job_status := job_status m |}.

Definition set_num_requests (n : Z) (bits : list bool) (m : JobMetaInfo) : JobMetaInfo :=
  {| meta_job_id := meta_job_id m; num_requests := n;
     started_time := started_time m; end_time := end_time m;
     model_endpoint := model_endpoint m;
     completion_window_str := completion_window_str m;
     completion_window := completion_window m;
     current_request_id := current_request_id m;
     request_progress_bits := bits;
     succeed_num_requests := succeed_num_requests m; job_status := job_status m |}.

Definition set_completion_window (w : Z) (m : JobMetaInfo) : JobMetaInfo :=
  {| meta_job_id := meta_job_id m; num_requests := num_requests m;
     started_time := started_time m; end_time := end_time m;
     model_endpoint := model_endpoint m;
     completion_window_str := completion_window_str m;
     completion_window := w;
     current_request_id := current_request_id m;
     request_progress_bits := request_progress_bits m;
     succeed_num_requests := succeed_num_requests m; job_status := job_status m |}.

(** [set_request_executed]: an index out of range raises. *)
Definition set_request_executed (req_id : Z) : M JobMetaInfo unit := λ m,
  match py_setitem (request_progress_bits m) req_id true with
  | Ret bits => (Ret tt, set_progress bits (succeed_num_requests m) m)
  | Raise e => (Raise e, m)
  | OutOfFuel => (OutOfFuel, m)
  end.

Definition get_request_bit (req_id : Z) (m : JobMetaInfo) : outcome bool :=
  py_index (request_progress_bits m) req_id.

(** [complete_one_request] *)
Definition complete_one_request (req_id : Z) : M JobMetaInfo unit :=
  let* bit := (λ m, (get_request_bit req_id m, m)) in
  if bit : bool then ret tt
  else
    set_request_executed req_id ;;
    modify (λ m, set_progress (request_progress_bits m) (succeed_num_requests m + 1) m) ;;
    modify (λ m, if succeed_num_requests m =? num_requests m
                 then set_job_status COMPLETED m else m).

(** The [while] loop of [next_request_id], from index [req_id]. *)
Fixpoint next_request_loop (fuel : nat) (bits : list bool) (n req_id : Z) : outcome Z :=
  match py_index bits req_id with
  | Ret true =>
    match fuel with
    | O => OutOfFuel
    | S fuel' =>
      next_request_loop fuel' bits n (if req_id + 1 =? n then 0 else req_id + 1)
    end
  | Ret false => Ret req_id
  | Raise e => Raise e
  | OutOfFuel => OutOfFuel
  end.

(** [next_request_id]: as many iterations as the job has requests. *)
Definition next_request_id (m : JobMetaInfo) : outcome Z :=
  if succeed_num_requests m =? num_requests m then Ret (-1)
  else next_request_loop (length (request_progress_bits m)) (request_progress_bits m)
         (num_requests m) (current_request_id m).

(** ** The completion window *)

(** [validate_job]. The storage side is asked for the number of requests; the
    window is a number of minutes or hours, stored in minutes. A [ValueError]
    and a failed [assert] are caught; an [IndexError] is not. *)
Definition parse_completion_window (s : string) : outcome Z :=
  match reverse (String.list_ascii_of_string s) with
  | [] => Raise IndexError
  | unit_char :: rest =>
    let time_str := String.string_of_list_ascii (reverse rest) in
    if Ascii.eqb unit_char "m"%char || Ascii.eqb unit_char "h"%char then
      match py_int time_str with
      | Some w => Ret (if Ascii.eqb unit_char "h"%char then w * 60 else w)
      | None => Raise ValueError
      end
    else Raise AssertionError
  end.

Definition check_model_endpoint (m : JobMetaInfo) : bool := true.

Definition job_authentication (m : JobMetaInfo) : bool := true.

Definition validate_job (get_job_num_request : job_id → Z) : M JobMetaInfo bool :=
  let* input_num := gets (λ m, get_job_num_request (meta_job_id m)) in
  modify (set_num_requests input_num (replicate (Z.to_nat input_num) false)) ;;
  if input_num =? 0 then ret false
  else
    let* window := gets (λ m, parse_completion_window (completion_window_str m)) in
    match window with
    | Ret w =>
      modify (set_completion_window w) ;;
      let* endpoint_ok := gets check_model_endpoint in
      if negb endpoint_ok then ret false
      else
        let* auth_ok := gets job_authentication in
        if negb auth_ok then ret false else ret true
    | Raise ValueError => ret false
    | Raise AssertionError => ret false
    | Raise e => raise e
    | OutOfFuel => lift OutOfFuel
    end.

(** ** The job pools *)

Record JobManager := mkJobManager {
  pending_jobs : gmap job_id JobMetaInfo;
  in_progress_jobs : gmap job_id JobMetaInfo;
  done_jobs : gmap job_id JobMetaInfo
}.

Definition new_JobManager : JobManager := mkJobManager ∅ ∅ ∅.

Definition create_job (get_job_num_request : job_id → Z) (now : Z) (jid : job_id)
    (endpoint window : string) : M JobManager unit := λ s,
  let job_meta := set_job_status VALIDATING (new_JobMetaInfo now jid endpoint window) in
  match validate_job get_job_num_request job_meta with
  | (Ret true, m) =>
    (Ret tt, mkJobManager (<[jid := set_job_status PENDING m]> (pending_jobs s))
               (in_progress_jobs s) (done_jobs s))
  | (Ret false, m) => (Ret tt, s)
  | (Raise e, _) => (Raise e, s)
  | (OutOfFuel, _) => (OutOfFuel, s)
  end.

(** [cancel_job]. The second test of the code is [job_id in
    self._done_jobs[job_id]]: the subscript raises [KeyError] when the job is
    not done, and a [JobMetaInfo] is not a container, so that the [in] raises
    [TypeError] when it is. *)
Definition cancel_job (jid : job_id) : M JobManager bool := λ s,
  match pending_jobs s !! jid with
  | Some meta_data =>
    (Ret true, mkJobManager (delete jid (pending_jobs s)) (in_progress_jobs s)
                 (<[jid := set_job_status CANCELED meta_data]> (done_jobs s)))
  | None =>
    match done_jobs s !! jid with
    | None => (Raise KeyError, s)
    | Some _ => (Raise TypeError, s)
    end
  end.

Definition get_job_status (jid : job_id) (s : JobManager) : option JobStatus :=
  match pending_jobs s !! jid, in_progress_jobs s !! jid, done_jobs s !! jid with
  | Some m, _, _ => Some (job_status m)
  | None, Some m, _ => Some (job_status m)
  | None, None, Some m => Some (job_status m)
  | None, None, None => None
  end.

Definition start_execute_job (jid : job_id) : M JobManager bool := λ s,
  match pending_jobs s !! jid with
  | None => (Ret false, s)
  | Some meta_data =>
    match in_progress_jobs s !! jid with
    | Some _ => (Ret false, s)
    | None =>
      (Ret true, mkJobManager (delete jid (pending_jobs s))
                   (<[jid := set_job_status IN_PROGRESS meta_data]> (in_progress_jobs s))
                   (done_jobs s))
    end
  end.

Definition get_job_next_request (jid : job_id) (s : JobManager) : outcome Z :=
  match in_progress_jobs s !! jid with
  | None => Ret (-1)
  | Some meta_data => next_request_id meta_data
  end.

Definition get_job_window_due (jid : job_id) (s : JobManager) : Z :=
  match pending_jobs s !! jid with
  | None => -1
  | Some meta_data => completion_window meta_data
  end.

(** [None] stands for the [-1] the code returns for a discarded job. *)
Definition get_job_endpoint (jid : job_id) (s : JobManager) : option string :=
  match pending_jobs s !! jid with
  | Some m => Some (model_endpoint m)
  | None => model_endpoint <$> in_progress_jobs s !! jid
  end.

(** The loop of [mark_job_progress]: the invalid flag, and the job's metadata
    updated in place. *)
Fixpoint mark_requests (executed_requests : list Z) (invalid_flag : bool) : M JobMetaInfo bool :=
  match executed_requests with
  | [] => ret invalid_flag
  | req_id :: rest =>
    let* request_len := gets num_requests in
    if (req_id <? 0) || (request_len <=? req_id) then mark_requests rest true
    else complete_one_request req_id ;; mark_requests rest invalid_flag
  end.

Definition mark_job_progress (jid : job_id) (executed_requests : list Z) : M JobManager bool := λ s,
  match in_progress_jobs s !! jid with
  | None => (Ret false, s)
  | Some meta_data =>
    let '(o, m) := mark_requests executed_requests false meta_data in
    let s' := mkJobManager (pending_jobs s) (<[jid := m]> (in_progress_jobs s)) (done_jobs s) in
    match o with
    | Ret invalid_flag =>
      (Ret (negb invalid_flag),
       if decide (job_status m = COMPLETED)
       then mkJobManager (pending_jobs s) (delete jid (in_progress_jobs s))
              (<[jid := m]> (done_jobs s))
       else s')
    | Raise e => (Raise e, s')
    | OutOfFuel => (OutOfFuel, s')
    end
  end.

Definition expire_job (jid : job_id) : M JobManager bool := λ s,
  match pending_jobs s !! jid with
  | Some meta_data =>
    (Ret true, mkJobManager (delete jid (pending_jobs s)) (in_progress_jobs s)
                 (<[jid := set_job_status EXPIRED meta_data]> (done_jobs s)))
  | None =>
    match in_progress_jobs s !! jid with
    | Some _ => (Ret false, s)
    | None => match done_jobs s !! jid with
              | Some _ => (Ret false, s)
              | None => (Ret true, s)
              end
    end
  end.

(** ** Specification vocabulary *)

Fixpoint count_true (l : list bool) : nat :=
  match l with
  | [] => 0
  | b :: l' => ((if b then 1 else 0) + count_true l')%nat
  end.

(** The progress bits and the two counters of a job agree. *)
Definition wf_meta (m : JobMetaInfo) : Prop :=
  num_requests m = py_len (request_progress_bits m) ∧
  succeed_num_requests m = Z.of_nat (count_true (request_progress_bits m)) ∧
  current_request_id m = 0.

Definition pending_ok (j : job_id) (m : JobMetaInfo) : Prop :=
  meta_job_id m = j ∧ wf_meta m ∧ job_status m = PENDING ∧
  succeed_num_requests m = 0 ∧ 0 < num_requests m.

Definition in_progress_ok (j : job_id) (m : JobMetaInfo) : Prop :=
  meta_job_id m = j ∧ wf_meta m ∧ job_status m = IN_PROGRESS ∧
  succeed_num_requests m < num_requests m.

Definition done_ok (j : job_id) (m : JobMetaInfo) : Prop :=
  meta_job_id m = j ∧ wf_meta m ∧
  (job_status m = CANCELED ∨ job_status m = EXPIRED ∨
   job_status m = COMPLETED ∧ Forall (eq true) (request_progress_bits m)).

Definition wf_manager (s : JobManager) : Prop :=
  map_Forall pending_ok (pending_jobs s) ∧
  map_Forall in_progress_ok (in_progress_jobs s) ∧
  map_Forall done_ok (done_jobs s).

(** While requests are marked, a job is running with work left or complete. *)
Definition progress_ok (m : JobMetaInfo) : Prop :=
  wf_meta m ∧
  (job_status m = IN_PROGRESS ∧ succeed_num_requests m < num_requests m ∨
   job_status m = COMPLETED ∧ succeed_num_requests m = num_requests m).

(** The calls a client can make, and the state each leaves, whether it returns
    or raises. *)
Inductive manager_op :=
| OpCreate (now : Z) (jid : job_id) (endpoint window : string)
| OpCancel (jid : job_id)
| OpStart (jid : job_id)
| OpMark (jid : job_id) (executed : list Z)
| OpExpire (jid : job_id).

Definition run_op (nreq : job_id → Z) (o : manager_op) (s : JobManager) : JobManager :=
  match o with
  | OpCreate now jid endpoint window => (create_job nreq now jid endpoint window s).2
  | OpCancel jid => (cancel_job jid s).2
  | OpStart jid => (start_execute_job jid s).2
  | OpMark jid executed => (mark_job_progress jid executed s).2
  | OpExpire jid => (expire_job jid s).2
  end.

Inductive manager_step (nreq : job_id → Z) : JobManager → JobManager → Prop :=
| manager_step_op o s : manager_step nreq s (run_op nreq o s).

(** ** Lemmas: progress bits *)

Lemma count_true_le l : (count_true l ≤ length l)%nat.
Proof. induction l as [|[] l IH]; simpl; lia. Qed.

Lemma count_true_insert l i :
  l !! i = Some false → count_true (<[i:=true]> l) = S (count_true l).
Proof.
  revert i. induction l as [|b l IH]; intros [|i]; simpl; intros; simplify_eq; [done|].
  rewrite IH by done. lia.
Qed.

Lemma count_true_full l : count_true l = length l ↔ Forall (eq true) l.
Proof.
  induction l as [|[] l IH]; simpl; [split; auto|..].
  - rewrite Forall_cons, <-IH. split; [intros [= ->]; done|intros [_ ->]; done].
  - rewrite Forall_cons. pose proof (count_true_le l). split; [lia|by intros [? _]].
Qed.

Lemma count_true_replicate n : count_true (replicate n false) = 0%nat.
Proof. induction n; simpl; auto. Qed.

(** A list with fewer [true]s than elements has a first [false]. *)
Lemma first_false l :
  (count_true l < length l)%nat →
  ∃ j, l !! j = Some false ∧ ∀ k, (k < j)%nat → l !! k = Some true.
Proof.
  induction l as [|[] l IH]; simpl; intros; [lia|..].
  - destruct IH as (j & Hj & Hlt); [lia|]. exists (S j). split; [done|].
    intros [|k] ?; [done|]. apply Hlt. lia.
  - exists 0%nat. split; [done|lia].
Qed.

Lemma next_request_loop_first fuel l n i j :
  n = py_len l → l !! j = Some false → (∀ k, (k < j)%nat → l !! k = Some true) →
  (i ≤ j)%nat → (j - i ≤ fuel)%nat →
  next_request_loop fuel l n (Z.of_nat i) = Ret (Z.of_nat j).
Proof.
  intros Hn Hj Hlt. revert i. induction fuel as [|fuel IH]; intros i Hi Hf; simpl.
  all: destruct (decide (i = j)) as [->|Hne];
    [rewrite (py_index_lookup _ _ false); [done|lia|by rewrite Nat2Z.id]|].
  - lia.
  - rewrite (py_index_lookup _ _ true) by (rewrite ?Nat2Z.id; auto with lia).
    apply lookup_lt_Some in Hj. unfold py_len in Hn.
    destruct (Z.eqb_spec (Z.of_nat i + 1) n); [lia|].
    replace (Z.of_nat i + 1) with (Z.of_nat (S i)) by lia. apply IH; lia.
Qed.

(** ** Lemmas: one request marked, many requests marked *)

Lemma complete_one_request_spec r m :
  progress_ok m → 0 ≤ r < num_requests m →
  ∃ m', complete_one_request r m = (Ret tt, m') ∧ progress_ok m' ∧
    request_progress_bits m' = <[Z.to_nat r := true]> (request_progress_bits m) ∧
    meta_job_id m' = meta_job_id m ∧ num_requests m' = num_requests m.
Proof.
  intros [(Hnum & Hsucc & Hcur) Hst] Hr. unfold py_len in Hnum.
  destruct (lookup_lt_is_Some_2 (request_progress_bits m) (Z.to_nat r)) as [b Hb]; [lia|].
  unfold complete_one_request, get_request_bit. py_unfold.
  rewrite (py_index_lookup _ _ b) by (done || lia). destruct b.
  { exists m. split_and!; auto; [by repeat split|]. by rewrite list_insert_id. }
  unfold set_request_executed, py_setitem, py_norm_index, py_len. simpl.
  destruct (Z.ltb_spec r 0); [lia|]. destruct (Z.ltb_spec r 0); [lia|].
  destruct (Z.leb_spec (Z.of_nat (length (request_progress_bits m))) r); [lia|]. simpl.
  pose proof (count_true_insert _ _ Hb) as Hc.
  pose proof (count_true_le (<[Z.to_nat r:=true]> (request_progress_bits m))) as Hle.
  rewrite length_insert in Hle.
  assert (job_status m = IN_PROGRESS) by (destruct Hst as [[? ?]|[? ?]]; [done|lia]).
  eexists; split; [reflexivity|]. unfold progress_ok, wf_meta, py_len.
  destruct (Z.eqb_spec (succeed_num_requests m + 1) (num_requests m)); simpl;
    rewrite length_insert, Hc; split_and!; auto with lia.
Qed.

Lemma mark_requests_spec rs flag m :
  progress_ok m →
  ∃ m', mark_requests rs flag m =
          (Ret (flag || existsb (λ r, (r <? 0) || (num_requests m <=? r)) rs), m') ∧
    progress_ok m' ∧ meta_job_id m' = meta_job_id m ∧ num_requests m' = num_requests m ∧
    ∀ i, request_progress_bits m' !! i =
         (λ b, b || existsb (λ r, r =? Z.of_nat i) rs) <$> request_progress_bits m !! i.
Proof.
  revert flag m. induction rs as [|r rs IH]; intros flag m Hm; simpl.
  { exists m. rewrite orb_false_r. split_and!; auto.
    intros i.
    destruct (_ !! i) as [[]|]; done. }
  unfold bind at 1, gets. simpl.
  destruct ((r <? 0) || (num_requests m <=? r)) eqn:Hr; simpl.
  - destruct (IH true m Hm) as (m' & -> & Hok & Hid & Hn & Hbits).
    exists m'. rewrite orb_true_r. simpl. split_and!; auto.
    intros i. rewrite Hbits. destruct (_ !! i) as [b|] eqn:Hi; [|done]. simpl.
    apply lookup_lt_Some in Hi. destruct Hm as [(Hnum & _) _]. unfold py_len in Hnum.
    destruct (Z.eqb_spec r (Z.of_nat i)); [lia|done].
  - apply orb_false_iff in Hr as [?%Z.ltb_ge ?%Z.leb_gt].
    destruct (complete_one_request_spec r m Hm) as (m1 & Hc & Hok1 & Hb1 & Hid1 & Hn1); [lia|].
    unfold bind. rewrite Hc. destruct (IH flag m1 Hok1) as (m' & -> & Hok & Hid & Hn & Hbits).
    exists m'. rewrite Hn1. simpl. split_and!; auto; try congruence.
    intros i. rewrite Hbits, Hb1. destruct (decide (i = Z.to_nat r)) as [->|Hne].
    + destruct Hm as [(Hnum & _) _]. unfold py_len in Hnum.
      rewrite list_lookup_insert_eq by lia.
      destruct (lookup_lt_is_Some_2 (request_progress_bits m) (Z.to_nat r)) as [b ->]; [lia|].
      simpl. rewrite Z2Nat.id, Z.eqb_refl by lia. by destruct b.
    + rewrite list_lookup_insert_ne by done. destruct (_ !! i); [|done]. simpl.
      destruct (Z.eqb_spec r (Z.of_nat i)); [lia|done].
Qed.

(** ** Lemmas: the invariant is preserved *)

Lemma validate_job_spec nreq m b m' :
  0 ≤ nreq (meta_job_id m) → validate_job nreq m = (Ret b, m') →
  succeed_num_requests m = 0 → current_request_id m = 0 → job_status m = VALIDATING →
  meta_job_id m' = meta_job_id m ∧ wf_meta m' ∧ succeed_num_requests m' = 0 ∧
  num_requests m' = nreq (meta_job_id m) ∧ (b = true → 0 < num_requests m').
Proof.
  intros Hn Hv Hs Hc Hst. unfold validate_job in Hv. py_unfold.
  unfold wf_meta, py_len.
  destruct (Z.eqb_spec (nreq (meta_job_id m)) 0); simplify_eq/=;
    [|destruct (parse_completion_window _) as [w|[]|]; simplify_eq/=];
    rewrite length_replicate, count_true_replicate; repeat split; lia.
Qed.

Lemma in_progress_progress_ok j m : in_progress_ok j m → progress_ok m.
Proof. intros (?&?&?&?). split; auto. Qed.

(** Cancelling and expiring both move a pending job to the done pool. *)
Lemma retire_pending_wf st j m s :
  wf_manager s → pending_jobs s !! j = Some m → st = CANCELED ∨ st = EXPIRED →
  wf_manager (mkJobManager (delete j (pending_jobs s)) (in_progress_jobs s)
                (<[j := set_job_status st m]> (done_jobs s))).
Proof.
  intros (Hp & Hi & Hd) Hj Hst. destruct (Hp _ _ Hj) as (?&Hwf&?&?&?).
  split_and!; [by apply map_Forall_delete|done|].
  apply map_Forall_insert_2; [|done]. split_and!; [done|exact Hwf|]. destruct Hst as [-> | ->]; auto.
Qed.

Lemma mark_job_progress_wf j rs s :
  wf_manager s → wf_manager (mark_job_progress j rs s).2.
Proof.
  intros (Hp & Hi & Hd). unfold mark_job_progress.
  destruct (in_progress_jobs s !! j) as [m|] eqn:Hj; [|done].
  pose proof (Hi _ _ Hj) as Hm.
  destruct (mark_requests_spec rs false m) as (m' & -> & [Hwf Hst] & Hid & Hnum & _);
    [by eapply in_progress_progress_ok|]. simpl. destruct Hm as (Hid0 & _).
  case_decide as Hc; split_and!; try done; simpl.
  - by apply map_Forall_delete.
  - apply map_Forall_insert_2; [|done]. split_and!; [congruence|exact Hwf|].
    right; right. split; [done|]. apply count_true_full.
    destruct Hwf as (Hn1&Hs1&_). unfold py_len in Hn1.
    destruct Hst as [[? ?]|[? ?]]; [congruence|lia].
  - apply map_Forall_insert_2; [|done]. destruct Hst as [[? ?]|[? ?]]; [|congruence].
    split_and!; [congruence|exact Hwf|done|congruence].
Qed.

Lemma run_op_wf nreq o s :
  (∀ j, 0 ≤ nreq j) → wf_manager s → wf_manager (run_op nreq o s).
Proof.
  intros Hn Hs. pose proof Hs as (Hp & Hi & Hd).
  destruct o as [now j e w|j|j|j rs|j]; simpl.
  - unfold create_job. destruct (validate_job _ _) as [[[]| |] m] eqn:Hv; try done.
    apply validate_job_spec in Hv as (Hid & Hwf & ? & Hnum & Hpos); [|done..].
    split; [|done]. apply map_Forall_insert_2; [|done].
    split_and!; [done|exact Hwf|done|done|by apply Hpos].
  - unfold cancel_job. destruct (pending_jobs s !! j) as [m|] eqn:Hj.
    + by apply retire_pending_wf; auto.
    + by destruct (done_jobs s !! j).
  - unfold start_execute_job. destruct (pending_jobs s !! j) as [m|] eqn:Hj; [|done].
    destruct (in_progress_jobs s !! j) eqn:Hj'; [done|].
    destruct (Hp _ _ Hj) as (?&Hwf&?&?&?). split_and!; [by apply map_Forall_delete| |done].
    apply map_Forall_insert_2; [|done]. split_and!; [done|exact Hwf|done|simpl; lia].
  - by apply mark_job_progress_wf.
  - unfold expire_job. destruct (pending_jobs s !! j) as [m|] eqn:Hj.
    + by apply retire_pending_wf; auto.
    + by destruct (in_progress_jobs s !! j), (done_jobs s !! j).
Qed.

Lemma reachable_wf nreq s :
  (∀ j, 0 ≤ nreq j) → rtc (manager_step nreq) new_JobManager s → wf_manager s.
Proof.
  intros Hn. apply (rtc_ind_r (λ s, wf_manager s)).
  - split_and!; apply map_Forall_empty.
  - intros ?? _ [o s1] IH. by apply run_op_wf.
Qed.

(** ** Properties *)

(** C1: starting from an empty manager, whatever calls are made and in whatever
    order, every pending job is [PENDING] with no request executed, every
    in-progress job is [IN_PROGRESS] with work left, every done job is cancelled,
    expired, or completed with all its requests executed; in each, the progress
    bits agree with the two counters. *)
Theorem manager_invariant (nreq : job_id → Z) (s : JobManager) :
  (∀ j, 0 ≤ nreq j) → rtc (manager_step nreq) new_JobManager s → wf_manager s.
Proof. apply reachable_wf. Qed.

Definition demo_nreq (j : job_id) : Z := 2.

Definition demo_manager : JobManager :=
  run_op demo_nreq (OpMark 7%N [0]) (run_op demo_nreq (OpStart 7%N)
    (run_op demo_nreq (OpCreate 0 7%N "ep" "1h") new_JobManager)).

Lemma demo_manager_reachable : rtc (manager_step demo_nreq) new_JobManager demo_manager.
Proof. do 3 (eapply rtc_r; [|constructor]). apply rtc_refl. Qed.

Lemma manager_invariant_witness : wf_manager demo_manager.
Proof.
  apply (manager_invariant demo_nreq); [intros j; vm_compute; discriminate|].
  apply demo_manager_reachable.
Defined.

(** In every reachable state, asking for the next request of an in-progress
    job returns (the wrap-around scan ends), and returns the least index whose
    request has not been executed. *)
Theorem next_request_least (nreq : job_id → Z) (s : JobManager) (j : job_id) (m : JobMetaInfo) :
  (∀ j, 0 ≤ nreq j) → rtc (manager_step nreq) new_JobManager s →
  in_progress_jobs s !! j = Some m →
  ∃ i : nat, get_job_next_request j s = Ret (Z.of_nat i) ∧
    request_progress_bits m !! i = Some false ∧
    ∀ k, (k < i)%nat → request_progress_bits m !! k = Some true.
Proof.
  intros Hn Hr Hj. destruct (reachable_wf _ _ Hn Hr) as (_ & Hi & _).
  destruct (Hi _ _ Hj) as (_ & (Hnum & Hsucc & Hcur) & _ & Hlt).
  unfold get_job_next_request, next_request_id. rewrite Hj, Hcur.
  destruct (Z.eqb_spec (succeed_num_requests m) (num_requests m)); [lia|].
  unfold py_len in Hnum.
  destruct (first_false (request_progress_bits m)) as (i & Hfi & Hbefore); [lia|].
  exists i. split_and!; try done. apply (next_request_loop_first _ _ _ 0 i); try done; try lia.
  apply lookup_lt_Some in Hfi. lia.
Qed.

Lemma next_request_least_witness :
  ∃ m, in_progress_jobs demo_manager !! 7%N = Some m ∧
  ∃ i : nat, get_job_next_request 7%N demo_manager = Ret (Z.of_nat i) ∧
    request_progress_bits m !! i = Some false ∧
    ∀ k, (k < i)%nat → request_progress_bits m !! k = Some true.
Proof.
  eexists; split; [vm_compute; reflexivity|].
  apply (next_request_least demo_nreq); [intros j; vm_compute; discriminate| |vm_compute; reflexivity].
  apply demo_manager_reachable.
Defined.

(** Reporting executed requests for an in-progress job of a reachable state
    sets exactly the reported in-range bits, returns [False] iff some reported
    index is out of range, and moves the job to the done pool, as [COMPLETED],
    iff all its requests are then executed; other jobs are untouched. *)
Theorem mark_job_progress_spec (nreq : job_id → Z) (s : JobManager) (j : job_id)
    (m : JobMetaInfo) (rs : list Z) :
  (∀ j, 0 ≤ nreq j) → rtc (manager_step nreq) new_JobManager s →
  in_progress_jobs s !! j = Some m →
  ∃ m' s', mark_job_progress j rs s =
      (Ret (negb (existsb (λ r, (r <? 0) || (num_requests m <=? r)) rs)), s') ∧
    (∀ i, request_progress_bits m' !! i =
       (λ b, b || existsb (λ r, r =? Z.of_nat i) rs) <$> request_progress_bits m !! i) ∧
    (if decide (Forall (eq true) (request_progress_bits m'))
     then job_status m' = COMPLETED ∧ in_progress_jobs s' = delete j (in_progress_jobs s) ∧
          done_jobs s' = <[j := m']> (done_jobs s)
     else job_status m' = IN_PROGRESS ∧ in_progress_jobs s' = <[j := m']> (in_progress_jobs s) ∧
          done_jobs s' = done_jobs s) ∧
    pending_jobs s' = pending_jobs s.
Proof.
  intros Hn Hr Hj. destruct (reachable_wf _ _ Hn Hr) as (_ & Hi & _).
  destruct (mark_requests_spec rs false m) as (m' & Hm & [(Hnum & Hsucc & _) Hst] & _ & _ & Hbits);
    [eapply in_progress_progress_ok, Hi, Hj|].
  unfold mark_job_progress. rewrite Hj, Hm. simpl. do 2 eexists. split; [reflexivity|].
  split; [done|]. unfold py_len in Hnum.
  destruct (decide (Forall _ _)) as [Hall|Hall]; rewrite <-count_true_full in Hall.
  - destruct Hst as [[? ?]|[Hc ?]]; [lia|]. rewrite decide_True by done. done.
  - destruct Hst as [[Hc ?]|[? ?]]; [|lia]. rewrite decide_False by (rewrite Hc; done). done.
Qed.

Lemma mark_job_progress_spec_witness :
  ∃ m, in_progress_jobs demo_manager !! 7%N = Some m ∧
  ∃ m' s', mark_job_progress 7%N [1] demo_manager =
      (Ret (negb (existsb (λ r, (r <? 0) || (num_requests m <=? r)) [1])), s') ∧
    (∀ i, request_progress_bits m' !! i =
       (λ b, b || existsb (λ r, r =? Z.of_nat i) [1]) <$> request_progress_bits m !! i) ∧
    (if decide (Forall (eq true) (request_progress_bits m'))
     then job_status m' = COMPLETED ∧ in_progress_jobs s' = delete 7%N (in_progress_jobs demo_manager) ∧
          done_jobs s' = <[7%N := m']> (done_jobs demo_manager)
     else job_status m' = IN_PROGRESS ∧ in_progress_jobs s' = <[7%N := m']> (in_progress_jobs demo_manager) ∧
          done_jobs s' = done_jobs demo_manager) ∧
    pending_jobs s' = pending_jobs demo_manager.
Proof.
  eexists; split; [vm_compute; reflexivity|].
  refine (mark_job_progress_spec demo_nreq demo_manager 7%N _ [1] _ _ _);
    [intros j; vm_compute; discriminate| |vm_compute; reflexivity].
  apply demo_manager_reachable.
Defined.

(** Cancelling a pending job retires it as [CANCELED]; cancelling any other
    job never returns: it raises and changes nothing, so a job in progress
    cannot be cancelled although the code has a branch that means to do it. *)
Theorem cancel_job_spec (s : JobManager) (j : job_id) :
  match pending_jobs s !! j with
  | Some m =>
    ∃ s', cancel_job j s = (Ret true, s') ∧
      pending_jobs s' !! j = None ∧ in_progress_jobs s' = in_progress_jobs s ∧
      done_jobs s' !! j = Some (set_job_status CANCELED m)
  | None =>
    cancel_job j s = (Raise (if decide (is_Some (done_jobs s !! j)) then TypeError else KeyError), s)
  end.
Proof.
  unfold cancel_job. destruct (pending_jobs s !! j) as [m|].
  - eexists; split; [reflexivity|]. simpl. by rewrite lookup_delete_eq, lookup_insert_eq.
  - destruct (done_jobs s !! j); case_decide as H; try done; by destruct H.
Qed.

(** A job enters the pending pool exactly when the storage side has a
    request for it and its window is a number followed by [m] or [h]; the stored
    window is then in minutes, and the job has all its requests to do. *)
Theorem create_job_pending (nreq : job_id → Z) (now : Z) (j : job_id) (e w : string) (s : JobManager) :
  pending_jobs s !! j = None → 0 ≤ nreq j →
  match pending_jobs (create_job nreq now j e w s).2 !! j with
  | Some m => 0 < nreq j ∧ parse_completion_window w = Ret (completion_window m) ∧
      get_job_window_due j (create_job nreq now j e w s).2 = completion_window m ∧
      request_progress_bits m = replicate (Z.to_nat (nreq j)) false ∧ job_status m = PENDING
  | None => nreq j = 0 ∨ ∀ v, parse_completion_window w ≠ Ret v
  end.
Proof.
  intros Hj Hn. unfold create_job, get_job_window_due, validate_job. py_unfold.
  destruct (Z.eqb_spec (nreq j) 0) as [E|E]; simpl; [rewrite Hj; by left|].
  destruct (parse_completion_window w) as [v|[]|] eqn:Hw; simpl; rewrite ?Hj; try (right; done).
  rewrite lookup_insert_eq. simpl. split_and!; auto with lia.
Qed.

Lemma create_job_pending_witness :
  pending_jobs new_JobManager !! 7%N = None ∧
  match pending_jobs (create_job demo_nreq 0 7%N "ep" "2h" new_JobManager).2 !! 7%N with
  | Some m => 0 < demo_nreq 7%N ∧ parse_completion_window "2h" = Ret (completion_window m) ∧
      get_job_window_due 7%N (create_job demo_nreq 0 7%N "ep" "2h" new_JobManager).2 = completion_window m ∧
      request_progress_bits m = replicate (Z.to_nat (demo_nreq 7%N)) false ∧ job_status m = PENDING
  | None => demo_nreq 7%N = 0 ∨ ∀ v, parse_completion_window "2h" ≠ Ret v
  end.
Proof.
  split; [reflexivity|]. apply create_job_pending; [reflexivity|vm_compute; discriminate].
Defined.

(** Concrete windows: units, signs and underscores accepted, the rest refused;
    an empty window is an [IndexError], which the caller does not catch. *)
Example parse_windows :
  parse_completion_window "24h" = Ret 1440 ∧ parse_completion_window "90m" = Ret 90 ∧
  parse_completion_window "1_0m" = Ret 10 ∧ parse_completion_window "-5h" = Ret (-300) ∧
  parse_completion_window "4h 40m" = Raise ValueError ∧
  parse_completion_window "3d" = Raise AssertionError ∧
  parse_completion_window "" = Raise IndexError.
Proof. vm_compute. repeat split. Qed.
