(* ===== verification/Storage.v ===== *)
(** * Batch storage: local files and the request cache

    Models [python/aibrix/aibrix/batch/storage/]: the abstract storage
    ([PersistentStorage] of [generic_storage.py], a type class here), its local
    disk implementation ([LocalDiskFiles]), the in-memory window of requests
    that [batch_storage.py] keeps per job on top of any storage, and the façade
    functions of [__init__.py], which only forward to it.

    The [json] module is a parameter ([Json]) with what the code relies on as
    laws ([JsonLaws]): a dumped value has no line break and loads back from its
    text, with or without the line break after it. A job's directory holds at most [input.json] and [output.json], whose
    text is kept as text and read by lines. *)

From S2P Require Import Prelude JobManager.

Open Scope Z_scope.
Open Scope py_scope.

(** ** The [json] module *)

Class Json := {
  json : Type;
  json_loads : string → option json;
  json_dumps : json → string
}.

Class JsonLaws (J : Json) : Prop := {
  loads_dumps (v : json) : json_loads (json_dumps v +:+ newline) = Some v;
  loads_dumps_text (v : json) : json_loads (json_dumps v) = Some v;
  dumps_no_newline (v : json) : has_newline (json_dumps v) = false;
  dumps_nonempty (v : json) : json_dumps v ≠ EmptyString
}.

(** [json.loads(line)] *)
Definition loads `{Json} (line : string) : outcome json :=
  match json_loads line with Some v => Ret v | None => Raise JSONDecodeError end.

(** ** The interface of a storage *)

Inductive StorageType := LocalDiskFile | S3 | TOS.

#[export] Instance StorageType_eq_dec : EqDecision StorageType.
Proof. solve_decision. Defined.

(** An input file is its text, or [None] when there is no such file. *)
Class PersistentStorage (J : Json) (S : Type) := {
  write_job_input_data : job_id → option string → M S unit;
  read_job_input_data : job_id → Z → Z → S → outcome (list json);
  get_job_number_requests : job_id → S → Z;
  write_job_output_data : job_id → Z → list json → M S unit;
  read_job_output_data : job_id → Z → Z → S → outcome (list json);
  delete_job_data : job_id → M S unit
}.

(** ** Local disk files *)

Record job_dir := mkJobDir { input_json : option string; output_json : option string }.

(** The directory of each job, under the storage path. *)
Abbreviation disk := (gmap job_id job_dir).

Section local_disk.
Context {J : Json}.

(** [for line in ...: if len(line) <= 1: continue; data = json.loads(line)] *)
Fixpoint load_nonblank (lines : list string) : outcome (list json) :=
  match lines with
  | [] => Ret []
  | line :: rest =>
    if (String.length line <=? 1)%nat then load_nonblank rest
    else try* data := loads line in try* tl := load_nonblank rest in Ret (data :: tl)
  end.

Definition local_write_job_input_data (jid : job_id) (file : option string) : M disk unit := λ d,
  match file with
  | None => (Raise FileNotFoundError, d)
  | Some text =>
    match load_nonblank (readlines text) with
    | Ret request_list =>
      match d !! jid with
      | Some _ => (Raise FileExistsError, d)
      | None => (Ret tt, <[jid := mkJobDir (Some (unlines (json_dumps <$> request_list))) None]> d)
      end
    | Raise e => (Raise e, d)
    | OutOfFuel => (OutOfFuel, d)
    end
  end.

(** [for _ in range(n): next(file)]: past the last line, [next] raises, and the
    test [if not file] that follows it in the code is never true. *)
Fixpoint skip_lines (n : nat) (lines : list string) : outcome (list string) :=
  match n with
  | O => Ret lines
  | S n' => match lines with
            | [] => Raise StopIteration
            | _ :: rest => skip_lines n' rest
            end
  end.

(** [for _ in range(n): line = file.readline(); if not line: break; ...] *)
Fixpoint read_n_lines (n : nat) (lines : list string) : outcome (list json) :=
  match n, lines with
  | S n', line :: rest =>
    try* data := loads line in try* tl := read_n_lines n' rest in Ret (data :: tl)
  | _, _ => Ret []
  end.

Definition local_read_job_input_data (jid : job_id) (start_index num : Z)
    (d : disk) : outcome (list json) :=
  match d !! jid ≫= input_json with
  | None => Ret []
  | Some text =>
    try* rest := skip_lines (Z.to_nat start_index) (readlines text) in
    if 0 <? num then read_n_lines (Z.to_nat num) rest else load_nonblank rest
  end.

Definition local_get_job_number_requests (jid : job_id) (d : disk) : Z :=
  match d !! jid ≫= input_json with
  | None => 0
  | Some text => py_len (readlines text)
  end.

(** The output file is opened with mode [a+]: the position is the end of the
    file, so that the loop over [range(start_index)] reads nothing and the
    results are appended whatever the index. *)
Definition local_write_job_output_data (jid : job_id) (start_index : Z)
    (output_list : list json) : M disk unit := λ d,
  match d !! jid with
  | None => (Ret tt, d)
  | Some dir =>
    let old := default EmptyString (output_json dir) in
    (Ret tt, <[jid := mkJobDir (input_json dir)
                        (Some (old +:+ unlines (json_dumps <$> output_list)))]> d)
  end.

(** The reading loop of [read_job_output_data], which stops once [num_lines]
    equals the number asked for. *)
Fixpoint load_until (num num_lines : Z) (lines : list string) : outcome (list json) :=
  match lines with
  | [] => Ret []
  | line :: rest =>
    if (String.length line <=? 1)%nat then load_until num num_lines rest
    else
      try* data := loads line in
      if num_lines + 1 =? num then Ret [data]
      else try* tl := load_until num (num_lines + 1) rest in Ret (data :: tl)
  end.

Definition local_read_job_output_data (jid : job_id) (start_index num : Z)
    (d : disk) : outcome (list json) :=
  match d !! jid with
  | None => Ret []
  | Some dir =>
    match output_json dir with
    | None => Raise FileNotFoundError
    | Some text =>
      try* rest := skip_lines (Z.to_nat start_index) (readlines text) in
      load_until num 0 rest
    end
  end.

(** Both files and then the directory are removed; what does not exist is
    reported and passed over. *)
Definition local_delete_job_data (jid : job_id) : M disk unit := λ d, (Ret tt, delete jid d).

#[export] Instance LocalDiskFiles : PersistentStorage J disk := {
  write_job_input_data := local_write_job_input_data;
  read_job_input_data := local_read_job_input_data;
  get_job_number_requests := local_get_job_number_requests;
  write_job_output_data := local_write_job_output_data;
  read_job_output_data := local_read_job_output_data;
  delete_job_data := local_delete_job_data
}.

End local_disk.

(** ** The request cache of [batch_storage.py] *)

Definition NUM_REQUESTS_PER_READ : Z := 1024.

Record BatchStorage (J : Json) (S : Type) := mkBatchStorage {
  current_job_offsets : gmap job_id Z;
  job_input_requests : gmap job_id (list json);
  p_storage : S
}.

Arguments mkBatchStorage {J S} _ _ _.
Arguments current_job_offsets {J S} _.
Arguments job_input_requests {J S} _.
Arguments p_storage {J S} _.

Section batch_storage.
Context {J : Json} {S : Type} `{!PersistentStorage J S}.

Abbreviation BS := (BatchStorage J S).

Definition set_offset (jid : job_id) (off : Z) (b : BS) : BS :=
  mkBatchStorage (<[jid := off]> (current_job_offsets b)) (job_input_requests b) (p_storage b).

Definition set_cache (jid : job_id) (c : list json) (b : BS) : BS :=
  mkBatchStorage (current_job_offsets b) (<[jid := c]> (job_input_requests b)) (p_storage b).

Definition set_p_storage (s : S) (b : BS) : BS :=
  mkBatchStorage (current_job_offsets b) (job_input_requests b) s.

(** A method of the storage, run on [p_storage]. *)
Definition on_storage {A} (m : M S A) : M BS A := zoom p_storage set_p_storage m.

(** [job_input_requests[job_id]] *)
Definition get_cache (jid : job_id) : M BS (list json) := λ b,
  match job_input_requests b !! jid with
  | Some c => (Ret c, b)
  | None => (Raise KeyError, b)
  end.

Definition read_storage (jid : job_id) (start num : Z) : M BS (list json) := λ b,
  (read_job_input_data jid start num (p_storage b), b).

(** [upload_input_data]; the fresh [uuid] is an argument. *)
Definition upload_input_data (jid : job_id) (file : option string) : M BS job_id :=
  on_storage (write_job_input_data jid file) ;;
  modify (set_offset jid 0) ;;
  ret jid.

(** The steps of [read_job_requests]; a pair holds the local variables
    [current_start_idx] and [current_end_idx]. First: if no request is cached,
    a list of requests is read from the storage. *)
Definition ensure_cached (jid : job_id) : M BS unit :=
  let* cached := gets (λ b, job_input_requests b !! jid) in
  match cached with
  | Some _ => ret tt
  | None =>
    let* request_inputs := read_storage jid 0 NUM_REQUESTS_PER_READ in
    modify (set_cache jid request_inputs)
  end.

(** A backward read fetches the requests before the window. *)
Definition read_backward (jid : job_id) (start_index num_requests start0 : Z) : M BS (Z * Z) :=
  if start_index <? start0 then
    (if start_index + num_requests <? start0 + 1 then
       let* diff_requests := read_storage jid start_index num_requests in
       modify (set_cache jid diff_requests)
     else
       let* diff_requests := read_storage jid start_index (start0 + 1 - start_index) in
       let* c := get_cache jid in
       modify (set_cache jid (diff_requests ++ c))) ;;
    modify (set_offset jid start_index) ;;
    let* c := get_cache jid in
    ret (start_index, start_index + py_len c)
  else
    let* c := get_cache jid in
    ret (start0, start0 + py_len c).

(** A window that ends before the first request asked for is thrown away. *)
Definition drop_stale (jid : job_id) (start_index : Z) (idx : Z * Z) : M BS (Z * Z) :=
  if snd idx <=? start_index then
    modify (set_offset jid start_index) ;;
    modify (set_cache jid []) ;;
    ret (start_index, start_index)
  else ret idx.

(** The window is extended up to the last request asked for. *)
Definition read_forward (jid : job_id) (start_index num_requests : Z) (idx : Z * Z) : M BS Z :=
  if snd idx <? start_index + num_requests then
    let temp_len := start_index + num_requests - snd idx in
    let* diff_requests := read_storage jid (snd idx) temp_len in
    let* c := get_cache jid in
    modify (set_cache jid (c ++ diff_requests)) ;;
    let* offs := gets current_job_offsets in
    let* c' := get_cache jid in
    match offs !! jid with
    | Some off => ret (off + py_len c')
    | None => raise KeyError
    end
  else ret (snd idx).

Definition read_job_requests (jid : job_id) (start_index num_requests : Z) : M BS (list json) :=
  let* offsets := gets current_job_offsets in
  match offsets !! jid with
  | None => ret []
  | Some start0 =>
    ensure_cached jid ;;
    let* idx1 := read_backward jid start_index num_requests start0 in
    let* idx2 := drop_stale jid start_index idx1 in
    let* end3 := read_forward jid start_index num_requests idx2 in
    let available_num_req := Z.min num_requests (end3 - start_index) in
    let start_offset := start_index - fst idx2 in
    let* c := get_cache jid in
    ret (py_slice c start_offset (start_offset + available_num_req))
  end.

Definition put_storage_job_results (jid : job_id) (start_index : Z)
    (requests_results : list json) : M BS unit :=
  on_storage (write_job_output_data jid start_index requests_results).

Definition get_storage_job_results (jid : job_id) (start_index num_requests : Z)
    (b : BS) : outcome (list json) :=
  read_job_output_data jid start_index num_requests (p_storage b).

Definition remove_storage_job_data (jid : job_id) : M BS unit := on_storage (delete_job_data jid).

Definition get_job_request_len (jid : job_id) (b : BS) : Z :=
  get_job_number_requests jid (p_storage b).

End batch_storage.

Arguments get_cache : simpl never.

(** The module variables of [batch_storage.py] once [initialize_batch_storage]
    has set [p_storage]: nothing cached, the storage as it is found. *)
Definition new_BatchStorage {J : Json} {S : Type} (s : S) : BatchStorage J S :=
  mkBatchStorage ∅ ∅ s.

(** ** What a storage promises to the cache *)

(** [stored j s]: the requests of job [j], in order. The laws are what the
    clients of a storage rely on. *)
Class StorageLaws (J : Json) (S : Type) `{!PersistentStorage J S} := {
  stored : job_id → S → option (list json);
  read_stored j s rs a n :
    stored j s = Some rs → 0 ≤ a ≤ py_len rs → 0 < n →
    read_job_input_data j a n s = Ret (take (Z.to_nat n) (drop (Z.to_nat a) rs));
  number_stored j s rs :
    stored j s = Some rs → get_job_number_requests j s = py_len rs;
  write_output_stored j i out j' s :
    stored j' (write_job_output_data j i out s).2 = stored j' s
}.

(** The cache of a job is a window of its requests, starting at its offset;
    before the first read there is no window and the offset is 0. *)
Definition cache_ok {J : Json} {S} {PS : PersistentStorage J S} {SL : StorageLaws J S}
    (j : job_id) (rs : list json) (b : BatchStorage J S) : Prop :=
  stored j (p_storage b) = Some rs ∧
  ∃ off : nat, current_job_offsets b !! j = Some (Z.of_nat off) ∧
    match job_input_requests b !! j with
    | None => off = 0%nat
    | Some c => c = take (length c) (drop off rs)
    end.

(** The offset of the window a job currently has. *)
Definition window_start {J : Json} {S} (j : job_id) (b : BatchStorage J S) : Z :=
  default 0 (current_job_offsets b !! j).

(** ** Lemmas: reading lines *)

Section local_lemmas.
Context {J : Json} {JL : JsonLaws J}.

Lemma dumps_lines (rs : list json) :
  readlines (unlines (json_dumps <$> rs)) = (λ v, json_dumps v +:+ newline) <$> rs.
Proof.
  rewrite readlines_unlines.
  - by rewrite <-list_fmap_compose.
  - apply Forall_fmap, Forall_true. intros v. apply dumps_no_newline.
Qed.

Lemma dumps_line_long (v : json) : (String.length (json_dumps v +:+ newline) <=? 1)%nat = false.
Proof.
  destruct (json_dumps v) as [|c s] eqn:E; [by destruct (dumps_nonempty v)|].
  rewrite append_cons. simpl. apply Nat.leb_gt. destruct s; [simpl; lia|rewrite append_cons; simpl; lia].
Qed.

Lemma loads_dumps_line (v : json) : loads (json_dumps v +:+ newline) = Ret v.
Proof. unfold loads. by rewrite loads_dumps. Qed.

Lemma skip_lines_drop n (ls : list string) :
  skip_lines n ls = if decide (n ≤ length ls)%nat then Ret (drop n ls) else Raise StopIteration.
Proof.
  revert ls. induction n as [|n IH]; intros ls; simpl; [by destruct ls|].
  destruct ls as [|l ls]; simpl; [done|]. rewrite IH.
  destruct (decide (n ≤ length ls)%nat), (decide (S n ≤ S (length ls))%nat); done || lia.
Qed.

Lemma read_n_lines_dumps n (rs : list json) :
  read_n_lines n ((λ v, json_dumps v +:+ newline) <$> rs) = Ret (take n rs).
Proof.
  revert rs. induction n as [|n IH]; intros [|r rs]; csimpl; try done.
  rewrite loads_dumps_line. csimpl. by rewrite IH.
Qed.

Lemma load_until_dumps num k (rs : list json) :
  0 ≤ k < num →
  load_until num k ((λ v, json_dumps v +:+ newline) <$> rs) = Ret (take (Z.to_nat (num - k)) rs).
Proof.
  revert k. induction rs as [|r rs IH]; intros k Hk; csimpl; [by rewrite take_nil|].
  rewrite dumps_line_long, loads_dumps_line. csimpl.
  replace (Z.to_nat (num - k)) with (S (Z.to_nat (num - (k + 1)))) by lia. csimpl.
  destruct (Z.eqb_spec (k + 1) num) as [->|].
  - by rewrite Z.sub_diag.
  - rewrite IH by lia. done.
Qed.

Lemma load_nonblank_dumps (rs : list json) :
  load_nonblank ((λ v, json_dumps v +:+ newline) <$> rs) = Ret rs.
Proof.
  induction rs as [|r rs IH]; csimpl; [done|].
  rewrite dumps_line_long, loads_dumps_line. csimpl.
  by rewrite IH.
Qed.

(** The local disk stores the requests of a job one per line. *)
Definition local_stored (j : job_id) (d : disk) : option (list json) :=
  match d !! j ≫= input_json with
  | None => None
  | Some text =>
    match load_nonblank (readlines text) with
    | Ret rs => if decide (text = unlines (json_dumps <$> rs)) then Some rs else None
    | _ => None
    end
  end.

Lemma local_stored_text j d rs :
  local_stored j d = Some rs ↔
  ∃ dir, d !! j = Some dir ∧ input_json dir = Some (unlines (json_dumps <$> rs)).
Proof.
  unfold local_stored. split.
  - destruct (d !! j) as [dir|]; simpl; [|done].
    destruct (input_json dir) as [text|] eqn:Hin; [|done].
    destruct (load_nonblank _) as [rs'| |]; try done. case_decide; [|done].
    intros [= ->]. exists dir. by simplify_eq.
  - intros (dir & -> & Hin). simpl. rewrite Hin, dumps_lines, load_nonblank_dumps.
    by rewrite decide_True.
Qed.

Lemma local_read_stored j d rs a n :
  local_stored j d = Some rs → 0 ≤ a ≤ py_len rs → 0 < n →
  local_read_job_input_data j a n d = Ret (take (Z.to_nat n) (drop (Z.to_nat a) rs)).
Proof.
  intros (dir & Hd & Hin)%local_stored_text Ha Hn. unfold py_len in Ha.
  unfold local_read_job_input_data. rewrite Hd. simpl. rewrite Hin, dumps_lines.
  rewrite skip_lines_drop, length_fmap, decide_True by lia. simpl.
  destruct (Z.ltb_spec 0 n); [|lia]. by rewrite <-fmap_drop, read_n_lines_dumps.
Qed.

Lemma local_number_stored j d rs :
  local_stored j d = Some rs → local_get_job_number_requests j d = py_len rs.
Proof.
  intros (dir & Hd & Hin)%local_stored_text.
  unfold local_get_job_number_requests. rewrite Hd. simpl.
  by rewrite Hin, dumps_lines; unfold py_len; rewrite length_fmap.
Qed.

Lemma local_write_output_stored j i out j' (d : disk) :
  local_stored j' (local_write_job_output_data j i out d).2 = local_stored j' d.
Proof.
  unfold local_write_job_output_data, local_stored.
  destruct (d !! j) as [dir|] eqn:Hd; [|done]. simpl.
  destruct (decide (j = j')) as [->|]; simplify_map_eq; done.
Qed.

#[export] Instance LocalDiskFiles_laws : StorageLaws J disk := {
  stored := local_stored;
  read_stored := local_read_stored;
  number_stored := local_number_stored;
  write_output_stored := local_write_output_stored
}.

End local_lemmas.

(** ** Lemmas: the request cache, over any storage that keeps its promises *)

Section cache_lemmas.
Context {J : Json} {S : Type} {PS : PersistentStorage J S} {SL : StorageLaws J S}.
Variables (j : job_id) (rs : list json).

(** The window of the job is [c], at offset [off]. *)
Definition window (off : nat) (c : list json) (b : BatchStorage J S) : Prop :=
  stored j (p_storage b) = Some rs ∧ current_job_offsets b !! j = Some (Z.of_nat off) ∧
  job_input_requests b !! j = Some c ∧ c = take (length c) (drop off rs).

Lemma window_take off n b :
  stored j (p_storage b) = Some rs → current_job_offsets b !! j = Some (Z.of_nat off) →
  job_input_requests b !! j = Some (take n (drop off rs)) → window off (take n (drop off rs)) b.
Proof.
  intros ???. split_and!; try done. rewrite length_take, <-take_take.
  by rewrite (take_ge (drop off rs) (length _)).
Qed.

Lemma window_bound off c b : window off c b → (length c ≤ length rs - off)%nat.
Proof. intros (_ & _ & _ & ->). rewrite length_take, length_drop. lia. Qed.

Lemma get_cache_window off c b : window off c b → get_cache j b = (Ret c, b).
Proof. intros (_ & _ & Hc & _). unfold get_cache. by rewrite Hc. Qed.

Lemma ensure_cached_ok b off :
  cache_ok j rs b → current_job_offsets b !! j = Some (Z.of_nat off) →
  ∃ c b', ensure_cached j b = (Ret tt, b') ∧ window off c b' ∧ p_storage b' = p_storage b.
Proof.
  intros (Hst & off' & Hoff & Hc) Hoff'. simplify_eq. unfold ensure_cached. py_unfold.
  destruct (job_input_requests b !! j) as [c|] eqn:Hcache.
  - exists c, b. by split_and!.
  - rewrite (read_stored _ _ rs) 
      by (done || (pose proof (py_len_nonneg rs); unfold NUM_REQUESTS_PER_READ; lia)).
    simpl. subst off'.
    eexists _, _. split_and!; [done| |done]. apply window_take; try done. simpl.
    by rewrite lookup_insert_eq.
Qed.

Lemma read_backward_ok a n off c b :
  window off c b → 0 ≤ a ≤ py_len rs → 0 < n → ¬ (a < Z.of_nat off < a + n) →
  ∃ off' c' b', read_backward j a n (Z.of_nat off) b =
      (Ret (Z.of_nat off', Z.of_nat off' + py_len c'), b') ∧
    window off' c' b' ∧ Z.of_nat off' ≤ a ∧ p_storage b' = p_storage b.
Proof.
  intros Hw Ha Hn Hov. pose proof Hw as (Hst & Hoff & _). unfold read_backward.
  destruct (Z.ltb_spec a (Z.of_nat off)).
  - destruct (Z.ltb_spec (a + n) (Z.of_nat off + 1)); [|lia]. py_unfold.
    rewrite (read_stored _ _ rs) by done. simpl. unfold get_cache. simpl. rewrite lookup_insert_eq.
    exists (Z.to_nat a), (take (Z.to_nat n) (drop (Z.to_nat a) rs)). eexists.
    rewrite Z2Nat.id by lia. split_and!; [done| |lia|done].
    apply window_take; simpl; rewrite ?lookup_insert_eq, ?Z2Nat.id by lia; done.
  - py_unfold. rewrite (get_cache_window _ _ _ Hw). exists off, c, b. auto with lia.
Qed.

Lemma drop_stale_ok a off c b :
  window off c b → 0 ≤ a ≤ py_len rs → Z.of_nat off ≤ a →
  ∃ off' c' b', drop_stale j a (Z.of_nat off, Z.of_nat off + py_len c) b =
      (Ret (Z.of_nat off', Z.of_nat off' + py_len c'), b') ∧
    window off' c' b' ∧ Z.of_nat off' ≤ a ≤ Z.of_nat off' + py_len c' ∧
    p_storage b' = p_storage b.
Proof.
  intros Hw Ha Hle. unfold drop_stale. simpl. destruct (Z.leb_spec (Z.of_nat off + py_len c) a).
  - exists (Z.to_nat a), []. eexists. py_unfold. rewrite Z2Nat.id by lia. unfold py_len. simpl.
    rewrite Z.add_0_r. split_and!; [done| |lia|lia|done].
    destruct Hw as (Hst & _). split_and!; simpl; rewrite ?lookup_insert_eq, ?Z2Nat.id by lia; done.
  - exists off, c, b. split_and!; [done|done|lia|lia|done].
Qed.

Lemma read_forward_ok a n off c b :
  window off c b → 0 ≤ a ≤ py_len rs → 0 < n →
  Z.of_nat off ≤ a ≤ Z.of_nat off + py_len c →
  ∃ c' b', read_forward j a n (Z.of_nat off, Z.of_nat off + py_len c) b =
      (Ret (Z.of_nat off + py_len c'), b') ∧
    window off c' b' ∧ Z.min (a + n) (py_len rs) ≤ Z.of_nat off + py_len c' ∧
    p_storage b' = p_storage b.
Proof.
  intros Hw Ha Hn Hle. pose proof (window_bound _ _ _ Hw) as Hb.
  pose proof Hw as (Hst & Hoff & Hc & Hwin). unfold read_forward, py_len in *. simpl.
  destruct (Z.ltb_spec (Z.of_nat off + Z.of_nat (length c)) (a + n)).
  - py_unfold. rewrite (read_stored _ _ rs) by (done || unfold py_len; lia).
    rewrite (get_cache_window _ _ _ Hw). unfold get_cache. simpl. rewrite lookup_insert_eq, Hoff.
    set (t := Z.to_nat (a + n - (Z.of_nat off + Z.of_nat (length c)))).
    replace (Z.to_nat (Z.of_nat off + Z.of_nat (length c))) with (off + length c)%nat by lia.
    assert (Heq : c ++ take t (drop (off + length c) rs) = take (length c + t) (drop off rs)).
    { rewrite Hwin at 1. apply take_drop_adjacent. }
    rewrite Heq. eexists _, _. split_and!; [done| |rewrite length_take, length_drop; lia|done].
    apply window_take; simpl; rewrite ?lookup_insert_eq; done.
  - exists c, b. split_and!; [done|done|lia|done].
Qed.

Lemma read_job_requests_ok a n b :
  cache_ok j rs b → 0 ≤ a ≤ py_len rs → 0 < n → ¬ (a < window_start j b < a + n) →
  ∃ b', read_job_requests j a n b = (Ret (take (Z.to_nat n) (drop (Z.to_nat a) rs)), b') ∧
    cache_ok j rs b' ∧ p_storage b' = p_storage b.
Proof.
  intros Hok Ha Hn Hov. pose proof Hok as (_ & off & Hoff & _).
  unfold window_start in Hov. rewrite Hoff in Hov. simpl in Hov.
  unfold read_job_requests. py_unfold. rewrite Hoff.
  destruct (ensure_cached_ok b off) as (c1 & b1 & -> & Hw1 & E1); [done..|].
  destruct (read_backward_ok a n off c1 b1) as (o2 & c2 & b2 & -> & Hw2 & Hle2 & E2); [done..|].
  destruct (drop_stale_ok a o2 c2 b2) as (o3 & c3 & b3 & -> & Hw3 & Hle3 & E3); [done..|].
  destruct (read_forward_ok a n o3 c3 b3) as (c4 & b4 & -> & Hw4 & Hle4 & E4); [done..|].
  simpl. rewrite (get_cache_window _ _ _ Hw4). exists b4.
  pose proof (window_bound _ _ _ Hw4) as Hb4. destruct Hw4 as (Hst4 & Hoff4 & Hc4 & Hwin4).
  unfold py_len in Ha, Hle4.
  split_and!; [|split; [done|]; exists o3; by rewrite Hc4|congruence]. f_equal. f_equal.
  rewrite py_slice_take_drop by (unfold py_len; lia).
  assert (Hdrop : ∀ k, drop k c4 = drop k (take (length c4) (drop o3 rs))) by congruence.
  rewrite Hdrop, take_drop_window by (unfold py_len; lia).
  replace (o3 + Z.to_nat (a - Z.of_nat o3))%nat with (Z.to_nat a) by lia.
  destruct (decide (a + n ≤ Z.of_nat o3 + py_len c4)).
  - f_equal. lia.
  - unfold py_len in *. rewrite !take_ge; [done|rewrite length_drop; lia..].
Qed.

End cache_lemmas.

(** ** Lemmas: uploads and results on the local disk *)

Section local_results.
Context {J : Json} {JL : JsonLaws J}.

Lemma upload_ok (j : job_id) (text : string) (rs : list json) (b : BatchStorage J disk) :
  load_nonblank (readlines text) = Ret rs → p_storage b !! j = None →
  job_input_requests b !! j = None →
  ∃ b', upload_input_data j (Some text) b = (Ret j, b') ∧ cache_ok j rs b' ∧
    p_storage b' !! j = Some (mkJobDir (Some (unlines (json_dumps <$> rs))) None) ∧
    (∀ j', j' ≠ j → p_storage b' !! j' = p_storage b !! j').
Proof.
  intros Hload Hfresh Hnc. unfold upload_input_data, on_storage. py_unfold.
  unfold local_write_job_input_data. rewrite Hload, Hfresh. simpl. eexists. split; [done|].
  split_and!; simpl.
  - split.
    + apply local_stored_text. eexists. simpl. by rewrite lookup_insert_eq.
    + exists 0%nat. simpl. by rewrite lookup_insert_eq, Hnc.
  - by rewrite lookup_insert_eq.
  - intros j' Hne. by rewrite lookup_insert_ne.
Qed.

(** The results of a job: what its output file reads as. *)
Definition results_are (j : job_id) (out : list json) (d : disk) : Prop :=
  ∃ dir, d !! j = Some dir ∧
    default EmptyString (output_json dir) = unlines (json_dumps <$> out).

Lemma write_output_results j i out new (d : disk) :
  results_are j out d →
  ∃ d', local_write_job_output_data j i new d = (Ret tt, d') ∧ results_are j (out ++ new) d'.
Proof.
  intros (dir & Hd & Hout). unfold local_write_job_output_data. rewrite Hd, Hout.
  eexists. split; [done|]. eexists. rewrite lookup_insert_eq. split; [done|]. simpl.
  by rewrite fmap_app, unlines_app.
Qed.

Lemma read_output_results j out n (d : disk) dir text :
  d !! j = Some dir → output_json dir = Some text → text = unlines (json_dumps <$> out) → 0 < n →
  local_read_job_output_data j 0 n d = Ret (take (Z.to_nat n) out).
Proof.
  intros Hd Ho -> Hn. unfold local_read_job_output_data. rewrite Hd, Ho, dumps_lines. simpl.
  rewrite load_until_dumps by lia. f_equal. f_equal. lia.
Qed.

End local_results.

(** A request inside the window is served without the storage. *)
Lemma read_cached {J : Json} {S : Type} {PS : PersistentStorage J S} (j : job_id) c
    (a : nat) r (b : BatchStorage J S) :
  current_job_offsets b !! j = Some 0 → job_input_requests b !! j = Some c → c !! a = Some r →
  (read_job_requests j (Z.of_nat a) 1 b).1 = Ret [r].
Proof.
  intros Hoff Hc Hr. pose proof (lookup_lt_Some _ _ _ Hr).
  unfold read_job_requests, ensure_cached, read_backward, drop_stale, read_forward. py_unfold.
  rewrite Hoff, Hc. destruct (Z.ltb_spec (Z.of_nat a) 0); [lia|].
  unfold get_cache. rewrite Hc, Z.add_0_l. unfold py_len. simpl.
  destruct (Z.leb_spec (Z.of_nat (length c)) (Z.of_nat a)); [lia|]. simpl.
  destruct (Z.ltb_spec (Z.of_nat (length c)) (Z.of_nat a + 1)); [lia|]. rewrite Hc. simpl.
  rewrite py_slice_take_drop by (unfold py_len; lia).
  rewrite Z.sub_0_r, Nat2Z.id, (drop_S _ r) by done.
  replace (Z.to_nat _) with 1%nat by lia. done.
Qed.

(** A sequence of [put_job_results] calls, each with its index. *)
Fixpoint put_all {J : Json} (j : job_id) (calls : list (Z * list json)) : M disk unit :=
  match calls with
  | [] => ret tt
  | (i, out) :: rest => local_write_job_output_data j i out ;; put_all j rest
  end.

Lemma put_all_results {J : Json} {JL : JsonLaws J} j calls out (d : disk) :
  results_are j out d →
  ∃ d', put_all j calls d = (Ret tt, d') ∧ results_are j (out ++ concat (snd <$> calls)) d'.
Proof.
  revert out d. induction calls as [|[i new] calls IH]; intros out d Hr; csimpl.
  - exists d. by rewrite app_nil_r.
  - destruct (write_output_results j i out new d Hr) as (d1 & Hw & Hr1).
    unfold bind. rewrite Hw. destruct (IH _ _ Hr1) as (d2 & -> & Hr2).
    exists d2. split; [done|]. by rewrite <-app_assoc in Hr2.
Qed.

Lemma put_all_output {J : Json} j calls (d d' : disk) dir :
  d !! j = Some dir → calls ≠ [] → put_all j calls d = (Ret tt, d') →
  ∃ dir' text, d' !! j = Some dir' ∧ output_json dir' = Some text.
Proof.
  revert d dir. induction calls as [|[i new] calls IH]; intros d dir Hd Hne; [done|]. simpl.
  unfold bind, local_write_job_output_data. rewrite Hd.
  destruct calls as [|c calls]; [intros [= <-]; do 2 eexists; by rewrite lookup_insert_eq|].
  intros Hput. eapply IH; [|done|exact Hput]. by rewrite lookup_insert_eq.
Qed.

(** ** A small instance of the [json] module: strings over the letters t and f *)

Definition quote_char : Ascii.ascii := Ascii.ascii_of_nat 34.

Fixpoint demo_letters (l : list bool) : string :=
  match l with
  | [] => String quote_char EmptyString
  | b :: l' => String (Ascii.ascii_of_nat (if b then 116 else 102)) (demo_letters l')
  end.

Fixpoint demo_parse (s : string) : option (list bool) :=
  match s with
  | EmptyString => None
  | String c s' =>
    if Ascii.eqb c quote_char then
      match s' with
      | EmptyString => Some []
      | String c' EmptyString => if Ascii.eqb c' nl then Some [] else None
      | _ => None
      end
    else if Ascii.eqb c (Ascii.ascii_of_nat 116) then cons true <$> demo_parse s'
    else if Ascii.eqb c (Ascii.ascii_of_nat 102) then cons false <$> demo_parse s'
    else None
  end.

Definition demo_json : Json := {|
  json := list bool;
  json_loads s := match s with
                  | String c s' => if Ascii.eqb c quote_char then demo_parse s' else None
                  | EmptyString => None
                  end;
  json_dumps l := String quote_char (demo_letters l)
|}.

#[export] Instance demo_json_laws : JsonLaws demo_json.
Proof.
  split; simpl; [| |intros v; induction v as [|[] v IH]; done|done];
    intros v; (induction v as [|b v IH]; [done|]); by destruct b; simpl; rewrite IH.
Qed.

(** The binary digits of a number, as a value of the instance. *)
Fixpoint bits_of (k : nat) (n : N) : list bool :=
  match k with O => [] | S k' => N.odd n :: bits_of k' (N.div2 n) end.

(** A job of [n] distinct requests, uploaded. *)
Definition demo_requests (n : nat) : list (@json demo_json) := (λ i, bits_of 12 (N.of_nat i)) <$> seq 0 n.

Definition demo_storage (n : nat) : BatchStorage demo_json disk :=
  (upload_input_data 7%N (Some (unlines (@json_dumps demo_json <$> demo_requests n)))
     (new_BatchStorage ∅)).2.

(** ** Properties *)

(** C4: over any storage that keeps its promises, a read of [n] requests from
    index [a] returns exactly the job's requests [a .. a+n-1] (fewer at the end
    of the job), whatever reads came before, and leaves a valid cache, unless
    the read starts before the cached window and ends inside it. *)
Theorem read_job_requests_correct (J : Json) (S : Type) (PS : PersistentStorage J S)
    (SL : StorageLaws J S) (j : job_id) (rs : list json) (a n : Z) (b : BatchStorage J S) :
  cache_ok j rs b → 0 ≤ a ≤ py_len rs → 0 < n → ¬ (a < window_start j b < a + n) →
  ∃ b', read_job_requests j a n b = (Ret (take (Z.to_nat n) (drop (Z.to_nat a) rs)), b') ∧
    cache_ok j rs b' ∧ p_storage b' = p_storage b.
Proof. apply read_job_requests_ok. Qed.

Lemma demo_storage_ok n : cache_ok 7%N (demo_requests n) (demo_storage n).
Proof.
  unfold demo_storage.
  destruct (upload_ok 7%N (unlines (@json_dumps demo_json <$> demo_requests n)) (demo_requests n)
    (new_BatchStorage ∅)) as (b' & -> & Hok & _); [|done..|done].
  by rewrite dumps_lines, load_nonblank_dumps.
Qed.

Lemma read_job_requests_correct_witness :
  ∃ b', read_job_requests 7%N 1 2 (demo_storage 3) =
      (Ret (take (Z.to_nat 2) (drop (Z.to_nat 1) (demo_requests 3))), b') ∧
    cache_ok 7%N (demo_requests 3) b' ∧ p_storage b' = p_storage (demo_storage 3).
Proof.
  apply (read_job_requests_correct demo_json disk _ _ 7%N (demo_requests 3) 1 2 (demo_storage 3));
    [apply demo_storage_ok|vm_compute; split; discriminate|reflexivity|].
  vm_compute. intros [? ?]. discriminate.
Defined.

(** Reading one request at a time, as the request proxy does, is always
    right: whatever window is cached, the read of request [a] returns that
    request and keeps the cache valid. *)
Theorem read_one_request_correct (J : Json) (S : Type) (PS : PersistentStorage J S)
    (SL : StorageLaws J S) (j : job_id) (rs : list json) (a : nat) (r : json) (b : BatchStorage J S) :
  cache_ok j rs b → rs !! a = Some r →
  ∃ b', read_job_requests j (Z.of_nat a) 1 b = (Ret [r], b') ∧ cache_ok j rs b' ∧
    p_storage b' = p_storage b.
Proof.
  intros Hok Hr. pose proof (lookup_lt_Some _ _ _ Hr).
  destruct (read_job_requests_ok j rs (Z.of_nat a) 1 b Hok) as (b' & Heq & Hok' & Hst);
    [unfold py_len; lia|lia|lia|].
  exists b'. split_and!; try done. rewrite Heq, Nat2Z.id, (drop_S _ r) by done. done.
Qed.

Lemma read_one_request_correct_witness :
  demo_requests 3 !! 2%nat = Some (bits_of 12 2) ∧
  ∃ b', read_job_requests 7%N (Z.of_nat 2) 1 (demo_storage 3) = (Ret [bits_of 12 2], b') ∧
    cache_ok 7%N (demo_requests 3) b' ∧ p_storage b' = p_storage (demo_storage 3).
Proof.
  split; [reflexivity|].
  apply (read_one_request_correct demo_json disk _ _ 7%N (demo_requests 3) 2);
    [apply demo_storage_ok|reflexivity].
Defined.

(** The backward read that overlaps the cached window fetches one request
    too many: after the window has moved to request 1026 of a job of 1030
    distinct requests, reading requests 1024 to 1027 returns request 1026 twice
    and never 1027. *)
Theorem overlapping_read_duplicates :
  let b1 := (read_job_requests 7%N 1026 1 (demo_storage 1030)).2 in
  (read_job_requests 7%N 1024 4 b1).1 =
    Ret [bits_of 12 1024; bits_of 12 1025; bits_of 12 1026; bits_of 12 1026].
Proof. vm_compute. reflexivity. Qed.

(** Uploading a file whose non-blank lines are JSON values, under a fresh
    job id, stores exactly these values in order: the job's request count is
    their number, and reading request [a] returns the [a]-th of them. *)
Theorem upload_roundtrip (J : Json) (JL : JsonLaws J) (j : job_id) (text : string)
    (rs : list json) (a : nat) (r : json) (b : BatchStorage J disk) :
  load_nonblank (readlines text) = Ret rs → p_storage b !! j = None →
  job_input_requests b !! j = None → rs !! a = Some r →
  ∃ b', upload_input_data j (Some text) b = (Ret j, b') ∧
    get_job_request_len j b' = py_len rs ∧
    (read_job_requests j (Z.of_nat a) 1 b').1 = Ret [r].
Proof.
  intros Hload Hfresh Hnc Hr.
  destruct (upload_ok j text rs b Hload Hfresh Hnc) as (b' & -> & Hok & Hdir & _).
  exists b'. split_and!; [done| |].
  - apply local_number_stored, local_stored_text. eexists. by rewrite Hdir.
  - pose proof (lookup_lt_Some _ _ _ Hr).
    destruct (read_job_requests_ok j rs (Z.of_nat a) 1 b' Hok) as (b2 & -> & _);
      [unfold py_len; lia|lia|lia|].
    simpl. by rewrite Nat2Z.id, (drop_S _ r).
Qed.

Lemma upload_roundtrip_witness :
  let text := @json_dumps demo_json [true] +:+ newline +:+ newline +:+ @json_dumps demo_json [false] in
  ∃ b', upload_input_data 7%N (Some text) (new_BatchStorage (J:=demo_json) (∅ : disk)) = (Ret 7%N, b') ∧
    get_job_request_len 7%N b' = py_len [[true]; [false]] ∧
    (read_job_requests 7%N (Z.of_nat 1) 1 b').1 = Ret [[false]].
Proof.
  intros text. apply (upload_roundtrip demo_json _ 7%N text [[true]; [false]] 1 [false]); reflexivity.
Defined.

(** The results of a job read back in the order they were written, one
    after the other, whatever start index each write was given: the index of
    [put_job_results] has no effect. *)
Theorem results_roundtrip (J : Json) (JL : JsonLaws J) (j : job_id) (dir : job_dir)
    (calls : list (Z * list json)) (n : Z) (d : disk) :
  d !! j = Some dir → output_json dir = None → calls ≠ [] → 0 < n →
  ∃ d', put_all j calls d = (Ret tt, d') ∧
    read_job_output_data j 0 n d' = Ret (take (Z.to_nat n) (concat (snd <$> calls))).
Proof.
  intros Hd Hout Hne Hn.
  destruct (put_all_results j calls [] d) as (d' & Hput & dir' & Hd' & Htext).
  { exists dir. by rewrite Hout. }
  exists d'. split; [done|].
  destruct (put_all_output j calls d d' dir Hd Hne Hput) as (dir2 & text & Hd2 & Ho2).
  simplify_eq. rewrite Ho2 in Htext. simpl in Htext. by eapply read_output_results.
Qed.

Lemma results_roundtrip_witness :
  ∃ d', put_all (J:=demo_json) 7%N [(5, [[true]]); (0, [[false]])] {[7%N := mkJobDir None None]} = (Ret tt, d') ∧
    read_job_output_data (J:=demo_json) 7%N 0 2 d' =
      Ret (take (Z.to_nat 2) (concat (snd <$> [(5, [[true]]); (0, [[false]])]))).
Proof.
  apply (results_roundtrip demo_json _ 7%N (mkJobDir None None)
    [(5, [[true]]); (0, [[false]])] 2); reflexivity || discriminate.
Defined.

(** Deleting a job removes its files but not its cached requests: after a
    delete, a read that the window covers still returns the deleted requests,
    although the storage then counts none. *)
Theorem delete_keeps_cache (J : Json) (j : job_id) (c : list json)
    (a : nat) (r : json) (b : BatchStorage J disk) :
  current_job_offsets b !! j = Some 0 → job_input_requests b !! j = Some c → c !! a = Some r →
  let b' := (remove_storage_job_data j b).2 in
  get_job_request_len j b' = 0 ∧ (read_job_requests j (Z.of_nat a) 1 b').1 = Ret [r].
Proof.
  intros Hoff Hc Hr b'. split; [|by eapply read_cached].
  unfold get_job_request_len, b', remove_storage_job_data, on_storage. simpl.
  unfold local_get_job_number_requests. simpl. by rewrite lookup_delete_eq.
Qed.

Lemma delete_keeps_cache_witness :
  let b := (read_job_requests 7%N 0 1 (demo_storage 2)).2 in
  let b' := (remove_storage_job_data 7%N b).2 in
  get_job_request_len 7%N b' = 0 ∧ (read_job_requests 7%N (Z.of_nat 1) 1 b').1 = Ret [bits_of 12 1].
Proof.
  intros b. apply (delete_keeps_cache demo_json 7%N (demo_requests 2) 1); reflexivity.
Defined.
