(* ===== verification/TosStorage.v ===== *)
(** * Batch storage in an object store

    Models [python/aibrix/aibrix/batch/storage/tos_storage.py]: [TOSStorage],
    the second implementation of the storage interface of [Storage.v], which
    keeps every request and every result of a job as an object of a bucket. The
    client library is a parameter ([TosClient]); what its documentation promises
    of a reachable service is [TosLaws]: objects are put, read and deleted by
    key, and a listing returns the keys of a prefix in order, page by page. A
    client call that raises is [None]. *)

From stdpp Require Import pretty sorting.
From S2P Require Import Prelude JobManager Storage.

Open Scope Z_scope.
Open Scope py_scope.

(** ** The client library *)

(** A page of a listing, with where the next page starts. *)
Record listing := mkListing { contents : list string; is_truncated : bool; next_marker : string }.

(** [max_pages] bounds the pages of any listing of the bucket; it is the fuel of
    the listing loops. *)
Class TosClient (B : Type) := {
  put_object : string → string → B → option B;
  get_object : string → B → option string;
  delete_object : string → B → option B;
  list_objects : string → string → B → option listing;
  list_objects_type2 : string → string → B → option listing;
  max_pages : B → nat
}.

(** The keys of a prefix that come after a marker, in order. *)
Definition keys_after (objects : gmap string string) (prefix marker : string) : list string :=
  merge_sort String.le
    (base.filter (λ k, String.prefix prefix k = true ∧ ¬ String.le k marker) (elements (dom objects))).

Definition page (n : nat) (ks : list string) : listing :=
  mkListing (take n ks) (bool_decide (n < length ks)%nat) (default EmptyString (last (take n ks))).

(** A prefix below which no key has another slash: a listing with the delimiter
    [/] then returns the keys themselves. *)
Definition flat (objects : gmap string string) (prefix : string) : Prop :=
  ∀ s, is_Some (objects !! (prefix +:+ s)) → no_slash s = true.

(** The documented behaviour. [token_key] is the key at which a continuation
    token resumes. *)
Class TosLaws (B : Type) `{!TosClient B} := {
  objects : B → gmap string string;
  token_key : string → string;
  put_law k v b : ∃ b', put_object k v b = Some b' ∧ objects b' = <[k := v]> (objects b);
  get_law k b : get_object k b = objects b !! k;
  delete_law k b : ∃ b', delete_object k b = Some b' ∧ objects b' = delete k (objects b);
  list_law p m b : ∃ n, (0 < n)%nat ∧ list_objects p m b = Some (page n (keys_after (objects b) p m));
  token_start : token_key EmptyString = EmptyString;
  list2_law p tok b :
    flat (objects b) p →
    ∃ n l, (0 < n)%nat ∧ list_objects_type2 p tok b = Some l ∧
      let pg := page n (keys_after (objects b) p (token_key tok)) in
      contents l = contents pg ∧ is_truncated l = is_truncated pg ∧
      (is_truncated l = true → token_key (next_marker l) = next_marker pg);
  pages_law b : (size (objects b) < max_pages b)%nat
}.

(** ** [TOSStorage] *)

Section tos.
Context {J : Json} {B : Type} `{!TosClient B}.

(** [f'{job_id}/{section}/{idx}'] *)
Definition object_prefix (jid : job_id) (section : string) : string :=
  pretty jid +:+ String slash (section +:+ String slash EmptyString).

Definition obj_key (jid : job_id) (section : string) (idx : Z) : string :=
  object_prefix jid section +:+ pretty idx.

(** One object per value; the first call that raises ends the loop, and the
    handler around it only reports. *)
Fixpoint put_values (jid : job_id) (section : string) (idx : Z) (values : list json) (b : B) : B :=
  match values with
  | [] => b
  | v :: rest =>
    match put_object (obj_key jid section idx) (json_dumps v) b with
    | Some b' => put_values jid section (idx + 1) rest b'
    | None => b
    end
  end.

(** [for i in range(n)]: what was read before the first call that raises. *)
Fixpoint get_values (jid : job_id) (section : string) (idx : Z) (n : nat) (b : B) : list json :=
  match n with
  | O => []
  | S n' =>
    match get_object (obj_key jid section idx) b ≫= json_loads with
    | Some v => v :: get_values jid section (idx + 1) n' b
    | None => []
    end
  end.

(** The keys of a page are deleted one by one; [None] when a call raises. *)
Fixpoint delete_keys (ks : list string) (b : B) : bool * B :=
  match ks with
  | [] => (true, b)
  | k :: rest => match delete_object k b with Some b' => delete_keys rest b' | None => (false, b) end
  end.

(** [while is_truncated: ...] *)
Fixpoint delete_loop (fuel : nat) (prefix marker : string) (b : B) : outcome unit * B :=
  match fuel with
  | O => (OutOfFuel, b)
  | S fuel' =>
    match list_objects prefix marker b with
    | None => (Ret tt, b)
    | Some out =>
      let '(ok, b') := delete_keys (contents out) b in
      if ok && is_truncated out then delete_loop fuel' prefix (next_marker out) b' else (Ret tt, b')
    end
  end.

Fixpoint count_loop (fuel : nat) (prefix token : string) (num : Z) (b : B) : outcome Z :=
  match fuel with
  | O => OutOfFuel
  | S fuel' =>
    match list_objects_type2 prefix token b with
    | None => Ret num
    | Some out =>
      let num' := num + py_len (contents out) in
      if is_truncated out then count_loop fuel' prefix (next_marker out) num' b else Ret num'
    end
  end.

(** The storage is [None] when the constructor could not create the client;
    every call on it then raises inside the [try] of its method. *)
Abbreviation tos_storage := (option B).

Definition tos_write_job_input_data (jid : job_id) (file : option string) : M tos_storage unit := λ c,
  match file with
  | None => (Raise FileNotFoundError, c)
  | Some text =>
    match load_nonblank (readlines text) with
    | Ret request_list => (Ret tt, put_values jid "input" 0 request_list <$> c)
    | Raise e => (Raise e, c)
    | OutOfFuel => (OutOfFuel, c)
    end
  end.

Definition tos_read_job_input_data (jid : job_id) (start_index num : Z) (c : tos_storage) :
    outcome (list json) :=
  Ret (match c with Some b => get_values jid "input" start_index (Z.to_nat num) b | None => [] end).

Definition tos_write_job_output_data (jid : job_id) (start_index : Z) (output_list : list json) :
    M tos_storage unit := λ c, (Ret tt, put_values jid "output" start_index output_list <$> c).

Definition tos_read_job_output_data (jid : job_id) (start_index num : Z) (c : tos_storage) :
    outcome (list json) :=
  Ret (match c with Some b => get_values jid "output" start_index (Z.to_nat num) b | None => [] end).

Definition tos_delete_job_data (jid : job_id) : M tos_storage unit := λ c,
  match c with
  | None => (Ret tt, c)
  | Some b =>
    let '(o, b') := delete_loop (max_pages b) (pretty jid +:+ String slash EmptyString) EmptyString b in
    (o, Some b')
  end.

(** The interface has a plain number; [count_ends] below shows that the loop ends. *)
Definition tos_count (jid : job_id) (b : B) : outcome Z :=
  count_loop (max_pages b) (object_prefix jid "input") EmptyString 0 b.

Definition tos_get_job_number_requests (jid : job_id) (c : tos_storage) : Z :=
  match c with
  | None => 0
  | Some b => match tos_count jid b with Ret n => n | _ => 0 end
  end.

#[export] Instance TOSStorage : PersistentStorage J tos_storage := {
  write_job_input_data := tos_write_job_input_data;
  read_job_input_data := tos_read_job_input_data;
  get_job_number_requests := tos_get_job_number_requests;
  write_job_output_data := tos_write_job_output_data;
  read_job_output_data := tos_read_job_output_data;
  delete_job_data := tos_delete_job_data
}.

End tos.

Arguments page : simpl never.
Arguments keys_after : simpl never.

(** ** Lemmas: keys *)

Lemma prefix_spec p k : String.prefix p k = true ↔ ∃ s, k = p +:+ s.
Proof.
  revert k. induction p as [|c p IH]; intros k.
  { split; [exists k|]; by destruct k. }
  destruct k as [|d k]; [split; [done|by intros [s ?]]|]. setoid_rewrite append_cons.
  cbn [String.prefix]. destruct (Ascii.ascii_dec c d) as [->|Hne].
  - rewrite IH. split; intros [s Hs]; exists s; [by rewrite Hs|by injection Hs].
  - split; [done|]. intros [s Hs]. by injection Hs.
Qed.

Lemma pretty_N_char_no_slash x : negb (Ascii.eqb (pretty_N_char x) slash) = true.
Proof. unfold pretty_N_char. by repeat case_match. Qed.

Lemma pretty_N_go_no_slash x s : no_slash s = true → no_slash (pretty_N_go x s) = true.
Proof.
  revert s. induction (N.lt_wf_0 x) as [x _ IH]; intros s Hs.
  assert (x = 0 ∨ 0 < x)%N as [->|Hx] by lia; [by rewrite pretty_N_go_0|].
  rewrite pretty_N_go_step by done. apply IH; [by apply N.div_lt|].
  cbn [no_slash]. by rewrite pretty_N_char_no_slash, Hs.
Qed.

Lemma pretty_N_no_slash (x : N) : no_slash (pretty x) = true.
Proof. unfold pretty, pretty_N. case_decide; [done|]. by apply pretty_N_go_no_slash. Qed.

Lemma pretty_Z_no_slash (x : Z) : no_slash (pretty x) = true.
Proof.
  destruct x; [done|apply (pretty_N_no_slash (Npos p))|].
  change (no_slash ("-" +:+ pretty (Npos p)) = true). by rewrite no_slash_app, pretty_N_no_slash.
Qed.

(** The text before the first slash is determined. *)
Lemma slash_split a a' s s' :
  no_slash a = true → no_slash a' = true → a +:+ String slash s = a' +:+ String slash s' → a = a' ∧ s = s'.
Proof.
  revert a'. induction a as [|c a IH]; intros [|d a'] Ha Ha'; rewrite ?append_cons.
  - intros [= ->]. done.
  - intros [= <- _]. done.
  - intros [= -> _]. done.
  - simpl in Ha, Ha'. apply andb_true_iff in Ha as [_ Ha], Ha' as [_ Ha'].
    intros [= -> H]. by destruct (IH a' Ha Ha' H) as [-> ->].
Qed.

Lemma object_prefix_split j sec s :
  object_prefix j sec +:+ s = pretty j +:+ String slash (sec +:+ String slash s).
Proof. unfold object_prefix. by rewrite !append_assoc, append_cons, !append_assoc. Qed.

Lemma object_prefix_inj j j' sec sec' s s' :
  no_slash sec = true → no_slash sec' = true →
  object_prefix j sec +:+ s = object_prefix j' sec' +:+ s' → j = j' ∧ sec = sec' ∧ s = s'.
Proof.
  intros Hs Hs'. rewrite !object_prefix_split.
  intros [Hj H]%slash_split; [|apply pretty_N_no_slash..].
  apply slash_split in H as [-> ->]; [|done..]. by apply (inj pretty) in Hj as ->.
Qed.

Lemma obj_key_inj j j' sec sec' i i' :
  no_slash sec = true → no_slash sec' = true →
  obj_key j sec i = obj_key j' sec' i' → j = j' ∧ sec = sec' ∧ i = i'.
Proof.
  intros Hs Hs' (-> & -> & Hi)%object_prefix_inj; [|done..]. by apply (inj pretty) in Hi as ->.
Qed.

Lemma prefix_obj_key j j' sec sec' i :
  no_slash sec = true → no_slash sec' = true →
  String.prefix (object_prefix j sec) (obj_key j' sec' i) = true ↔ j = j' ∧ sec = sec'.
Proof.
  intros Hs Hs'. rewrite prefix_spec. split.
  - intros [s (-> & -> & _)%object_prefix_inj]; done.
  - intros [-> ->]. by exists (pretty i).
Qed.

(** ** Lemmas: listings *)

Lemma elem_of_keys_after obs p m k :
  k ∈ keys_after obs p m ↔ String.prefix p k = true ∧ ¬ String.le k m ∧ is_Some (obs !! k).
Proof.
  unfold keys_after. rewrite merge_sort_Permutation, list_elem_of_filter, elem_of_elements, elem_of_dom. tauto.
Qed.

Lemma NoDup_keys_after obs p m : NoDup (keys_after obs p m).
Proof. unfold keys_after. rewrite merge_sort_Permutation. apply NoDup_filter, NoDup_elements. Qed.

Lemma sorted_keys_after obs p m : StronglySorted String.le (keys_after obs p m).
Proof. unfold keys_after. apply (StronglySorted_merge_sort _). Qed.

Lemma length_keys_after obs p m : (length (keys_after obs p m) ≤ size obs)%nat.
Proof.
  unfold keys_after. rewrite merge_sort_Permutation.
  etrans; [apply length_filter|]. rewrite <-size_dom. done.
Qed.

(** In an ordered list without repetitions, what comes after its first part is
    what is greater than the last element of that part. *)
Lemma sorted_keys_split (l1 l2 : list string) m x :
  StronglySorted String.le (l1 ++ l2) → NoDup (l1 ++ l2) → last l1 = Some m → x ∈ l1 ++ l2 →
  x ∈ l2 ↔ ¬ String.le x m.
Proof.
  intros Hs Hnd Hm Hx. apply last_Some in Hm as [l ->].
  rewrite <-app_assoc in *. apply StronglySorted_app in Hs as (Hl & _ & Hs).
  apply NoDup_app in Hnd as (_ & Hd & Hnd). simpl in Hs, Hnd. apply StronglySorted_cons in Hs as [Hm _].
  apply NoDup_cons in Hnd as [Hm2 _]. rewrite Forall_forall in Hm. split.
  - intros Hx2 Hle. assert (x = m) as ->; [|done]. apply (anti_symm String.le); [done|by apply Hm].
  - intros Hnle. apply elem_of_app in Hx as [Hx|[->|Hx]%elem_of_cons]; [|by destruct Hnle|done].
    destruct Hnle. apply Hl; [done|left].
Qed.

Lemma elem_of_take_weaken {A} n (l : list A) x : x ∈ take n l → x ∈ l.
Proof. intros Hx. rewrite <-(take_drop n l). apply elem_of_app. by left. Qed.

(** Two listings with the same keys are the same list. *)
Lemma keys_after_unique obs p m l :
  StronglySorted String.le l → NoDup l → (∀ k, k ∈ l ↔ k ∈ keys_after obs p m) → keys_after obs p m = l.
Proof.
  intros Hs Hnd Heq. apply (StronglySorted_unique String.le); [apply sorted_keys_after|done|].
  apply NoDup_Permutation; [apply NoDup_keys_after|done|]. intros k. by rewrite Heq.
Qed.

(** The listing that starts after the last key of a page is the rest of the
    listing, also when the keys of the page are gone. *)
Lemma keys_after_next obs obs' p m n mk :
  last (take n (keys_after obs p m)) = Some mk →
  (∀ k, is_Some (obs' !! k) → is_Some (obs !! k)) →
  (∀ k, k ∉ take n (keys_after obs p m) → obs' !! k = obs !! k) →
  keys_after obs' p mk = drop n (keys_after obs p m).
Proof.
  intros Hmk Hsub Hsame.
  pose proof (sorted_keys_after obs p m) as Hs. pose proof (NoDup_keys_after obs p m) as Hnd.
  pose proof (elem_of_keys_after obs p m) as Hin.
  set (ks := keys_after obs p m) in *. rewrite <-(take_drop n ks) in Hs, Hnd.
  assert (∀ x, x ∈ ks → x ∈ drop n ks ↔ ¬ String.le x mk) as Hsplit.
  { intros x Hx. apply (sorted_keys_split (take n ks)); [done..|]. by rewrite take_drop. }
  apply keys_after_unique.
  - by apply StronglySorted_app in Hs as (_ & _ & ?).
  - by apply NoDup_app in Hnd as (_ & _ & ?).
  - intros k. rewrite elem_of_keys_after. split.
    + intros Hk. assert (k ∈ ks) as Hks by (rewrite <-(take_drop n ks); set_solver).
      pose proof (proj1 (Hin k) Hks) as (Hp & _ & Hd). split_and!; [done|by apply Hsplit|].
      rewrite Hsame; [done|]. apply NoDup_app in Hnd as (_ & Hd' & _). intros Ht. by apply (Hd' k).
    + intros (Hp & Hle & Hd). assert (k ∈ ks) as Hks; [|by apply Hsplit].
      apply Hin. split_and!; [done| |by apply Hsub]. intros Hkm. apply Hle.
      assert (mk ∈ ks) as (_ & Hmk' & _)%Hin.
      { eapply elem_of_take_weaken. by apply last_Some_elem_of. }
      destruct (total String.le k mk) as [?|Hmk2]; [done|]. destruct Hmk'. by trans k.
Qed.

Lemma take_page_last {A} n (l : list A) :
  (0 < n)%nat → (n < length l)%nat → ∃ x, last (take n l) = Some x.
Proof.
  intros Hn Hl. destruct (last (take n l)) as [x|] eqn:E; [by exists x|].
  apply last_None in E. apply (f_equal length) in E. rewrite length_take in E. simpl in E. lia.
Qed.

Section pages.
Context {B : Type} `{!TosClient B} {TL : TosLaws B}.

Lemma delete_keys_ok ks (b : B) :
  ∃ b', delete_keys ks b = (true, b') ∧
    ∀ k, objects b' !! k = if decide (k ∈ ks) then None else objects b !! k.
Proof.
  revert b. induction ks as [|k0 ks IH]; intros b; simpl.
  { by exists b. }
  destruct (delete_law k0 b) as (b1 & -> & Hb1). destruct (IH b1) as (b' & -> & Hb').
  exists b'. split; [done|]. intros k. rewrite Hb', Hb1.
  destruct (decide (k ∈ ks)); [by rewrite decide_True by set_solver|].
  destruct (decide (k = k0)) as [->|].
  - by rewrite lookup_delete_eq, decide_True by set_solver.
  - by rewrite lookup_delete_ne, decide_False by set_solver.
Qed.

Lemma delete_loop_ok fuel p m (b : B) :
  (length (keys_after (objects b) p m) < fuel)%nat →
  (∀ k, is_Some (objects b !! k) → String.prefix p k = true → ¬ String.le k m) →
  ∃ b', delete_loop fuel p m b = (Ret tt, b') ∧
    ∀ k, objects b' !! k = if String.prefix p k then None else objects b !! k.
Proof.
  revert m b. induction fuel as [|fuel IH]; intros m b Hlen Hm; [lia|]. cbn [delete_loop].
  destruct (list_law p m b) as (n & Hn & ->). unfold page. cbn [contents is_truncated next_marker].
  set (ks := keys_after (objects b) p m) in *.
  destruct (delete_keys_ok (take n ks) b) as (b1 & -> & Hb1). cbn [andb].
  assert (∀ k, String.prefix p k = true → k ∉ ks → objects b !! k = None) as Hnone.
  { intros k Hp Hk. apply eq_None_not_Some. intros Hd. apply Hk, elem_of_keys_after. auto. }
  case_bool_decide as Htr.
  - destruct (take_page_last n ks Hn Htr) as (mk & Hmk). rewrite Hmk. change (default EmptyString (Some mk)) with mk.
    assert (keys_after (objects b1) p mk = drop n ks) as Hnext.
    { apply keys_after_next; [done| |].
      - intros k. rewrite Hb1. case_decide; [by intros []|done].
      - intros k Hk. by rewrite Hb1, decide_False. }
    destruct (IH mk b1) as (b' & -> & Hb').
    + rewrite Hnext, length_drop. lia.
    + intros k Hd Hp Hle. rewrite Hb1 in Hd. case_decide as Hk; [by destruct Hd|].
      assert (k ∈ ks) as Hks by (apply elem_of_keys_after; auto).
      assert (k ∈ keys_after (objects b1) p mk) as Hin.
      { rewrite Hnext. rewrite <-(take_drop n ks) in Hks. set_solver. }
      by apply elem_of_keys_after in Hin as (_ & ? & _).
    + exists b'. split; [done|]. intros k. rewrite Hb', Hb1. destruct (String.prefix p k) eqn:Hp; [done|].
      rewrite decide_False; [done|]. intros [? _]%elem_of_take_weaken%elem_of_keys_after. congruence.
  - exists b1. split; [done|]. intros k. rewrite Hb1, take_ge by lia.
    destruct (String.prefix p k) eqn:Hp; case_decide as Hk; try done; [by apply Hnone|].
    apply elem_of_keys_after in Hk as [? _]. congruence.
Qed.

Lemma count_loop_ok fuel p tok num (b : B) :
  flat (objects b) p → (length (keys_after (objects b) p (token_key tok)) < fuel)%nat →
  count_loop fuel p tok num b = Ret (num + py_len (keys_after (objects b) p (token_key tok))).
Proof.
  intros Hflat. revert tok num. induction fuel as [|fuel IH]; intros tok num Hlen; [lia|]. cbn [count_loop].
  destruct (list2_law p tok b Hflat) as (n & l & Hn & -> & Hc & Ht & Hnext).
  set (ks := keys_after (objects b) p (token_key tok)) in *. rewrite Hc, Ht. rewrite Ht in Hnext.
  unfold page in *. cbn [contents is_truncated next_marker] in *. case_bool_decide as Htr.
  - destruct (take_page_last n ks Hn Htr) as (mk & Hmk). specialize (Hnext eq_refl).
    rewrite Hmk in Hnext. change (token_key (next_marker l) = mk) in Hnext.
    assert (keys_after (objects b) p (token_key (next_marker l)) = drop n ks) as Hrest
      by (rewrite Hnext; by apply keys_after_next).
    rewrite IH; rewrite Hrest, ?length_drop; [|lia].
    f_equal. unfold py_len. rewrite length_take, length_drop. lia.
  - rewrite take_ge by lia. done.
Qed.

End pages.

(** ** Lemmas: the values of a job *)

Section bucket.
Context {J : Json} {B : Type} `{!TosClient B} {TL : TosLaws B}.

Lemma put_values_other j sec i vs (b : B) key :
  (∀ k, (k < length vs)%nat → key ≠ obj_key j sec (i + Z.of_nat k)) →
  objects (put_values j sec i vs b) !! key = objects b !! key.
Proof.
  revert i b. induction vs as [|v vs IH]; intros i b Hk; simpl; [done|].
  destruct (put_law (obj_key j sec i) (json_dumps v) b) as (b' & -> & Hb'). rewrite IH, Hb'.
  - rewrite lookup_insert_ne; [done|]. intros <-. apply (Hk 0%nat); simpl; [lia|]. f_equal. lia.
  - intros k Hlt ->. apply (Hk (S k)); simpl; [lia|]. f_equal. lia.
Qed.

Lemma put_values_at j sec i vs (b : B) k v :
  no_slash sec = true → vs !! k = Some v →
  objects (put_values j sec i vs b) !! obj_key j sec (i + Z.of_nat k) = Some (json_dumps v).
Proof.
  intros Hsec. revert i b k. induction vs as [|v0 vs IH]; intros i b k Hv; [done|]. simpl.
  destruct (put_law (obj_key j sec i) (json_dumps v0) b) as (b' & -> & Hb').
  destruct k as [|k]; simpl in Hv.
  - injection Hv as ->. rewrite Z.add_0_r, put_values_other, Hb', lookup_insert_eq; [done|].
    intros k _ (_ & _ & Heq)%obj_key_inj; [lia|done..].
  - replace (i + Z.of_nat (S k)) with (i + 1 + Z.of_nat k) by lia. by apply IH.
Qed.

Lemma get_values_spec j sec i n (b : B) vs :
  (∀ k, objects b !! obj_key j sec (i + Z.of_nat k) ≫= json_loads = vs !! k) →
  get_values j sec i n b = take n vs.
Proof.
  revert i vs. induction n as [|n IH]; intros i vs Hvs; [done|]. simpl. rewrite get_law.
  pose proof (Hvs 0%nat) as H0. rewrite Z.add_0_r in H0. rewrite H0.
  destruct vs as [|v vs]; [done|]. simpl. f_equal. apply IH. intros k.
  etrans; [|apply (Hvs (S k))]. do 2 f_equal. f_equal. lia.
Qed.

(** The requests of a job: as many objects as there are keys under its input
    prefix, numbered from 0. *)
Definition input_count (j : job_id) (b : B) : nat :=
  length (keys_after (objects b) (object_prefix j "input") EmptyString).

Definition tos_stored (j : job_id) (c : option B) : option (list json) :=
  c ≫= λ b, mapM (λ i, objects b !! obj_key j "input" (Z.of_nat i) ≫= json_loads) (seq 0 (input_count j b)).

Lemma key_not_empty j sec s : ¬ String.le (object_prefix j sec +:+ s) EmptyString.
Proof.
  rewrite object_prefix_split. destruct (pretty j) as [|c t]; [by intros []|]. rewrite append_cons. by intros [].
Qed.

Lemma elem_of_input_keys j (b : B) key :
  key ∈ keys_after (objects b) (object_prefix j "input") EmptyString ↔
  (∃ s, key = object_prefix j "input" +:+ s) ∧ is_Some (objects b !! key).
Proof.
  rewrite elem_of_keys_after, prefix_spec. split; [tauto|].
  intros ((s & ->) & ?). split_and!; [by exists s|apply key_not_empty|done].
Qed.

(** When the numbered objects are as many as the keys, they are all of them. *)
Lemma input_keys_numbered j (b : B) n :
  input_count j b = n →
  (∀ i, (i < n)%nat → is_Some (objects b !! obj_key j "input" (Z.of_nat i))) →
  ∀ s, is_Some (objects b !! (object_prefix j "input" +:+ s)) →
  ∃ i, (i < n)%nat ∧ s = pretty (Z.of_nat i).
Proof.
  intros Hn Hall s Hs.
  set (ks := keys_after (objects b) (object_prefix j "input") EmptyString).
  set (num := (λ i : nat, obj_key j "input" (Z.of_nat i)) <$> seq 0 n).
  assert (NoDup num) as Hnd.
  { apply NoDup_fmap; [|apply NoDup_seq]. intros i i' (_ & _ & ?)%obj_key_inj; [lia|done..]. }
  assert (num ≡ₚ ks) as Hperm.
  { apply submseteq_length_Permutation.
    - apply NoDup_submseteq; [done|]. intros key Hkey. apply list_elem_of_fmap in Hkey as (i & -> & Hi).
      apply elem_of_seq in Hi. apply elem_of_input_keys. split; [by exists (pretty (Z.of_nat i))|apply Hall; lia].
    - unfold num. rewrite length_fmap, length_seq. by subst n. }
  assert (object_prefix j "input" +:+ s ∈ num) as Hin.
  { rewrite Hperm. apply elem_of_input_keys. split; [by exists s|done]. }
  apply list_elem_of_fmap in Hin as (i & Hi & Hlt). apply elem_of_seq in Hlt.
  apply object_prefix_inj in Hi as (_ & _ & ->); [|done..]. exists i. split; [lia|done].
Qed.

(** What [tos_stored] says of the objects. *)
Lemma tos_stored_spec j c rs :
  tos_stored j c = Some rs →
  ∃ b, c = Some b ∧ input_count j b = length rs ∧ flat (objects b) (object_prefix j "input") ∧
    ∀ k, objects b !! obj_key j "input" (Z.of_nat k) ≫= json_loads = rs !! k.
Proof.
  unfold tos_stored. destruct c as [b|]; [|done]. simpl. intros Hm. exists b.
  pose proof (length_mapM _ _ _ Hm) as Hlen. rewrite length_seq in Hlen.
  apply mapM_Some in Hm.
  assert (∀ i r, rs !! i = Some r → objects b !! obj_key j "input" (Z.of_nat i) ≫= json_loads = Some r) as Hin.
  { intros i r Hr. apply lookup_lt_Some in Hr as Hlt. eapply Forall2_lookup_lr in Hm; [exact Hm| |done].
    rewrite lookup_seq_lt by lia. done. }
  assert (∀ i, (i < length rs)%nat → is_Some (objects b !! obj_key j "input" (Z.of_nat i))) as Hsome.
  { intros i [r Hr]%lookup_lt_is_Some. apply Hin in Hr. by destruct (objects b !! _). }
  pose proof (input_keys_numbered j b (length rs) Hlen Hsome) as Hnum. split_and!; [done..| |].
  - intros s (i & _ & ->)%Hnum. apply pretty_Z_no_slash.
  - intros k. destruct (rs !! k) as [r|] eqn:Hr; [by apply Hin|]. apply lookup_ge_None in Hr.
    destruct (objects b !! obj_key j "input" (Z.of_nat k)) as [t|] eqn:Ht; [|done].
    destruct (Hnum (pretty (Z.of_nat k))) as (i & Hi & Heq); [by exists t|].
    apply (inj pretty) in Heq. lia.
Qed.

Lemma count_ends j (b : B) :
  flat (objects b) (object_prefix j "input") → tos_count j b = Ret (Z.of_nat (input_count j b)).
Proof.
  intros Hflat. unfold tos_count. rewrite count_loop_ok; rewrite ?token_start; [done..|].
  eapply Nat.le_lt_trans; [apply length_keys_after|apply pages_law].
Qed.

Lemma read_values_at {b : B} {j sec} {rs : list json} a n :
  (∀ k, objects b !! obj_key j sec (Z.of_nat k) ≫= json_loads = rs !! k) → 0 ≤ a →
  get_values j sec a (Z.to_nat n) b = take (Z.to_nat n) (drop (Z.to_nat a) rs).
Proof.
  intros Hrs Ha. apply get_values_spec. intros k. rewrite lookup_drop, <-Hrs. do 2 f_equal. f_equal. lia.
Qed.

(** Writing results leaves the requests of every job alone. *)
Lemma output_keeps_inputs j i out (b : B) j' s :
  objects (put_values j "output" i out b) !! (object_prefix j' "input" +:+ s) =
  objects b !! (object_prefix j' "input" +:+ s).
Proof. apply put_values_other. intros k _ (_ & ? & _)%object_prefix_inj; done. Qed.

Lemma tos_stored_ext j (b b' : B) :
  (∀ s, objects b' !! (object_prefix j "input" +:+ s) = objects b !! (object_prefix j "input" +:+ s)) →
  tos_stored j (Some b') = tos_stored j (Some b).
Proof.
  intros Heq. unfold tos_stored, input_count. simpl.
  assert (keys_after (objects b') (object_prefix j "input") EmptyString =
          keys_after (objects b) (object_prefix j "input") EmptyString) as ->.
  { apply keys_after_unique; [apply sorted_keys_after|apply NoDup_keys_after|].
    intros k. rewrite !elem_of_input_keys. split; intros ((s & ->) & ?); split; eauto; by rewrite ?Heq in *. }
  apply mapM_ext. intros i. unfold obj_key. by rewrite Heq.
Qed.

End bucket.

(** The object store keeps the promises of a storage. *)
#[export] Program Instance TOSStorage_laws {J : Json} {B : Type} `{!TosClient B} {TL : TosLaws B} :
    StorageLaws J (option B) := {| stored := tos_stored |}.
Next Obligation.
  intros J B ? TL j c rs a n (b & -> & _ & _ & Hrs)%tos_stored_spec Ha Hn. simpl.
  unfold tos_read_job_input_data. by rewrite (read_values_at a n Hrs) by lia.
Qed.
Next Obligation.
  intros J B ? TL j c rs (b & -> & Hc & Hflat & _)%tos_stored_spec. simpl.
  rewrite count_ends by done. by rewrite Hc.
Qed.
Next Obligation.
  intros J B ? TL j i out j' [b|]; [|done]. simpl.
  apply tos_stored_ext. intros s. apply output_keeps_inputs.
Qed.

Section jobs.
Context {J : Json} {JL : JsonLaws J} {B : Type} `{!TosClient B} {TL : TosLaws B}.

(** No object of the job is there yet. *)
Definition fresh_job (j : job_id) (b : B) : Prop := ∀ s, objects b !! (object_prefix j "input" +:+ s) = None.

Lemma tos_upload_stored j rs (b : B) :
  fresh_job j b → tos_stored j (Some (put_values j "input" 0 rs b)) = Some rs.
Proof.
  intros Hfresh. unfold tos_stored. simpl. set (b' := put_values j "input" 0 rs b).
  assert (∀ k r, rs !! k = Some r → objects b' !! obj_key j "input" (Z.of_nat k) = Some (json_dumps r)) as Hat
    by (intros k r Hr; by apply (put_values_at j "input" 0)).
  assert (keys_after (objects b') (object_prefix j "input") EmptyString ≡ₚ
          (λ i : nat, obj_key j "input" (Z.of_nat i)) <$> seq 0 (length rs)) as Hperm.
  { apply NoDup_Permutation; [apply NoDup_keys_after| |].
    - apply NoDup_fmap; [|apply NoDup_seq]. intros i i' (_ & _ & ?)%obj_key_inj; [lia|done..].
    - intros key. rewrite elem_of_input_keys. split.
      + intros ((s & ->) & [t Ht]). apply dec_stable. intros Hno.
        unfold b' in Ht. rewrite put_values_other, Hfresh in Ht; [done|].
        intros k Hk Hkey. apply Hno, list_elem_of_fmap. exists k. split; [done|apply elem_of_seq; lia].
      + intros (i & -> & Hi%elem_of_seq)%list_elem_of_fmap. destruct (lookup_lt_is_Some_2 rs i) as [r Hr]; [lia|].
        split; [by exists (pretty (Z.of_nat i))|]. exists (json_dumps r). by apply Hat. }
  unfold input_count. rewrite Hperm, length_fmap, length_seq.
  apply mapM_Some, Forall2_same_length_lookup. split; [by rewrite length_seq|].
  intros i x r Hx Hr. apply lookup_seq in Hx as [-> _]. simpl. rewrite (Hat i r Hr). simpl. apply loads_dumps_text.
Qed.

Lemma tos_upload_ok j text rs (b : B) (bs : BatchStorage J (option B)) :
  load_nonblank (readlines text) = Ret rs → p_storage bs = Some b → fresh_job j b →
  job_input_requests bs !! j = None →
  ∃ bs', upload_input_data j (Some text) bs = (Ret j, bs') ∧ cache_ok j rs bs' ∧
    p_storage bs' = Some (put_values j "input" 0 rs b).
Proof.
  intros Hload Hst Hfresh Hnc. unfold upload_input_data, on_storage.
  py_unfold. unfold tos_write_job_input_data. rewrite Hload, Hst. simpl.
  eexists. split_and!; [done| |done]. split; simpl; [by apply tos_upload_stored|].
  exists 0%nat. simpl. rewrite lookup_insert_eq, Hnc. done.
Qed.

(** Values that were put one after the other are read back. *)
Lemma get_values_dumped j sec i (out : list json) (b : B) :
  (∀ k v, out !! k = Some v → objects b !! obj_key j sec (i + Z.of_nat k) = Some (json_dumps v)) →
  get_values j sec i (length out) b = out.
Proof.
  revert i. induction out as [|v out IH]; intros i Hat; [done|]. simpl.
  pose proof (Hat 0%nat v eq_refl) as H0. rewrite Z.add_0_r in H0. rewrite get_law, H0. simpl.
  rewrite loads_dumps_text, IH; [done|]. intros k w Hw. rewrite <-(Hat (S k) w Hw). do 2 f_equal. lia.
Qed.

End jobs.

(** ** Reading requests one by one, over any storage *)

Fixpoint read_seq {J : Json} {S} {PS : PersistentStorage J S} (j : job_id) (idxs : list nat)
    (b : BatchStorage J S) : list (outcome (list json)) :=
  match idxs with
  | [] => []
  | a :: rest => let '(o, b') := read_job_requests j (Z.of_nat a) 1 b in o :: read_seq j rest b'
  end.

Lemma read_seq_ok {J : Json} {S} {PS : PersistentStorage J S} {SL : StorageLaws J S}
    (j : job_id) (rs : list json) (idxs : list nat) (b : BatchStorage J S) :
  cache_ok j rs b → Forall (λ a, (a < length rs)%nat) idxs →
  read_seq j idxs b = (λ a, Ret (take 1 (drop a rs))) <$> idxs.
Proof.
  intros Hok Hidx. revert b Hok. induction Hidx as [|a idxs Ha _ IH]; intros b Hok; [done|]. simpl.
  destruct (lookup_lt_is_Some_2 rs a Ha) as [r Hr].
  destruct (read_one_request_correct J S PS SL j rs a r b Hok Hr) as (b' & -> & Hok' & _).
  by rewrite (IH b' Hok'), (drop_S _ r a).
Qed.

(** ** A concrete bucket

    The bucket is the map of its objects and a page holds two keys. *)

#[export] Instance demo_tos : TosClient (gmap string string) := {|
  put_object k v b := Some (<[k := v]> b);
  get_object k b := b !! k;
  delete_object k b := Some (delete k b);
  list_objects p m b := Some (page 2 (keys_after b p m));
  list_objects_type2 p tok b := Some (page 2 (keys_after b p tok));
  max_pages b := S (size b)
|}.

#[export] Program Instance demo_tos_laws : TosLaws (gmap string string) :=
  {| objects b := b; token_key t := t |}.
Next Obligation. simpl. eauto. Qed.
Next Obligation. done. Qed.
Next Obligation. simpl. eauto. Qed.
Next Obligation. intros p m b. exists 2%nat. split; [lia|done]. Qed.
Next Obligation. done. Qed.
Next Obligation.
  intros p tok b _. exists 2%nat, (page 2 (keys_after b p tok)). split_and!; [lia|done..].
Qed.
Next Obligation. intros b. simpl. lia. Qed.

(** ** Properties *)

(** C14: the two storages implement one abstract store. A file uploaded under a
    fresh job id to the local disk and to the object store is accepted by both,
    counts the same number of requests in both, and any sequence of reads of
    single requests through the request cache gives the same answers over both:
    the request asked for. *)
Theorem backends_agree (J : Json) (JL : JsonLaws J) (B : Type) (TC : TosClient B) (TL : TosLaws B)
    (j : job_id) (text : string) (rs : list json) (bl : BatchStorage J disk)
    (bt : BatchStorage J (option B)) (b : B) (idxs : list nat) :
  load_nonblank (readlines text) = Ret rs →
  p_storage bl !! j = None → job_input_requests bl !! j = None →
  p_storage bt = Some b → fresh_job j b → job_input_requests bt !! j = None →
  Forall (λ a, (a < length rs)%nat) idxs →
  ∃ bl' bt', upload_input_data j (Some text) bl = (Ret j, bl') ∧
    upload_input_data j (Some text) bt = (Ret j, bt') ∧
    get_job_request_len j bl' = py_len rs ∧ get_job_request_len j bt' = py_len rs ∧
    read_seq j idxs bl' = ((λ a, Ret (take 1 (drop a rs))) <$> idxs) ∧
    read_seq j idxs bt' = read_seq j idxs bl'.
Proof.
  intros Hload Hfl Hcl Hst Hft Hct Hidx.
  destruct (upload_ok j text rs bl Hload Hfl Hcl) as (bl' & -> & Hl & _).
  destruct (tos_upload_ok j text rs b bt Hload Hst Hft Hct) as (bt' & -> & Ht & _).
  exists bl', bt'. unfold get_job_request_len.
  rewrite (number_stored j _ rs (proj1 Hl)), (number_stored j _ rs (proj1 Ht)).
  by rewrite (read_seq_ok j rs idxs bl' Hl Hidx), (read_seq_ok j rs idxs bt' Ht Hidx).
Qed.

Lemma backends_agree_witness :
  let text := unlines (@json_dumps demo_json <$> [[true]; [false]; [true; true]]) in
  ∃ bl' bt', upload_input_data 7%N (Some text) (new_BatchStorage (J:=demo_json) (∅ : disk)) = (Ret 7%N, bl') ∧
    upload_input_data 7%N (Some text)
      (new_BatchStorage (J:=demo_json) (Some (∅ : gmap string string))) = (Ret 7%N, bt') ∧
    get_job_request_len 7%N bl' = 3 ∧ get_job_request_len 7%N bt' = 3 ∧
    read_seq 7%N [2; 0]%nat bl' = [Ret [[true; true]]; Ret [[true]]] ∧
    read_seq 7%N [2; 0]%nat bt' = read_seq 7%N [2; 0]%nat bl'.
Proof.
  intros text. apply (backends_agree demo_json _ (gmap string string) _ _ 7%N text [[true]; [false]; [true; true]]
    (new_BatchStorage ∅) (new_BatchStorage (Some ∅)) ∅ [2; 0]%nat);
    [reflexivity..|intros s; reflexivity|reflexivity|repeat constructor; simpl; lia].
Defined.

(** Deleting a job is exact. The listing loop ends, whatever the size of the
    pages; no object of the job is left, requests or results, and the objects of
    every other job are as they were. *)
Theorem tos_delete_exact (B : Type) (TC : TosClient B) (TL : TosLaws B) (j : job_id) (b : B) :
  ∃ b', tos_delete_job_data j (Some b) = (Ret tt, Some b') ∧
    (∀ sec i, objects b' !! obj_key j sec i = None) ∧
    (∀ j' sec i, j' ≠ j → objects b' !! obj_key j' sec i = objects b !! obj_key j' sec i).
Proof.
  unfold tos_delete_job_data.
  destruct (delete_loop_ok (max_pages b) (pretty j +:+ String slash EmptyString) EmptyString b)
    as (b' & -> & Hb').
  - eapply Nat.le_lt_trans; [apply length_keys_after|apply pages_law].
  - intros k _ (s & ->)%prefix_spec. destruct (pretty j) as [|c t]; [by intros []|].
    rewrite !append_cons. by intros [].
  - exists b'. split; [done|]. split.
    + intros sec i. rewrite Hb'. replace (String.prefix _ _) with true; [done|]. symmetry. apply prefix_spec.
      exists (sec +:+ String slash (pretty i)). unfold obj_key. by rewrite object_prefix_split, append_assoc.
    + intros j' sec i Hne. rewrite Hb'. destruct (String.prefix _ _) eqn:Hp; [|done].
      apply prefix_spec in Hp as (s & Hp). unfold obj_key in Hp.
      rewrite object_prefix_split, append_assoc in Hp.
      apply slash_split in Hp as [Hj _]; [|apply pretty_N_no_slash..]. by apply (inj pretty) in Hj.
Qed.

Lemma tos_delete_exact_witness :
  ∃ b', tos_delete_job_data 7%N (Some (put_values (J:=demo_json) 7%N "input" 0 [[true]; [false]; [true]] ∅)) =
      (Ret tt, Some b') ∧
    (∀ sec i, (b' : gmap string string) !! obj_key 7%N sec i = None) ∧
    (∀ j' sec i, j' ≠ 7%N → b' !! obj_key j' sec i =
       put_values (J:=demo_json) 7%N "input" 0 [[true]; [false]; [true]] (∅ : gmap string string) !! obj_key j' sec i).
Proof. apply (tos_delete_exact (gmap string string) _ demo_tos_laws). Defined.

(** Results are kept by index. Results written at an index are read back
    from that index, whatever was written at other indices before or after, which
    the local disk does not do. *)
Theorem tos_results_indexed (J : Json) (JL : JsonLaws J) (B : Type) (TC : TosClient B) (TL : TosLaws B)
    (j : job_id) (i1 i2 : Z) (out1 out2 : list json) (b : B) :
  i1 + py_len out1 ≤ i2 ∨ i2 + py_len out2 ≤ i1 →
  let c := (write_job_output_data j i2 out2 (write_job_output_data j i1 out1 (Some b)).2).2 in
  read_job_output_data j i1 (py_len out1) c = Ret out1 ∧
  read_job_output_data j i2 (py_len out2) c = Ret out2.
Proof.
  intros Hdis. simpl. unfold tos_read_job_output_data, py_len in *. rewrite !Nat2Z.id.
  set (b2 := put_values j "output" i2 out2 (put_values j "output" i1 out1 b)).
  split; f_equal; apply get_values_dumped; intros k v Hv; unfold b2.
  - rewrite put_values_other; [by apply put_values_at|]. intros k' Hk' (_ & _ & Heq)%obj_key_inj; [|done..].
    apply lookup_lt_Some in Hv. lia.
  - by apply put_values_at.
Qed.

Lemma tos_results_indexed_witness :
  let c := (write_job_output_data (J:=demo_json) 7%N 0 [[false]]
             (write_job_output_data (J:=demo_json) 7%N 1 [[true]; [true; true]] (Some (∅ : gmap string string))).2).2 in
  read_job_output_data (J:=demo_json) 7%N 1 (py_len [[true]; [true; true]]) c = Ret [[true]; [true; true]] ∧
  read_job_output_data (J:=demo_json) 7%N 0 (py_len [[false]]) c = Ret [[false]].
Proof.
  apply (tos_results_indexed demo_json _ (gmap string string) _ _ 7%N 1 0 [[true]; [true; true]] [[false]] ∅).
  right. vm_compute. discriminate.
Defined.

(** A failed upload is silent: when the client was never created, or the service
    refuses the first object, the upload returns as if it had stored the file. *)
Theorem tos_upload_silent (J : Json) (B : Type) (TC : TosClient B) (j : job_id) (text : string)
    (rs : list json) (c : option B) :
  load_nonblank (readlines text) = Ret rs →
  (∀ b v, c = Some b → put_object (obj_key j "input" 0) v b = None) →
  write_job_input_data j (Some text) c = (Ret tt, c).
Proof.
  intros Hload Hput. simpl. unfold tos_write_job_input_data. rewrite Hload. f_equal.
  destruct c as [b|]; [|done]. simpl. destruct rs as [|r rs]; [done|]. simpl. by rewrite (Hput b).
Qed.
