(* ===== verification/Scheduler.v ===== *)
(** * The batch job scheduler

    Models [python/aibrix/aibrix/batch/scheduler.py]: the pool of running jobs
    ([BasicCongestionControl]), the queue and the due list ([JobScheduler]), and
    the round-robin choice of the next job to work on, which calls the job
    manager of [JobManager.v]. Clock readings are arguments, in nanoseconds;
    [print] and [sleep] calls are left out. The only scheduling policy is FIFO,
    so that the branches for another policy cannot be taken. *)

From S2P Require Import Prelude JobManager.

Open Scope Z_scope.
Open Scope py_scope.

(** ** Congestion control: the pool of running jobs *)

Record BasicCongestionControl := mkCC {
  running_job_pool : list (option job_id);
  job_pool_size : Z;
  running_job_idx : Z
}.

Definition new_CC (pool_size : Z) : BasicCongestionControl :=
  mkCC (replicate (Z.to_nat pool_size) None) pool_size 0.

(** The two-pointer loop of [tighten_jobs]: the pool and the final [slow_id],
    [None] when it has not ended within [fuel] iterations. *)
Fixpoint tighten_loop (fuel : nat) (pool : list (option job_id)) (slow fast : nat) :
    option (list (option job_id) * nat) :=
  if (slow <? length pool)%nat && (fast <? length pool)%nat then
    match fuel with
    | O => None
    | S fuel' =>
      match pool !! fast with
      | Some (Some j) =>
        let pool' := if (fast =? slow)%nat then pool
                     else <[fast := None]> (<[slow := Some j]> pool) in
        tighten_loop fuel' pool' (S slow) (S fast)
      | _ => tighten_loop fuel' pool slow (S fast)
      end
    end
  else Some (pool, slow).

(** [for i in range(slow_id): if pool[i] == current_job_id: idx = i; break] *)
Fixpoint find_slot (current : option job_id) (pool : list (option job_id)) (n i : nat) : option nat :=
  match n with
  | O => None
  | S n' =>
    if decide (pool !! i = Some current) then Some i else find_slot current pool n' (S i)
  end.

Definition tighten_jobs : M BasicCongestionControl unit := λ cc,
  match py_index (running_job_pool cc) (running_job_idx cc) with
  | Ret current_job_id =>
    match tighten_loop (length (running_job_pool cc)) (running_job_pool cc) 0 0 with
    | Some (pool, slow) =>
      let idx := match find_slot current_job_id pool slow 0 with
                 | Some i => Z.of_nat i
                 | None => running_job_idx cc
                 end in
      (Ret tt, mkCC pool (job_pool_size cc) idx)
    | None => (OutOfFuel, cc)
    end
  | Raise e => (Raise e, cc)
  | OutOfFuel => (OutOfFuel, cc)
  end.

(** [while len(pool) > size and not pool[-1]: del pool[-1]], on the reversed pool *)
Fixpoint drop_free_tail (size : Z) (rpool : list (option job_id)) : list (option job_id) :=
  match rpool with
  | None :: r => if size <? py_len rpool then drop_free_tail size r else rpool
  | _ => rpool
  end.

Definition shrink_resource : M BasicCongestionControl unit :=
  tighten_jobs ;;
  modify (λ cc, mkCC (reverse (drop_free_tail (job_pool_size cc) (reverse (running_job_pool cc))))
                     (job_pool_size cc) (running_job_idx cc)).

Definition grow_resource : M BasicCongestionControl unit :=
  tighten_jobs ;;
  modify (λ cc, mkCC (running_job_pool cc ++
                        replicate (Z.to_nat (job_pool_size cc - py_len (running_job_pool cc))) None)
                     (job_pool_size cc) (running_job_idx cc)).

Definition update_job_pool_size (new_pool_size : Z) : M BasicCongestionControl unit :=
  if new_pool_size <? 1 then raise AssertionError
  else
    modify (λ cc, mkCC (running_job_pool cc) new_pool_size (running_job_idx cc)) ;;
    let* cc := get in
    (if job_pool_size cc <? py_len (running_job_pool cc) then shrink_resource else ret tt) ;;
    let* cc := get in
    if py_len (running_job_pool cc) <? job_pool_size cc then grow_resource else ret tt.

(** ** The scheduler *)

Record JobScheduler := mkScheduler {
  jobs_queue : list job_id;
  inactive_jobs : gset job_id;
  due_jobs_list : list (job_id * Z);
  current_pool_size : Z;
  CC_controller : BasicCongestionControl
}.

(** [JobScheduler.__init__]; its [pool_size] argument is not used. *)
Definition new_JobScheduler (pool_size : Z) (cc : BasicCongestionControl) : JobScheduler :=
  mkScheduler [] ∅ [] (job_pool_size cc) cc.

Definition DEFAULT_JOB_POOL_SIZE : Z := 1.

Definition configure_job_pool_size (new_pool_size : Z) (s : JobScheduler) : JobScheduler :=
  mkScheduler (jobs_queue s) (inactive_jobs s) (due_jobs_list s) new_pool_size (CC_controller s).

(** [bisect.bisect_left] on a list of keys: binary search between [lo] and [hi]. *)
Fixpoint bisect_loop (fuel : nat) (keys : list Z) (x : Z) (lo hi : nat) : nat :=
  match fuel with
  | O => lo
  | S fuel' =>
    if (lo <? hi)%nat then
      let mid := ((lo + hi) / 2)%nat in
      if default 0 (keys !! mid) <? x then bisect_loop fuel' keys x (S mid) hi
      else bisect_loop fuel' keys x lo mid
    else lo
  end.

Definition bisect_left (keys : list Z) (x : Z) : nat :=
  bisect_loop (length keys) keys x 0 (length keys).

Definition NS_PER_SECOND : Z := 1000000000.

Definition append_job (now : Z) (jid : job_id) (due_time_seconds : Z) (s : JobScheduler) : JobScheduler :=
  let due_time := now + due_time_seconds * NS_PER_SECOND in
  let index := bisect_left (snd <$> due_jobs_list s) due_time in
  mkScheduler (jobs_queue s ++ [jid]) (inactive_jobs s)
    (take index (due_jobs_list s) ++ (jid, due_time) :: drop index (due_jobs_list s))
    (current_pool_size s) (CC_controller s).

(** The scheduler together with the job manager it calls. *)
Record SchedState := mkSched { sched : JobScheduler; jobs : JobManager }.

(** [while job_id in inactive and not queue.empty(): job_id = queue.get()] *)
Fixpoint skip_inactive (inactive : gset job_id) (jid : job_id) (queue : list job_id) :
    job_id * list job_id :=
  match queue with
  | [] => (jid, [])
  | next :: queue' =>
    if decide (jid ∈ inactive) then skip_inactive inactive next queue' else (jid, queue)
  end.

Definition set_queue (q : list job_id) (s : JobScheduler) : JobScheduler :=
  mkScheduler q (inactive_jobs s) (due_jobs_list s) (current_pool_size s) (CC_controller s).

Definition set_cc (cc : BasicCongestionControl) (s : JobScheduler) : JobScheduler :=
  mkScheduler (jobs_queue s) (inactive_jobs s) (due_jobs_list s) (current_pool_size s) cc.

(** [schedule_next_job]: the job popped is started, and returned whether or not
    the job manager agreed to start it. *)
Definition schedule_next_job (st : SchedState) : option job_id * SchedState :=
  match jobs_queue (sched st) with
  | [] => (None, st)
  | first :: queue =>
    let '(jid, queue') := skip_inactive (inactive_jobs (sched st)) first queue in
    (Some jid, mkSched (set_queue queue' (sched st)) (start_execute_job jid (jobs st)).2)
  end.

(** The jobs at the front of the due list whose time has come. *)
Fixpoint expired_prefix (now : Z) (due : list (job_id * Z)) : nat :=
  match due with
  | (_, t) :: due' => if t <=? now then S (expired_prefix now due') else O
  | [] => O
  end.

Definition expire_jobs (now : Z) (s : JobScheduler) : JobScheduler :=
  let idx := expired_prefix now (due_jobs_list s) in
  mkScheduler (jobs_queue s)
    (inactive_jobs s ∪ list_to_set (fst <$> take idx (due_jobs_list s)))
    (drop idx (due_jobs_list s)) (current_pool_size s) (CC_controller s).

(** ** Round robin *)

(** Step 1: slots of completed jobs are freed. *)
Definition free_completed (jm : JobManager) (pool : list (option job_id)) : list (option job_id) :=
  (λ slot, match slot with
           | Some jid => if decide (get_job_status jid jm = Some COMPLETED) then None else Some jid
           | None => None
           end) <$> pool.

(** Step 2: at most [n] slots are visited from the one after [idx]; the index
    moves with the visit. *)
Fixpoint next_in_pool (n : nat) (pool : list (option job_id)) (idx : Z) : option job_id * Z :=
  match n with
  | O => (None, idx)
  | S n' =>
    let idx' := (idx + 1) mod py_len pool in
    match pool !! Z.to_nat idx' with
    | Some (Some jid) => (Some jid, idx')
    | _ => next_in_pool n' pool idx'
    end
  end.

(** Step 4: the first free slot, then new jobs in that slot and the following
    ones, up to the end of the pool, whether or not these are free. *)
Fixpoint first_free (pool : list (option job_id)) : nat :=
  match pool with
  | None :: _ => 0
  | Some _ :: pool' => S (first_free pool')
  | [] => 0
  end.

Definition set_pool_slot (i : nat) (jid : job_id) (st : SchedState) : SchedState :=
  let cc := CC_controller (sched st) in
  mkSched (set_cc (mkCC (<[i := Some jid]> (running_job_pool cc)) (job_pool_size cc)
                        (running_job_idx cc)) (sched st)) (jobs st).

Fixpoint fill_slots (n start_offset : nat) (next_job_id : option job_id) (st : SchedState) :
    option job_id * SchedState :=
  match n with
  | O => (next_job_id, st)
  | S n' =>
    match schedule_next_job st with
    | (None, st') => (next_job_id, st')
    | (Some new_job_id, st') =>
      fill_slots n' (S start_offset)
        (match next_job_id with Some _ => next_job_id | None => Some new_job_id end)
        (set_pool_slot start_offset new_job_id st')
    end
  end.

Definition round_robin_get_job : M SchedState (option job_id) := λ st,
  let cc := CC_controller (sched st) in
  let pool1 := free_completed (jobs st) (running_job_pool cc) in
  let '(next_job_id, idx) := next_in_pool (length pool1) pool1 (running_job_idx cc) in
  let idx' := match next_job_id with Some _ => idx | None => 0 end in
  let cc1 := mkCC pool1 (job_pool_size cc) idx' in
  match update_job_pool_size (current_pool_size (sched st)) cc1 with
  | (Ret _, cc2) =>
    let pool2 := running_job_pool cc2 in
    let start_offset := first_free pool2 in
    let st2 := mkSched (set_cc cc2 (sched st)) (jobs st) in
    let '(job, st3) := fill_slots (length pool2 - start_offset) start_offset next_job_id st2 in
    (Ret job, st3)
  | (Raise e, cc2) => (Raise e, mkSched (set_cc cc2 (sched st)) (jobs st))
  | (OutOfFuel, cc2) => (OutOfFuel, mkSched (set_cc cc2 (sched st)) (jobs st))
  end.

(** ** Specification vocabulary *)

(** The jobs of a pool, in slot order. *)
Definition pool_jobs (pool : list (option job_id)) : list job_id := omap id pool.

(** The stable compaction of a pool: its jobs in order, then the free slots. *)
Definition packed (js : list job_id) (free : nat) : list (option job_id) :=
  (Some <$> js) ++ replicate free None.

Definition compact (pool : list (option job_id)) : list (option job_id) :=
  packed (pool_jobs pool) (length pool - length (pool_jobs pool)).

(** The round-robin index is inside the pool, and on a job unless it is 0. *)
Definition cc_ok (cc : BasicCongestionControl) : Prop :=
  0 ≤ running_job_idx cc < py_len (running_job_pool cc) ∧
  (running_job_idx cc = 0 ∨
   ∃ j, running_job_pool cc !! Z.to_nat (running_job_idx cc) = Some (Some j)).

Definition due_sorted (due : list (job_id * Z)) : Prop :=
  ∀ i k x y, (i ≤ k)%nat → due !! i = Some x → due !! k = Some y → snd x ≤ snd y.

(** ** Lemmas: tightening the pool *)

Lemma pool_jobs_length pool : (length (pool_jobs pool) ≤ length pool)%nat.
Proof. unfold pool_jobs. induction pool as [|[] pool IH]; csimpl; lia. Qed.

Lemma pool_jobs_packed js n : pool_jobs (packed js n) = js.
Proof.
  unfold pool_jobs, packed. rewrite omap_app. induction js as [|j js IH]; csimpl.
  - induction n; done.
  - by rewrite IH.
Qed.

Lemma elem_of_pool_jobs j pool : j ∈ pool_jobs pool ↔ Some j ∈ pool.
Proof.
  unfold pool_jobs. rewrite list_elem_of_omap. split.
  - intros (x & Hx & Hj). simpl in Hj. by subst x.
  - intros. by exists (Some j).
Qed.

Lemma packed_lookup_job js n i j :
  packed js n !! i = Some (Some j) ↔ js !! i = Some j.
Proof.
  unfold packed. destruct (decide (i < length js)%nat) as [Hi|Hi].
  - rewrite lookup_app_l by (rewrite length_fmap; done). rewrite list_lookup_fmap.
    destruct (js !! i); simpl; naive_solver.
  - rewrite lookup_app_r by (rewrite length_fmap; lia). rewrite (lookup_ge_None_2 js) by lia.
    split; [|done]. intros [? _]%lookup_replicate. done.
Qed.

Lemma length_packed js n : length (packed js n) = (length js + n)%nat.
Proof. unfold packed. by rewrite length_app, length_fmap, length_replicate. Qed.

Lemma tighten_step (js : list job_id) k (j : job_id) (rest : list (option job_id)) :
  (0 < k)%nat →
  <[(length js + k)%nat := None]>
    (<[length js := Some j]> ((Some <$> js) ++ replicate k None ++ Some j :: rest)) =
  (Some <$> (js ++ [j])) ++ replicate k None ++ rest.
Proof.
  intros Hk. destruct k as [|k]; [lia|].
  rewrite insert_app_r_alt by (rewrite length_fmap; lia).
  rewrite length_fmap, Nat.sub_diag. simpl.
  rewrite insert_app_r_alt by (rewrite length_fmap; lia).
  rewrite length_fmap. replace (length js + S k - length js)%nat with (S k) by lia. simpl.
  rewrite insert_app_r_alt by (rewrite length_replicate; lia).
  rewrite length_replicate, Nat.sub_diag, fmap_app. simpl. rewrite <-app_assoc. simpl.
  by rewrite replicate_shift.
Qed.

Lemma tighten_loop_spec fuel (js : list job_id) k (rest : list (option job_id)) :
  (length rest ≤ fuel)%nat →
  tighten_loop fuel ((Some <$> js) ++ replicate k None ++ rest) (length js) (length js + k) =
  Some (packed (js ++ pool_jobs rest) (k + (length rest - length (pool_jobs rest))),
        (length js + length (pool_jobs rest))%nat).
Proof.
  revert js k fuel. induction rest as [|x rest IH]; intros js k fuel Hf.
  - assert ((length js + k <? length ((Some <$> js) ++ replicate k None ++ []))%nat = false) as Hc.
    { apply Nat.ltb_ge. rewrite !length_app, length_fmap, length_replicate. simpl. lia. }
    unfold packed. destruct fuel; cbn [tighten_loop]; rewrite Hc, andb_false_r; csimpl;
      by rewrite !app_nil_r, Nat.add_0_r, Nat.add_0_r.
  - destruct fuel as [|fuel]; simpl in Hf; [lia|].
    assert (length ((Some <$> js) ++ replicate k None ++ x :: rest) = length js + k + S (length rest))%nat
      as Hlen by (rewrite !length_app, length_fmap, length_replicate; simpl; lia).
    cbn [tighten_loop]. rewrite Hlen.
    destruct (Nat.ltb_spec (length js) (length js + k + S (length rest))); [|lia].
    destruct (Nat.ltb_spec (length js + k) (length js + k + S (length rest))); [|lia].
    cbn [andb]. rewrite lookup_app_r by (rewrite length_fmap; lia).
    rewrite lookup_app_r by (rewrite length_fmap, length_replicate; lia).
    rewrite length_fmap, length_replicate.
    replace (length js + k - length js - k)%nat with 0%nat by lia. cbn [lookup list_lookup].
    pose proof (pool_jobs_length rest). destruct x as [j|].
    + specialize (IH (js ++ [j]) k fuel). rewrite length_app in IH. simpl in IH.
      replace (length js + 1 + k)%nat with (S (length js + k)) in IH by lia.
      rewrite Nat.add_1_r in IH.
      destruct (Nat.eqb_spec (length js + k) (length js)) as [Hk|Hk].
      * assert (k = 0%nat) as -> by lia. simpl in *. rewrite fmap_app in IH. simpl in IH.
        rewrite <-app_assoc in IH. simpl in IH. rewrite IH by lia. csimpl.
        rewrite <-app_assoc. by rewrite <-plus_n_Sm.
      * rewrite tighten_step by lia. rewrite IH by lia. csimpl.
        rewrite <-app_assoc. by rewrite <-plus_n_Sm.
    + specialize (IH js (S k) fuel). simpl in IH.
      rewrite replicate_shift.
      rewrite <-plus_n_Sm in IH. rewrite IH by lia. csimpl.
      do 3 f_equal. unfold pool_jobs in *. csimpl. lia.
Qed.

Lemma tighten_loop_compact pool :
  tighten_loop (length pool) pool 0 0 = Some (compact pool, length (pool_jobs pool)).
Proof. apply (tighten_loop_spec (length pool) [] 0 pool). done. Qed.

Lemma find_slot_Some current pool n i r :
  find_slot current pool n i = Some r →
  pool !! r = Some current ∧ (i ≤ r < i + n)%nat.
Proof.
  revert i. induction n as [|n IH]; intros i; simpl; [done|]. case_decide.
  - intros [= <-]. split; [done|lia].
  - intros [? ?]%IH. split; [done|lia].
Qed.

Lemma find_slot_None current pool n i k :
  find_slot current pool n i = None → (i ≤ k < i + n)%nat → pool !! k ≠ Some current.
Proof.
  revert i. induction n as [|n IH]; intros i; simpl; [lia|]. case_decide; [done|].
  intros Hn Hk. destruct (decide (k = i)) as [->|]; [done|]. apply (IH (S i)); [done|lia].
Qed.

(** Tightening a valid pool succeeds, keeps its jobs in order in front, and
    leaves the index on the job it was on. *)
Lemma tighten_jobs_ok cc :
  cc_ok cc →
  ∃ idx, tighten_jobs cc = (Ret tt, mkCC (compact (running_job_pool cc)) (job_pool_size cc) idx) ∧
    (0 ≤ idx ∧ (idx = 0 ∨ idx < Z.of_nat (length (pool_jobs (running_job_pool cc))))) ∧
    ∀ j, running_job_pool cc !! Z.to_nat (running_job_idx cc) = Some (Some j) →
         compact (running_job_pool cc) !! Z.to_nat idx = Some (Some j).
Proof.
  intros [Hidx Hslot]. unfold py_len in Hidx. unfold tighten_jobs.
  destruct (lookup_lt_is_Some_2 (running_job_pool cc) (Z.to_nat (running_job_idx cc)))
    as [cur Hcur]; [lia|].
  rewrite (py_index_lookup _ _ cur), tighten_loop_compact by (done || lia).
  eexists. split; [reflexivity|].
  destruct (find_slot cur _ _ 0) as [r|] eqn:Hfind.
  - apply find_slot_Some in Hfind as [Hr ?]. split; [lia|].
    intros j Hj. rewrite Nat2Z.id. congruence.
  - assert (∀ j, cur ≠ Some j) as Hnone.
    { intros j ->. assert (j ∈ pool_jobs (running_job_pool cc)) as [k Hk]%list_elem_of_lookup
        by (apply elem_of_pool_jobs, list_elem_of_lookup; eauto).
      eapply (find_slot_None _ _ _ _ k) in Hfind; [|apply lookup_lt_Some in Hk; lia].
      apply Hfind. by apply packed_lookup_job. }
    destruct Hslot as [H0|[j Hj]]; [|rewrite Hcur in Hj; simplify_eq; by destruct (Hnone j)].
    split; [lia|]. intros j Hj. rewrite Hcur in Hj. simplify_eq. by destruct (Hnone j).
Qed.

Lemma drop_free_tail_packed n js free :
  reverse (drop_free_tail n (reverse (packed js free))) =
  packed js (Nat.min free (Z.to_nat n - length js)).
Proof.
  induction free as [|free IH].
  - rewrite Nat.min_0_l. unfold packed. simpl. rewrite app_nil_r.
    destruct (reverse (Some <$> js)) as [|[j|] r] eqn:E; simpl.
    1,2: by rewrite <-E, reverse_involutive.
    exfalso. assert (None ∈ reverse (Some <$> js)) as Hin by (rewrite E; left).
    rewrite elem_of_reverse, list_elem_of_fmap in Hin. by destruct Hin as (x & Hx & _).
  - assert (packed js (S free) = packed js free ++ [None]) as Heq.
    { unfold packed. by rewrite <-app_assoc, <-replicate_S_end. }
    rewrite Heq, reverse_snoc. cbn [drop_free_tail]. unfold py_len. cbn [length].
    rewrite length_reverse, length_packed.
    destruct (Z.ltb_spec n (Z.of_nat (S (length js + free)))).
    + rewrite IH. f_equal. lia.
    + rewrite reverse_cons, reverse_involutive, <-Heq. f_equal. lia.
Qed.

Lemma packed_grow js a b : packed js a ++ replicate b None = packed js (a + b).
Proof. unfold packed. by rewrite <-app_assoc, replicate_add. Qed.

(** Resizing keeps the jobs and their order; when the size changes, they end up
    in front, followed by the free slots the new size leaves. *)
Lemma update_job_pool_size_ok n cc :
  1 ≤ n → cc_ok cc →
  ∃ cc', update_job_pool_size n cc = (Ret tt, cc') ∧ cc_ok cc' ∧ job_pool_size cc' = n ∧
    running_job_pool cc' =
      (if decide (n = py_len (running_job_pool cc)) then running_job_pool cc
       else packed (pool_jobs (running_job_pool cc))
              (Z.to_nat n - length (pool_jobs (running_job_pool cc)))).
Proof.
  intros Hn Hok. set (js := pool_jobs (running_job_pool cc)).
  pose proof (pool_jobs_length (running_job_pool cc)) as Hjs. fold js in Hjs.
  set (cc0 := mkCC (running_job_pool cc) n (running_job_idx cc)).
  destruct (tighten_jobs_ok cc0 Hok) as (idx & Ht & Hidx & Hkeep). simpl in Ht, Hidx.
  assert (Hcc : ∀ free, (1 ≤ length js + free)%nat → cc_ok (mkCC (packed js free) n idx)).
  { intros free Hf. unfold cc_ok, py_len. simpl. rewrite length_packed. fold js in Hidx.
    split; [lia|]. destruct (decide (idx = 0)); [by left|]. right.
    destruct (lookup_lt_is_Some_2 js (Z.to_nat idx)) as [j Hj]; [lia|].
    exists j. by apply packed_lookup_job. }
  unfold update_job_pool_size. destruct (Z.ltb_spec n 1); [lia|]. py_unfold. fold cc0.
  unfold py_len in *. case_decide as Hlen.
  - destruct (Z.ltb_spec n (Z.of_nat (length (running_job_pool cc)))); [lia|]. simpl.
    destruct (Z.ltb_spec (Z.of_nat (length (running_job_pool cc))) n); [lia|].
    exists cc0. by split_and!.
  - destruct (Z.ltb_spec n (Z.of_nat (length (running_job_pool cc)))).
    + unfold shrink_resource, bind. rewrite Ht. simpl. unfold compact. fold js.
      rewrite drop_free_tail_packed. unfold py_len. rewrite length_packed.
      destruct (Z.ltb_spec (Z.of_nat (length js + (length (running_job_pool cc) - length js)
        `min` (Z.to_nat n - length js))) n); [lia|].
      eexists. split; [done|].
      replace ((length (running_job_pool cc) - length js) `min` (Z.to_nat n - length js))%nat
        with (Z.to_nat n - length js)%nat by lia.
      split_and!; [apply Hcc; lia|done|done].
    + simpl. destruct (Z.ltb_spec (Z.of_nat (length (running_job_pool cc))) n); [|lia].
      unfold grow_resource, bind, modify. rewrite Ht. simpl. unfold compact. fold js.
      rewrite packed_grow. unfold py_len. rewrite length_packed. eexists. split; [done|].
      replace (length (running_job_pool cc) - length js +
        Z.to_nat (n - Z.of_nat (length js + (length (running_job_pool cc) - length js))))%nat
        with (Z.to_nat n - length js)%nat by lia.
      split_and!; [apply Hcc; lia|done|done].
Qed.

(** ** Lemmas: round robin *)

Lemma length_free_completed jm pool : length (free_completed jm pool) = length pool.
Proof. apply length_fmap. Qed.

Lemma next_in_pool_spec n pool idx j idx' :
  (0 < length pool)%nat → next_in_pool n pool idx = (Some j, idx') →
  pool !! Z.to_nat idx' = Some (Some j) ∧ 0 ≤ idx' < py_len pool.
Proof.
  intros Hlen. revert idx. induction n as [|n IH]; intros idx; simpl; [done|].
  destruct (pool !! Z.to_nat ((idx + 1) mod py_len pool)) as [[j'|]|] eqn:E; try apply IH.
  intros ?; simplify_eq. split; [done|]. apply Z.mod_pos_bound. unfold py_len. lia.
Qed.

(** Steps 1 and 2 leave a valid index. *)
Lemma next_in_pool_cc_ok jm cc :
  cc_ok cc →
  let pool1 := free_completed jm (running_job_pool cc) in
  let '(next, idx) := next_in_pool (length pool1) pool1 (running_job_idx cc) in
  cc_ok (mkCC pool1 (job_pool_size cc) (match next with Some _ => idx | None => 0 end)).
Proof.
  intros [Hidx _] pool1. unfold py_len in Hidx.
  assert (length pool1 = length (running_job_pool cc)) as Hlen by apply length_free_completed.
  destruct (next_in_pool _ _ _) as [[j|] idx] eqn:E; unfold cc_ok, py_len; simpl.
  - apply next_in_pool_spec in E as [Hj Hb]; [|lia]. unfold py_len in Hb. eauto.
  - split; [lia|by left].
Qed.

Lemma schedule_next_job_cc st :
  CC_controller (sched (schedule_next_job st).2) = CC_controller (sched st).
Proof.
  unfold schedule_next_job. destruct (jobs_queue (sched st)); [done|].
  by destruct (skip_inactive _ _ _).
Qed.

(** Filling slots touches no slot before the first one filled. *)
Lemma fill_slots_pool n start next st :
  let cc := CC_controller (sched st) in
  let cc' := CC_controller (sched (fill_slots n start next st).2) in
  length (running_job_pool cc') = length (running_job_pool cc) ∧
  running_job_idx cc' = running_job_idx cc ∧ job_pool_size cc' = job_pool_size cc ∧
  (∀ i, (i < start)%nat → running_job_pool cc' !! i = running_job_pool cc !! i) ∧
  (∀ i j, running_job_pool cc !! i = Some (Some j) → ∃ j', running_job_pool cc' !! i = Some (Some j')).
Proof.
  revert start next st. induction n as [|n IH]; intros start next st; simpl; [naive_solver|].
  pose proof (schedule_next_job_cc st) as Hcc.
  destruct (schedule_next_job st) as [[j|] st'] eqn:E; simpl in Hcc; simpl; rewrite ?Hcc; [|naive_solver].
  destruct (IH (S start) (match next with Some _ => next | None => Some j end)
    (set_pool_slot start j st')) as (Hlen & Hidx & Hsize & Hbefore & Hocc).
  simpl in *. rewrite Hcc in *. rewrite length_insert in Hlen.
  split_and!; try done.
  - intros i Hi. rewrite Hbefore by lia. by rewrite list_lookup_insert_ne by lia.
  - intros i j' Hj'. destruct (decide (i = start)) as [->|Hne].
    + apply (Hocc start j). apply list_lookup_insert_eq. by apply lookup_lt_Some in Hj'.
    + apply (Hocc i j'). by rewrite list_lookup_insert_ne by done.
Qed.

Lemma fill_slots_cc_ok n start next st :
  cc_ok (CC_controller (sched st)) → cc_ok (CC_controller (sched (fill_slots n start next st).2)).
Proof.
  destruct (fill_slots_pool n start next st) as (Hlen & Hidx & _ & _ & Hocc).
  intros [Hb Hs]. unfold cc_ok, py_len in *. rewrite Hlen, Hidx. split; [done|].
  destruct Hs as [?|[j Hj]]; [by left|]. right. by eapply Hocc.
Qed.

Lemma first_free_packed js n : first_free (packed js n) = length js.
Proof.
  unfold packed. induction js as [|j js IH]; simpl; [by destruct n|]. by f_equal.
Qed.

Lemma round_robin_ok st :
  1 ≤ current_pool_size (sched st) → cc_ok (CC_controller (sched st)) →
  ∃ job st', round_robin_get_job st = (Ret job, st') ∧ cc_ok (CC_controller (sched st')).
Proof.
  intros Hn Hok. unfold round_robin_get_job.
  pose proof (next_in_pool_cc_ok (jobs st) _ Hok) as Hcc1. simpl in Hcc1.
  destruct (next_in_pool _ _ _) as [next idx].
  destruct (update_job_pool_size_ok _ _ Hn Hcc1) as (cc2 & -> & Hcc2 & _ & _).
  destruct (fill_slots _ _ _ _) as [job st3] eqn:E. exists job, st3. split; [done|].
  change st3 with ((job, st3).2). rewrite <-E. by apply fill_slots_cc_ok.
Qed.

(** ** Lemmas: the due list *)

Lemma bisect_loop_spec fuel keys x lo hi :
  (∀ i k a b, (i ≤ k)%nat → keys !! i = Some a → keys !! k = Some b → a ≤ b) →
  (hi - lo ≤ fuel)%nat → (lo ≤ hi ≤ length keys)%nat →
  (∀ i a, (i < lo)%nat → keys !! i = Some a → a < x) →
  (∀ i a, (hi ≤ i)%nat → keys !! i = Some a → x ≤ a) →
  let r := bisect_loop fuel keys x lo hi in
  (r ≤ length keys)%nat ∧ (∀ i a, (i < r)%nat → keys !! i = Some a → a < x) ∧
  (∀ i a, (r ≤ i)%nat → keys !! i = Some a → x ≤ a).
Proof.
  intros Hsorted. revert lo hi. induction fuel as [|fuel IH]; intros lo hi Hf Hb Hlo Hhi; cbn [bisect_loop].
  { assert (lo = hi) as -> by lia. split_and!; [lia|done|done]. }
  destruct (Nat.ltb_spec lo hi); [|assert (lo = hi) as -> by lia; split_and!; [lia|done|done]].
  set (mid := ((lo + hi) / 2)%nat).
  assert (lo ≤ mid < hi)%nat as Hmid.
  { unfold mid. split; [apply Nat.div_le_lower_bound; lia|apply Nat.Div0.div_lt_upper_bound; lia]. }
  destruct (lookup_lt_is_Some_2 keys mid) as [m Hm]; [lia|]. rewrite Hm. cbn [default].
  unfold default, from_option, id. destruct (Z.ltb_spec m x); apply IH; try lia; try done.
  - intros i a Hi Ha. assert (a ≤ m) by (eapply (Hsorted i mid); [lia|done|done]). lia.
  - intros i a Hi Ha. assert (m ≤ a) by (eapply (Hsorted mid i); [lia|done|done]). lia.
Qed.

Lemma bisect_left_spec keys x :
  (∀ i k a b, (i ≤ k)%nat → keys !! i = Some a → keys !! k = Some b → a ≤ b) →
  let r := bisect_left keys x in
  (r ≤ length keys)%nat ∧ (∀ i a, (i < r)%nat → keys !! i = Some a → a < x) ∧
  (∀ i a, (r ≤ i)%nat → keys !! i = Some a → x ≤ a).
Proof.
  intros Hs. apply bisect_loop_spec; try done; try lia.
  intros i a Hi Ha. apply lookup_lt_Some in Ha. lia.
Qed.

Lemma due_sorted_cons x due :
  due_sorted (x :: due) ↔ (∀ y, y ∈ due → snd x ≤ snd y) ∧ due_sorted due.
Proof.
  split.
  - intros Hs. split.
    + intros y [k Hk]%list_elem_of_lookup. by apply (Hs 0%nat (S k)); [lia|..].
    + intros i k a b Hik Ha Hb. by apply (Hs (S i) (S k)); [lia|..].
  - intros [Hx Hs] [|i] [|k] a b Hik Ha Hb; simplify_eq/=; try lia.
    + apply Hx, list_elem_of_lookup. eauto.
    + by apply (Hs i k); [lia|..].
Qed.

Lemma due_sorted_app l1 l2 :
  due_sorted (l1 ++ l2) ↔
  due_sorted l1 ∧ due_sorted l2 ∧ ∀ x y, x ∈ l1 → y ∈ l2 → snd x ≤ snd y.
Proof.
  induction l1 as [|x l1 IH]; simpl.
  - split; [|tauto]. intros. split_and!; [|done|by intros ?? ?%elem_of_nil].
    intros ????? Hl. by rewrite lookup_nil in Hl.
  - rewrite !due_sorted_cons, IH. setoid_rewrite elem_of_app. setoid_rewrite elem_of_cons.
    naive_solver.
Qed.

Lemma expired_prefix_spec now due :
  due_sorted due →
  (∀ x, x ∈ take (expired_prefix now due) due → snd x ≤ now) ∧
  (∀ x, x ∈ drop (expired_prefix now due) due → now < snd x).
Proof.
  induction due as [|[j t] due IH]; simpl; [split; by intros ? ?%elem_of_nil|].
  rewrite due_sorted_cons. intros [Ht Hs]. destruct (Z.leb_spec t now); simpl.
  - destruct (IH Hs) as [H1 H2]. split; [|done]. intros x [->|?]%elem_of_cons; [done|auto].
  - split; [by intros ? ?%elem_of_nil|]. intros x [->|Hx]%elem_of_cons; [done|].
    specialize (Ht _ Hx). simpl in Ht. lia.
Qed.

(** Inserting where [bisect_left] says keeps the due list in order. *)
Lemma insert_due_sorted j t due :
  due_sorted due →
  let index := bisect_left (snd <$> due) t in
  due_sorted (take index due ++ (j, t) :: drop index due).
Proof.
  intros Hs. pose proof (bisect_left_spec (snd <$> due) t) as Hb. simpl in Hb.
  destruct Hb as (_ & Hlo & Hhi).
  { intros i k a b Hik. rewrite !list_lookup_fmap, !fmap_Some.
    intros (x & Hx & ->) (y & Hy & ->). by apply (Hs i k). }
  set (index := bisect_left _ _) in *.
  pose proof Hs as Hs'. rewrite <-(take_drop index due) in Hs'.
  apply due_sorted_app in Hs' as (H1 & H2 & H12).
  apply due_sorted_app. split_and!; [done| |].
  - apply due_sorted_cons. split; [|done]. intros y [k Hk]%list_elem_of_lookup. simpl.
    rewrite lookup_drop in Hk. apply (Hhi (index + k)%nat); [lia|].
    by rewrite list_lookup_fmap, Hk.
  - intros x y Hx [->|Hy]%elem_of_cons; [|by apply H12]. simpl.
    apply list_elem_of_lookup in Hx as [k Hk]. apply lookup_take_Some in Hk as [Hk ?].
    assert (snd x < t); [|lia]. apply (Hlo k); [done|]. by rewrite list_lookup_fmap, Hk.
Qed.

(** ** Runs of the scheduler *)

(** Whatever the service does between two looks at the scheduler: jobs are
    appended, expired, the pool size is configured, the next job is chosen, and
    the job manager is called. *)
Inductive sched_step (nreq : job_id → Z) : SchedState → SchedState → Prop :=
| sched_append now j due st :
    sched_step nreq st (mkSched (append_job now j due (sched st)) (jobs st))
| sched_expire now st :
    sched_step nreq st (mkSched (expire_jobs now (sched st)) (jobs st))
| sched_configure n st :
    1 ≤ n → sched_step nreq st (mkSched (configure_job_pool_size n (sched st)) (jobs st))
| sched_round_robin st :
    sched_step nreq st (round_robin_get_job st).2
| sched_manager o st :
    sched_step nreq st (mkSched (sched st) (run_op nreq o (jobs st))).

Definition sched_ok (st : SchedState) : Prop :=
  1 ≤ current_pool_size (sched st) ∧ cc_ok (CC_controller (sched st)) ∧
  due_sorted (due_jobs_list (sched st)).

Definition init_sched (pool_size : Z) : SchedState :=
  mkSched (new_JobScheduler pool_size (new_CC pool_size)) new_JobManager.

Lemma fill_slots_static n start next st :
  current_pool_size (sched (fill_slots n start next st).2) = current_pool_size (sched st) ∧
  due_jobs_list (sched (fill_slots n start next st).2) = due_jobs_list (sched st).
Proof.
  revert start next st. induction n as [|n IH]; intros start next st; simpl; [done|].
  destruct (schedule_next_job st) as [[j|] st'] eqn:E; simpl;
    unfold schedule_next_job in E; destruct (jobs_queue (sched st)); simplify_eq/=;
    try destruct (skip_inactive _ _ _); simplify_eq/=; [|done].
  destruct (IH (S start) (match next with Some _ => next | None => Some j end)
    (set_pool_slot start j (mkSched (set_queue l0 (sched st)) (start_execute_job j (jobs st)).2)))
    as [-> ->]. done.
Qed.

Lemma round_robin_static st job st' :
  round_robin_get_job st = (Ret job, st') →
  current_pool_size (sched st') = current_pool_size (sched st) ∧
  due_jobs_list (sched st') = due_jobs_list (sched st).
Proof.
  unfold round_robin_get_job. destruct (next_in_pool _ _ _) as [next idx].
  destruct (update_job_pool_size _ _) as [[]cc2]; try done.
  destruct (fill_slots _ _ _ _) as [job' st3] eqn:E. intros [= <- <-].
  change st3 with ((job', st3).2). rewrite <-E.
  destruct (fill_slots_static (length (running_job_pool cc2) - first_free (running_job_pool cc2))
    (first_free (running_job_pool cc2)) next (mkSched (set_cc cc2 (sched st)) (jobs st))) as [-> ->].
  done.
Qed.

Lemma sched_step_ok nreq st st' : sched_ok st → sched_step nreq st st' → sched_ok st'.
Proof.
  intros (Hn & Hcc & Hdue). destruct 1 as [now j due st|now st|n st|st|o st]; try done.
  - split_and!; try done. by apply insert_due_sorted.
  - split_and!; try done. simpl.
    rewrite <-(take_drop (expired_prefix now (due_jobs_list (sched st)))) in Hdue.
    by apply due_sorted_app in Hdue as (_ & ? & _).
  - destruct (round_robin_ok st Hn Hcc) as (job & st' & Heq & Hcc').
    rewrite Heq. simpl. destruct (round_robin_static _ _ _ Heq) as [Hs Hd].
    unfold sched_ok. by rewrite Hs, Hd.
Qed.

Lemma sched_reachable_ok nreq n st :
  1 ≤ n → rtc (sched_step nreq) (init_sched n) st → sched_ok st.
Proof.
  intros Hn. apply (rtc_ind_r (λ st, sched_ok st)).
  - split_and!; [done| |intros ????? Hl; simpl in Hl; by rewrite lookup_nil in Hl].
    unfold cc_ok, py_len. simpl. rewrite length_replicate. split; [lia|by left].
  - intros ?? _ Hstep Hok. by eapply sched_step_ok.
Qed.

(** ** Properties *)

(** Tightening is stable compaction: on a valid pool the two-pointer loop
    ends, the running jobs move to the front in their order with the free slots
    behind them, and the round-robin index still designates the same job. *)
Theorem tighten_jobs_compacts (cc : BasicCongestionControl) :
  cc_ok cc →
  ∃ idx, tighten_jobs cc = (Ret tt, mkCC (compact (running_job_pool cc)) (job_pool_size cc) idx) ∧
    (0 ≤ idx ∧ (idx = 0 ∨ idx < Z.of_nat (length (pool_jobs (running_job_pool cc))))) ∧
    ∀ j, running_job_pool cc !! Z.to_nat (running_job_idx cc) = Some (Some j) →
         compact (running_job_pool cc) !! Z.to_nat idx = Some (Some j).
Proof. apply tighten_jobs_ok. Qed.

Definition demo_cc : BasicCongestionControl := mkCC [None; Some 5%N; None; Some 6%N] 4 3.

Lemma tighten_jobs_compacts_witness :
  compact (running_job_pool demo_cc) = [Some 5%N; Some 6%N; None; None] ∧
  ∃ idx, tighten_jobs demo_cc = (Ret tt, mkCC (compact (running_job_pool demo_cc)) (job_pool_size demo_cc) idx) ∧
    (0 ≤ idx ∧ (idx = 0 ∨ idx < Z.of_nat (length (pool_jobs (running_job_pool demo_cc))))) ∧
    ∀ j, running_job_pool demo_cc !! Z.to_nat (running_job_idx demo_cc) = Some (Some j) →
         compact (running_job_pool demo_cc) !! Z.to_nat idx = Some (Some j).
Proof.
  split; [reflexivity|]. apply (tighten_jobs_compacts demo_cc).
  split; [split; [discriminate|reflexivity]|right; exists 6%N; reflexivity].
Defined.

(** C6: in every run of a scheduler whose pool sizes are at least 1, choosing
    the next job returns (no index error, no assertion failure, the loops end),
    the round-robin index stays valid and the due list stays in order. *)
Theorem round_robin_safe (nreq : job_id → Z) (n : Z) (st : SchedState) :
  1 ≤ n → rtc (sched_step nreq) (init_sched n) st →
  (∃ job st', round_robin_get_job st = (Ret job, st')) ∧
  cc_ok (CC_controller (sched st)) ∧ due_sorted (due_jobs_list (sched st)).
Proof.
  intros Hn Hr. destruct (sched_reachable_ok _ _ _ Hn Hr) as (Hs & Hcc & Hd).
  destruct (round_robin_ok st Hs Hcc) as (job & st' & Heq & _). eauto.
Qed.

Definition demo_sched : SchedState :=
  mkSched (append_job 0 9%N 60 (append_job 0 8%N 30 (sched (init_sched 2)))) new_JobManager.

Lemma demo_sched_reachable : rtc (sched_step demo_nreq) (init_sched 2) demo_sched.
Proof.
  eapply rtc_r; [apply rtc_once, (sched_append demo_nreq 0 8%N 30 (init_sched 2))|].
  apply (sched_append demo_nreq 0 9%N 60 (mkSched (append_job 0 8%N 30 (sched (init_sched 2))) _)).
Qed.

Lemma round_robin_safe_witness :
  (∃ job st', round_robin_get_job demo_sched = (Ret job, st')) ∧
  cc_ok (CC_controller (sched demo_sched)) ∧ due_sorted (due_jobs_list (sched demo_sched)).
Proof.
  apply (round_robin_safe demo_nreq 2); [lia|].
  apply demo_sched_reachable.
Defined.

(** In every run, expiring at time [now] makes inactive exactly the jobs of
    the due list whose due time has come, and keeps exactly the others. *)
Theorem expire_jobs_exact (nreq : job_id → Z) (n now : Z) (st : SchedState) :
  1 ≤ n → rtc (sched_step nreq) (init_sched n) st →
  let s := sched st in let s' := expire_jobs now s in
  (∀ j, j ∈ inactive_jobs s' ↔
        j ∈ inactive_jobs s ∨ ∃ t, (j, t) ∈ due_jobs_list s ∧ t ≤ now) ∧
  (∀ x, x ∈ due_jobs_list s' ↔ x ∈ due_jobs_list s ∧ now < snd x).
Proof.
  intros Hn Hr s s'. destruct (sched_reachable_ok _ _ _ Hn Hr) as (_ & _ & Hd).
  destruct (expired_prefix_spec now _ Hd) as [Hle Hgt]. unfold s', expire_jobs, s. simpl.
  set (due := due_jobs_list (sched st)) in *. set (k := expired_prefix now due) in *.
  assert (Hsplit : ∀ x, x ∈ due ↔ x ∈ take k due ∨ x ∈ drop k due).
  { intros x. rewrite <-elem_of_app, take_drop. done. }
  split.
  - intros j. rewrite elem_of_union, elem_of_list_to_set, list_elem_of_fmap. split.
    + intros [?|([j' t] & -> & Hin)]; [by left|]. right. exists t. rewrite Hsplit.
      split; [by left|]. by apply Hle in Hin.
    + intros [?|(t & [Hin|Hin]%Hsplit & Ht)]; [by left|right; by exists (j, t)|].
      apply Hgt in Hin. simpl in Hin. lia.
  - intros x. rewrite Hsplit. split.
    + intros Hin. split; [by right|by apply Hgt].
    + intros [[Hin|Hin] Hx]; [|done]. apply Hle in Hin. lia.
Qed.

Lemma expire_jobs_exact_witness :
  let s := sched demo_sched in let s' := expire_jobs (40 * NS_PER_SECOND) s in
  (∀ j, j ∈ inactive_jobs s' ↔
        j ∈ inactive_jobs s ∨ ∃ t, (j, t) ∈ due_jobs_list s ∧ t ≤ 40 * NS_PER_SECOND) ∧
  (∀ x, x ∈ due_jobs_list s' ↔ x ∈ due_jobs_list s ∧ 40 * NS_PER_SECOND < snd x).
Proof.
  apply (expire_jobs_exact demo_nreq 2 (40 * NS_PER_SECOND) demo_sched); [lia|].
  apply demo_sched_reachable.
Defined.

(** The scheduler serves the queue first in, first out, skipping inactive
    jobs: with an active job in the queue, it returns the first active one and
    drops exactly the inactive jobs before it. *)
Theorem schedule_first_active (st : SchedState) (pre post : list job_id) (j : job_id) :
  jobs_queue (sched st) = pre ++ j :: post →
  (∀ x, x ∈ pre → x ∈ inactive_jobs (sched st)) → j ∉ inactive_jobs (sched st) →
  schedule_next_job st =
    (Some j, mkSched (set_queue post (sched st)) (start_execute_job j (jobs st)).2).
Proof.
  intros Hq Hpre Hj. unfold schedule_next_job. rewrite Hq.
  assert (Hskip : ∀ pre x, (∀ y, y ∈ x :: pre → y ∈ inactive_jobs (sched st)) →
    skip_inactive (inactive_jobs (sched st)) x (pre ++ j :: post) = (j, post)).
  { clear -Hj. induction pre as [|y pre IH]; intros x Hx; simpl.
    - rewrite decide_True by (apply Hx; left). destruct post; simpl; [done|]. by rewrite decide_False.
    - rewrite decide_True by (apply Hx; left). apply IH. intros z Hz. apply Hx. by right. }
  destruct pre as [|x pre]; simpl.
  - destruct post; simpl; [done|]. by rewrite decide_False.
  - by rewrite Hskip.
Qed.

Lemma schedule_first_active_witness :
  let st := mkSched (expire_jobs (40 * NS_PER_SECOND) (sched demo_sched)) new_JobManager in
  schedule_next_job st =
    (Some 9%N, mkSched (set_queue [] (sched st)) (start_execute_job 9%N (jobs st)).2).
Proof.
  intros st. apply (schedule_first_active st [8%N] [] 9%N); [reflexivity| |].
  - intros x ->%list_elem_of_singleton. vm_compute. reflexivity.
  - apply (bool_decide_unpack (9%N ∉ inactive_jobs (sched st))). vm_compute. exact I.
Defined.

(** A job that has expired is started all the same when it is the last of
    the queue: nothing active follows it, and it is popped, moved to the
    in-progress pool and returned for execution. *)
Theorem expired_last_job_runs (st : SchedState) (j : job_id) (m : JobMetaInfo) :
  jobs_queue (sched st) = [j] → j ∈ inactive_jobs (sched st) →
  pending_jobs (jobs st) !! j = Some m → in_progress_jobs (jobs st) !! j = None →
  ∃ st', schedule_next_job st = (Some j, st') ∧
    in_progress_jobs (jobs st') !! j = Some (set_job_status IN_PROGRESS m).
Proof.
  intros Hq _ Hp Hi. unfold schedule_next_job. rewrite Hq. simpl.
  eexists. split; [reflexivity|]. unfold start_execute_job. rewrite Hp, Hi. simpl.
  apply lookup_insert_eq.
Qed.

Definition demo_expired : SchedState :=
  mkSched (expire_jobs (99 * NS_PER_SECOND) (append_job 0 7%N 30 (sched (init_sched 1))))
    (create_job demo_nreq 0 7%N "ep" "1h" new_JobManager).2.

Lemma expired_last_job_runs_witness :
  ∃ m, pending_jobs (jobs demo_expired) !! 7%N = Some m ∧
  ∃ st', schedule_next_job demo_expired = (Some 7%N, st') ∧
    in_progress_jobs (jobs st') !! 7%N = Some (set_job_status IN_PROGRESS m).
Proof.
  eexists; split; [vm_compute; reflexivity|].
  apply (expired_last_job_runs demo_expired 7%N);
    [reflexivity|vm_compute; reflexivity|vm_compute; reflexivity|reflexivity].
Defined.

(** A running job is never dropped from the pool when the pool has just
    been resized, or has no free slot in front of a running job: after choosing
    the next job, every unfinished job of the pool is still in it. *)
Theorem running_jobs_kept (st : SchedState) :
  let pool1 := free_completed (jobs st) (running_job_pool (CC_controller (sched st))) in
  1 ≤ current_pool_size (sched st) → cc_ok (CC_controller (sched st)) →
  current_pool_size (sched st) ≠ py_len pool1 ∨ pool1 = compact pool1 →
  ∃ job st', round_robin_get_job st = (Ret job, st') ∧
    ∀ j, Some j ∈ pool1 → Some j ∈ running_job_pool (CC_controller (sched st')).
Proof.
  intros pool1 Hn Hok Hcase. unfold round_robin_get_job. fold pool1.
  pose proof (next_in_pool_cc_ok (jobs st) _ Hok) as Hcc1. simpl in Hcc1. fold pool1 in Hcc1.
  destruct (next_in_pool _ _ _) as [next idx].
  destruct (update_job_pool_size_ok _ _ Hn Hcc1) as (cc2 & -> & _ & _ & Hpool). simpl in Hpool.
  assert (∃ free, running_job_pool cc2 = packed (pool_jobs pool1) free) as [free Hpk].
  { case_decide; [|eauto]. destruct Hcase as [?|Hc]; [done|].
    exists (length pool1 - length (pool_jobs pool1))%nat. rewrite Hpool. exact Hc. }
  destruct (fill_slots _ _ _ _) as [job st3] eqn:E. exists job, st3. split; [done|].
  intros j Hj. apply elem_of_pool_jobs, list_elem_of_lookup in Hj as [i Hi].
  apply list_elem_of_lookup. exists i. change st3 with ((job, st3).2). rewrite <-E.
  edestruct fill_slots_pool as (_ & _ & _ & Hbefore & _). rewrite Hbefore; simpl; rewrite Hpk.
  - by apply packed_lookup_job.
  - rewrite first_free_packed. by apply lookup_lt_Some in Hi.
Qed.

Lemma running_jobs_kept_witness :
  let pool1 := free_completed (jobs demo_sched) (running_job_pool (CC_controller (sched demo_sched))) in
  ∃ job st', round_robin_get_job demo_sched = (Ret job, st') ∧
    ∀ j, Some j ∈ pool1 → Some j ∈ running_job_pool (CC_controller (sched st')).
Proof.
  intros pool1. apply (running_jobs_kept demo_sched); [vm_compute; discriminate| |right; reflexivity].
  split; [split; [discriminate|reflexivity]|left; reflexivity].
Defined.

(** Otherwise a running job can be dropped: with the pool [[done; running]]
    and two jobs queued, both are put in the pool, the second one over the
    running job, which is in progress and in no slot any more. *)
Theorem running_job_overwritten :
  let jm := run_op demo_nreq (OpStart 2%N) (run_op demo_nreq (OpCreate 0 2%N "e" "1h")
              (run_op demo_nreq (OpMark 1%N [0; 1]) (run_op demo_nreq (OpStart 1%N)
                (run_op demo_nreq (OpCreate 0 1%N "e" "1h") new_JobManager)))) in
  let st := mkSched (mkScheduler [3%N; 4%N] ∅ [] 2 (mkCC [Some 1%N; Some 2%N] 2 0)) jm in
  ∃ st', round_robin_get_job st = (Ret (Some 2%N), st') ∧
    running_job_pool (CC_controller (sched st')) = [Some 3%N; Some 4%N] ∧
    get_job_status 2%N (jobs st') = Some IN_PROGRESS.
Proof. vm_compute. eexists. repeat split. Qed.
