(* ===== verification/BatchDriver.v ===== *)
(** * The batch driver and the request proxy

    Models [python/aibrix/aibrix/batch/driver.py] and [request_proxy.py]: the
    object that binds the storage, the job manager, the scheduler and the proxy,
    one turn of its job loop, and the execution of one request. The inference
    client of the source returns its input after a pause; the model returns it
    at once. Local files are the storage the driver initializes. *)

From S2P Require Import Prelude JobManager Storage Scheduler.

Open Scope Z_scope.
Open Scope py_scope.

Record BatchDriver (J : Json) := mkDriver {
  drv_storage : BatchStorage J disk;
  drv_sched : SchedState
}.

Arguments mkDriver {J} _ _.
Arguments drv_storage {J} _.
Arguments drv_sched {J} _.

Section driver.
Context {J : Json}.

Abbreviation Drv := (BatchDriver J).

(** [BatchDriver.__init__] *)
Definition new_BatchDriver (d : disk) : Drv :=
  mkDriver (new_BatchStorage d)
    (mkSched (new_JobScheduler DEFAULT_JOB_POOL_SIZE (new_CC DEFAULT_JOB_POOL_SIZE)) new_JobManager).

Definition on_batch_storage {A} (m : M (BatchStorage J disk) A) : M Drv A :=
  zoom drv_storage (λ b d, mkDriver b (drv_sched d)) m.

Definition on_sched {A} (m : M SchedState A) : M Drv A :=
  zoom drv_sched (λ s d, mkDriver (drv_storage d) s) m.

Definition on_jobs {A} (m : M JobManager A) : M Drv A :=
  on_sched (zoom jobs (λ j s, mkSched (sched s) j) m).

(** ** The request proxy *)

Definition inference_request (endpoint : option string) (prompt_list : json) : json := prompt_list.

Definition fetch_request_input (jid : job_id) (request_id : Z) : M Drv json :=
  let* requests := on_batch_storage (read_job_requests jid request_id 1) in
  lift (py_index requests 0).

Definition store_output (jid : job_id) (request_id : Z) (result : json) : M Drv unit :=
  on_batch_storage (put_storage_job_results jid request_id [result]).

Definition sync_job_status (jid : job_id) (request_id : Z) : M Drv unit :=
  on_jobs (mark_job_progress jid [request_id]) ;; ret tt.

Definition execute_queries (jid : job_id) : M Drv unit :=
  let* next := gets (λ d, get_job_next_request jid (jobs (drv_sched d))) in
  let* request_id := lift next in
  if request_id =? -1 then ret tt
  else
    let* endpoint := gets (λ d, get_job_endpoint jid (jobs (drv_sched d))) in
    let* request_input := fetch_request_input jid request_id in
    store_output jid request_id (inference_request endpoint request_input) ;;
    sync_job_status jid request_id.

(** ** The driver *)

Definition upload_batch_data (jid : job_id) (input_file : option string) : M Drv job_id :=
  on_batch_storage (upload_input_data jid input_file).

Definition driver_create_job (now : Z) (jid : job_id) (endpoint window_due_time : string) : M Drv unit :=
  let* d := get in
  on_jobs (create_job (λ j, get_job_request_len j (drv_storage d)) now jid endpoint window_due_time) ;;
  let* due_time := gets (λ d, get_job_window_due jid (jobs (drv_sched d))) in
  on_sched (modify (λ s, mkSched (append_job now jid due_time (sched s)) (jobs s))).

Definition driver_get_job_status (jid : job_id) (d : Drv) : option JobStatus :=
  get_job_status jid (jobs (drv_sched d)).

Definition retrieve_job_result (jid : job_id) (d : Drv) : outcome (list json) :=
  get_storage_job_results jid 0 (get_job_request_len jid (drv_storage d)) (drv_storage d).

(** One turn of [jobs_running_loop]. *)
Definition jobs_running_turn : M Drv unit :=
  let* one_job := on_sched round_robin_get_job in
  match one_job with
  | Some jid => execute_queries jid
  | None => ret tt
  end.

Definition clear_job (jid : job_id) : M Drv unit := on_batch_storage (remove_storage_job_data jid).

(** [n] turns of the loop; an exception ends it. *)
Fixpoint jobs_running_loop (n : nat) : M Drv unit :=
  match n with
  | O => ret tt
  | S n' => jobs_running_turn ;; jobs_running_loop n'
  end.

End driver.

(** ** Lemmas: a scheduler with one busy slot *)

(** The scheduler's only slot holds [j]. *)
Definition one_slot (j : job_id) (s : JobScheduler) : Prop :=
  current_pool_size s = 1 ∧ CC_controller s = mkCC [Some j] 1 0.

Lemma round_robin_one_slot j st :
  one_slot j (sched st) → get_job_status j (jobs st) ≠ Some COMPLETED →
  round_robin_get_job st = (Ret (Some j), st).
Proof.
  destruct st as [[q ia due cur cc] jm]. intros [Hn Hcc] Hst. simpl in *. subst cur cc.
  unfold round_robin_get_job. simpl.
  rewrite decide_False by done. done.
Qed.

(** Bits of a job whose first [k] requests are executed. *)
Definition bits_done (k n : nat) : list bool := replicate k true ++ replicate (n - k) false.

Lemma bits_done_lookup_lt k n i : (i < k)%nat → bits_done k n !! i = Some true.
Proof. intros. unfold bits_done. rewrite lookup_app_l by (rewrite length_replicate; lia). by apply lookup_replicate_2. Qed.

Lemma bits_done_lookup_k k n : (k < n)%nat → bits_done k n !! k = Some false.
Proof.
  intros. unfold bits_done. rewrite lookup_app_r by (rewrite length_replicate; lia).
  rewrite length_replicate, Nat.sub_diag. apply lookup_replicate_2. lia.
Qed.

Lemma length_bits_done k n : (k ≤ n)%nat → length (bits_done k n) = n.
Proof. intros. unfold bits_done. rewrite length_app, !length_replicate. lia. Qed.

Lemma bits_done_step k n :
  (k < n)%nat → <[k := true]> (bits_done k n) = bits_done (S k) n.
Proof.
  intros. unfold bits_done. rewrite insert_app_r_alt by (rewrite length_replicate; lia).
  rewrite length_replicate, Nat.sub_diag. replace (n - k)%nat with (S (n - S k)) by lia. simpl.
  by rewrite replicate_shift.
Qed.

Lemma count_true_bits_done k n : count_true (bits_done k n) = k.
Proof.
  unfold bits_done. generalize (n - k)%nat as r. intros r.
  induction k as [|k IH]; simpl; [apply count_true_replicate|by rewrite IH].
Qed.

Lemma next_request_bits_done j k n m :
  (k < n)%nat → in_progress_ok j m → request_progress_bits m = bits_done k n →
  next_request_id m = Ret (Z.of_nat k).
Proof.
  intros Hk (_ & (Hnum & _ & Hcur) & _ & Hlt) Hbits. unfold next_request_id. rewrite Hcur.
  destruct (Z.eqb_spec (succeed_num_requests m) (num_requests m)); [lia|].
  apply (next_request_loop_first _ _ _ 0 k); rewrite ?Hbits; try done; try lia.
  - by rewrite Hbits in Hnum.
  - by apply bits_done_lookup_k.
  - intros i Hi. by apply bits_done_lookup_lt.
  - rewrite length_bits_done; lia.
Qed.

(** ** Lemmas: running one job to its end *)

Section one_job.
Context {J : Json} {JL : JsonLaws J}.
Variables (j : job_id) (rs : list json).

(** The job is running, alone, with its first [k] requests executed. *)
Definition running_at (k : nat) (d : BatchDriver J) : Prop :=
  one_slot j (sched (drv_sched d)) ∧
  cache_ok j rs (drv_storage d) ∧ results_are j (take k rs) (p_storage (drv_storage d)) ∧
  pending_jobs (jobs (drv_sched d)) !! j = None ∧
  ∃ m, in_progress_jobs (jobs (drv_sched d)) !! j = Some m ∧ in_progress_ok j m ∧
    request_progress_bits m = bits_done k (length rs).

(** The job has run to its end. *)
Definition finished (d : BatchDriver J) : Prop :=
  driver_get_job_status j d = Some COMPLETED ∧ retrieve_job_result j d = Ret rs.

Lemma results_output_exists out d :
  results_are j out d → out ≠ [] →
  ∃ dir, d !! j = Some dir ∧ output_json dir = Some (unlines (json_dumps <$> out)).
Proof.
  intros (dir & Hd & Hout) Hne. exists dir. split; [done|].
  destruct (output_json dir) as [t|]; simpl in Hout; [by subst|].
  destruct out as [|v out]; [done|]. csimpl in Hout. unfold unlines in Hout. simpl in Hout.
  destruct (json_dumps v) eqn:E; [by destruct (dumps_nonempty v)|done].
Qed.

Lemma finished_intro m d :
  pending_jobs (jobs (drv_sched d)) !! j = None → in_progress_jobs (jobs (drv_sched d)) !! j = None →
  done_jobs (jobs (drv_sched d)) !! j = Some m → job_status m = COMPLETED →
  cache_ok j rs (drv_storage d) → results_are j rs (p_storage (drv_storage d)) → rs ≠ [] →
  finished d.
Proof.
  intros Hp Hi Hd Hst [Hstored _] Hres Hne. split.
  - unfold driver_get_job_status, get_job_status. by rewrite Hp, Hi, Hd, Hst.
  - destruct (results_output_exists rs _ Hres Hne) as (dir & Hdir & Hout).
    unfold retrieve_job_result, get_storage_job_results, get_job_request_len. simpl.
    rewrite (local_number_stored _ _ rs) by done.
    erewrite read_output_results; [|done..|].
    + by rewrite firstn_all2 by (unfold py_len; lia).
    + destruct rs; [done|unfold py_len; simpl; lia].
Qed.

(** Reading request [k] and storing its result extends the results by it. *)
Lemma store_next k r (b : BatchStorage J disk) :
  cache_ok j rs b → results_are j (take k rs) (p_storage b) → rs !! k = Some r →
  ∃ b1 b2, read_job_requests j (Z.of_nat k) 1 b = (Ret [r], b1) ∧
    put_storage_job_results j (Z.of_nat k) [r] b1 = (Ret tt, b2) ∧
    cache_ok j rs b2 ∧ results_are j (take (S k) rs) (p_storage b2).
Proof.
  intros Hcache Hres Hr. pose proof (lookup_lt_Some _ _ _ Hr) as Hk.
  destruct (read_job_requests_ok j rs (Z.of_nat k) 1 b Hcache)
    as (b1 & Hread & (Hstored & Hoff) & Hst1); [unfold py_len; lia|lia|lia|].
  rewrite Nat2Z.id, (drop_S _ r) in Hread by done.
  destruct (write_output_results j (Z.of_nat k) (take k rs) [r] _ Hres) as (d1 & Hw & Hres1).
  exists b1, (set_p_storage d1 b1). split; [done|]. rewrite <-take_S_r in Hres1 by done.
  unfold put_storage_job_results, on_storage. py_unfold. rewrite Hst1. simpl. rewrite Hw.
  split_and!; [done| |done]. split; [|done]. simpl. change d1 with (Ret tt, d1).2. rewrite <-Hw.
  rewrite local_write_output_stored. by rewrite <-Hst1.
Qed.

(** Marking request [k] moves the job to the done pool exactly at the last one. *)
Lemma mark_next k m s :
  in_progress_jobs s !! j = Some m → in_progress_ok j m →
  request_progress_bits m = bits_done k (length rs) → (k < length rs)%nat →
  ∃ m', request_progress_bits m' = bits_done (S k) (length rs) ∧
    if decide (S k = length rs)
    then job_status m' = COMPLETED ∧
      mark_job_progress j [Z.of_nat k] s =
        (Ret true, mkJobManager (pending_jobs s) (delete j (in_progress_jobs s))
                     (<[j := m']> (done_jobs s)))
    else in_progress_ok j m' ∧
      mark_job_progress j [Z.of_nat k] s =
        (Ret true, mkJobManager (pending_jobs s) (<[j := m']> (in_progress_jobs s)) (done_jobs s)).
Proof.
  intros Hm Hok Hbits Hk. unfold mark_job_progress. rewrite Hm.
  destruct (mark_requests_spec [Z.of_nat k] false m) as (m' & -> & [Hwf' Hst'] & Hid & Hnum & Hbits');
    [by eapply in_progress_progress_ok|].
  assert (request_progress_bits m' = bits_done (S k) (length rs)) as Hb'.
  { rewrite <-bits_done_step, <-Hbits by done. apply list_eq. intros i. rewrite Hbits'. simpl.
    destruct (decide (i = k)) as [->|Hne].
    - rewrite list_lookup_insert_eq by (rewrite Hbits, length_bits_done; lia).
      rewrite Hbits, bits_done_lookup_k by done. simpl. by rewrite Z.eqb_refl.
    - rewrite list_lookup_insert_ne by done. destruct (_ !! i) as [b|]; [|done]. simpl.
      destruct (Z.eqb_spec (Z.of_nat k) (Z.of_nat i)); [lia|]. by rewrite !orb_false_r. }
  exists m'. split; [done|].
  destruct Hok as (Hj & _). pose proof Hwf' as (Hn' & Hs' & _).
  rewrite Hb' in Hn', Hs'. rewrite count_true_bits_done in Hs'. unfold py_len in Hn'.
  rewrite length_bits_done in Hn' by lia.
  assert (Hin : existsb (λ r, (r <? 0) || (num_requests m <=? r)) [Z.of_nat k] = false)
    by (simpl; lia).
  rewrite Hin. case_decide; (destruct Hst' as [[Hst ?]|[Hst ?]]; [|try lia]; try lia).
  - split; [done|]. by rewrite decide_True by done.
  - split; [split_and!; auto with lia; congruence|]. by rewrite decide_False by congruence.
Qed.

(** Executing the next request of a running job. *)
Lemma execute_next k d :
  running_at k d → (k < length rs)%nat →
  ∃ d', execute_queries j d = (Ret tt, d') ∧
    if decide (S k = length rs) then finished d' else running_at (S k) d'.
Proof.
  intros (Hslot & Hcache & Hres & Hpend & m & Hm & Hok & Hbits) Hk.
  destruct (lookup_lt_is_Some_2 rs k Hk) as [r Hr].
  destruct (store_next k r _ Hcache Hres Hr) as (b1 & b2 & Hread & Hput & Hcache2 & Hres2).
  destruct (mark_next k m _ Hm Hok Hbits Hk) as (m' & Hb' & Hmark).
  unfold execute_queries. py_unfold. unfold get_job_next_request. rewrite Hm.
  rewrite (next_request_bits_done j k (length rs) m Hk Hok Hbits).
  destruct (Z.eqb_spec (Z.of_nat k) (-1)); [lia|].
  unfold fetch_request_input, store_output, on_batch_storage. py_unfold.
  rewrite Hread. simpl. unfold inference_request. rewrite Hput.
  unfold sync_job_status, on_jobs, on_sched. py_unfold. simpl.
  case_decide as Hlast; destruct Hmark as [Hdone Hmark]; rewrite Hmark; eexists; (split; [done|]).
  - apply finished_intro with m'; simpl; try done.
    + apply lookup_delete_eq.
    + apply lookup_insert_eq.
    + by rewrite Hlast, firstn_all in Hres2.
    + intros ->. simpl in Hk. lia.
  - split_and!; try done. exists m'. simpl. by rewrite lookup_insert_eq.
Qed.

(** A turn of the loop on a running job executes its next request. *)
Lemma turn_running k d :
  running_at k d → jobs_running_turn d = execute_queries j d.
Proof.
  intros (Hslot & _ & _ & Hpend & m & Hm & Hok & _). unfold jobs_running_turn, on_sched. py_unfold.
  rewrite (round_robin_one_slot j); [by destruct d|done|].
  unfold get_job_status. rewrite Hpend, Hm. destruct Hok as (_ & _ & -> & _). done.
Qed.

Lemma loop_running i k d :
  running_at k d → (k + S i = length rs)%nat →
  ∃ d', jobs_running_loop (S i) d = (Ret tt, d') ∧ finished d'.
Proof.
  revert k d. induction i as [|i IH]; intros k d Hrun Hk.
  all: destruct (execute_next k d Hrun) as (d1 & Hex & Hd1); [lia|].
  all: cbn [jobs_running_loop]; unfold bind at 1; rewrite (turn_running k) by done; rewrite Hex.
  - rewrite decide_True in Hd1 by lia. by exists d1.
  - rewrite decide_False in Hd1 by lia. apply (IH (S k)); [done|lia].
Qed.

(** The first turn takes the job from the queue into the free slot. *)
Lemma turn_starts m due d :
  sched (drv_sched d) = mkScheduler [j] ∅ due 1 (mkCC [None] 1 0) →
  cache_ok j rs (drv_storage d) → results_are j [] (p_storage (drv_storage d)) →
  jobs (drv_sched d) = mkJobManager {[j := m]} ∅ ∅ → pending_ok j m →
  request_progress_bits m = bits_done 0 (length rs) →
  ∃ d1, running_at 0 d1 ∧ jobs_running_turn d = execute_queries j d1.
Proof.
  destruct d as [b [s jm]]. simpl. intros -> Hcache Hres -> (Hid & Hwf & Hst & Hs & Hn) Hbits.
  exists (mkDriver b (mkSched (mkScheduler [] ∅ due 1 (mkCC [Some j] 1 0))
    (mkJobManager ∅ {[j := set_job_status IN_PROGRESS m]} ∅))).
  split.
  - split_and!; try done. exists (set_job_status IN_PROGRESS m). simpl. rewrite lookup_singleton_eq.
    split_and!; try done. split_and!; try done. simpl. lia.
  - unfold jobs_running_turn, on_sched. py_unfold. unfold round_robin_get_job. simpl.
    unfold start_execute_job. simpl. rewrite lookup_singleton_eq, lookup_empty. simpl.
    by rewrite delete_singleton_eq, insert_empty.
Qed.

End one_job.

(** ** Lemmas: creating jobs *)

Lemma create_job_valid nreq now j endpoint window w s :
  0 < nreq j → parse_completion_window window = Ret w →
  ∃ m, create_job nreq now j endpoint window s =
         (Ret tt, mkJobManager (<[j := m]> (pending_jobs s)) (in_progress_jobs s) (done_jobs s)) ∧
    pending_ok j m ∧ completion_window m = w ∧
    request_progress_bits m = replicate (Z.to_nat (nreq j)) false.
Proof.
  intros Hn Hw. unfold create_job, validate_job. py_unfold. simpl.
  destruct (Z.eqb_spec (nreq j) 0); [lia|]. simpl. rewrite Hw. simpl. eexists. split; [done|].
  split_and!; try done; simpl. split_and!; try done; simpl. unfold wf_meta, py_len. simpl.
  rewrite length_replicate, count_true_replicate. lia.
Qed.

Lemma create_job_invalid nreq now j endpoint window e s :
  0 ≤ nreq j → parse_completion_window window = Raise e → e = ValueError ∨ e = AssertionError →
  create_job nreq now j endpoint window s = (Ret tt, s).
Proof.
  intros Hn Hw He. unfold create_job, validate_job. py_unfold. simpl.
  destruct (nreq j =? 0); [done|]. simpl. rewrite Hw. by destruct He as [->| ->].
Qed.

(** ** Lemmas: a job that never runs keeps its slot *)

Lemma loop_jammed {J : Json} j n (d : BatchDriver J) :
  one_slot j (sched (drv_sched d)) → get_job_status j (jobs (drv_sched d)) ≠ Some COMPLETED →
  in_progress_jobs (jobs (drv_sched d)) !! j = None → jobs_running_loop n d = (Ret tt, d).
Proof.
  intros Hslot Hst Hnot. induction n as [|n IH]; [done|]. cbn [jobs_running_loop]. unfold bind at 1.
  assert (jobs_running_turn d = (Ret tt, d)) as ->; [|done].
  unfold jobs_running_turn, on_sched. py_unfold. rewrite (round_robin_one_slot j) by done.
  unfold execute_queries. py_unfold. unfold get_job_next_request. simpl. rewrite Hnot. simpl.
  by destruct d.
Qed.

(** A free slot is given to the first job of the queue, whether it is known to
    the job manager or not. *)
Lemma turn_takes_first {J : Json} j q (d : BatchDriver J) :
  jobs_queue (sched (drv_sched d)) = j :: q →
  pending_jobs (jobs (drv_sched d)) !! j = None → in_progress_jobs (jobs (drv_sched d)) !! j = None →
  current_pool_size (sched (drv_sched d)) = 1 → CC_controller (sched (drv_sched d)) = mkCC [None] 1 0 →
  inactive_jobs (sched (drv_sched d)) = ∅ →
  ∃ d', jobs_running_turn d = (Ret tt, d') ∧ jobs (drv_sched d') = jobs (drv_sched d) ∧
    one_slot j (sched (drv_sched d')).
Proof.
  destruct d as [b [[queue ia due cur cc] jm]]. simpl. intros -> Hp Hi -> -> ->.
  unfold jobs_running_turn, on_sched. py_unfold. unfold round_robin_get_job.
  destruct q; simpl; unfold schedule_next_job; simpl; rewrite ?decide_False by set_solver; simpl.
  all: unfold start_execute_job; rewrite Hp; simpl.
  all: unfold execute_queries; py_unfold; unfold get_job_next_request; simpl; rewrite Hi; simpl.
  all: eexists; split; [done|]; done.
Qed.

(** ** Properties *)

(** C2: end to end. On a fresh driver, a batch of [length rs] requests that is
    uploaded and created with a valid window is complete after exactly
    [length rs] turns of the job loop, and the results read back are the
    requests' results in order. *)
Theorem batch_job_completes (J : Json) (JL : JsonLaws J) (d : disk) (j : job_id) (text : string)
    (rs : list json) (now w : Z) (endpoint window : string) :
  load_nonblank (readlines text) = Ret rs → rs ≠ [] → d !! j = None →
  parse_completion_window window = Ret w →
  let '(o1, d1) := upload_batch_data j (Some text) (new_BatchDriver d) in
  let '(o2, d2) := driver_create_job now j endpoint window d1 in
  let '(o3, d3) := jobs_running_loop (length rs) d2 in
  o1 = Ret j ∧ o2 = Ret tt ∧ o3 = Ret tt ∧
  driver_get_job_status j d3 = Some COMPLETED ∧ retrieve_job_result j d3 = Ret rs.
Proof.
  intros Hload Hne Hfresh Hw.
  destruct (upload_ok j text rs (new_BatchStorage d) Hload Hfresh) as (b & Hup & Hcache & Hdir & _);
    [done|].
  unfold upload_batch_data, on_batch_storage. py_unfold. simpl. rewrite Hup.
  assert (Hlen : get_job_request_len j b = py_len rs) by apply local_number_stored, Hcache.
  assert (Hpos : 0 < py_len rs) by (destruct rs; [done|unfold py_len; simpl; lia]).
  destruct (create_job_valid (λ j, get_job_request_len j b) now j endpoint window w new_JobManager)
    as (m & Hcreate & Hm & Hwin & Hbits); [by rewrite Hlen|done|].
  unfold driver_create_job, on_jobs, on_sched. py_unfold. simpl. rewrite Hcreate. simpl.
  rewrite Hlen in Hbits. unfold py_len in Hbits. rewrite Nat2Z.id in Hbits.
  set (d2 := mkDriver b _).
  destruct (turn_starts j rs m (due_jobs_list (sched (drv_sched d2))) d2) as (d3 & Hrun & Hturn);
    [done..| |done|done|by rewrite Hbits; unfold bits_done; simpl; rewrite Nat.sub_0_r|].
  { eexists. split; [apply Hdir|done]. }
  assert (jobs_running_loop (length rs) d2 = jobs_running_loop (length rs) d3) as ->.
  { destruct rs as [|r rs']; [done|]. cbn [length jobs_running_loop]. unfold bind.
    by rewrite Hturn, (turn_running j (r :: rs') 0). }
  destruct (length rs) as [|i] eqn:Hi; [by destruct rs|].
  destruct (loop_running j rs i 0 d3 Hrun) as (d4 & -> & Hfin & Hret); [lia|]. done.
Qed.

Lemma batch_job_completes_witness :
  let text := unlines (@json_dumps demo_json <$> demo_requests 3) in
  let '(o1, d1) := upload_batch_data 7%N (Some text) (new_BatchDriver ∅) in
  let '(o2, d2) := driver_create_job 1000 7%N EmptyString "30h" d1 in
  let '(o3, d3) := jobs_running_loop 3 d2 in
  o1 = Ret 7%N ∧ o2 = Ret tt ∧ o3 = Ret tt ∧
  driver_get_job_status 7%N d3 = Some COMPLETED ∧ retrieve_job_result 7%N d3 = Ret (demo_requests 3).
Proof.
  apply (batch_job_completes demo_json demo_json_laws ∅ 7%N
    (unlines (@json_dumps demo_json <$> demo_requests 3)) (demo_requests 3) 1000 1800); 
    reflexivity || discriminate.
Defined.

(** A job that fails validation jams the service. [create_job] of the
    driver queues a job whatever the validation said; once the rejected job
    holds the pool's only slot nothing ever completes or replaces it, so a
    valid job created after it stays pending for any number of turns. *)
Theorem rejected_job_blocks_service (J : Json) (d : disk) (b : BatchStorage J disk) (j1 j2 : job_id)
    (now1 now2 w2 : Z) (e : exn) (endpoint window1 window2 : string) (n : nat) :
  j1 ≠ j2 → parse_completion_window window1 = Raise e → e = ValueError ∨ e = AssertionError →
  0 ≤ get_job_request_len j1 b → 0 < get_job_request_len j2 b →
  parse_completion_window window2 = Ret w2 →
  let d0 := mkDriver b (drv_sched (new_BatchDriver (J:=J) d)) in
  let d1 := (driver_create_job now1 j1 endpoint window1 d0).2 in
  let d2 := (driver_create_job now2 j2 endpoint window2 d1).2 in
  driver_get_job_status j2 d2 = Some PENDING ∧
  (jobs_running_loop n d2).1 = Ret tt ∧
  driver_get_job_status j2 (jobs_running_loop n d2).2 = Some PENDING.
Proof.
  intros Hne Hw1 He Hn1 Hn2 Hw2 d0 d1 d2.
  assert (d1 = mkDriver b (mkSched (append_job now1 j1 (-1)
    (new_JobScheduler DEFAULT_JOB_POOL_SIZE (new_CC DEFAULT_JOB_POOL_SIZE))) new_JobManager)) as E1.
  { unfold d1, driver_create_job, on_jobs, on_sched. py_unfold. simpl.
    by rewrite (create_job_invalid _ _ _ _ _ e). }
  destruct (create_job_valid (λ j, get_job_request_len j b) now2 j2 endpoint window2 w2 new_JobManager)
    as (m & Hcreate & Hm & Hwin & Hbits); [done..|].
  assert (d2 = mkDriver b (mkSched (append_job now2 j2 w2 (sched (drv_sched d1)))
    (mkJobManager {[j2 := m]} ∅ ∅))) as E2.
  { unfold d2, driver_create_job, on_jobs, on_sched. py_unfold. rewrite E1. simpl. rewrite Hcreate.
    simpl. unfold get_job_window_due. simpl. rewrite insert_empty, lookup_singleton_eq. simpl. by rewrite Hwin. }
  destruct Hm as (_ & _ & Hst & _).
  assert (Hstatus : driver_get_job_status j2 d2 = Some PENDING).
  { rewrite E2. unfold driver_get_job_status, get_job_status. simpl. by rewrite lookup_singleton_eq, Hst. }
  split; [done|].
  destruct n as [|n]; [done|].
  destruct (turn_takes_first j1 [j2] d2) as (d3 & Hturn & Hjobs & Hslot);
    [by rewrite E2, E1|by rewrite E2; simpl; rewrite lookup_singleton_ne|by rewrite E2|by rewrite E2, E1..|].
  cbn [jobs_running_loop]. unfold bind. rewrite Hturn.
  rewrite (loop_jammed j1 n d3 Hslot).
  - split; [done|]. rewrite <-Hstatus. unfold driver_get_job_status. simpl. by rewrite Hjobs.
  - unfold get_job_status. rewrite Hjobs, E2. simpl. by rewrite lookup_singleton_ne, !lookup_empty by done.
  - by rewrite Hjobs, E2.
Qed.

Lemma rejected_job_blocks_service_witness :
  let b := demo_storage 3 in
  let d0 := mkDriver b (drv_sched (new_BatchDriver (J:=demo_json) ∅)) in
  let d1 := (driver_create_job 0 5%N EmptyString "3d" d0).2 in
  let d2 := (driver_create_job 0 7%N EmptyString "30h" d1).2 in
  driver_get_job_status 7%N d2 = Some PENDING ∧
  (jobs_running_loop 1000 d2).1 = Ret tt ∧
  driver_get_job_status 7%N (jobs_running_loop 1000 d2).2 = Some PENDING.
Proof.
  apply (rejected_job_blocks_service demo_json ∅ (demo_storage 3) 5%N 7%N 0 0 1800 AssertionError);
    first [discriminate|reflexivity|by right].
Defined.

(** The driver hands the window of a job to the scheduler as seconds,
    although the job manager keeps it in minutes: a job created with a window
    of [w] minutes is marked inactive by the first sweep at [w] seconds after
    its creation, and by none before. *)
Theorem window_minutes_expire_as_seconds (J : Json) (d : disk) (b : BatchStorage J disk) (j : job_id)
    (now w t : Z) (endpoint window : string) :
  0 < get_job_request_len j b → parse_completion_window window = Ret w →
  let d1 := (driver_create_job now j endpoint window
               (mkDriver b (drv_sched (new_BatchDriver (J:=J) d)))).2 in
  get_job_window_due j (jobs (drv_sched d1)) = w ∧
  (j ∈ inactive_jobs (expire_jobs t (sched (drv_sched d1))) ↔ now + w * NS_PER_SECOND ≤ t).
Proof.
  intros Hn Hw d1.
  destruct (create_job_valid (λ j, get_job_request_len j b) now j endpoint window w new_JobManager)
    as (m & Hcreate & _ & Hwin & _); [done..|].
  assert (Hd1 : d1 = mkDriver b (mkSched (append_job now j w
     (new_JobScheduler DEFAULT_JOB_POOL_SIZE (new_CC DEFAULT_JOB_POOL_SIZE)))
     (mkJobManager {[j := m]} ∅ ∅))).
  { unfold d1, driver_create_job, on_jobs, on_sched. py_unfold. simpl. rewrite Hcreate. simpl.
    unfold get_job_window_due. simpl. rewrite insert_empty, lookup_singleton_eq. simpl. by rewrite Hwin. }
  rewrite Hd1. split.
  - unfold get_job_window_due. simpl. by rewrite lookup_singleton_eq.
  - unfold expire_jobs. simpl. destruct (Z.leb_spec (now + w * NS_PER_SECOND) t); simpl; set_solver by lia.
Qed.

Lemma window_minutes_expire_as_seconds_witness :
  let d1 := (driver_create_job 0 7%N EmptyString "30h"
               (mkDriver (demo_storage 3) (drv_sched (new_BatchDriver (J:=demo_json) ∅)))).2 in
  get_job_window_due 7%N (jobs (drv_sched d1)) = 1800 ∧
  (7%N ∈ inactive_jobs (expire_jobs (1800 * 1000000000) (sched (drv_sched d1))) ↔
   0 + 1800 * NS_PER_SECOND ≤ 1800 * 1000000000).
Proof.
  apply (window_minutes_expire_as_seconds demo_json ∅ (demo_storage 3) 7%N 0 1800
    (1800 * 1000000000) EmptyString "30h"); reflexivity.
Defined.
