(* ===== verification/RWLock.v ===== *)
(** * The read-write lock of the routing agent

    Models [python/routing_agent_service/agent_codes/rwlock.py]: [RWLock], a lock
    with writer priority built from one mutex and two condition variables, and
    [RWLockCompat]. Every critical section of the source runs under the mutex up
    to its end or to a [wait], so it is one atomic step here; a [wait] appends the
    thread to the condition's queue, [notify] releases the oldest waiter, and a
    notified thread tests its loop condition again when it gets the mutex. Which
    thread moves next is free: the theorems hold for every interleaving. *)

From S2P Require Import Prelude.

Open Scope Z_scope.

Abbreviation thread := nat.

(** Where a thread is with respect to the lock. *)
Inductive pc := Idle | RWait | RNotified | Reading | WWait | WNotified | Writing.

#[export] Instance pc_eq_dec : EqDecision pc.
Proof. solve_decision. Defined.

(** The fields of [RWLock]; the queues are the waiters of the two conditions. *)
Record RWLock := mkRWLock {
  readers : Z;
  writers : Z;
  waiting_writers : Z;
  read_ready : list thread;
  write_ready : list thread
}.

Definition new_RWLock : RWLock := mkRWLock 0 0 0 [] [].

(** The lock and the threads that use it. A thread without entry is idle. *)
Record system := mkSystem { lock : RWLock; pcs : gmap thread pc }.

Definition pc_of (t : thread) (s : system) : pc := default Idle (pcs s !! t).

Definition new_system : system := mkSystem new_RWLock ∅.

(** The loop of [read_acquire], from the test on. *)
Definition read_test (t : thread) (s : system) : system :=
  let l := lock s in
  if (0 <? writers l) || (0 <? waiting_writers l)
  then mkSystem (mkRWLock (readers l) (writers l) (waiting_writers l) (read_ready l ++ [t]) (write_ready l))
                (<[t := RWait]> (pcs s))
  else mkSystem (mkRWLock (readers l + 1) (writers l) (waiting_writers l) (read_ready l) (write_ready l))
                (<[t := Reading]> (pcs s)).

Definition read_acquire (t : thread) (s : system) : system := read_test t s.

(** [self._write_ready.notify()] *)
Definition notify_writer (s : system) : system :=
  let l := lock s in
  match write_ready l with
  | [] => s
  | t :: q => mkSystem (mkRWLock (readers l) (writers l) (waiting_writers l) (read_ready l) q)
                       (<[t := WNotified]> (pcs s))
  end.

(** [self._read_ready.notify_all()] *)
Definition notify_readers (s : system) : system :=
  let l := lock s in
  mkSystem (mkRWLock (readers l) (writers l) (waiting_writers l) [] (write_ready l))
           (foldr (λ t, <[t := RNotified]>) (pcs s) (read_ready l)).

Definition read_release (t : thread) (s : system) : system :=
  let l := lock s in
  let s' := mkSystem (mkRWLock (readers l - 1) (writers l) (waiting_writers l) (read_ready l) (write_ready l))
                     (<[t := Idle]> (pcs s)) in
  if readers (lock s') =? 0 then notify_writer s' else s'.

(** The loop of [write_acquire], from the test on. *)
Definition write_test (t : thread) (s : system) : system :=
  let l := lock s in
  if (0 <? readers l) || (0 <? writers l)
  then mkSystem (mkRWLock (readers l) (writers l) (waiting_writers l) (read_ready l) (write_ready l ++ [t]))
                (<[t := WWait]> (pcs s))
  else mkSystem (mkRWLock (readers l) 1 (waiting_writers l - 1) (read_ready l) (write_ready l))
                (<[t := Writing]> (pcs s)).

Definition write_acquire (t : thread) (s : system) : system :=
  let l := lock s in
  write_test t (mkSystem (mkRWLock (readers l) (writers l) (waiting_writers l + 1)
                                   (read_ready l) (write_ready l)) (pcs s)).

Definition write_release (t : thread) (s : system) : system :=
  let l := lock s in
  notify_readers (notify_writer
    (mkSystem (mkRWLock (readers l) 0 (waiting_writers l) (read_ready l) (write_ready l))
              (<[t := Idle]> (pcs s)))).

(** [get_stats]: active readers, active writers, waiting writers. *)
Definition get_stats (s : system) : Z * Z * Z :=
  (readers (lock s), writers (lock s), waiting_writers (lock s)).

(** [RWLockCompat.acquire] and [release] default to the write lock. *)
Definition compat_acquire (t : thread) (s : system) : system := write_acquire t s.
Definition compat_release (t : thread) (s : system) : system := write_release t s.

(** What a thread may do. The context managers [read] and [write] release
    exactly what they acquired, so a thread releases only what it holds. *)
Inductive rw_action := ReadAcquire | ReadRelease | WriteAcquire | WriteRelease | Wake.

Definition rw_exec (a : rw_action) (t : thread) (s : system) : option system :=
  match a, pc_of t s with
  | ReadAcquire, Idle => Some (read_acquire t s)
  | WriteAcquire, Idle => Some (write_acquire t s)
  | Wake, RNotified => Some (read_test t s)
  | Wake, WNotified => Some (write_test t s)
  | ReadRelease, Reading => Some (read_release t s)
  | WriteRelease, Writing => Some (write_release t s)
  | _, _ => None
  end.

Definition is_acquire (a : rw_action) : bool :=
  match a with ReadAcquire | WriteAcquire => true | _ => false end.

Inductive rw_step : system → system → Prop :=
| rw_step_exec a t s s' : rw_exec a t s = Some s' → rw_step s s'.

(** Steps other than new requests for the lock. *)
Inductive drain_step : system → system → Prop :=
| drain_step_exec a t s s' : is_acquire a = false → rw_exec a t s = Some s' → drain_step s s'.

(** ** Specification *)

(** The number of threads whose position satisfies [f]. *)
Definition count_pc (f : pc → bool) (m : gmap thread pc) : Z :=
  Z.of_nat (size (filter (λ kv, f kv.2 = true) m)).

Definition is_pc (p q : pc) : bool := bool_decide (p = q).

Definition wants_write (p : pc) : bool := is_pc WWait p || is_pc WNotified p.

Definition busy (p : pc) : bool := negb (is_pc Idle p).

Definition notified (p : pc) : bool := is_pc RNotified p || is_pc WNotified p.

(** The counters are what their names say, the queues are the waiting threads,
    and a writer is alone. *)
Record lock_ok (s : system) : Prop := mkOk {
  ok_readers : readers (lock s) = count_pc (is_pc Reading) (pcs s);
  ok_writers : writers (lock s) = count_pc (is_pc Writing) (pcs s);
  ok_waiting : waiting_writers (lock s) = count_pc wants_write (pcs s);
  ok_rq_nodup : NoDup (read_ready (lock s));
  ok_wq_nodup : NoDup (write_ready (lock s));
  ok_rq t : t ∈ read_ready (lock s) ↔ pc_of t s = RWait;
  ok_wq t : t ∈ write_ready (lock s) ↔ pc_of t s = WWait;
  ok_exclusive : writers (lock s) ≤ 1 ∧ (writers (lock s) = 1 → readers (lock s) = 0)
}.

(** No writer's wake-up is lost: when the lock is free and a writer waits, a
    writer has been notified. *)
Definition writer_woken (s : system) : Prop :=
  readers (lock s) = 0 → writers (lock s) = 0 → write_ready (lock s) ≠ [] →
  0 < count_pc (is_pc WNotified) (pcs s).

(** No reader's wake-up is lost: a reader waits only behind a writer. *)
Definition reader_blocked (s : system) : Prop :=
  read_ready (lock s) ≠ [] → 0 < writers (lock s) ∨ 0 < waiting_writers (lock s).

Definition rw_inv (s : system) : Prop := lock_ok s ∧ writer_woken s ∧ reader_blocked s.

(** ** Lemmas: counting positions *)

Definition b2z (b : bool) : Z := if b then 1 else 0.

Lemma count_pc_insert f t p (m : gmap thread pc) :
  f Idle = false →
  count_pc f (<[t := p]> m) = count_pc f m - b2z (f (default Idle (m !! t))) + b2z (f p).
Proof.
  intros Hidle. unfold count_pc.
  assert (E : ∀ q, count_pc f (<[t := q]> (delete t m)) = count_pc f (delete t m) + b2z (f q)).
  { intros q. unfold count_pc. destruct (f q) eqn:Hq; simpl.
    - rewrite map_filter_insert_True by done. rewrite map_size_insert_None; [lia|].
      apply map_lookup_filter_None. left. apply lookup_delete_eq.
    - rewrite map_filter_insert_False by (simpl; congruence). rewrite delete_delete_eq. lia. }
  unfold count_pc in E. rewrite <-insert_delete_eq, E.
  destruct (m !! t) as [q|] eqn:Hq; simpl.
  - rewrite <-(insert_delete_id m t q) at 2 by done. rewrite E. lia.
  - rewrite delete_id, Hidle by done. simpl. lia.
Qed.

Lemma count_pc_nonneg f m : 0 ≤ count_pc f m.
Proof. unfold count_pc. lia. Qed.

Lemma count_pc_pos f m t : f Idle = false → f (default Idle (m !! t)) = true → 0 < count_pc f m.
Proof.
  intros Hidle Ht. unfold count_pc.
  destruct (m !! t) as [q|] eqn:Hq; simpl in Ht; [|congruence].
  assert (filter (λ kv, f kv.2 = true) m !! t = Some q) as Hf by by apply map_lookup_filter_Some.
  destruct (size _) eqn:Hs; [|lia]. apply map_size_empty_inv in Hs. by rewrite Hs in Hf.
Qed.

Lemma count_pc_ex f m : 0 < count_pc f m → ∃ t, f (default Idle (m !! t)) = true.
Proof.
  unfold count_pc. intros Hpos.
  destruct (map_choose (filter (λ kv, f kv.2 = true) m)) as (t & q & Hq).
  { intros E. rewrite E, map_size_empty in Hpos. lia. }
  apply map_lookup_filter_Some in Hq as [Hq Hf]. exists t. by rewrite Hq.
Qed.

Lemma pc_of_insert t p l (m : gmap thread pc) t' :
  pc_of t' (mkSystem l (<[t := p]> m)) = if decide (t = t') then p else default Idle (m !! t').
Proof.
  unfold pc_of. simpl. case_decide; subst; [by rewrite lookup_insert_eq|by rewrite lookup_insert_ne].
Qed.

(** Rewrites the counts after one thread has moved. *)
Ltac rw_counts :=
  unfold pc_of in *; rewrite ?count_pc_insert by done;
  repeat match goal with H : default Idle _ = _ |- _ => rewrite ?H; clear H end; simpl; try lia.

(** ** Lemmas: each critical section keeps the invariant *)

Lemma queue_push (q : list thread) (t t' : thread) (p r : pc) :
  (t' ∈ q ↔ p = r) → (t' ∈ q ++ [t] ↔ (if decide (t = t') then r else p) = r).
Proof. intros Hq. rewrite elem_of_app, list_elem_of_singleton. case_decide; naive_solver. Qed.

Lemma queue_keep (q : list thread) (t t' : thread) (p r x : pc) :
  (t' ∈ q ↔ p = r) → (t = t' → p ≠ r) → x ≠ r →
  (t' ∈ q ↔ (if decide (t = t') then x else p) = r).
Proof. intros Hq Ht Hx. case_decide; naive_solver. Qed.

Lemma read_test_inv t s :
  rw_inv s → pc_of t s = Idle ∨ pc_of t s = RNotified → rw_inv (read_test t s).
Proof.
  intros ([Hr Hw Hwt Hrq Hwq Hrt Hwt' Hx] & Hwake & Hblock) Ht. unfold read_test.
  destruct (_ || _) eqn:Htest; (split; [split|split]); simpl.
  all: try (destruct Ht; rw_counts; fail).
  all: try (intros t'; rewrite pc_of_insert; first [apply queue_push|apply queue_keep]; try done;
    intros <-; destruct Ht as [E|E]; unfold pc_of in E; rewrite E; done).
  all: try done.
  - apply NoDup_app. split_and!; [done| |apply NoDup_singleton].
    intros x Hx1 ->%list_elem_of_singleton. apply Hrt in Hx1. destruct Ht; congruence.
  - intros H1 H2 H3. specialize (Hwake H1 H2 H3). simpl. destruct Ht; rw_counts.
  - intros _. simpl. lia.
  - intros H1 H2 H3. simpl in *. pose proof (count_pc_nonneg (is_pc Reading) (pcs s)). lia.
Qed.

Lemma write_test_inv t s :
  rw_inv s → pc_of t s = WNotified → rw_inv (write_test t s).
Proof.
  intros ([Hr Hw Hwt Hrq Hwq Hrt Hwt' Hx] & Hwake & Hblock) Ht. unfold write_test.
  assert (0 < count_pc wants_write (pcs s)).
  { apply count_pc_pos with t; [done|]. unfold pc_of in Ht. by rewrite Ht. }
  pose proof (count_pc_nonneg (is_pc Reading) (pcs s)).
  pose proof (count_pc_nonneg (is_pc Writing) (pcs s)).
  destruct (_ || _) eqn:Htest; (split; [split|split]); simpl.
  all: try (rw_counts; fail).
  all: try (intros t'; rewrite pc_of_insert; first [apply queue_push|apply queue_keep]; try done;
    intros <-; unfold pc_of in Ht; rewrite Ht; done).
  all: try done.
  - apply NoDup_app. split_and!; [done| |apply NoDup_singleton].
    intros x Hx1 ->%list_elem_of_singleton. apply Hwt' in Hx1. congruence.
  - intros ???. simpl in *. lia.
  - intros ?. simpl in *. lia.
Qed.

(** [write_acquire] is a notified writer's test after the thread has announced
    itself. *)
Lemma write_acquire_inv t s : rw_inv s → pc_of t s = Idle → rw_inv (write_acquire t s).
Proof.
  intros ([Hr Hw Hwt Hrq Hwq Hrt Hwt' Hx] & Hwake & Hblock) Ht.
  set (l := mkRWLock (readers (lock s)) (writers (lock s)) (waiting_writers (lock s) + 1)
              (read_ready (lock s)) (write_ready (lock s))).
  assert (write_acquire t s = write_test t (mkSystem l (<[t := WNotified]> (pcs s)))) as ->.
  { unfold write_acquire, write_test. simpl. by rewrite !insert_insert_eq. }
  apply write_test_inv; [|by rewrite pc_of_insert, decide_True].
  split; [split|split]; simpl; try (rw_counts; fail); try done.
  1,2: intros t'; rewrite pc_of_insert; apply queue_keep; try done;
    intros <-; unfold pc_of in Ht; rewrite Ht; done.
  - intros H1 H2 H3. specialize (Hwake H1 H2 H3). simpl. rw_counts.
  - intros H1. destruct (Hblock H1); simpl; lia.
Qed.

Lemma notify_writer_ok s : lock_ok s → lock_ok (notify_writer s).
Proof.
  intros [Hr Hw Hwt Hrq Hwq Hrt Hwt' Hx]. unfold notify_writer.
  destruct (write_ready (lock s)) as [|t q] eqn:Hq; [by split; rewrite ?Hq|].
  assert (pc_of t s = WWait) as Ht by (apply Hwt'; left).
  apply NoDup_cons in Hwq as [Hnot Hwq].
  split; simpl; try (rw_counts; fail); try done.
  - intros t'. rewrite pc_of_insert. apply queue_keep; [apply Hrt| |done].
    intros <-. unfold pc_of in Ht. by rewrite Ht.
  - intros t'. rewrite pc_of_insert. specialize (Hwt' t'). rewrite elem_of_cons in Hwt'.
    unfold pc_of in *. case_decide; [naive_solver|]. rewrite <-Hwt'. naive_solver.
Qed.

Lemma notify_writer_woken s : lock_ok s → writer_woken (notify_writer s).
Proof.
  intros [_ _ _ _ _ _ Hwt' _]. unfold notify_writer, writer_woken.
  destruct (write_ready (lock s)) as [|t q] eqn:Hq; [by rewrite Hq|].
  intros _ _ _. simpl. apply count_pc_pos with t; [done|]. by rewrite lookup_insert_eq.
Qed.

Lemma notify_all_lookup q (m : gmap thread pc) t :
  foldr (λ t, <[t := RNotified]>) m q !! t = if decide (t ∈ q) then Some RNotified else m !! t.
Proof.
  induction q as [|x q IH]; simpl; [done|].
  destruct (decide (x = t)) as [->|Hne].
  - by rewrite lookup_insert_eq, decide_True by left.
  - rewrite lookup_insert_ne, IH by done. do 2 case_decide; set_solver.
Qed.

Lemma notify_all_count f q (m : gmap thread pc) :
  f Idle = false → f RNotified = false → (∀ t, t ∈ q → f (default Idle (m !! t)) = false) →
  count_pc f (foldr (λ t, <[t := RNotified]>) m q) = count_pc f m.
Proof.
  intros Hi Hn. induction q as [|x q IH]; simpl; intros Hq; [done|].
  rewrite count_pc_insert, Hn, notify_all_lookup by done.
  rewrite IH by (intros; apply Hq; by right).
  case_decide; simpl; rewrite ?Hn, ?Hq by left; simpl; lia.
Qed.

Lemma notify_readers_ok s :
  lock_ok s → lock_ok (notify_readers s) ∧ (writer_woken s → writer_woken (notify_readers s)).
Proof.
  intros [Hr Hw Hwt Hrq Hwq Hrt Hwt' Hx].
  assert (Hc : ∀ f, f Idle = false → f RNotified = false → f RWait = false →
    count_pc f (pcs (notify_readers s)) = count_pc f (pcs s)).
  { intros f H1 H2 H3. apply notify_all_count; try done. intros t Ht. apply Hrt in Ht.
    unfold pc_of in Ht. by rewrite Ht. }
  assert (Hpc : ∀ t, pc_of t (notify_readers s) =
    if decide (t ∈ read_ready (lock s)) then RNotified else pc_of t s).
  { intros t. unfold pc_of. simpl. rewrite notify_all_lookup. by case_decide. }
  split; [split|]; rewrite ?Hc by done; try done; simpl.
  - apply NoDup_nil_2.
  - intros t. rewrite Hpc. case_decide; [set_solver|]. rewrite <-Hrt. set_solver.
  - intros t. rewrite Hpc. case_decide as E; [|apply Hwt']. rewrite Hwt'.
    apply Hrt in E. rewrite E. done.
  - unfold writer_woken. by rewrite Hc.
Qed.

(** The state of a release before it notifies. *)
Lemma drop_reader_ok t s :
  lock_ok s → pc_of t s = Reading →
  lock_ok (mkSystem (mkRWLock (readers (lock s) - 1) (writers (lock s)) (waiting_writers (lock s))
                       (read_ready (lock s)) (write_ready (lock s))) (<[t := Idle]> (pcs s))).
Proof.
  intros [Hr Hw Hwt Hrq Hwq Hrt Hwt' Hx] Ht.
  assert (0 < count_pc (is_pc Reading) (pcs s)).
  { apply count_pc_pos with t; [done|]. unfold pc_of in Ht. by rewrite Ht. }
  split; simpl; try (rw_counts; fail); try done.
  all: intros t'; rewrite pc_of_insert; apply queue_keep; try done;
    intros <-; unfold pc_of in Ht; rewrite Ht; done.
Qed.

Lemma drop_writer_ok t s :
  lock_ok s → pc_of t s = Writing →
  lock_ok (mkSystem (mkRWLock (readers (lock s)) 0 (waiting_writers (lock s))
                       (read_ready (lock s)) (write_ready (lock s))) (<[t := Idle]> (pcs s))).
Proof.
  intros [Hr Hw Hwt Hrq Hwq Hrt Hwt' Hx] Ht.
  assert (0 < count_pc (is_pc Writing) (pcs s)).
  { apply count_pc_pos with t; [done|]. unfold pc_of in Ht. by rewrite Ht. }
  split; simpl; try (rw_counts; fail); try done.
  all: intros t'; rewrite pc_of_insert; apply queue_keep; try done;
    intros <-; unfold pc_of in Ht; rewrite Ht; done.
Qed.

Lemma read_release_inv t s : rw_inv s → pc_of t s = Reading → rw_inv (read_release t s).
Proof.
  intros (Hok & Hwake & Hblock) Ht. pose proof (drop_reader_ok t s Hok Ht) as Hok'.
  unfold read_release. simpl. destruct (Z.eqb_spec (readers (lock s) - 1) 0).
  - split_and!; [by apply notify_writer_ok|by apply notify_writer_woken|].
    unfold reader_blocked, notify_writer. simpl. by destruct (write_ready (lock s)).
  - split_and!; [done| |done]. intros H1. simpl in H1. lia.
Qed.

Lemma write_release_inv t s : rw_inv s → pc_of t s = Writing → rw_inv (write_release t s).
Proof.
  intros (Hok & _) Ht. pose proof (notify_writer_ok _ (drop_writer_ok t s Hok Ht)) as Hok'.
  destruct (notify_readers_ok _ Hok') as [? Hw'].
  split_and!; [done|by apply Hw', notify_writer_woken, drop_writer_ok|]. intros []. done.
Qed.

Lemma rw_step_inv s s' : rw_inv s → rw_step s s' → rw_inv s'.
Proof.
  intros Hinv Hstep. destruct Hstep as [a t s s' Hex]. unfold rw_exec in Hex.
  destruct a, (pc_of t s) eqn:Ht; simplify_eq;
    auto using read_test_inv, write_test_inv, write_acquire_inv, read_release_inv, write_release_inv.
Qed.

Lemma new_system_inv : rw_inv new_system.
Proof.
  split_and!; [split| |]; simpl; try done; try apply NoDup_nil_2.
  1,2: intros t; split; [by intros ?%not_elem_of_nil|done].
  all: intros []; done.
Qed.

Lemma reachable_inv s : rtc rw_step new_system s → rw_inv s.
Proof.
  apply (rtc_ind_r (λ s, rw_inv s)); [apply new_system_inv|].
  intros ?? _ ? ?. by eapply rw_step_inv.
Qed.

(** ** Lemmas: draining *)

Lemma count_busy_notify_writer s :
  lock_ok s → count_pc busy (pcs (notify_writer s)) = count_pc busy (pcs s).
Proof.
  intros Hok. unfold notify_writer. destruct (write_ready (lock s)) as [|t q] eqn:Hq; [done|].
  assert (pc_of t s = WWait) as Ht by (apply Hok; rewrite Hq; left). simpl. rw_counts.
Qed.

Lemma count_busy_notify_all q (m : gmap thread pc) :
  (∀ t, t ∈ q → default Idle (m !! t) = RWait) →
  count_pc busy (foldr (λ t, <[t := RNotified]>) m q) = count_pc busy m.
Proof.
  induction q as [|x q IH]; simpl; intros Hq; [done|].
  rewrite count_pc_insert, notify_all_lookup, IH by (done || set_solver).
  case_decide; simpl; [lia|]. rewrite Hq by left. simpl. lia.
Qed.

(** A release makes a thread idle; a wake-up uses up a notification. *)
Definition drain_measure (s : system) : Z * Z :=
  (count_pc busy (pcs s), count_pc notified (pcs s)).

Definition smaller (s' s : system) : Prop :=
  let '(b', n') := drain_measure s' in
  let '(b, n) := drain_measure s in
  b' < b ∨ b' = b ∧ n' < n.

Lemma smaller_wf : well_founded smaller.
Proof.
  assert (H : ∀ b n : nat, ∀ s, count_pc busy (pcs s) = Z.of_nat b →
    count_pc notified (pcs s) = Z.of_nat n → Acc smaller s).
  { intros b. induction (lt_wf b) as [b _ IHb]. intros n.
    induction (lt_wf n) as [n _ IHn]. intros s Hb Hn. constructor. intros s' [Hlt|[Heq Hlt]].
    - pose proof (count_pc_nonneg busy (pcs s')). pose proof (count_pc_nonneg notified (pcs s')).
      apply (IHb (Z.to_nat (count_pc busy (pcs s'))) ltac:(lia)
                 (Z.to_nat (count_pc notified (pcs s')))); lia.
    - pose proof (count_pc_nonneg notified (pcs s')).
      apply (IHn (Z.to_nat (count_pc notified (pcs s'))) ltac:(lia)); lia. }
  intros s. pose proof (count_pc_nonneg busy (pcs s)). pose proof (count_pc_nonneg notified (pcs s)).
  apply (H (Z.to_nat (count_pc busy (pcs s))) (Z.to_nat (count_pc notified (pcs s)))); lia.
Qed.

Lemma drain_step_smaller s s' : rw_inv s → drain_step s s' → smaller s' s.
Proof.
  intros [Hok _] Hstep. destruct Hstep as [a t s s' Ha Hex]. unfold rw_exec in Hex.
  unfold smaller, drain_measure.
  destruct a, (pc_of t s) eqn:Ht; simplify_eq.
  - left. unfold read_release. simpl. destruct (_ =? 0).
    + rewrite count_busy_notify_writer by by apply drop_reader_ok. simpl. rw_counts.
    + simpl. rw_counts.
  - left. unfold write_release, notify_readers. simpl.
    pose proof (notify_writer_ok _ (drop_writer_ok t s Hok Ht)) as Hok'.
    rewrite count_busy_notify_all by apply Hok'.
    rewrite count_busy_notify_writer by by apply drop_writer_ok. simpl. rw_counts.
  - right. unfold read_test. destruct (_ || _); simpl; rw_counts.
  - right. unfold write_test. destruct (_ || _); simpl; rw_counts.
Qed.

Lemma drain_is_step s s' : drain_step s s' → rw_step s s'.
Proof. intros [a t ? ? _ H]. by econstructor. Qed.

(** ** Lemmas: progress *)

(** When no thread holds the lock and some thread is busy, one that has been
    notified gets the lock by its next step. *)
Lemma free_lock_progress s :
  rw_inv s → (∃ t, pc_of t s ≠ Idle) →
  (∀ t, pc_of t s ≠ Reading ∧ pc_of t s ≠ Writing) →
  ∃ t s', rw_exec Wake t s = Some s' ∧ (pc_of t s' = Reading ∨ pc_of t s' = Writing).
Proof.
  intros ([Hr Hw Hwt Hrq Hwq Hrt Hwt' Hx] & Hwake & Hblock) [t Ht] Hfree.
  assert (readers (lock s) = 0) as Hr0.
  { rewrite Hr. destruct (Z.eq_dec (count_pc (is_pc Reading) (pcs s)) 0) as [|E]; [done|].
    pose proof (count_pc_nonneg (is_pc Reading) (pcs s)).
    destruct (count_pc_ex (is_pc Reading) (pcs s)) as [t' Ht']; [lia|].
    apply bool_decide_eq_true in Ht'. by destruct (Hfree t') as [? _]. }
  assert (writers (lock s) = 0) as Hw0.
  { rewrite Hw. destruct (Z.eq_dec (count_pc (is_pc Writing) (pcs s)) 0) as [|E]; [done|].
    pose proof (count_pc_nonneg (is_pc Writing) (pcs s)).
    destruct (count_pc_ex (is_pc Writing) (pcs s)) as [t' Ht']; [lia|].
    apply bool_decide_eq_true in Ht'. by destruct (Hfree t') as [_ ?]. }
  destruct (decide (waiting_writers (lock s) = 0)) as [Hn|Hn].
  - exists t. unfold rw_exec. destruct (pc_of t s) eqn:E; try done; try by destruct (Hfree t).
    + exfalso. apply Hrt in E. destruct Hblock as [?|?]; try lia. intros E'. rewrite E' in E. set_solver.
    + unfold read_test. rewrite Hw0, Hn. simpl. eexists. split; [done|]. left.
      by rewrite pc_of_insert, decide_True.
    + exfalso. assert (0 < count_pc wants_write (pcs s)); [|lia].
      apply count_pc_pos with t; [done|]. unfold pc_of in E. by rewrite E.
    + exfalso. assert (0 < count_pc wants_write (pcs s)); [|lia].
      apply count_pc_pos with t; [done|]. unfold pc_of in E. by rewrite E.
  - assert (∃ t', pc_of t' s = WNotified) as [t' Ht'].
    { pose proof (count_pc_nonneg wants_write (pcs s)).
      destruct (count_pc_ex wants_write (pcs s)) as [t1 Ht1]; [lia|].
      apply orb_true_iff in Ht1 as [Ht1|Ht1]; apply bool_decide_eq_true in Ht1; [|by eauto].
      assert (t1 ∈ write_ready (lock s)) as Hin by by apply Hwt'.
      destruct (count_pc_ex (is_pc WNotified) (pcs s)) as [t2 Ht2].
      - apply Hwake; try done. intros E. rewrite E in Hin. set_solver.
      - apply bool_decide_eq_true in Ht2. by exists t2. }
    exists t'. unfold rw_exec. rewrite Ht'. eexists. split; [done|]. right.
    unfold write_test. rewrite Hr0, Hw0. simpl. by rewrite pc_of_insert, decide_True.
Qed.

Lemma count_pc_two f m t t' :
  f Idle = false → t ≠ t' → f (default Idle (m !! t)) = true → f (default Idle (m !! t')) = true →
  1 < count_pc f m.
Proof.
  intros Hi Hne Ht Ht'. pose proof (count_pc_insert f t Idle m Hi) as E. rewrite Ht, Hi in E. simpl in E.
  assert (0 < count_pc f (<[t := Idle]> m)); [|lia].
  apply count_pc_pos with t'; [done|]. by rewrite lookup_insert_ne.
Qed.

(** A schedule of steps, for examples. *)
Fixpoint run_schedule (l : list (rw_action * thread)) (s : system) : option system :=
  match l with
  | [] => Some s
  | (a, t) :: l' => rw_exec a t s ≫= run_schedule l'
  end.

Lemma run_schedule_reach l s s' : run_schedule l s = Some s' → rtc rw_step s s'.
Proof.
  revert s. induction l as [|[a t] l IH]; simpl; intros s H; [by simplify_eq|].
  destruct (rw_exec a t s) as [s1|] eqn:E; [|done]. simpl in H.
  eapply rtc_l; [by econstructor|by apply IH].
Qed.

Lemma no_holder s :
  map_Forall (λ _ p, p ≠ Reading ∧ p ≠ Writing) (pcs s) →
  ∀ t, pc_of t s ≠ Reading ∧ pc_of t s ≠ Writing.
Proof. intros H t. unfold pc_of. destruct (pcs s !! t) as [p|] eqn:E; [by apply (H t)|done]. Qed.

(** Notifications let no reader in. *)
Lemma notify_writer_reading t s : pc_of t (notify_writer s) = Reading → pc_of t s = Reading.
Proof.
  unfold notify_writer. destruct (write_ready (lock s)); [done|]. rewrite pc_of_insert. by case_decide.
Qed.

Lemma notify_readers_reading t s : pc_of t (notify_readers s) = Reading → pc_of t s = Reading.
Proof. unfold pc_of. simpl. rewrite notify_all_lookup. by case_decide. Qed.

(** Two readers hold the lock, a writer and then a reader wait. *)
Definition demo_schedule : list (rw_action * thread) :=
  [(ReadAcquire, 1%nat); (ReadAcquire, 2%nat); (WriteAcquire, 3%nat); (ReadAcquire, 4%nat)].

Definition demo_system : system := default new_system (run_schedule demo_schedule new_system).

Lemma demo_reachable : rtc rw_step new_system demo_system.
Proof. apply (run_schedule_reach demo_schedule). reflexivity. Qed.

(** ** Properties *)

(** C5: mutual exclusion, in every interleaving of any number of threads: a
    thread that writes excludes every other reader and writer, and the
    statistics count exactly the readers, writers and waiting writers. *)
Theorem rw_mutual_exclusion (s : system) (t t' : thread) :
  rtc rw_step new_system s →
  get_stats s = (count_pc (is_pc Reading) (pcs s), count_pc (is_pc Writing) (pcs s),
                 count_pc wants_write (pcs s)) ∧
  (pc_of t s = Writing → t' ≠ t → pc_of t' s ≠ Writing ∧ pc_of t' s ≠ Reading).
Proof.
  intros Hreach. destruct (reachable_inv s Hreach) as ([Hr Hw Hwt _ _ _ _ Hx] & _ & _).
  split; [unfold get_stats; congruence|]. unfold pc_of. intros Ht Hne. split; intros Ht'.
  - assert (1 < count_pc (is_pc Writing) (pcs s)); [|lia].
    apply count_pc_two with t t'; rewrite ?Ht, ?Ht'; done.
  - assert (0 < count_pc (is_pc Reading) (pcs s) ∧ 0 < count_pc (is_pc Writing) (pcs s)); [|lia].
    split; [apply count_pc_pos with t'; by rewrite ?Ht'|apply count_pc_pos with t; by rewrite ?Ht].
Qed.

Lemma rw_mutual_exclusion_witness :
  let s := default new_system
    (run_schedule (demo_schedule ++ [(ReadRelease, 1%nat); (ReadRelease, 2%nat); (Wake, 3%nat)]) new_system) in
  pc_of 3%nat s = Writing ∧
  get_stats s = (count_pc (is_pc Reading) (pcs s), count_pc (is_pc Writing) (pcs s),
                 count_pc wants_write (pcs s)) ∧
  (pc_of 3%nat s = Writing → 4%nat ≠ 3%nat → pc_of 4%nat s ≠ Writing ∧ pc_of 4%nat s ≠ Reading).
Proof.
  split; [reflexivity|]. apply rw_mutual_exclusion.
  apply (run_schedule_reach (demo_schedule ++ [(ReadRelease, 1%nat); (ReadRelease, 2%nat); (Wake, 3%nat)])).
  reflexivity.
Defined.

(** No deadlock and no lost wake-up: whenever the lock is free and some
    thread is trying to get it, some thread has been notified and its next step
    takes the lock. *)
Theorem rw_no_lost_wakeup (s : system) :
  rtc rw_step new_system s → (∃ t, pc_of t s ≠ Idle) →
  (∀ t, pc_of t s ≠ Reading ∧ pc_of t s ≠ Writing) →
  ∃ t s', rw_exec Wake t s = Some s' ∧ (pc_of t s' = Reading ∨ pc_of t s' = Writing).
Proof. intros Hreach%reachable_inv. by apply free_lock_progress. Qed.

Lemma rw_no_lost_wakeup_witness :
  let s := default new_system
    (run_schedule (demo_schedule ++ [(ReadRelease, 1%nat); (ReadRelease, 2%nat)]) new_system) in
  ∃ t s', rw_exec Wake t s = Some s' ∧ (pc_of t s' = Reading ∨ pc_of t s' = Writing).
Proof.
  apply rw_no_lost_wakeup.
  - apply (run_schedule_reach (demo_schedule ++ [(ReadRelease, 1%nat); (ReadRelease, 2%nat)])).
    reflexivity.
  - exists 3%nat. discriminate.
  - apply no_holder. by apply (bool_decide_unpack _).
Defined.

(** Writer priority: while a writer waits, no step of any thread lets
    another reader in. *)
Theorem rw_writer_priority (s s' : system) (w : thread) :
  rtc rw_step new_system s → wants_write (pc_of w s) = true → rw_step s s' →
  ∀ t, pc_of t s' = Reading → pc_of t s = Reading.
Proof.
  intros Hreach Hwants Hstep t Ht.
  assert (0 < waiting_writers (lock s)) as Hw.
  { destruct (reachable_inv s Hreach) as [[_ _ -> _ _ _ _ _] _]. by apply count_pc_pos with w. }
  destruct Hstep as [a x s s' Hex]. unfold rw_exec in Hex.
  assert (Hread : pc_of t (read_test x s) = Reading → pc_of t s = Reading).
  { unfold read_test. rewrite (proj2 (Z.ltb_lt 0 (waiting_writers (lock s)))), orb_true_r by done.
    rewrite pc_of_insert. by case_decide. }
  destruct a, (pc_of x s) eqn:Hx; simplify_eq; try by auto.
  - unfold read_release in Ht. simpl in Ht. destruct (_ =? 0); [apply notify_writer_reading in Ht|];
      rewrite pc_of_insert in Ht; by case_decide.
  - unfold write_acquire, write_test in Ht. simpl in Ht. destruct (_ || _);
      rewrite pc_of_insert in Ht; by case_decide.
  - unfold write_release in Ht. apply notify_readers_reading, notify_writer_reading in Ht.
    rewrite pc_of_insert in Ht; by case_decide.
  - unfold write_test in Ht. destruct (_ || _); rewrite pc_of_insert in Ht; by case_decide.
Qed.

Lemma rw_writer_priority_witness :
  let s' := read_acquire 5%nat demo_system in
  pc_of 2%nat s' = Reading ∧ pc_of 2%nat demo_system = Reading.
Proof.
  split; [reflexivity|].
  apply (rw_writer_priority demo_system (read_acquire 5%nat demo_system) 3%nat);
    [apply demo_reachable|reflexivity|apply (rw_step_exec ReadAcquire 5%nat); reflexivity|reflexivity].
Defined.

(** C40: every thread is served: when no new request for the lock arrives,
    every sequence of releases and wake-ups is finite, and it can only end with
    all threads idle, so each waiting thread has had the lock. *)
Theorem rw_drain_completes (s : system) :
  rtc rw_step new_system s →
  Acc (λ s2 s1, drain_step s1 s2) s ∧
  ∀ s', rtc drain_step s s' → (∀ s'', ¬ drain_step s' s'') → ∀ t, pc_of t s' = Idle.
Proof.
  intros Hreach%reachable_inv. split.
  - revert Hreach. induction (smaller_wf s) as [s _ IH]. intros Hinv. constructor. intros s' Hstep.
    apply IH; [by apply drain_step_smaller|]. by eapply rw_step_inv, drain_is_step.
  - intros s' Hdrain Hstuck. assert (rw_inv s') as Hinv.
    { revert Hdrain. apply (rtc_ind_r (λ s', rw_inv s')); [done|].
      intros ?? _ ? ?. by eapply rw_step_inv, drain_is_step. }
    intros t. destruct (decide (pc_of t s' = Idle)) as [|Ht]; [done|]. exfalso.
    destruct (free_lock_progress s' Hinv) as (t1 & s1 & Hex & _); [by exists t| |].
    + intros t'. split; intros Ht'; eapply Hstuck.
      * apply (drain_step_exec ReadRelease t'); [done|]. unfold rw_exec. by rewrite Ht'.
      * apply (drain_step_exec WriteRelease t'); [done|]. unfold rw_exec. by rewrite Ht'.
    + eapply Hstuck. by apply (drain_step_exec Wake t1).
Qed.

Lemma rw_drain_completes_witness :
  Acc (λ s2 s1, drain_step s1 s2) demo_system ∧
  ∀ s', rtc drain_step demo_system s' → (∀ s'', ¬ drain_step s' s'') → ∀ t, pc_of t s' = Idle.
Proof. apply (rw_drain_completes demo_system). apply demo_reachable. Defined.
