(* ===== verification/Num.v ===== *)
(** * Numbers and arrays of the reward code

    The reward functions of the routing agent compute on NumPy arrays of
    float64. Their definitions are written once over a class [Num] of number
    operations, with two instances: the rationals, where the arithmetic is exact
    and the theorems about order are proved, and IEEE binary64 of the Standard
    Library's [SpecFloat], which computes the bits the code computes, infinities
    and NaN included. The numeric routines of NumPy and pandas that the code
    calls (logarithm, percentiles, mean, deviation, digitize) are a class
    [Numpy] of parameters; what the code relies on is in [NumpyLaws]. *)

From S2P Require Import Prelude.
From Stdlib Require Export QArith Qround Lqa Qminmax.
From Stdlib Require Import SpecFloat.

Class Num (F : Type) := {
  nlit : Z → positive → F;  (* the literal [p/q] *)
  nadd : F → F → F;
  nsub : F → F → F;
  nmul : F → F → F;
  ndiv : F → F → F;
  nopp : F → F;
  nle : F → F → bool;
  nlt : F → F → bool;
  nisnan : F → bool
}.

Declare Scope num_scope.
Delimit Scope num_scope with num.
Infix "+" := nadd : num_scope.
Infix "-" := nsub : num_scope.
Infix "*" := nmul : num_scope.
Infix "/" := ndiv : num_scope.
Notation "- x" := (nopp x) : num_scope.
Infix "<=?" := nle : num_scope.
Infix "<?" := nlt : num_scope.

(** ** Elementwise functions *)

Section elementwise.
Context {F : Type} {NF : Num F}.
Open Scope num_scope.

Definition lit (p : Z) : F := nlit p 1.

(** [np.minimum] and [np.maximum] propagate NaN. *)
Definition np_minimum (a b : F) : F :=
  if nisnan a then a else if nisnan b then b else if a <=? b then a else b.

Definition np_maximum (a b : F) : F :=
  if nisnan a then a else if nisnan b then b else if b <=? a then a else b.

Definition np_clip (x lo hi : F) : F := np_minimum (np_maximum x lo) hi.

Definition np_where {A} (c : bool) (a b : A) : A := if c then a else b.

Definition np_square (x : F) : F := x * x.

(** Python's [max(a, b)]: the first unless the second is greater. *)
Definition py_max (a b : F) : F := if a <? b then b else a.

End elementwise.

(** Boolean indexing: [xs[mask]] and [xs[mask] = ys]. *)
Fixpoint np_select {A} (mask : list bool) (xs : list A) : list A :=
  match mask, xs with
  | b :: mask', x :: xs' => if b : bool then x :: np_select mask' xs' else np_select mask' xs'
  | _, _ => []
  end.

Fixpoint np_put {A} (mask : list bool) (ys xs : list A) : list A :=
  match mask, xs, ys with
  | true :: mask', _ :: xs', y :: ys' => y :: np_put mask' ys' xs'
  | false :: mask', x :: xs', _ => x :: np_put mask' ys xs'
  | _, _, _ => xs
  end.

(** [mask.sum() == 0] *)
Definition mask_empty (mask : list bool) : bool := negb (existsb (λ b, b) mask).

(** ** NumPy and pandas *)

Class Numpy (F : Type) := {
  np_log : F → F;
  np_percentile : list F → list F → list F;   (* a list of percentages *)
  np_percentile1 : list F → F → F;            (* one percentage *)
  np_linspace : F → F → Z → list F;
  np_digitize : list F → list F → list Z;     (* [right=True] *)
  np_mean : list F → F;
  np_std : list F → F;
  np_min : list F → F;
  np_max : list F → F;
  pd_quantile : list F → F → F
}.

(** ** The exact instance *)

(** Equality of fractions as they are written. *)
#[export] Instance Q_eq_decision : EqDecision Q.
Proof. solve_decision. Defined.

#[export] Instance Num_Q : Num Q := {|
  nlit p q := p # q;
  nadd := Qplus;
  nsub := Qminus;
  nmul := Qmult;
  ndiv := Qdiv;
  nopp := Qopp;
  nle := Qle_bool;
  nlt a b := negb (Qle_bool b a);
  nisnan _ := false
|}.

Definition Qsum (l : list Q) : Q := foldr Qplus 0 l.

(** What the reward code relies on: the mean is the sum over the length, minimum and maximum
    bound the elements and are among them, digitizing keeps
    the length, the logarithm increases and is zero at one. *)
Class NumpyLaws (NP : Numpy Q) : Prop := {
  mean_sum l : l ≠ [] → np_mean l * inject_Z (py_len l) == Qsum l;
  min_le l x : x ∈ l → np_min l <= x;
  max_ge l x : x ∈ l → x <= np_max l;
  min_attained l : l ≠ [] → ∃ x, x ∈ l ∧ np_min l == x;
  max_attained l : l ≠ [] → ∃ x, x ∈ l ∧ np_max l == x;
  digitize_length xs edges : length (np_digitize xs edges) = length xs;
  log_mono x y : 0 < x → x <= y → np_log x <= np_log y;
  log_strict x y : 0 < x → x < y → np_log x < np_log y;
  log_one : np_log 1 == 0
}.

(** ** The binary64 instance *)

Definition prec64 : Z := 53.
Definition emax64 : Z := 1024.

Definition b64_lit (p : Z) (q : positive) : spec_float :=
  match p with
  | Z0 => S754_zero false
  | Zpos m => SFdiv prec64 emax64 (S754_finite false m 0) (S754_finite false q 0)
  | Zneg m => SFdiv prec64 emax64 (S754_finite true m 0) (S754_finite false q 0)
  end.

#[export] Instance Num_b64 : Num spec_float := {|
  nlit := b64_lit;
  nadd := SFadd prec64 emax64;
  nsub := SFsub prec64 emax64;
  nmul := SFmul prec64 emax64;
  ndiv := SFdiv prec64 emax64;
  nopp := SFopp;
  nle := SFleb;
  nlt := SFltb;
  nisnan x := match x with S754_nan => true | _ => false end
|}.

(** ** Lemmas *)

(** The literals of the instance, as the reals they name. *)
Lemma Qle_bool_spec x y : BoolSpec (x <= y)%Q (y < x)%Q (Qle_bool x y).
Proof.
  destruct (Qle_bool x y) eqn:E; constructor.
  - by apply Qle_bool_iff.
  - apply Qnot_le_lt. intros H. apply Qle_bool_iff in H. congruence.
Qed.

Lemma np_minimum_Q (a b : Q) : (np_minimum a b == Qmin a b)%Q.
Proof.
  unfold np_minimum. simpl. destruct (Qle_bool_spec a b) as [H|H].
  - by rewrite Q.min_l.
  - by rewrite Q.min_r by lra.
Qed.

Lemma np_maximum_Q (a b : Q) : (np_maximum a b == Qmax a b)%Q.
Proof.
  unfold np_maximum. simpl. destruct (Qle_bool_spec b a) as [H|H].
  - by rewrite Q.max_l.
  - by rewrite Q.max_r by lra.
Qed.

Lemma np_select_map {A B} (f : A → B) mask xs :
  np_select mask (f <$> xs) = f <$> np_select mask xs.
Proof.
  revert xs. induction mask as [|[] mask IH]; intros [|x xs]; csimpl; try done; by rewrite IH.
Qed.

(** Assigning a function of the selected values changes exactly the selected
    positions. *)
Lemma np_put_select {A B} (f : A → B) mask (vals : list A) (xs : list B) k :
  length mask = length xs → length vals = length xs →
  np_put mask (f <$> np_select mask vals) xs !! k =
    match mask !! k with
    | Some true => f <$> vals !! k
    | _ => xs !! k
    end.
Proof.
  revert vals xs k. induction mask as [|b mask IH]; intros [|v vals] [|x xs] k Hm Hv; try done.
  simpl in Hm, Hv. destruct b; csimpl; destruct k as [|k]; try done; simpl; apply IH; lia.
Qed.

Lemma length_np_put {A} mask (ys xs : list A) : length (np_put mask ys xs) = length xs.
Proof.
  revert ys xs. induction mask as [|[] mask IH]; intros ys [|x xs]; try done.
  - destruct ys; simpl; [done|]. by rewrite IH.
  - simpl. destruct ys; simpl; by rewrite IH.
Qed.

(** ** A concrete instance of the parameters

    Percentiles take the element at the rank rounded down; the deviation is the
    range; [x - 1] stands for the logarithm. *)

Fixpoint q_insert (x : Q) (l : list Q) : list Q :=
  match l with
  | [] => [x]
  | y :: l' => if Qle_bool x y then x :: l else y :: q_insert x l'
  end.

Definition q_sort (l : list Q) : list Q := foldr q_insert [] l.

Definition demo_percentile (l : list Q) (q : Q) : Q :=
  let rank := Qfloor (q / 100 * inject_Z (py_len l - 1)) in
  default 0%Q (q_sort l !! Z.to_nat rank).

Definition demo_numpy : Numpy Q := {|
  np_log x := (x - 1)%Q;
  np_percentile l qs := demo_percentile l <$> qs;
  np_percentile1 := demo_percentile;
  np_linspace a b n :=
    (λ i, a + (b - a) * inject_Z (Z.of_nat i) / inject_Z (Z.max 1 (n - 1)))%Q <$> seq 0 (Z.to_nat n);
  np_digitize xs edges :=
    (λ x, py_len (base.filter (λ e, Qle_bool x e = false) edges)) <$> xs;
  np_mean l := (Qsum l / inject_Z (py_len l))%Q;
  np_min l := foldr Qmin (default 0%Q (head l)) l;
  np_max l := foldr Qmax (default 0%Q (head l)) l;
  np_std l := (default 0 (last (q_sort l)) - default 0 (head (q_sort l)))%Q;
  pd_quantile l q := demo_percentile l (100 * q)
|}.

Lemma foldr_attained (f : Q → Q → Q) (d : Q) (l : list Q) :
  (∀ a b, f a b == a ∨ f a b == b)%Q → ∃ x, x ∈ d :: l ∧ (foldr f d l == x)%Q.
Proof.
  intros Hf. induction l as [|y l (x & Hx & IH)]; simpl; [exists d; split; [left|done]|].
  destruct (Hf y (foldr f d l)) as [E|E].
  - exists y. split; [right; left|done].
  - exists x. split; [set_solver|by rewrite E].
Qed.

Lemma demo_numpy_laws : NumpyLaws demo_numpy.
Proof.
  split; simpl.
  - intros l Hl. assert (¬ inject_Z (py_len l) == 0)%Q; [|by field].
    unfold Qeq, inject_Z, py_len. simpl. destruct l; [done|simpl; lia].
  - intros l x Hx. generalize (default 0%Q (head l)). intros d.
    induction l as [|y l IH]; [by apply elem_of_nil in Hx|]. simpl.
    apply elem_of_cons in Hx as [->|Hx]; [apply Q.le_min_l|].
    eapply Qle_trans; [apply Q.le_min_r|by apply IH].
  - intros l x Hx. generalize (default 0%Q (head l)). intros d.
    induction l as [|y l IH]; [by apply elem_of_nil in Hx|]. simpl.
    apply elem_of_cons in Hx as [->|Hx]; [apply Q.le_max_l|].
    eapply Qle_trans; [by apply IH|apply Q.le_max_r].
  - intros [|y l] Hl; [done|]. destruct (foldr_attained Qmin y (y :: l)) as (x & Hx & Hq); [|exists x; set_solver].
    intros a b. destruct (Q.min_spec a b) as [[_ ?]|[_ ?]]; auto.
  - intros [|y l] Hl; [done|]. destruct (foldr_attained Qmax y (y :: l)) as (x & Hx & Hq); [|exists x; set_solver].
    intros a b. destruct (Q.max_spec a b) as [[_ ?]|[_ ?]]; auto.
  - intros. apply length_fmap.
  - intros. lra.
  - intros. lra.
  - reflexivity.
Qed.

(** ** Sums *)

Lemma Qsum_app (l1 l2 : list Q) : (Qsum (l1 ++ l2) == Qsum l1 + Qsum l2)%Q.
Proof. unfold Qsum. induction l1 as [|x l IH]; simpl; [by rewrite Qplus_0_l|]. rewrite IH. ring. Qed.

(** ** Vectors of exact numbers *)

(** [a @ b] of two vectors *)
Definition dot (a b : list Q) : Q := Qsum (zip_with Qmult a b).

(** [np.argmax]: the first index of a greatest value. *)
Fixpoint argmax_from (best : nat) (best_v : Q) (i : nat) (l : list Q) : nat :=
  match l with
  | [] => best
  | x :: l' => if Qle_bool x best_v then argmax_from best best_v (S i) l' else argmax_from i x (S i) l'
  end.

Definition np_argmax (l : list Q) : outcome nat :=
  match l with [] => Raise ValueError | x :: l' => Ret (argmax_from 0 x 1 l') end.

Section argmax.
Open Scope Q_scope.

Lemma argmax_from_spec best best_v i l all :
  all !! best = Some best_v → (∀ j x, (j < i)%nat → all !! j = Some x → x <= best_v) → drop i all = l →
  ∃ v, all !! argmax_from best best_v i l = Some v ∧ ∀ j x, all !! j = Some x → x <= v.
Proof.
  revert best best_v i. induction l as [|x l IH]; intros best best_v i Hb Hle Hdrop; simpl.
  - exists best_v. split; [done|]. intros j x Hj. apply (Hle j); [|done].
    apply lookup_lt_Some in Hj. assert (length (drop i all) = 0)%nat by by rewrite Hdrop. rewrite length_drop in H. lia.
  - assert (Hx : all !! i = Some x) by (rewrite <-(Nat.add_0_r i), <-lookup_drop, Hdrop; done).
    assert (Hd' : drop (S i) all = l) by (rewrite <-Nat.add_1_r, <-drop_drop, Hdrop; done).
    destruct (Qle_bool_spec x best_v) as [H1|H1]; apply IH; try done.
    + intros j y Hj Hy. destruct (decide (j = i)) as [->|]; [congruence|apply (Hle j); [lia|done]].
    + intros j y Hj Hy. destruct (decide (j = i)) as [->|]; [rewrite Hx in Hy; injection Hy as ->; lra|].
      assert (y <= best_v) by (apply (Hle j); [lia|done]). lra.
Qed.

Lemma np_argmax_spec l :
  l ≠ [] → ∃ k v, np_argmax l = Ret k ∧ l !! k = Some v ∧ ∀ j x, l !! j = Some x → x <= v.
Proof.
  destruct l as [|x l]; [done|]. intros _. simpl.
  destruct (argmax_from_spec 0 x 1 l (x :: l)) as (v & Hv & Hmax); [done| |done|].
  - intros [|j] y Hj; [|lia]. intros [= ->]. lra.
  - by eexists _, v.
Qed.

End argmax.
