(* ===== verification/Rewards.v ===== *)
(** * The reward functions

    Models [python/routing_agent_service/agent_codes/rewards.py] up to its
    dispatcher: the functions that turn measured latencies into training
    rewards. An array is a list; the body of each [np.where] is a function of
    one element, mapped over the array. Arithmetic keeps the order of the source,
    so the binary64 instance rounds as the code does. *)

From S2P Require Import Prelude Num.
From Stdlib Require Import SpecFloat.

(** The dictionary the reward functions return. *)
Record RewardResult (F : Type) := mkRewards {
  ttft_rewards : list F;
  tpot_rewards : list F;
  combined_rewards : list F
}.

Arguments mkRewards {F} _ _ _.
Arguments ttft_rewards {F} _.
Arguments tpot_rewards {F} _.
Arguments combined_rewards {F} _.

Section rewards.
Context {F : Type} {NF : Num F} {NP : Numpy F}.
Open Scope num_scope.

Definition combine_one (w a b : F) : F := w * a + py_max (lit 0) (lit 1 - w) * b.

Definition calculate_combined_rewards (ttft_r tpot_r : list F) (ttft_reward_weight : F) : list F :=
  zip_with (combine_one ttft_reward_weight) ttft_r tpot_r.

(** The common ending of the reward functions. *)
Definition with_combined (ttft_r tpot_r : list F) (w : F) : RewardResult F :=
  mkRewards ttft_r tpot_r (calculate_combined_rewards ttft_r tpot_r w).

(** ** Rewards against a service level objective *)

Definition simple_ttft (slo v : F) : F :=
  np_where (v <=? lit 0) (nlit 5 10)
    (np_where (v <=? slo)
      (nlit 5 10 - (nlit 4 10 * v / slo))
      (nlit (-1) 10 - (nlit 4 10 * np_minimum (lit 1) ((v - slo) / slo)))).

Definition simple_tpot (slo v : F) : F :=
  np_where (v <=? lit 0) (nlit (-5) 10)
    (np_where (v <=? slo)
      (nlit 1 10 + (nlit 4 10 * (lit 1 - v / slo)))
      (nlit (-1) 10 - (nlit 4 10 * np_minimum (lit 1) ((v - slo) / slo)))).

Definition calculate_rewards_simple (ttft tpot : list F) (ttft_slo avg_tpot_slo w : F) : RewardResult F :=
  with_combined (simple_ttft ttft_slo <$> ttft) (simple_tpot avg_tpot_slo <$> tpot) w.

Definition simple_extended_ttft (slo v : F) : F :=
  np_where (v <=? lit 0) (nlit 5 10)
    (np_where (v <=? slo)
      (nlit 5 10 - (nlit 4 10 * v / slo))
      (nlit (-1) 10 - (nlit 4 10 * np_minimum (lit 4) ((v - slo) / slo)))).

Definition simple_extended_tpot (slo v : F) : F :=
  np_where (v <=? lit 0) (nlit (-5) 10)
    (np_where (v <=? slo)
      (nlit 1 10 + (nlit 4 10 * (lit 1 - v / slo)))
      (nlit (-1) 10 - (nlit 4 10 * np_minimum (lit 3) ((v - slo) / slo)))).

Definition calculate_rewards_simple_extended (ttft tpot : list F) (ttft_slo avg_tpot_slo w : F) :
    RewardResult F :=
  with_combined (simple_extended_ttft ttft_slo <$> ttft) (simple_extended_tpot avg_tpot_slo <$> tpot) w.

Definition steeper_ttft (slo v : F) : F :=
  np_where (v <=? lit 0) (nlit 21 10)
    (np_where (v <=? slo)
      (nlit 5 10 + (nlit 16 10 * (lit 1 - v / slo)))
      (nlit (-1) 10 - (nlit 4 10 * np_minimum (lit 4) ((v - slo) / slo)))).

Definition steeper_tpot (slo v : F) : F :=
  np_where (v <=? lit 0) (nlit (-5) 10)
    (np_where (v <=? slo)
      (nlit 5 10 + (nlit 12 10 * (lit 1 - v / slo)))
      (nlit (-1) 10 - (nlit 4 10 * np_minimum (lit 3) ((v - slo) / slo)))).

Definition calculate_rewards_piecewise_linear_steeper_gradient (ttft tpot : list F)
    (ttft_slo avg_tpot_slo w : F) : RewardResult F :=
  with_combined (steeper_ttft ttft_slo <$> ttft) (steeper_tpot avg_tpot_slo <$> tpot) w.

(** The objectives are arguments of this function too, but unused. *)
Definition inverse_ttft (v : F) : F :=
  let raw := lit 1000 / (v + lit 100) in (raw - nlit 505 100) / nlit 495 100.

Definition inverse_tpot (v : F) : F :=
  let raw := lit 100 / (v + lit 10) in (raw - nlit 505 100) / nlit 495 100.

Definition calculate_rewards_inverse_latency (ttft tpot : list F) (ttft_slo avg_tpot_slo w : F) :
    RewardResult F :=
  with_combined (inverse_ttft <$> ttft) (inverse_tpot <$> tpot) w.

Definition optimization_ttft (slo v : F) : F :=
  np_where (v <=? lit 0) (lit 2)
    (np_where (v <=? slo)
      (lit 2 - (lit 2 * v / slo))
      (nlit (-5) 10 - (nlit 4 10 * np_minimum (nlit 375 100) ((v - slo) / slo)))).

Definition optimization_tpot (slo v : F) : F :=
  np_where (v <=? lit 0) (nlit (-5) 10)
    (np_where (v <=? slo)
      (nlit 15 10 - (nlit 15 10 * v / slo))
      (nlit (-5) 10 - (nlit 4 10 * np_minimum (nlit 25 10) ((v - slo) / slo)))).

Definition calculate_rewards_latency_optimization (ttft tpot : list F) (ttft_slo avg_tpot_slo w : F) :
    RewardResult F :=
  with_combined (optimization_ttft ttft_slo <$> ttft) (optimization_tpot avg_tpot_slo <$> tpot) w.

Definition absolute_one (slo v : F) : F :=
  np_where (v <=? slo) (lit 1 - (v / slo)) (- np_clip ((v / slo) - lit 1) (lit 0) (lit 5)).

Definition calculate_rewards_absolute_latency (ttft tpot : list F) (ttft_slo tpot_slo w : F) :
    RewardResult F :=
  with_combined (absolute_one ttft_slo <$> ttft) (absolute_one tpot_slo <$> tpot) w.

(** ** Rewards of the latency alone *)

Definition neg_log (v : F) : F := - np_log (v + lit 1).

Definition calculate_rewards_simple_latency_minimization (ttft tpot : list F) (w : F) : RewardResult F :=
  with_combined (neg_log <$> ttft) (neg_log <$> tpot) w.

Definition neg_reciprocal (v : F) : F := lit (-1000) / np_maximum v (lit 1).

Definition calculate_rewards_negative_reciprocal (ttft tpot : list F) (w : F) : RewardResult F :=
  with_combined (neg_reciprocal <$> ttft) (neg_reciprocal <$> tpot) w.

Definition neg_linear (v : F) : F := - v / lit 1000.

Definition calculate_rewards_negative_linear (ttft tpot : list F) (w : F) : RewardResult F :=
  with_combined (neg_linear <$> ttft) (neg_linear <$> tpot) w.

Definition neg_squared (v : F) : F := - np_square (v / lit 1000).

Definition calculate_rewards_negative_squared (ttft tpot : list F) (w : F) : RewardResult F :=
  with_combined (neg_squared <$> ttft) (neg_squared <$> tpot) w.

(** The bonus of row [i]: the differential of the selected pod's column there,
    when the pod has such a column; a column shorter than the rows raises. *)
Definition locality_bonus (base_data : gmap string (list F)) (i : nat) (pod : string) : outcome F :=
  match base_data !! (pod +:+ "-kv_differential") with
  | None => Ret (lit 0)
  | Some column => obind (py_index column (Z.of_nat i)) (λ d, Ret (d / lit 100))
  end.

(** [hyperparameters.get('PREFIX_LOCALITY_WEIGHT', 0.5)] is [weight]. *)
Definition calculate_rewards_negative_linear_and_prefix_locality (ttft tpot : list F) (w : F)
    (selected_pods : list string) (base_data : gmap string (list F)) (weight : option F) :
    outcome (RewardResult F) :=
  let ttft_r := neg_linear <$> ttft in
  let tpot_r := neg_linear <$> tpot in
  let combined := calculate_combined_rewards ttft_r tpot_r w in
  let prefix_locality_weight := default (nlit 5 10) weight in
  obind (omapM (λ '(i, pod), locality_bonus base_data i pod) (imap pair selected_pods)) (λ bonus,
    Ret (mkRewards ttft_r tpot_r
           (zip_with (λ c b, c + prefix_locality_weight * b) combined bonus))).

(** ** Rewards relative to similar requests *)

(** [-(v - mean) / std] clipped to three deviations, or neutral when the bucket
    does not vary. *)
Definition zscore (bucket : list F) (v : F) : F :=
  let mean := np_mean bucket in
  let std := np_std bucket in
  np_clip (if nlit 1 1000000 <? std then - (v - mean) / std else lit 0) (lit (-3)) (lit 3).

(** The rows of bucket [i] of three. *)
Definition bucket_mask (quantiles : list F) (i : nat) (input_tokens : list F) : list bool :=
  let low := default (lit 0) (quantiles !! i) in
  let high := default (lit 0) (quantiles !! S i) in
  (λ t, if (i <? 2)%nat then (low <=? t) && (t <? high) else low <=? t) <$> input_tokens.

(** One iteration of the bucket loop on one reward array. *)
Definition zscore_bucket (mask : list bool) (vals rewards : list F) : list F :=
  if mask_empty mask then rewards
  else np_put mask (zscore (np_select mask vals) <$> np_select mask vals) rewards.

Definition zscore_rewards (input_tokens vals : list F) : list F :=
  let quantiles := np_percentile input_tokens [lit 0; lit 33; lit 67; lit 100] in
  foldl (λ rewards i, zscore_bucket (bucket_mask quantiles i input_tokens) vals rewards)
    ((λ _, lit 0) <$> vals) (seq 0 3).

Definition calculate_rewards_quantile_based (ttft tpot input_tokens output_tokens : list F) (w : F) :
    RewardResult F :=
  with_combined (zscore_rewards input_tokens ttft) (zscore_rewards input_tokens tpot) w.

Definition bucket_index (input_tokens : list F) (effective_buckets : Z) : list Z :=
  let edges := np_percentile input_tokens (np_linspace (lit 0) (lit 100) (effective_buckets + 1)) in
  (λ b, Z.min (Z.max b 0) (effective_buckets - 1)) <$>
    np_digitize input_tokens (py_slice edges 1 (-1)).

Definition bucket_mean (bucket_idx : list Z) (latency : list F) (b : Z) : F :=
  let mask := (λ i, Z.eqb i b) <$> bucket_idx in
  if mask_empty mask then lit 0 else np_mean (np_select mask latency).

Definition calculate_rewards_quantile_advantage (latency input_tokens : list F) (num_buckets : Z) :
    RewardResult F :=
  let zeros := (λ _, lit 0) <$> latency in
  let effective_buckets := Z.max 1 (Z.min num_buckets (py_len input_tokens)) in
  let bucket_idx := bucket_index input_tokens effective_buckets in
  let bucket_means := (λ b, bucket_mean bucket_idx latency (Z.of_nat b)) <$>
                        seq 0 (Z.to_nat effective_buckets) in
  let baseline := (λ i, default (lit 0) (bucket_means !! Z.to_nat i)) <$> bucket_idx in
  mkRewards zeros zeros (zip_with (λ v b, - (v - b) / lit 1000) latency baseline).

(** ** Throughput, normalized logarithm, context *)

Definition seconds (v : F) : F := np_maximum (v / lit 1000) (nlit 1 1000).

Definition prefill_reward (tokens v : F) : F := np_log (tokens / seconds v + lit 1).

Definition decode_reward (v : F) : F := np_log (lit 1 / seconds v + lit 1).

Definition calculate_rewards_throughput_based (ttft tpot input_tokens : list F) (w : F) : RewardResult F :=
  with_combined (zip_with prefill_reward input_tokens ttft) (decode_reward <$> tpot) w.

Definition log_ratio (p99 v : F) : F := np_log (v + lit 1) / np_log (p99 + lit 1).

(** The combined reward weighs with [1 - w], not clamped at zero. *)
Definition calculate_rewards_log_normalized (ttft tpot : list F) (ttft_p99 tpot_p99 w : F) :
    RewardResult F :=
  let ttft_normalized := log_ratio ttft_p99 <$> ttft in
  let tpot_normalized := log_ratio tpot_p99 <$> tpot in
  mkRewards (nopp <$> ttft_normalized) (nopp <$> tpot_normalized)
    (zip_with (λ a b, - (w * a + (lit 1 - w) * b)) ttft_normalized tpot_normalized).

Record context := mkContext {
  input_tokens : F; output_tokens : F; kv_cache_hit_ratio : F
}.

Definition effective_input_tokens (c : context) : F :=
  input_tokens c * (lit 1 - kv_cache_hit_ratio c).

Definition expected_ttft (c : context) : F := lit 50 + (effective_input_tokens c * nlit 4 10).

Definition adaptive_ttft_slo (base_ttft_slo : F) (c : context) : F :=
  np_maximum base_ttft_slo (lit 50 + (input_tokens c * nlit 4 10 * nlit 15 10)).

Definition ttft_efficiency (c : context) (v : F) : F :=
  np_where (lit 0 <? v) (expected_ttft c / np_maximum v (lit 1)) (lit 1).

Definition context_ttft (base_ttft_slo : F) (c : context) (v : F) : F :=
  let slo := adaptive_ttft_slo base_ttft_slo c in
  np_where (v <=? lit 0) (lit 2)
    (np_where (v <=? slo)
      (nlit 5 10 + (nlit 15 10 * (ttft_efficiency c v - lit 1)))
      (nlit (-5) 10 - (lit 1 * np_minimum (lit 3) ((v - slo) / slo)))).

Definition context_length_factor (c : context) : F :=
  let total := input_tokens c + output_tokens c in
  np_where (total <? lit 4000) (lit 1)
    (np_minimum (nlit 12 10) (lit 1 + (total - lit 4000) / lit 20000)).

Definition adaptive_tpot_slo (avg_tpot_slo : F) (c : context) : F :=
  avg_tpot_slo * context_length_factor c.

Definition context_tpot (avg_tpot_slo : F) (c : context) (v : F) : F :=
  let slo := adaptive_tpot_slo avg_tpot_slo c in
  np_where (v <=? lit 0) (nlit (-5) 10)
    (np_where (v <=? slo)
      (nlit 15 10 - (nlit 15 10 * v / slo))
      (nlit (-5) 10 - (nlit 5 10 * np_minimum (nlit 25 10) ((v - slo) / slo)))).

(** The rewards with the diagnostic columns. *)
Record context_result := mkContextResult {
  ctx_rewards : RewardResult F;
  ctx_effective_input_tokens : list F;
  ctx_expected_ttft : list F;
  ctx_adaptive_ttft_slo : list F;
  ctx_ttft_efficiency : list F;
  ctx_adaptive_tpot_slo : list F
}.

(** The rows carry their context. *)
Definition calculate_rewards_context_aware (ttft tpot : list F) (rows : list context)
    (base_ttft_slo avg_tpot_slo w : F) : context_result :=
  mkContextResult
    (with_combined (zip_with (context_ttft base_ttft_slo) rows ttft)
                   (zip_with (context_tpot avg_tpot_slo) rows tpot) w)
    (effective_input_tokens <$> rows) (expected_ttft <$> rows) (adaptive_ttft_slo base_ttft_slo <$> rows)
    (zip_with ttft_efficiency rows ttft) (adaptive_tpot_slo avg_tpot_slo <$> rows).

(** ** End-to-end latency *)

(** The keyword arguments of [calculate_rewards_e2e]. *)
Record e2e_kwargs := mkE2E {
  kw_e2e_p99 : option F;
  kw_e2e_slo : option F;
  kw_ttft_slo : option F;
  kw_input_tokens : option (list F);
  kw_output_tokens : option (list F);
  kw_num_buckets : option Z
}.

Definition e2e_slo_reward (slo v : F) : F :=
  np_where (v <=? lit 0) (lit 2)
    (np_where (v <=? slo)
      (lit 2 - (lit 2 * v / slo))
      (nlit (-5) 10 - (nlit 4 10 * np_minimum (lit 4) ((v - slo) / slo)))).

Definition e2e_p99_of (kw : e2e_kwargs) (e2e : list F) : F :=
  let from_data :=
    let p := np_percentile1 e2e (lit 99) in if p <=? lit 0 then lit 1 else p in
  match kw_e2e_p99 kw with
  | None => from_data
  | Some p => if p <=? lit 0 then from_data else p
  end.

Definition total_tokens (kw : e2e_kwargs) (e2e : list F) : list F :=
  match kw_input_tokens kw, kw_output_tokens kw with
  | Some i, Some o => zip_with nadd i o
  | Some i, None => i
  | None, _ => (λ _, lit 1) <$> e2e
  end.

Definition e2e_slo_names : list string :=
  ["linear_simple"; "linear_simple_extended"; "piecewise_linear_steeper_gradient"; "latency_optimized"].

Definition e2e_rewards (e2e : list F) (reward_function : string) (kw : e2e_kwargs) : list F :=
  if decide (reward_function = "negative_linear"%string) then neg_linear <$> e2e
  else if decide (reward_function = "negative_squared"%string) then neg_squared <$> e2e
  else if decide (reward_function = "negative_reciprocal"%string) then neg_reciprocal <$> e2e
  else if decide (reward_function = "simple_latency_minimization"%string) then neg_log <$> e2e
  else if decide (reward_function = "log_normalized"%string) then
    (λ v, - np_log (v + lit 1) / np_log (e2e_p99_of kw e2e + lit 1)) <$> e2e
  else if decide (reward_function = "inverse_latency"%string) then inverse_ttft <$> e2e
  else if decide (reward_function ∈ e2e_slo_names) then
    e2e_slo_reward (default (default (lit 1000) (kw_ttft_slo kw)) (kw_e2e_slo kw)) <$> e2e
  else if decide (reward_function = "throughput_based"%string) then
    zip_with (λ tokens v, np_log (tokens / seconds v + lit 1)) (total_tokens kw e2e) e2e
  else if decide (reward_function = "quantile_based"%string) then
    match kw_input_tokens kw with
    | Some tokens => zscore_rewards tokens e2e
    | None => neg_linear <$> e2e
    end
  else if decide (reward_function = "quantile_advantage"%string) then
    match kw_input_tokens kw with
    | Some tokens =>
      combined_rewards (calculate_rewards_quantile_advantage e2e tokens (default 5%Z (kw_num_buckets kw)))
    | None => neg_linear <$> e2e
    end
  else neg_linear <$> e2e.

Definition calculate_rewards_e2e (e2e : list F) (reward_function : string) (kw : e2e_kwargs) :
    RewardResult F :=
  let zeros := (λ _, lit 0) <$> e2e in
  mkRewards zeros zeros (e2e_rewards e2e reward_function kw).

End rewards.

Arguments context F : clear implicits.
Arguments context_result F : clear implicits.
Arguments e2e_kwargs F : clear implicits.
Arguments mkContext {F} _ _ _.
Arguments mkE2E {F} _ _ _ _ _ _.

(** ** Lemmas *)

Open Scope Q_scope.

(** The common shape of the rewards against an objective: a value for
    non-positive latencies, a line up to the objective, a capped penalty above. *)
Definition hinge (top a b c d m slo v : Q) : Q :=
  if Qle_bool v 0 then top
  else if Qle_bool v slo then a - b * (v / slo)
  else c - d * Qmin m (v / slo - 1).

Lemma ratio_le slo v : 0 < slo → (v <= slo ↔ v / slo <= 1).
Proof.
  intros H. split; intros Hv.
  - apply Qle_shift_div_r; lra.
  - assert (v == v / slo * slo) by (field; lra). nra.
Qed.

Lemma ratio_mono slo v1 v2 : 0 < slo → v1 <= v2 → v1 / slo <= v2 / slo.
Proof. intros H Hv. apply Qmult_le_compat_r; [done|]. apply Qlt_le_weak, Qinv_lt_0_compat, H. Qed.

Lemma ratio_pos slo v : 0 < slo → 0 <= v → 0 <= v / slo.
Proof. intros H Hv. apply Qle_shift_div_l; lra. Qed.

Lemma ratio_gt slo v : 0 < slo → slo < v → 1 < v / slo.
Proof. intros H Hv. apply Qlt_shift_div_l; lra. Qed.

(** Case analysis on a minimum. *)
Ltac q_min a b :=
  let H := fresh "Hmin" in
  destruct (Q.min_spec a b) as [[? H]|[? H]]; rewrite ?H in *.

Section hinge.
Variables (top a b c d m slo : Q).
Hypothesis Hslo : 0 < slo.
Hypothesis Hb : 0 <= b.
Hypothesis Hd : 0 <= d.


Lemma hinge_antitone v1 v2 :
  0 <= m → c <= a - b → a <= top ∨ 0 < v1 → v1 <= v2 →
  hinge top a b c d m slo v2 <= hinge top a b c d m slo v1.
Proof.
  intros Hm H1 H2 Hv. unfold hinge.
  pose proof (ratio_mono slo v1 v2 Hslo Hv).
  destruct (Qle_bool_spec v1 0) as [E1|E1], (Qle_bool_spec v2 0) as [E2|E2]; try lra.
  - destruct H2 as [H2|]; [|lra]. pose proof (ratio_pos slo v2 Hslo ltac:(lra)).
    destruct (Qle_bool_spec v2 slo) as [Hs|Hs]; [nra|].
    pose proof (ratio_gt slo v2 Hslo Hs). q_min m (v2 / slo - 1); nra.
  - destruct (Qle_bool_spec v1 slo) as [Hs1|Hs1], (Qle_bool_spec v2 slo) as [Hs2|Hs2]; try lra.
    + nra.
    + apply (ratio_le slo v1 Hslo) in Hs1. pose proof (ratio_gt slo v2 Hslo Hs2).
      q_min m (v2 / slo - 1); nra.
    + q_min m (v1 / slo - 1); q_min m (v2 / slo - 1); nra.
Qed.

End hinge.

(** Each objective-based reward is a hinge. *)
Ltac is_hinge :=
  intros; cbv [simple_ttft simple_tpot simple_extended_ttft simple_extended_tpot steeper_ttft
    steeper_tpot optimization_ttft optimization_tpot e2e_slo_reward context_tpot np_where lit hinge
    nlit nadd nsub nmul ndiv nopp nle Num_Q];
  repeat match goal with |- context [if ?b then _ else _] => destruct b; [try (field; lra)|] end;
  rewrite ?np_minimum_Q;
  match goal with |- context [(?v - ?slo) / ?slo] =>
    let E := fresh in assert (E : (v - slo) / slo == v / slo - 1) by (field; lra); rewrite E end; ring.

Lemma simple_ttft_hinge slo v :
  0 < slo → simple_ttft slo v == hinge (5#10) (5#10) (4#10) (-1#10) (4#10) 1 slo v.
Proof. is_hinge. Qed.

Lemma simple_tpot_hinge slo v :
  0 < slo → simple_tpot slo v == hinge (-5#10) (5#10) (4#10) (-1#10) (4#10) 1 slo v.
Proof. is_hinge. Qed.

Lemma simple_extended_ttft_hinge slo v :
  0 < slo → simple_extended_ttft slo v == hinge (5#10) (5#10) (4#10) (-1#10) (4#10) 4 slo v.
Proof. is_hinge. Qed.

Lemma simple_extended_tpot_hinge slo v :
  0 < slo → simple_extended_tpot slo v == hinge (-5#10) (5#10) (4#10) (-1#10) (4#10) 3 slo v.
Proof. is_hinge. Qed.

Lemma steeper_ttft_hinge slo v :
  0 < slo → steeper_ttft slo v == hinge (21#10) (21#10) (16#10) (-1#10) (4#10) 4 slo v.
Proof. is_hinge. Qed.

Lemma steeper_tpot_hinge slo v :
  0 < slo → steeper_tpot slo v == hinge (-5#10) (17#10) (12#10) (-1#10) (4#10) 3 slo v.
Proof. is_hinge. Qed.

Lemma optimization_ttft_hinge slo v :
  0 < slo → optimization_ttft slo v == hinge 2 2 2 (-5#10) (4#10) (375#100) slo v.
Proof. is_hinge. Qed.

Lemma optimization_tpot_hinge slo v :
  0 < slo → optimization_tpot slo v == hinge (-5#10) (15#10) (15#10) (-5#10) (4#10) (25#10) slo v.
Proof. is_hinge. Qed.

(** The other two objective-based rewards. *)
Lemma absolute_one_Q slo v :
  0 < slo → absolute_one slo v == if Qle_bool v slo then 1 - v / slo else - Qmin (v / slo - 1) 5.
Proof.
  intros Hslo. cbv [absolute_one np_where lit nlit nsub ndiv nopp nle Num_Q].
  destruct (Qle_bool_spec v slo) as [Hv|Hv]; [reflexivity|].
  pose proof (ratio_gt slo v Hslo Hv). unfold np_clip. rewrite np_minimum_Q, np_maximum_Q.
  change (1 # 1) with 1. change (5 # 1) with 5. change (0 # 1) with 0.
  by rewrite Q.max_l by lra.
Qed.


Lemma absolute_antitone slo v1 v2 : 0 < slo → v1 <= v2 → absolute_one slo v2 <= absolute_one slo v1.
Proof.
  intros Hslo Hv. rewrite !absolute_one_Q by done. pose proof (ratio_mono slo v1 v2 Hslo Hv).
  destruct (Qle_bool_spec v1 slo) as [Hs1|Hs1], (Qle_bool_spec v2 slo) as [Hs2|Hs2]; try lra.
  - apply (ratio_le slo v1 Hslo) in Hs1. pose proof (ratio_gt slo v2 Hslo Hs2).
    q_min (v2 / slo - 1) 5; lra.
  - q_min (v1 / slo - 1) 5; q_min (v2 / slo - 1) 5; lra.
Qed.

Lemma reciprocal_antitone k o v1 v2 :
  0 < k → 0 < o → 0 <= v1 → v1 <= v2 → 0 <= k / (v2 + o) <= k / (v1 + o) ∧ k / (v1 + o) <= k / o.
Proof.
  intros Hk Ho H1 H2. split_and!.
  - apply Qle_shift_div_l; lra.
  - apply Qle_shift_div_l; [lra|]. assert (k / (v2 + o) * (v2 + o) == k) by (field; lra).
    assert (0 <= k / (v2 + o)) by (apply Qle_shift_div_l; lra). nra.
  - apply Qle_shift_div_l; [lra|]. assert (k / (v1 + o) * (v1 + o) == k) by (field; lra).
    assert (0 <= k / (v1 + o)) by (apply Qle_shift_div_l; lra). nra.
Qed.

Lemma inverse_ttft_spec v1 v2 :
  0 <= v1 → v1 <= v2 → - (505#495) <= inverse_ttft v2 <= inverse_ttft v1 ∧ inverse_ttft v1 <= 1.
Proof.
  intros H1 H2. destruct (reciprocal_antitone 1000 100 v1 v2) as [? ?]; [lra..|].
  cbv [inverse_ttft lit nlit nadd nsub ndiv Num_Q].
  change (1000 # 1) with 1000. change (100 # 1) with 100.
  assert (1000 / 100 == 10) by reflexivity.
  assert (E : ∀ x, (x - (505#100)) / (495#100) == (100#495) * x - (505#495)) by (intros; field).
  rewrite !E. lra.
Qed.

Lemma inverse_tpot_spec v1 v2 :
  0 <= v1 → v1 <= v2 → - (505#495) <= inverse_tpot v2 <= inverse_tpot v1 ∧ inverse_tpot v1 <= 1.
Proof.
  intros H1 H2. destruct (reciprocal_antitone 100 10 v1 v2) as [? ?]; [lra..|].
  cbv [inverse_tpot lit nlit nadd nsub ndiv Num_Q].
  change (100 # 1) with 100. change (10 # 1) with 10.
  assert (100 / 10 == 10) by reflexivity.
  assert (E : ∀ x, (x - (505#100)) / (495#100) == (100#495) * x - (505#495)) by (intros; field).
  rewrite !E. lra.
Qed.



(** ** Lemmas: from elements to arrays *)

Definition within (lo hi x : Q) : Prop := lo <= x <= hi.


Lemma combine_one_mono w a1 b1 a2 b2 :
  0 <= w → a1 <= a2 → b1 <= b2 → combine_one w a1 b1 <= combine_one w a2 b2.
Proof.
  intros Hw Ha Hb. unfold combine_one, py_max. simpl. change (lit 0) with 0. change (lit 1) with 1.
  destruct (Qle_bool_spec (1 - w) 0) as [H|H]; simpl; nra.
Qed.


Definition rewards_le (r2 r1 : RewardResult Q) : Prop :=
  Forall2 Qle (ttft_rewards r2) (ttft_rewards r1) ∧
  Forall2 Qle (tpot_rewards r2) (tpot_rewards r1) ∧
  Forall2 Qle (combined_rewards r2) (combined_rewards r1).


Lemma with_combined_le (ttft1 ttft2 tpot1 tpot2 : list Q) w :
  0 <= w → Forall2 Qle ttft2 ttft1 → Forall2 Qle tpot2 tpot1 →
  rewards_le (with_combined ttft2 tpot2 w) (with_combined ttft1 tpot1 w).
Proof.
  intros Hw H1 H2. split_and!; [done..|]. unfold with_combined. simpl. unfold calculate_combined_rewards.
  revert tpot1 tpot2 H2. induction H1 as [|a1 a2 l1 l2 Ha _ IH]; intros m1 m2 H2; [constructor|].
  destruct H2 as [|b1 b2 m2 m1 Hb H2]; [constructor|]. simpl. constructor; [by apply combine_one_mono|by apply IH].
Qed.

(** Every element of an array is faster in the first of two runs. *)
Definition faster (lo : Q → Prop) (vs1 vs2 : list Q) : Prop := Forall2 (λ v1 v2, lo v1 ∧ v1 <= v2) vs1 vs2.

Lemma fmap_antitone (f : Q → Q) (lo : Q → Prop) vs1 vs2 :
  (∀ v1 v2, lo v1 → v1 <= v2 → f v2 <= f v1) → faster lo vs1 vs2 → Forall2 Qle (f <$> vs2) (f <$> vs1).
Proof. intros Hf H. induction H as [|v1 v2 ?? [??] _ IH]; csimpl; constructor; auto. Qed.

Lemma fmap_monotone (f : Q → Q) (lo : Q → Prop) vs1 vs2 :
  (∀ v1 v2, v1 <= v2 → f v1 <= f v2) → faster lo vs1 vs2 → Forall2 Qle (f <$> vs1) (f <$> vs2).
Proof. intros Hf H. induction H as [|v1 v2 ?? [??] _ IH]; csimpl; constructor; auto. Qed.

(** The entries of [_SLO_REWARDS], and [absolute_latency], with the ranges of their TTFT and TPOT rewards,
    and the ranges of their documentation where it gives them. *)
Record slo_entry := mkEntry {
  se_function : list Q → list Q → Q → Q → Q → RewardResult Q;
  se_ttft_range : Q * Q;
  se_tpot_range : Q * Q;
  se_documented : option ((Q * Q) * (Q * Q))
}.

Definition slo_entries : list slo_entry := [
  mkEntry calculate_rewards_simple (-5#10, 5#10) (-5#10, 5#10) None;
  mkEntry calculate_rewards_simple_extended (-17#10, 5#10) (-13#10, 5#10) (Some ((-17#10, 5#10), (-13#10, 5#10)));
  mkEntry calculate_rewards_piecewise_linear_steeper_gradient (-17#10, 21#10) (-13#10, 17#10) (Some ((-17#10, 21#10), (-13#10, 17#10)));
  mkEntry calculate_rewards_inverse_latency (-505#495, 1) (-505#495, 1) (Some ((-1, 1), (-1, 1)));
  mkEntry calculate_rewards_latency_optimization (-2, 2) (-15#10, 15#10) (Some ((-2, 2), (-15#10, 15#10)));
  mkEntry calculate_rewards_absolute_latency (-5, 1) (-5, 1) None
].



(** ** Lemmas: rewards of the latency alone *)

Lemma neg_linear_antitone v1 v2 : v1 <= v2 → neg_linear v2 <= neg_linear v1.
Proof.
  intros Hv. cbv [neg_linear lit nlit nopp ndiv Num_Q]. change (1000 # 1) with 1000.
  apply ratio_mono; lra.
Qed.

Lemma neg_squared_antitone v1 v2 : 0 <= v1 → v1 <= v2 → neg_squared v2 <= neg_squared v1.
Proof.
  intros H1 Hv. cbv [neg_squared np_square lit nlit nopp ndiv nmul Num_Q]. change (1000 # 1) with 1000.
  pose proof (ratio_mono 1000 v1 v2 ltac:(lra) Hv). pose proof (ratio_pos 1000 v1 ltac:(lra) H1). nra.
Qed.

Lemma neg_log_antitone {NP : Numpy Q} {NL : NumpyLaws NP} v1 v2 :
  0 <= v1 → v1 <= v2 → neg_log v2 <= neg_log v1.
Proof.
  intros H1 Hv. cbv [neg_log lit nlit nopp nadd Num_Q]. change (1 # 1) with 1.
  pose proof (log_mono (v1 + 1) (v2 + 1) ltac:(lra) ltac:(lra)). lra.
Qed.

Lemma neg_reciprocal_Q v : neg_reciprocal v == - (1000 / Qmax v 1).
Proof.
  cbv [neg_reciprocal lit nlit ndiv Num_Q]. rewrite np_maximum_Q. change (1 # 1) with 1.
  pose proof (Q.le_max_r v 1). field. lra.
Qed.

Lemma neg_reciprocal_mono v1 v2 : v1 <= v2 → neg_reciprocal v1 <= neg_reciprocal v2.
Proof.
  intros Hv. rewrite !neg_reciprocal_Q. pose proof (Q.le_max_r v1 1).
  pose proof (Q.max_le_compat_r v1 v2 1 Hv).
  destruct (reciprocal_antitone 1000 1 (Qmax v1 1 - 1) (Qmax v2 1 - 1)) as [[_ H1] _]; [lra..|].
  assert (E : ∀ x, x - 1 + 1 == x) by (intros; ring). rewrite !E in H1. lra.
Qed.

Lemma neg_reciprocal_strict v1 v2 : 1 <= v1 → v1 < v2 → neg_reciprocal v1 < neg_reciprocal v2.
Proof.
  intros H1 Hv. rewrite !neg_reciprocal_Q, !Q.max_l by lra.
  assert (1000 / v2 < 1000 / v1); [|lra].
  apply Qlt_shift_div_l; [lra|]. assert (1000 / v2 * v2 == 1000) by (field; lra).
  assert (0 < 1000 / v2) by (apply Qlt_shift_div_l; lra). nra.
Qed.

(** ** Lemmas: rewards relative to similar requests *)

Lemma np_clip_Q x lo hi : np_clip x lo hi == Qmin (Qmax x lo) hi.
Proof. unfold np_clip. by rewrite np_minimum_Q, np_maximum_Q. Qed.

Lemma zscore_within {NP : Numpy Q} bucket v : within (-3) 3 (zscore bucket v).
Proof.
  unfold within, zscore. rewrite !np_clip_Q. generalize (if nlt (nlit 1 1000000) (np_std bucket)
    then ndiv (nopp (nsub v (np_mean bucket))) (np_std bucket) else lit 0). intros x.
  change (lit (-3)) with (-3). change (lit 3) with 3.
  pose proof (Q.le_max_r x (-3)). q_min (Qmax x (-3)) 3; lra.
Qed.

Lemma zscore_antitone {NP : Numpy Q} bucket v1 v2 :
  v1 <= v2 → zscore bucket v2 <= zscore bucket v1.
Proof.
  intros Hv. unfold zscore. rewrite !np_clip_Q. apply Q.min_le_compat_r, Q.max_le_compat_r.
  cbv [lit nlit nsub nopp ndiv nlt Num_Q]. destruct (Qle_bool_spec (np_std bucket) (1#1000000)); simpl.
  - apply Qle_refl.
  - apply ratio_mono; lra.
Qed.

Lemma length_bucket_mask {F} {NF : Num F} quantiles i (tokens : list F) :
  length (bucket_mask quantiles i tokens) = length tokens.
Proof. apply length_fmap. Qed.

(** Two rows in the same buckets, the first at least as fast. *)
Definition ordered_rows (i j : nat) (rewards : list Q) : Prop :=
  ∃ ri rj, rewards !! i = Some ri ∧ rewards !! j = Some rj ∧ rj <= ri.

Lemma zscore_bucket_spec {NP : Numpy Q} mask vals rewards i j vi vj :
  length mask = length rewards → length vals = length rewards →
  vals !! i = Some vi → vals !! j = Some vj → vi <= vj → mask !! i = mask !! j →
  Forall (within (-3) 3) rewards → ordered_rows i j rewards →
  Forall (within (-3) 3) (zscore_bucket mask vals rewards) ∧
  ordered_rows i j (zscore_bucket mask vals rewards).
Proof.
  intros Hm Hl Hi Hj Hv Hsame Hin (ri & rj & Hri & Hrj & Hle). unfold zscore_bucket.
  destruct (mask_empty mask); [split; [done|by exists ri, rj]|]. split.
  - apply Forall_lookup. intros k x. rewrite np_put_select by done.
    destruct (mask !! k) as [[]|]; try (intros Hk; by eapply Forall_lookup).
    intros (v & _ & ->)%fmap_Some_1. apply zscore_within.
  - unfold ordered_rows. rewrite !np_put_select, Hsame, Hi, Hj, Hri, Hrj by done.
    destruct (mask !! j) as [[]|]; simpl; [|by eauto..].
    eexists _, _. split_and!; [done..|]. by apply zscore_antitone.
Qed.

Lemma zscore_rewards_spec {NP : Numpy Q} tokens vals i j vi vj :
  length tokens = length vals → vals !! i = Some vi → vals !! j = Some vj → vi <= vj →
  (∀ b, (b < 3)%nat → bucket_mask (np_percentile tokens [lit 0; lit 33; lit 67; lit 100]) b tokens !! i =
        bucket_mask (np_percentile tokens [lit 0; lit 33; lit 67; lit 100]) b tokens !! j) →
  Forall (within (-3) 3) (zscore_rewards tokens vals) ∧ ordered_rows i j (zscore_rewards tokens vals).
Proof.
  intros Hlen Hi Hj Hv Hsame. unfold zscore_rewards.
  assert (H : ∀ (bs : list nat) (rewards : list Q), Forall (λ b, b < 3)%nat bs → length rewards = length vals → Forall (within (-3) 3) rewards →
    ordered_rows i j rewards →
    let r := foldl (λ rewards b, zscore_bucket (bucket_mask
      (np_percentile tokens [lit 0; lit 33; lit 67; lit 100]) b tokens) vals rewards) rewards bs in
    Forall (within (-3) 3) r ∧ ordered_rows i j r).
  { induction bs as [|b bs IH]; simpl; intros rewards Hbs Hr Hw Ho; [done|].
    apply Forall_cons in Hbs as [Hb Hbs].
    destruct (zscore_bucket_spec (bucket_mask (np_percentile tokens [lit 0; lit 33; lit 67; lit 100]) b
      tokens) vals rewards i j vi vj) as [? ?]; rewrite ?length_bucket_mask; try done; try lia; [by apply Hsame|].
    apply IH; [done| |done..]. unfold zscore_bucket. destruct (mask_empty _); [done|]. by rewrite length_np_put. }
  apply H; [repeat constructor; lia|by rewrite length_fmap|..].
  - apply Forall_fmap, Forall_true. intros. split; discriminate.
  - exists (lit 0), (lit 0). rewrite !list_lookup_fmap, Hi, Hj. simpl. split_and!; [done..|apply Qle_refl].
Qed.

(** The rows of one bucket all have the bucket's baseline. *)
Lemma select_bucket {A B} (f : Q → A → B) (g : Z → A) b (idx : list Z) (vals : list Q) :
  length idx = length vals →
  np_select ((λ i, Z.eqb i b) <$> idx) (zip_with f vals (g <$> idx)) =
  (λ v, f v (g b)) <$> np_select ((λ i, Z.eqb i b) <$> idx) vals.
Proof.
  revert vals. induction idx as [|i idx IH]; intros [|v vals] H; try done. csimpl.
  simpl in H. destruct (Z.eqb_spec i b) as [->|]; csimpl; rewrite IH by lia; done.
Qed.

Lemma Qsum_centered m l :
  Qsum ((λ v, - (v - m) / 1000) <$> l) == - (Qsum l - inject_Z (py_len l) * m) / 1000.
Proof.
  unfold py_len. induction l as [|v l IH]; csimpl.
  - unfold inject_Z. simpl. field.
  - rewrite IH. rewrite Nat2Z.inj_succ. unfold Z.succ. rewrite inject_Z_plus. field.
Qed.


(** ** Properties *)



(** For every reward against an objective, a run that is at least as fast
    on every row (with valid, positive TPOT) is rewarded at least as much on
    every row, in each column, for every non-negative weight. *)
Theorem slo_rewards_antitone (e : slo_entry) (ttft1 ttft2 tpot1 tpot2 : list Q) (ttft_slo tpot_slo w : Q) :
  e ∈ slo_entries → 0 < ttft_slo → 0 < tpot_slo → 0 <= w →
  faster (Qle 0) ttft1 ttft2 → faster (Qlt 0) tpot1 tpot2 →
  rewards_le (se_function e ttft2 tpot2 ttft_slo tpot_slo w) (se_function e ttft1 tpot1 ttft_slo tpot_slo w).
Proof.
  intros He H1 H2 Hw Hv1 Hv2. unfold slo_entries in He.
  repeat (apply elem_of_cons in He as [->|He]); [..|by apply not_elem_of_nil in He]; simpl;
    (apply with_combined_le; [done|eapply fmap_antitone; [|exact Hv1]|eapply fmap_antitone; [|exact Hv2]]);
    intros v1 v2 Hlo Hv.
  all: rewrite ?simple_ttft_hinge, ?simple_tpot_hinge, ?simple_extended_ttft_hinge,
    ?simple_extended_tpot_hinge, ?steeper_ttft_hinge, ?steeper_tpot_hinge, ?optimization_ttft_hinge,
    ?optimization_tpot_hinge by done;
    try (apply hinge_antitone; first [done|lra|(left; lra)|(right; done)]).
  - destruct (inverse_ttft_spec v1 v2); lra.
  - destruct (inverse_tpot_spec v1 v2); lra.
  - by apply absolute_antitone.
  - by apply absolute_antitone.
Qed.

Lemma slo_rewards_antitone_witness :
  rewards_le (calculate_rewards_simple [1500; 700] [60; 80] 1000 50 2)
             (calculate_rewards_simple [900; 700] [10; 70] 1000 50 2).
Proof.
  apply (slo_rewards_antitone (mkEntry calculate_rewards_simple (-5#10, 5#10) (-5#10, 5#10) None)).
  - left.
  - reflexivity.
  - reflexivity.
  - discriminate.
  - repeat constructor; discriminate.
  - repeat constructor; first [reflexivity|discriminate].
Defined.

(** The rewards [simple_latency_minimization], [negative_linear] and
    [negative_squared] prefer low latency: a run at least as fast on every row is
    rewarded at least as much on every row. *)
Theorem latency_rewards_antitone (NP : Numpy Q) (NL : NumpyLaws NP)
    (f : list Q → list Q → Q → RewardResult Q) (ttft1 ttft2 tpot1 tpot2 : list Q) (w : Q) :
  f ∈ [calculate_rewards_simple_latency_minimization; calculate_rewards_negative_linear;
       calculate_rewards_negative_squared] →
  0 <= w → faster (Qle 0) ttft1 ttft2 → faster (Qle 0) tpot1 tpot2 →
  rewards_le (f ttft2 tpot2 w) (f ttft1 tpot1 w).
Proof.
  intros Hf Hw H1 H2.
  repeat (apply elem_of_cons in Hf as [->|Hf]); [..|by apply not_elem_of_nil in Hf];
    (apply with_combined_le; [done|eapply fmap_antitone; [|done]..]); intros v1 v2 Hlo Hv.
  1,2: by apply neg_log_antitone.
  1,2: by apply neg_linear_antitone.
  all: by apply neg_squared_antitone.
Qed.

Lemma latency_rewards_antitone_witness :
  rewards_le (@calculate_rewards_simple_latency_minimization Q _ demo_numpy [500; 80] [30; 40] (7#10))
             (@calculate_rewards_simple_latency_minimization Q _ demo_numpy [100; 80] [20; 40] (7#10)).
Proof.
  apply (latency_rewards_antitone demo_numpy demo_numpy_laws).
  - left.
  - discriminate.
  - repeat constructor; discriminate.
  - repeat constructor; discriminate.
Defined.

(** [negative_reciprocal] rewards slowness. Between latencies of at least
    one millisecond the slower one has the strictly higher reward, and a run
    slower on every row is rewarded at least as much in every column. *)
Theorem negative_reciprocal_rewards_slowness (ttft1 ttft2 tpot1 tpot2 : list Q) (v1 v2 w : Q) :
  0 <= w → faster (Qle 0) ttft1 ttft2 → faster (Qle 0) tpot1 tpot2 → 1 <= v1 → v1 < v2 →
  rewards_le (calculate_rewards_negative_reciprocal ttft1 tpot1 w)
             (calculate_rewards_negative_reciprocal ttft2 tpot2 w) ∧
  neg_reciprocal v1 < neg_reciprocal v2.
Proof.
  intros Hw H1 H2 Hv1 Hv2. split; [|by apply neg_reciprocal_strict].
  apply with_combined_le; [done|..].
  - by eapply fmap_monotone; [intros; apply neg_reciprocal_mono|].
  - by eapply fmap_monotone; [intros; apply neg_reciprocal_mono|].
Qed.

Lemma negative_reciprocal_rewards_slowness_witness :
  rewards_le (calculate_rewards_negative_reciprocal [100] [20] (7#10))
             (calculate_rewards_negative_reciprocal [5000] [20] (7#10)) ∧
  neg_reciprocal 100 < neg_reciprocal 5000.
Proof.
  apply (negative_reciprocal_rewards_slowness [100] [5000] [20] [20] 100 5000 (7#10));
    [discriminate|repeat constructor; discriminate|repeat constructor; discriminate|discriminate|reflexivity].
Defined.

(** The context-aware reward does not always prefer to meet its objective:
    when the expected latency is small against the objective, missing it by a
    little is rewarded more than just meeting it. *)
Theorem context_aware_prefers_violation (base_slo : Q) (c : context Q) (v : Q) :
  let slo := adaptive_ttft_slo base_slo c in
  1 <= slo → slo < v → 2 * v + 3 * expected_ttft c < 3 * slo →
  context_ttft base_slo c slo < context_ttft base_slo c v.
Proof.
  intros slo H1 Hv Hlin. unfold context_ttft, ttft_efficiency. fold slo.
  set (e := expected_ttft c) in *.
  cbv [np_where lit nlit nadd nsub nmul ndiv nopp nle nlt Num_Q].
  change (0 # 1) with 0. change (1 # 1) with 1. change (3 # 1) with 3.
  destruct (Qle_bool_spec slo 0); [lra|]. destruct (Qle_bool_spec slo slo); [|lra].
  destruct (Qle_bool_spec v 0); [lra|]. destruct (Qle_bool_spec v slo); [lra|]. cbn [negb].
  rewrite np_maximum_Q, np_minimum_Q, Q.max_l by lra.
  pose proof (Q.le_min_r 3 ((v - slo) / slo)).
  assert ((v - slo) / slo * slo == v - slo) by (field; lra).
  assert (e / slo * slo == e) by (field; lra).
  assert ((v - slo) / slo + (15#10) * (e / slo) < (5#10)); [|lra].
  apply Qnot_le_lt. intros Hge. nra.
Qed.

Lemma context_aware_prefers_violation_witness :
  let c := mkContext 50 10 0 in
  context_ttft 1000 c (adaptive_ttft_slo 1000 c) < context_ttft 1000 c 1200.
Proof.
  intros c. apply (context_aware_prefers_violation 1000 c 1200);
    [vm_compute; discriminate|reflexivity|reflexivity].
Defined.

(** The z-score rewards are between -3 and 3, and among rows of the same
    input-length bucket the faster row is rewarded at least as much. *)
Theorem quantile_rewards_bounded_antitone (NP : Numpy Q) (ttft tpot itok otok : list Q) (w vi vj : Q)
    (i j : nat) :
  length itok = length ttft → ttft !! i = Some vi → ttft !! j = Some vj → vi <= vj →
  (∀ b, (b < 3)%nat → bucket_mask (np_percentile itok [lit 0; lit 33; lit 67; lit 100]) b itok !! i =
        bucket_mask (np_percentile itok [lit 0; lit 33; lit 67; lit 100]) b itok !! j) →
  let r := ttft_rewards (calculate_rewards_quantile_based ttft tpot itok otok w) in
  Forall (within (-3) 3) r ∧ ∃ ri rj, r !! i = Some ri ∧ r !! j = Some rj ∧ rj <= ri.
Proof. intros Hlen Hi Hj Hv Hsame. by apply (zscore_rewards_spec itok ttft i j vi vj). Qed.

Lemma quantile_rewards_bounded_antitone_witness :
  let itok := [10; 20; 3000; 4000] in
  let r := ttft_rewards (@calculate_rewards_quantile_based Q _ demo_numpy
             [5; 7; 600; 900] [1; 1; 1; 1] itok [1; 1; 1; 1] (7#10)) in
  Forall (within (-3) 3) r ∧ ∃ ri rj, r !! 2%nat = Some ri ∧ r !! 3%nat = Some rj ∧ rj <= ri.
Proof.
  apply (quantile_rewards_bounded_antitone demo_numpy [5; 7; 600; 900] [1; 1; 1; 1] [10; 20; 3000; 4000]
    [1; 1; 1; 1] (7#10) 600 900 2 3); [reflexivity..|discriminate|].
  intros [|[|[|b]]] Hb; [reflexivity..|lia].
Defined.

(** The advantage rewards are centered: over the rows of each input-length
    bucket they sum to zero, and the difference of two rewards of one bucket is
    the difference of their latencies over 1000, so the baseline of a bucket
    favours no row. *)
Theorem quantile_advantage_centered (NP : Numpy Q) (NL : NumpyLaws NP) (latency itok : list Q)
    (num_buckets b : Z) :
  length itok = length latency →
  let n := Z.max 1 (Z.min num_buckets (py_len itok)) in
  let mask := (λ i, Z.eqb i b) <$> bucket_index itok n in
  let r := combined_rewards (calculate_rewards_quantile_advantage latency itok num_buckets) in
  (0 <= b < n)%Z →
  Qsum (np_select mask r) == 0 ∧
  ∃ baseline, np_select mask r = (λ v, - (v - baseline) / 1000) <$> np_select mask latency.
Proof.
  intros Hlen n mask r Hb.
  assert (Hidx : length (bucket_index itok n) = length latency).
  { unfold bucket_index. by rewrite length_fmap, digitize_length. }
  set (baseline := bucket_mean (bucket_index itok n) latency b).
  assert (Hsel : np_select mask r = (λ v, - (v - baseline) / 1000) <$> np_select mask latency).
  { unfold r, mask, calculate_rewards_quantile_advantage. cbn [combined_rewards]. fold n.
    rewrite select_bucket by done. apply list_fmap_ext. intros _ v _. rewrite list_lookup_fmap, lookup_seq_lt by lia.
    simpl. by rewrite Z2Nat.id by lia. }
  split; [|by exists baseline]. rewrite Hsel, Qsum_centered.
  destruct (np_select mask latency) as [|v l] eqn:Hl; [reflexivity|].
  assert (E : baseline * inject_Z (py_len (v :: l)) == Qsum (v :: l)).
  { unfold baseline, bucket_mean. fold mask. rewrite Hl.
    assert (mask_empty mask = false) as ->.
    { clear -Hl. revert latency Hl. induction mask as [|[] mask' IH]; intros [|x xs] Hl; try done.
      simpl in Hl. by apply (IH xs). }
    by apply mean_sum. }
  rewrite <-E. field.
Qed.

Lemma quantile_advantage_centered_witness :
  let itok := [10; 20; 3000; 4000] in
  let mask := (λ i, Z.eqb i 1) <$> @bucket_index Q _ demo_numpy itok 2 in
  let r := combined_rewards (@calculate_rewards_quantile_advantage Q _ demo_numpy [5; 7; 600; 900] itok 2) in
  np_select mask [5; 7; 600; 900] = [600; 900] ∧
  Qsum (np_select mask r) == 0 ∧
  ∃ baseline, np_select mask r = (λ v, - (v - baseline) / 1000) <$> np_select mask [5; 7; 600; 900].
Proof.
  split; [vm_compute; reflexivity|].
  apply (quantile_advantage_centered demo_numpy demo_numpy_laws [5; 7; 600; 900] [10; 20; 3000; 4000] 2 1);
    [reflexivity|vm_compute; split; [discriminate|reflexivity]].
Defined.
