(* ===== verification/RewardDispatch.v ===== *)
(** * Choosing a reward function

    Models the dispatcher [compute_rewards] of
    [python/routing_agent_service/agent_codes/rewards.py], with its helper
    [_compute_log_normalized], and the reward branch of [preprocess.py] that the
    online trainer runs, which chooses among the same functions by its own chain
    of tests. Hyperparameters are a shared dictionary: both write computed
    percentiles back into it. *)

From S2P Require Import Prelude Num Rewards.

Open Scope py_scope.

(** The columns of the data frame the dispatcher reads. *)
Record frame (F : Type) := mkFrame {
  df_ttft : list F;
  df_avg_tpot : list F;
  df_input_tokens : option (list F);
  df_output_tokens : option (list F)
}.

Arguments mkFrame {F} _ _ _ _.
Arguments df_ttft {F} _.
Arguments df_avg_tpot {F} _.
Arguments df_input_tokens {F} _.
Arguments df_output_tokens {F} _.

(** The columns of [base_data] the online trainer reads. *)
Record base_columns (F : Type) := mkBase {
  bd_ttft : list F;
  bd_avg_tpot : list F;
  bd_e2e_latency : list F;
  bd_input_tokens : list F;
  bd_output_tokens : list F;
  bd_selected_pod : list string;
  bd_columns : gmap string (list F)
}.

Arguments mkBase {F} _ _ _ _ _ _ _.
Arguments bd_ttft {F} _.
Arguments bd_avg_tpot {F} _.
Arguments bd_e2e_latency {F} _.
Arguments bd_input_tokens {F} _.
Arguments bd_output_tokens {F} _.
Arguments bd_selected_pod {F} _.
Arguments bd_columns {F} _.

Section dispatch.
Context {F : Type} {NF : Num F} {NP : Numpy F}.

Abbreviation hyper := (gmap string F).

Definition hp_get (key : string) : M hyper F := λ hp,
  match hp !! key with Some v => (Ret v, hp) | None => (Raise KeyError, hp) end.

Definition hp_set (key : string) (v : F) : M hyper unit := modify (insert key v).

Definition slo_rewards : list (string * (list F → list F → F → F → F → RewardResult F)) := [
  ("linear_simple"%string, calculate_rewards_simple);
  ("linear_simple_extended"%string, calculate_rewards_simple_extended);
  ("piecewise_linear_steeper_gradient"%string, calculate_rewards_piecewise_linear_steeper_gradient);
  ("inverse_latency"%string, calculate_rewards_inverse_latency);
  ("latency_optimized"%string, calculate_rewards_latency_optimization)
].

Definition latency_rewards : list (string * (list F → list F → F → RewardResult F)) := [
  ("simple_latency_minimization"%string, calculate_rewards_simple_latency_minimization);
  ("negative_reciprocal"%string, calculate_rewards_negative_reciprocal);
  ("negative_linear"%string, calculate_rewards_negative_linear);
  ("negative_squared"%string, calculate_rewards_negative_squared)
].

Definition special_rewards : list string :=
  ["quantile_based"; "throughput_based"; "absolute_latency"; "log_normalized"; "quantile_advantage";
   "context_aware"].

Definition known_reward_functions : list string :=
  (slo_rewards.*1 ++ latency_rewards.*1 ++ special_rewards).

Definition has_nan (l : list F) : bool := existsb nisnan l.

Definition compute_log_normalized (df : frame F) (ttft_weight : F) : M hyper (RewardResult F) :=
  let* hp := get in
  let* p99s :=
    match hp !! "TTFT_P99"%string, hp !! "TPOT_P99"%string with
    | Some t, Some p => ret (t, p)
    | _, _ =>
      let t := pd_quantile (df_ttft df) (nlit 99 100) in
      let p := pd_quantile (df_avg_tpot df) (nlit 99 100) in
      hp_set "TTFT_P99" t ;; hp_set "TPOT_P99" p ;; ret (t, p)
    end in
  let ttft_p99 := p99s.1 in
  let* tpot_p99 :=
    if nle p99s.2 (lit 0) then hp_set "TPOT_P99" (lit 1) ;; ret (lit 1) else ret p99s.2 in
  if nle ttft_p99 (lit 0) then raise ValueError
  else
    let r := calculate_rewards_log_normalized (df_ttft df) (df_avg_tpot df) ttft_p99 tpot_p99 ttft_weight in
    if has_nan (ttft_rewards r) || has_nan (tpot_rewards r) || has_nan (combined_rewards r)
    then raise ValueError
    else ret r.

Definition compute_rewards (reward_function : string) (df : frame F) : M hyper (RewardResult F) :=
  let ttft := df_ttft df in
  let tpot := df_avg_tpot df in
  let* ttft_slo := hp_get "TTFT_SLO" in
  let* avg_tpot_slo := hp_get "AVG_TPOT_SLO" in
  let* ttft_weight := hp_get "TTFT_REWARD_WEIGHT" in
  match assoc reward_function slo_rewards with
  | Some f => ret (f ttft tpot ttft_slo avg_tpot_slo ttft_weight)
  | None =>
  match assoc reward_function latency_rewards with
  | Some f => ret (f ttft tpot ttft_weight)
  | None =>
    if decide (reward_function = "quantile_based"%string) then
      match df_input_tokens df, df_output_tokens df with
      | Some i, Some o => ret (calculate_rewards_quantile_based ttft tpot i o ttft_weight)
      | _, _ => ret (calculate_rewards_latency_optimization ttft tpot ttft_slo avg_tpot_slo ttft_weight)
      end
    else if decide (reward_function = "throughput_based"%string) then
      match df_input_tokens df with
      | Some i => ret (calculate_rewards_throughput_based ttft tpot i ttft_weight)
      | None => ret (calculate_rewards_simple_latency_minimization ttft tpot ttft_weight)
      end
    else if decide (reward_function = "absolute_latency"%string) then
      let* hp := get in
      ret (calculate_rewards_absolute_latency ttft tpot
             (default (lit 15000) (hp !! "TTFT_SLO"%string))
             (default (lit 100) (hp !! "AVG_TPOT_SLO"%string)) ttft_weight)
    else if decide (reward_function = "quantile_advantage"%string) then
      match df_input_tokens df with
      | Some i => ret (calculate_rewards_quantile_advantage ttft i 5)
      | None => ret (calculate_rewards_negative_linear ttft tpot ttft_weight)
      end
    else if decide (reward_function = "context_aware"%string) then
      ret (calculate_rewards_latency_optimization ttft tpot ttft_slo avg_tpot_slo ttft_weight)
    else if decide (reward_function = "log_normalized"%string) then
      compute_log_normalized df ttft_weight
    else raise ValueError
  end
  end.

(** ** The online trainer's choice *)

(** Row [i]'s hit ratio: the selected pod's column over 100, zero without one. *)
Definition selected_hit_ratio (columns : gmap string (list F)) (n i : nat) (pod : string) : outcome F :=
  let column := default (replicate n (lit 0)) (columns !! (pod +:+ "-kv_hit_ratio")) in
  obind (py_index column (Z.of_nat i)) (λ h, Ret (ndiv h (lit 100))).

(** The [log_normalized] branch. *)
Definition online_log_normalized (bd : base_columns F) (ttft_weight : F) : M hyper (RewardResult F) :=
  let* hp := get in
  let* p99s :=
    match hp !! "TTFT_P99"%string, hp !! "TPOT_P99"%string with
    | Some t, Some p => ret (t, p)
    | _, _ =>
      let t := np_percentile1 (bd_ttft bd) (lit 99) in
      let p := np_percentile1 (bd_avg_tpot bd) (lit 99) in
      hp_set "TTFT_P99" t ;; hp_set "TPOT_P99" p ;; ret (t, p)
    end in
  let ttft_p99 := p99s.1 in
  let* tpot_p99 :=
    if nle p99s.2 (lit 0) then hp_set "TPOT_P99" (lit 1) ;; ret (lit 1) else ret p99s.2 in
  if nle ttft_p99 (lit 0) then raise ValueError
  else ret (calculate_rewards_log_normalized (bd_ttft bd) (bd_avg_tpot bd) ttft_p99 tpot_p99 ttft_weight).

(** The end-to-end branch. *)
Definition online_e2e (reward_function : string) (num_buckets : option Z) (ttft_slo : F)
    (bd : base_columns F) : M hyper (RewardResult F) :=
  let e2e := bd_e2e_latency bd in
  let* hp := get in
  let* p99 :=
    match hp !! "E2E_P99"%string with
    | Some p => ret p
    | None => let p := np_percentile1 e2e (lit 99) in hp_set "E2E_P99" p ;; ret p
    end in
  ret (calculate_rewards_e2e e2e reward_function
         (mkE2E (Some p99) (hp !! "E2E_SLO"%string) (Some ttft_slo) (Some (bd_input_tokens bd))
                (Some (bd_output_tokens bd)) (Some (default 20%Z num_buckets)))).

Definition online_chain (reward_function : string) (num_buckets : option Z)
    (ttft_slo avg_tpot_slo w : F) (bd : base_columns F) : M hyper (RewardResult F) :=
  let ttft := bd_ttft bd in
  let tpot := bd_avg_tpot bd in
  if decide (reward_function = "linear_simple"%string) then
    ret (calculate_rewards_simple ttft tpot ttft_slo avg_tpot_slo w)
  else if decide (reward_function = "linear_simple_extended"%string) then
    ret (calculate_rewards_simple_extended ttft tpot ttft_slo avg_tpot_slo w)
  else if decide (reward_function = "piecewise_linear_steeper_gradient"%string) then
    ret (calculate_rewards_piecewise_linear_steeper_gradient ttft tpot ttft_slo avg_tpot_slo w)
  else if decide (reward_function = "latency_optimized"%string) then
    ret (calculate_rewards_latency_optimization ttft tpot ttft_slo avg_tpot_slo w)
  else if decide (reward_function = "inverse_latency"%string) then
    ret (calculate_rewards_inverse_latency ttft tpot ttft_slo avg_tpot_slo w)
  else if decide (reward_function = "simple_latency_minimization"%string) then
    ret (calculate_rewards_simple_latency_minimization ttft tpot w)
  else if decide (reward_function = "negative_reciprocal"%string) then
    ret (calculate_rewards_negative_reciprocal ttft tpot w)
  else if decide (reward_function = "negative_linear"%string) then
    ret (calculate_rewards_negative_linear ttft tpot w)
  else if decide (reward_function = "negative_linear_and_prefix_locality"%string) then
    let* hp := get in
    lift (calculate_rewards_negative_linear_and_prefix_locality ttft tpot w (bd_selected_pod bd)
            (bd_columns bd) (hp !! "PREFIX_LOCALITY_WEIGHT"%string))
  else if decide (reward_function = "negative_squared"%string) then
    ret (calculate_rewards_negative_squared ttft tpot w)
  else if decide (reward_function = "quantile_based"%string) then
    ret (calculate_rewards_quantile_based ttft tpot (bd_input_tokens bd) (bd_output_tokens bd) w)
  else if decide (reward_function = "absolute_latency"%string) then
    ret (calculate_rewards_absolute_latency ttft tpot ttft_slo avg_tpot_slo w)
  else if decide (reward_function = "throughput_based"%string) then
    ret (calculate_rewards_throughput_based ttft tpot (bd_input_tokens bd) w)
  else if decide (reward_function = "log_normalized"%string) then online_log_normalized bd w
  else if decide (reward_function = "quantile_advantage"%string) then
    ret (calculate_rewards_quantile_advantage ttft (bd_input_tokens bd) (default 20%Z num_buckets))
  else if decide (reward_function = "context_aware"%string) then
    let* ratios := lift (omapM (λ '(i, pod), selected_hit_ratio (bd_columns bd)
                      (length (bd_selected_pod bd)) i pod) (imap pair (bd_selected_pod bd))) in
    ret (ctx_rewards (calculate_rewards_context_aware ttft tpot
           (zip_with (λ '(i, o) k, mkContext i o k)
              (zip (bd_input_tokens bd) (bd_output_tokens bd)) ratios)
           ttft_slo avg_tpot_slo w))
  else raise AssertionError.

(** The columns the online trainer adds: the two objective flags and the
    rewards. [latency_metric] is [hyperparameters.get('LATENCY_METRIC')]; nothing
    is added when a required hyperparameter is missing. *)
Definition online_rewards (reward_function : string) (latency_metric : option string)
    (num_buckets : option Z) (bd : base_columns F) :
    M hyper (option (list bool * list bool * RewardResult F)) :=
  let* hp := get in
  match hp !! "TTFT_SLO"%string, hp !! "AVG_TPOT_SLO"%string, hp !! "TTFT_REWARD_WEIGHT"%string with
  | Some ttft_slo, Some avg_tpot_slo, Some w =>
    let* reward :=
      if decide (default "ttft"%string latency_metric = "e2e_latency"%string)
      then online_e2e reward_function num_buckets ttft_slo bd
      else online_chain reward_function num_buckets ttft_slo avg_tpot_slo w bd in
    ret (Some ((λ v, nle v avg_tpot_slo) <$> bd_avg_tpot bd, (λ v, nle v ttft_slo) <$> bd_ttft bd, reward))
  | _, _, _ => ret None
  end.

End dispatch.

(** ** Specification *)

(** The data frame the offline tools read for the rows the trainer has. *)
Definition frame_of {F} (bd : base_columns F) : frame F :=
  mkFrame (bd_ttft bd) (bd_avg_tpot bd) (Some (bd_input_tokens bd)) (Some (bd_output_tokens bd)).

(** The names both dispatchers compute in the same way. *)
Definition shared_names : list string :=
  ["linear_simple"; "linear_simple_extended"; "piecewise_linear_steeper_gradient"; "inverse_latency";
   "latency_optimized"; "simple_latency_minimization"; "negative_reciprocal"; "negative_linear";
   "negative_squared"; "quantile_based"; "throughput_based"; "absolute_latency"].

(** The hyperparameters every reward needs. *)
Definition has_keys {F} (hp : gmap string F) (ttft_slo avg_tpot_slo w : F) : Prop :=
  hp !! "TTFT_SLO"%string = Some ttft_slo ∧ hp !! "AVG_TPOT_SLO"%string = Some avg_tpot_slo ∧
  hp !! "TTFT_REWARD_WEIGHT"%string = Some w.

(** ** Lemmas *)

(** Membership in a concrete list of names, one goal per name. *)
Ltac each_name H :=
  repeat (apply elem_of_cons in H as [->|H]); [..|by apply not_elem_of_nil in H].

Section dispatch_lemmas.
Context {F : Type} {NF : Num F} {NP : Numpy F}.

(** After the three lookups. *)
Lemma compute_rewards_keys f (df : frame F) (hp : gmap string F) ttft_slo avg_tpot_slo w :
  has_keys hp ttft_slo avg_tpot_slo w → f ∉ known_reward_functions (F:=F) →
  compute_rewards f df hp = (Raise ValueError, hp).
Proof.
  intros (H1 & H2 & H3) Hf. unfold known_reward_functions in Hf. rewrite !elem_of_app in Hf.
  assert (Hs : f ∉ special_rewards) by tauto. unfold special_rewards in Hs.
  unfold compute_rewards, hp_get. rewrite !assoc_None by tauto.
  py_unfold. rewrite H1. simpl. rewrite H2. simpl. rewrite H3. simpl.
  by repeat (rewrite decide_False by set_solver).
Qed.

(** Once both percentiles are there, the branch reads them and writes nothing. *)
Lemma log_normalized_stable (df : frame F) (w t p : F) hp :
  hp !! "TTFT_P99"%string = Some t → hp !! "TPOT_P99"%string = Some p → nle p (lit 0) = false →
  (compute_log_normalized df w hp).2 = hp.
Proof.
  intros Ht Hp Hpos. unfold compute_log_normalized. py_unfold. rewrite Ht, Hp. simpl. rewrite Hpos. simpl.
  destruct (nle t (lit 0)); [done|]. by destruct (_ || _).
Qed.

(** The second half of the branch, from resolved percentiles. *)
Lemma log_normalized_tail (df : frame F) (w t p : F) (hp hp' : gmap string F) r :
  nle (lit 1) (lit 0 : F) = false →
  hp !! "TTFT_P99"%string = Some t → hp !! "TPOT_P99"%string = Some p →
  (let* tpot_p99 := if nle p (lit 0) then hp_set "TPOT_P99" (lit 1) ;; ret (lit 1) else ret p in
   if nle t (lit 0) then raise ValueError
   else
     let r := calculate_rewards_log_normalized (df_ttft df) (df_avg_tpot df) t tpot_p99 w in
     if has_nan (ttft_rewards r) || has_nan (tpot_rewards r) || has_nan (combined_rewards r)
     then raise ValueError else ret r) hp = (Ret r, hp') →
  has_nan (ttft_rewards r) = false ∧ has_nan (tpot_rewards r) = false ∧
  has_nan (combined_rewards r) = false ∧
  ∃ p', hp' !! "TTFT_P99"%string = Some t ∧ hp' !! "TPOT_P99"%string = Some p' ∧
    nle p' (lit 0) = false ∧
    r = calculate_rewards_log_normalized (df_ttft df) (df_avg_tpot df) t p' w.
Proof.
  intros H10 Ht Hp. unfold hp_set, bind, ret, raise, modify. destruct (nle p (lit 0)) eqn:Hpos.
  all: destruct (nle t (lit 0)); [done|].
  all: destruct (_ || _) eqn:Hnan; [done|]; intros; simplify_eq.
  all: apply orb_false_iff in Hnan as [[? ?]%orb_false_iff ?]; split_and!; try done.
  - exists (lit 1). by rewrite lookup_insert_ne, lookup_insert_eq.
  - by exists p.
Qed.

End dispatch_lemmas.

(** ** Properties *)

(** The two dispatchers agree. For twelve of the reward functions, over any
    numbers, the offline dispatcher and the online trainer's own chain return
    the same rewards for the same rows and leave the hyperparameters alone. *)
Theorem dispatchers_agree (F : Type) (NF : Num F) (NP : Numpy F) (f : string) (nb : option Z)
    (bd : base_columns F) (hp : gmap string F) (ttft_slo avg_tpot_slo w : F) :
  f ∈ shared_names → has_keys hp ttft_slo avg_tpot_slo w →
  ∃ flags1 flags2 r,
    online_rewards f None nb bd hp = (Ret (Some (flags1, flags2, r)), hp) ∧
    compute_rewards f (frame_of bd) hp = (Ret r, hp).
Proof.
  intros Hf (H1 & H2 & H3). unfold online_rewards, compute_rewards, hp_get. py_unfold.
  rewrite H1, H2, H3.
  each_name Hf; (eexists _, _, _; split; [reflexivity|]); simpl; py_unfold; rewrite ?H1, ?H2; reflexivity.
Qed.

(** Objectives of one second and fifty milliseconds, weight 0.7. *)
Definition demo_hyper : gmap string Q :=
  <["TTFT_SLO"%string := 1000%Q]> (<["AVG_TPOT_SLO"%string := 50%Q]>
    (<["TTFT_REWARD_WEIGHT"%string := (7#10)%Q]> ∅)).

Definition demo_base : base_columns Q :=
  mkBase [100; 900]%Q [20; 30]%Q [500; 2000]%Q [10; 40]%Q [5; 6]%Q ["a"; "b"]%string ∅.

Lemma demo_keys : has_keys demo_hyper 1000%Q 50%Q (7#10)%Q.
Proof. by split_and!. Qed.

Lemma dispatchers_agree_witness :
  ∃ flags1 flags2 r,
    @online_rewards Q _ demo_numpy "throughput_based" None None demo_base demo_hyper =
      (Ret (Some (flags1, flags2, r)), demo_hyper) ∧
    @compute_rewards Q _ demo_numpy "throughput_based" (frame_of demo_base) demo_hyper = (Ret r, demo_hyper).
Proof.
  apply (dispatchers_agree Q _ demo_numpy "throughput_based" None demo_base demo_hyper 1000 50 (7#10));
    [by apply (bool_decide_unpack _)|apply demo_keys].
Defined.

(** The offline dispatcher accepts exactly its known names: for any of them
    but [log_normalized] it returns rewards and leaves the hyperparameters
    unchanged, whatever optional columns are missing; any other name raises
    [ValueError]. The online trainer's [negative_linear_and_prefix_locality] is
    such a name. *)
Theorem compute_rewards_accepts_known (F : Type) (NF : Num F) (NP : Numpy F) (f : string) (df : frame F)
    (hp : gmap string F) (ttft_slo avg_tpot_slo w : F) :
  has_keys hp ttft_slo avg_tpot_slo w → f ≠ "log_normalized"%string →
  (f ∈ known_reward_functions (F:=F) → ∃ r, compute_rewards f df hp = (Ret r, hp)) ∧
  (f ∉ known_reward_functions (F:=F) → compute_rewards f df hp = (Raise ValueError, hp)) ∧
  "negative_linear_and_prefix_locality"%string ∉ known_reward_functions (F:=F).
Proof.
  intros Hkeys Hne. split_and!.
  - destruct Hkeys as (H1 & H2 & H3). unfold compute_rewards, hp_get.
    intros Hf. unfold known_reward_functions in Hf. rewrite !elem_of_app in Hf.
    destruct Hf as [Hf|[Hf|Hf]].
    + apply assoc_Some in Hf as [g ->]. py_unfold. rewrite H1, H2, H3. by eexists.
    + apply assoc_Some in Hf as [g ->].
      destruct (assoc f slo_rewards) as [g'|]; py_unfold; rewrite H1, H2, H3; by eexists.
    + unfold special_rewards in Hf. each_name Hf; try done; py_unfold; rewrite H1, H2, H3; py_unfold;
        destruct (df_input_tokens df), (df_output_tokens df); by eexists.
  - intros Hf. by eapply compute_rewards_keys.
  - by apply (bool_decide_unpack _).
Qed.

Lemma compute_rewards_accepts_known_witness :
  (∃ r, @compute_rewards Q _ demo_numpy "context_aware" (frame_of demo_base) demo_hyper = (Ret r, demo_hyper)).
Proof.
  apply (compute_rewards_accepts_known Q _ demo_numpy "context_aware" (frame_of demo_base) demo_hyper
    1000 50 (7#10)); [apply demo_keys|discriminate|by apply (bool_decide_unpack _)].
Defined.

(** The normalized-log branch returns only rewards without NaN, computed
    with the two percentiles it leaves in the hyperparameters; later batches then
    reuse exactly those percentiles and change nothing. *)
Theorem log_normalized_guarded (F : Type) (NF : Num F) (NP : Numpy F) (df df2 : frame F)
    (hp hp' : gmap string F) (w : F) (r : RewardResult F) :
  nle (lit 1) (lit 0 : F) = false →
  compute_log_normalized df w hp = (Ret r, hp') →
  has_nan (ttft_rewards r) = false ∧ has_nan (tpot_rewards r) = false ∧
  has_nan (combined_rewards r) = false ∧
  ∃ t p, hp' !! "TTFT_P99"%string = Some t ∧ hp' !! "TPOT_P99"%string = Some p ∧
    r = calculate_rewards_log_normalized (df_ttft df) (df_avg_tpot df) t p w ∧
    (compute_log_normalized df2 w hp').2 = hp'.
Proof.
  intros H10 Hrun. unfold compute_log_normalized in Hrun. unfold bind at 1, get in Hrun.
  assert (Hres : has_nan (ttft_rewards r) = false ∧ has_nan (tpot_rewards r) = false ∧
    has_nan (combined_rewards r) = false ∧
    ∃ t p, hp' !! "TTFT_P99"%string = Some t ∧ hp' !! "TPOT_P99"%string = Some p ∧
      nle p (lit 0) = false ∧
      r = calculate_rewards_log_normalized (df_ttft df) (df_avg_tpot df) t p w).
  { destruct (hp !! "TTFT_P99"%string) as [t|] eqn:Ht; [destruct (hp !! "TPOT_P99"%string) as [p|] eqn:Hp|].
    1: destruct (log_normalized_tail df w t p hp hp' r H10) as (? & ? & ? & ? & ?); eauto 10.
    all: destruct (log_normalized_tail df w (pd_quantile (df_ttft df) (nlit 99 100))
        (pd_quantile (df_avg_tpot df) (nlit 99 100))
        (<["TPOT_P99"%string := pd_quantile (df_avg_tpot df) (nlit 99 100)]>
          (<["TTFT_P99"%string := pd_quantile (df_ttft df) (nlit 99 100)]> hp)) hp' r H10)
      as (? & ? & ? & ? & ?);
      [by rewrite lookup_insert_ne, lookup_insert_eq|by rewrite lookup_insert_eq|exact Hrun|eauto 10]. }
  destruct Hres as (? & ? & ? & t & p & ? & ? & ? & ->). split_and!; [done..|].
  exists t, p. split_and!; try done. by eapply log_normalized_stable.
Qed.

Lemma log_normalized_guarded_witness :
  let df := mkFrame [0; 50; 120]%Q [0; 0; 0]%Q None None in
  ∃ r hp', @compute_log_normalized Q _ demo_numpy df (7#10)%Q demo_hyper = (Ret r, hp') ∧
    has_nan (ttft_rewards r) = false ∧
    (@compute_log_normalized Q _ demo_numpy (frame_of demo_base) (7#10)%Q hp').2 = hp'.
Proof.
  intros df.
  destruct (@compute_log_normalized Q _ demo_numpy df (7#10)%Q demo_hyper) as [o hp'] eqn:E.
  assert (E' : ∃ r, o = Ret r) by (apply (f_equal fst) in E; vm_compute in E; subst o; by eexists).
  destruct E' as [r ->]. exists r, hp'. split; [reflexivity|].
  destruct (log_normalized_guarded Q Num_Q demo_numpy df (frame_of demo_base) demo_hyper hp' (7#10)%Q r
    ltac:(reflexivity) E) as (? & _ & _ & t & p & _ & _ & _ & ?). by split.
Defined.
