(* ===== verification/PrefixGroup.v ===== *)
(** * Prefix groups and their candidate pods

    Models [PrefixGroupManager] and [_select_candidate_pods] of
    [python/routing_agent_service/agent_codes/routing_agent_service.py]: the
    deterministic choice of K pods for a prefix group by salted hashes with
    linear probing, and the controller that changes K for the groups that
    dominate the recent traffic. Python's hash of a pair is an argument, and the
    theorems hold for every function. *)

From S2P Require Import Prelude Num.

Open Scope Z_scope.
Open Scope py_scope.

Abbreviation pod_id := string.

Section candidates.
Variable tuple_hash : Z → Z → Z.   (* [hash((i, prefix_hash))] *)

(** [while h in selected: h = (h + 1) % n] *)
Fixpoint probe (fuel : nat) (n : Z) (selected : list Z) (h : Z) : outcome Z :=
  if bool_decide (h ∈ selected) then
    match fuel with
    | O => OutOfFuel
    | S fuel' => probe fuel' n selected ((h + 1) mod n)
    end
  else Ret h.

(** The loop over [i]: [todo] iterations from [i], with the indices selected so
    far (latest first) and the pods chosen so far. *)
Fixpoint select_loop (todo : nat) (i : Z) (ph : Z) (all_pod_ids : list pod_id)
    (selected : list Z) (chosen : list pod_id) : outcome (list pod_id) :=
  match todo with
  | O => Ret chosen
  | S todo' =>
    let n := py_len all_pod_ids in
    try* h := probe (length all_pod_ids) n selected (tuple_hash i ph mod n) in
    try* pod := py_index all_pod_ids h in
    select_loop todo' (i + 1) ph all_pod_ids (h :: selected) (chosen ++ [pod])
  end.

Definition select_candidate_pods (ph : Z) (all_pod_ids : list pod_id) (k : Z) :
    outcome (list pod_id) :=
  select_loop (Z.to_nat (Z.min k (py_len all_pod_ids))) 0 ph all_pod_ids [] [].

(** ** Lemmas: probing *)

Variables (pods : list pod_id) (ph : Z).

Abbreviation n := (py_len pods).

(** Indices of the pod list. *)
Definition index_ok (h : Z) : Prop := 0 ≤ h < n.

(** Some index at a distance below [fuel] is free. *)
Lemma probe_finds fuel selected h :
  index_ok h → (∃ d, (d ≤ fuel)%nat ∧ (h + Z.of_nat d) mod n ∉ selected) →
  ∃ h', probe fuel n selected h = Ret h' ∧ index_ok h' ∧ h' ∉ selected.
Proof.
  revert h. induction fuel as [|fuel IH]; intros h Hh (d & Hd & Hfree); simpl.
  all: case_bool_decide as Hsel; [|by exists h].
  - replace d with 0%nat in Hfree by lia. rewrite Z.add_0_r, Z.mod_small in Hfree by done. done.
  - apply IH; [unfold index_ok in *; apply Z.mod_pos_bound; lia|].
    destruct d as [|d]; [rewrite Z.add_0_r, Z.mod_small in Hfree by done; done|].
    exists d. split; [lia|]. unfold index_ok in Hh. rewrite Z.add_mod_idemp_l by lia.
    by replace (h + 1 + Z.of_nat d) with (h + Z.of_nat (S d)) by lia.
Qed.

(** Fewer selected indices than pods leave a free one. *)
Lemma free_index selected :
  (length selected < length pods)%nat → ∃ x, index_ok x ∧ x ∉ selected.
Proof.
  intros Hlen. unfold index_ok, py_len.
  destruct (decide (Exists (λ x, x ∉ selected) (Z.of_nat <$> seq 0 (length pods)))) as [He|Hn].
  - apply Exists_exists in He as (x & Hx & Hfree). exists x. split; [|done].
    apply list_elem_of_fmap in Hx as (i & -> & Hi%elem_of_seq). lia.
  - exfalso. apply not_Exists_Forall in Hn; [|intros; apply _].
    assert (length (Z.of_nat <$> seq 0 (length pods)) ≤ length selected)%nat; [|rewrite length_fmap, length_seq in *; lia].
    apply submseteq_length, NoDup_submseteq.
    + apply (NoDup_fmap_2 _), NoDup_seq.
    + intros x Hx. rewrite Forall_forall in Hn. specialize (Hn x Hx). simpl in Hn.
      destruct (decide (x ∈ selected)); [done|by destruct Hn].
Qed.

Lemma probe_ok selected h :
  (length selected < length pods)%nat → index_ok h →
  ∃ h', probe (length pods) n selected h = Ret h' ∧ index_ok h' ∧ h' ∉ selected.
Proof.
  intros Hlen Hh. apply probe_finds; [done|]. destruct (free_index selected Hlen) as (x & Hx & Hfree).
  exists (Z.to_nat ((x - h) mod n)). unfold index_ok in *.
  pose proof (Z.mod_pos_bound (x - h) n ltac:(lia)). split; [unfold py_len in *; lia|].
  rewrite Z2Nat.id by lia. rewrite Z.add_mod_idemp_r by lia.
  by replace (h + (x - h)) with x by lia; rewrite Z.mod_small by lia.
Qed.

(** The pods at a list of indices. *)
Definition pods_at (idx : list Z) : list pod_id := omap (λ h, pods !! Z.to_nat h) idx.

(** One iteration chooses the pod at a new index. *)
Lemma select_step i selected chosen :
  (length selected < length pods)%nat →
  ∃ h pod, index_ok h ∧ (h ∉ selected) ∧ pods !! Z.to_nat h = Some pod ∧
    ∀ todo, select_loop (S todo) i ph pods selected chosen =
            select_loop todo (i + 1) ph pods (h :: selected) (chosen ++ [pod]).
Proof.
  intros Hlen. destruct (probe_ok selected (tuple_hash i ph mod (py_len pods)) Hlen) as (h & Hp & Hok & Hnew).
  { apply Z.mod_pos_bound. unfold py_len. lia. }
  destruct (lookup_lt_is_Some_2 pods (Z.to_nat h)) as [pod Hpod]; [unfold index_ok, py_len in Hok; lia|].
  exists h, pod. split_and!; try done. intros todo. simpl. rewrite Hp. simpl.
  by rewrite (py_index_lookup _ _ pod) by (try done; apply Hok).
Qed.

(** New, distinct indices of pods. *)
Definition fresh_indices (selected idx : list Z) : Prop :=
  NoDup idx ∧ Forall index_ok idx ∧ Forall (λ h, h ∉ selected) idx.

Lemma fresh_indices_cons h selected idx :
  index_ok h → h ∉ selected → fresh_indices (h :: selected) idx → fresh_indices selected (h :: idx).
Proof.
  intros Hok Hnew (Hnd & Hfi & Hfs). split_and!.
  - constructor; [|done]. intros Hin. rewrite Forall_forall in Hfs. apply (Hfs h Hin). left.
  - by constructor.
  - constructor; [done|]. eapply Forall_impl; [done|]. set_solver.
Qed.

Lemma pods_at_cons h pod idx : pods !! Z.to_nat h = Some pod → pods_at (h :: idx) = pod :: pods_at idx.
Proof. intros H. unfold pods_at. csimpl. by rewrite H. Qed.

Lemma select_loop_ok t i selected chosen :
  (length selected + t ≤ length pods)%nat →
  ∃ idx, select_loop t i ph pods selected chosen = Ret (chosen ++ pods_at idx) ∧
    length idx = t ∧ fresh_indices selected idx.
Proof.
  revert i selected chosen. induction t as [|t IH]; intros i selected chosen Hlen.
  { exists []. simpl. rewrite app_nil_r. unfold fresh_indices. split_and!; try done; constructor. }
  destruct (select_step i selected chosen) as (h & pod & Hok & Hnew & Hpod & Hloop); [lia|].
  destruct (IH (i + 1) (h :: selected) (chosen ++ [pod])) as (idx & Hr & Hl & Hf); [simpl; lia|].
  exists (h :: idx). rewrite Hloop, Hr, (pods_at_cons h pod) by done.
  rewrite <-app_assoc. split_and!; [done|simpl; by rewrite Hl|by apply fresh_indices_cons].
Qed.

(** More iterations only append more pods. *)
Lemma select_loop_prefix t m i selected chosen :
  (length selected + t + m ≤ length pods)%nat →
  ∃ l1 l2, select_loop t i ph pods selected chosen = Ret l1 ∧
    select_loop (t + m) i ph pods selected chosen = Ret (l1 ++ l2).
Proof.
  revert i selected chosen. induction t as [|t IH]; intros i selected chosen Hlen.
  - destruct (select_loop_ok m i selected chosen) as (idx & Hr & _); [lia|].
    exists chosen, (pods_at idx). by split.
  - destruct (select_step i selected chosen) as (h & pod & Hok & Hnew & Hpod & Hloop); [lia|].
    destruct (IH (i + 1) (h :: selected) (chosen ++ [pod])) as (l1 & l2 & H1 & H2); [simpl; lia|].
    exists l1, l2. rewrite Hloop. split; [done|]. simpl Nat.add. by rewrite Hloop.
Qed.

Lemma pods_at_spec idx :
  Forall index_ok idx → NoDup idx → NoDup pods →
  length (pods_at idx) = length idx ∧ NoDup (pods_at idx) ∧ (∀ p, p ∈ pods_at idx → p ∈ pods).
Proof.
  intros Hok Hnd Hpods. induction Hok as [|h idx Hh Hok IH]; [split_and!; [done|constructor|set_solver]|].
  apply NoDup_cons in Hnd as [Hnew Hnd]. destruct (IH Hnd) as (IHl & IHn & IHm).
  destruct (lookup_lt_is_Some_2 pods (Z.to_nat h)) as [pod Hpod]; [unfold index_ok, py_len in Hh; lia|].
  rewrite (pods_at_cons h pod) by done. split_and!.
  - simpl. lia.
  - constructor; [|done]. intros (h' & Hin & Hp)%list_elem_of_omap.
    rewrite Forall_forall in Hok. specialize (Hok h' Hin).
    assert (Z.to_nat h = Z.to_nat h') by exact (NoDup_lookup _ _ _ _ Hpods Hpod Hp).
    assert (h = h') as <- by (unfold index_ok in *; lia). done.
  - intros p [->|Hin]%elem_of_cons; [by eapply list_elem_of_lookup_2|by apply IHm].
Qed.

End candidates.

(** ** The group manager *)

Record PrefixGroupManager := mkPGM {
  group_k : gmap Z Z;
  ring_buffer : list Z;
  pod_waiting : gmap pod_id Q;
  pod_gpu_kv : gmap pod_id Q;
  all_pod_ids : list pod_id;
  group_cooldown : gmap Z Z;
  num_adjustments : Z
}.

(** The thresholds, from the environment; [default_k] is a constructor argument. *)
Record pgm_config := mkPGMConfig {
  default_k : Z;
  RING_SIZE : nat;
  WAITING_HIGH : Q;
  WAITING_LOW : Q;
  DOMINANT_PCT : Q;
  MIN_K : Z;
  COOLDOWN_PERIODS : Z
}.

Definition new_PrefixGroupManager : PrefixGroupManager := mkPGM ∅ [] ∅ ∅ [] ∅ 0.

(** The arguments stand for the two feature dictionaries: [None] when the
    dictionary is empty, its entry (or an empty one) otherwise. *)
Definition update_pod_states (gpu_kv waiting : option (gmap pod_id Q)) (pods : list pod_id)
    (s : PrefixGroupManager) : PrefixGroupManager :=
  mkPGM (group_k s) (ring_buffer s) (default (pod_waiting s) waiting) (default (pod_gpu_kv s) gpu_kv)
    pods (group_cooldown s) (num_adjustments s).

(** [deque(maxlen=RING_SIZE).append] drops the oldest entries. *)
Definition ring_append (size : nat) (x : Z) (ring : list Z) : list Z :=
  let ring' := ring ++ [x] in drop (length ring' - size) ring'.

Definition record_filtered_request (cfg : pgm_config) (ph : Z) (s : PrefixGroupManager) :
    PrefixGroupManager :=
  if ph =? 0 then s
  else mkPGM (group_k s) (ring_append (RING_SIZE cfg) ph (ring_buffer s)) (pod_waiting s) (pod_gpu_kv s)
         (all_pod_ids s) (group_cooldown s) (num_adjustments s).

Definition ring_count (ph : Z) (ring : list Z) : nat := count_occ Z.eq_dec ring ph.

Definition is_dominant (cfg : pgm_config) (ph : Z) (s : PrefixGroupManager) : bool :=
  if (length (ring_buffer s) <? 10)%nat then false
  else
    let pct := (inject_Z (Z.of_nat (ring_count ph (ring_buffer s)) * 100) /
                inject_Z (py_len (ring_buffer s)))%Q in
    negb (Qle_bool pct (DOMINANT_PCT cfg)).

Definition get_k (cfg : pgm_config) (ph : Z) (s : PrefixGroupManager) : Z :=
  default (default_k cfg) (group_k s !! ph).

(** The distinct elements in the order of their first occurrence, the iteration
    order of [Counter]. *)
Fixpoint distinct (l : list Z) : list Z :=
  match l with
  | [] => []
  | x :: l' => x :: base.filter (λ y, y ≠ x) (distinct l')
  end.

Definition dominant_groups (cfg : pgm_config) (ring : list Z) : list Z :=
  let threshold_count := (inject_Z (py_len ring) * DOMINANT_PCT cfg / 100)%Q in
  base.filter (λ h, Qle_bool (inject_Z (Z.of_nat (ring_count h ring))) threshold_count = false)
    (distinct ring).

Section adjust.
Context {NP : Numpy Q}.
Variable tuple_hash : Z → Z → Z.
Variable cfg : pgm_config.

(** The new K of a group whose candidates are [candidates]. *)
Definition new_k_of (s : PrefixGroupManager) (ph current_k : Z) (candidates : list pod_id) : outcome Z :=
  let num_pods := match all_pod_ids s with [] => 7 | pods => py_len pods end in
  let waiting p := default 0%Q (pod_waiting s !! p) in
  let avg_waiting := np_mean (waiting <$> candidates) in
  if negb (Qle_bool avg_waiting (WAITING_HIGH cfg)) && (current_k <? num_pods) then
    try* next_candidates := select_candidate_pods tuple_hash ph (all_pod_ids s) (current_k + 1) in
    try* new_pod := py_index next_candidates (-1) in
    if negb (Qle_bool (85#100) (default 0%Q (pod_gpu_kv s !! new_pod))) &&
       negb (Qle_bool (WAITING_HIGH cfg) (waiting new_pod))
    then Ret (current_k + 1) else Ret current_k
  else if negb (Qle_bool (WAITING_LOW cfg) avg_waiting) && (MIN_K cfg <? current_k)
  then Ret (current_k - 1)
  else Ret current_k.

(** The body of the loop over dominant groups. *)
Definition adjust_group (ph : Z) : M PrefixGroupManager unit := λ s,
  let current_k := default (default_k cfg) (group_k s !! ph) in
  let cd := default 0 (group_cooldown s !! ph) in
  if 0 <? cd then
    (Ret tt, mkPGM (group_k s) (ring_buffer s) (pod_waiting s) (pod_gpu_kv s) (all_pod_ids s)
               (<[ph := cd - 1]> (group_cooldown s)) (num_adjustments s))
  else
    match (match all_pod_ids s with
           | [] => Ret []
           | pods => select_candidate_pods tuple_hash ph pods current_k
           end) with
    | Ret [] => (Ret tt, s)
    | Ret candidates =>
      match new_k_of s ph current_k candidates with
      | Ret new_k =>
        if new_k =? current_k then (Ret tt, s)
        else (Ret tt, mkPGM (<[ph := new_k]> (group_k s)) (ring_buffer s) (pod_waiting s) (pod_gpu_kv s)
                        (all_pod_ids s) (<[ph := COOLDOWN_PERIODS cfg]> (group_cooldown s))
                        (num_adjustments s))
      | Raise e => (Raise e, s)
      | OutOfFuel => (OutOfFuel, s)
      end
    | Raise e => (Raise e, s)
    | OutOfFuel => (OutOfFuel, s)
    end.

(** Groups that are no longer dominant lose their K and cooldown. *)
Definition forget_groups (dominant : list Z) (s : PrefixGroupManager) : PrefixGroupManager :=
  let gone h := bool_decide (h ∈ dom (group_k s) ∧ h ∉ dominant) in
  mkPGM (base.filter (λ kv, gone kv.1 = false) (group_k s)) (ring_buffer s) (pod_waiting s) (pod_gpu_kv s)
    (all_pod_ids s) (base.filter (λ kv, gone kv.1 = false) (group_cooldown s)) (num_adjustments s).

Definition count_adjustment (s : PrefixGroupManager) : PrefixGroupManager :=
  mkPGM (group_k s) (ring_buffer s) (pod_waiting s) (pod_gpu_kv s) (all_pod_ids s) (group_cooldown s)
    (num_adjustments s + 1).

Definition adjust_all_groups : M PrefixGroupManager unit :=
  let* s := get in
  if (length (ring_buffer s) <? 10)%nat then modify count_adjustment
  else
    let dominant := dominant_groups cfg (ring_buffer s) in
    modify (forget_groups dominant) ;;
    for_each dominant adjust_group ;;
    modify count_adjustment.

End adjust.

(** ** Specification *)

(** What the manager keeps, for a cluster that never has more than [N] pods. *)
Definition k_range (cfg : pgm_config) (N : Z) (k : Z) : Prop :=
  Z.min (MIN_K cfg) (default_k cfg) ≤ k ≤ Z.max (default_k cfg) N.

Definition pgm_ok (cfg : pgm_config) (N : Z) (s : PrefixGroupManager) : Prop :=
  py_len (all_pod_ids s) ≤ N ∧ (length (ring_buffer s) ≤ RING_SIZE cfg)%nat ∧
  map_Forall (λ _ k, k_range cfg N k) (group_k s) ∧
  map_Forall (λ ph cd, 0 ≤ cd ≤ COOLDOWN_PERIODS cfg ∧ is_Some (group_k s !! ph)) (group_cooldown s).

Definition config_ok (cfg : pgm_config) : Prop :=
  1 ≤ MIN_K cfg ∧ 1 ≤ default_k cfg ∧ 0 ≤ COOLDOWN_PERIODS cfg.

(** The calls of the service: an inference updates the pod states and records
    its prefix, the timer adjusts. *)
Inductive pgm_step {NP : Numpy Q} (tuple_hash : Z → Z → Z) (cfg : pgm_config) (N : Z) :
    PrefixGroupManager → PrefixGroupManager → Prop :=
| step_update gpu waiting pods s : py_len pods ≤ N →
    pgm_step tuple_hash cfg N s (update_pod_states gpu waiting pods s)
| step_record ph s : pgm_step tuple_hash cfg N s (record_filtered_request cfg ph s)
| step_adjust s : pgm_step tuple_hash cfg N s (adjust_all_groups tuple_hash cfg s).2.

(** ** Lemmas: adjusting *)

Lemma py_index_last {A} (l : list A) : 1 ≤ py_len l → ∃ x, py_index l (-1) = Ret x.
Proof.
  intros H. unfold py_index, py_norm_index, py_len in *. simpl.
  destruct (Z.ltb_spec (-1 + Z.of_nat (length l)) 0); [lia|].
  destruct (lookup_lt_is_Some_2 l (Z.to_nat (-1 + Z.of_nat (length l)))) as [x ->]; [lia|]. by exists x.
Qed.

Section adjust_lemmas.
Context {NP : Numpy Q}.
Variables (tuple_hash : Z → Z → Z) (cfg : pgm_config) (N : Z).
Hypothesis Hcfg : config_ok cfg.

Lemma select_candidates_ret ph pods k :
  ∃ l, select_candidate_pods tuple_hash ph pods k = Ret l ∧
    length l = Z.to_nat (Z.min k (py_len pods)).
Proof.
  unfold select_candidate_pods.
  destruct (select_loop_ok tuple_hash pods ph (Z.to_nat (Z.min k (py_len pods))) 0 [] [])
    as (idx & Hr & Hl & Hnd & Hok & _); [unfold py_len; simpl; lia|].
  exists (pods_at pods idx). split; [done|]. rewrite <-Hl. clear -Hok.
  induction Hok as [|h idx Hh _ IH]; [done|].
  destruct (lookup_lt_is_Some_2 pods (Z.to_nat h)) as [pod Hpod]; [unfold index_ok, py_len in Hh; lia|].
  rewrite (pods_at_cons pods h pod) by done. simpl. by rewrite IH.
Qed.

Lemma get_k_range s ph : pgm_ok cfg N s → k_range cfg N (get_k cfg ph s).
Proof.
  intros (_ & _ & Hk & _). unfold get_k. destruct (group_k s !! ph) as [k|] eqn:E; simpl.
  - by apply (Hk ph).
  - unfold k_range. lia.
Qed.

(** A new K is one step away at most, and in range. *)
Lemma new_k_of_ok s ph k candidates :
  pgm_ok cfg N s → k_range cfg N k → candidates ≠ [] → all_pod_ids s ≠ [] →
  ∃ k', new_k_of tuple_hash cfg s ph k candidates = Ret k' ∧ k_range cfg N k' ∧ Z.abs (k' - k) ≤ 1.
Proof.
  intros (Hn & _) Hk Hc Hpods. destruct Hcfg as (H1 & H2 & _). unfold new_k_of.
  destruct (all_pod_ids s) as [|p ps] eqn:Hp; [done|]. rewrite <-Hp.
  destruct (_ && (k <? _)) eqn:Hinc.
  - apply andb_true_iff in Hinc as [_ Hlt%Z.ltb_lt].
    destruct (select_candidates_ret ph (all_pod_ids s) (k + 1)) as (l & Hl & Hlen). rewrite Hl. simpl.
    assert (1 ≤ py_len l) as Hl1 by (unfold k_range, py_len in *; lia).
    destruct (py_index_last l Hl1) as [pod ->]. simpl.
    destruct (_ && _); eexists; (split; [done|]); unfold k_range in *; rewrite Hp in Hlt; lia.
  - destruct (_ && (MIN_K cfg <? k)) eqn:Hdec; eexists; (split; [done|]).
    + apply andb_true_iff in Hdec as [_ Hlt%Z.ltb_lt]. unfold k_range in *. lia.
    + split; [done|lia].
Qed.

(** What one group's adjustment changes: that group's entries only. *)
Definition only_group (ph : Z) (s s' : PrefixGroupManager) : Prop :=
  ring_buffer s' = ring_buffer s ∧ all_pod_ids s' = all_pod_ids s ∧
  ∀ h, h ≠ ph → group_k s' !! h = group_k s !! h ∧ group_cooldown s' !! h = group_cooldown s !! h.

Lemma adjust_group_ok ph s :
  pgm_ok cfg N s →
  ∃ s', adjust_group tuple_hash cfg ph s = (Ret tt, s') ∧ pgm_ok cfg N s' ∧ only_group ph s s' ∧
    Z.abs (get_k cfg ph s' - get_k cfg ph s) ≤ 1 ∧
    (0 < default 0 (group_cooldown s !! ph) → get_k cfg ph s' = get_k cfg ph s).
Proof.
  intros Hok. pose proof (get_k_range s ph Hok) as Hk. unfold adjust_group. fold (get_k cfg ph s).
  destruct (Z.ltb_spec 0 (default 0 (group_cooldown s !! ph))) as [Hcd|Hcd].
  - eexists. split; [done|]. split_and!; [|split_and!; try done|unfold get_k; simpl; lia|done].
    + destruct Hok as (? & ? & ? & Hc). split_and!; try done. simpl. apply map_Forall_insert_2; [|done].
      destruct (group_cooldown s !! ph) as [cd|] eqn:E; simpl in *; [|lia].
      destruct (Hc ph cd E). split; [lia|done].
    + intros h Hne. simpl. by rewrite lookup_insert_ne.
  - assert (Hsame : Z.abs (get_k cfg ph s - get_k cfg ph s) ≤ 1) by lia.
    assert (Hid : only_group ph s s) by (split_and!; done).
    destruct (all_pod_ids s) as [|p ps] eqn:Hp; [exists s; split_and!; try done; apply Hid|].
    destruct (select_candidates_ret ph (p :: ps) (get_k cfg ph s)) as (l & -> & _).
    destruct l as [|c cs]; [exists s; split_and!; try done; apply Hid|].
    destruct (new_k_of_ok s ph (get_k cfg ph s) (c :: cs)) as (k' & -> & Hr & Habs);
      [done|done|done|by rewrite Hp|].
    destruct (Z.eqb_spec k' (get_k cfg ph s)); [exists s; split_and!; try done; apply Hid|].
    eexists. split; [done|]. split_and!; [|split_and!; try done| |lia].
    + destruct Hok as (? & ? & Hg & Hc). rewrite Hp in *. split_and!; try done; simpl.
      * by apply map_Forall_insert_2.
      * apply map_Forall_insert_2; [rewrite lookup_insert_eq; split; [destruct Hcfg; lia|done]|].
        intros h cd Hh. destruct (Hc h cd Hh) as [? ?]. split; [done|].
        destruct (decide (ph = h)) as [->|]; [by rewrite lookup_insert_eq|by rewrite lookup_insert_ne].
    + intros h Hne. simpl. by rewrite !lookup_insert_ne.
    + unfold get_k at 1. simpl. rewrite lookup_insert_eq. simpl. done.
Qed.

Lemma adjust_groups_ok groups s :
  NoDup groups → pgm_ok cfg N s →
  ∃ s', for_each groups (adjust_group tuple_hash cfg) s = (Ret tt, s') ∧ pgm_ok cfg N s' ∧
    ring_buffer s' = ring_buffer s ∧
    (∀ h, h ∉ groups → group_k s' !! h = group_k s !! h) ∧
    ∀ h, Z.abs (get_k cfg h s' - get_k cfg h s) ≤ 1 ∧
      (0 < default 0 (group_cooldown s !! h) → get_k cfg h s' = get_k cfg h s).
Proof.
  revert s. induction groups as [|g groups IH]; intros s Hnd Hok.
  { exists s. split_and!; try done. intros h. split; [lia|done]. }
  apply NoDup_cons in Hnd as [Hnew Hnd].
  destruct (adjust_group_ok g s Hok) as (s1 & H1 & Hok1 & (Hring & Hpods & Hframe) & Habs & Hcd).
  destruct (IH s1 Hnd Hok1) as (s2 & H2 & Hok2 & Hring2 & Hout & Hall).
  exists s2. split; [simpl; unfold bind; by rewrite H1|]. split_and!; [done|congruence|..].
  - intros h [Hne Hh]%not_elem_of_cons. rewrite Hout by done. by apply Hframe.
  - intros h. destruct (decide (h = g)) as [->|Hne].
    + assert (get_k cfg g s2 = get_k cfg g s1) as -> by (unfold get_k; by rewrite Hout). done.
    + destruct (Hframe h Hne) as [Eg Ec]. specialize (Hall h). rewrite Ec in Hall.
      assert (get_k cfg h s1 = get_k cfg h s) as <- by (unfold get_k; by rewrite Eg). done.
Qed.

Lemma distinct_nodup l : NoDup (distinct l).
Proof.
  induction l as [|x l IH]; simpl; constructor; [|by apply NoDup_filter].
  intros [H _]%list_elem_of_filter. done.
Qed.

Lemma forget_groups_ok dominant s :
  pgm_ok cfg N s → pgm_ok cfg N (forget_groups dominant s) ∧
  ring_buffer (forget_groups dominant s) = ring_buffer s ∧
  (∀ h k, group_k (forget_groups dominant s) !! h = Some k ↔ group_k s !! h = Some k ∧ h ∈ dominant) ∧
  (∀ h, h ∈ dominant → group_cooldown (forget_groups dominant s) !! h = group_cooldown s !! h).
Proof.
  intros (Hn & Hring & Hg & Hc).
  assert (Hk : ∀ h k, group_k (forget_groups dominant s) !! h = Some k ↔
    group_k s !! h = Some k ∧ h ∈ dominant).
  { intros h k. simpl. rewrite map_lookup_filter_Some. simpl. rewrite bool_decide_eq_false. split.
    - intros [Hl Hin]. split; [done|]. destruct (decide (h ∈ dominant)); [done|]. destruct Hin.
      split; [|done]. by apply elem_of_dom_2 in Hl.
    - intros [Hl Hin]. split; [done|]. by intros [_ ?]. }
  split_and!; [split_and!; [done..| |]|done|done|].
  - intros h k [Hl _]%Hk. by apply (Hg h).
  - intros h cd Hl. simpl in Hl. apply map_lookup_filter_Some in Hl as [Hl Hin].
    destruct (Hc h cd Hl) as [? [k Hkk]]. split; [done|]. exists k. apply Hk. split; [done|].
    simpl in Hin. apply bool_decide_eq_false in Hin.
    destruct (decide (h ∈ dominant)); [done|]. destruct Hin. split; [by apply elem_of_dom_2 in Hkk|done].
  - intros h Hin. simpl. destruct (group_cooldown s !! h) as [cd|] eqn:E.
    + apply map_lookup_filter_Some. split; [done|]. simpl. apply bool_decide_eq_false. by intros [_ ?].
    + apply map_lookup_filter_None. by left.
Qed.

(** One run of the timer. *)
Lemma adjust_all_groups_ok s :
  pgm_ok cfg N s →
  ∃ s', adjust_all_groups tuple_hash cfg s = (Ret tt, s') ∧ pgm_ok cfg N s' ∧
    ring_buffer s' = ring_buffer s ∧
    ∀ h, h ∈ dominant_groups cfg (ring_buffer s) →
      Z.abs (get_k cfg h s' - get_k cfg h s) ≤ 1 ∧
      (0 < default 0 (group_cooldown s !! h) → get_k cfg h s' = get_k cfg h s).
Proof.
  intros Hok. unfold adjust_all_groups, bind at 1, get.
  destruct (Nat.ltb_spec (length (ring_buffer s)) 10) as [Hlt|Hge].
  { eexists. split; [done|]. split_and!; try done. intros h _. unfold get_k. simpl. split; [lia|done]. }
  set (dominant := dominant_groups cfg (ring_buffer s)).
  destruct (forget_groups_ok dominant s Hok) as (Hok1 & Hring1 & Hk1 & Hcd1).
  destruct (adjust_groups_ok dominant (forget_groups dominant s)) as (s2 & Hrun & Hok2 & Hring2 & _ & Hall);
    [apply NoDup_filter, distinct_nodup|done|].
  exists (count_adjustment s2). unfold modify, bind. rewrite Hrun. split; [done|].
  split_and!; [done|by simpl; rewrite Hring2|].
  intros h Hin. specialize (Hall h). rewrite Hcd1 in Hall by done.
  assert (get_k cfg h (forget_groups dominant s) = get_k cfg h s) as E.
  { unfold get_k. destruct (group_k s !! h) as [k|] eqn:E.
    - by rewrite (proj2 (Hk1 h k)).
    - destruct (group_k (forget_groups dominant s) !! h) as [k|] eqn:E'; [|done].
      apply Hk1 in E' as [? _]. congruence. }
  rewrite E in Hall. done.
Qed.

Lemma pgm_step_ok s s' : pgm_ok cfg N s → pgm_step tuple_hash cfg N s s' → pgm_ok cfg N s'.
Proof.
  intros Hok Hstep. destruct Hstep as [gpu waiting pods s Hlen|ph s|s].
  - destruct Hok as (_ & ? & ? & ?). by split_and!.
  - unfold record_filtered_request. destruct (ph =? 0); [done|].
    destruct Hok as (? & ? & ? & ?). split_and!; try done. simpl. unfold ring_append.
    rewrite length_drop, length_app. simpl. lia.
  - by destruct (adjust_all_groups_ok s Hok) as (s' & -> & Hok' & _).
Qed.

End adjust_lemmas.

(** ** Properties *)

(** C9: for every hash function, the candidate pods of a prefix are found (the
    probing ends), are [min(k, n)] distinct pods of the cluster, and asking for
    more pods keeps the ones already chosen and appends others, so that growing
    K never moves a prefix away from its pods. *)
Theorem candidate_pods_spec (tuple_hash : Z → Z → Z) (ph : Z) (pods : list pod_id) (k k' : Z) :
  NoDup pods → k ≤ k' →
  ∃ l l', select_candidate_pods tuple_hash ph pods k = Ret l ∧
    length l = Z.to_nat (Z.min k (py_len pods)) ∧ NoDup l ∧ (∀ p, p ∈ l → p ∈ pods) ∧
    select_candidate_pods tuple_hash ph pods k' = Ret (l ++ l').
Proof.
  intros Hnd Hk. unfold select_candidate_pods.
  set (t := Z.to_nat (Z.min k (py_len pods))). set (t' := Z.to_nat (Z.min k' (py_len pods))).
  assert (t ≤ t' ∧ t' ≤ length pods)%nat by (unfold t, t', py_len; lia).
  destruct (select_loop_ok tuple_hash pods ph t 0 [] []) as (idx & Hr & Hl & Hn & Hok & _); [simpl; lia|].
  destruct (pods_at_spec pods idx Hok Hn Hnd) as (Hlen & Hnodup & Hmem).
  destruct (select_loop_prefix tuple_hash pods ph t (t' - t) 0 [] []) as (l1 & l2 & H1 & H2); [simpl; lia|].
  replace (t + (t' - t))%nat with t' in H2 by lia.
  rewrite Hr in H1. injection H1 as <-. exists (pods_at pods idx), l2. split_and!; try done. congruence.
Qed.

Lemma candidate_pods_spec_witness :
  let pods := ["p0"; "p1"; "p2"; "p3"]%string in
  ∃ l l', select_candidate_pods (λ i h, 5 * i + h) 12 pods 2 = Ret l ∧
    length l = Z.to_nat (Z.min 2 (py_len pods)) ∧ NoDup l ∧ (∀ p, p ∈ l → p ∈ pods) ∧
    select_candidate_pods (λ i h, 5 * i + h) 12 pods 3 = Ret (l ++ l').
Proof.
  intros pods. apply (candidate_pods_spec (λ i h, 5 * i + h) 12 pods 2 3); [|lia].
  by apply (bool_decide_unpack _).
Defined.

(** C8: whatever inferences and timer runs came before, in a cluster of at most
    [N] pods, a timer run returns without error, keeps every group's K between
    the configured floor and the number of pods (or the default), moves the K of
    a dominant group by at most one, and not at all during its cooldown; the
    ring buffer never outgrows its size. *)
Theorem adjust_all_groups_safe (NP : Numpy Q) (tuple_hash : Z → Z → Z) (cfg : pgm_config) (N : Z)
    (s : PrefixGroupManager) :
  config_ok cfg → 0 ≤ N → rtc (pgm_step tuple_hash cfg N) new_PrefixGroupManager s →
  ∃ s', adjust_all_groups tuple_hash cfg s = (Ret tt, s') ∧
    (length (ring_buffer s') ≤ RING_SIZE cfg)%nat ∧
    (∀ h, k_range cfg N (get_k cfg h s')) ∧
    ∀ h, h ∈ dominant_groups cfg (ring_buffer s) →
      Z.abs (get_k cfg h s' - get_k cfg h s) ≤ 1 ∧
      (0 < default 0 (group_cooldown s !! h) → get_k cfg h s' = get_k cfg h s).
Proof.
  intros Hcfg HN Hreach. assert (Hok : pgm_ok cfg N s).
  { revert Hreach. apply (rtc_ind_r (λ s, pgm_ok cfg N s)).
    - split_and!; [done|simpl; lia|apply map_Forall_empty..].
    - intros ?? _ ? ?. by eapply pgm_step_ok. }
  destruct (adjust_all_groups_ok tuple_hash cfg N Hcfg s Hok) as (s' & Hrun & Hok' & _ & Hall).
  exists s'. split_and!; [done|apply Hok'|intros h; by apply (get_k_range cfg N)|done].
Qed.

Definition demo_pgm_config : pgm_config := mkPGMConfig 2 200 10 3 10 2 3.

(** Twelve requests of one prefix on an overloaded cluster. *)
Definition demo_pgm : PrefixGroupManager :=
  Nat.iter 12 (record_filtered_request demo_pgm_config 77)
    (update_pod_states (Some ∅) (Some {[ "p0"%string := 90%Q; "p1"%string := 90%Q ]})
       ["p0"; "p1"; "p2"]%string new_PrefixGroupManager).

Lemma demo_pgm_reachable (NP : Numpy Q) (th : Z → Z → Z) :
  rtc (pgm_step th demo_pgm_config 3) new_PrefixGroupManager demo_pgm.
Proof.
  unfold demo_pgm. generalize 12%nat as i. induction i as [|i IH]; simpl.
  - apply rtc_once. constructor. unfold py_len. simpl. lia.
  - eapply rtc_r; [exact IH|constructor].
Qed.

Lemma adjust_all_groups_safe_witness :
  ∃ s', @adjust_all_groups demo_numpy (λ i h, i + h) demo_pgm_config demo_pgm = (Ret tt, s') ∧
    (length (ring_buffer s') ≤ RING_SIZE demo_pgm_config)%nat ∧
    (∀ h, k_range demo_pgm_config 3 (get_k demo_pgm_config h s')) ∧
    ∀ h, h ∈ dominant_groups demo_pgm_config (ring_buffer demo_pgm) →
      Z.abs (get_k demo_pgm_config h s' - get_k demo_pgm_config h demo_pgm) ≤ 1 ∧
      (0 < default 0 (group_cooldown demo_pgm !! h) →
       get_k demo_pgm_config h s' = get_k demo_pgm_config h demo_pgm).
Proof.
  apply (adjust_all_groups_safe demo_numpy (λ i h, i + h) demo_pgm_config 3 demo_pgm).
  - vm_compute. split_and!; discriminate.
  - discriminate.
  - apply demo_pgm_reachable.
Defined.
