(* ===== verification/TrainData.v ===== *)
(** * Training data of the online learner

    Models the data side of
    [python/routing_agent_service/agent_codes/routing_agent_service.py]: the
    flush handler that appends served requests to the online store, the choice of
    the rows a training round uses (new batch, most recent history, replay
    buffer, random backfill), the eviction that bounds the stores, and the gates
    and flags of [online_train_routine]. A flush may run between the steps of a
    training round: the round copies the stores under the lock, works on the
    copies, and writes them back under the lock.

    Encoding, normalization and training of the model are not part of the state
    modelled here. Sorting, sampling and duplicate removal are pandas' own, given
    by the class [Pandas]. *)

From S2P Require Import Prelude Num.
From stdpp Require Import sorting.

Open Scope Z_scope.

(** A row: its request id and its numeric cells; a missing cell is NaN. *)
Record row := mkRow { request_id : option string; cells : gmap string Q }.

Record DataFrame := mkDF { columns : gset string; rows : list row }.

Definition empty_df : DataFrame := mkDF ∅ [].

Definition df_len (d : DataFrame) : Z := py_len (rows d).

Definition has_col (c : string) (d : DataFrame) : bool := bool_decide (c ∈ columns d).

(** [pd.concat(..., ignore_index=True)] *)
Definition df_concat (ds : list DataFrame) : DataFrame :=
  mkDF (⋃ (columns <$> ds)) (concat (rows <$> ds)).

Definition df_filter (f : row → bool) (d : DataFrame) : DataFrame :=
  mkDF (columns d) (List.filter f (rows d)).

(** [d.tail(n)] for [0 <= n] and [d.iloc[n:]] *)
Definition df_tail (n : Z) (d : DataFrame) : DataFrame :=
  mkDF (columns d) (drop (length (rows d) - Z.to_nat n) (rows d)).

Definition df_skip (n : Z) (d : DataFrame) : DataFrame := mkDF (columns d) (drop (Z.to_nat n) (rows d)).

(** [d.head(n)]; a negative [n] leaves out the last rows. *)
Definition df_head (n : Z) (d : DataFrame) : DataFrame :=
  mkDF (columns d) (take (Z.to_nat (if n <? 0 then df_len d + n else n)) (rows d)).

Inductive na_position := na_first | na_last.

Class Pandas := {
  sort_values : na_position → string → list row → list row;
  df_sample : nat → list row → list row;       (* [random_state=42] *)
  drop_duplicates : list row → list row        (* [subset=['request_id']] *)
}.

(** Row [a] may stand before row [b] in a sorted column. *)
Definition older (na : na_position) (c : string) (a b : row) : Prop :=
  match cells a !! c, cells b !! c with
  | Some x, Some y => (x <= y)%Q
  | None, None => True
  | None, Some _ => na = na_first
  | Some _, None => na = na_last
  end.

(** What pandas documents of the three. *)
Class PandasLaws (P : Pandas) : Prop := {
  sort_perm na c l : sort_values na c l ≡ₚ l;
  sort_sorted na c l i j a b :
    sort_values na c l !! i = Some a → sort_values na c l !! j = Some b → (i ≤ j)%nat → older na c a b;
  sample_length n l : (n ≤ length l)%nat → length (df_sample n l) = n;
  sample_sub n l : df_sample n l ⊆+ l;
  dedup_sub l : sublist (drop_duplicates l) l;
  dedup_nodup l : NoDup (request_id <$> drop_duplicates l);
  dedup_keeps l r : r ∈ l → ∃ r', r' ∈ drop_duplicates l ∧ request_id r' = request_id r
}.

Section selection.
Context {P : Pandas}.

(** The first of the columns that is there. *)
Definition sort_col (candidates : list string) (d : DataFrame) : option string :=
  head (List.filter (λ c, has_col c d) candidates).

Definition time_columns : list string := ["_online_seq"; "request_start_time"; "request_end_time"].

Definition df_sort (na : na_position) (c : option string) (d : DataFrame) : DataFrame :=
  match c with Some c => mkDF (columns d) (sort_values na c (rows d)) | None => d end.

Definition is_new (current_round : Z) (r : row) : bool :=
  match cells r !! "_collection_round"%string with
  | Some x => Qle_bool (inject_Z current_round) x
  | None => false
  end.

Definition split_new_and_historical (online_df offline_df : DataFrame) (current_round : Z) :
    DataFrame * DataFrame :=
  let '(new_batch, historical_online) :=
    if has_col "_collection_round" online_df && (0 <? df_len online_df)
    then (df_filter (is_new current_round) online_df,
          df_filter (λ r, negb (is_new current_round r)) online_df)
    else (online_df, empty_df) in
  (new_batch, df_concat [offline_df; historical_online]).

Definition select_fifo (historical_df : DataFrame) (fifo_size : Z) : DataFrame :=
  if (fifo_size <=? 0) || (df_len historical_df =? 0) then empty_df
  else
    let sorted_df := df_sort na_first (sort_col time_columns historical_df) historical_df in
    df_tail (Z.min fifo_size (df_len sorted_df)) sorted_df.

(** The buffer may be absent, or hold no data yet. *)
Definition select_replay (replay_buffer : option (option DataFrame)) (max_samples : option Z) : DataFrame :=
  match replay_buffer with
  | None | Some None => empty_df
  | Some (Some data) =>
    if df_len data =? 0 then empty_df
    else match max_samples with
         | Some m => if m <? df_len data then df_head m data else data
         | None => data
         end
  end.

Definition ids_of (d : DataFrame) : list (option string) :=
  if (0 <? df_len d) && has_col "request_id" d then request_id <$> rows d else [].

Definition backfill_from_historical (historical_df fifo_df replay_df : DataFrame) (needed : Z) : DataFrame :=
  if (needed <=? 0) || (df_len historical_df =? 0) then empty_df
  else
    let candidates :=
      if has_col "request_id" historical_df
      then df_filter (λ r, negb (bool_decide (request_id r ∈ ids_of fifo_df ++ ids_of replay_df))) historical_df
      else historical_df in
    if df_len candidates =? 0 then empty_df
    else mkDF (columns candidates)
           (df_sample (Z.to_nat (Z.min needed (df_len candidates))) (rows candidates)).

(** The new contents of the two stores, [None] when nothing is evicted. *)
Definition evict_global_data (offline_df online_df : DataFrame) (max_keep : Z) :
    option (DataFrame * DataFrame) :=
  let total := df_len offline_df + df_len online_df in
  if total <=? max_keep then None
  else
    let overflow := total - max_keep in
    let offline_remove := Z.min overflow (df_len offline_df) in
    let offline' := if 0 <? offline_remove then df_skip offline_remove offline_df else offline_df in
    let overflow' := if 0 <? offline_remove then overflow - offline_remove else overflow in
    let online' :=
      if (0 <? overflow') && (0 <? df_len online_df)
      then df_skip overflow' (df_sort na_last (sort_col time_columns online_df) online_df)
      else online_df in
    Some (offline', online').

(** The trimming of the original FIFO logic: as eviction, with its own order of
    preference among the time columns. *)
Definition original_time_columns : list string :=
  ["request_start_time"; "request_end_time"; "_online_seq"].

Definition trim_to_limit (offline_df online_df : DataFrame) (max_total : Z) :
    option (DataFrame * DataFrame) :=
  let total := df_len offline_df + df_len online_df in
  if total <=? max_total then None
  else
    let overflow := total - max_total in
    let offline_remove := Z.min overflow (df_len offline_df) in
    let offline' := if 0 <? offline_remove then df_skip offline_remove offline_df else offline_df in
    let overflow' := if 0 <? offline_remove then overflow - offline_remove else overflow in
    let online' :=
      if (0 <? overflow') && (0 <? df_len online_df)
      then df_skip overflow' (df_sort na_last (sort_col original_time_columns online_df) online_df)
      else online_df in
    Some (offline', online').

Definition dedup (d : DataFrame) : DataFrame :=
  if has_col "request_id" d then mkDF (columns d) (drop_duplicates (rows d)) else d.

(** The pools of the two-pool selection: new batch, FIFO and replay with its
    backfill. *)
Definition two_pools (fifo_size replay_size num_trains : Z) (replay_buffer : option (option DataFrame))
    (offline_df online_df : DataFrame) : DataFrame * DataFrame * DataFrame :=
  let target_pool := fifo_size + replay_size in
  let '(new_batch_df, historical_df) := split_new_and_historical online_df offline_df num_trains in
  let fifo_df := select_fifo historical_df fifo_size in
  let needed_from_replay := target_pool - df_len fifo_df in
  let replay_df := select_replay replay_buffer (Some needed_from_replay) in
  let shortfall := needed_from_replay - df_len replay_df in
  let replay_df' :=
    if (0 <? shortfall) && (0 <? df_len historical_df)
    then df_concat [replay_df; backfill_from_historical historical_df fifo_df replay_df shortfall]
    else replay_df in
  (new_batch_df, fifo_df, replay_df').

End selection.

(** ** The service's state *)

Record train_config := mkTrainConfig {
  ENABLE_ONLINE_LEARNING : bool;
  TTFT_THRESHOLD : option Q;
  FIFO_SIZE : Z;
  REPLAY_SIZE : Z;
  MAX_TOTAL_DATA : Z;
  MIN_NUM_TRAINING_DATA : Z;
  MIN_NUM_UPDATE_DATA : Z;
  MAX_NUM_ONLINE_TRAINS : Z;
  ONLINE_TRAIN_FROM_SCRATCH : bool;
  CL_TRAINING_EPOCHS : Z;
  strategy_known : bool          (* [ROUTING_STRATEGY] names a trainer *)
}.

(** The hyperparameters a round overrides. *)
Record train_hyper := mkTrainHyper {
  hp_from_scratch : option bool;
  hp_reset_lr : option bool;
  hp_epochs : option Z
}.

(** Where the training thread is: outside a round, with the copies it took, or
    with its rows selected and stores written back. *)
Inductive round_phase := NoRound | Copied (offline online : DataFrame) | Selected.

(** The module's globals and the training thread's position. *)
Record service := mkService {
  OFFLINE_DF : option DataFrame;
  ONLINE_DF : option DataFrame;
  OFFLINE_DATA_SIZE : Z;
  ONLINE_SEQ : Z;
  NUM_FLUSH : Z;
  NUM_TRAINS : Z;
  NUM_NEW_DATA : Z;
  TOTAL_NUM_DATA : Z;
  TOTAL_NUM_NEW_DATA : Z;
  TRAINING_RIGHT_NOW : bool;
  MODEL_UPDATED : bool;
  REPLAY_BUFFER : option (option DataFrame);
  HYPERPARAMETERS : train_hyper;
  round : round_phase
}.

Definition set_stores (offline online : option DataFrame) (size seq : Z) (s : service) : service :=
  mkService offline online size seq (NUM_FLUSH s) (NUM_TRAINS s) (NUM_NEW_DATA s) (TOTAL_NUM_DATA s)
    (TOTAL_NUM_NEW_DATA s) (TRAINING_RIGHT_NOW s) (MODEL_UPDATED s) (REPLAY_BUFFER s)
    (HYPERPARAMETERS s) (round s).

Definition set_flush_counters (num_flush num_new total total_new : Z) (s : service) : service :=
  mkService (OFFLINE_DF s) (ONLINE_DF s) (OFFLINE_DATA_SIZE s) (ONLINE_SEQ s) num_flush (NUM_TRAINS s)
    num_new total total_new (TRAINING_RIGHT_NOW s) (MODEL_UPDATED s) (REPLAY_BUFFER s)
    (HYPERPARAMETERS s) (round s).

(** The flag, the hyperparameters and the phase of a round. *)
Definition set_round (flag : bool) (hp : train_hyper) (phase : round_phase) (s : service) : service :=
  mkService (OFFLINE_DF s) (ONLINE_DF s) (OFFLINE_DATA_SIZE s) (ONLINE_SEQ s) (NUM_FLUSH s)
    (NUM_TRAINS s) (NUM_NEW_DATA s) (TOTAL_NUM_DATA s) (TOTAL_NUM_NEW_DATA s) flag (MODEL_UPDATED s)
    (REPLAY_BUFFER s) hp phase.

(** ** Flush *)

Definition set_cell (c : string) (v : Q) (r : row) : row := mkRow (request_id r) (<[c := v]> (cells r)).

(** The batch a flush appends: rows within the TTFT threshold, numbered from
    [ONLINE_SEQ] unless they already are, marked with the current round; with
    the next sequence number. *)
Definition online_batch (cfg : train_config) (seq num_trains : Z) (processed : DataFrame) : DataFrame * Z :=
  let kept :=
    match TTFT_THRESHOLD cfg with
    | Some threshold =>
      if has_col "ttft" processed
      then df_filter (λ r, match cells r !! "ttft"%string with
                           | Some t => Qle_bool t threshold | None => false end) processed
      else processed
    | None => processed
    end in
  let '(numbered, seq') :=
    if has_col "_online_seq" kept then (kept, seq)
    else (mkDF (columns kept ∪ {["_online_seq"%string]})
            (imap (λ i r, set_cell "_online_seq" (inject_Z (seq + Z.of_nat i)) r) (rows kept)),
          seq + df_len kept) in
  (mkDF (columns numbered ∪ {["_collection_round"%string]})
     (set_cell "_collection_round" (inject_Z num_trains) <$> rows numbered), seq').

(** [handle_flush]: [log_len] log entries, [processed] their preprocessing, or
    [None] when it raised. *)
Definition handle_flush (cfg : train_config) (log_len : Z) (processed : option DataFrame) (s : service) :
    service :=
  let s0 := set_flush_counters (NUM_FLUSH s + 1) (NUM_NEW_DATA s) (TOTAL_NUM_DATA s) (TOTAL_NUM_NEW_DATA s) s in
  match processed with
  | None => s0
  | Some d =>
    let s1 :=
      if ENABLE_ONLINE_LEARNING cfg then
        let '(batch, seq') := online_batch cfg (ONLINE_SEQ s0) (NUM_TRAINS s0) d in
        set_stores (OFFLINE_DF s0) (Some (df_concat [default empty_df (ONLINE_DF s0); batch]))
          (OFFLINE_DATA_SIZE s0) seq' s0
      else s0 in
    set_flush_counters (NUM_FLUSH s1) (NUM_NEW_DATA s1 + log_len) (TOTAL_NUM_DATA s1 + log_len)
      (TOTAL_NUM_NEW_DATA s1 + log_len) s1
  end.

(** ** The training round *)

Definition gates_open (cfg : train_config) (s : service) : bool :=
  negb ((0 <=? MAX_NUM_ONLINE_TRAINS cfg) && (MAX_NUM_ONLINE_TRAINS cfg <=? NUM_TRAINS s)) &&
  negb (TRAINING_RIGHT_NOW s) &&
  (MIN_NUM_TRAINING_DATA cfg <=? TOTAL_NUM_NEW_DATA s) && (MIN_NUM_UPDATE_DATA cfg <=? NUM_NEW_DATA s).

Definition is_cl_mode (cfg : train_config) : bool := negb (ONLINE_TRAIN_FROM_SCRATCH cfg).

Definition round_hyper (cfg : train_config) (num_trains : Z) (hp : train_hyper) : train_hyper :=
  if is_cl_mode cfg && (num_trains =? 0) then mkTrainHyper (Some true) (Some true) (hp_epochs hp)
  else if is_cl_mode cfg && (0 <? num_trains) then
    mkTrainHyper (Some false) (Some false)
      (if 0 <? CL_TRAINING_EPOCHS cfg then Some (CL_TRAINING_EPOCHS cfg) else hp_epochs hp)
  else hp.

Definition store_empty (d : option DataFrame) : bool :=
  match d with None => true | Some d => df_len d =? 0 end.

(** The start of [online_train_routine]: the gates, the flag, the copies. *)
Definition train_start (cfg : train_config) (s : service) : service :=
  if negb (gates_open cfg s) then s
  else
    let hp := round_hyper cfg (NUM_TRAINS s) (HYPERPARAMETERS s) in
    if store_empty (OFFLINE_DF s) && store_empty (ONLINE_DF s) then set_round false hp NoRound s
    else set_round true hp
           (Copied (default empty_df (OFFLINE_DF s)) (default empty_df (ONLINE_DF s))) s.

Section rounds.
Context {P : Pandas}.
Variable cfg : train_config.

(** The rows of a contextual-bandit round and the stores it writes back. *)
Definition choose_rows (s : service) (offline_df online_df : DataFrame) :
    DataFrame * option (DataFrame * DataFrame) :=
  if is_cl_mode cfg && (0 <? NUM_TRAINS s) && (FIFO_SIZE cfg =? 0) && (REPLAY_SIZE cfg =? 0) then
    (dedup (split_new_and_historical online_df offline_df (NUM_TRAINS s)).1, None)
  else if (0 <? FIFO_SIZE cfg) || (0 <? REPLAY_SIZE cfg) then
    let '(new_batch_df, fifo_df, replay_df) :=
      two_pools (FIFO_SIZE cfg) (REPLAY_SIZE cfg) (NUM_TRAINS s) (REPLAY_BUFFER s) offline_df online_df in
    (dedup (df_concat [new_batch_df; fifo_df; replay_df]),
     evict_global_data offline_df online_df (FIFO_SIZE cfg + REPLAY_SIZE cfg))
  else
    match trim_to_limit offline_df online_df (MAX_TOTAL_DATA cfg) with
    | Some (offline', online') => (df_concat [offline'; online'], Some (offline', online'))
    | None => (df_concat [offline_df; online_df], None)
    end.

(** The selection step of a running round. *)
Definition train_select (s : service) : service :=
  match round s with
  | Copied offline_df online_df =>
    let '(training_df, stores) := choose_rows s offline_df online_df in
    let s' := match stores with
              | Some (offline', online') =>
                set_stores (Some offline') (Some online') (df_len offline') (ONLINE_SEQ s) s
              | None => s
              end in
    if df_len training_df =? 0 then set_round false (HYPERPARAMETERS s') NoRound s'
    else set_round (TRAINING_RIGHT_NOW s') (HYPERPARAMETERS s') Selected s'
  | _ => s
  end.

(** An exception during the round. *)
Definition train_fail (s : service) : service :=
  match round s with NoRound => s | _ => set_round false (HYPERPARAMETERS s) NoRound s end.

(** The end of a round with its rows selected and a new replay selection. A
    strategy without a trainer returns before the flag is reset. *)
Definition train_finish (replay : option (option DataFrame)) (s : service) : service :=
  match round s with
  | Selected =>
    if strategy_known cfg then
      mkService (OFFLINE_DF s) (ONLINE_DF s) (OFFLINE_DATA_SIZE s) (ONLINE_SEQ s) (NUM_FLUSH s)
        (NUM_TRAINS s + 1) 0 (TOTAL_NUM_DATA s) (TOTAL_NUM_NEW_DATA s) false true replay
        (HYPERPARAMETERS s) NoRound
    else
      mkService (OFFLINE_DF s) (ONLINE_DF s) (OFFLINE_DATA_SIZE s) (ONLINE_SEQ s) (NUM_FLUSH s)
        (NUM_TRAINS s) (NUM_NEW_DATA s) (TOTAL_NUM_DATA s) (TOTAL_NUM_NEW_DATA s)
        (TRAINING_RIGHT_NOW s) (MODEL_UPDATED s) replay (HYPERPARAMETERS s) NoRound
  | _ => s
  end.

End rounds.

(** The selection of a latency-predictor round: no replay. *)
Definition latency_rows {P : Pandas} (cfg : train_config) (num_trains : Z) (offline_df online_df : DataFrame) :
    DataFrame * option (DataFrame * DataFrame) :=
  if (0 <? FIFO_SIZE cfg) || (0 <? REPLAY_SIZE cfg) then
    let '(new_batch_df, historical_df) := split_new_and_historical online_df offline_df num_trains in
    (dedup (df_concat [new_batch_df; select_fifo historical_df (FIFO_SIZE cfg)]),
     evict_global_data offline_df online_df (FIFO_SIZE cfg + REPLAY_SIZE cfg))
  else
    match trim_to_limit offline_df online_df (MAX_TOTAL_DATA cfg) with
    | Some (offline', online') => (df_concat [offline'; online'], Some (offline', online'))
    | None => (df_concat [offline_df; online_df], None)
    end.

(** ** Specification *)

(** The service's steps: flushes at any time, a timer that starts a round when
    the training thread is free, and the steps of a round. *)
Inductive service_step {P : Pandas} (cfg : train_config) : service → service → Prop :=
| step_flush n d s : service_step cfg s (handle_flush cfg n d s)
| step_start s : round s = NoRound → service_step cfg s (train_start cfg s)
| step_select s : service_step cfg s (train_select cfg s)
| step_fail s : service_step cfg s (train_fail s)
| step_finish replay s : service_step cfg s (train_finish cfg replay s).

Definition online_rows (s : service) : list row := rows (default empty_df (ONLINE_DF s)).

(** The rows the buffer holds *)
Definition buffer_rows (buffer : option (option DataFrame)) : list row :=
  match buffer with Some (Some d) => rows d | _ => [] end.

(** ** Lemmas: choosing rows *)

Section selection_lemmas.
Context {P : Pandas} {PL : PandasLaws P}.

Lemma df_sort_perm na c d : rows (df_sort na c d) ≡ₚ rows d.
Proof. destruct c; [apply sort_perm|done]. Qed.

Lemma df_sort_len na c d : df_len (df_sort na c d) = df_len d.
Proof. unfold df_len, py_len. by rewrite (df_sort_perm na c d). Qed.

Lemma select_fifo_len h n : 0 ≤ n → df_len (select_fifo h n) = Z.min n (df_len h).
Proof.
  intros Hn. unfold select_fifo.
  destruct (Z.leb_spec n 0); simpl.
  { replace n with 0 by lia. unfold df_len, py_len. simpl. lia. }
  destruct (Z.eqb_spec (df_len h) 0) as [E|E]; [rewrite E; unfold df_len, py_len; simpl; lia|].
  rewrite df_sort_len. set (d := df_sort _ _ _). assert (df_len d = df_len h) as Hd by apply df_sort_len.
  unfold df_len, df_tail, py_len in *. simpl. rewrite length_drop. lia.
Qed.

(** The front of a sorted column is no newer than the back. *)
Lemma sorted_split na c l k a b :
  a ∈ take k (sort_values na c l) → b ∈ drop k (sort_values na c l) → older na c a b.
Proof.
  intros (i & Ha)%list_elem_of_lookup (j & Hb)%list_elem_of_lookup.
  apply lookup_take_Some in Ha as [Ha Hi]. rewrite lookup_drop in Hb.
  eapply sort_sorted; [exact Ha|exact Hb|lia].
Qed.

(** FIFO takes the newest rows: those it leaves out are no newer. *)
Lemma select_fifo_recent h n :
  ∃ rest, rows h ≡ₚ rest ++ rows (select_fifo h n) ∧
    ∀ c, sort_col time_columns h = Some c →
      ∀ a b, a ∈ rest → b ∈ rows (select_fifo h n) → older na_first c a b.
Proof.
  unfold select_fifo. destruct (_ || _).
  { exists (rows h). simpl. rewrite app_nil_r. split; [done|]. intros ????? Hb. by apply elem_of_nil in Hb. }
  set (d := df_sort na_first (sort_col time_columns h) h). unfold df_tail. simpl.
  set (k := (length (rows d) - _)%nat). exists (take k (rows d)). rewrite take_drop. split.
  - symmetry. apply df_sort_perm.
  - intros c Hc a b. unfold d. rewrite Hc. apply sorted_split.
Qed.

Lemma split_perm online offline r :
  let '(new, hist) := split_new_and_historical online offline r in
  rows new ++ rows hist ≡ₚ rows online ++ rows offline.
Proof.
  unfold split_new_and_historical. destruct (_ && _); simpl; rewrite !app_nil_r.
  - rewrite (Permutation_app_comm (rows offline)), app_assoc. f_equiv.
    induction (rows online) as [|x l IH]; [done|]. simpl. destruct (is_new r x); simpl.
    + by rewrite IH.
    + by rewrite <-Permutation_middle, IH.
  - done.
Qed.

Lemma split_new_columns online offline r :
  columns (split_new_and_historical online offline r).1 = columns online.
Proof. unfold split_new_and_historical. by destruct (_ && _). Qed.

Lemma sublist_filter_b (f : row → bool) l : sublist (List.filter f l) l.
Proof. induction l as [|x l IH]; simpl; [constructor|]. destruct (f x); by constructor. Qed.

Lemma select_replay_rows buffer m : 0 ≤ m → rows (select_replay buffer (Some m)) = take (Z.to_nat m) (buffer_rows buffer).
Proof.
  intros Hm. unfold select_replay. destruct buffer as [[d|]|]; [|by destruct (Z.to_nat m)..]. unfold df_len, py_len. simpl.
  destruct (Z.eqb_spec (Z.of_nat (length (rows d))) 0) as [E|E].
  { destruct (rows d); [by rewrite take_nil|done]. }
  destruct (Z.ltb_spec m (Z.of_nat (length (rows d)))); [|by rewrite take_ge by lia].
  unfold df_head. simpl. by destruct (Z.ltb_spec m 0); [lia|].
Qed.

Lemma ids_of_sub d x : x ∈ ids_of d → x ∈ request_id <$> rows d.
Proof. unfold ids_of. destruct (_ && _); [done|by intros ?%elem_of_nil]. Qed.

Lemma ids_of_col d : has_col "request_id" d = true → ids_of d = request_id <$> rows d.
Proof. unfold ids_of, df_len. intros ->. by destruct (rows d). Qed.

(** The backfill takes rows of the history; it has the rows asked for, or every row that is not in
    the other pools; and it repeats no id. *)
Lemma backfill_spec h f r needed :
  let b := backfill_from_historical h f r needed in
  df_len b ≤ Z.max 0 needed ∧ rows b ⊆+ rows h ∧
  (needed ≤ df_len b ∨ ∀ x, x ∈ rows h → request_id x ∈ request_id <$> rows f ++ rows r ++ rows b) ∧
  (has_col "request_id" h = true → ∀ x, x ∈ rows b → request_id x ∉ ids_of f ++ ids_of r).
Proof.
  assert (Hnil : df_len empty_df ≤ Z.max 0 needed ∧ rows empty_df ⊆+ rows h) by (split; [unfold df_len, py_len; simpl; lia|apply submseteq_nil_l]).
  unfold backfill_from_historical. destruct (Z.leb_spec needed 0); cbn [orb]; cbv zeta.
  { destruct Hnil. split_and!; [done..| |by intros _ x ?%elem_of_nil]. left. unfold df_len, py_len. simpl. lia. }
  destruct (Z.eqb_spec (df_len h) 0) as [Eh|_].
  { destruct Hnil. split_and!; [done..| |by intros _ x ?%elem_of_nil]. right. intros x Hx. unfold df_len in Eh. by destruct (rows h); [apply elem_of_nil in Hx|]. }
  set (c := if has_col _ _ then _ else _).
  assert (Hc : sublist (rows c) (rows h)) by (unfold c; destruct (has_col _ _); [apply sublist_filter_b|done]).
  assert (Hout : ∀ x, x ∈ rows h → x ∈ rows c ∨ request_id x ∈ request_id <$> rows f ++ rows r).
  { intros x Hx. unfold c. destruct (has_col _ _); [|by left]. simpl. rewrite elem_of_filter_b, negb_true_iff, bool_decide_eq_false.
    destruct (decide (request_id x ∈ ids_of f ++ ids_of r)) as [Hi|Hi]; [right|by left]. rewrite fmap_app, elem_of_app in *.
    destruct Hi as [Hi%ids_of_sub|Hi%ids_of_sub]; auto. }
  assert (Hnew : has_col "request_id" h = true → ∀ x, x ∈ rows c → request_id x ∉ ids_of f ++ ids_of r).
  { intros E x. unfold c. rewrite E. simpl. by rewrite elem_of_filter_b, negb_true_iff, bool_decide_eq_false; intros [? ?]. }
  destruct (Z.eqb_spec (df_len c) 0) as [Ec|_].
  { destruct Hnil. split_and!; [done..| |by intros _ x ?%elem_of_nil]. right. intros x Hx. unfold df_len in Ec. destruct (Hout x Hx) as [Hi|Hi].
    - by destruct (rows c); [apply elem_of_nil in Hi|].
    - by rewrite app_nil_r. }
  unfold df_len, py_len in *. cbn [rows]. set (n := Z.to_nat _). assert (length (df_sample n (rows c)) = n) as Hn by (apply sample_length; lia).
  pose proof (sample_sub n (rows c)) as Hs. split_and!.
  - rewrite Hn. lia.
  - etrans; [exact Hs|by apply sublist_submseteq].
  - destruct (decide (Z.of_nat (length (rows c)) < needed)) as [Hlt|]; [right|left; lia]. intros x Hx.
    assert (df_sample n (rows c) ≡ₚ rows c) as Hperm by (apply submseteq_length_Permutation; [done|lia]).
    rewrite !fmap_app, !elem_of_app. destruct (Hout x Hx) as [Hi|Hi]; [right; right|by rewrite fmap_app, elem_of_app in Hi; tauto].
    rewrite Hperm. by apply list_elem_of_fmap_2.
  - intros E x Hx. apply Hnew; [done|]. by eapply elem_of_submseteq.
Qed.

Lemma select_fifo_column h n c : has_col c h = true → rows (select_fifo h n) ≠ [] → has_col c (select_fifo h n) = true.
Proof. unfold select_fifo. destruct (_ || _); [done|]. by destruct (sort_col _ _). Qed.

Lemma two_pools_spec fifo replay n buffer offline online :
  0 ≤ fifo → 0 ≤ replay →
  let '(new, hist) := split_new_and_historical online offline n in
  let f := select_fifo hist fifo in
  let replayed := take (Z.to_nat (fifo + replay - df_len f)) (buffer_rows buffer) in
  ∃ r backfill, two_pools fifo replay n buffer offline online = (new, f, r) ∧ rows r = replayed ++ backfill ∧
    df_len f + py_len replayed + py_len backfill ≤ fifo + replay ∧ backfill ⊆+ rows hist ∧
    (df_len f + py_len replayed + py_len backfill = fifo + replay ∨
     ∀ x, x ∈ rows hist → request_id x ∈ request_id <$> rows f ++ replayed ++ backfill) ∧
    (has_col "request_id" hist = true → ∀ x, x ∈ backfill → request_id x ∉ request_id <$> rows f).
Proof.
  intros Hf Hr. unfold two_pools. destruct (split_new_and_historical online offline n) as [new hist]. cbv zeta.
  pose proof (select_fifo_len hist fifo Hf) as Hfl. set (f := select_fifo hist fifo) in *. set (needed := fifo + replay - df_len f).
  pose proof (select_replay_rows buffer needed ltac:(lia)) as Hrep. set (r := select_replay buffer (Some needed)) in *.
  set (replayed := take _ _) in *. assert (py_len replayed ≤ needed) as Hl by (unfold replayed, py_len; rewrite length_take; lia).
  assert (df_len r = py_len replayed) as Hlr by (unfold df_len; by rewrite Hrep). destruct (_ && _) eqn:E.
  - apply andb_true_iff in E as [E _]. apply Z.ltb_lt in E. destruct (backfill_spec hist f r (needed - df_len r)) as (Hb & Hs & Hfull & Hnew).
    set (b := backfill_from_historical hist f r (needed - df_len r)) in *. exists (df_concat [r; b]), (rows b). split; [done|].
    split; [simpl; by rewrite Hrep, app_nil_r|]. change (py_len (rows b)) with (df_len b). split; [lia|]. split; [done|]. split.
    + rewrite Hrep in Hfull. destruct Hfull as [Hfull|Hfull]; [left; lia|by right].
    + intros Hc x Hx Hin. apply (Hnew Hc x Hx). apply elem_of_app. left. destruct (rows f) eqn:Ef; [by apply elem_of_nil in Hin|].
      rewrite ids_of_col, Ef; [done|]. apply select_fifo_column; [done|]. fold f. by rewrite Ef.
  - exists r, []. rewrite app_nil_r, Hrep. split; [done|]. split; [done|]. unfold py_len at 2 4. cbn [length Z.of_nat]. split; [lia|]. split; [apply submseteq_nil_l|].
    split; [|by intros _ x ?%elem_of_nil]. apply andb_false_iff in E as [E|E]; apply Z.ltb_ge in E; [left; lia|].
    right. intros x Hx. unfold df_len, py_len in E. by destruct (rows hist); [apply elem_of_nil in Hx|].
Qed.

Lemma dedup_spec d :
  has_col "request_id" d = true →
  NoDup (request_id <$> rows (dedup d)) ∧ sublist (rows (dedup d)) (rows d) ∧
  ∀ r, r ∈ rows d → ∃ r', r' ∈ rows (dedup d) ∧ request_id r' = request_id r.
Proof.
  intros H. unfold dedup. rewrite H. simpl. split_and!; [apply dedup_nodup|apply dedup_sub|apply dedup_keeps].
Qed.

(** The offline part of an eviction. *)
Lemma evict_offline (offline : DataFrame) overflow :
  0 < overflow →
  let remove := Z.min overflow (df_len offline) in
  let offline' := if 0 <? remove then df_skip remove offline else offline in
  df_len offline' = df_len offline - remove ∧
  (if 0 <? remove then overflow - remove else overflow) = overflow - remove ∧
  rows offline' `suffix_of` rows offline.
Proof.
  intros Hpos remove offline'. assert (0 ≤ df_len offline) by (unfold df_len, py_len; lia).
  unfold offline'. destruct (Z.ltb_spec 0 remove).
  - unfold df_len, df_skip, py_len in *. simpl. rewrite length_drop.
    split_and!; [unfold remove in *; lia|done|apply suffix_drop].
  - split_and!; [unfold remove in *; lia..|done].
Qed.

Lemma df_skip_len n d : 0 ≤ n ≤ df_len d → df_len (df_skip n d) = df_len d - n.
Proof. unfold df_len, df_skip, py_len. simpl. rewrite length_drop. lia. Qed.

End selection_lemmas.

Lemma evict_sub {P : Pandas} {PL : PandasLaws P} off on k :
  0 ≤ k →
  match evict_global_data off on k with
  | None => df_len off + df_len on ≤ k
  | Some (_, on') => rows on' ⊆+ rows on
  end.
Proof.
  intros Hk. unfold evict_global_data. destruct (Z.leb_spec (df_len off + df_len on) k); [done|].
  destruct (_ && _); [|done]. simpl. etrans; [apply submseteq_drop|]. by rewrite df_sort_perm.
Qed.

(** ** Lemmas: a stuck flag *)

Lemma stuck_step {P : Pandas} cfg s s' :
  TRAINING_RIGHT_NOW s = true → round s = NoRound → service_step cfg s s' →
  TRAINING_RIGHT_NOW s' = true ∧ round s' = NoRound ∧ NUM_TRAINS s' = NUM_TRAINS s.
Proof.
  intros Hflag Hround Hstep. destruct Hstep as [n d s|s Hr|s|s|replay s].
  - unfold handle_flush. destruct d as [d|]; [|done]. destruct (ENABLE_ONLINE_LEARNING cfg); [|done].
    by destruct (online_batch _ _ _ _).
  - unfold train_start, gates_open. rewrite Hflag. simpl. by rewrite andb_false_r.
  - unfold train_select. by rewrite Hround.
  - unfold train_fail. by rewrite Hround.
  - unfold train_finish. by rewrite Hround.
Qed.

(** ** A concrete instance of pandas and of the service's data *)

Definition older_dec na c a b : Decision (older na c a b).
Proof.
  unfold older. destruct (cells a !! c), (cells b !! c).
  - destruct (Qlt_le_dec q0 q); [right; intros ?; lra|by left].
  - destruct na; [right|left]; done.
  - destruct na; [left|right]; done.
  - by left.
Defined.

#[export] Existing Instance older_dec.

#[export] Instance older_total na c : Total (older na c).
Proof.
  intros a b. unfold older. destruct (cells a !! c) as [x|], (cells b !! c) as [y|]; auto.
  - destruct (Qlt_le_dec x y); [left|right]; lra.
  - destruct na; auto.
  - destruct na; auto.
Qed.

#[export] Instance older_trans na c : Transitive (older na c).
Proof.
  intros x y z. unfold older. destruct (cells x !! c), (cells y !! c), (cells z !! c); try done.
  - intros. lra.
  - intros ? ->. done.
Qed.

Fixpoint keep_first (seen : list (option string)) (l : list row) : list row :=
  match l with
  | [] => []
  | r :: l' => if bool_decide (request_id r ∈ seen) then keep_first seen l'
               else r :: keep_first (request_id r :: seen) l'
  end.

Definition demo_pandas : Pandas := {|
  sort_values na c l := merge_sort (older na c) l;
  df_sample n l := take n l;
  drop_duplicates l := keep_first [] l
|}.

Lemma keep_first_spec seen l :
  sublist (keep_first seen l) l ∧ NoDup (request_id <$> keep_first seen l) ∧
  (∀ r, r ∈ keep_first seen l → request_id r ∉ seen) ∧
  ∀ r, r ∈ l → request_id r ∈ seen ∨ ∃ r', r' ∈ keep_first seen l ∧ request_id r' = request_id r.
Proof.
  revert seen. induction l as [|x l IH]; intros seen; simpl.
  { split_and!; [constructor|constructor|set_solver..]. }
  case_bool_decide as Hx.
  - destruct (IH seen) as (H1 & H2 & H3 & H4). split_and!; [by constructor|done|done|].
    intros r [->|Hr]%elem_of_cons; [by left|by apply H4].
  - destruct (IH (request_id x :: seen)) as (H1 & H2 & H3 & H4). split_and!.
    + by constructor.
    + csimpl. constructor; [|done]. intros (r & E & Hr)%list_elem_of_fmap. apply (H3 r Hr). rewrite <-E. left.
    + intros r [->|Hr]%elem_of_cons; [done|]. intros Hin. apply (H3 r Hr). by right.
    + intros r [->|Hr]%elem_of_cons; [right; exists x; split; [left|done]|].
      destruct (H4 r Hr) as [[E|Hs]%elem_of_cons|(r' & ? & ?)]; [|by left|].
      * right. exists x. split; [left|done].
      * right. exists r'. split; [by right|done].
Qed.

Lemma strongly_sorted_lookup {A} (R : relation A) (l : list A) i j a b :
  Reflexive R → StronglySorted R l → l !! i = Some a → l !! j = Some b → (i ≤ j)%nat → R a b.
Proof.
  intros Hrefl Hs. revert i j. induction Hs as [|x l Hs IH Hx]; intros i j Hi Hj Hle; [done|].
  destruct i as [|i], j as [|j]; simpl in *; simplify_eq; [done| |lia|].
  - rewrite Forall_forall in Hx. apply Hx. by eapply list_elem_of_lookup_2.
  - eapply IH; [done..|lia].
Qed.

Lemma demo_pandas_laws : PandasLaws demo_pandas.
Proof.
  split; simpl.
  - intros. apply merge_sort_Permutation.
  - intros na c l i j a b. apply strongly_sorted_lookup; [|apply StronglySorted_merge_sort; apply _].
    intros x. destruct (total (older na c) x x); done.
  - intros. rewrite length_take. lia.
  - intros. apply submseteq_take.
  - intros l. apply (keep_first_spec [] l).
  - intros l. apply (keep_first_spec [] l).
  - intros l r Hr. destruct (keep_first_spec [] l) as (_ & _ & _ & H).
    destruct (H r Hr) as [?%elem_of_nil|?]; done.
Qed.

(** Three online rows, the last of the current round, and one offline row. *)
Definition demo_row (id : string) (seq round : Z) : row :=
  mkRow (Some id) (<["_online_seq"%string := inject_Z seq]>
                    {["_collection_round"%string := inject_Z round]}).

Definition demo_online : DataFrame :=
  mkDF {["request_id"; "_online_seq"; "_collection_round"]}%string
    [demo_row "a" 0 0; demo_row "b" 1 0; demo_row "c" 2 1].

Definition demo_offline : DataFrame := mkDF {["request_id"%string]} [mkRow (Some "z"%string) ∅].

Definition demo_train_config : train_config := mkTrainConfig true None 2 1 100 0 0 (-1) true 0 false.

Definition demo_service : service :=
  mkService (Some demo_offline) (Some demo_online) 1 3 0 1 3 4 4 false true None
    (mkTrainHyper None None None) NoRound.

(** ** Properties *)

(** C7: the rows of a two-pool round. They are the new batch, the FIFO part, the first rows of the
    replay buffer and a backfill, each id once and no chosen id left out. The FIFO part is as large
    as it can be and holds the newest rows of the history; the replayed rows fill the pool as
    far as the buffer reaches; the backfill takes other rows of the history, until
    the pool is full or every row of the history has its id among the training rows. *)
Theorem two_pool_round_rows (P : Pandas) (PL : PandasLaws P) (cfg : train_config) (s : service)
    (offline online : DataFrame) :
  0 ≤ FIFO_SIZE cfg → 0 ≤ REPLAY_SIZE cfg → 0 < FIFO_SIZE cfg + REPLAY_SIZE cfg →
  has_col "request_id" online = true →
  let '(new, hist) := split_new_and_historical online offline (NUM_TRAINS s) in
  let pool := FIFO_SIZE cfg + REPLAY_SIZE cfg in
  let fifo := select_fifo hist (FIFO_SIZE cfg) in
  let replayed := take (Z.to_nat (pool - df_len fifo)) (buffer_rows (REPLAY_BUFFER s)) in
  let training := (choose_rows cfg s offline online).1 in
  ∃ backfill rest,
    let chosen := rows new ++ rows fifo ++ replayed ++ backfill in
    rows new ++ rows hist ≡ₚ rows online ++ rows offline ∧
    NoDup (request_id <$> rows training) ∧ sublist (rows training) chosen ∧
    (∀ r, r ∈ chosen → request_id r ∈ request_id <$> rows training) ∧
    df_len fifo = Z.min (FIFO_SIZE cfg) (df_len hist) ∧ rows hist ≡ₚ rest ++ rows fifo ∧
    (∀ c, sort_col time_columns hist = Some c → ∀ a b, a ∈ rest → b ∈ rows fifo → older na_first c a b) ∧
    backfill ⊆+ rows hist ∧
    (has_col "request_id" hist = true → ∀ r, r ∈ backfill → request_id r ∉ request_id <$> rows fifo) ∧
    df_len fifo + py_len replayed + py_len backfill ≤ pool ∧
    (df_len fifo + py_len replayed + py_len backfill = pool ∨
     ∀ r, r ∈ rows hist → request_id r ∈ request_id <$> rows training).
Proof.
  intros Hf Hr Hpos Hid. pose proof (split_perm online offline (NUM_TRAINS s)) as Hsplit.
  pose proof (two_pools_spec (FIFO_SIZE cfg) (REPLAY_SIZE cfg) (NUM_TRAINS s) (REPLAY_BUFFER s) offline online Hf Hr)
    as Hpools.
  assert (Hc1 : is_cl_mode cfg && (0 <? NUM_TRAINS s) && (FIFO_SIZE cfg =? 0) && (REPLAY_SIZE cfg =? 0) = false)
    by (destruct (is_cl_mode cfg), (0 <? NUM_TRAINS s); simpl; lia).
  assert (Hc2 : (0 <? FIFO_SIZE cfg) || (0 <? REPLAY_SIZE cfg) = true) by lia.
  unfold choose_rows. rewrite Hc1, Hc2.
  pose proof (split_new_columns online offline (NUM_TRAINS s)) as Hcol.
  destruct (split_new_and_historical online offline (NUM_TRAINS s)) as [new hist]. simpl in Hcol.
  destruct Hpools as (r & backfill & -> & Hrows & Hlen & Hsub & Hfull & Hother). cbv zeta. cbn [fst].
  set (fifo := select_fifo hist (FIFO_SIZE cfg)) in *. set (replayed := take _ _) in *. set (all := df_concat [new; fifo; r]).
  assert (Hall : rows all = rows new ++ rows fifo ++ replayed ++ backfill) by (unfold all; simpl; by rewrite app_nil_r, Hrows).
  assert (Hidall : has_col "request_id" all = true).
  { unfold has_col in *. apply bool_decide_eq_true in Hid. apply bool_decide_eq_true. unfold all. simpl. rewrite Hcol. set_solver. }
  destruct (dedup_spec all Hidall) as (Hnd & Hdd & Hkeep). rewrite Hall in Hdd.
  assert (Hin : ∀ x, x ∈ rows new ++ rows fifo ++ replayed ++ backfill → request_id x ∈ request_id <$> rows (dedup all)).
  { intros x Hx. rewrite <-Hall in Hx. destruct (Hkeep x Hx) as (y & Hy & <-). by apply list_elem_of_fmap_2. }
  destruct (select_fifo_recent hist (FIFO_SIZE cfg)) as (rest & Hperm & Hold). exists backfill, rest.
  split_and!; try done; [by apply select_fifo_len|]. destruct Hfull as [Hfull|Hfull]; [by left|right].
  intros x Hx. apply Hfull, list_elem_of_fmap in Hx as (y & -> & Hy). apply Hin, elem_of_app. by right.
Qed.

Lemma two_pool_round_rows_witness :
  let s := demo_service in
  let '(new, hist) := split_new_and_historical demo_online demo_offline (NUM_TRAINS s) in
  let pool := FIFO_SIZE demo_train_config + REPLAY_SIZE demo_train_config in
  let fifo := @select_fifo demo_pandas hist (FIFO_SIZE demo_train_config) in
  let replayed := take (Z.to_nat (pool - df_len fifo)) (buffer_rows (REPLAY_BUFFER s)) in
  let training := (@choose_rows demo_pandas demo_train_config s demo_offline demo_online).1 in
  ∃ backfill rest,
    let chosen := rows new ++ rows fifo ++ replayed ++ backfill in
    rows new ++ rows hist ≡ₚ rows demo_online ++ rows demo_offline ∧
    NoDup (request_id <$> rows training) ∧ sublist (rows training) chosen ∧
    (∀ r, r ∈ chosen → request_id r ∈ request_id <$> rows training) ∧
    df_len fifo = Z.min (FIFO_SIZE demo_train_config) (df_len hist) ∧ rows hist ≡ₚ rest ++ rows fifo ∧
    (∀ c, sort_col time_columns hist = Some c → ∀ a b, a ∈ rest → b ∈ rows fifo → older na_first c a b) ∧
    backfill ⊆+ rows hist ∧
    (has_col "request_id" hist = true → ∀ r, r ∈ backfill → request_id r ∉ request_id <$> rows fifo) ∧
    df_len fifo + py_len replayed + py_len backfill ≤ pool ∧
    (df_len fifo + py_len replayed + py_len backfill = pool ∨
     ∀ r, r ∈ rows hist → request_id r ∈ request_id <$> rows training).
Proof.
  apply (two_pool_round_rows demo_pandas demo_pandas_laws demo_train_config demo_service
    demo_offline demo_online); [discriminate|discriminate|reflexivity|by vm_compute].
Defined.

(** Eviction keeps exactly [max_keep] rows when there were more: a suffix of
    the offline store and part of the online store, and an online row goes only
    when no offline row is left and no kept row is older. *)
Theorem evict_keeps_newest (P : Pandas) (PL : PandasLaws P) (offline online : DataFrame) (max_keep : Z) :
  0 ≤ max_keep →
  match evict_global_data offline online max_keep with
  | None => df_len offline + df_len online ≤ max_keep
  | Some (offline', online') =>
    df_len offline' + df_len online' = max_keep ∧ max_keep < df_len offline + df_len online ∧
    rows offline' `suffix_of` rows offline ∧
    ∃ gone, rows online ≡ₚ gone ++ rows online' ∧ (gone ≠ [] → rows offline' = []) ∧
      ∀ c, sort_col time_columns online = Some c →
        ∀ a b, a ∈ gone → b ∈ rows online' → older na_last c a b
  end.
Proof.
  intros Hk. unfold evict_global_data.
  destruct (Z.leb_spec (df_len offline + df_len online) max_keep) as [H|H]; [done|].
  set (overflow := df_len offline + df_len online - max_keep).
  assert (0 ≤ df_len offline ∧ 0 ≤ df_len online) by (unfold df_len, py_len; lia).
  destruct (evict_offline offline overflow) as (Hlen & Hover & Hsuf); [unfold overflow; lia|].
  rewrite Hover. set (over' := overflow - _) in *. set (off' := if _ <? _ then _ else offline) in *.
  destruct (Z.ltb_spec 0 over') as [Hpos|Hpos]; simpl.
  - destruct (Z.ltb_spec 0 (df_len online)) as [Hne|Hne]; [|unfold overflow in *; lia].
    set (d := df_sort na_last (sort_col time_columns online) online).
    assert (df_len d = df_len online) as Hd by apply df_sort_len.
    rewrite df_skip_len by (unfold overflow in *; lia). split_and!; try done; try (unfold overflow in *; lia).
    exists (take (Z.to_nat over') (rows d)). simpl. rewrite take_drop. split_and!.
    + symmetry. apply df_sort_perm.
    + intros _. apply length_zero_iff_nil. unfold df_len, py_len in *. lia.
    + intros c Hc a b. unfold d. rewrite Hc. apply sorted_split.
  - split_and!; try done; try (unfold overflow in *; lia).
    exists []. split_and!; try done. set_solver.
Qed.

Lemma evict_keeps_newest_witness :
  match @evict_global_data demo_pandas demo_offline demo_online 2 with
  | None => df_len demo_offline + df_len demo_online ≤ 2
  | Some (offline', online') =>
    df_len offline' + df_len online' = 2 ∧ 2 < df_len demo_offline + df_len demo_online ∧
    rows offline' `suffix_of` rows demo_offline ∧
    ∃ gone, rows demo_online ≡ₚ gone ++ rows online' ∧ (gone ≠ [] → rows offline' = []) ∧
      ∀ c, sort_col time_columns demo_online = Some c →
        ∀ a b, a ∈ gone → b ∈ rows online' → older na_last c a b
  end.
Proof. apply (evict_keeps_newest demo_pandas demo_pandas_laws demo_offline demo_online 2). discriminate. Defined.

(** A flush that lands between a round's copy of the stores and its
    eviction is lost: its rows are counted as new data, but the round overwrites
    the online store with what is left of its copy, so every row of the store
    afterwards was there before the flush. *)
Theorem flush_during_round_lost (P : Pandas) (PL : PandasLaws P) (cfg : train_config) (s : service)
    (n : Z) (d off on : DataFrame) :
  0 ≤ FIFO_SIZE cfg → 0 ≤ REPLAY_SIZE cfg → 0 < FIFO_SIZE cfg + REPLAY_SIZE cfg →
  OFFLINE_DF s = Some off → ONLINE_DF s = Some on →
  FIFO_SIZE cfg + REPLAY_SIZE cfg < df_len off + df_len on → gates_open cfg s = true →
  let s1 := handle_flush cfg n (Some d) (train_start cfg s) in
  let s2 := train_select cfg s1 in
  NUM_NEW_DATA s2 = NUM_NEW_DATA s + n ∧ online_rows s2 ⊆+ online_rows s.
Proof.
  intros Hf Hr Hpos Hoff Hon Hover Hgates s1 s2.
  assert (Hs1 : round s1 = Copied off on ∧ NUM_NEW_DATA s1 = NUM_NEW_DATA s + n).
  { unfold s1, train_start. rewrite Hgates, Hoff, Hon. simpl.
    replace ((df_len off =? 0) && (df_len on =? 0)) with false by (unfold df_len, py_len in *; lia).
    unfold handle_flush. destruct (ENABLE_ONLINE_LEARNING cfg); [|done].
    by destruct (online_batch _ _ _ _). }
  destruct Hs1 as [Hround Hnew].
  pose proof (evict_sub off on (FIFO_SIZE cfg + REPLAY_SIZE cfg) ltac:(lia)) as Hev.
  assert (Hchoose : (choose_rows cfg s1 off on).2 =
    evict_global_data off on (FIFO_SIZE cfg + REPLAY_SIZE cfg)).
  { unfold choose_rows. 
    replace (is_cl_mode cfg && (0 <? NUM_TRAINS s1) && (FIFO_SIZE cfg =? 0) && (REPLAY_SIZE cfg =? 0))
      with false by (destruct (is_cl_mode cfg), (0 <? NUM_TRAINS s1); simpl; lia).
    replace ((0 <? FIFO_SIZE cfg) || (0 <? REPLAY_SIZE cfg)) with true by lia.
    by destruct (two_pools _ _ _ _ _ _) as [[? ?] ?]. }
  unfold s2, train_select. rewrite Hround.
  destruct (choose_rows cfg s1 off on) as [training stores]. simpl in Hchoose. subst stores.
  destruct (evict_global_data off on (FIFO_SIZE cfg + REPLAY_SIZE cfg)) as [[off' on']|]; [|lia].
  unfold online_rows. rewrite Hon. destruct (df_len training =? 0); simpl; by split.
Qed.

(** A flush of two requests while the round of [demo_service] is running. *)
Lemma flush_during_round_lost_witness :
  let s1 := handle_flush demo_train_config 2 (Some (mkDF {["request_id"%string]}
              [mkRow (Some "x"%string) ∅; mkRow (Some "y"%string) ∅]))
              (train_start demo_train_config demo_service) in
  let s2 := @train_select demo_pandas demo_train_config s1 in
  length (online_rows s1) = 5%nat ∧
  NUM_NEW_DATA s2 = NUM_NEW_DATA demo_service + 2 ∧ online_rows s2 ⊆+ online_rows demo_service.
Proof.
  split; [by vm_compute|].
  apply (flush_during_round_lost demo_pandas demo_pandas_laws demo_train_config demo_service 2 _
    demo_offline demo_online); first [discriminate|reflexivity].
Defined.

(** A routing strategy without a trainer ends training for good: the round
    returns without resetting its flag, and no sequence of flushes, timer runs
    and round steps ever trains again. *)
Theorem unknown_strategy_stops_training (P : Pandas) (cfg : train_config) (s s' : service)
    (replay : option (option DataFrame)) :
  strategy_known cfg = false → round s = Selected → TRAINING_RIGHT_NOW s = true →
  rtc (service_step cfg) (train_finish cfg replay s) s' →
  TRAINING_RIGHT_NOW s' = true ∧ round s' = NoRound ∧ NUM_TRAINS s' = NUM_TRAINS s.
Proof.
  intros Hstrat Hround Hflag. apply (rtc_ind_r (λ s', TRAINING_RIGHT_NOW s' = true ∧
    round s' = NoRound ∧ NUM_TRAINS s' = NUM_TRAINS s)).
  - unfold train_finish. by rewrite Hround, Hstrat.
  - intros s1 s2 _ Hstep (H1 & H2 & H3). rewrite <-H3. by eapply stuck_step.
Qed.

Lemma unknown_strategy_stops_training_witness :
  let s := set_round true (mkTrainHyper None None None) Selected demo_service in
  let s' := handle_flush demo_train_config 500 None (@train_finish demo_train_config None s) in
  TRAINING_RIGHT_NOW s' = true ∧ round s' = NoRound ∧ NUM_TRAINS s' = NUM_TRAINS s.
Proof.
  apply (unknown_strategy_stops_training demo_pandas demo_train_config
    (set_round true (mkTrainHyper None None None) Selected demo_service) _ None);
    [reflexivity..|apply rtc_once; constructor].
Defined.
