(* ===== verification/RunningStats.v ===== *)
(** * Running statistics of a feature

    Models the class [RunningStats] of
    [python/routing_agent_service/agent_codes/data_normalizer.py]: mean, sum of
    squared differences, deviation and range of a feature, replaced from one
    batch or merged batch by batch, and the normalization that uses them. The
    arrays of the class have one column, so that a batch is the list of its
    values. [np.sqrt] is a parameter. *)

From S2P Require Import Prelude Num.

Class Sqrt (F : Type) := np_sqrt : F → F.

Record RunningStats (F : Type) := mkRS {
  rs_count : Z;
  rs_mean : option F;
  rs_sum_sq_diff : option F;
  rs_std : option F;
  rs_min : option F;
  rs_max : option F;
  rs_feature_names : string
}.

Arguments mkRS {F}.
Arguments rs_count {F}.
Arguments rs_mean {F}.
Arguments rs_sum_sq_diff {F}.
Arguments rs_std {F}.
Arguments rs_min {F}.
Arguments rs_max {F}.
Arguments rs_feature_names {F}.

Section running_stats.
Context {F : Type} {NF : Num F} {NP : Numpy F} {SQ : Sqrt F}.
Open Scope num_scope.

(** [np.var]: the mean of the squared distances to the mean. *)
Definition np_var (l : list F) : F :=
  let m := np_mean l in np_mean ((λ x, np_square (x - m)) <$> l).

Definition np_abs (x : F) : F := if nle (lit 0) x then x else - x.

(** [np.isclose(x, 0, atol=atol)], with the default relative tolerance. *)
Definition np_isclose0 (atol x : F) : bool :=
  np_abs (x - lit 0) <=? atol + nlit 1 100000 * np_abs (lit 0).

(** [x == 0] *)
Definition is_zero (x : F) : bool := (x <=? lit 0) && (lit 0 <=? x).

Definition new_RunningStats (feature_names : string) : RunningStats F :=
  mkRS 0 None None None None None feature_names.

Definition set_stats (count : Z) (mean ssd std lo hi : option F) (s : RunningStats F) : RunningStats F :=
  mkRS count mean ssd std lo hi (rs_feature_names s).

Definition replace_stats_from_data (new_data : list F) (s : RunningStats F) : RunningStats F :=
  match new_data with
  | [] => s
  | _ =>
    let count := py_len new_data in
    let ssd := np_var new_data * lit count in
    set_stats count (Some (np_mean new_data)) (Some ssd) (Some (np_sqrt (ssd / lit count)))
      (Some (np_min new_data)) (Some (np_max new_data)) s
  end.

(** The range, started or widened. *)
Definition merge_range (new_data : list F) (s : RunningStats F) : RunningStats F :=
  let '(lo, hi) :=
    match rs_min s, rs_max s with
    | Some lo, Some hi => (np_minimum lo (np_min new_data), np_maximum hi (np_max new_data))
    | _, _ => (np_min new_data, np_max new_data)
    end in
  set_stats (rs_count s) (rs_mean s) (rs_sum_sq_diff s) (rs_std s) (Some lo) (Some hi) s.

(** Arithmetic on a field that is still [None]. *)
Definition need {A} (o : option A) : M (RunningStats F) A :=
  match o with Some x => ret x | None => raise TypeError end.

Definition update_stats_incrementally (new_data : list F) : M (RunningStats F) unit :=
  match new_data with
  | [] => ret tt
  | _ =>
    let new_count := py_len new_data in
    let* s := get in
    if (rs_count s =? 0)%Z then
      let ssd := np_var new_data * lit new_count in
      modify (set_stats new_count (Some (np_mean new_data)) (Some ssd)
                (Some (np_sqrt (ssd / lit new_count))) (rs_min s) (rs_max s)) ;;
      modify (merge_range new_data)
    else
      let batch_mean := np_mean new_data in
      let batch_var := np_var new_data * lit new_count in
      let new_total := (rs_count s + new_count)%Z in
      let* mean := need (rs_mean s) in
      let delta := batch_mean - mean in
      let mean' := mean + delta * lit new_count / lit new_total in
      modify (set_stats (rs_count s) (Some mean') (rs_sum_sq_diff s) (rs_std s) (rs_min s) (rs_max s)) ;;
      let* ssd := need (rs_sum_sq_diff s) in
      let ssd' := ssd + batch_var +
                  np_square delta * lit (rs_count s) * lit new_count / lit new_total in
      modify (set_stats new_total (Some mean') (Some ssd') (Some (np_sqrt (ssd' / lit new_total)))
                (rs_min s) (rs_max s)) ;;
      modify (merge_range new_data)
  end%py.

(** [normalize]: constant or invalid features become zeros. *)
Definition rs_normalize (s : RunningStats F) (data : list F) : outcome (list F) :=
  if (rs_count s =? 0)%Z then Raise AssertionError
  else match rs_mean s, rs_std s with
       | Some mean, Some std =>
         let zeros := (λ _, lit 0) <$> data in
         if is_zero std || np_isclose0 (nlit 1 10000000000) std then Ret zeros
         else if nisnan std then Ret zeros
         else
           let normalized := (λ x, (x - mean) / std) <$> data in
           if existsb nisnan normalized then Ret zeros else Ret normalized
       | _, _ => Raise TypeError
       end.

Definition updates (batches : list (list F)) : M (RunningStats F) unit :=
  for_each batches update_stats_incrementally.

End running_stats.

(** ** Lemmas: sums *)

Open Scope Q_scope.

Definition Qlen (l : list Q) : Q := inject_Z (py_len l).

Lemma Qlen_pos l : l ≠ [] → 0 < Qlen l.
Proof.
  intros Hl. unfold Qlen, py_len, Qlt, inject_Z. simpl. destruct l; [done|simpl; lia].
Qed.

Lemma Qlen_app l1 l2 : Qlen (l1 ++ l2) == Qlen l1 + Qlen l2.
Proof. unfold Qlen. by rewrite py_len_app, inject_Z_plus. Qed.

Lemma Qlen_map (f : Q → Q) l : Qlen (f <$> l) = Qlen l.
Proof. unfold Qlen, py_len. by rewrite length_fmap. Qed.

Lemma Qlen_cons x l : Qlen (x :: l) == Qlen l + 1.
Proof.
  unfold Qlen, py_len. simpl length. rewrite Nat2Z.inj_succ. unfold Z.succ.
  by rewrite inject_Z_plus.
Qed.

Definition sq_sum (m : Q) (l : list Q) : Q := Qsum ((λ x, (x - m) * (x - m)) <$> l).

Lemma sq_sum_app m l1 l2 : sq_sum m (l1 ++ l2) == sq_sum m l1 + sq_sum m l2.
Proof. unfold sq_sum. by rewrite fmap_app, Qsum_app. Qed.

#[export] Instance sq_sum_proper : Proper (Qeq ==> eq ==> Qeq) sq_sum.
Proof.
  intros m m' Hm l ? <-. unfold sq_sum. induction l as [|x l IH]; csimpl; [done|].
  by rewrite Hm, IH.
Qed.

(** The sum of squares around another centre. *)
Lemma sq_sum_shift m c l :
  m * Qlen l == Qsum l → sq_sum c l == sq_sum m l + Qlen l * ((m - c) * (m - c)).
Proof.
  intros Hm.
  assert (H : ∀ d, sq_sum d l == sq_sum 0 l - 2 * d * Qsum l + Qlen l * (d * d)).
  { intros d. clear Hm. unfold sq_sum, Qlen. induction l as [|x l IH]; [unfold py_len; simpl; ring|].
    fold (Qlen (x :: l)) in *. fold (Qlen l) in *. rewrite Qlen_cons. csimpl. rewrite IH. ring. }
  rewrite (H c), (H m), <-Hm. ring.
Qed.

(** ** Lemmas: statistics of a list *)

Section exact.
Context {NP : Numpy Q} {NL : NumpyLaws NP} {SQ : Sqrt Q}.

Lemma mean_Qlen l : l ≠ [] → np_mean l * Qlen l == Qsum l.
Proof. apply mean_sum. Qed.

Lemma var_sq_sum l : l ≠ [] → np_var l * Qlen l == sq_sum (np_mean l) l.
Proof.
  intros Hl. unfold np_var, sq_sum. rewrite <-(Qlen_map (λ x, np_square (x - np_mean l)) l) at 1.
  rewrite mean_Qlen; [done|]. by destruct l.
Qed.

(** What the fields say of the values seen so far. *)
Definition summarizes (l : list Q) (s : RunningStats Q) : Prop :=
  rs_count s = py_len l ∧
  ∃ m d v lo hi, rs_mean s = Some m ∧ rs_sum_sq_diff s = Some d ∧ rs_std s = Some (np_sqrt v) ∧
    rs_min s = Some lo ∧ rs_max s = Some hi ∧
    m * Qlen l == Qsum l ∧ d == sq_sum m l ∧ v == d / Qlen l ∧
    ((∃ x, x ∈ l ∧ lo == x) ∧ ∀ x, x ∈ l → lo <= x) ∧
    ((∃ x, x ∈ l ∧ hi == x) ∧ ∀ x, x ∈ l → x <= hi).

Lemma min_spec l : l ≠ [] → (∃ x, x ∈ l ∧ np_min l == x) ∧ ∀ x, x ∈ l → np_min l <= x.
Proof. intros Hl. split; [by apply min_attained|apply min_le]. Qed.

Lemma max_spec l : l ≠ [] → (∃ x, x ∈ l ∧ np_max l == x) ∧ ∀ x, x ∈ l → x <= np_max l.
Proof. intros Hl. split; [by apply max_attained|apply max_ge]. Qed.

Lemma replace_summarizes l s : l ≠ [] → summarizes l (replace_stats_from_data l s).
Proof.
  intros Hl. pose proof (Qlen_pos l Hl). destruct l as [|x l]; [done|].
  split; [done|]. do 5 eexists. do 5 (split; [done|]).
  split; [by apply mean_Qlen|]. split; [by apply var_sq_sum|]. split; [done|].
  split; [by apply min_spec|by apply max_spec].
Qed.

Lemma min_merge l1 l2 lo :
  l2 ≠ [] → (∃ x, x ∈ l1 ∧ lo == x) ∧ (∀ x, x ∈ l1 → lo <= x) →
  (∃ x, x ∈ l1 ++ l2 ∧ np_minimum lo (np_min l2) == x) ∧
  ∀ x, x ∈ l1 ++ l2 → np_minimum lo (np_min l2) <= x.
Proof.
  intros Hl [(x1 & Hx1 & E1) H1]. destruct (min_spec l2 Hl) as [(x2 & Hx2 & E2) H2].
  split.
  - destruct (Q.min_spec lo (np_min l2)) as [[_ E]|[_ E]]; setoid_rewrite np_minimum_Q;
      [exists x1|exists x2]; (split; [set_solver|by rewrite E]).
  - intros x. setoid_rewrite np_minimum_Q. intros [Hx|Hx]%elem_of_app.
    + eapply Qle_trans; [apply Q.le_min_l|by apply H1].
    + eapply Qle_trans; [apply Q.le_min_r|by apply H2].
Qed.

Lemma max_merge l1 l2 hi :
  l2 ≠ [] → (∃ x, x ∈ l1 ∧ hi == x) ∧ (∀ x, x ∈ l1 → x <= hi) →
  (∃ x, x ∈ l1 ++ l2 ∧ np_maximum hi (np_max l2) == x) ∧
  ∀ x, x ∈ l1 ++ l2 → x <= np_maximum hi (np_max l2).
Proof.
  intros Hl [(x1 & Hx1 & E1) H1]. destruct (max_spec l2 Hl) as [(x2 & Hx2 & E2) H2].
  split.
  - destruct (Q.max_spec hi (np_max l2)) as [[_ E]|[_ E]]; setoid_rewrite np_maximum_Q;
      [exists x2|exists x1]; (split; [set_solver|by rewrite E]).
  - intros x. setoid_rewrite np_maximum_Q. intros [Hx|Hx]%elem_of_app.
    + eapply Qle_trans; [by apply H1|apply Q.le_max_l].
    + eapply Qle_trans; [by apply H2|apply Q.le_max_r].
Qed.

(** Merging the mean of a batch. *)
Lemma mean_merge m l1 l2 :
  0 < Qlen l1 → l2 ≠ [] → m * Qlen l1 == Qsum l1 →
  (m + (np_mean l2 - m) * Qlen l2 / Qlen (l1 ++ l2)) * Qlen (l1 ++ l2) == Qsum (l1 ++ l2).
Proof.
  intros H1 H2 Hm. pose proof (Qlen_pos l2 H2). rewrite Qsum_app, <-Hm, <-(mean_Qlen l2 H2), Qlen_app.
  field. lra.
Qed.

(** Merging the squared differences of a batch. *)
Lemma sq_sum_merge m l1 l2 :
  0 < Qlen l1 → l2 ≠ [] → m * Qlen l1 == Qsum l1 →
  let m' := m + (np_mean l2 - m) * Qlen l2 / Qlen (l1 ++ l2) in
  sq_sum m l1 + np_var l2 * Qlen l2 +
    (np_mean l2 - m) * (np_mean l2 - m) * Qlen l1 * Qlen l2 / Qlen (l1 ++ l2) == sq_sum m' (l1 ++ l2).
Proof.
  intros H1 H2 Hm m'. pose proof (Qlen_pos l2 H2). rewrite sq_sum_app.
  rewrite (sq_sum_shift m m' l1 Hm), (sq_sum_shift (np_mean l2) m' l2) by by apply mean_Qlen.
  rewrite var_sq_sum by done. unfold m'. rewrite Qlen_app. field. lra.
Qed.

Lemma update_summarizes l b s :
  summarizes l s → l ≠ [] → b ≠ [] →
  ∃ s', update_stats_incrementally b s = (Ret tt, s') ∧ summarizes (l ++ b) s'.
Proof.
  intros (Hc & m & d & v & lo & hi & Em & Ed & Es & Elo & Ehi & Hm & Hd & Hv & Hlo & Hhi) Hl Hb.
  pose proof (Qlen_pos l Hl) as Hpos.
  assert (Hz : (rs_count s =? 0)%Z = false).
  { rewrite Hc. unfold py_len. destruct l; [done|]. simpl. lia. }
  destruct b as [|x b]; [done|]. set (bb := x :: b) in *. eexists.
  unfold update_stats_incrementally, merge_range, need. simpl. unfold bind, get. rewrite Hz, Em, Ed.
  simpl. rewrite Elo, Ehi. split; [reflexivity|]. split; [simpl; rewrite Hc; by rewrite py_len_app|].
  do 5 eexists. do 5 (split; [reflexivity|]).
  change (@lit Q Num_Q) with (λ n, inject_Z n). cbv beta. rewrite Hc, <-py_len_app.
  split; [by apply mean_merge|]. split; [rewrite Hd; by apply sq_sum_merge|]. split; [done|].
  split; [by apply min_merge|by apply max_merge].
Qed.

Lemma update_first b s :
  rs_count s = 0%Z → rs_min s = None → b ≠ [] →
  ∃ s', update_stats_incrementally b s = (Ret tt, s') ∧ summarizes b s'.
Proof.
  intros Hc Hmin Hb. pose proof (replace_summarizes b s Hb) as Hs. destruct b as [|x b]; [done|].
  eexists. split; [|exact Hs]. unfold update_stats_incrementally, bind, get. rewrite Hc. simpl.
  unfold merge_range. simpl. by rewrite Hmin.
Qed.

(** Batches after the first non-empty one. *)
Lemma updates_summarize batches l s :
  summarizes l s → l ≠ [] →
  ∃ s', updates batches s = (Ret tt, s') ∧ summarizes (l ++ concat batches) s'.
Proof.
  revert l s. induction batches as [|b batches IH]; intros l s Hs Hl; simpl.
  - exists s. by rewrite app_nil_r.
  - destruct (decide (b = [])) as [->|Hb]; [by apply IH|].
    destruct (update_summarizes l b s Hs Hl Hb) as (s1 & E1 & Hs1).
    destruct (IH (l ++ b) s1 Hs1) as (s2 & E2 & Hs2); [by destruct l|].
    exists s2. unfold updates in *. simpl. unfold bind. rewrite E1, E2. by rewrite app_assoc.
Qed.

Lemma updates_new batches name :
  concat batches ≠ [] →
  ∃ s, updates batches (new_RunningStats name) = (Ret tt, s) ∧ summarizes (concat batches) s.
Proof.
  induction batches as [|b batches IH]; simpl; [done|]. intros Hne.
  destruct (decide (b = [])) as [->|Hb]; [by apply IH|].
  destruct (update_first b (new_RunningStats name)) as (s1 & E1 & Hs1); [done..|].
  destruct (updates_summarize batches b s1 Hs1 Hb) as (s2 & E2 & Hs2).
  exists s2. unfold updates in *. simpl. unfold bind. by rewrite E1, E2.
Qed.

(** Statistics that agree as numbers. *)
Definition stats_eq (s1 s2 : RunningStats Q) : Prop :=
  rs_count s1 = rs_count s2 ∧
  option_Forall2 Qeq (rs_mean s1) (rs_mean s2) ∧
  option_Forall2 Qeq (rs_sum_sq_diff s1) (rs_sum_sq_diff s2) ∧
  option_Forall2 Qeq (rs_std s1) (rs_std s2) ∧
  option_Forall2 Qeq (rs_min s1) (rs_min s2) ∧
  option_Forall2 Qeq (rs_max s1) (rs_max s2).

Lemma attained_unique (R : Q → Q → Prop) (l : list Q) a b :
  (∀ x y, R x y → R y x → x == y) → (∀ x y z, x == y → R z y → R z x) →
  (∃ x, x ∈ l ∧ a == x) ∧ (∀ x, x ∈ l → R a x) →
  (∃ x, x ∈ l ∧ b == x) ∧ (∀ x, x ∈ l → R b x) → a == b.
Proof.
  intros Hanti Heq [(x & Hx & Ea) Ha] [(y & Hy & Eb) Hb].
  apply Hanti; [eapply Heq; [exact Eb|auto]|eapply Heq; [exact Ea|auto]].
Qed.

Lemma summarizes_unique l s1 s2 :
  Proper (Qeq ==> Qeq) np_sqrt → l ≠ [] → summarizes l s1 → summarizes l s2 → stats_eq s1 s2.
Proof.
  intros SP Hl (Hc1 & m1 & d1 & v1 & lo1 & hi1 & Em1 & Ed1 & Es1 & Elo1 & Ehi1 & Hm1 & Hd1 & Hv1 & Hlo1 & Hhi1)
    (Hc2 & m2 & d2 & v2 & lo2 & hi2 & Em2 & Ed2 & Es2 & Elo2 & Ehi2 & Hm2 & Hd2 & Hv2 & Hlo2 & Hhi2).
  pose proof (Qlen_pos l Hl) as Hpos. unfold stats_eq.
  rewrite Em1, Em2, Ed1, Ed2, Es1, Es2, Elo1, Elo2, Ehi1, Ehi2.
  assert (Hm : m1 == m2).
  { apply (Qmult_inj_r _ _ (Qlen l)); [lra|]. by rewrite Hm1, Hm2. }
  assert (Hd : d1 == d2) by by rewrite Hd1, Hd2, Hm.
  split; [congruence|]. do 2 (split; [by constructor|]).
  split; [constructor; apply SP; by rewrite Hv1, Hv2, Hd|].
  split; constructor.
  - apply (attained_unique Qle l); [intros; lra..|done|done].
  - apply (attained_unique (λ x y, y <= x) l); [intros; lra..|done|done].
Qed.

(** The values of a normalized column. *)
Lemma Qsum_scaled m k l : ¬ k == 0 → Qsum ((λ x, (x - m) / k) <$> l) == (Qsum l - m * Qlen l) / k.
Proof.
  intros Hk. unfold Qlen. induction l as [|x l IH]; [unfold py_len; simpl; by field|].
  fold (Qlen (x :: l)) in *. fold (Qlen l) in *. csimpl. rewrite IH, Qlen_cons. by field.
Qed.

Lemma sq_sum_scaled m k l : ¬ k == 0 → sq_sum 0 ((λ x, (x - m) / k) <$> l) == sq_sum m l / (k * k).
Proof.
  intros Hk. unfold sq_sum. induction l as [|x l IH]; csimpl; [by field|]. rewrite IH. by field.
Qed.

End exact.

(** [1e-10] and the like bound the distance to zero. *)
Lemma np_isclose0_Q (atol x : Q) : 0 <= atol → atol < x → np_isclose0 atol x = false.
Proof.
  intros Ha Hx. unfold np_isclose0, np_abs. simpl.
  destruct (Qle_bool_spec 0 (x - 0)); [|lra].
  match goal with |- Qle_bool ?a ?b = _ => destruct (Qle_bool_spec a b) as [H1|H1] end; [|done].
  exfalso. assert (E : (1 # 100000) * (if Qle_bool 0 0 then 0 else - 0) == 0) by reflexivity.
  simpl in H1. unfold lit in *. simpl in *. rewrite E in H1. lra.
Qed.

Lemma no_nan_Q (l : list Q) : existsb nisnan l = false.
Proof. by induction l. Qed.

(** ** Properties *)

(** A rational square root, exact on the squares it is asked for here. *)
Definition demo_sqrt : Sqrt Q := λ x, Z.sqrt (Qnum (Qred x)) # Z.to_pos (Z.sqrt (Zpos (Qden (Qred x)))).

Lemma demo_sqrt_proper : Proper (Qeq ==> Qeq) demo_sqrt.
Proof. intros x y Hxy. unfold demo_sqrt. by rewrite (Qred_complete x y Hxy). Qed.

(** C32: merging batches is exact. However the values of a feature are split into
    batches, empty ones included, the incremental updates return, and leave the
    count, mean, squared differences, deviation and range that one computation
    over all the values gives. *)
Theorem running_stats_incremental (NP : Numpy Q) (NL : NumpyLaws NP) (SQ : Sqrt Q)
    (batches : list (list Q)) (name : string) :
  Proper (Qeq ==> Qeq) np_sqrt → concat batches ≠ [] →
  ∃ s, updates batches (new_RunningStats name) = (Ret tt, s) ∧
    stats_eq s (replace_stats_from_data (concat batches) (new_RunningStats name)).
Proof.
  intros SP Hne. destruct (updates_new batches name Hne) as (s & E & Hs).
  exists s. split; [done|].
  by apply (summarizes_unique (concat batches)); [..|apply replace_summarizes].
Qed.

Lemma running_stats_incremental_witness :
  ∃ s, @updates Q Num_Q demo_numpy demo_sqrt [[2; 4; 4]; []; [4; 5]; [5; 7; 9]] (new_RunningStats "prefill_tokens") = (Ret tt, s) ∧
    stats_eq s (@replace_stats_from_data Q Num_Q demo_numpy demo_sqrt [2; 4; 4; 4; 5; 5; 7; 9] (new_RunningStats "prefill_tokens")).
Proof.
  apply (running_stats_incremental demo_numpy demo_numpy_laws demo_sqrt [[2; 4; 4]; []; [4; 5]; [5; 7; 9]]).
  - apply demo_sqrt_proper.
  - discriminate.
Defined.

(** Normalizing the values that were seen gives scores of mean zero and
    variance one, whatever the batches were, where the square root is exact at
    their variance and the feature is not constant. *)
Theorem normalized_zscores (NP : Numpy Q) (NL : NumpyLaws NP) (SQ : Sqrt Q)
    (batches : list (list Q)) (name : string) (s : RunningStats Q) :
  (∀ v, v == sq_sum (np_mean (concat batches)) (concat batches) / Qlen (concat batches) →
        1 # 10000000000 < np_sqrt v ∧ np_sqrt v * np_sqrt v == v) →
  concat batches ≠ [] → updates batches (new_RunningStats name) = (Ret tt, s) →
  ∃ r, rs_normalize s (concat batches) = Ret r ∧ Qsum r == 0 ∧ sq_sum 0 r == Qlen r.
Proof.
  intros Hsqrt Hne Hs. set (l := concat batches) in *.
  destruct (updates_new batches name Hne) as (s' & E & Hsum). fold l in Hsum.
  rewrite Hs in E. injection E as <-.
  destruct Hsum as (Hc & m & d & v & lo & hi & Em & Ed & Es & _ & _ & Hm & Hd & Hv & _).
  pose proof (Qlen_pos l Hne) as Hpos.
  assert (Hmean : m == np_mean l).
  { apply (Qmult_inj_r _ _ (Qlen l)); [lra|]. by rewrite Hm, mean_Qlen. }
  destruct (Hsqrt v) as [Hpos' Hsq]; [by rewrite Hv, Hd, Hmean|].
  exists ((λ x, (x - m) / np_sqrt v) <$> l). split; [|split].
  - unfold rs_normalize. rewrite Hc, Em, Es.
    destruct (Z.eqb_spec (py_len l) 0) as [H0|_]; [unfold Qlen in Hpos; rewrite H0 in Hpos; by vm_compute in Hpos|].
    rewrite np_isclose0_Q by done. unfold is_zero. simpl.
    destruct (Qle_bool_spec (np_sqrt v) 0) as [H1|_]; [lra|]. simpl. by rewrite (no_nan_Q (_ <$> l)).
  - rewrite Qsum_scaled by lra. rewrite <-Hm. field. lra.
  - rewrite sq_sum_scaled, Qlen_map by lra. rewrite <-Hd, Hsq, Hv. field. split; [lra|]. intros Hz.
    assert (Hv0 : v == 0) by (rewrite Hv, Hz; field; lra). revert Hpos' Hsq.
    generalize (np_sqrt v). intros q ??. nra.
Qed.

Lemma normalized_zscores_witness :
  ∃ r, @rs_normalize Q Num_Q (@updates Q Num_Q demo_numpy demo_sqrt [[2; 4; 4]; []; [4; 5]; [5; 7; 9]] (new_RunningStats "prefill_tokens")).2
         [2; 4; 4; 4; 5; 5; 7; 9] = Ret r ∧ Qsum r == 0 ∧ sq_sum 0 r == Qlen r.
Proof.
  apply (normalized_zscores demo_numpy demo_numpy_laws demo_sqrt [[2; 4; 4]; []; [4; 5]; [5; 7; 9]] "prefill_tokens").
  - intros v Hv. assert (E : demo_sqrt v = 2).
    { unfold demo_sqrt. rewrite (Qred_complete v 4); [reflexivity|]. rewrite Hv. reflexivity. }
    unfold np_sqrt. rewrite E, Hv. split; reflexivity.
  - discriminate.
  - vm_compute. reflexivity.
Defined.
