(* ===== verification/ShiftDetector.v ===== *)
(** * Distribution shift detection

    Models [python/routing_agent_service/agent_codes/distribution_shift_detector.py]:
    [DistributionTracker], which collects the training values of each feature and
    writes their statistics to a CSV file with five decimals;
    [DistributionShiftMonitor], which compares a sliding window of served values
    with them; and [PerSampleOODDetector], which sends a request to the fallback
    router when one of its features is outside the training range. Values are
    exact rationals, bounds may be infinite. *)

From S2P Require Import Prelude Num.

Open Scope Z_scope.

Inductive OODAction := NORMAL | REDUCE_CONFIDENCE | FALLBACK.

Abbreviation dict A := (list (string * A)).

(** [d.setdefault-like] access of a [defaultdict]. *)
Definition ddict_get {A} (dflt : A) (key : string) (d : dict A) : A := default dflt (assoc key d).

(** ** DistributionTracker *)

Inductive feature_type := pod_feature | request_feature.

Record DistributionTracker := mkTracker {
  feature_values : dict (list Q);
  feature_types : dict feature_type
}.

Definition new_DistributionTracker : DistributionTracker := mkTracker [] [].

Definition add_features (ty : feature_type) (features : dict Q) (t : DistributionTracker) :
    DistributionTracker :=
  foldl (λ t '(name, value),
    mkTracker (assoc_set name (ddict_get [] name (feature_values t) ++ [value]) (feature_values t))
              (assoc_set name ty (feature_types t))) t features.

Definition add_pod_sample := add_features pod_feature.
Definition add_request_sample := add_features request_feature.

Record feature_stats := mkStats {
  st_name : string; st_type : option feature_type; st_count : Z;
  st_mean : Q; st_std : Q; st_min : Q; st_max : Q;
  st_percentiles : list Q;          (* p01 p05 p10 p25 p50 p75 p90 p95 p99 *)
  st_zeros : Z; st_nonzeros : Z; st_zero_ratio : Q
}.

Section tracker.
Context {NP : Numpy Q}.

Definition stats_of (types : dict feature_type) (name : string) (values : list Q) : feature_stats :=
  let zeros := py_len (List.filter (λ v, Qeq_bool v 0) values) in
  let count := py_len values in
  mkStats name (assoc name types) count (np_mean values) (np_std values) (np_min values) (np_max values)
    (np_percentile values ((λ p, inject_Z p) <$> [1; 5; 10; 25; 50; 75; 90; 95; 99]))
    zeros (count - zeros) (if 0 <? count then (inject_Z zeros / inject_Z count)%Q else 0%Q).

(** Features without values are skipped. *)
Definition compute_statistics (t : DistributionTracker) : list feature_stats :=
  (λ '(name, values), stats_of (feature_types t) name values) <$>
    List.filter (λ nv, match nv.2 with [] => false | _ => true end) (feature_values t).

End tracker.

(** [float_format='%.5f']: the nearest multiple of 10^-5, ties to even. *)
Definition round5 (x : Q) : Q :=
  let y := (x * 100000)%Q in
  let f := Qfloor y in
  let r := (y - inject_Z f)%Q in
  let n := if negb (Qle_bool (1#2) r) then f
           else if negb (Qle_bool r (1#2)) then f + 1
           else if Z.even f then f else f + 1 in
  n # 100000.

(** ** PerSampleOODDetector *)

(** A training bound: a number or an infinity. *)
Inductive bound := MInf | Fin (q : Q) | PInf.

Record ood_stats := mkOOD {
  o_mean : Q; o_std : Q; o_min : bound; o_max : bound;
  o_p01 : Q; o_p05 : Q; o_p95 : Q; o_p99 : Q
}.

(** A reported feature; [x_relative] is the distance over the training range. *)
Record extrapolation := mkExtra {
  x_feature : string; x_value : Q; x_min : bound; x_max : bound;
  x_low : bool;                     (* the violated boundary is [min] *)
  x_distance : Q; x_relative : bound
}.

Record PerSampleOODDetector := mkDetector {
  od_stats : dict ood_stats;
  total_checks : Z;
  extreme_count : Z;
  normal_count : Z;
  feature_ood_counts : dict Z
}.

(** The rows of the CSV file, as [save_distribution_stats] wrote them. *)
Definition load_stats (rows : list feature_stats) : dict ood_stats :=
  foldl (λ d r, assoc_set (st_name r)
    (let p i := default 0%Q (st_percentiles r !! i) in
     mkOOD (st_mean r) (st_std r) (Fin (st_min r)) (Fin (st_max r)) (p 0%nat) (p 1%nat) (p 7%nat) (p 8%nat)) d)
    [] rows.

(** The numeric cells of a row, rounded to five decimals by the file. *)
Definition through_csv (r : feature_stats) : feature_stats :=
  mkStats (st_name r) (st_type r) (st_count r) (round5 (st_mean r)) (round5 (st_std r))
    (round5 (st_min r)) (round5 (st_max r)) (round5 <$> st_percentiles r)
    (st_zeros r) (st_nonzeros r) (round5 (st_zero_ratio r)).

Definition new_PerSampleOODDetector (rows : list feature_stats) : PerSampleOODDetector :=
  mkDetector (load_stats rows) 0 0 0 [].

Definition bound_eq (a b : bound) : bool :=
  match a, b with
  | MInf, MInf | PInf, PInf => true
  | Fin x, Fin y => Qeq_bool x y
  | _, _ => false
  end.

Definition below (v : Q) (b : bound) : bool :=
  match b with MInf => false | PInf => true | Fin m => negb (Qle_bool m v) end.

Definition above (v : Q) (b : bound) : bool :=
  match b with MInf => true | PInf => false | Fin m => negb (Qle_bool v m) end.

Definition distance (v : Q) (b : bound) : Q :=
  match b with Fin m => if Qle_bool m v then (v - m)%Q else (m - v)%Q | _ => 0%Q end.

(** The report for one feature, if it is outside its range. *)
Definition check_feature (stats : dict ood_stats) (name : string) (value : Q) : option extrapolation :=
  match assoc name stats with
  | None => None
  | Some s =>
    if bound_eq (o_min s) (o_max s) then None
    else if below value (o_min s) || above value (o_max s) then
      let low := below value (o_min s) in
      let d := distance value (if low then o_min s else o_max s) in
      let relative := match o_min s, o_max s with
                      | Fin a, Fin b => if Qle_bool (b - a) 0 then PInf else Fin (d / (b - a))
                      | _, _ => Fin 0
                      end in
      Some (mkExtra name value (o_min s) (o_max s) low d relative)
    else None
  end.

(** The result: whether the sample is out of distribution, the action, and the
    reported features; the other fields of the dictionary repeat these or are
    constant. *)
Definition check_sample (features : dict Q) (d : PerSampleOODDetector) :
    (bool * OODAction * list extrapolation) * PerSampleOODDetector :=
  let found := omap (λ '(name, value), check_feature (od_stats d) name value) features in
  let counts := foldl (λ c x, assoc_set (x_feature x) (ddict_get 0 (x_feature x) c + 1) c)
                  (feature_ood_counts d) found in
  match found with
  | [] => ((false, NORMAL, []),
           mkDetector (od_stats d) (total_checks d + 1) (extreme_count d) (normal_count d + 1) counts)
  | _ => ((true, FALLBACK, found),
          mkDetector (od_stats d) (total_checks d + 1) (extreme_count d + 1) (normal_count d) counts)
  end.

Definition check_combined (request_features pod_features : dict Q) :=
  check_sample (assoc_update request_features pod_features).

(** The statistics of a retrained model: mean, deviation and optional bounds. *)
Record running_stats := mkRunning {
  rs_mean : Q; rs_std : Q; rs_min : option Q; rs_max : option Q
}.

(** [mean - 2.33 std] and so on approximate the percentiles. *)
Definition ood_of_running (r : running_stats) : ood_stats :=
  mkOOD (rs_mean r) (rs_std r)
    (match rs_min r with Some m => Fin m | None => MInf end)
    (match rs_max r with Some m => Fin m | None => PInf end)
    (rs_mean r - (233#100) * rs_std r) (rs_mean r - (1645#1000) * rs_std r)
    (rs_mean r + (1645#1000) * rs_std r) (rs_mean r + (233#100) * rs_std r).

Definition update_stats (stats : dict running_stats) (d : PerSampleOODDetector) : PerSampleOODDetector :=
  mkDetector (foldl (λ o '(name, r), assoc_set name (ood_of_running r) o) (od_stats d) stats)
    (total_checks d) (extreme_count d) (normal_count d) (feature_ood_counts d).

Definition reset_diagnostics (d : PerSampleOODDetector) : PerSampleOODDetector :=
  mkDetector (od_stats d) 0 0 0 [].

(** Descending by count, equal counts in their order. *)
Fixpoint insert_desc (x : string * Z) (l : dict Z) : dict Z :=
  match l with
  | [] => [x]
  | y :: l' => if y.2 <=? x.2 then x :: l else y :: insert_desc x l'
  end.

(** Total checks, extreme, normal, out-of-distribution rate, top ten features. *)
Definition get_diagnostics (d : PerSampleOODDetector) : Z * Z * Z * Q * dict Z :=
  if total_checks d =? 0 then (0, 0, 0, 0%Q, [])
  else (total_checks d, extreme_count d, normal_count d,
        (inject_Z (extreme_count d) / inject_Z (total_checks d))%Q,
        take 10 (foldr insert_desc [] (feature_ood_counts d))).

(** ** DistributionShiftMonitor *)

Record baseline := mkBaseline { b_mean : Q; b_std : Q; b_min : option Q; b_max : option Q }.

Inductive severity := high | medium.

Record shift_warning := mkWarning {
  w_feature : string; w_severity : severity; w_zscore : Q; w_ratio : Q;
  w_train : baseline; w_mean : Q; w_std : Q
}.

Record DistributionShiftMonitor := mkMonitor {
  window_size : Z;
  check_interval : Z;
  alert_threshold_zscore : Q;
  training_stats_dict : dict baseline;
  current_values : dict (list Q);
  sample_count : Z;
  warnings : list shift_warning;
  total_warnings : Z
}.

Definition new_DistributionShiftMonitor (rows : list feature_stats) (window interval : Z) (alert : Q) :
    DistributionShiftMonitor :=
  mkMonitor window interval alert
    (foldl (λ d r, assoc_set (st_name r)
       (mkBaseline (st_mean r) (st_std r) (Some (st_min r)) (Some (st_max r))) d) [] rows)
    [] 0 [] 0.

(** Append, and drop the oldest value beyond the window. *)
Definition push_window (window : Z) (v : Q) (l : list Q) : list Q :=
  let l' := l ++ [v] in if window <? py_len l' then drop 1 l' else l'.

Definition push_features (window : Z) (features : dict Q) (cur : dict (list Q)) : dict (list Q) :=
  foldl (λ cur '(name, value), assoc_set name (push_window window value (ddict_get [] name cur)) cur)
    cur features.

Definition add_sample (pod_features request_features : dict Q) (m : DistributionShiftMonitor) :
    DistributionShiftMonitor :=
  mkMonitor (window_size m) (check_interval m) (alert_threshold_zscore m) (training_stats_dict m)
    (push_features (window_size m) request_features (push_features (window_size m) pod_features (current_values m)))
    (sample_count m + 1) (warnings m) (total_warnings m).

Definition should_check (m : DistributionShiftMonitor) : outcome bool :=
  if check_interval m =? 0 then Raise ZeroDivisionError
  else Ret (sample_count m mod check_interval m =? 0).

Section monitor.
Context {NP : Numpy Q}.

Definition q_abs (x : Q) : Q := if Qle_bool 0 x then x else (- x)%Q.

(** The warning for one feature, if any. *)
Definition check_shift (alert : Q) (train : dict baseline) (name : string) (values : list Q) :
    option shift_warning :=
  match assoc name train with
  | None => None
  | Some b =>
    if py_len values <? 10 then None
    else if Qeq_bool (b_std b) 0 then None
    else
      let mean := np_mean values in
      let std := np_std values in
      let zscore := (q_abs (mean - b_mean b) / b_std b)%Q in
      let ratio := if negb (Qle_bool (b_std b) 0) then (std / b_std b)%Q else 1%Q in
      let warn sev := Some (mkWarning name sev zscore ratio b mean std) in
      if negb (Qle_bool zscore 3) then warn high
      else if negb (Qle_bool zscore alert) then warn medium
      else if negb (Qle_bool ratio 2) || negb (Qle_bool (1#2) ratio) then warn medium
      else None
  end.

Definition check_distribution_shift (m : DistributionShiftMonitor) :
    list shift_warning * DistributionShiftMonitor :=
  let found := omap (λ '(name, values),
                 check_shift (alert_threshold_zscore m) (training_stats_dict m) name values)
                 (current_values m) in
  (found, mkMonitor (window_size m) (check_interval m) (alert_threshold_zscore m) (training_stats_dict m)
            (current_values m) (sample_count m) found (total_warnings m + py_len found)).

End monitor.

Definition is_high (w : shift_warning) : bool := match w_severity w with high => true | medium => false end.

(** [get_summary_stats]: samples, warnings in all, current, high, medium, features. *)
Definition get_summary_stats (m : DistributionShiftMonitor) : Z * Z * Z * Z * Z * list string :=
  (sample_count m, total_warnings m, py_len (warnings m), py_len (List.filter is_high (warnings m)),
   py_len (List.filter (λ w, negb (is_high w)) (warnings m)), w_feature <$> warnings m).

(** Only features already in the baseline are updated; a missing bound is kept. *)
Definition update_baseline_from_stats (stats : dict running_stats) (m : DistributionShiftMonitor) :
    DistributionShiftMonitor :=
  mkMonitor (window_size m) (check_interval m) (alert_threshold_zscore m)
    (foldl (λ d '(name, r),
       match assoc name d with
       | None => d
       | Some b => assoc_set name
           (mkBaseline (rs_mean r) (rs_std r)
              (match rs_min r with Some x => Some x | None => b_min b end)
              (match rs_max r with Some x => Some x | None => b_max b end)) d
       end) (training_stats_dict m) stats)
    (current_values m) (sample_count m) (warnings m) (total_warnings m).

(** ** Specification *)

(** The value is outside the range of a feature that varied in training. *)
Definition outside (stats : dict ood_stats) (name : string) (v : Q) : Prop :=
  ∃ s, assoc name stats = Some s ∧ bound_eq (o_min s) (o_max s) = false ∧
    (below v (o_min s) = true ∨ above v (o_max s) = true).

(** ** Lemmas *)

Lemma check_feature_outside stats name v :
  (∃ x, check_feature stats name v = Some x) ↔ outside stats name v.
Proof.
  unfold check_feature, outside. destruct (assoc name stats) as [s|]; [|by split; [intros [? ?]|intros (? & ? & _)]].
  split.
  - intros [x Hx]. exists s. destruct (bound_eq (o_min s) (o_max s)); [done|].
    split_and!; [done..|]. destruct (below v (o_min s)), (above v (o_max s)); simpl in Hx; auto; done.
  - intros (s' & [= <-] & -> & H). destruct H as [-> | ->]; rewrite ?orb_true_r; eauto.
Qed.

Lemma check_sample_action features d :
  let '((is_ood, action, found), d') := check_sample features d in
  (is_ood = true ↔ ∃ name v, (name, v) ∈ features ∧ outside (od_stats d) name v) ∧
  action = (if is_ood then FALLBACK else NORMAL).
Proof.
  unfold check_sample. destruct (omap _ features) as [|x l] eqn:E; simpl; (split; [|done]).
  - split; [done|]. intros (name & v & Hin & Hout).
    apply check_feature_outside in Hout as [x Hx].
    assert (x ∈ ([] : list extrapolation)) as H%elem_of_nil; [|done].
    rewrite <-E. apply list_elem_of_omap. by exists (name, v).
  - split; [|done]. intros _.
    assert (x ∈ x :: l) as Hx by left. rewrite <-E in Hx.
    apply list_elem_of_omap in Hx as ([name v] & Hin & Hx).
    exists name, v. split; [done|]. apply check_feature_outside. eauto.
Qed.

(** ** Lemmas: training values stay inside the training range *)

(** [v] is among the values the tracker has for [name]. *)
Definition tracked (t : DistributionTracker) (name : string) (v : Q) : Prop :=
  v ∈ ddict_get [] name (feature_values t).

Lemma add_features_ok ty features t :
  NoDup (feature_values t).*1 →
  NoDup (feature_values (add_features ty features t)).*1 ∧
  (∀ name v, tracked t name v → tracked (add_features ty features t) name v) ∧
  (∀ name v, (name, v) ∈ features → tracked (add_features ty features t) name v).
Proof.
  unfold add_features. revert t. induction features as [|[n x] features IH]; intros t Hnd; simpl.
  { split_and!; try done. by intros ?? ?%elem_of_nil. }
  set (t1 := mkTracker _ _).
  assert (Hnd1 : NoDup (feature_values t1).*1) by by apply assoc_set_NoDup.
  assert (H1 : ∀ name v, tracked t name v → tracked t1 name v).
  { intros name v Hv. unfold tracked, ddict_get, t1 in *. simpl.
    destruct (decide (n = name)) as [->|Hne].
    - rewrite assoc_set_eq. simpl. apply elem_of_app. by left.
    - by rewrite assoc_set_ne. }
  assert (H2 : tracked t1 n x).
  { unfold tracked, ddict_get, t1. simpl. rewrite assoc_set_eq. simpl. set_solver. }
  destruct (IH t1 Hnd1) as (Hn & Hkeep & Hadd). split_and!; [done|auto|].
  intros name v [[= -> ->]|Hin]%elem_of_cons; auto.
Qed.

(** The tracker after a list of samples. *)
Definition track_all (samples : list (feature_type * dict Q)) : DistributionTracker :=
  foldl (λ t '(ty, f), add_features ty f t) new_DistributionTracker samples.

Lemma track_all_ok samples :
  NoDup (feature_values (track_all samples)).*1 ∧
  ∀ ty f name v, (ty, f) ∈ samples → (name, v) ∈ f → tracked (track_all samples) name v.
Proof.
  unfold track_all.
  assert (H : ∀ t, NoDup (feature_values t).*1 →
    let t' := foldl (λ t '(ty, f), add_features ty f t) t samples in
    NoDup (feature_values t').*1 ∧ (∀ name v, tracked t name v → tracked t' name v) ∧
    ∀ ty f name v, (ty, f) ∈ samples → (name, v) ∈ f → tracked t' name v).
  { induction samples as [|[ty0 f0] samples IH]; simpl; intros t Hnd.
    { split_and!; try done. by intros ???? ?%elem_of_nil. }
    destruct (add_features_ok ty0 f0 t Hnd) as (Hn & Hk & Ha).
    destruct (IH _ Hn) as (Hn' & Hk' & Ha'). split_and!; [done|auto|].
    intros ty f name v [[= -> ->]|Hin]%elem_of_cons Hf; [by apply Hk', Ha|by eapply Ha']. }
  destruct (H new_DistributionTracker) as (? & _ & ?); [constructor|]. by split.
Qed.

(** The detector's entry for a feature comes from a row of the file. *)
Lemma load_stats_row rows name s :
  assoc name (load_stats rows) = Some s →
  ∃ r, r ∈ rows ∧ st_name r = name ∧ o_min s = Fin (st_min r) ∧ o_max s = Fin (st_max r).
Proof.
  unfold load_stats. 
  assert (H : ∀ d, assoc name (foldl (λ d r, assoc_set (st_name r)
      (let p i := default 0%Q (st_percentiles r !! i) in
       mkOOD (st_mean r) (st_std r) (Fin (st_min r)) (Fin (st_max r)) (p 0%nat) (p 1%nat) (p 7%nat) (p 8%nat)) d)
      d rows) = Some s → assoc name d = Some s ∨
    ∃ r, r ∈ rows ∧ st_name r = name ∧ o_min s = Fin (st_min r) ∧ o_max s = Fin (st_max r)).
  { induction rows as [|r rows IH]; simpl; intros d Hd; [by left|].
    destruct (IH _ Hd) as [Hd'|(r' & ? & ?)]; [|right; exists r'; split; [by right|done]].
    destruct (decide (st_name r = name)) as [E|E].
    - rewrite E, assoc_set_eq in Hd'. simplify_eq. right. exists r. split; [left|done].
    - rewrite assoc_set_ne in Hd' by done. by left. }
  intros Hs. destruct (H [] Hs) as [?|?]; done.
Qed.

Lemma tracked_inside {NP : Numpy Q} {NL : NumpyLaws NP} samples name v :
  tracked (track_all samples) name v →
  ¬ outside (load_stats (compute_statistics (track_all samples))) name v.
Proof.
  destruct (track_all_ok samples) as [Hnd _]. set (t := track_all samples) in *.
  intros Htr (s & Hs & _ & Hout). apply load_stats_row in Hs as (r & Hr & Hname & Hmin & Hmax).
  unfold compute_statistics in Hr. apply list_elem_of_fmap in Hr as ([n values] & -> & Hin).
  apply list_elem_of_In, filter_In in Hin as [Hin _]. apply list_elem_of_In in Hin.
  simpl in *. subst n. unfold tracked, ddict_get in Htr.
  rewrite (assoc_elem_of _ _ _ Hnd Hin) in Htr. simpl in Htr.
  rewrite Hmin, Hmax in Hout. simpl in Hout.
  pose proof (min_le values v Htr) as H1. pose proof (max_ge values v Htr) as H2.
  apply Qle_bool_iff in H1, H2. rewrite H1, H2 in Hout. by destruct Hout.
Qed.

(** ** Lemmas: the monitor's window *)

(** Pushing values keeps the last [window] of them. *)
Lemma push_window_last window values v :
  0 ≤ window → push_window window v (drop (length values - Z.to_nat window) values) =
    drop (length (values ++ [v]) - Z.to_nat window) (values ++ [v]).
Proof.
  intros Hw. unfold push_window. rewrite <-(drop_app_le values [v]) by lia.
  unfold py_len. rewrite length_drop, length_app. simpl.
  destruct (Z.ltb_spec window (Z.of_nat (length values + 1 - (length values - Z.to_nat window)))) as [H|H].
  - rewrite drop_drop. f_equal. lia.
  - f_equal. lia.
Qed.

(** ** Properties *)

(** The calls of the service on its detector. *)
Inductive ood_step : PerSampleOODDetector → PerSampleOODDetector → Prop :=
| ood_check features d : ood_step d (check_sample features d).2
| ood_update stats d : ood_step d (update_stats stats d)
| ood_reset d : ood_step d (reset_diagnostics d).

(** C10: after any sequence of checks, updates and resets, the detector sends a
    sample to the fallback router exactly when some known feature that varied in
    training is outside its range, calls every other sample normal (it never
    recommends a reduced confidence), and its counters add up. *)
Theorem ood_detector_decides (rows : list feature_stats) (d : PerSampleOODDetector) (features : dict Q) :
  rtc ood_step (new_PerSampleOODDetector rows) d →
  let '((is_ood, action, found), d') := check_sample features d in
  (is_ood = true ↔ ∃ name v, (name, v) ∈ features ∧ outside (od_stats d) name v) ∧
  action = (if is_ood then FALLBACK else NORMAL) ∧
  total_checks d' = extreme_count d' + normal_count d' ∧ total_checks d' = total_checks d + 1.
Proof.
  intros Hreach. assert (Hinv : total_checks d = extreme_count d + normal_count d).
  { revert Hreach. apply (rtc_ind_r (λ d, total_checks d = extreme_count d + normal_count d)); [done|].
    intros d1 d2 _ Hstep IH. destruct Hstep; simpl; try done.
    unfold check_sample. destruct (omap _ _); simpl; lia. }
  pose proof (check_sample_action features d) as Hact. unfold check_sample in *.
  destruct (omap _ features); simpl in *; destruct Hact; split_and!; try done; lia.
Qed.

Lemma ood_detector_decides_witness :
  let d := update_stats [("input_tokens"%string, mkRunning 100 50 (Some 10%Q) (Some 4000%Q))]
             (new_PerSampleOODDetector []) in
  let '((is_ood, action, found), d') := check_sample [("input_tokens"%string, 5000%Q)] d in
  (is_ood = true ↔ ∃ name v, (name, v) ∈ [("input_tokens"%string, 5000%Q)] ∧ outside (od_stats d) name v) ∧
  action = (if is_ood then FALLBACK else NORMAL) ∧
  total_checks d' = extreme_count d' + normal_count d' ∧ total_checks d' = total_checks d + 1.
Proof.
  apply (ood_detector_decides [] (update_stats [("input_tokens"%string, mkRunning 100 50 (Some 10%Q)
    (Some 4000%Q))] (new_PerSampleOODDetector [])) [("input_tokens"%string, 5000%Q)]).
  apply rtc_once. constructor.
Defined.

(** With the exact statistics of the tracker, every training sample is
    normal; but the file keeps five decimals of the bounds, and a training value
    between its rounded and its exact bound is sent to the fallback router. *)
Theorem training_samples_in_distribution (NP : Numpy Q) (NL : NumpyLaws NP)
    (samples : list (feature_type * dict Q)) (ty : feature_type) (f : dict Q) :
  (ty, f) ∈ samples →
  (check_sample f (new_PerSampleOODDetector (compute_statistics (track_all samples)))).1.1 = (false, NORMAL) ∧
  ∃ values v s, v ∈ values ∧
    s = map through_csv (@compute_statistics demo_numpy
          (track_all ((λ x, (pod_feature, [("gpu_kv_cache"%string, x)])) <$> values))) ∧
    (check_sample [("gpu_kv_cache"%string, v)] (new_PerSampleOODDetector s)).1.1 = (true, FALLBACK).
Proof.
  intros Hin. split.
  - pose proof (check_sample_action f (new_PerSampleOODDetector (compute_statistics (track_all samples)))) as H.
    destruct (check_sample f _) as [[[is_ood action] found] d']. destruct H as [H ->]. simpl.
    destruct is_ood; [|done]. exfalso. destruct (proj1 H eq_refl) as (name & v & Hf & Hout).
    eapply tracked_inside; [|exact Hout]. destruct (track_all_ok samples) as [_ Ht]. by eapply Ht.
  - exists [(123456#1000000)%Q; (1#2)%Q], (123456#1000000)%Q. eexists. split_and!; [left|done|by vm_compute].
Qed.

Lemma training_samples_in_distribution_witness :
  let samples := [(pod_feature, [("gpu_kv_cache"%string, (1#8)%Q)]);
                  (request_feature, [("input_tokens"%string, 100%Q); ("output_tokens"%string, 5%Q)])] in
  (check_sample [("input_tokens"%string, 100%Q); ("output_tokens"%string, 5%Q)]
     (new_PerSampleOODDetector (@compute_statistics demo_numpy (track_all samples)))).1.1 = (false, NORMAL).
Proof.
  apply (training_samples_in_distribution demo_numpy demo_numpy_laws _ request_feature).
  right. left.
Defined.
