(* ===== verification/FeatureNorm.v ===== *)
(** * Feature normalization

    Models [python/routing_agent_service/agent_codes/data_normalizer.py] around
    the running statistics of [RunningStats]: the detection of the features to
    normalize, the module-level caches keyed by column sets, the statistics
    pooled over the pods, the normalization of one feature (training and
    inference) and the batch normalization of the inference path. A data frame is its columns, in order, and the
    values of each; the branch of a single-row dict is in [RowNorm]. *)

From stdpp Require Import sorting.
From S2P Require Import Prelude Num RunningStats.

Open Scope Z_scope.
Open Scope py_scope.

(** ** Column names *)

(** [sub in s] *)
Definition py_contains (sub s : string) : bool :=
  match String.index 0 sub s with Some _ => true | None => false end.

(** [s.split('-', 1)[1]] when there is a dash. *)
Fixpoint after_dash (s : string) : option string :=
  match s with
  | EmptyString => None
  | String c s' => if Ascii.eqb c (Ascii.ascii_of_nat 45) then Some s' else after_dash s'
  end.

(** A result that is neither [None] nor the empty string. *)
Definition truthy (o : option string) : bool :=
  match o with Some EmptyString | None => false | Some _ => true end.

(** What [_extract_pod_feature_type] computes when its cache has no entry. *)
Definition pod_feature_type_of (column_name : string) : option string :=
  if String.prefix "pod_" column_name then after_dash column_name else None.

(** A dict used as a cache: an entry is only added when its key is absent. *)
Fixpoint cache_find {K V} `{EqDecision K} (key : K) (cache : list (K * V)) : option V :=
  match cache with
  | [] => None
  | (k, v) :: cache' => if decide (k = key) then Some v else cache_find key cache'
  end.

Record caches := mkCaches {
  pod_feature_type_cache : list (string * option string);
  matching_columns_cache : list (gset string * string * list string);
  normalizable_features_cache :
    list (gset string * gset string * (list string * list string * list string))
}.

Definition new_caches : caches := mkCaches [] [] [].

Definition extract_pod_feature_type (column_name : string) : M caches (option string) :=
  let* c := get in
  match cache_find column_name (pod_feature_type_cache c) with
  | Some result => ret result
  | None =>
    let result := pod_feature_type_of column_name in
    modify (λ c, mkCaches ((column_name, result) :: pod_feature_type_cache c)
                          (matching_columns_cache c) (normalizable_features_cache c)) ;;
    ret result
  end.

(** [[x for x in l if test(x)]] with a test that reads a cache. *)
Fixpoint filter_m {S A} (test : A → M S bool) (l : list A) : M S (list A) :=
  match l with
  | [] => ret []
  | x :: l' => let* b := test x in let* r := filter_m test l' in ret (if b : bool then x :: r else r)
  end.

Definition get_matching_columns_cached (df_columns : list string) (feature_type : string) :
    M caches (list string) :=
  let key := (list_to_set df_columns : gset string, feature_type) in
  let* c := get in
  match cache_find key (matching_columns_cache c) with
  | Some matching => ret matching
  | None =>
    let* matching := filter_m (λ col, let* t := extract_pod_feature_type col in
                                      ret (bool_decide (t = Some feature_type))) df_columns in
    modify (λ c, mkCaches (pod_feature_type_cache c) ((key, matching) :: matching_columns_cache c)
                          (normalizable_features_cache c)) ;;
    ret matching
  end.

(** [sorted(...)] of a set of strings *)
Definition str_le (a b : string) : Prop := String.leb a b = true.

#[export] Instance str_le_dec : RelDecision str_le.
Proof. intros a b. unfold str_le. apply _. Defined.

Definition py_sorted (l : list string) : list string := merge_sort str_le l.

Definition base_features : list string := ["input_tokens"; "output_tokens"; "total_tokens"].

(** One column of the detection loop: the feature types so far, as a set, and
    the pod columns. *)
Definition detect_column (no_normalize_features : list string) (col : string) :
    list string * list string → M caches (list string * list string) := λ acc,
  let '(types, pod_columns) := acc in
  if String.prefix "pod_" col && negb (py_contains "gpu_model" col) && negb (py_contains "GPU" col) then
    let* t := extract_pod_feature_type col in
    match t with
    | Some t' =>
      if truthy t && bool_decide (t' ∉ no_normalize_features)
      then ret ((if bool_decide (t' ∈ types) then types else types ++ [t']), pod_columns ++ [col])
      else ret acc
    | None => ret acc
    end
  else ret acc.

Fixpoint detect_columns (no_normalize_features cols : list string) (acc : list string * list string) :
    M caches (list string * list string) :=
  match cols with
  | [] => ret acc
  | col :: cols' =>
    let* acc' := detect_column no_normalize_features col acc in
    detect_columns no_normalize_features cols' acc'
  end.

(** Normalizable features, the other columns, and the pod feature types. *)
Definition get_normalizable_features (columns no_normalize_features : list string) :
    M caches (list string * list string * list string) :=
  let key := (list_to_set columns : gset string, list_to_set no_normalize_features : gset string) in
  let* c := get in
  match cache_find key (normalizable_features_cache c) with
  | Some result => ret result
  | None =>
    let* r := detect_columns no_normalize_features columns ([], []) in
    let '(pod_feature_types, all_pod_columns) := r in
    let normalizable_features := base_features ++ py_sorted pod_feature_types in
    let non_normalizable_features :=
      List.filter (λ col, negb (bool_decide (col ∈ all_pod_columns)) &&
                          negb (bool_decide (col ∈ normalizable_features))) columns in
    let result := (normalizable_features, non_normalizable_features, pod_feature_types) in
    modify (λ c, mkCaches (pod_feature_type_cache c) (matching_columns_cache c)
                          ((key, result) :: normalizable_features_cache c)) ;;
    ret result
  end.

(** ** Frames and the statistics of all features *)

Record frame (F : Type) := mkFrame { f_columns : list string; f_data : gmap string (list F) }.

Arguments mkFrame {F}.
Arguments f_columns {F}.
Arguments f_data {F}.

(** [CONFIG] is the last three fields. *)
Record FeatureStats (F : Type) := mkFeatureStats {
  feature_stats : list (string * RunningStats F);
  features_normalized : gset string;
  num_features_normalized : Z;
  total_features : Z
}.

Arguments mkFeatureStats {F}.
Arguments feature_stats {F}.
Arguments features_normalized {F}.
Arguments num_features_normalized {F}.
Arguments total_features {F}.

(** What a normalization works on: the caches of the module, the statistics and
    the frame it changes in place. *)
Record nstate (F : Type) := mkNState { n_caches : caches; n_stats : FeatureStats F; n_df : frame F }.

Arguments mkNState {F}.
Arguments n_caches {F}.
Arguments n_stats {F}.
Arguments n_df {F}.

Section normalizer.
Context {F : Type} {NF : Num F} {NP : Numpy F} {SQ : Sqrt F}.
Open Scope num_scope.

Definition with_caches {A} (m : M caches A) : M (nstate F) A :=
  zoom n_caches (λ c s, mkNState c (n_stats s) (n_df s)) m.

(** [_initialize_stats], which [__init__] calls when it is given features. *)
Definition initialize_stats (feature_names : list string) (fs : FeatureStats F) : FeatureStats F :=
  mkFeatureStats
    (foldl (λ d f, match assoc f d with
                   | Some _ => d
                   | None => assoc_set f (new_RunningStats f) d
                   end) (feature_stats fs) feature_names)
    (features_normalized fs) (num_features_normalized fs) (py_len feature_names).

Definition new_FeatureStats (feature_names : list string) : FeatureStats F :=
  let fs := mkFeatureStats [] ∅ 0 0 in
  match feature_names with [] => fs | _ => initialize_stats feature_names fs end.

Definition get_max_count (fs : FeatureStats F) : Z :=
  match feature_stats fs with
  | [] => 0
  | (_, s) :: l => foldl (λ m p, if (m <? rs_count p.2)%Z then rs_count p.2 else m) (rs_count s) l
  end.

Definition set_stats_of (key : string) (s : RunningStats F) : M (nstate F) unit :=
  modify (λ st, mkNState (n_caches st)
    (mkFeatureStats (assoc_set key s (feature_stats (n_stats st))) (features_normalized (n_stats st))
       (num_features_normalized (n_stats st)) (total_features (n_stats st))) (n_df st)).

(** [stats_instance.feature_stats[key]] *)
Definition stats_of (key : string) : M (nstate F) (RunningStats F) :=
  let* o := gets (λ st, assoc key (feature_stats (n_stats st))) in
  match o with Some s => ret s | None => raise KeyError end.

(** A method of the statistics of [key], run in place. *)
Definition on_stats (key : string) (m : M (RunningStats F) unit) : M (nstate F) unit :=
  let* s := stats_of key in
  let '(o, s') := m s in
  set_stats_of key s' ;; lift o.

Definition mark_normalized (key : string) : M (nstate F) unit :=
  modify (λ st,
    let done := {[ key ]} ∪ features_normalized (n_stats st) in
    mkNState (n_caches st)
      (mkFeatureStats (feature_stats (n_stats st)) done (Z.of_nat (size done)) (total_features (n_stats st)))
      (n_df st)).

(** [processed_df[col].values] and [processed_df[col] = values] of a column that
    is there. *)
Definition column (col : string) : M (nstate F) (list F) :=
  let* o := gets (λ st, f_data (n_df st) !! col) in
  match o with Some v => ret v | None => raise KeyError end.

Definition set_column (col : string) (values : list F) : M (nstate F) unit :=
  modify (λ st, mkNState (n_caches st) (n_stats st)
    (mkFrame (f_columns (n_df st)) (<[col := values]> (f_data (n_df st))))).

Definition need_value {A} (o : option A) : M (nstate F) A :=
  match o with Some x => ret x | None => raise TypeError end.

(** All values of the columns, one column after the other. *)
Fixpoint pool_values (cols : list string) : M (nstate F) (list F) :=
  match cols with
  | [] => ret []
  | col :: cols' =>
    let* values := column col in
    let* rest := pool_values cols' in
    ret (values ++ rest)
  end.

(** One feature type of [_compute_pooled_pod_statistics]. The closing log line
    reads mean, deviation and range. *)
Definition pool_feature_type (update_statistics recompute_from_scratch : bool) (feature_type : string) :
    M (nstate F) unit :=
  let* columns := gets (λ st, f_columns (n_df st)) in
  let* matching_columns := with_caches (get_matching_columns_cached columns feature_type) in
  match matching_columns with
  | [] => ret tt
  | _ =>
    let* all_values := pool_values matching_columns in
    let* known := gets (λ st, assoc feature_type (feature_stats (n_stats st))) in
    match known with
    | None =>
      set_stats_of feature_type (new_RunningStats feature_type) ;;
      on_stats feature_type (update_stats_incrementally all_values)
    | Some _ =>
      if update_statistics then
        if recompute_from_scratch
        then on_stats feature_type (modify (replace_stats_from_data all_values))
        else on_stats feature_type (update_stats_incrementally all_values)
      else ret tt
    end ;;
    let* s := stats_of feature_type in
    let* _ := need_value (rs_mean s) in
    let* _ := need_value (rs_std s) in
    let* _ := need_value (rs_min s) in
    let* _ := need_value (rs_max s) in
    ret tt
  end.

Definition compute_pooled_pod_statistics (pod_feature_types : list string)
    (update_statistics recompute_from_scratch : bool) : M (nstate F) unit :=
  for_each pod_feature_types (pool_feature_type update_statistics recompute_from_scratch).

(** A constant feature: its statistics are set by hand and keep their range. *)
Definition save_constant (key : string) (values : list F) : M (nstate F) unit :=
  let* s := stats_of key in
  set_stats_of key (set_stats (py_len values) (Some (np_mean values)) (Some (lit 0)) (Some (lit 0))
                      (rs_min s) (rs_max s) s).

(** The normalized values replace the column unless one is NaN. *)
Definition apply_normalization (feature key : string) : M (nstate F) unit :=
  let* values := column feature in
  let* s := stats_of key in
  let* normalized := lift (rs_normalize s values) in
  if existsb nisnan normalized then ret tt else set_column feature normalized.

(** The statistics of a feature that is not a pod feature, updated from its
    column; [false] when the feature is then left as it is. *)
Definition update_own_stats (feature : string) (recompute_from_scratch : bool) : M (nstate F) bool :=
  let* values := column feature in
  let feature_std := np_std values in
  let* known := gets (λ st, assoc feature (feature_stats (n_stats st))) in
  match known with Some _ => ret tt | None => set_stats_of feature (new_RunningStats feature) end ;;
  if is_zero feature_std || np_isclose0 (nlit 1 10000000000) feature_std then
    save_constant feature values ;; ret false
  else if existsb nisnan values then raise AssertionError
  else
    mark_normalized feature ;;
    match values with [] => raise ValueError | _ => ret tt end ;;
    (if recompute_from_scratch then on_stats feature (modify (replace_stats_from_data values))
     else on_stats feature (update_stats_incrementally values)) ;;
    let* s := stats_of feature in
    let* computed_std := need_value (rs_std s) in
    ret (negb (is_zero computed_std || nisnan computed_std)).

Definition normalize_single_feature (feature : string) (update_statistics recompute_from_scratch : bool) :
    M (nstate F) unit :=
  let* columns := gets (λ st, f_columns (n_df st)) in
  if negb (bool_decide (feature ∈ columns)) then raise AssertionError
  else
    let* feature_type := with_caches (extract_pod_feature_type feature) in
    let stats_key := match feature_type with
                     | Some t => if truthy feature_type then t else feature
                     | None => feature
                     end in
    let* known := gets (λ st, assoc stats_key (feature_stats (n_stats st))) in
    if update_statistics then
      let* go := (if truthy feature_type
                  then match known with Some _ => ret true | None => raise AssertionError end
                  else update_own_stats feature recompute_from_scratch) in
      if go : bool then apply_normalization feature stats_key else ret tt
    else
      match known with
      | None => raise AssertionError
      | Some s =>
        let* std := need_value (rs_std s) in
        if np_isclose0 (nlit 1 100000000) std then ret tt
        else apply_normalization feature stats_key
      end.

(** ** The batch path of inference *)

(** A column normalized by the statistics of its feature type or its own. *)
Definition batch_column (mean_val std_val : F) (col : string) : M (nstate F) unit :=
  let* columns := gets (λ st, f_columns (n_df st)) in
  if bool_decide (col ∈ columns) then
    let* raw_val := column col in
    let normalized_val := (λ x, (x - mean_val) / std_val) <$> raw_val in
    if existsb nisnan normalized_val then ret tt else set_column col normalized_val
  else ret tt.

(** The columns of a feature, given its statistics. *)
Definition batch_columns (s : RunningStats F) (std : F) (cols : list string) : M (nstate F) unit :=
  if is_zero std || nisnan std then ret tt
  else
    let* mean := need_value (rs_mean s) in
    for_each cols (batch_column mean std).

(** The statistics are fetched from [stats_cache], which has exactly the entries
    of [feature_stats] that are asked for. *)
Definition batch_pod_type (feature_type : string) : M (nstate F) unit :=
  let* known := gets (λ st, assoc feature_type (feature_stats (n_stats st))) in
  match known with
  | None => raise AssertionError
  | Some s =>
    let* std := need_value (rs_std s) in
    if np_isclose0 (nlit 1 100000000) std then ret tt
    else
      let* columns := gets (λ st, f_columns (n_df st)) in
      let* matching_columns := with_caches (get_matching_columns_cached columns feature_type) in
      match matching_columns with
      | [] => ret tt
      | _ => batch_columns s std matching_columns
      end
  end.

Definition batch_own_feature (pod_feature_types : list string) (feature : string) : M (nstate F) unit :=
  if bool_decide (feature ∈ pod_feature_types) then ret tt
  else
    let* known := gets (λ st, assoc feature (feature_stats (n_stats st))) in
    match known with
    | None => raise AssertionError
    | Some s =>
      let* columns := gets (λ st, f_columns (n_df st)) in
      if negb (bool_decide (feature ∈ columns)) then ret tt
      else
        let* std := need_value (rs_std s) in
        if np_isclose0 (nlit 1 100000000) std then ret tt
        else batch_columns s std [feature]
    end.

Definition normalize_features_batch_inference (normalizable_features pod_feature_types : list string) :
    M (nstate F) unit :=
  for_each pod_feature_types batch_pod_type ;;
  for_each normalizable_features (batch_own_feature pod_feature_types).

(** ** The loop over single features *)

(** One feature of the loop of [normalize_processed_data] (step 7), without its
    [try]. *)
Definition normalize_feature (pod_feature_types : list string) (update_statistics : bool) (feature : string) :
    M (nstate F) unit :=
  if bool_decide (feature ∈ pod_feature_types) then
    let* columns := gets (λ st, f_columns (n_df st)) in
    let* matching_columns := with_caches (get_matching_columns_cached columns feature) in
    for_each matching_columns (λ col, normalize_single_feature col update_statistics false)
  else normalize_single_feature feature update_statistics false.

(** The loop: an exception ends the feature, not the loop. *)
Definition normalize_loop (normalizable_features pod_feature_types : list string) (update_statistics : bool) :
    M (nstate F) unit :=
  for_each normalizable_features (λ feature st,
    match normalize_feature pod_feature_types update_statistics feature st with
    | (Raise _, st') => (Ret tt, st')
    | r => r
    end).

End normalizer.

(** ** Lemmas: the caches *)

(** A column whose pod feature type is normalized. *)
Definition pod_column (nn : list string) (col : string) : option string :=
  if String.prefix "pod_" col && negb (py_contains "gpu_model" col) && negb (py_contains "GPU" col) then
    match pod_feature_type_of col with
    | Some t => if truthy (Some t) && bool_decide (t ∉ nn) then Some t else None
    | None => None
    end
  else None.

Definition is_pod_column (nn : list string) (col : string) : bool :=
  match pod_column nn col with Some _ => true | None => false end.

Definition add_type (types : list string) (t : string) : list string :=
  if bool_decide (t ∈ types) then types else types ++ [t].

(** The results the caches stand for. *)
Definition matching_of (cols : list string) (t : string) : list string :=
  List.filter (λ col, bool_decide (pod_feature_type_of col = Some t)) cols.

Definition types_of (nn cols : list string) : list string := foldl add_type [] (omap (pod_column nn) cols).

Definition normalizable_of (nn cols : list string) : list string * list string * list string :=
  let types := types_of nn cols in
  let pods := List.filter (is_pod_column nn) cols in
  let features := base_features ++ py_sorted types in
  (features,
   List.filter (λ col, negb (bool_decide (col ∈ pods)) && negb (bool_decide (col ∈ features))) cols,
   types).

Definition caches_ok (c : caches) : Prop :=
  (∀ col r, cache_find col (pod_feature_type_cache c) = Some r → r = pod_feature_type_of col) ∧
  (∀ k t m, cache_find (k, t) (matching_columns_cache c) = Some m →
     ∃ cols, NoDup cols ∧ list_to_set cols = k ∧ m = matching_of cols t) ∧
  (∀ k kn r, cache_find (k, kn) (normalizable_features_cache c) = Some r →
     ∃ cols nn, NoDup cols ∧ list_to_set cols = k ∧ list_to_set nn = kn ∧ r = normalizable_of nn cols).

Lemma new_caches_ok : caches_ok new_caches.
Proof. by split_and!. Qed.

Lemma extract_ok col c :
  caches_ok c → ∃ c', extract_pod_feature_type col c = (Ret (pod_feature_type_of col), c') ∧ caches_ok c'.
Proof.
  intros (H1 & H2 & H3). unfold extract_pod_feature_type. py_unfold.
  destruct (cache_find col (pod_feature_type_cache c)) as [r|] eqn:E.
  - exists c. split; [by rewrite (H1 _ _ E)|done].
  - eexists. split; [done|]. split_and!; [|done..]. simpl. intros col' r. case_decide; [|auto].
    intros [= <-]. by subst.
Qed.

Lemma filter_m_ok cols t c :
  caches_ok c →
  ∃ c', filter_m (λ col, let* t' := extract_pod_feature_type col in ret (bool_decide (t' = Some t))) cols c =
          (Ret (matching_of cols t), c') ∧ caches_ok c'.
Proof.
  revert c. induction cols as [|col cols IH]; intros c Hc; [by exists c|]. simpl.
  destruct (extract_ok col c Hc) as (c1 & E1 & Hc1). destruct (IH c1 Hc1) as (c2 & E2 & Hc2).
  exists c2. unfold bind at 1 2. rewrite E1. simpl. unfold bind at 1. rewrite E2. done.
Qed.

Lemma NoDup_perm_set (l l' : list string) :
  NoDup l → NoDup l' → (list_to_set l : gset string) = list_to_set l' → l ≡ₚ l'.
Proof. intros ?? H. apply NoDup_Permutation; [done..|]. intros x. set_solver. Qed.

(** Two lists of the same columns give the same selection. *)
Lemma matching_of_perm cols cols' t :
  NoDup cols → NoDup cols' → (list_to_set cols : gset string) = list_to_set cols' →
  matching_of cols t ≡ₚ matching_of cols' t.
Proof.
  intros Hn Hn' Hset. unfold matching_of. by rewrite (NoDup_perm_set cols cols').
Qed.

Lemma matching_ok cols t c :
  caches_ok c → NoDup cols →
  ∃ m c', get_matching_columns_cached cols t c = (Ret m, c') ∧ caches_ok c' ∧ m ≡ₚ matching_of cols t.
Proof.
  intros Hc Hn. unfold get_matching_columns_cached. unfold bind at 1. simpl.
  destruct (cache_find _ (matching_columns_cache c)) as [m|] eqn:E.
  - exists m, c. split; [done|]. split; [done|].
    destruct Hc as (_ & H2 & _). destruct (H2 _ _ _ E) as (cols' & Hn' & Hs & ->). by apply matching_of_perm.
  - destruct (filter_m_ok cols t c Hc) as (c1 & E1 & Hc1). unfold bind at 1. rewrite E1.
    eexists _, _. split; [done|]. split; [|done]. destruct Hc1 as (H1 & H2 & H3). split_and!; [done| |done].
    simpl. intros k t' m. case_decide as Hk; [|eauto]. injection Hk as <- <-. intros [= <-]. eauto.
Qed.

(** Collecting the types as a set. *)
Lemma add_types_spec l types t :
  (NoDup types → NoDup (foldl add_type types l)) ∧ (t ∈ foldl add_type types l ↔ t ∈ types ∨ t ∈ l).
Proof.
  revert types. induction l as [|x l IH]; intros types; simpl; [set_solver|].
  destruct (IH (add_type types x)) as [Hn He]. unfold add_type in *.
  split; [|rewrite He; case_bool_decide; set_solver].
  intros Ht. apply Hn. case_bool_decide; [done|]. apply NoDup_app. split_and!; [done|set_solver|apply NoDup_singleton].
Qed.

Lemma NoDup_types_of nn cols : NoDup (types_of nn cols).
Proof. eapply add_types_spec with (t := ""%string); constructor. Qed.

Lemma elem_of_types_of nn cols t :
  t ∈ types_of nn cols ↔ ∃ col, col ∈ cols ∧ pod_column nn col = Some t.
Proof. unfold types_of. rewrite (proj2 (add_types_spec _ _ t)), list_elem_of_omap. set_solver. Qed.

Lemma detect_column_ok nn col acc c :
  caches_ok c →
  ∃ c', detect_column nn col acc c =
      (Ret (match pod_column nn col with
            | Some t => (add_type acc.1 t, acc.2 ++ [col])
            | None => acc
            end), c') ∧ caches_ok c'.
Proof.
  intros Hc. destruct acc as [types pods]. unfold detect_column, pod_column.
  destruct (_ && _ && _); [|by exists c].
  destruct (extract_ok col c Hc) as (c1 & E1 & Hc1). exists c1. unfold bind. rewrite E1.
  destruct (pod_feature_type_of col) as [t|]; [|done]. by destruct (truthy (Some t) && _).
Qed.

Lemma detect_ok nn cols acc c :
  caches_ok c →
  ∃ c', detect_columns nn cols acc c =
      (Ret (foldl add_type acc.1 (omap (pod_column nn) cols), acc.2 ++ List.filter (is_pod_column nn) cols), c') ∧
    caches_ok c'.
Proof.
  revert acc c. induction cols as [|col cols IH]; intros acc c Hc.
  { exists c. simpl. rewrite app_nil_r. by destruct acc. }
  destruct (detect_column_ok nn col acc c Hc) as (c1 & E1 & Hc1).
  simpl. unfold bind at 1, is_pod_column at 1. rewrite E1. destruct (pod_column nn col) as [t|]; simpl.
  - destruct (IH (add_type acc.1 t, acc.2 ++ [col]) c1 Hc1) as (c' & E & Hc'). exists c'.
    rewrite E. simpl. by rewrite <-app_assoc.
  - by apply IH.
Qed.

(** Equality of the cached lists, up to the order of the columns. *)
Definition same_features (r r' : list string * list string * list string) : Prop :=
  r.1.1 ≡ₚ r'.1.1 ∧ r.1.2 ≡ₚ r'.1.2 ∧ r.2 ≡ₚ r'.2.

Lemma normalizable_of_perm nn nn' cols cols' :
  cols ≡ₚ cols' → (∀ x, x ∈ nn ↔ x ∈ nn') →
  same_features (normalizable_of nn cols) (normalizable_of nn' cols').
Proof.
  intros Hp Hnn.
  assert (Hpod : ∀ col, pod_column nn col = pod_column nn' col).
  { intros col. unfold pod_column. destruct (_ && _ && _); [|done].
    destruct (pod_feature_type_of col) as [t|]; [|done].
    by rewrite (bool_decide_ext (t ∉ nn) (t ∉ nn')) by (by rewrite Hnn). }
  assert (Ht : types_of nn cols ≡ₚ types_of nn' cols').
  { apply NoDup_Permutation; [apply NoDup_types_of..|]. intros t. rewrite !elem_of_types_of.
    setoid_rewrite Hpod. by setoid_rewrite Hp. }
  assert (Hf : base_features ++ py_sorted (types_of nn cols) ≡ₚ base_features ++ py_sorted (types_of nn' cols')).
  { unfold py_sorted. by rewrite !merge_sort_Permutation, Ht. }
  unfold same_features, normalizable_of. cbn [fst snd]. split_and!; [done| |done].
  rewrite Hp. erewrite List.filter_ext; [done|]. intros col. cbv beta.
  apply (f_equal2 andb); apply (f_equal negb), bool_decide_ext.
  - rewrite !elem_of_filter_b, Hp. unfold is_pod_column. by rewrite Hpod.
  - by rewrite Hf.
Qed.

Lemma normalizable_ok cols nn c :
  caches_ok c → NoDup cols →
  ∃ r c', get_normalizable_features cols nn c = (Ret r, c') ∧ caches_ok c' ∧
    same_features r (normalizable_of nn cols).
Proof.
  intros Hc Hn. unfold get_normalizable_features. unfold bind at 1. simpl.
  destruct (cache_find _ (normalizable_features_cache c)) as [r|] eqn:E.
  - exists r, c. split; [done|]. split; [done|]. destruct Hc as (_ & _ & H3).
    destruct (H3 _ _ _ E) as (cols' & nn' & Hn' & Hs & Hsn & ->).
    apply normalizable_of_perm; [by apply NoDup_perm_set|]. intros x. set_solver.
  - destruct (detect_ok nn cols ([], []) c Hc) as (c1 & E1 & Hc1). unfold bind at 1. rewrite E1.
    eexists _, _. split; [done|]. split; [|by apply normalizable_of_perm].
    destruct Hc1 as (H1 & H2 & H3). split_and!; [done..|].
    simpl. intros k kn r. case_decide as Hk; [|eauto]. injection Hk as <- <-. intros [= <-].
    by exists cols, nn.
Qed.

(** The calls that fill the caches. *)
Inductive cache_step : caches → caches → Prop :=
| step_extract col c : cache_step c (extract_pod_feature_type col c).2
| step_matching cols t c : NoDup cols → cache_step c (get_matching_columns_cached cols t c).2
| step_normalizable cols nn c : NoDup cols → cache_step c (get_normalizable_features cols nn c).2.

Lemma reachable_caches_ok c : rtc cache_step new_caches c → caches_ok c.
Proof.
  revert c. apply rtc_ind_r; [apply new_caches_ok|].
  intros c1 c2 _ Hstep Hc. destruct Hstep as [col c|cols t c Hn|cols nn c Hn].
  - by destruct (extract_ok col c Hc) as (? & -> & ?).
  - by destruct (matching_ok cols t c Hc Hn) as (? & ? & -> & ? & _).
  - by destruct (normalizable_ok cols nn c Hc Hn) as (? & ? & -> & ? & _).
Qed.

(** ** Lemmas: normalizing columns in place *)

Section columns.
Context {F : Type} {NF : Num F} {NP : Numpy F} {SQ : Sqrt F}.

(** The key of the statistics a column is normalized with. *)
Definition key_of (col : string) : string :=
  match pod_feature_type_of col with
  | Some t => if truthy (pod_feature_type_of col) then t else col
  | None => col
  end.

(** The values of a column after inference normalization. *)
Definition norm_by (s : RunningStats F) (values : list F) : list F :=
  match rs_mean s, rs_std s with
  | Some mean, Some std =>
    if np_isclose0 (nlit 1 100000000) std then values else (λ x, ndiv (nsub x mean) std) <$> values
  | _, _ => values
  end.

Definition norm_column (fs : FeatureStats F) (col : string) (values : list F) : list F :=
  match assoc (key_of col) (feature_stats fs) with Some s => norm_by s values | None => values end.

(** Statistics of a feature seen in training, with a proper deviation; [1e-10]
    is closer to zero than [1e-8]. *)
Definition usable (s : RunningStats F) : Prop :=
  rs_count s ≠ 0 ∧ ∃ m d, rs_mean s = Some m ∧ rs_std s = Some d ∧ nisnan d = false ∧
    (is_zero d || np_isclose0 (nlit 1 10000000000) d = true → np_isclose0 (nlit 1 100000000) d = true).

Definition nstate_ok (st : nstate F) : Prop :=
  caches_ok (n_caches st) ∧ NoDup (f_columns (n_df st)) ∧
  ∀ c, c ∈ f_columns (n_df st) ↔ is_Some (f_data (n_df st) !! c).

(** Exactly the columns [cs] are normalized. *)
Definition normalizes (cs : list string) (st st' : nstate F) : Prop :=
  n_stats st' = n_stats st ∧ caches_ok (n_caches st') ∧ f_columns (n_df st') = f_columns (n_df st) ∧
  ∀ c, f_data (n_df st') !! c =
    if decide (c ∈ cs) then norm_column (n_stats st) c <$> f_data (n_df st) !! c else f_data (n_df st) !! c.

Lemma normalizes_nil st st' :
  nstate_ok st → caches_ok (n_caches st') → n_stats st' = n_stats st → n_df st' = n_df st →
  normalizes [] st st'.
Proof. intros _ Hc Hs Hd. split_and!; [done..|by rewrite Hd|]. intros c. rewrite Hd, decide_False; [done|set_solver]. Qed.

Lemma normalizes_ok cs st st' : nstate_ok st → normalizes cs st st' → nstate_ok st'.
Proof.
  intros (_ & Hn & Hd) (Es & Hc & Ec & Ed). split_and!; [done|by rewrite Ec|].
  intros c. rewrite Ec, Ed, Hd. case_decide; [by rewrite fmap_is_Some|done].
Qed.

Lemma normalizes_app cs1 cs2 st st1 st2 :
  normalizes cs1 st st1 → normalizes cs2 st1 st2 → (∀ c, c ∈ cs1 → c ∈ cs2 → False) →
  normalizes (cs1 ++ cs2) st st2.
Proof.
  intros (Es1 & Hc1 & Ec1 & Ed1) (Es2 & Hc2 & Ec2 & Ed2) Hdisj. split_and!; [congruence|done|congruence|].
  intros c. rewrite Ed2, Ed1, Es1. specialize (Hdisj c). repeat case_decide; set_solver.
Qed.

Lemma normalizes_perm cs cs' st st' : (∀ c, c ∈ cs ↔ c ∈ cs') → normalizes cs st st' → normalizes cs' st st'.
Proof.
  intros Hp (Es & Hc & Ec & Ed). split_and!; [done..|]. intros c. rewrite Ed.
  by rewrite (decide_ext (c ∈ cs) (c ∈ cs')).
Qed.

(** A loop whose bodies normalize disjoint groups of columns. *)
Lemma for_each_normalizes {X} (cover : X → list string) (body : X → M (nstate F) unit) xs st :
  nstate_ok st → NoDup (concat (cover <$> xs)) →
  (∀ x st1, x ∈ xs → nstate_ok st1 → n_stats st1 = n_stats st → f_columns (n_df st1) = f_columns (n_df st) →
     (∀ c, c ∈ cover x → f_data (n_df st1) !! c = f_data (n_df st) !! c) →
     ∃ st2, body x st1 = (Ret tt, st2) ∧ normalizes (cover x) st1 st2) →
  ∃ st', for_each xs body st = (Ret tt, st') ∧ normalizes (concat (cover <$> xs)) st st'.
Proof.
  revert st. induction xs as [|x xs IH]; intros st Hok Hnd Hbody; csimpl.
  { exists st. split; [done|]. apply normalizes_nil; [done|apply Hok|done..]. }
  csimpl in Hnd. apply NoDup_app in Hnd as (_ & Hdisj & Hnd).
  destruct (Hbody x st) as (st1 & E1 & H1); [set_solver|done..|].
  destruct (IH st1) as (st2 & E2 & H2); [by eapply normalizes_ok|done| |].
  { intros y st3 Hy Hok3 Hs3 Hc3 Hd3. destruct H1 as (Es & _ & Ec & Ed).
    apply Hbody; [set_solver|done|congruence|congruence|].
    intros c Hc. rewrite Hd3, Ed by done. rewrite decide_False; [done|].
    intros Hx. apply (Hdisj c Hx), elem_of_concat_map. eauto. }
  exists st2. unfold bind. rewrite E1, E2. split; [done|]. eapply normalizes_app; [done..|]. exact Hdisj.
Qed.

(** Replacing one column by its normalized values. *)
Lemma set_column_normalizes col values st :
  nstate_ok st → f_data (n_df st) !! col = Some values →
  ∃ st', set_column col (norm_column (n_stats st) col values) st = (Ret tt, st') ∧ normalizes [col] st st'.
Proof.
  intros (Hc & _) Hcol. eexists. split; [done|]. split_and!; [done..|]. simpl. intros c.
  destruct (decide (c = col)) as [->|Hne].
  - rewrite lookup_insert_eq, decide_True, Hcol by set_solver. done.
  - rewrite lookup_insert_ne, decide_False by set_solver. done.
Qed.

(** Constant features stay as they are. *)
Lemma skip_normalizes cols s d st :
  nstate_ok st → (∀ col, col ∈ cols → assoc (key_of col) (feature_stats (n_stats st)) = Some s) →
  rs_std s = Some d → np_isclose0 (nlit 1 100000000) d = true → normalizes cols st st.
Proof.
  intros (Hc & _) Hcol Hd Hclose. split_and!; [done..|]. intros c. case_decide as Hin; [|done].
  destruct (f_data (n_df st) !! c) as [v|]; [|done]. csimpl. f_equal.
  unfold norm_column, norm_by. rewrite (Hcol c Hin), Hd, Hclose. by destruct (rs_mean s).
Qed.

(** No normalized value of a column is NaN. *)
Definition column_clean (st : nstate F) (col : string) : Prop :=
  ∃ values s, f_data (n_df st) !! col = Some values ∧
    assoc (key_of col) (feature_stats (n_stats st)) = Some s ∧ usable s ∧
    existsb nisnan (norm_by s values) = false.

Lemma column_clean_ext st st1 col :
  n_stats st1 = n_stats st → f_data (n_df st1) !! col = f_data (n_df st) !! col →
  column_clean st col → column_clean st1 col.
Proof. intros Es Ed (v & s & Hv & Hs & H). exists v, s. rewrite Es, Ed. done. Qed.

Lemma apply_normalization_ok col st :
  nstate_ok st → column_clean st col →
  (∀ s d, assoc (key_of col) (feature_stats (n_stats st)) = Some s → rs_std s = Some d →
          np_isclose0 (nlit 1 100000000) d = false) →
  ∃ st', apply_normalization col (key_of col) st = (Ret tt, st') ∧ normalizes [col] st st'.
Proof.
  intros Hok (values & s & Hcol & Hs & (Hcount & m & d & Hm & Hd & Hnan & Hclose) & Hclean) Hfar.
  specialize (Hfar s d Hs Hd). destruct (set_column_normalizes col values st Hok Hcol) as (st' & E & Hn).
  exists st'. split; [|done]. unfold apply_normalization, column, stats_of. py_unfold. rewrite Hcol, Hs.
  unfold rs_normalize. rewrite (proj2 (Z.eqb_neq _ _) Hcount), Hm, Hd, Hnan.
  destruct (is_zero d || _); [by rewrite Hclose in Hfar|].
  unfold norm_column in E. rewrite Hs in E. unfold norm_by in E, Hclean. rewrite Hm, Hd, Hfar in E, Hclean.
  rewrite Hclean, Hclean. exact E.
Qed.

Lemma single_feature_ok col st :
  nstate_ok st → column_clean st col →
  ∃ st', normalize_single_feature col false false st = (Ret tt, st') ∧ normalizes [col] st st'.
Proof.
  intros Hok Hclean. pose proof Hclean as (values & s & Hcol & Hs & (Hcount & m & d & Hm & Hd & Hnan & Hclose) & _).
  assert (Hin : col ∈ f_columns (n_df st)) by (apply Hok; eauto).
  destruct Hok as (Hc & Hn & Hdom).
  destruct (extract_ok col (n_caches st) Hc) as (c1 & E1 & Hc1).
  unfold normalize_single_feature, with_caches. py_unfold. rewrite bool_decide_eq_true_2 by done. simpl.
  rewrite E1. simpl. fold (key_of col). rewrite Hs. simpl. rewrite Hd. simpl.
  set (st1 := mkNState c1 (n_stats st) (n_df st)).
  assert (Hok1 : nstate_ok st1) by by split_and!.
  assert (Hup : ∀ st', normalizes [col] st1 st' → normalizes [col] st st') by done.
  destruct (np_isclose0 (nlit 1 100000000) d) eqn:Eclose.
  - exists st1. split; [done|]. apply Hup. apply (skip_normalizes [col] s d); [done| |done..].
    by intros c ->%list_elem_of_singleton.
  - destruct (apply_normalization_ok col st1 Hok1) as (st' & E' & Hn').
    + by eapply column_clean_ext.
    + simpl. intros s' d' Hs' Hd'. congruence.
    + exists st'. split; [exact E'|by apply Hup].
Qed.

Lemma batch_column_ok col s m d st :
  nstate_ok st → column_clean st col → assoc (key_of col) (feature_stats (n_stats st)) = Some s →
  rs_mean s = Some m → rs_std s = Some d → np_isclose0 (nlit 1 100000000) d = false →
  ∃ st', batch_column m d col st = (Ret tt, st') ∧ normalizes [col] st st'.
Proof.
  intros Hok (values & s' & Hcol & Hs' & _ & Hclean) Hs Hm Hd Hfar. rewrite Hs in Hs'. injection Hs' as <-.
  destruct (set_column_normalizes col values st Hok Hcol) as (st' & E & Hn).
  exists st'. split; [|done]. unfold batch_column, column. py_unfold.
  rewrite bool_decide_eq_true_2 by (apply Hok; eauto). simpl. rewrite Hcol. simpl.
  unfold norm_column in E. rewrite Hs in E. unfold norm_by in E, Hclean. rewrite Hm, Hd, Hfar in E, Hclean.
  rewrite Hclean. exact E.
Qed.

(** Columns that share their statistics. *)
Lemma batch_columns_ok s d cols st :
  nstate_ok st → NoDup cols → usable s → rs_std s = Some d → np_isclose0 (nlit 1 100000000) d = false →
  (∀ col, col ∈ cols → column_clean st col ∧ assoc (key_of col) (feature_stats (n_stats st)) = Some s) →
  ∃ st', batch_columns s d cols st = (Ret tt, st') ∧ normalizes cols st st'.
Proof.
  intros Hok Hn (_ & m & d' & Hm & Hd' & Hnan & Hclose) Hd Hfar Hcols. rewrite Hd in Hd'. injection Hd' as <-.
  unfold batch_columns. rewrite Hnan, orb_false_r.
  destruct (is_zero d) eqn:Ez; [by rewrite Hclose in Hfar|]. py_unfold. rewrite Hm. simpl.
  pose proof (concat_singletons cols) as Hcat.
  destruct (for_each_normalizes (λ c, [c]) (batch_column m d) cols st Hok) as (st' & E & H); [by rewrite Hcat| |].
  - intros col st1 Hin Hok1 Es Ec Ed. destruct (Hcols col Hin) as [Hclean Hs].
    apply (batch_column_ok col s); [done| |by rewrite Es|done..].
    eapply column_clean_ext; [done|apply Ed; set_solver|done].
  - exists st'. by rewrite Hcat in H.
Qed.

(** ** Lemmas: groups of columns *)

Lemma elem_of_matching cols t col : col ∈ matching_of cols t ↔ pod_feature_type_of col = Some t ∧ col ∈ cols.
Proof. unfold matching_of. by rewrite elem_of_filter_b, bool_decide_eq_true. Qed.

Lemma key_of_matching cols t col : truthy (Some t) = true → col ∈ matching_of cols t → key_of col = t.
Proof. intros Ht [Hc _]%elem_of_matching. unfold key_of. by rewrite Hc, Ht. Qed.

Lemma NoDup_matching cols t : NoDup cols → NoDup (matching_of cols t).
Proof. intros. apply NoDup_ListNoDup, List.NoDup_filter. by apply NoDup_ListNoDup. Qed.

(** The frame after a change of the caches. *)
Lemma normalizes_caches c' cs st st' :
  normalizes cs (mkNState c' (n_stats st) (n_df st)) st' → normalizes cs st st'.
Proof. done. Qed.

(** A feature with statistics, all of whose columns are clean. *)
Definition group_ok (st : nstate F) (key : string) (cols : list string) : Prop :=
  ∃ s, assoc key (feature_stats (n_stats st)) = Some s ∧ usable s ∧
    ∀ col, col ∈ cols → key_of col = key ∧ column_clean st col.

Lemma group_ok_ext st st1 key cols :
  n_stats st1 = n_stats st → (∀ c, c ∈ cols → f_data (n_df st1) !! c = f_data (n_df st) !! c) →
  group_ok st key cols → group_ok st1 key cols.
Proof.
  intros Es Ed (s & Hs & Hu & Hc). exists s. rewrite Es. split_and!; [done..|].
  intros col Hcol. destruct (Hc col Hcol) as [Hk Hcl]. split; [done|]. eapply column_clean_ext; eauto.
Qed.

Lemma batch_group_ok st key s d cols :
  nstate_ok st → NoDup cols → group_ok st key cols →
  assoc key (feature_stats (n_stats st)) = Some s → rs_std s = Some d →
  np_isclose0 (nlit 1 100000000) d = false →
  ∃ st', batch_columns s d cols st = (Ret tt, st') ∧ normalizes cols st st'.
Proof.
  intros Hok Hn (s' & Hs' & Hu & Hc) Hs Hd Hfar. rewrite Hs in Hs'. injection Hs' as <-.
  apply batch_columns_ok; [done..|]. intros col Hcol. destruct (Hc col Hcol) as [-> Hcl]. done.
Qed.

Lemma batch_pod_type_ok t st :
  nstate_ok st → group_ok st t (matching_of (f_columns (n_df st)) t) →
  ∃ st', batch_pod_type t st = (Ret tt, st') ∧ normalizes (matching_of (f_columns (n_df st)) t) st st'.
Proof.
  intros Hok Hg. pose proof Hg as (s & Hs & Hu & Hcols). pose proof Hu as (_ & m & d & Hm & Hd & _ & _).
  unfold batch_pod_type, with_caches. py_unfold. rewrite Hs. simpl. rewrite Hd. simpl.
  destruct (np_isclose0 (nlit 1 100000000) d) eqn:Eclose.
  { exists st. split; [done|]. apply (skip_normalizes _ s d); [done| |done..].
    intros col Hcol. by destruct (Hcols col Hcol) as [-> _]. }
  pose proof Hok as (Hc & Hn & Hdom).
  destruct (matching_ok (f_columns (n_df st)) t (n_caches st) Hc Hn) as (ms & c' & E & Hc' & Hp).
  rewrite E. set (st1 := mkNState c' (n_stats st) (n_df st)).
  assert (Hok1 : nstate_ok st1) by by split_and!.
  destruct ms as [|col0 ms0].
  - exists st1. split; [done|]. apply Permutation_nil_l in Hp. rewrite <-Hp. by apply normalizes_nil.
  - destruct (batch_group_ok st1 t s d (col0 :: ms0) Hok1) as (st' & E' & Hn').
    + rewrite Hp. by apply NoDup_matching.
    + exists s. split_and!; [done..|]. intros col Hcol. apply Hcols. by rewrite <-Hp.
    + done.
    + done.
    + done.
    + exists st'. split; [exact E'|]. eapply normalizes_perm; [|exact Hn']. intros c. by rewrite Hp.
Qed.

Lemma batch_own_ok types f st :
  nstate_ok st → f ∈ f_columns (n_df st) → f ∉ types → group_ok st f [f] →
  ∃ st', batch_own_feature types f st = (Ret tt, st') ∧ normalizes [f] st st'.
Proof.
  intros Hok Hf Ht Hg. pose proof Hg as (s & Hs & Hu & Hcols). pose proof Hu as (_ & m & d & Hm & Hd & _ & _).
  unfold batch_own_feature. rewrite bool_decide_eq_false_2 by done. py_unfold. rewrite Hs.
  rewrite bool_decide_eq_true_2 by done. simpl. rewrite Hd. simpl.
  destruct (np_isclose0 (nlit 1 100000000) d) eqn:Eclose.
  - exists st. split; [done|]. apply (skip_normalizes _ s d); [done| |done..].
    intros col Hcol. by destruct (Hcols col Hcol) as [-> _].
  - apply (batch_group_ok st f); [done|apply NoDup_singleton|done..].
Qed.

Lemma loop_pod_type_ok types t st :
  nstate_ok st → t ∈ types → group_ok st t (matching_of (f_columns (n_df st)) t) →
  ∃ st', normalize_feature types false t st = (Ret tt, st') ∧
    normalizes (matching_of (f_columns (n_df st)) t) st st'.
Proof.
  intros Hok Ht (s & Hs & Hu & Hcols). unfold normalize_feature, with_caches.
  rewrite bool_decide_eq_true_2 by done. pose proof Hok as (Hc & Hn & Hdom).
  destruct (matching_ok (f_columns (n_df st)) t (n_caches st) Hc Hn) as (ms & c' & E & Hc' & Hp).
  unfold bind at 1 2, zoom, gets. rewrite E. set (st1 := mkNState c' (n_stats st) (n_df st)).
  pose proof (concat_singletons ms) as Hcat.
  destruct (for_each_normalizes (λ c, [c]) (λ col, normalize_single_feature col false false) ms st1)
    as (st' & E' & H'); [by split_and!|rewrite Hcat, Hp; by apply NoDup_matching| |].
  - intros col st2 Hin Hok2 Es Ec Ed. apply single_feature_ok; [done|].
    destruct (Hcols col) as [_ Hclean]; [by rewrite <-Hp|].
    eapply column_clean_ext; [exact Es|apply Ed; set_solver|exact Hclean].
  - rewrite Hcat in H'. exists st'. split; [exact E'|].
    eapply normalizes_perm; [|exact H']. intros c. by rewrite Hp.
Qed.

Lemma loop_own_ok types f st :
  nstate_ok st → f ∉ types → group_ok st f [f] →
  ∃ st', normalize_feature types false f st = (Ret tt, st') ∧ normalizes [f] st st'.
Proof.
  intros Hok Ht (s & Hs & Hu & Hcols). unfold normalize_feature.
  rewrite bool_decide_eq_false_2 by done. apply single_feature_ok; [done|]. apply Hcols. set_solver.
Qed.

(** The columns a feature stands for. *)
Definition cover (types cols : list string) (f : string) : list string :=
  if bool_decide (f ∈ types) then matching_of cols f else [f].

Definition own_cover (types : list string) (f : string) : list string :=
  if bool_decide (f ∈ types) then [] else [f].

Lemma NoDup_cover (cov : string → list string) fs :
  NoDup fs → (∀ f, f ∈ fs → NoDup (cov f)) → (∀ f c, f ∈ fs → c ∈ cov f → key_of c = f) →
  NoDup (concat (cov <$> fs)).
Proof.
  induction 1 as [|f fs Hf Hn IH]; intros Hnd Hkey; csimpl; [constructor|].
  apply NoDup_app. split_and!; [apply Hnd; set_solver| |apply IH; set_solver].
  intros c Hc (g & Hg & Hc')%elem_of_concat_map.
  apply Hf. rewrite <-(Hkey f c), (Hkey g c) by set_solver. done.
Qed.

Lemma base_key f : f ∈ base_features → key_of f = f.
Proof. unfold base_features. set_unfold. by intros [->|[->|[->|[]]]]. Qed.

(** What [get_normalizable_features] promises. *)
Lemma features_spec cols nn c r c' :
  caches_ok c → NoDup cols → get_normalizable_features cols nn c = (Ret r, c') →
  caches_ok c' ∧ r.1.1 ≡ₚ base_features ++ r.2 ∧ NoDup r.2 ∧ ∀ t, t ∈ r.2 → truthy (Some t) = true.
Proof.
  intros Hc Hn E. destruct (normalizable_ok cols nn c Hc Hn) as (r' & c1 & E' & Hc1 & Hf & _ & Ht).
  rewrite E in E'. injection E' as <- <-. split; [done|]. simpl in Ht, Hf.
  split; [rewrite Hf; unfold py_sorted; by rewrite merge_sort_Permutation, Ht|].
  split; [rewrite Ht; apply NoDup_types_of|]. intros t. rewrite Ht.
  intros (col & _ & Hcol)%elem_of_types_of. unfold pod_column in Hcol.
  destruct (_ && _ && _); [|done]. destruct (pod_feature_type_of col) as [t'|]; [|done].
  destruct (truthy (Some t') && _) eqn:Et; [|done]. injection Hcol as <-. by apply andb_true_iff in Et as [? _].
Qed.

(** Detected features whose statistics and columns are in order. *)
Definition plan_ok (st : nstate F) (features types : list string) : Prop :=
  NoDup features ∧ NoDup types ∧ (∀ f, f ∈ types → f ∈ features) ∧
  (∀ f, f ∈ features → f ∉ types → f ∈ f_columns (n_df st)) ∧
  ∀ f, f ∈ features → group_ok st f (cover types (f_columns (n_df st)) f).

Lemma plan_key st features types f c :
  plan_ok st features types → f ∈ features → c ∈ cover types (f_columns (n_df st)) f → key_of c = f.
Proof. intros (_ & _ & _ & _ & Hg) Hf Hc. destruct (Hg f Hf) as (_ & _ & _ & Hk). by apply Hk. Qed.

Lemma NoDup_plan st features types fs cov :
  plan_ok st features types → NoDup fs → (∀ f, f ∈ fs → f ∈ features) →
  (∀ f, f ∈ fs → NoDup (cov f) ∧ ∀ c, c ∈ cov f → c ∈ cover types (f_columns (n_df st)) f) →
  NoDup (concat (cov <$> fs)).
Proof.
  intros Hplan Hn Hsub Hcov. apply NoDup_cover; [done|by intros f Hf; apply Hcov|].
  intros f c Hf Hc. eapply plan_key; [done|by apply Hsub|by apply Hcov].
Qed.

Lemma NoDup_one_cover types st f : nstate_ok st → NoDup (cover types (f_columns (n_df st)) f).
Proof.
  intros (_ & Hn & _). unfold cover. case_bool_decide; [by apply NoDup_matching|apply NoDup_singleton].
Qed.

Lemma loop_normalizes st features types :
  nstate_ok st → plan_ok st features types →
  ∃ st', for_each features (normalize_feature types false) st = (Ret tt, st') ∧
    normalizes (concat (cover types (f_columns (n_df st)) <$> features)) st st'.
Proof.
  intros Hok Hplan. pose proof Hplan as (Hn & Hnt & Hsub & Hcols & Hg).
  apply for_each_normalizes; [done| |].
  - eapply NoDup_plan; [done..|]. intros f Hf. split; [by apply NoDup_one_cover|done].
  - intros f st1 Hf Hok1 Es Ec Ed. apply Hg in Hf. eapply group_ok_ext in Hf; [|exact Es|exact Ed].
    unfold cover in *. rewrite <-Ec in *. case_bool_decide; [by apply loop_pod_type_ok|by apply loop_own_ok].
Qed.

Lemma pods_normalized st features types :
  nstate_ok st → plan_ok st features types →
  ∃ st', for_each types batch_pod_type st = (Ret tt, st') ∧
    normalizes (concat (matching_of (f_columns (n_df st)) <$> types)) st st'.
Proof.
  intros Hok Hplan. pose proof Hplan as (Hn & Hnt & Hsub & Hcols & Hg).
  apply for_each_normalizes; [done| |].
  - eapply NoDup_plan; [done..|]. intros f Hf. split; [apply NoDup_matching, Hok|].
    intros c Hc. unfold cover. by rewrite bool_decide_eq_true_2.
  - intros t st1 Ht Hok1 Es Ec Ed. pose proof (Hg t (Hsub t Ht)) as Hgt. unfold cover in Hgt.
    rewrite bool_decide_eq_true_2 in Hgt by done. eapply group_ok_ext in Hgt; [|exact Es|exact Ed].
    rewrite <-Ec in *. by apply batch_pod_type_ok.
Qed.

(** The features that are not pod types, whatever happened to the pod columns. *)
Lemma own_normalized st features types st1 :
  nstate_ok st → plan_ok st features types →
  normalizes (concat (matching_of (f_columns (n_df st)) <$> types)) st st1 →
  ∃ st', for_each features (batch_own_feature types) st1 = (Ret tt, st') ∧
    normalizes (concat (own_cover types <$> features)) st1 st'.
Proof.
  intros Hok Hplan H1. pose proof Hplan as (Hn & Hnt & Hsub & Hcols & Hg). pose proof H1 as (Es1 & _ & Ec1 & Ed1).
  apply for_each_normalizes; [by eapply normalizes_ok| |].
  { eapply NoDup_plan; [done..|]. intros f Hf. unfold own_cover, cover.
    case_bool_decide; (split; [|set_solver]); constructor; [set_solver|constructor]. }
  intros f st2 Hf Hok2 Es Ec Ed. unfold own_cover in *. case_bool_decide as Ht.
  - exists st2. unfold batch_own_feature. rewrite bool_decide_eq_true_2 by done. split; [done|].
    apply normalizes_nil; [done|apply Hok2|done..].
  - apply batch_own_ok; [done|rewrite Ec, Ec1; by apply Hcols|done|].
    pose proof (Hg f Hf) as Hgf. unfold cover in Hgf. rewrite bool_decide_eq_false_2 in Hgf by done.
    eapply group_ok_ext; [|intros c Hc; rewrite (Ed c Hc), Ed1, decide_False; [done|]|exact Hgf]; [congruence|].
    apply list_elem_of_singleton in Hc as ->. intros (t & Ht' & Hft)%elem_of_concat_map. apply Ht.
    rewrite <-(plan_key st features types f f), (plan_key st features types t f); auto; unfold cover.
    + by rewrite bool_decide_eq_true_2.
    + rewrite bool_decide_eq_false_2 by done. set_solver.
Qed.

Lemma batch_normalizes st features types :
  nstate_ok st → plan_ok st features types →
  ∃ st', normalize_features_batch_inference features types st = (Ret tt, st') ∧
    normalizes (concat (cover types (f_columns (n_df st)) <$> features)) st st'.
Proof.
  intros Hok Hplan. pose proof Hplan as (_ & _ & Hsub & _ & _).
  destruct (pods_normalized st features types Hok Hplan) as (st1 & E1 & H1).
  destruct (own_normalized st features types st1 Hok Hplan H1) as (st2 & E2 & H2).
  exists st2. unfold normalize_features_batch_inference, bind. rewrite E1, E2. split; [done|].
  assert (Hmem : ∀ c, c ∈ concat (matching_of (f_columns (n_df st)) <$> types) ++ concat (own_cover types <$> features)
               ↔ c ∈ concat (cover types (f_columns (n_df st)) <$> features)).
  { intros c. rewrite elem_of_app, !elem_of_concat_map. unfold cover, own_cover. split.
    - intros [(t & Ht & Hc)|(f & Hf & Hc)]; [exists t; rewrite bool_decide_eq_true_2; auto|].
      exists f. case_bool_decide; [by apply not_elem_of_nil in Hc|done].
    - intros (f & Hf & Hc). case_bool_decide as Ht; [by left; exists f|]. right. exists f.
      by rewrite bool_decide_eq_false_2. }
  eapply normalizes_perm; [exact Hmem|]. eapply normalizes_app; [done..|].
  intros c (t & Ht & Hc)%elem_of_concat_map (f & Hf & Hcf)%elem_of_concat_map.
  unfold own_cover in Hcf. case_bool_decide as Hft; [by apply not_elem_of_nil in Hcf|]. apply Hft.
  rewrite <-(plan_key st features types f c), (plan_key st features types t c); auto; unfold cover.
  - by rewrite bool_decide_eq_true_2.
  - by rewrite bool_decide_eq_false_2.
Qed.

Lemma plan_intro nn st features others types c' :
  nstate_ok st →
  get_normalizable_features (f_columns (n_df st)) nn (n_caches st) = (Ret (features, others, types), c') →
  (∀ f, f ∈ base_features → f ∈ f_columns (n_df st) ∧ f ∉ types) →
  (∀ f, f ∈ features → ∃ s, assoc f (feature_stats (n_stats st)) = Some s ∧ usable s) →
  (∀ col values s, f_data (n_df st) !! col = Some values →
     assoc (key_of col) (feature_stats (n_stats st)) = Some s → existsb nisnan (norm_by s values) = false) →
  let st0 := mkNState c' (n_stats st) (n_df st) in
  nstate_ok st0 ∧ plan_ok st0 features types.
Proof.
  intros Hok E Hbase Hstats Hclean st0. pose proof Hok as (Hc & Hn & Hdom).
  destruct (features_spec _ _ _ _ _ Hc Hn E) as (Hc' & Hf & Hnt & Htruthy). cbn [fst snd] in Hf, Hnt, Htruthy.
  assert (Hcols : ∀ f, f ∈ features → f ∉ types → f ∈ base_features) by (intros f; rewrite Hf; set_solver).
  split; [by split_and!|]. split_and!.
  - rewrite Hf. apply NoDup_app. split_and!; [by apply (bool_decide_unpack _)|naive_solver|done].
  - done.
  - intros f. rewrite Hf. set_solver.
  - intros f Hff Hft. by apply Hbase, Hcols.
  - intros f Hff. destruct (Hstats f Hff) as (s & Hs & Hu). exists s. split_and!; [done..|]. intros col Hcol.
    assert (Hk : key_of col = f ∧ col ∈ f_columns (n_df st)).
    { unfold cover in Hcol. case_bool_decide as Ht.
      - split; [by apply (key_of_matching (f_columns (n_df st))); [apply Htruthy|]|by apply elem_of_matching in Hcol as []].
      - apply list_elem_of_singleton in Hcol as ->. split; [by apply base_key, Hcols|by apply Hbase, Hcols]. }
    destruct Hk as [Hk Hcc]. split; [done|]. apply Hdom in Hcc as [values Hv]. exists values, s. rewrite Hk. split_and!; [done..|].
    apply (Hclean col); [done|]. by rewrite Hk.
Qed.

End columns.

(** ** Properties *)

(** C33: the batch normalization of the inference path is the loop over single
    features. For every number type, when the statistics of the detected features
    are usable and no normalized value is NaN, both return, leave the statistics
    alone and produce the same frame, in which every pod column has been
    normalized with the statistics pooled for its feature type. *)
Theorem batch_inference_is_loop (F : Type) (NF : Num F) (NP : Numpy F) (SQ : Sqrt F) (nn : list string)
    (st : nstate F) (features others types : list string) (c' : caches) :
  nstate_ok st →
  get_normalizable_features (f_columns (n_df st)) nn (n_caches st) = (Ret (features, others, types), c') →
  (∀ f, f ∈ base_features → f ∈ f_columns (n_df st) ∧ f ∉ types) →
  (∀ f, f ∈ features → ∃ s, assoc f (feature_stats (n_stats st)) = Some s ∧ usable s) →
  (∀ col values s, f_data (n_df st) !! col = Some values →
     assoc (key_of col) (feature_stats (n_stats st)) = Some s → existsb nisnan (norm_by s values) = false) →
  let st0 := mkNState c' (n_stats st) (n_df st) in
  ∃ st1 st2, normalize_features_batch_inference features types st0 = (Ret tt, st1) ∧
    for_each features (normalize_feature types false) st0 = (Ret tt, st2) ∧
    n_df st1 = n_df st2 ∧ n_stats st1 = n_stats st ∧ n_stats st2 = n_stats st ∧
    ∀ col t s values, pod_feature_type_of col = Some t → t ∈ types → f_data (n_df st) !! col = Some values →
      assoc t (feature_stats (n_stats st)) = Some s → f_data (n_df st1) !! col = Some (norm_by s values).
Proof.
  intros Hok E Hbase Hstats Hclean st0.
  destruct (plan_intro nn st features others types c' Hok E Hbase Hstats Hclean) as [Hok0 Hplan].
  destruct (batch_normalizes st0 features types Hok0 Hplan) as (st1 & E1 & Es1 & _ & Ec1 & Ed1).
  destruct (loop_normalizes st0 features types Hok0 Hplan) as (st2 & E2 & Es2 & _ & Ec2 & Ed2).
  exists st1, st2. split_and!; [done..| |done|done|].
  - destruct (n_df st1) as [cs1 d1], (n_df st2) as [cs2 d2]. simpl in *. f_equal; [congruence|].
    apply map_eq. intros c. by rewrite Ed1, Ed2.
  - intros col t s values Hcol Ht Hv Hs. rewrite Ed1. simpl. rewrite Hv.
    assert (Hin : col ∈ cover types (f_columns (n_df st)) t).
    { unfold cover. rewrite bool_decide_eq_true_2, elem_of_matching by done. split; [done|]. apply Hok. eauto. }
    pose proof Hplan as (_ & _ & Hsub & _ & _).
    rewrite decide_True by (apply elem_of_concat_map; exists t; eauto). csimpl. unfold norm_column.
    rewrite (plan_key st0 features types t col), Hs; auto.
Qed.

(** The frame of a list of columns. *)
Definition frame_of {F} (l : list (string * list F)) : frame F := mkFrame l.*1 (list_to_map l).

Lemma frame_of_ok {F} c (fs : FeatureStats F) l :
  caches_ok c → NoDup l.*1 → nstate_ok (mkNState c fs (frame_of l)).
Proof.
  intros Hc Hn. split_and!; [done..|]. simpl. intros col.
  rewrite <-not_eq_None_Some, <-not_elem_of_list_to_map. split; [tauto|]. apply dec_stable.
Qed.

(** Three requests and two pods, with the statistics of their features. *)
Definition demo_stats (mean std : Q) (name : string) : string * RunningStats Q :=
  (name, mkRS 10 (Some mean) (Some 90%Q) (Some std) (Some 0%Q) (Some 1000%Q) name).

Definition demo_feature_stats : FeatureStats Q :=
  mkFeatureStats [demo_stats 100 20 "input_tokens"; demo_stats 50 10 "output_tokens";
                  demo_stats 150 0 "total_tokens"; demo_stats 40 4 "kv_hit_ratio"] ∅ 0 4.

Definition demo_frame : frame Q := frame_of
  [("input_tokens", [120; 80; 100]); ("output_tokens", [60; 50; 40]); ("total_tokens", [150; 150; 150]);
   ("pod_0000-kv_hit_ratio", [44; 40; 36]); ("pod_0001-kv_hit_ratio", [0; 10; 48]);
   ("pod_0000-gpu_model", [1; 1; 1])]%string%Q.

Definition demo_nstate : nstate Q := mkNState new_caches demo_feature_stats demo_frame.

Definition demo_features : list string := ["input_tokens"; "output_tokens"; "total_tokens"; "kv_hit_ratio"].

Lemma batch_inference_is_loop_witness :
  let st0 := mkNState (get_normalizable_features (f_columns (n_df demo_nstate)) [] (n_caches demo_nstate)).2
               (n_stats demo_nstate) (n_df demo_nstate) in
  ∃ st1 st2, @normalize_features_batch_inference Q Num_Q demo_features ["kv_hit_ratio"]%string st0 = (Ret tt, st1) ∧
    @for_each (nstate Q) string demo_features (@normalize_feature Q Num_Q demo_numpy demo_sqrt ["kv_hit_ratio"]%string false) st0
      = (Ret tt, st2) ∧
    n_df st1 = n_df st2 ∧
    f_data (n_df st1) !! "pod_0001-kv_hit_ratio"%string =
      Some (norm_by (demo_stats 40 4 "kv_hit_ratio").2 [0; 10; 48]%Q).
Proof.
  destruct (batch_inference_is_loop Q Num_Q demo_numpy demo_sqrt [] demo_nstate demo_features
    ["pod_0000-gpu_model"]%string ["kv_hit_ratio"]%string
    (get_normalizable_features (f_columns (n_df demo_nstate)) [] (n_caches demo_nstate)).2)
    as (st1 & st2 & E1 & E2 & Ed & _ & _ & Hcol).
  - apply frame_of_ok; [apply new_caches_ok|]. apply (bool_decide_unpack _). vm_compute. exact I.
  - vm_compute. reflexivity.
  - apply Forall_forall, (bool_decide_unpack _). vm_compute. exact I.
  - apply Forall_forall. repeat (constructor; [eexists; split; [vm_compute; reflexivity|]|]); try by constructor.
    all: split; [done|]; do 2 eexists; do 3 (split; [reflexivity|]); vm_compute; congruence.
  - intros col values s _ _. apply no_nan_Q.
  - exists st1, st2. split; [exact E1|]. split; [exact E2|]. split; [exact Ed|].
    apply (Hcol "pod_0001-kv_hit_ratio" "kv_hit_ratio")%string; [vm_compute; reflexivity|left|vm_compute; reflexivity..].
Defined.

(** The caches are transparent. Whatever earlier calls filled them, a call
    returns what it returns with empty caches: the same feature type of a column,
    and the same columns and features up to the order of the columns. *)
Theorem caches_transparent (c : caches) (cols nn : list string) (t col : string) :
  rtc cache_step new_caches c → NoDup cols →
  (extract_pod_feature_type col c).1 = (extract_pod_feature_type col new_caches).1 ∧
  (∃ m m', (get_matching_columns_cached cols t c).1 = Ret m ∧
     (get_matching_columns_cached cols t new_caches).1 = Ret m' ∧ m ≡ₚ m') ∧
  (∃ r r', (get_normalizable_features cols nn c).1 = Ret r ∧
     (get_normalizable_features cols nn new_caches).1 = Ret r' ∧ same_features r r').
Proof.
  intros Hc Hn. apply reachable_caches_ok in Hc. pose proof new_caches_ok as H0. split_and!.
  - destruct (extract_ok col c Hc) as (? & -> & _), (extract_ok col new_caches H0) as (? & -> & _). done.
  - destruct (matching_ok cols t c Hc Hn) as (m & ? & -> & _ & Hm),
      (matching_ok cols t new_caches H0 Hn) as (m' & ? & -> & _ & Hm').
    exists m, m'. split_and!; [done..|]. by rewrite Hm, Hm'.
  - destruct (normalizable_ok cols nn c Hc Hn) as (r & ? & -> & _ & Hr),
      (normalizable_ok cols nn new_caches H0 Hn) as (r' & ? & -> & _ & Hr').
    exists r, r'. split_and!; [done..|]. unfold same_features in *. naive_solver eauto using Permutation_sym, Permutation_trans.
Qed.

Lemma caches_transparent_witness :
  let c := (get_matching_columns_cached ["pod_1-x"; "pod_0-x"; "y"] "x" new_caches).2%string in
  (∃ m m', (get_matching_columns_cached ["y"; "pod_0-x"; "pod_1-x"] "x" c).1 = Ret m ∧
     (get_matching_columns_cached ["y"; "pod_0-x"; "pod_1-x"] "x" new_caches).1 = Ret m' ∧ m ≡ₚ m')%string.
Proof.
  destruct (caches_transparent (get_matching_columns_cached ["pod_1-x"; "pod_0-x"; "y"] "x" new_caches).2
    ["y"; "pod_0-x"; "pod_1-x"] [] "x" "y")%string as (_ & H & _); [| |exact H].
  - apply rtc_once. constructor. by apply (bool_decide_unpack _).
  - by apply (bool_decide_unpack _).
Defined.

(** A constant batch makes the statistics forget. When a feature has no
    spread in the batch at hand, its statistics become those of this batch alone,
    count included, whatever was accumulated before and although the update is
    the incremental one; the column is left as it is. *)
Theorem constant_batch_forgets (F : Type) (NF : Num F) (NP : Numpy F) (SQ : Sqrt F) (st : nstate F) (f : string)
    (values : list F) (s : RunningStats F) :
  nstate_ok st → f_data (n_df st) !! f = Some values → pod_feature_type_of f = None →
  assoc f (feature_stats (n_stats st)) = Some s →
  is_zero (np_std values) || np_isclose0 (nlit 1 10000000000) (np_std values) = true →
  ∃ st', normalize_single_feature f true false st = (Ret tt, st') ∧ n_df st' = n_df st ∧
    assoc f (feature_stats (n_stats st')) =
      Some (mkRS (py_len values) (Some (np_mean values)) (Some (lit 0)) (Some (lit 0)) (rs_min s) (rs_max s)
              (rs_feature_names s)).
Proof.
  intros (Hc & Hn & Hdom) Hv Hf Hs Hconst. destruct (extract_ok f (n_caches st) Hc) as (c1 & E1 & Hc1).
  assert (Hin : f ∈ f_columns (n_df st)) by (apply Hdom; eauto).
  unfold normalize_single_feature, with_caches, update_own_stats, save_constant, stats_of, column, set_stats_of.
  py_unfold. rewrite bool_decide_eq_true_2 by done. simpl. rewrite E1, Hf. simpl. rewrite Hv. simpl. rewrite Hs.
  simpl. rewrite Hconst. simpl. rewrite Hs. simpl. eexists. split; [done|]. split; [done|]. simpl. apply assoc_set_eq.
Qed.

Lemma constant_batch_forgets_witness :
  ∃ st', @normalize_single_feature Q Num_Q demo_numpy demo_sqrt "total_tokens" true false demo_nstate = (Ret tt, st') ∧
    n_df st' = demo_frame ∧
    rs_count <$> assoc "total_tokens" (feature_stats (n_stats st')) = Some 3.
Proof.
  destruct (constant_batch_forgets Q Num_Q demo_numpy demo_sqrt demo_nstate "total_tokens" [150; 150; 150]%Q
    (demo_stats 150 0 "total_tokens").2) as (st' & E & Ed & Es).
  - apply frame_of_ok; [apply new_caches_ok|by apply (bool_decide_unpack _)].
  - reflexivity.
  - reflexivity.
  - reflexivity.
  - reflexivity.
  - exists st'. split; [exact E|]. split; [exact Ed|]. by rewrite Es.
Defined.
