(* ===== verification/StatsFile.v ===== *)
(** * The statistics file and the normalization of a training file

    Models the rest of
    [python/routing_agent_service/agent_codes/data_normalizer.py]:
    [FeatureStats.write_stats_to_file] and [load_from_csv] with its two formats,
    and steps 5 to 7 of [normalize_processed_data], which detect the features of
    a training frame, fit or override the statistics, and normalize the columns.
    A cell of the CSV file is a float: [csv_float] is what a float becomes when
    pandas writes and reads it, [py_int] is [int(x)], and [nan] is an empty cell. *)

From S2P Require Import Prelude Num RunningStats FeatureNorm.

Open Scope Z_scope.
Open Scope py_scope.

(** A row of the long format: feature, kind of statistic, value. *)
Abbreviation csv_row F := (string * string * F)%type.

(** [df['feature_name'].unique()] *)
Definition unique_names {F} (rows : list (csv_row F)) : list string :=
  foldl add_type [] (rows.*1.*1).

Definition pod_keywords : list string :=
  ["kv_hit_ratio"; "inflight_requests"; "gpu_kv_cache"; "cpu_kv_cache"; "running_requests"; "waiting_requests";
   "prefill_tokens"; "decode_tokens"; "inflight_prefill_requests"; "inflight_decode_requests"].

Section file.
Context {F : Type} {NF : Num F} {NP : Numpy F} {SQ : Sqrt F}.
Context (csv_float : F → F) (py_int : F → Z) (nan : F).
Open Scope num_scope.

(** [None] is written as an empty cell. *)
Definition cell (o : option F) : F := default nan o.

Definition rows_of_stats (name : string) (s : RunningStats F) : list (csv_row F) :=
  [(name, "count", lit (rs_count s)); (name, "mean", cell (rs_mean s)); (name, "std", cell (rs_std s));
   (name, "min", cell (rs_min s)); (name, "max", cell (rs_max s));
   (name, "sum_sq_diff", cell (rs_sum_sq_diff s))]%string.

(** Features of single pods are skipped; the dictionary has every name once. *)
Definition write_stats_to_file (fs : FeatureStats F) : list (csv_row F) :=
  concat ((λ '(name, s), if truthy (pod_feature_type_of name) then [] else rows_of_stats name s) <$>
          feature_stats fs).

(** The file as [pd.read_csv] returns it. *)
Definition through_file (rows : list (csv_row F)) : list (csv_row F) :=
  (λ '(name, kind, v), (name, kind, csv_float v)) <$> rows.

Definition feature_rows (name : string) (rows : list (csv_row F)) : list (string * F) :=
  (λ r, (r.1.2, r.2)) <$> List.filter (λ r, bool_decide (r.1.1 = name)) rows.

(** [int(nan)] raises. *)
Definition int_cell (v : F) : outcome Z := if nisnan v then Raise ValueError else Ret (py_int v).

(** An empty bound of a pooled feature is zero. *)
Definition bound_cell (pooled : bool) (v : F) : F := if pooled && nisnan v then lit 0 else v.

Definition set_field (pooled : bool) (s : RunningStats F) (kind : string) (v : F) : outcome (RunningStats F) :=
  if bool_decide (kind = "count"%string) then
    try* n := int_cell v in
    Ret (set_stats n (rs_mean s) (rs_sum_sq_diff s) (rs_std s) (rs_min s) (rs_max s) s)
  else if bool_decide (kind = "mean"%string) then
    Ret (set_stats (rs_count s) (Some v) (rs_sum_sq_diff s) (rs_std s) (rs_min s) (rs_max s) s)
  else if bool_decide (kind = "std"%string) then
    Ret (set_stats (rs_count s) (rs_mean s) (rs_sum_sq_diff s) (Some v) (rs_min s) (rs_max s) s)
  else if bool_decide (kind = "min"%string) then
    Ret (set_stats (rs_count s) (rs_mean s) (rs_sum_sq_diff s) (rs_std s) (Some (bound_cell pooled v)) (rs_max s) s)
  else if bool_decide (kind = "max"%string) then
    Ret (set_stats (rs_count s) (rs_mean s) (rs_sum_sq_diff s) (rs_std s) (rs_min s) (Some (bound_cell pooled v)) s)
  else if bool_decide (kind = "sum_sq_diff"%string) then
    Ret (set_stats (rs_count s) (rs_mean s) (Some v) (rs_std s) (rs_min s) (rs_max s) s)
  else Ret s.

Fixpoint set_fields (pooled : bool) (s : RunningStats F) (l : list (string * F)) : outcome (RunningStats F) :=
  match l with
  | [] => Ret s
  | (kind, v) :: l' => try* s' := set_field pooled s kind v in set_fields pooled s' l'
  end.

(** [stats_dict]: the last row of a kind wins. *)
Definition stats_dict (l : list (string * F)) : list (string * F) :=
  foldl (λ d '(k, v), assoc_set k v d) [] l.

Definition is_old_pod (name : string) : bool :=
  match pod_feature_type_of name with Some _ => true | None => false end.

Definition is_pooled (name : string) : bool :=
  negb (String.prefix "pod_" name) && existsb (λ kw, py_contains kw name) pod_keywords.

Definition is_plain (name : string) : bool := negb (is_old_pod name) && negb (is_pooled name).

(** The features of a kind, each with its statistics. The closing log line of a
    pooled feature reads its mean and deviation. *)
Fixpoint load_features (pooled : bool) (rows : list (csv_row F)) (names : list string)
    (d : list (string * RunningStats F)) : outcome (list (string * RunningStats F)) :=
  match names with
  | [] => Ret d
  | name :: names' =>
    let cells := feature_rows name rows in
    try* s := set_fields pooled (new_RunningStats name) (if pooled then stats_dict cells else cells) in
    if pooled && negb (bool_decide (is_Some (rs_mean s) ∧ is_Some (rs_std s))) then Raise TypeError
    else load_features pooled rows names' (assoc_set name s d)
  end.

(** Statistics of the single pods of a feature type, gathered column by column;
    a missing kind ends the pod after the columns before it. *)
Record pod_lists := mkPodLists {
  p_counts : list F; p_means : list F; p_stds : list F; p_mins : list F; p_maxs : list F; p_ssds : list F
}.

Definition gather_pod (acc : pod_lists) (d : list (string * F)) : pod_lists :=
  let zero_if_empty k := match assoc k d with Some v => if nisnan v then lit 0 else v | None => lit 0 end in
  match assoc "count" d with
  | None => acc
  | Some c =>
    let acc := mkPodLists (p_counts acc ++ [c]) (p_means acc) (p_stds acc) (p_mins acc) (p_maxs acc) (p_ssds acc) in
    match assoc "mean" d with
    | None => acc
    | Some m =>
      let acc := mkPodLists (p_counts acc) (p_means acc ++ [m]) (p_stds acc) (p_mins acc) (p_maxs acc) (p_ssds acc) in
      match assoc "std" d with
      | None => acc
      | Some sd =>
        let acc := mkPodLists (p_counts acc) (p_means acc) (p_stds acc ++ [sd])
                     (p_mins acc ++ [zero_if_empty "min"%string]) (p_maxs acc ++ [zero_if_empty "max"%string])
                     (p_ssds acc) in
        match assoc "sum_sq_diff" d with
        | None => acc
        | Some q => mkPodLists (p_counts acc) (p_means acc) (p_stds acc) (p_mins acc) (p_maxs acc) (p_ssds acc ++ [q])
        end
      end
    end
  end.

(** The pooled statistics of the old format: plain means over the pods. *)
Definition pool_old_format (t : string) (acc : pod_lists) : outcome (option (RunningStats F)) :=
  match p_counts acc with
  | [] => Ret None
  | _ =>
    try* n := int_cell (np_mean (p_counts acc)) in
    match p_mins acc, p_maxs acc with
    | [], _ | _, [] => Raise ValueError
    | _, _ =>
      Ret (Some (mkRS n (Some (np_mean (p_means acc))) (Some (np_mean (p_ssds acc))) (Some (np_mean (p_stds acc)))
                   (Some (np_min (p_mins acc))) (Some (np_max (p_maxs acc))) t))
    end
  end.

Fixpoint load_old_format (rows : list (csv_row F)) (names types : list string)
    (d : list (string * RunningStats F)) : outcome (list (string * RunningStats F)) :=
  match types with
  | [] => Ret d
  | t :: types' =>
    let pods := List.filter (λ name, bool_decide (pod_feature_type_of name = Some t)) names in
    let acc := foldl (λ acc name, gather_pod acc (stats_dict (feature_rows name rows)))
                 (mkPodLists [] [] [] [] [] []) pods in
    try* o := pool_old_format t acc in
    load_old_format rows names types' (match o with Some s => assoc_set t s d | None => d end)
  end.

(** Any exception makes the result [None]. *)
Definition load_from_csv (rows : list (csv_row F)) : option (FeatureStats F) :=
  let names := unique_names rows in
  let pooled := List.filter is_pooled names in
  let old := List.filter is_old_pod names in
  let loaded :=
    try* d := load_features false rows (List.filter is_plain names) [] in
    match pooled with
    | [] => load_old_format rows old (foldl add_type [] (omap pod_feature_type_of old)) d
    | _ => load_features true rows pooled d
    end in
  match loaded with
  | Ret d => Some (mkFeatureStats d (list_to_set d.*1) (py_len d) (py_len d))
  | _ => None
  end.

(** ** Normalizing a training frame *)

Definition use_stats (fs : FeatureStats F) : M (nstate F) unit :=
  modify (λ st, mkNState (n_caches st) fs (n_df st)).

(** Step 6.6: mean 0 and deviation [practical_max], marked as seen once. *)
Definition fixed_stats (name : string) (practical_max : F) : RunningStats F :=
  mkRS 1 (Some (lit 0)) (Some (lit 0)) (Some practical_max) (Some (lit 0)) (Some practical_max) name.

Definition override_one (fs : FeatureStats F) (b : string * F) : FeatureStats F :=
  mkFeatureStats (assoc_set b.1 (fixed_stats b.1 b.2) (feature_stats fs)) ({[ b.1 ]} ∪ features_normalized fs)
    (num_features_normalized fs) (total_features fs).

Definition override_fixed_range (bounds : list (string * F)) (fs : FeatureStats F) : FeatureStats F :=
  let fs' := foldl override_one fs bounds in
  mkFeatureStats (feature_stats fs') (features_normalized fs') (Z.of_nat (size (features_normalized fs')))
    (total_features fs').

(** Steps 5 to 7 on the frame with its reward columns; [loaded] is the content of
    the statistics file when there is one. *)
Definition fit_and_normalize (no_normalize_features : list string) (loaded : option (FeatureStats F))
    (fixed_range_bounds : option (list (string * F))) : M (nstate F) unit :=
  let* columns := gets (λ st, f_columns (n_df st)) in
  let* r := with_caches (get_normalizable_features columns no_normalize_features) in
  let '(normalizable_features, _, pod_feature_types) := r in
  use_stats (default (new_FeatureStats normalizable_features) loaded) ;;
  match pod_feature_types with [] => ret tt | _ => compute_pooled_pod_statistics pod_feature_types true false end ;;
  match fixed_range_bounds with
  | None => normalize_loop normalizable_features pod_feature_types true
  | Some bounds =>
    modify (λ st, mkNState (n_caches st) (override_fixed_range bounds (n_stats st)) (n_df st)) ;;
    normalize_loop normalizable_features pod_feature_types false
  end.

(** ** Lemmas: what a written feature reads back as *)

Definition trained (s : RunningStats F) : Prop :=
  0 ≤ rs_count s ∧ is_Some (rs_mean s) ∧ is_Some (rs_sum_sq_diff s) ∧ is_Some (rs_std s) ∧
  is_Some (rs_min s) ∧ is_Some (rs_max s).

(** The statistics with every number through the file once. *)
Definition reloaded (name : string) (s : RunningStats F) : RunningStats F :=
  mkRS (rs_count s) (csv_float <$> rs_mean s) (csv_float <$> rs_sum_sq_diff s) (csv_float <$> rs_std s)
    (bound_cell (is_pooled name) ∘ csv_float <$> rs_min s) (bound_cell (is_pooled name) ∘ csv_float <$> rs_max s) name.

Definition written_name (name : string) : bool := negb (truthy (pod_feature_type_of name)).

(** The file keeps counts. *)
Definition counts_kept : Prop :=
  ∀ z, 0 ≤ z → nisnan (csv_float (lit z)) = false ∧ py_int (csv_float (lit z)) = z.

Definition file_rows (name : string) (s : RunningStats F) : list (string * F) :=
  (λ r, (r.1.2, csv_float r.2)) <$> rows_of_stats name s.

Lemma set_file_rows pooled name s :
  counts_kept → trained s → pooled = is_pooled name →
  set_fields pooled (new_RunningStats name) (if pooled then stats_dict (file_rows name s) else file_rows name s) =
    Ret (reloaded name s).
Proof.
  intros Hcount. destruct s as [c om oq od olo ohi nm]. unfold trained.
  cbn [rs_count rs_mean rs_sum_sq_diff rs_std rs_min rs_max].
  intros (Hc & [m ->] & [q ->] & [d ->] & [lo ->] & [hi ->]) ->. pose proof (Hcount c Hc) as [Hn Hi].
  unfold reloaded. generalize (is_pooled name). intros b.
  destruct b; simpl; unfold set_field, int_cell; simpl; rewrite Hn; simpl; by rewrite Hi.
Qed.

(** Reading the features of a list of names. *)
Lemma load_features_spec pooled rows names d (g : string → RunningStats F) :
  (∀ name, name ∈ names →
     set_fields pooled (new_RunningStats name)
       (if pooled then stats_dict (feature_rows name rows) else feature_rows name rows) = Ret (g name) ∧
     is_Some (rs_mean (g name)) ∧ is_Some (rs_std (g name))) →
  ∃ d', load_features pooled rows names d = Ret d' ∧
    ∀ name, assoc name d' = if decide (name ∈ names) then Some (g name) else assoc name d.
Proof.
  revert d. induction names as [|n names IH]; intros d Hg; simpl; [by exists d|].
  destruct (Hg n ltac:(left)) as (E & Hm & Hs). rewrite E. simpl.
  rewrite bool_decide_eq_true_2, andb_false_r by done.
  destruct (IH (assoc_set n (g n) d)) as (d' & E' & Hd'); [intros; apply Hg; by right|].
  exists d'. split; [done|]. intros name. rewrite Hd'. clear Hg IH Hd' E E'.
  destruct (decide (name = n)) as [->|Hne].
  - rewrite assoc_set_eq, (decide_True (P := n ∈ n :: names)) by left. by case_decide.
  - rewrite assoc_set_ne by done. rewrite (decide_ext (name ∈ n :: names) (name ∈ names)); [done|].
    rewrite elem_of_cons. naive_solver.
Qed.

(** The rows of one entry of the dictionary. *)
Definition entry_rows (e : string * RunningStats F) : list (csv_row F) :=
  if written_name e.1 then rows_of_stats e.1 e.2 else [].

Lemma write_entries fs : write_stats_to_file fs = concat (entry_rows <$> feature_stats fs).
Proof.
  unfold write_stats_to_file. f_equal. apply list_fmap_ext. intros i [name s] _. unfold entry_rows, written_name. simpl.
  by destruct (truthy (pod_feature_type_of name)).
Qed.

Lemma feature_rows_app name r1 r2 : feature_rows name (r1 ++ r2) = feature_rows name r1 ++ feature_rows name r2.
Proof. unfold feature_rows. by rewrite List.filter_app, fmap_app. Qed.

Lemma feature_rows_entry name e :
  feature_rows name (through_file (entry_rows e)) =
    if decide (e.1 = name ∧ written_name name = true) then file_rows name e.2 else [].
Proof.
  destruct e as [n s]. unfold entry_rows. cbn [fst snd]. destruct (decide (n = name)) as [->|Hne].
  - destruct (written_name name); [|by rewrite decide_False by naive_solver].
    rewrite decide_True by done. unfold feature_rows, through_file, rows_of_stats. csimpl.
    by rewrite bool_decide_eq_true_2.
  - rewrite decide_False by naive_solver. destruct (written_name n); [|done].
    unfold feature_rows, through_file, rows_of_stats. csimpl. by rewrite bool_decide_eq_false_2.
Qed.

Lemma through_file_app r1 r2 : through_file (r1 ++ r2) = through_file r1 ++ through_file r2.
Proof. apply fmap_app. Qed.

Lemma feature_rows_other name (l : list (string * RunningStats F)) :
  name ∉ l.*1 → feature_rows name (through_file (concat (entry_rows <$> l))) = [].
Proof.
  induction l as [|e l IH]; csimpl; [done|]. intros [Hn Hl]%not_elem_of_cons.
  rewrite through_file_app, feature_rows_app, feature_rows_entry, decide_False by naive_solver. by apply IH.
Qed.

Lemma feature_rows_written name s (l : list (string * RunningStats F)) :
  NoDup l.*1 → assoc name l = Some s → written_name name = true →
  feature_rows name (through_file (concat (entry_rows <$> l))) = file_rows name s.
Proof.
  induction l as [|[n s'] l IH]; csimpl; [done|]. intros [Hn Hl]%NoDup_cons Hs Hw.
  rewrite through_file_app, feature_rows_app, feature_rows_entry. cbn [fst snd]. case_decide as Hd.
  - subst n. injection Hs as ->. rewrite decide_True by done. by rewrite feature_rows_other, app_nil_r.
  - rewrite decide_False by naive_solver. by apply IH.
Qed.

Lemma names_through_file rows : (through_file rows).*1.*1 = rows.*1.*1.
Proof. induction rows as [|[[n k] v] rows IH]; csimpl; [done|]. by f_equal. Qed.

Lemma names_written name (l : list (string * RunningStats F)) :
  name ∈ (concat (entry_rows <$> l)).*1.*1 ↔ name ∈ l.*1 ∧ written_name name = true.
Proof.
  induction l as [|[n s] l IH]; csimpl; [set_solver|].
  rewrite !fmap_app, elem_of_app, IH, elem_of_cons. unfold entry_rows. cbn [fst snd].
  destruct (written_name n) eqn:Hw; csimpl; rewrite ?elem_of_cons, elem_of_nil.
  - split; [|tauto]. intros Hor. repeat destruct Hor as [Hor|Hor]; subst; tauto.
  - split; [tauto|]. intros [[->|Hl] Hw']; [congruence|tauto].
Qed.

Lemma elem_of_unique_names name (l : list (string * RunningStats F)) :
  name ∈ unique_names (through_file (concat (entry_rows <$> l))) ↔ name ∈ l.*1 ∧ written_name name = true.
Proof.
  unfold unique_names. rewrite (proj2 (add_types_spec _ _ name)), names_through_file, names_written, elem_of_nil.
  tauto.
Qed.

(** The features of one kind, read from a written file. *)
Lemma load_written pooled (l : list (string * RunningStats F)) (test : string → bool) d :
  counts_kept → NoDup l.*1 → Forall (λ e, trained e.2) l →
  (∀ name, test name = true → pooled = is_pooled name) →
  let rows := through_file (concat (entry_rows <$> l)) in
  let names := List.filter test (unique_names rows) in
  ∃ d', load_features pooled rows names d = Ret d' ∧
    ∀ name, assoc name d' = if decide (name ∈ names)
                            then reloaded name <$> assoc name l else assoc name d.
Proof.
  intros Hcount Hn Htr Htest rows names.
  assert (Hs : ∀ name, name ∈ names → ∃ s, assoc name l = Some s ∧ trained s ∧ written_name name = true ∧
                                       pooled = is_pooled name).
  { intros name [Ht [Hl Hw]%elem_of_unique_names]%elem_of_filter_b. destruct (assoc_Some name l Hl) as [s Hs].
    exists s. split_and!; [done| |done|by apply Htest]. rewrite Forall_forall in Htr.
    apply (Htr (name, s)). by apply assoc_elem. }
  destruct (load_features_spec pooled rows names d
    (λ name, match assoc name l with Some s => reloaded name s | None => new_RunningStats name end)) as (d' & E & Hd').
  - intros name Hin. destruct (Hs name Hin) as (s & Es & Ht & Hw & Hp). rewrite Es. unfold rows.
    rewrite (feature_rows_written name s) by done. rewrite set_file_rows by done. split; [done|].
    destruct Ht as (_ & Hm & _ & Hsd & _). unfold reloaded. cbn [rs_mean rs_std]. by rewrite !fmap_is_Some.
  - exists d'. split; [done|]. intros name. rewrite Hd'. case_decide as Hin; [|done].
    destruct (Hs name Hin) as (s & -> & _). done.
Qed.

(** ** Lemmas: pooled statistics and fixed ranges *)

(** Same frame, valid caches. *)
Definition frame_kept (st st' : nstate F) : Prop := n_df st' = n_df st ∧ caches_ok (n_caches st').

(** Statistics that an update can start from. *)
Definition updatable (s : RunningStats F) : Prop :=
  rs_count s = 0 ∨ is_Some (rs_mean s) ∧ is_Some (rs_sum_sq_diff s).

Lemma update_updatable values s :
  updatable s → values ≠ [] →
  ∃ s', update_stats_incrementally values s = (Ret tt, s') ∧
    is_Some (rs_mean s') ∧ is_Some (rs_sum_sq_diff s') ∧ is_Some (rs_std s') ∧
    is_Some (rs_min s') ∧ is_Some (rs_max s').
Proof.
  intros Hs Hv. destruct values as [|v values]; [done|]. unfold update_stats_incrementally, merge_range, need.
  unfold bind, get. destruct (Z.eqb_spec (rs_count s) 0) as [Hz|Hz].
  - simpl. destruct (rs_min s), (rs_max s); eexists; (split; [reflexivity|]); split_and!; by eexists.
  - destruct Hs as [|[[m Hm] [q Hq]]]; [done|]. rewrite Hm, Hq. simpl.
    destruct (rs_min s), (rs_max s); eexists; (split; [reflexivity|]); split_and!; by eexists.
Qed.

Lemma pool_values_ok (cols : list string) (st : nstate F) :
  (∀ c, c ∈ cols → is_Some (f_data (n_df st) !! c)) →
  ∃ vs, pool_values cols st = (Ret vs, st) ∧
    (∀ (c : string) (v : list F), c ∈ cols → f_data (n_df st) !! c = Some v → v ≠ [] → vs ≠ []).
Proof.
  induction cols as [|c cols IH]; intros Hc; [exists []; split; [done|]; by intros ?? ?%not_elem_of_nil|].
  destruct IH as (vs & E & Hvs); [intros; apply Hc; by right|]. destruct (Hc c ltac:(left)) as [v Hv].
  exists (v ++ vs). simpl. unfold column. py_unfold. rewrite Hv, E. split; [done|].
  intros c' v' [->|Hin]%elem_of_cons Hv' Hne; [rewrite Hv in Hv'; injection Hv' as ->; by destruct v'|].
  specialize (Hvs c' v' Hin Hv' Hne). destruct v; [done|discriminate].
Qed.

Definition stats_updatable (fs : FeatureStats F) : Prop :=
  ∀ k s, assoc k (feature_stats fs) = Some s → updatable s.

Lemma assoc_set_updatable k s fs :
  stats_updatable fs → updatable s →
  ∀ k' s', assoc k' (assoc_set k s (feature_stats fs)) = Some s' → updatable s'.
Proof.
  intros Hfs Hs k' s'. destruct (decide (k = k')) as [->|Hne].
  - rewrite assoc_set_eq. by intros [= <-].
  - rewrite assoc_set_ne by done. apply Hfs.
Qed.

(** Every column of the frame has a value. *)
Definition rows_there (st : nstate F) : Prop := ∀ c v, f_data (n_df st) !! c = Some v → v ≠ [].

Lemma on_stats_update t s values st :
  stats_updatable (n_stats st) → assoc t (feature_stats (n_stats st)) = Some s → values ≠ [] →
  ∃ st' s', on_stats t (update_stats_incrementally values) st = (Ret tt, st') ∧
    n_df st' = n_df st ∧ n_caches st' = n_caches st ∧ stats_updatable (n_stats st') ∧
    assoc t (feature_stats (n_stats st')) = Some s' ∧
    is_Some (rs_mean s') ∧ is_Some (rs_std s') ∧ is_Some (rs_min s') ∧ is_Some (rs_max s').
Proof.
  intros Hup Hs Hv. destruct (update_updatable values s (Hup t s Hs) Hv) as (s' & E & Hm & Hq & Hd & Hlo & Hhi).
  unfold on_stats, stats_of, set_stats_of. py_unfold. rewrite Hs. simpl. rewrite E. eexists _, s'.
  split; [done|]. simpl. split_and!; [done|done| |apply assoc_set_eq|done..].
  exact (assoc_set_updatable t s' (n_stats st) Hup (or_intror (conj Hm Hq))).
Qed.

Lemma pool_feature_type_ok t st :
  nstate_ok st → rows_there st → stats_updatable (n_stats st) →
  ∃ st', pool_feature_type true false t st = (Ret tt, st') ∧ frame_kept st st' ∧ stats_updatable (n_stats st').
Proof.
  intros (Hc & Hn & Hdom) Hrows Hup. unfold pool_feature_type, with_caches.
  destruct (matching_ok (f_columns (n_df st)) t (n_caches st) Hc Hn) as (ms & c1 & E & Hc1 & Hp).
  unfold bind at 1 2, zoom, gets. rewrite E. set (st1 := mkNState c1 (n_stats st) (n_df st)).
  destruct ms as [|c0 ms]; [by exists st1|].
  assert (Hms : ∀ c, c ∈ c0 :: ms → is_Some (f_data (n_df st1) !! c)).
  { intros c. rewrite Hp. intros [_ Hcol]%elem_of_matching. by apply Hdom. }
  destruct (pool_values_ok (c0 :: ms) st1 Hms) as (vs & Evs & Hvs).
  destruct (Hms c0 ltac:(left)) as [v0 Hv0].
  assert (Hne : vs ≠ []) by (eapply Hvs; [left|exact Hv0|by eapply Hrows]).
  unfold bind at 1. rewrite Evs. clear Evs Hvs.
  destruct (assoc t (feature_stats (n_stats st))) as [s|] eqn:Hs.
  - destruct (on_stats_update t s vs st1 Hup Hs Hne) as (st' & s' & E' & Hd' & Hc' & Hup' & Hs' & [? Hm] & [? Hsd] & [? Hlo] & [? Hhi]).
    exists st'. unfold bind, stats_of, gets, need_value. simpl. rewrite Hs, E'. unfold bind. rewrite Hs'. simpl.
    rewrite Hm, Hsd, Hlo, Hhi. split; [done|]. split; [|done]. split; [done|by rewrite Hc'].
  - set (st2 := mkNState c1 (mkFeatureStats (assoc_set t (new_RunningStats t) (feature_stats (n_stats st)))
                  (features_normalized (n_stats st)) (num_features_normalized (n_stats st)) (total_features (n_stats st)))
                  (n_df st)).
    assert (Hup2 : stats_updatable (n_stats st2)) by exact (assoc_set_updatable t (new_RunningStats t) (n_stats st) Hup (or_introl eq_refl)).
    destruct (on_stats_update t (new_RunningStats t) vs st2 Hup2) as (st' & s' & E' & Hd' & Hc' & Hup' & Hs' & [? Hm] & [? Hsd] & [? Hlo] & [? Hhi]);
      [apply assoc_set_eq|done|].
    exists st'. unfold bind, stats_of, gets, need_value. simpl. rewrite Hs. unfold set_stats_of, modify. simpl.
    fold st2. rewrite E'. unfold bind. rewrite Hs'. simpl. rewrite Hm, Hsd, Hlo, Hhi.
    split; [done|]. split; [|done]. split; [done|by rewrite Hc'].
Qed.

Lemma pooled_ok types st :
  nstate_ok st → rows_there st → stats_updatable (n_stats st) →
  ∃ st', compute_pooled_pod_statistics types true false st = (Ret tt, st') ∧ frame_kept st st'.
Proof.
  unfold compute_pooled_pod_statistics. revert st.
  induction types as [|t types IH]; intros st Hok Hrows Hup; [exists st; split; [done|]; split; [done|apply Hok]|].
  destruct (pool_feature_type_ok t st Hok Hrows Hup) as (st1 & E1 & [Hd1 Hc1] & Hup1).
  destruct (IH st1) as (st2 & E2 & [Hd2 Hc2]); [|unfold rows_there; by rewrite Hd1|done|].
  { destruct Hok as (_ & Hn & Hdom). split_and!; [done|by rewrite Hd1|by rewrite Hd1]. }
  exists st2. simpl. unfold bind. rewrite E1, E2. split; [done|]. split; [congruence|done].
Qed.

Lemma new_stats_updatable features : stats_updatable (new_FeatureStats features).
Proof.
  assert (H : ∀ (d : list (string * RunningStats F)) k s,
    (∀ k s, assoc k d = Some s → updatable s) →
    assoc k (foldl (λ d f, match assoc f d with Some _ => d | None => assoc_set f (new_RunningStats f) d end) d features) = Some s →
    updatable s).
  { induction features as [|f features IH]; simpl; [eauto|]. intros d k s Hd. apply IH. intros k' s'.
    destruct (assoc f d); [apply Hd|]. destruct (decide (f = k')) as [->|Hne].
    - rewrite assoc_set_eq. intros [= <-]. by left.
    - rewrite assoc_set_ne by done. apply Hd. }
  intros k s. unfold new_FeatureStats. destruct features; [done|]. apply H. done.
Qed.

(** The overridden statistics of a name with a bound. *)
Lemma override_assoc bounds fs name mx :
  NoDup bounds.*1 → assoc name bounds = Some mx →
  assoc name (feature_stats (override_fixed_range bounds fs)) = Some (fixed_stats name mx).
Proof.
  unfold override_fixed_range. cbn [feature_stats]. intros Hn. revert fs.
  assert (Hother : ∀ fs bs, name ∉ bs.*1 → assoc name (feature_stats (foldl override_one fs bs)) = assoc name (feature_stats fs)).
  { intros fs bs. revert fs. induction bs as [|[k v] bs IH]; intros fs; csimpl; [done|].
    intros [Hk Hbs]%not_elem_of_cons. rewrite IH by done. simpl. by apply assoc_set_ne. }
  induction bounds as [|[k v] bounds IH]; intros fs; csimpl; [done|]. csimpl in Hn.
  apply NoDup_cons in Hn as [Hk Hn]. case_decide as Hd; [|by apply IH].
  intros [= ->]. subst k. rewrite Hother by done. apply assoc_set_eq.
Qed.

(** The [try] of the loop changes nothing when nothing is raised. *)
Lemma normalize_loop_ret features types st st' :
  for_each features (normalize_feature types false) st = (Ret tt, st') →
  normalize_loop features types false st = (Ret tt, st').
Proof.
  unfold normalize_loop. revert st. induction features as [|f features IH]; intros st; simpl; [done|].
  unfold bind. destruct (normalize_feature types false f st) as [[[]|e|] st1] eqn:E; [|done..]. apply IH.
Qed.

End file.

(** ** Lemmas: fixed ranges, exactly *)

Lemma fixed_usable name mx : (1 # 100000000 < mx)%Q → usable (fixed_stats name mx).
Proof.
  intros H. split; [done|]. exists (lit 0), mx. split_and!; [done..|].
  rewrite np_isclose0_Q by (cbn; lra). unfold is_zero. simpl. destruct (Qle_bool_spec mx 0); [lra|done].
Qed.

Lemma fixed_divides name mx values :
  (1 # 100000000 < mx)%Q → Forall2 (λ x y, y == x / mx)%Q values (norm_by (fixed_stats name mx) values).
Proof.
  intros H. unfold norm_by, fixed_stats. cbn [rs_mean rs_std]. rewrite np_isclose0_Q by (cbn; lra).
  induction values as [|x values IH]; csimpl; constructor; [|done]. simpl. unfold lit. simpl. field. lra.
Qed.

(** ** Properties *)

(** Statistics survive their file. Written and loaded again, every feature
    that is not a column of a single pod has its count back and its mean,
    deviation, squared differences and range as pandas reads the numbers it
    wrote; the columns of single pods are left out. *)
Theorem stats_file_roundtrip (F : Type) (NF : Num F) (NP : Numpy F) (csv_float : F → F) (py_int : F → Z)
    (nan : F) (fs : FeatureStats F) :
  counts_kept csv_float py_int →
  NoDup (feature_stats fs).*1 → Forall (λ e, trained e.2) (feature_stats fs) →
  (∀ name, name ∈ (feature_stats fs).*1 → pod_feature_type_of name ≠ Some ""%string) →
  ∃ fs', load_from_csv py_int (through_file csv_float (write_stats_to_file nan fs)) = Some fs' ∧
    ∀ name, assoc name (feature_stats fs') =
      if truthy (pod_feature_type_of name) then None
      else reloaded csv_float name <$> assoc name (feature_stats fs).
Proof.
  intros Hcount Hn Htr Hold. rewrite write_entries. set (l := feature_stats fs) in *.
  set (rows := through_file csv_float (concat (entry_rows nan <$> l))).
  destruct (load_written csv_float py_int nan false l is_plain [] Hcount) as (d1 & E1 & H1); [done..| |].
  { intros name [_ Hp]%andb_true_iff. by destruct (is_pooled name). }
  destruct (load_written csv_float py_int nan true l is_pooled d1 Hcount) as (d2 & E2 & H2); [done..|].
  fold rows in E1, H1, E2, H2.
  assert (Hnold : List.filter is_old_pod (unique_names rows) = []).
  { apply elem_of_nil_inv. intros name [Ho Hin]%elem_of_filter_b.
    unfold rows in Hin. rewrite (elem_of_unique_names csv_float py_int nan) in Hin. destruct Hin as [Hl Hw].
    specialize (Hold name Hl). unfold is_old_pod, written_name in *.
    destruct (pod_feature_type_of name) as [[|c t]|]; [congruence|discriminate Hw|discriminate Ho]. }
  assert (Hload : load_from_csv py_int rows = Some (mkFeatureStats d2 (list_to_set d2.*1) (py_len d2) (py_len d2))).
  { unfold load_from_csv. rewrite E1. cbn [obind]. rewrite Hnold.
    destruct (List.filter is_pooled (unique_names rows)) eqn:Ep; [|by rewrite E2].
    cbn in E2. injection E2 as ->. done. }
  eexists. split; [exact Hload|]. intros name. cbn [feature_stats]. rewrite H2, H1.
  assert (Hin : ∀ test, name ∈ List.filter test (unique_names rows) ↔
                        test name = true ∧ name ∈ l.*1 ∧ written_name name = true).
  { intros test. rewrite elem_of_filter_b. unfold rows. by rewrite (elem_of_unique_names csv_float py_int nan). }
  unfold written_name in Hin.
  destruct (truthy (pod_feature_type_of name)) eqn:Ht; [rewrite !decide_False by (rewrite Hin; by intros (_ & _ & ?)); done|].
  destruct (decide (name ∈ l.*1)) as [Hl|Hl].
  - destruct (is_pooled name) eqn:Ep; [by rewrite decide_True by by rewrite Hin|].
    rewrite decide_False by (rewrite Hin, Ep; by intros (? & _)). rewrite decide_True; [done|].
    rewrite Hin. split_and!; [|done..]. unfold is_plain. rewrite Ep, andb_true_r.
    specialize (Hold name Hl). unfold is_old_pod. by destruct (pod_feature_type_of name) as [[|]|].
  - rewrite !decide_False by (rewrite Hin; by intros (_ & ? & _)). by rewrite (assoc_None name l Hl).
Qed.

Lemma stats_file_roundtrip_witness :
  ∃ fs', @load_from_csv Q Num_Q demo_numpy Qfloor
      (through_file (λ x, x) (write_stats_to_file 0%Q demo_feature_stats)) = Some fs' ∧
    assoc "kv_hit_ratio" (feature_stats fs') = Some (demo_stats 40 4 "kv_hit_ratio").2 ∧
    assoc "input_tokens" (feature_stats fs') = Some (demo_stats 100 20 "input_tokens").2.
Proof.
  destruct (stats_file_roundtrip Q Num_Q demo_numpy (λ x, x) Qfloor 0%Q demo_feature_stats) as (fs' & E & H).
  - intros z _. split; [done|]. apply Qfloor_Z.
  - apply (bool_decide_unpack _). vm_compute. exact I.
  - repeat constructor; simpl; try done; lia.
  - apply Forall_forall, (bool_decide_unpack _). vm_compute. exact I.
  - exists fs'. split; [exact E|]. rewrite !H. split; reflexivity.
Defined.

(** Fixed-range normalization divides. When every detected feature has a
    practical maximum, the run returns whatever the pooled statistics of the data
    are, and every normalized column holds its values over the maximum of its
    feature type, the same for all pods. *)
Theorem fixed_range_divides (NP : Numpy Q) (SQ : Sqrt Q) (nn : list string) (st : nstate Q)
    (features others types : list string) (c' : caches) (bounds : list (string * Q)) :
  nstate_ok st → rows_there st →
  get_normalizable_features (f_columns (n_df st)) nn (n_caches st) = (Ret (features, others, types), c') →
  (∀ f, f ∈ base_features → f ∈ f_columns (n_df st) ∧ f ∉ types) →
  NoDup bounds.*1 → (∀ f, f ∈ features → ∃ mx, assoc f bounds = Some mx ∧ (1 # 100000000 < mx)%Q) →
  ∃ st', fit_and_normalize nn None (Some bounds) st = (Ret tt, st') ∧
    ∀ col t mx values, pod_feature_type_of col = Some t → t ∈ types → assoc t bounds = Some mx →
      f_data (n_df st) !! col = Some values →
      ∃ vs, f_data (n_df st') !! col = Some vs ∧ Forall2 (λ x y, y == x / mx)%Q values vs.
Proof.
  intros Hok Hrows E Hbase Hn Hb. pose proof Hok as (Hc & Hnd & Hdom).
  destruct (features_spec _ _ _ _ _ Hc Hnd E) as (Hc' & Hf & _). cbn [fst snd] in Hf.
  set (st1 := mkNState c' (new_FeatureStats features) (n_df st)).
  assert (Hpool : ∃ st2, match types with [] => ret tt | _ => compute_pooled_pod_statistics types true false end st1 = (Ret tt, st2)
                    ∧ frame_kept st1 st2).
  { destruct types as [|t types]; [by exists st1|]. apply pooled_ok; [by split_and!|done|apply new_stats_updatable]. }
  destruct Hpool as (st2 & E2 & Hd2 & Hc2).
  set (fs := override_fixed_range bounds (n_stats st2)). set (st3 := mkNState (n_caches st2) fs (n_df st)).
  assert (Hplan : plan_ok st3 features types).
  { refine (proj2 (plan_intro nn (mkNState (n_caches st) fs (n_df st)) features others types c' _ E Hbase _ _)).
    - by split_and!.
    - intros f Hff. destruct (Hb f Hff) as (mx & Hmx & Hpos). exists (fixed_stats f mx).
      split; [by apply override_assoc|by apply fixed_usable].
    - intros col values s _ _. apply no_nan_Q. }
  destruct (loop_normalizes st3 features types) as (st' & E' & _ & _ & _ & Hd'); [by split_and!|done|].
  exists st'. split.
  - unfold fit_and_normalize, with_caches. unfold bind at 1 2, gets, zoom. rewrite E. unfold use_stats, modify.
    unfold bind at 1. cbn [default n_caches n_df]. fold st1. unfold bind at 1. rewrite E2. unfold bind.
    rewrite Hd2. apply normalize_loop_ret, E'.
  - intros col t mx values Hcol Ht Hmx Hv. exists (norm_by (fixed_stats t mx) values).
    assert (Hcov : col ∈ cover types (f_columns (n_df st3)) t).
    { unfold cover. rewrite bool_decide_eq_true_2, elem_of_matching by done. split; [done|]. apply Hdom. eauto. }
    assert (Htf : t ∈ features) by (rewrite Hf; set_solver).
    rewrite Hd', decide_True by (apply elem_of_concat_map; exists t; eauto). cbn [n_df st3]. rewrite Hv. csimpl.
    unfold norm_column. rewrite (plan_key st3 features types t col) by done. cbn [n_stats st3]. unfold fs.
    rewrite (override_assoc bounds _ t mx) by done. split; [done|].
    destruct (Hb t Htf) as (mx' & Hmx' & Hpos). rewrite Hmx in Hmx'. injection Hmx' as <-.
    by apply fixed_divides.
Qed.

Lemma fixed_range_divides_witness :
  ∃ st', @fit_and_normalize Q Num_Q demo_numpy demo_sqrt [] None
      (Some [("input_tokens", 2000); ("output_tokens", 500); ("total_tokens", 2500); ("kv_hit_ratio", 100)]%string%Q)
      demo_nstate = (Ret tt, st') ∧
    ∃ vs, f_data (n_df st') !! "pod_0001-kv_hit_ratio"%string = Some vs ∧
      Forall2 (λ x y, y == x / 100)%Q [0; 10; 48]%Q vs.
Proof.
  destruct (fixed_range_divides demo_numpy demo_sqrt [] demo_nstate demo_features ["pod_0000-gpu_model"]%string
    ["kv_hit_ratio"]%string (get_normalizable_features (f_columns demo_frame) [] new_caches).2
    [("input_tokens", 2000); ("output_tokens", 500); ("total_tokens", 2500); ("kv_hit_ratio", 100)]%string%Q)
    as (st' & E & H).
  - apply frame_of_ok; [apply new_caches_ok|]. apply (bool_decide_unpack _). vm_compute. exact I.
  - intros c v. change (f_data (n_df demo_nstate)) with (f_data demo_frame).
    unfold demo_frame, frame_of. cbn [f_data]. intros Hv. apply elem_of_list_to_map_2 in Hv.
    revert v c Hv. cut (Forall (λ e : string * list Q, e.2 ≠ []) [("input_tokens", [120; 80; 100]); ("output_tokens", [60; 50; 40]);
      ("total_tokens", [150; 150; 150]); ("pod_0000-kv_hit_ratio", [44; 40; 36]); ("pod_0001-kv_hit_ratio", [0; 10; 48]);
      ("pod_0000-gpu_model", [1; 1; 1])]%string%Q).
    + rewrite Forall_forall. intros Hall v c Hv. exact (Hall (c, v) Hv).
    + repeat constructor; discriminate.
  - vm_compute. reflexivity.
  - apply Forall_forall, (bool_decide_unpack _). vm_compute. exact I.
  - apply (bool_decide_unpack _). vm_compute. exact I.
  - apply Forall_forall. repeat (constructor; [eexists; split; [reflexivity|reflexivity]|]). constructor.
  - exists st'. split; [exact E|].
    apply (H "pod_0001-kv_hit_ratio" "kv_hit_ratio")%string; [vm_compute; reflexivity|left|vm_compute; reflexivity..].
Defined.
