(* ===== verification/ReplayBuffer.v ===== *)
(** * Replay buffer of the online learner

    Models [python/routing_agent_service/agent_codes/replay_buffer.py]: the
    gradient features of the rows of a training round, the greedy choice of a
    diverse subset, [GradientReplayBuffer], which keeps the chosen rows for the
    next round, and [OldTransferMonitor], which keeps a frozen sample of each
    round. Numbers are exact rationals. The network, [np.linalg.norm] and the
    seeded random choice are parameters. The column summaries that
    [_log_selection_diagnostics] prints are left out, and so are the pickle
    files, whose content is an argument of the load operations. *)

From Stdlib Require Import Qabs.
From S2P Require Import Prelude Num TrainData.

Open Scope Z_scope.
Open Scope py_scope.

(** ** Gradient features *)

(** The encoded tensors of a round: per row and pod, per row, and per row the
    pod that was chosen and its reward. *)
Record tensors := mkTensors {
  pod_features : list (list (list Q));
  kv_hit_ratios : list (list (list Q));
  request_features : list (list Q);
  actions : list Z;
  rewards : list Q
}.

(** [model.extract_activations_and_predictions] *)
Abbreviation network := (list (list Q) → list (list Q) * list Q).

(** [x.gather(1, actions...)]: the entry of the chosen pod in each row. *)
Definition gather_one (row : list (list Q)) (a : Z) : outcome (list Q) :=
  if a <? 0 then Raise RuntimeError
  else match row !! Z.to_nat a with Some v => Ret v | None => Raise RuntimeError end.

Definition gather (x : list (list (list Q))) (acts : list Z) : outcome (list (list Q)) :=
  if py_len x <? py_len acts then Raise RuntimeError
  else omapM (λ '(row, a), gather_one row a) (zip x acts).

Definition Qabs_diff (a b : Q) : Q := if Qle_bool b a then (a - b)%Q else (b - a)%Q.

(** The weighted activations, and what the log lines need of the diagnostics. *)
Definition compute_gradient_features (model : network) (t : tensors) :
    outcome (list (list Q) * list (list Q)) :=
  try* selected_pod_feats := gather (pod_features t) (actions t) in
  try* selected_kv := gather (kv_hit_ratios t) (actions t) in
  if negb (length (request_features t) =? length (actions t))%nat then Raise RuntimeError
  else
    let contexts := zip_with app (zip_with app selected_pod_feats selected_kv) (request_features t) in
    let '(activations, predictions) := model contexts in
    let residuals := zip_with Qabs_diff predictions (rewards t) in
    Ret (zip_with (λ row r, (λ x, x * r)%Q <$> row) activations residuals, selected_kv).

(** ** Greedy selection *)

(** [1 - row @ last] *)
Definition cosine_dist (last row : list Q) : Q := (1 - dot row last)%Q.

(** [np.minimum] with a distance that may still be [np.inf], as [None]. *)
Definition min_inf (m : option Q) (d : Q) : option Q :=
  Some (match m with None => d | Some v => np_minimum v d end).

(** One iteration: the distances to the last pick, the pick itself marked again,
    and the farthest row. *)
Definition pick_step (normalized : list (list Q)) (selected : list nat) (min_distances : list (option Q)) :
    outcome (list nat * list (option Q)) :=
  try* k := py_index selected (-1) in
  try* row := py_index normalized (Z.of_nat k) in
  let md := zip_with min_inf min_distances (cosine_dist row <$> normalized) in
  let md := <[k := Some (-1)%Q]> md in
  try* next_idx := np_argmax ((default 0%Q) <$> md) in
  Ret (selected ++ [next_idx], md).

Fixpoint pick_loop (n : nat) (normalized : list (list Q)) (selected : list nat)
    (min_distances : list (option Q)) : outcome (list nat) :=
  match n with
  | O => Ret selected
  | S n' =>
    try* r := pick_step normalized selected min_distances in
    let '(selected', md') := r in pick_loop n' normalized selected' md'
  end.

Section selection.
Context (np_norm : list Q → Q).

Definition floor_norm (row : list Q) : Q := np_maximum (np_norm row) (1 # 100000000).

Definition normalized_row (row : list Q) : list Q := (λ x, x / floor_norm row)%Q <$> row.

Definition select_replay_samples (gradient_features : list (list Q)) (replay_size : Z) : outcome (list nat) :=
  let n := length gradient_features in
  if Z.of_nat n <=? replay_size then Ret (seq 0 n)
  else
    try* first_idx := np_argmax (floor_norm <$> gradient_features) in
    pick_loop (Z.to_nat (replay_size - 1)) (normalized_row <$> gradient_features) [first_idx]
      (<[first_idx := Some (-1)%Q]> (replicate n None)).

End selection.

(** ** The buffer *)

(** [rng.choice(n, size=size, replace=False)] of a generator with a seed. *)
Abbreviation rng_choice := (Z → Z → Z → list nat).

Record GradientReplayBuffer := mkBuffer { buffer_size : Z; selected_data : DataFrame }.

(** [source_df.iloc[indices].reset_index(drop=True)] for indices in range. *)
Definition df_iloc (indices : list nat) (d : DataFrame) : DataFrame :=
  mkDF (columns d) (omap (λ i, rows d !! i) indices).

(** The log lines of the gradient selection: the maximum over no selected row
    raises, and so does dropping the last axis when it is not of size one. *)
Definition log_gradient_diagnostics (selected_kv : list (list Q)) (valid : list nat) : outcome unit :=
  match valid with
  | [] => Raise ValueError
  | _ => if forallb (λ r, (length r =? 1)%nat) selected_kv then Ret tt else Raise ValueError
  end.

Section buffer.
Context (np_norm : list Q → Q) (choice : rng_choice).

Definition random_rows (effective_n target_size : Z) (source_df : DataFrame) : DataFrame :=
  df_iloc (choice 42 effective_n target_size) source_df.

(** The body of the [try]: the rows of the gradient selection, then the log. *)
Definition gradient_rows (model : network) (t : tensors) (target_size : Z) (source_df : DataFrame) :
    outcome DataFrame :=
  try* g := compute_gradient_features model t in
  let '(gradient_features, selected_kv) := g in
  try* indices := select_replay_samples np_norm gradient_features target_size in
  let valid := List.filter (λ i, Z.of_nat i <? df_len source_df) indices in
  try* _ := log_gradient_diagnostics selected_kv valid in
  Ret (df_iloc valid source_df).

Definition replay_update (model : option network) (t : tensors) (source_df : DataFrame)
    (b : GradientReplayBuffer) : GradientReplayBuffer :=
  let effective_n := Z.min (py_len (actions t)) (df_len source_df) in
  let target_size := Z.min (buffer_size b) effective_n in
  if target_size <=? 0 then mkBuffer (buffer_size b) empty_df
  else
    match model with
    | None => mkBuffer (buffer_size b) (random_rows effective_n target_size source_df)
    | Some m =>
      match gradient_rows m t target_size source_df with
      | Ret d => mkBuffer (buffer_size b) d
      | _ => mkBuffer (buffer_size b) (random_rows effective_n target_size source_df)
      end
    end.

End buffer.

(** ** The monitor of forgetting *)

(** A value of the tensor dictionary: a tensor with its rows, a tensor without
    dimensions, or anything else. *)
Inductive tvalue (E : Type) := Tensor (rows : list E) | Scalar0 | Other.

Arguments Tensor {E}.
Arguments Scalar0 {E}.
Arguments Other {E}.

(** Losses may be NaN, after a failed evaluation. *)
Record OldTransferMonitor (E : Type) := mkMonitor {
  samples_per_window : Z;
  validation_windows : gmap Z (list (string * tvalue E));
  evaluation_history : list (gmap Z (option Q))
}.

Arguments mkMonitor {E}.
Arguments samples_per_window {E}.
Arguments validation_windows {E}.
Arguments evaluation_history {E}.

Section monitor.
Context {E : Type} (choice : rng_choice).

(** [len(tensor_data['actions'])] *)
Definition num_actions (tensor_data : list (string * tvalue E)) : outcome Z :=
  match assoc "actions" tensor_data with
  | Some (Tensor rows) => Ret (py_len rows)
  | Some _ => Raise TypeError
  | None => Raise KeyError
  end.

Definition window_value (n : Z) (indices : list nat) (v : tvalue E) : outcome (tvalue E) :=
  match v with
  | Tensor rows => if py_len rows =? n then Ret (Tensor (omap (λ i, rows !! i) indices)) else Ret v
  | Scalar0 => Raise IndexError
  | Other => Ret v
  end.

Definition register_window (collection_round : Z) (tensor_data : list (string * tvalue E)) :
    M (OldTransferMonitor E) unit := λ m,
  match validation_windows m !! collection_round with
  | Some _ => (Ret tt, m)
  | None =>
    match num_actions tensor_data with
    | Raise e => (Raise e, m)
    | OutOfFuel => (OutOfFuel, m)
    | Ret n =>
      if n =? 0 then (Ret tt, m)
      else if Z.min (samples_per_window m) n <? 0 then (Raise ValueError, m)
      else
        let indices := choice collection_round n (Z.min (samples_per_window m) n) in
        match omapM (λ '(key, v), try* v' := window_value n indices v in Ret (key, v')) tensor_data with
        | Ret window =>
          (Ret tt, mkMonitor (samples_per_window m) (<[collection_round := window]> (validation_windows m))
                     (evaluation_history m))
        | Raise e => (Raise e, m)
        | OutOfFuel => (OutOfFuel, m)
        end
    end
  end.

(** [evaluate_loss] of the network on a window may fail. *)
Definition evaluate_all_windows (evaluate_loss : list (string * tvalue E) → outcome Q)
    (m : OldTransferMonitor E) : gmap Z (option Q) * OldTransferMonitor E :=
  let results := (λ w, match evaluate_loss w with Ret l => Some l | _ => None end) <$> validation_windows m in
  (results, mkMonitor (samples_per_window m) (validation_windows m) (evaluation_history m ++ [results])).

(** [load] of a file that [save] wrote replaces all three fields; without a file
    nothing changes. *)
Definition monitor_load (saved : option (OldTransferMonitor E)) (m : OldTransferMonitor E) : OldTransferMonitor E :=
  match saved with Some s => s | None => m end.

End monitor.

(** The same for the buffer. *)
Definition buffer_load (saved : option GradientReplayBuffer) (b : GradientReplayBuffer) : GradientReplayBuffer :=
  match saved with Some s => s | None => b end.

(** ** Lemmas: dot products *)

Open Scope Q_scope.

Lemma dot_cons x a y b : dot (x :: a) (y :: b) = x * y + dot a b.
Proof. done. Qed.

Lemma dot_self_nonneg a : 0 <= dot a a.
Proof.
  induction a as [|x a IH]; [done|]. rewrite dot_cons. assert (0 <= x * x) by nra. lra.
Qed.

Lemma dot_amgm a b : 2 * dot a b <= dot a a + dot b b.
Proof.
  revert b. induction a as [|x a IH]; intros [|y b].
  - done.
  - pose proof (dot_self_nonneg (y :: b)). change (dot [] (y :: b)) with 0. change (dot [] []) with 0. lra.
  - pose proof (dot_self_nonneg (x :: a)). change (dot (x :: a) []) with 0. change (dot [] []) with 0. lra.
  - rewrite !dot_cons. specialize (IH b). assert (H : forall z, 0 <= z * z) by (intros; nra).
    specialize (H (x - y)). assert (E : (x - y) * (x - y) == x * x + y * y - 2 * (x * y)) by ring. lra.
Qed.

Lemma dot_scaled k a : ¬ k == 0 → dot ((λ x, x / k) <$> a) ((λ x, x / k) <$> a) == dot a a / (k * k).
Proof.
  intros Hk. induction a as [|x a IH]; [vm_compute dot; by field|]. csimpl. rewrite !dot_cons, IH. by field.
Qed.

(** What the selection needs of the 2-norm: it is not negative and its square is
    at least the sum of squares. *)
Definition norm_ok (np_norm : list Q → Q) : Prop :=
  ∀ v, 0 <= np_norm v ∧ dot v v <= np_norm v * np_norm v.

Lemma normalized_unit np_norm v :
  norm_ok np_norm → dot (normalized_row np_norm v) (normalized_row np_norm v) <= 1.
Proof.
  intros Hn. destruct (Hn v) as [H0 Hv]. unfold normalized_row. pose proof (np_maximum_Q (np_norm v) (1 # 100000000)) as Hm.
  fold (floor_norm np_norm v) in Hm. pose proof (Q.le_max_l (np_norm v) (1 # 100000000)) as H1.
  pose proof (Q.le_max_r (np_norm v) (1 # 100000000)) as H2. rewrite <-Hm in H1, H2.
  set (f := floor_norm np_norm v) in *. rewrite dot_scaled by lra.
  apply Qle_shift_div_r; nra.
Qed.

Lemma cosine_dist_nonneg np_norm u v :
  norm_ok np_norm → 0 <= cosine_dist (normalized_row np_norm u) (normalized_row np_norm v).
Proof.
  intros Hn. unfold cosine_dist. pose proof (normalized_unit np_norm u Hn). pose proof (normalized_unit np_norm v Hn).
  pose proof (dot_amgm (normalized_row np_norm v) (normalized_row np_norm u)). lra.
Qed.

(** ** Lemmas: the greedy loop *)

Section greedy.
Context (rows : list (list Q)).
Hypothesis dist_nonneg : ∀ u v, u ∈ rows → v ∈ rows → 0 <= cosine_dist u v.

Definition row_at (i : nat) : list Q := default [] (rows !! i).

(** The distance of row [i] to the nearest of the picks; [None] for no picks. *)
Definition min_dist (picks : list nat) (i : nat) : option Q :=
  foldl min_inf None ((λ p, cosine_dist (row_at p) (row_at i)) <$> picks).

Lemma min_dist_snoc picks k i :
  min_dist (picks ++ [k]) i = min_inf (min_dist picks i) (cosine_dist (row_at k) (row_at i)).
Proof. unfold min_dist. by rewrite fmap_app, foldl_app. Qed.

Lemma row_at_in i : (i < length rows)%nat → row_at i ∈ rows ∧ rows !! i = Some (row_at i).
Proof.
  intros Hi. unfold row_at. destruct (lookup_lt_is_Some_2 rows i Hi) as [r Hr]. rewrite Hr. simpl.
  split; [by eapply list_elem_of_lookup_2|done].
Qed.

Lemma np_minimum_nonneg a b : 0 <= a → 0 <= b → 0 <= np_minimum a b.
Proof. intros ??. rewrite np_minimum_Q. destruct (Q.min_spec a b) as [[_ E]|[_ E]]; by rewrite E. Qed.

(** Picks of a non-empty set have a distance, not negative. *)
Lemma min_dist_nonneg picks i :
  picks ≠ [] → Forall (λ p, (p < length rows)%nat) picks → (i < length rows)%nat →
  ∃ v, min_dist picks i = Some v ∧ 0 <= v.
Proof.
  intros Hne Hp Hi. induction picks as [|k picks IH] using rev_ind; [done|].
  apply Forall_app in Hp as [Hp Hk]. inversion_clear Hk as [|?? Hk0 _]. rename Hk0 into Hk. rewrite min_dist_snoc.
  assert (Hd : 0 <= cosine_dist (row_at k) (row_at i)) by (destruct (row_at_in k Hk), (row_at_in i Hi); auto).
  destruct picks as [|p picks]; [by eexists|]. destruct IH as (v & -> & Hv); [done..|].
  eexists. split; [done|]. by apply np_minimum_nonneg.
Qed.

(** The distances at the start of an iteration: the picks before the last are
    marked, the last one may be anything. *)
Definition md_ok (before : list nat) (k : nat) (md : list (option Q)) : Prop :=
  length md = length rows ∧
  ∀ i m, md !! i = Some m → i ≠ k → m = if decide (i ∈ before) then Some (-1) else min_dist before i.

(** After the distances to the last pick have been taken into account. *)
Definition md_full (picks : list nat) (md : list (option Q)) : Prop :=
  length md = length rows ∧
  ∀ i m, md !! i = Some m → m = if decide (i ∈ picks) then Some (-1) else min_dist picks i.

Lemma md_full_step before k md :
  md_ok before k md → (k < length rows)%nat → Forall (λ p, (p < length rows)%nat) before →
  md_full (before ++ [k])
    (<[k := Some (-1)]> (zip_with min_inf md (cosine_dist (row_at k) <$> rows))).
Proof.
  intros [Hlen Hmd] Hk Hb. split; [by rewrite length_insert, length_zip_with, length_fmap, Hlen, Nat.min_id|].
  intros i m Hi. destruct (decide (i = k)) as [->|Hne].
  - rewrite list_lookup_insert_eq in Hi by by rewrite length_zip_with, length_fmap, Hlen, Nat.min_id.
    injection Hi as <-. rewrite decide_True by set_solver. done.
  - rewrite list_lookup_insert_ne in Hi by done. apply lookup_zip_with_Some in Hi as (a & d & -> & Ha & Hd).
    rewrite list_lookup_fmap in Hd. pose proof (lookup_lt_Some _ _ _ Ha) as Hlt. rewrite Hlen in Hlt.
    destruct (row_at_in i Hlt) as [Hin Hr]. rewrite Hr in Hd. injection Hd as <-.
    rewrite (Hmd i a Ha Hne). rewrite (decide_ext (i ∈ before ++ [k]) (i ∈ before)) by set_solver.
    case_decide as Hib; [|by rewrite min_dist_snoc]. unfold min_inf. do 2 f_equal.
    assert (0 <= cosine_dist (row_at k) (row_at i)) by (destruct (row_at_in k Hk); auto).
    unfold np_minimum. simpl. destruct (Qle_bool_spec (-1) (cosine_dist (row_at k) (row_at i))); [done|lra].
Qed.

(** A fresh index when there are more rows than picks. *)
Lemma fresh_index (picks : list nat) :
  (length picks < length rows)%nat → ∃ y, (y < length rows)%nat ∧ y ∉ picks.
Proof.
  intros Hlen. destruct (decide (Forall (λ y, y ∈ picks) (seq 0 (length rows)))) as [Hall|Hall].
  - exfalso. assert (length (seq 0 (length rows)) <= length picks)%nat; [|rewrite length_seq in *; lia].
    apply submseteq_length, NoDup_submseteq; [apply NoDup_seq|]. by rewrite Forall_forall in Hall.
  - apply not_Forall_Exists in Hall; [|apply _]. apply Exists_exists in Hall as (y & Hy & Hn).
    apply elem_of_seq in Hy. exists y. split; [lia|done].
Qed.

(** The farthest row is a new one. *)
Lemma farthest_fresh picks md :
  md_full picks md → picks ≠ [] → Forall (λ p, (p < length rows)%nat) picks → (length picks < length rows)%nat →
  ∃ x v, np_argmax ((default 0) <$> md) = Ret x ∧ (x < length rows)%nat ∧ (x ∉ picks) ∧
    min_dist picks x = Some v ∧
    ∀ y, (y < length rows)%nat → y ∉ picks → ∃ w, min_dist picks y = Some w ∧ w <= v.
Proof.
  intros [Hlen Hmd] Hne Hp Hlt.
  destruct (np_argmax_spec ((default 0) <$> md)) as (x & v & E & Hx & Hmax).
  { intros Hnil. apply fmap_nil_inv in Hnil. rewrite Hnil in Hlen. simpl in Hlen. lia. }
  assert (Hval : ∀ y, (y < length rows)%nat → y ∉ picks → ∃ w, min_dist picks y = Some w ∧ 0 <= w ∧ w <= v).
  { intros y Hy Hny. destruct (min_dist_nonneg picks y Hne Hp Hy) as (w & Hw & Hw0). exists w. split_and!; [done..|].
    rewrite <-Hlen in Hy. destruct (lookup_lt_is_Some_2 md y Hy) as [m Hm].
    apply (Hmax y). rewrite list_lookup_fmap, Hm. simpl. by rewrite (Hmd y m Hm), decide_False, Hw. }
  rewrite list_lookup_fmap in Hx. destruct (md !! x) as [m|] eqn:Hm; [|done]. injection Hx as Hx.
  pose proof (lookup_lt_Some _ _ _ Hm) as Hxl. rewrite Hlen in Hxl.
  destruct (fresh_index picks Hlt) as (y & Hy & Hny). destruct (Hval y Hy Hny) as (w & _ & Hw0 & Hwv).
  specialize (Hmd x m Hm). case_decide as Hxp; [exfalso; subst m; simpl in Hx; rewrite <-Hx in Hwv; lra|].
  exists x, v. split_and!; [done..| |].
  - destruct (min_dist_nonneg picks x Hne Hp Hxl) as (u & Hu & _). rewrite Hu in Hmd. subst m. simpl in Hx. by rewrite Hu, Hx.
  - intros z Hz Hnz. destruct (Hval z Hz Hnz) as (w' & ? & _ & ?). eauto.
Qed.

(** Each pick after the first is as far from the picks before it as any other
    row. *)
Definition greedy (start : nat) (sel : list nat) : Prop :=
  ∀ k x, (start ≤ k)%nat → sel !! k = Some x →
    ∃ v, min_dist (take k sel) x = Some v ∧
      ∀ y, (y < length rows)%nat → y ∉ take k sel → ∃ w, min_dist (take k sel) y = Some w ∧ w <= v.

Lemma pick_step_ok before k md :
  md_ok before k md → Forall (λ p, (p < length rows)%nat) (before ++ [k]) →
  (length (before ++ [k]) < length rows)%nat →
  ∃ x md', pick_step rows (before ++ [k]) md = Ret ((before ++ [k]) ++ [x], md') ∧
    md_ok (before ++ [k]) x md' ∧ (x < length rows)%nat ∧ (x ∉ before ++ [k]) ∧
    ∃ v, min_dist (before ++ [k]) x = Some v ∧
      ∀ y, (y < length rows)%nat → y ∉ before ++ [k] → ∃ w, min_dist (before ++ [k]) y = Some w ∧ w <= v.
Proof.
  intros Hmd Hp Hlen. pose proof Hp as [Hb Hk']%Forall_app. inversion_clear Hk' as [|?? Hk _].
  destruct (row_at_in k Hk) as [Hin Hr].
  assert (Hidx : py_index (before ++ [k]) (-1) = Ret k).
  { unfold py_index, py_norm_index, py_len. rewrite length_app. simpl.
    replace (Z.of_nat (length before + 1) + -1)%Z with (Z.of_nat (length before)) by lia.
    replace (-1 + Z.of_nat (length before + 1))%Z with (Z.of_nat (length before)) by lia.
    destruct (Z.ltb_spec (Z.of_nat (length before)) 0); [lia|]. rewrite Nat2Z.id, list_lookup_middle; done. }
  pose proof (md_full_step before k md Hmd Hk Hb) as Hfull.
  destruct (farthest_fresh (before ++ [k]) _ Hfull) as (x & v & E & Hx & Hnx & Hv & Hmax); [by destruct before|done..|].
  eexists x, _. split.
  - unfold pick_step. rewrite Hidx. cbn [obind]. rewrite (py_index_lookup rows (Z.of_nat k) (row_at k)); [|lia|by rewrite Nat2Z.id].
    cbn [obind]. rewrite E. done.
  - destruct Hfull as [Hl Hf]. split_and!; [|done|done|by exists v]. split; [done|]. intros i m Hi _. by apply Hf.
Qed.

Lemma pick_loop_ok n before k md :
  md_ok before k md → Forall (λ p, (p < length rows)%nat) (before ++ [k]) → NoDup (before ++ [k]) →
  (length (before ++ [k]) + n <= length rows)%nat →
  ∃ sel, pick_loop n rows (before ++ [k]) md = Ret sel ∧ length sel = (length (before ++ [k]) + n)%nat ∧
    NoDup sel ∧ Forall (λ p, (p < length rows)%nat) sel ∧ take (length (before ++ [k])) sel = before ++ [k] ∧
    greedy (length (before ++ [k])) sel.
Proof.
  revert before k md. induction n as [|n IH]; intros before k md Hmd Hp Hnd Hlen; simpl.
  { exists (before ++ [k]). split_and!; [done|lia|done|done|by rewrite take_ge|].
    intros j y Hj Hy. apply lookup_lt_Some in Hy. lia. }
  destruct (pick_step_ok before k md Hmd Hp) as (x & md' & E & Hmd' & Hx & Hnx & v & Hv & Hmax); [lia|].
  rewrite E. simpl. set (P := before ++ [k]) in *.
  destruct (IH P x md' Hmd') as (sel & Es & Hl & Hns & Hps & Htake & Hgs).
  - apply Forall_app. split; [done|]. by constructor.
  - apply NoDup_app. split_and!; [done|set_solver|apply NoDup_singleton].
  - rewrite length_app. simpl. lia.
  - exists sel. rewrite length_app in *. simpl in *.
    assert (HtP : take (length P) sel = P).
    { trans (take (length P) (take (length P + 1) sel)); [rewrite take_take; f_equal; lia|].
      by rewrite Htake, take_app_length. }
    split_and!; [done|lia|done..|]. intros j y Hj Hy. destruct (decide (j = length P)) as [->|Hne]; [|apply Hgs; [lia|done]].
    rewrite HtP. assert (y = x) as ->; [|by exists v].
    assert (Hyx : take (length P + 1) sel !! length P = Some y) by by rewrite lookup_take_lt by lia.
    rewrite Htake, list_lookup_middle in Hyx by done. congruence.
Qed.

End greedy.

(** ** Lemmas: the selection *)

(** What numpy documents of a choice without replacement. *)
Definition choice_ok (choice : rng_choice) : Prop :=
  ∀ seed n size, (0 ≤ size ≤ n)%Z → length (choice seed n size) = Z.to_nat size ∧
    NoDup (choice seed n size) ∧ ∀ i, i ∈ choice seed n size → (Z.of_nat i < n)%Z.

Definition demo_choice : rng_choice := λ _ _ size, seq 0 (Z.to_nat size).

Lemma demo_choice_ok : choice_ok demo_choice.
Proof.
  intros seed n size H. unfold demo_choice. rewrite length_seq. split_and!; [done|apply NoDup_seq|].
  intros i Hi%elem_of_seq. lia.
Qed.

(** The sum of absolute values bounds the 2-norm from above. *)
Definition demo_norm (v : list Q) : Q := Qsum (Qabs <$> v).

Lemma select_more_rows (np_norm : list Q → Q) (features : list (list Q)) (replay_size : Z) :
  norm_ok np_norm → (1 ≤ replay_size < py_len features)%Z →
  let normalized := normalized_row np_norm <$> features in
  ∃ sel first, select_replay_samples np_norm features replay_size = Ret sel ∧
    length sel = Z.to_nat replay_size ∧ NoDup sel ∧ Forall (λ i, (i < length features)%nat) sel ∧
    head sel = Some first ∧
    (∀ i row row1, features !! i = Some row → features !! first = Some row1 →
       floor_norm np_norm row <= floor_norm np_norm row1) ∧
    greedy normalized 1 sel.
Proof.
  intros Hn Hsize normalized. unfold py_len in Hsize.
  assert (Hlen : length normalized = length features) by apply length_fmap.
  destruct (np_argmax_spec (floor_norm np_norm <$> features)) as (k & v & E & Hk & Hmax).
  { intros Hnil%fmap_nil_inv. rewrite Hnil in Hsize. simpl in Hsize. lia. }
  rewrite list_lookup_fmap in Hk. destruct (features !! k) as [rk|] eqn:Hrk; [|done]. injection Hk as Hv.
  pose proof (lookup_lt_Some _ _ _ Hrk) as Hkl.
  destruct (pick_loop_ok normalized) with (n := Z.to_nat (replay_size - 1)) (before := @nil nat) (k := k)
    (md := <[k := Some (-1)]> (replicate (length features) (@None Q))) as (sel & Es & Hl & Hnd & Hb & Htake & Hg).
  - intros a b (ra & -> & Ha)%list_elem_of_fmap (rb & -> & Hrb)%list_elem_of_fmap. by apply cosine_dist_nonneg.
  - split; [by rewrite length_insert, length_replicate|]. intros i m Hi Hne.
    rewrite list_lookup_insert_ne in Hi by done. apply lookup_replicate in Hi as [-> _].
    by rewrite decide_False by apply not_elem_of_nil.
  - constructor; [by rewrite Hlen|constructor].
  - apply NoDup_singleton.
  - rewrite Hlen. simpl. lia.
  - exists sel, k. simpl in Hl, Htake. split_and!; [|lia|done|by rewrite <-Hlen|..].
    + unfold select_replay_samples. destruct (Z.leb_spec (Z.of_nat (length features)) replay_size); [lia|]. by rewrite E.
    + destruct sel as [|x sel]; [done|]. simpl in Htake. by injection Htake as ->.
    + intros i row row1 Hi H1. rewrite Hrk in H1. injection H1 as <-. rewrite Hv.
      apply (Hmax i). by rewrite list_lookup_fmap, Hi.
    + exact Hg.
Qed.

(** Fewer rows are all selected. *)
Lemma select_ok np_norm features size :
  norm_ok np_norm → (1 ≤ size)%Z →
  ∃ sel, select_replay_samples np_norm features size = Ret sel ∧ NoDup sel ∧
    Forall (λ i, (i < length features)%nat) sel ∧ Z.of_nat (length sel) = Z.min (py_len features) size.
Proof.
  intros Hn Hs. destruct (Z.leb_spec (py_len features) size) as [Hle|Hlt].
  - exists (seq 0 (length features)). unfold select_replay_samples. fold (py_len features).
    rewrite (proj2 (Z.leb_le _ _) Hle), length_seq. split_and!; [done|apply NoDup_seq| |unfold py_len in *; lia].
    apply Forall_forall. intros i Hi%elem_of_seq. lia.
  - destruct (select_more_rows np_norm features size Hn) as (sel & first & E & Hl & Hnd & Hb & _); [lia|].
    exists sel. split_and!; [done..|lia].
Qed.

(** ** Lemmas: the rows of the buffer *)

(** Rows picked at distinct positions of a frame. *)
Definition picked_rows (d d' : DataFrame) : Prop :=
  ∃ idx, NoDup idx ∧ Forall (λ i, (i < length (rows d))%nat) idx ∧ rows d' = omap (λ i, rows d !! i) idx.

Lemma iloc_len idx d : Forall (λ i, (i < length (rows d))%nat) idx → df_len (df_iloc idx d) = py_len idx.
Proof.
  intros Hi. unfold df_len, py_len. f_equal. simpl. induction Hi as [|i idx Hi _ IH]; csimpl; [done|].
  destruct (lookup_lt_is_Some_2 _ _ Hi) as [r ->]. csimpl. by rewrite IH.
Qed.

Lemma random_picked choice n size d :
  choice_ok choice → (0 ≤ size ≤ n)%Z → (n ≤ df_len d)%Z →
  picked_rows d (random_rows choice n size d) ∧ df_len (random_rows choice n size d) = size.
Proof.
  intros Hc Hs Hn. destruct (Hc 42%Z n size Hs) as (Hl & Hnd & Hi). unfold random_rows.
  assert (Hall : Forall (λ i, (i < length (rows d))%nat) (choice 42%Z n size)).
  { apply Forall_forall. intros i Hin. specialize (Hi i Hin). unfold df_len, py_len in Hn. lia. }
  split; [by eexists|]. rewrite iloc_len by done. unfold py_len. lia.
Qed.

(** The network answers each row of its input. *)
Definition rowwise (m : network) : Prop := ∀ l, length (m l).1 = length l ∧ length (m l).2 = length l.

Lemma gather_length x acts r : gather x acts = Ret r → length r = length acts.
Proof.
  unfold gather. destruct (Z.ltb_spec (py_len x) (py_len acts)); [done|]. intros Hr%omapM_length.
  rewrite Hr, length_zip. unfold py_len in *. lia.
Qed.

Lemma gradient_features_length m t g kv :
  rowwise m → length (rewards t) = length (actions t) →
  compute_gradient_features m t = Ret (g, kv) → length g = length (actions t).
Proof.
  intros Hm Hr. unfold compute_gradient_features.
  destruct (gather (pod_features t) (actions t)) as [pf| |] eqn:E1; [|done..].
  destruct (gather (kv_hit_ratios t) (actions t)) as [kv'| |] eqn:E2; [|done..]. simpl.
  apply gather_length in E1, E2. destruct (Nat.eqb_spec (length (request_features t)) (length (actions t))) as [E3|]; [|done].
  simpl. set (ctx := zip_with app _ _). destruct (Hm ctx) as [Ha Hp].
  assert (Hc : length ctx = length (actions t)) by (unfold ctx; rewrite !length_zip_with; lia).
  destruct (m ctx) as [act pred]. simpl in *. intros [= <- _]. rewrite !length_zip_with. lia.
Qed.

(** The gradient branch, when it does not fail. *)
Lemma gradient_picked np_norm m t size source d :
  norm_ok np_norm → (1 ≤ size)%Z → gradient_rows np_norm m t size source = Ret d →
  picked_rows source d ∧ (df_len d ≤ size)%Z ∧
  (rowwise m → length (rewards t) = length (actions t) → py_len (actions t) = df_len source →
   df_len d = Z.min (df_len source) size).
Proof.
  intros Hn Hs. unfold gradient_rows.
  destruct (compute_gradient_features m t) as [[g kv]| |] eqn:Eg; [|done..]. simpl.
  destruct (select_ok np_norm g size Hn Hs) as (sel & -> & Hnd & Hb & Hl). simpl.
  set (valid := List.filter _ sel).
  assert (Hnv : NoDup valid) by (apply NoDup_ListNoDup, List.NoDup_filter; by apply NoDup_ListNoDup).
  assert (Hv : Forall (λ i, (i < length (rows source))%nat) valid).
  { apply Forall_forall. intros i [Hi _]%elem_of_filter_b. apply Z.ltb_lt in Hi. unfold df_len, py_len in Hi. lia. }
  destruct (log_gradient_diagnostics kv valid); [|done..]. simpl. intros [= <-]. rewrite iloc_len by done.
  assert (Hlv : (length valid <= length sel)%nat) by apply List.filter_length_le.
  split_and!; [by eexists|unfold py_len in *; lia|].
  intros Hm Hr Hrows. apply (gradient_features_length m t g kv Hm Hr) in Eg. unfold df_len, py_len in *.
  assert (valid = sel) as ->; [|lia]. unfold valid. clear -Hb Eg Hrows. induction Hb as [|i l Hi _ IH]; simpl; [done|].
  destruct (Z.ltb_spec (Z.of_nat i) (Z.of_nat (length (rows source)))); [by rewrite IH|lia].
Qed.

(** ** Lemmas: windows *)

Inductive monitor_step {E} (choice : rng_choice) : OldTransferMonitor E → OldTransferMonitor E → Prop :=
| step_register r data m : monitor_step choice m (register_window choice r data m).2
| step_evaluate ev m : monitor_step choice m (evaluate_all_windows ev m).2.

Lemma windows_kept {E} choice (m m' : OldTransferMonitor E) r w :
  rtc (monitor_step choice) m m' → validation_windows m !! r = Some w → validation_windows m' !! r = Some w.
Proof.
  induction 1 as [|m1 m2 m3 Hstep _ IH]; [done|]. intros Hw. apply IH. destruct Hstep as [r' data m|ev m]; [|done].
  unfold register_window. destruct (validation_windows m !! r') eqn:Hr; [done|]. repeat (case_match; try done).
  simpl. rewrite lookup_insert_ne; [done|]. intros ->. congruence.
Qed.

Lemma window_values {E} (data : list (string * tvalue E)) n idx :
  (∀ key, (key, Scalar0) ∉ data) →
  ∃ window, omapM (λ '(key, v), try* v' := window_value n idx v in Ret (key, v')) data = Ret window ∧
    ∀ key l, (key, Tensor l) ∈ data → py_len l = n → (key, Tensor (omap (λ i, l !! i) idx)) ∈ window.
Proof.
  induction data as [|[key v] data IH]; intros Hs; [exists []; split; [done|]; by intros ?? ?%not_elem_of_nil|].
  destruct IH as (window & E' & Hw); [intros k Hk; apply (Hs k); by right|]. cbn [omapM]. rewrite E'.
  destruct v as [l| |]; simpl; [|exfalso; apply (Hs key); left|].
  - destruct (Z.eqb_spec (py_len l) n) as [Hl|Hl]; simpl; eexists; (split; [done|]); intros k l' Hin Hl'.
    + apply elem_of_cons in Hin as [[= -> ->]|Hin]; [left|right; by apply Hw].
    + apply elem_of_cons in Hin as [[= -> ->]|Hin]; [done|right; by apply Hw].
  - eexists. split; [done|]. intros k l' [[=]|Hin]%elem_of_cons Hl'. right. by apply Hw.
Qed.

(** ** Properties *)

(** C36: the replay selection is a greedy farthest-point choice. With more rows
    than places it returns, without a repetition, exactly the number of rows asked
    for: first a row of greatest norm, then each time a row that is as far from
    its nearest pick as any row not picked yet. *)
Theorem replay_selection_greedy (np_norm : list Q → Q) (features : list (list Q)) (replay_size : Z) :
  norm_ok np_norm → (1 ≤ replay_size < py_len features)%Z →
  let normalized := normalized_row np_norm <$> features in
  ∃ sel first, select_replay_samples np_norm features replay_size = Ret sel ∧
    length sel = Z.to_nat replay_size ∧ NoDup sel ∧ Forall (λ i, (i < length features)%nat) sel ∧
    head sel = Some first ∧
    (∀ i row row1, features !! i = Some row → features !! first = Some row1 →
       floor_norm np_norm row <= floor_norm np_norm row1) ∧
    greedy normalized 1 sel.
Proof. apply select_more_rows. Qed.

Lemma demo_norm_ok : norm_ok demo_norm.
Proof.
  intros v. unfold demo_norm. induction v as [|x v [IH0 IH]]; [done|]. csimpl. rewrite dot_cons.
  pose proof (Qabs_nonneg x) as Hx. assert (Hsq : x * x == Qabs x * Qabs x).
  { rewrite <-Qabs_Qmult, Qabs_pos; [done|]. nra. }
  set (a := Qabs x) in *. set (b := Qsum (Qabs <$> v)) in *. split; [lra|]. rewrite Hsq. nra.
Qed.

Lemma replay_selection_greedy_witness :
  let features := [[3; 4]; [1; 0]; [0; 2]; [6; 8]] in
  ∃ sel first, select_replay_samples demo_norm features 2 = Ret sel ∧ length sel = 2%nat ∧ NoDup sel ∧
    head sel = Some first ∧ greedy (normalized_row demo_norm <$> features) 1 sel.
Proof.
  destruct (replay_selection_greedy demo_norm [[3; 4]; [1; 0]; [0; 2]; [6; 8]] 2) as (sel & first & E & Hl & Hn & _ & Hf & _ & Hg).
  - apply demo_norm_ok.
  - vm_compute. split; congruence.
  - exists sel, first. split; [exact E|]. split; [exact Hl|]. split; [exact Hn|]. split; [exact Hf|exact Hg].
Defined.

(** The buffer after an update, whatever the network does or raises: rows
    of the source frame at distinct positions, no more than the buffer size, and,
    when the tensors match the frame row for row, exactly as many as fit. *)
Theorem replay_update_rows (np_norm : list Q → Q) (choice : rng_choice) (model : option network) (t : tensors)
    (source : DataFrame) (b : GradientReplayBuffer) :
  norm_ok np_norm → choice_ok choice → (0 ≤ buffer_size b)%Z →
  let b' := replay_update np_norm choice model t source b in
  buffer_size b' = buffer_size b ∧ picked_rows source (selected_data b') ∧
  (df_len (selected_data b') ≤ buffer_size b)%Z ∧
  ((∀ m, model = Some m → rowwise m) → length (rewards t) = length (actions t) →
   py_len (actions t) = df_len source →
   df_len (selected_data b') = Z.min (buffer_size b) (df_len source)).
Proof.
  intros Hn Hc Hb. unfold replay_update. set (n := Z.min (py_len (actions t)) (df_len source)).
  pose proof (py_len_nonneg (actions t)) as H1. pose proof (py_len_nonneg (rows source)) as H2.
  fold (df_len source) in H2. destruct (Z.leb_spec (Z.min (buffer_size b) n) 0) as [Hz|Hz].
  { split_and!; [done|exists []; split_and!; [constructor|constructor|done]|done|]. intros _ _ He. change (df_len (selected_data _)) with 0%Z. lia. }
  set (size := Z.min (buffer_size b) n) in *.
  destruct (random_picked choice n size source Hc) as [Hp Hl]; [lia|lia|].
  destruct model as [m|]; [|split_and!; [done..|simpl; lia|simpl; lia]].
  destruct (gradient_rows np_norm m t size source) as [d| |] eqn:Eg; [|split_and!; [done..|simpl; lia|simpl; lia]..].
  destruct (gradient_picked np_norm m t size source d Hn) as (Hpd & Hld & Hfull); [lia|done|].
  split_and!; [done..|simpl; lia|]. intros Hm Hr He. simpl. rewrite (Hfull (Hm m eq_refl) Hr He). lia.
Qed.

Lemma replay_update_rows_witness :
  let source := mkDF ∅ ((λ i, mkRow (Some i) ∅) <$> ["a"; "b"; "c"; "d"]%string) in
  let t := mkTensors (replicate 4 [[1]; [2]]) (replicate 4 [[0]; [1]]) [[3]; [1]; [4]; [1]] [0; 1; 1; 0]%Z [1; 0; 2; 5] in
  let m : network := λ ctx, (ctx, map Qsum ctx) in
  df_len (selected_data (replay_update demo_norm demo_choice (Some m) t source (mkBuffer 3 empty_df))) = 3%Z ∧
  picked_rows source (selected_data (replay_update demo_norm demo_choice (Some m) t source (mkBuffer 3 empty_df))).
Proof.
  intros source t m.
  destruct (replay_update_rows demo_norm demo_choice (Some m) t source (mkBuffer 3 empty_df)) as (_ & Hp & _ & Hl).
  - apply demo_norm_ok.
  - apply demo_choice_ok.
  - simpl. lia.
  - split; [|exact Hp]. apply Hl.
    + intros m' [= <-] l. split; [reflexivity|]. apply List.length_map.
    + reflexivity.
    + reflexivity.
Defined.

(** Validation windows are frozen. A window registered for a new round takes
    from every tensor with one entry per action the entries at one choice of
    [min(samples, n)] distinct positions; no later registration or evaluation
    changes it, and every evaluation reports the loss of that window, or NaN when
    the evaluation fails. *)
Theorem window_frozen (E : Type) (choice : rng_choice) (m : OldTransferMonitor E) (r n : Z)
    (data : list (string * tvalue E)) :
  choice_ok choice → (0 ≤ samples_per_window m)%Z → validation_windows m !! r = None →
  num_actions data = Ret n → (0 < n)%Z → (∀ key, (key, Scalar0) ∉ data) →
  ∃ m1 idx window, register_window choice r data m = (Ret tt, m1) ∧
    NoDup idx ∧ py_len idx = Z.min (samples_per_window m) n ∧ (∀ i, i ∈ idx → (Z.of_nat i < n)%Z) ∧
    (∀ key l, (key, Tensor l) ∈ data → py_len l = n → (key, Tensor (omap (λ i, l !! i) idx)) ∈ window) ∧
    ∀ m', rtc (monitor_step choice) m1 m' →
      validation_windows m' !! r = Some window ∧
      ∀ ev, (evaluate_all_windows ev m').1 !! r = Some (match ev window with Ret l => Some l | _ => None end).
Proof.
  intros Hc Hs Hr Hn Hpos Hscalar. set (size := Z.min (samples_per_window m) n).
  destruct (Hc r n size) as (Hl & Hnd & Hi); [unfold size; lia|].
  destruct (window_values data n (choice r n size) Hscalar) as (window & Ew & Hw).
  eexists _, (choice r n size), window. split_and!; [|done|unfold py_len; lia|done|done|].
  - unfold register_window. rewrite Hr, Hn. destruct (Z.eqb_spec n 0); [lia|]. fold size.
    destruct (Z.ltb_spec size 0); [unfold size in *; lia|]. rewrite Ew. reflexivity.
  - intros m' Hm'. assert (Hwin : validation_windows m' !! r = Some window).
    { apply (windows_kept choice _ m' r window Hm'). simpl. by rewrite lookup_insert_eq. }
    split; [done|]. intros ev. simpl. by rewrite lookup_fmap, Hwin.
Qed.

Lemma window_frozen_witness :
  let data := [("actions", Tensor [0; 1; 1; 0]%Z); ("rewards", Tensor [10; 20; 30; 40]%Z); ("pods", Other)]%string in
  ∃ m1 idx window, register_window demo_choice 5 data (mkMonitor 2 ∅ []) = (Ret tt, m1) ∧ py_len idx = 2%Z ∧
    ("rewards"%string, Tensor (omap (λ i, [10; 20; 30; 40]%Z !! i) idx)) ∈ window ∧
    validation_windows (evaluate_all_windows (λ _, Raise ValueError) m1).2 !! 5%Z = Some window.
Proof.
  intros data. destruct (window_frozen Z demo_choice (mkMonitor 2 ∅ []) 5 4 data) as (m1 & idx & window & Er & _ & Hl & _ & Hw & Hf).
  - apply demo_choice_ok.
  - simpl. lia.
  - reflexivity.
  - reflexivity.
  - lia.
  - intros key Hin. unfold data in Hin. repeat (apply elem_of_cons in Hin as [[=]|Hin]). by apply not_elem_of_nil in Hin.
  - exists m1, idx, window. split; [exact Er|]. split; [exact Hl|]. split.
    + apply Hw; [right; left|reflexivity].
    + apply (Hf (evaluate_all_windows (λ _, Raise ValueError) m1).2). apply rtc_once. constructor.
Defined.
