(* ===== verification/Inference.v ===== *)
(** * The routing decision of the inference handler

    Models what [handle_infer] of
    [python/routing_agent_service/agent_codes/routing_agent_service.py] decides
    around the model call: the out-of-distribution check of a representative
    pod, the raw features of the prefix filter, the filter that restricts the
    choice to the candidate pods of a prefix group, the mapping to a pod address,
    the tie-break among near-best pods, and the fallback codes of the response.
    The features are the single-row dictionary of the fast path, the agent's
    answer and the random pick of the tie-break are arguments. Timings and log
    lines are left out. *)

From S2P Require Import Prelude Digits Num ShiftDetector PrefixGroup.

Open Scope Z_scope.
Open Scope py_scope.

Record infer_config := mkInferConfig {
  CANDIDATE_K : Z;
  GPU_KV_SATURATION_THRESHOLD : Q;
  PREFIX_SHARING_MIN_BENEFIT_THRESHOLD : Q;
  ENABLE_FALLBACK : bool;
  LOAD_PRETRAINED_MODEL : bool;
  RETRAIN_AT_STARTUP : bool;
  fixed_range_mode : bool;            (* [NORMALIZATION_MODE == "fixed_range"] *)
  REWARD_SIMILARITY_THRESHOLD : Q;
  generalpodid_to_pod_ip : gmap pod_id string;
  group_config : pgm_config
}.

Definition ENABLE_PREFIX_FILTERING (cfg : infer_config) : bool := negb (CANDIDATE_K cfg =? 0).
Definition DYNAMIC_K (cfg : infer_config) : bool := CANDIDATE_K cfg =? -99.

(** What the agent returns: the index of its choice in the sorted pods, one
    predicted reward per pod, the reward of its choice, and whether it explored. *)
Record agent_result := mkAgentResult {
  selected_pod_index : Z;
  predicted_rewards : list Q;
  chosen_pod_predicted_reward : Q;
  explored : bool
}.

(** ** Out-of-distribution check *)

Definition pod_ood_names : list string :=
  ["decode_tokens"; "gpu_kv_cache"; "inflight_requests"; "kv_hit_ratio"; "prefill_tokens"; "running_requests";
   "waiting_requests"; "inflight_prefill_requests"; "inflight_decode_requests"].

Definition col_of (pid : pod_id) (feat : string) : string := pid +:+ ("-" +:+ feat).

(** The entries of the row that are there, under the given names. *)
Definition pick_features (row : gmap string Q) (names : list (string * string)) : dict Q :=
  omap (λ '(name, col), (λ v, (name, v)) <$> row !! col) names.

(** The first pod stands for all. *)
Definition ood_check (cfg : infer_config) (row : gmap string Q) (pods : list pod_id)
    (detector : option PerSampleOODDetector) : Z * option PerSampleOODDetector :=
  match detector with
  | None => (0, None)
  | Some d =>
    let request_ood_features := pick_features row [("input_tokens", "input_tokens")]%string in
    let pod_ood_features := match pods with
                            | [] => []
                            | p :: _ => pick_features row ((λ f, (f, col_of p f)) <$> pod_ood_names)
                            end in
    let '((_, action, _), d') := check_combined request_ood_features pod_ood_features d in
    (if ENABLE_FALLBACK cfg && match action with FALLBACK => true | _ => false end then 1 else 0, Some d')
  end.

(** ** Raw features of the filter *)

Definition hash_mark : string := "@hashOfMatchedPrefix@".

(** The number between the mark and the next [@]; [0] when there is none. *)
Definition prefix_hash_of (log_message : string) : Z :=
  match String.index 0 hash_mark log_message with
  | None => 0
  | Some i =>
    let hash_start := (i + String.length hash_mark)%nat in
    match String.index hash_start "@" log_message with
    | None => 0
    | Some hash_end => default 0 (py_int (String.substring hash_start (hash_end - hash_start) log_message))
    end
  end.

Record raw_features := mkRaw {
  gpu_kv_per_pod : list (pod_id * Q);
  kv_hit_per_pod : list (pod_id * Q);
  raw_input_tokens : Q;
  prefix_hash : Z
}.

(** [float(processed_df.get(col, 0))] *)
Definition raw_get (row : gmap string Q) (col : string) : Q := default 0%Q (row !! col).

Definition raw_features_for_filtering (cfg : infer_config) (row : gmap string Q) (pods : list pod_id)
    (log_message : string) : option raw_features :=
  if ENABLE_PREFIX_FILTERING cfg then
    let per_pod feat := foldl (λ d pid, assoc_set pid (raw_get row (col_of pid feat)) d) [] pods in
    Some (mkRaw (per_pod "gpu_kv_cache") (per_pod "kv_hit_ratio") (raw_get row "input_tokens")
            (prefix_hash_of log_message))
  else None.

(** ** The prefix filter *)

(** [l.index(x)] *)
Fixpoint list_index (x : pod_id) (l : list pod_id) : outcome Z :=
  match l with
  | [] => Raise ValueError
  | y :: l' => if decide (y = x) then Ret 0 else try* i := list_index x l' in Ret (i + 1)
  end.

(** [max(l, key=...)]: the first of the greatest. *)
Fixpoint max_by (best : Z) (best_v : Q) (l : list (Z * Q)) : Z :=
  match l with
  | [] => best
  | (i, v) :: l' => if Qle_bool v best_v then max_by best best_v l' else max_by i v l'
  end.

Definition py_max_by (key : Z → outcome Q) (l : list Z) : outcome Z :=
  try* keyed := omapM (λ i, try* v := key i in Ret (i, v)) l in
  match keyed with [] => Raise ValueError | (i, v) :: l' => Ret (max_by i v l') end.

Section decision.
Context {NP : Numpy Q} (tuple_hash : Z → Z → Z) (cfg : infer_config) (pods : list pod_id).

(** [np.mean(values) if values else 0] and [max(values) if values else 0] *)
Definition mean_or_0 (l : list Q) : Q := match l with [] => 0%Q | _ => np_mean l end.

Definition max_or_0 (l : list Q) : Q :=
  match l with [] => 0%Q | x :: l' => foldl (λ m v, if Qle_bool v m then m else v) x l' end.

(** The cluster is stressed and the prefix worth concentrating. *)
Definition filter_applies (raw : raw_features) : bool :=
  let cluster_gpu_kv := mean_or_0 (gpu_kv_per_pod raw).*2 in
  let best_kv_hit := max_or_0 (kv_hit_per_pod raw).*2 in
  let prefix_benefit := (best_kv_hit / 100 * raw_input_tokens raw)%Q in
  negb (Qle_bool cluster_gpu_kv (GPU_KV_SATURATION_THRESHOLD cfg)) &&
  negb (Qle_bool prefix_benefit (PREFIX_SHARING_MIN_BENEFIT_THRESHOLD cfg)) &&
  negb (prefix_hash raw =? 0).

(** The K of the group; in dynamic mode the request is recorded. *)
Definition k_used (raw : raw_features) : M (option PrefixGroupManager) Z := λ pgm,
  match pgm with
  | Some m =>
    if DYNAMIC_K cfg then
      let m' := record_filtered_request (group_config cfg) (prefix_hash raw) m in
      (Ret (get_k (group_config cfg) (prefix_hash raw) m'), Some m')
    else (Ret (CANDIDATE_K cfg), pgm)
  | None => (Ret (CANDIDATE_K cfg), pgm)
  end.

(** The body of the [try]: the new choice, if the filter changes it. *)
Definition filter_choice (raw : raw_features) (waiting_known : bool) (r : agent_result) :
    M (option PrefixGroupManager) (option Z) :=
  if filter_applies raw then
    let* k := k_used raw in
    let* candidates := lift (select_candidate_pods tuple_hash (prefix_hash raw) pods k) in
    if py_len pods <=? k then ret None
    else
      let* candidate_indices := lift (omapM (λ p, list_index p pods) candidates) in
      let* best_candidate_idx := lift (py_max_by (py_index (predicted_rewards r)) candidate_indices) in
      if bool_decide (selected_pod_index r ∈ candidate_indices) then ret None
      else
        let* _ := (if waiting_known then let* _ := lift (py_index pods (selected_pod_index r)) in ret tt else ret tt) in
        ret (Some best_candidate_idx)
  else ret None.

(** An exception leaves the agent's choice. *)
Definition prefix_filter (raw : option raw_features) (waiting_known : bool) (r : agent_result)
    (pgm : option PrefixGroupManager) : Z * option PrefixGroupManager :=
  match raw with
  | Some raw' =>
    if ENABLE_PREFIX_FILTERING cfg && negb (explored r) then
      match filter_choice raw' waiting_known r pgm with
      | (Ret (Some i), pgm') => (i, pgm')
      | (_, pgm') => (selected_pod_index r, pgm')
      end
    else (selected_pod_index r, pgm)
  | None => (selected_pod_index r, pgm)
  end.

(** ** Response *)

Inductive fallback_reason :=
| reward_tiebreak (picked : Z) (candidates : Z)
| model_not_trained
| retrain_at_startup_pending
| normalization_mode_mismatch_until_retrained.

(** The fields of the response that the decision sets; the others repeat the
    request, the counters and the agent's answer, or report timings. *)
Record response := mkResponse {
  selected_pod : string;
  selected_pod_generalpodid : pod_id;
  resp_predicted_reward : Q;
  ood_fallback : Z;
  reason : option fallback_reason
}.

(** The pod of an index and its address; an index or a pod that is unknown fails
    an assertion. *)
Definition pod_of_index (i : Z) : outcome (pod_id * string) :=
  if py_len pods <=? i then Raise AssertionError
  else
    try* pod := py_index pods i in
    match generalpodid_to_pod_ip cfg !! pod with
    | Some ip => Ret (pod, ip)
    | None => Raise AssertionError
    end.

(** [np.where(rewards >= threshold)] *)
Definition near_best (rewards : list Q) : list nat :=
  let best_reward := max_or_0 rewards in
  let reward_threshold := (best_reward * (1 - REWARD_SIMILARITY_THRESHOLD cfg))%Q in
  List.filter (λ i, Qle_bool reward_threshold (default 0%Q (rewards !! i))) (seq 0 (length rewards)).

(** The tie-break: with more than one near-best pod, the random pick replaces the
    choice. *)
Definition tiebreak (random_choice : list nat → nat) (rewards : list Q) (resp : response) : outcome response :=
  if (length rewards <=? 1)%nat then Ret resp
  else
    let near := near_best rewards in
    if (length near <=? 1)%nat then Ret resp
    else
      let pick := random_choice near in
      try* pod := py_index pods (Z.of_nat pick) in
      match generalpodid_to_pod_ip cfg !! pod with
      | None => Raise KeyError
      | Some ip =>
        try* v := py_index rewards (Z.of_nat pick) in
        Ret (mkResponse ip pod v 3 (Some (reward_tiebreak (Z.of_nat pick) (py_len near))))
      end.

(** Untrained models send the request to the gateway's own heuristic. *)
Definition untrained_fallback (num_trains : Z) (resp : response) : response :=
  let set r := mkResponse (selected_pod resp) (selected_pod_generalpodid resp) (resp_predicted_reward resp) 2 (Some r) in
  if negb (LOAD_PRETRAINED_MODEL cfg) && (num_trains =? 0) then set model_not_trained
  else if RETRAIN_AT_STARTUP cfg && (num_trains =? 0) then set retrain_at_startup_pending
  else if fixed_range_mode cfg && LOAD_PRETRAINED_MODEL cfg && (num_trains =? 0)
  then set normalization_mode_mismatch_until_retrained
  else resp.

(** From the agent's answer to the response. *)
Definition route_request (random_choice : list nat → nat) (num_trains use_fallback_routing : Z)
    (raw : option raw_features) (waiting_known : bool) (r : agent_result) (pgm : option PrefixGroupManager) :
    outcome response * option PrefixGroupManager :=
  let '(index, pgm') := prefix_filter raw waiting_known r pgm in
  (try* p := pod_of_index index in
   try* resp := tiebreak random_choice (predicted_rewards r)
                  (mkResponse p.2 p.1 (chosen_pod_predicted_reward r) use_fallback_routing None) in
   Ret (untrained_fallback num_trains resp), pgm').

End decision.

(** ** Lemmas: lists *)

Lemma list_index_spec x l :
  x ∈ l → ∃ i, list_index x l = Ret (Z.of_nat i) ∧ l !! i = Some x.
Proof.
  induction l as [|y l IH]; [by intros ?%not_elem_of_nil|]. intros Hx. simpl. case_decide as Hd.
  - exists 0%nat. by subst.
  - destruct IH as (i & E & Hi); [set_solver|]. rewrite E. exists (S i). simpl. split; [f_equal; lia|done].
Qed.

Lemma list_indices_spec l ps :
  (∀ p, p ∈ ps → p ∈ l) →
  ∃ idx, omapM (λ p, list_index p l) ps = Ret (Z.of_nat <$> idx) ∧ Forall2 (λ p i, l !! i = Some p) ps idx.
Proof.
  induction ps as [|p ps IH]; intros Hps; [exists []; by split|].
  destruct IH as (idx & E & Hf); [set_solver|]. destruct (list_index_spec p l) as (i & Ei & Hi); [set_solver|].
  exists (i :: idx). simpl. rewrite Ei. simpl. rewrite E. by split; [|constructor].
Qed.

Lemma max_by_spec best best_v l :
  ∃ v, (max_by best best_v l, v) ∈ (best, best_v) :: l ∧ ∀ i w, (i, w) ∈ (best, best_v) :: l → (w <= v)%Q.
Proof.
  revert best best_v. induction l as [|[i w] l IH]; intros best best_v; simpl.
  - exists best_v. split; [left|]. intros i w [[= -> ->]|?%not_elem_of_nil]%elem_of_cons; [lra|done].
  - destruct (Qle_bool_spec w best_v) as [H|H].
    + destruct (IH best best_v) as (v & Hin & Hmax). exists v.
      split; [apply elem_of_cons in Hin as [->|Hin]; [left|right; by right]|].
      intros j u Hj. apply elem_of_cons in Hj as [[= -> ->]|Hj]; [apply (Hmax best); left|].
      apply elem_of_cons in Hj as [[= -> ->]|Hj]; [|apply (Hmax j); by right].
      assert (best_v <= v)%Q by (apply (Hmax best); left). lra.
    + destruct (IH i w) as (v & Hin & Hmax). exists v. split; [by right|].
      intros j u Hj. apply elem_of_cons in Hj as [[= -> ->]|Hj]; [|by apply (Hmax j)].
      assert (w <= v)%Q by (apply (Hmax i); left). lra.
Qed.

Lemma keyed_spec (key : Z → outcome Q) (g : Z → Q) l :
  (∀ i, i ∈ l → key i = Ret (g i)) → omapM (λ i, try* v := key i in Ret (i, v)) l = Ret ((λ i, (i, g i)) <$> l).
Proof.
  induction l as [|i l IH]; intros Hk; [done|]. csimpl. rewrite (Hk i) by left. simpl. rewrite IH; [done|set_solver].
Qed.

Lemma py_max_by_spec key g l :
  l ≠ [] → (∀ i, i ∈ l → key i = Ret (g i)) →
  ∃ m, py_max_by key l = Ret m ∧ m ∈ l ∧ ∀ i, i ∈ l → (g i <= g m)%Q.
Proof.
  intros Hne Hk. unfold py_max_by. rewrite (keyed_spec key g l Hk). simpl.
  destruct l as [|i l]; [done|]. csimpl. destruct (max_by_spec i (g i) ((λ i, (i, g i)) <$> l)) as (v & Hin & Hmax).
  set (m := max_by _ _ _) in *.
  assert (Hall : ∀ j w, (j, w) ∈ (i, g i) :: ((λ i, (i, g i)) <$> l) → w = g j ∧ j ∈ i :: l).
  { intros j w [[= -> ->]|(j' & [= -> ->] & Hj)%list_elem_of_fmap]%elem_of_cons; split; [done|left|done|by right]. }
  destruct (Hall m v Hin) as [-> Hm]. exists m. split_and!; [done..|]. intros j Hj. apply (Hmax j).
  apply elem_of_cons in Hj as [->|Hj]; [left|right]. by apply (list_elem_of_fmap_2 (λ i, (i, g i))).
Qed.

Lemma foldl_max_spec (y : Q) l :
  let m := foldl (λ m v, if Qle_bool v m then m else v) y l in
  m ∈ y :: l ∧ ∀ z, z ∈ y :: l → (z <= m)%Q.
Proof.
  revert y. induction l as [|x l IH]; intros y; simpl.
  { split; [left|]. intros z [->|?%not_elem_of_nil]%elem_of_cons; [lra|done]. }
  destruct (Qle_bool_spec x y) as [Hx|Hx].
  - destruct (IH y) as [H1 H2]. split.
    + apply elem_of_cons in H1 as [->|H1]; [left|right; by right].
    + intros z [->|[->|Hz]%elem_of_cons]%elem_of_cons; [apply H2; left| |apply H2; by right].
      eapply Qle_trans; [exact Hx|]. apply H2. left.
  - destruct (IH x) as [H1 H2]. split; [by right|].
    intros z [->|Hz]%elem_of_cons; [|by apply H2]. eapply Qle_trans; [apply Qlt_le_weak, Hx|]. apply H2. left.
Qed.

Lemma max_or_0_spec l :
  l ≠ [] → (∃ i, l !! i = Some (max_or_0 l)) ∧ ∀ x, x ∈ l → (x <= max_or_0 l)%Q.
Proof.
  destruct l as [|x l]; [done|]. intros _. destruct (foldl_max_spec x l) as [H1 H2]. split; [|exact H2].
  by apply list_elem_of_lookup_1.
Qed.

(** The candidate pods are pods, and there are as many as asked for. *)
Lemma candidates_ok tuple_hash ph pods k :
  NoDup pods → 0 ≤ k ≤ py_len pods →
  ∃ l, select_candidate_pods tuple_hash ph pods k = Ret l ∧ py_len l = k ∧ ∀ p, p ∈ l → p ∈ pods.
Proof.
  intros Hnd Hk. unfold select_candidate_pods, py_len in *.
  destruct (select_loop_ok tuple_hash pods ph (Z.to_nat (Z.min k (Z.of_nat (length pods)))) 0 [] [])
    as (idx & Hr & Hl & Hn & Hok & _); [simpl; lia|].
  destruct (pods_at_spec pods idx Hok Hn Hnd) as (Hlen & _ & Hmem).
  exists (pods_at pods idx). split_and!; [done|lia|done].
Qed.

(** ** Lemmas: the filter *)

Section lemmas.
Context {NP : Numpy Q} (tuple_hash : Z → Z → Z) (cfg : infer_config) (pods : list pod_id).

(** The best of the candidates. *)
Lemma best_candidate candidates rewards :
  candidates ≠ [] → (∀ p, p ∈ candidates → p ∈ pods) → length rewards = length pods →
  ∃ idx i pod v, omapM (λ p, list_index p pods) candidates = Ret idx ∧
    py_max_by (py_index rewards) idx = Ret (Z.of_nat i) ∧
    (∀ z, z ∈ idx → ∃ j p, z = Z.of_nat j ∧ pods !! j = Some p ∧ p ∈ candidates) ∧
    (NoDup pods → ∀ j p, pods !! j = Some p → p ∈ candidates → Z.of_nat j ∈ idx) ∧
    pods !! i = Some pod ∧ pod ∈ candidates ∧ rewards !! i = Some v ∧
    ∀ p, p ∈ candidates → ∃ j w, pods !! j = Some p ∧ rewards !! j = Some w ∧ (w <= v)%Q.
Proof.
  intros Hne Hsub Hlen. destruct (list_indices_spec pods candidates Hsub) as (idx & E & Hf).
  assert (Hidx : ∀ j, j ∈ idx → ∃ p, pods !! j = Some p ∧ p ∈ candidates).
  { intros j (n & Hj)%list_elem_of_lookup. destruct (Forall2_lookup_r _ _ _ _ _ Hf Hj) as (p & Hp & Hpj).
    exists p. split; [done|]. by eapply list_elem_of_lookup_2. }
  assert (Hrow : ∀ j, j ∈ idx → ∃ w, rewards !! j = Some w).
  { intros j Hj. destruct (Hidx j Hj) as (p & Hp & _). apply lookup_lt_is_Some_2. apply lookup_lt_Some in Hp. lia. }
  destruct (py_max_by_spec (py_index rewards) (λ z, default 0%Q (rewards !! Z.to_nat z)) (Z.of_nat <$> idx)) as (m & Em & Hm & Hmax).
  - intros Hnil%fmap_nil_inv. subst. inversion Hf. by subst.
  - intros z (j & -> & Hj)%list_elem_of_fmap. destruct (Hrow j Hj) as (w & Hw). rewrite Nat2Z.id, Hw. simpl.
    apply py_index_lookup; [lia|by rewrite Nat2Z.id].
  - apply list_elem_of_fmap in Hm as (i & -> & Hi). destruct (Hidx i Hi) as (pod & Hpod & Hin), (Hrow i Hi) as (v & Hv).
    exists (Z.of_nat <$> idx), i, pod, v. split_and!; [done..| | |done|done|done|].
    + intros z (j & -> & Hj)%list_elem_of_fmap. destruct (Hidx j Hj) as (p & ? & ?). eauto.
    + intros Hnd j p Hj (n & Hp)%list_elem_of_lookup. destruct (Forall2_lookup_l _ _ _ _ _ Hf Hp) as (j' & Hj' & Hpj).
      rewrite (NoDup_lookup _ _ _ _ Hnd Hj Hpj). by apply list_elem_of_fmap_2, list_elem_of_lookup_2 with n.
    + intros p (n & Hp)%list_elem_of_lookup. destruct (Forall2_lookup_l _ _ _ _ _ Hf Hp) as (j & Hj & Hpj).
      apply list_elem_of_lookup_2 in Hj. destruct (Hrow j Hj) as (w & Hw). exists j, w. split_and!; [done..|].
      specialize (Hmax (Z.of_nat j)). rewrite !Nat2Z.id, Hv, Hw in Hmax. apply Hmax. by apply list_elem_of_fmap_2.
Qed.

(** The K that applies to the request. *)
Definition applied_k (raw : raw_features) (pgm : option PrefixGroupManager) : Z :=
  match pgm with
  | Some m => if DYNAMIC_K cfg then get_k (group_config cfg) (prefix_hash raw) m else CANDIDATE_K cfg
  | None => CANDIDATE_K cfg
  end.

Lemma k_used_spec raw pgm : ∃ pgm', k_used cfg raw pgm = (Ret (applied_k raw pgm), pgm').
Proof.
  unfold k_used, applied_k. destruct pgm as [m|]; [|by eexists]. destruct (DYNAMIC_K cfg); [|by eexists].
  eexists. f_equal. f_equal. unfold get_k, record_filtered_request. by destruct (_ =? 0).
Qed.

Context (raw : raw_features) (waiting_known : bool) (r : agent_result) (pgm : option PrefixGroupManager).
Context (Hnd : NoDup pods) (Hlen : length (predicted_rewards r) = length pods)
  (Hsel : 0 ≤ selected_pod_index r < py_len pods).

(** The three cases of K: the whole cluster, some of it, none. *)
Lemma filter_choice_cases :
  filter_applies cfg raw = true → 1 ≤ applied_k raw pgm < py_len pods →
  ∃ candidates i pod pgm', select_candidate_pods tuple_hash (prefix_hash raw) pods (applied_k raw pgm) = Ret candidates ∧
    py_len candidates = applied_k raw pgm ∧ pods !! i = Some pod ∧ pod ∈ candidates ∧
    (filter_choice tuple_hash cfg pods raw waiting_known r pgm = (Ret (Some (Z.of_nat i)), pgm') ∧
       (∀ own, pods !! Z.to_nat (selected_pod_index r) = Some own → own ∉ candidates) ∧
       (∃ v, predicted_rewards r !! i = Some v ∧
          ∀ p, p ∈ candidates → ∃ j w, pods !! j = Some p ∧ predicted_rewards r !! j = Some w ∧ (w <= v)%Q) ∨
     filter_choice tuple_hash cfg pods raw waiting_known r pgm = (Ret None, pgm') ∧ selected_pod_index r = Z.of_nat i).
Proof.
  intros Happ Hk. destruct (k_used_spec raw pgm) as (pgm' & Ek).
  destruct (candidates_ok tuple_hash (prefix_hash raw) pods (applied_k raw pgm) Hnd) as (cs & Ec & Hl & Hsub); [lia|].
  destruct (best_candidate cs (predicted_rewards r)) as (idx & b & bp & v & Ei & Eb & Hz & Hzin & Hbp & Hbin & Hv & Hmax); [|done|done|].
  { intros ->. unfold py_len in Hl. simpl in Hl. lia. }
  assert (E : filter_choice tuple_hash cfg pods raw waiting_known r pgm =
    (Ret (if bool_decide (selected_pod_index r ∈ idx) then None else Some (Z.of_nat b)), pgm')).
  { unfold filter_choice. rewrite Happ. unfold bind at 1. rewrite Ek. unfold bind at 1, lift at 1. rewrite Ec.
    destruct (Z.leb_spec (py_len pods) (applied_k raw pgm)); [lia|]. unfold bind at 1, lift at 1. rewrite Ei.
    unfold bind at 1, lift at 1. rewrite Eb. case_bool_decide; [done|]. unfold bind, lift, ret.
    destruct waiting_known; [|done]. destruct (lookup_lt_is_Some_2 pods (Z.to_nat (selected_pod_index r))) as [q Hq];
      [unfold py_len in Hsel; lia|]. rewrite (py_index_lookup pods (selected_pod_index r) q); [done|lia|done]. }
  rewrite E. case_bool_decide as Hin.
  - destruct (Hz _ Hin) as (j & p & Ej & Hj & Hp). exists cs, j, p, pgm'. split_and!; [done..|]. by right.
  - exists cs, b, bp, pgm'. split_and!; [done..|]. left. split; [done|]. split; [|by exists v].
    intros own Hown Hc. apply Hin. rewrite <-(Z2Nat.id (selected_pod_index r)) by lia. by apply (Hzin Hnd _ own).
Qed.

(** The filter never leaves the cluster. *)
Lemma filter_choice_in_range :
  match (filter_choice tuple_hash cfg pods raw waiting_known r pgm).1 with
  | Ret (Some i) => 0 ≤ i < py_len pods
  | _ => True
  end.
Proof.
  destruct (filter_applies cfg raw) eqn:Happ; [|unfold filter_choice; by rewrite Happ].
  destruct (k_used_spec raw pgm) as (pgm1 & Ek).
  destruct (Z.leb_spec (py_len pods) (applied_k raw pgm)) as [Hbig|Hsmall]; [|destruct (Z.leb_spec 1 (applied_k raw pgm)) as [H1|H0]].
  - unfold filter_choice. rewrite Happ. unfold bind, lift. rewrite Ek.
    destruct (select_candidate_pods _ _ _ _); [|done..]. destruct (Z.leb_spec (py_len pods) (applied_k raw pgm)); [done|lia].
  - destruct (filter_choice_cases Happ) as (cs & i & pod & pgm' & _ & _ & Hi & _ & [(-> & _)|[-> _]]); [lia| |done].
    simpl. apply lookup_lt_Some in Hi. unfold py_len. lia.
  - unfold filter_choice. rewrite Happ. unfold bind, lift. rewrite Ek.
    unfold select_candidate_pods. replace (Z.to_nat (Z.min (applied_k raw pgm) (py_len pods))) with 0%nat by lia. simpl.
    by destruct (Z.leb_spec (py_len pods) (applied_k raw pgm)).
Qed.

End lemmas.

(** The choice after the filter is a pod of the cluster. *)
Lemma prefix_filter_in_range {NP : Numpy Q} tuple_hash cfg pods raw waiting_known r pgm :
  NoDup pods → length (predicted_rewards r) = length pods → 0 ≤ selected_pod_index r < py_len pods →
  0 ≤ (prefix_filter tuple_hash cfg pods raw waiting_known r pgm).1 < py_len pods.
Proof.
  intros Hnd Hlen Hsel. unfold prefix_filter. destruct raw as [raw|]; [|done]. destruct (_ && _); [|done].
  pose proof (filter_choice_in_range tuple_hash cfg pods raw waiting_known r pgm Hnd Hlen Hsel) as H.
  by destruct (filter_choice _ _ _ _ _ _ _) as [[[i|]|e|] pgm'].
Qed.

(** ** Lemmas: the tie-break *)

Lemma near_best_spec cfg rewards i :
  i ∈ near_best cfg rewards ↔
  ∃ v, rewards !! i = Some v ∧ (max_or_0 rewards * (1 - REWARD_SIMILARITY_THRESHOLD cfg) <= v)%Q.
Proof.
  unfold near_best. rewrite elem_of_filter_b, elem_of_seq. split.
  - intros [Hle [_ Hi]]. destruct (lookup_lt_is_Some_2 rewards i) as [v Hv]; [lia|]. exists v. split; [done|].
    rewrite Hv in Hle. by apply Qle_bool_iff in Hle.
  - intros (v & Hv & Hle). rewrite Hv. simpl. split; [by apply Qle_bool_iff|]. apply lookup_lt_Some in Hv. lia.
Qed.

Lemma pod_of_index_ok cfg pods i :
  0 ≤ i < py_len pods → (∀ p, p ∈ pods → is_Some (generalpodid_to_pod_ip cfg !! p)) →
  ∃ pod ip, pod_of_index cfg pods i = Ret (pod, ip) ∧ pod ∈ pods ∧ generalpodid_to_pod_ip cfg !! pod = Some ip.
Proof.
  intros Hi Hip. destruct (lookup_lt_is_Some_2 pods (Z.to_nat i)) as [pod Hpod]; [unfold py_len in Hi; lia|].
  pose proof (list_elem_of_lookup_2 _ _ _ Hpod) as Hin. destruct (Hip pod Hin) as [ip Hpi]. exists pod, ip.
  unfold pod_of_index. destruct (Z.leb_spec (py_len pods) i); [lia|].
  rewrite (py_index_lookup pods i pod) by (try done; lia). simpl. by rewrite Hpi.
Qed.

(** The response after the tie-break names a pod of the cluster. *)
Lemma tiebreak_ok cfg pods random_choice rewards resp :
  length rewards = length pods → (∀ p, p ∈ pods → is_Some (generalpodid_to_pod_ip cfg !! p)) →
  (∀ l, l ≠ [] → random_choice l ∈ l) →
  selected_pod_generalpodid resp ∈ pods →
  generalpodid_to_pod_ip cfg !! selected_pod_generalpodid resp = Some (selected_pod resp) →
  ∃ resp', tiebreak cfg pods random_choice rewards resp = Ret resp' ∧
    selected_pod_generalpodid resp' ∈ pods ∧
    generalpodid_to_pod_ip cfg !! selected_pod_generalpodid resp' = Some (selected_pod resp') ∧
    (ood_fallback resp' = ood_fallback resp ∨ ood_fallback resp' = 3).
Proof.
  intros Hlen Hip Hrand Hp Hpi. unfold tiebreak. destruct (length rewards <=? 1)%nat; [exists resp; auto|].
  destruct (Nat.leb_spec (length (near_best cfg rewards)) 1) as [_|Hnear]; [exists resp; auto|].
  assert (Hpick : random_choice (near_best cfg rewards) ∈ near_best cfg rewards).
  { apply Hrand. intros Hnil. rewrite Hnil in Hnear. simpl in Hnear. lia. }
  apply near_best_spec in Hpick as (v & Hv & _). set (k := random_choice _) in *.
  destruct (lookup_lt_is_Some_2 pods k) as [pod Hpod]; [apply lookup_lt_Some in Hv; lia|].
  pose proof (list_elem_of_lookup_2 _ _ _ Hpod) as Hin. destruct (Hip pod Hin) as [ip Hpip].
  rewrite (py_index_lookup pods (Z.of_nat k) pod); [|lia|by rewrite Nat2Z.id]. simpl. rewrite Hpip.
  rewrite (py_index_lookup rewards (Z.of_nat k) v); [|lia|by rewrite Nat2Z.id]. simpl.
  eexists. split_and!; [done..|]. by right.
Qed.

(** The whole decision *)
Lemma route_request_runs (NP : Numpy Q) (tuple_hash : Z → Z → Z) (cfg : infer_config) (pods : list pod_id)
    (random_choice : list nat → nat) (num_trains use_fallback : Z) (raw : option raw_features)
    (waiting_known : bool) (r : agent_result) (pgm : option PrefixGroupManager) :
  NoDup pods → length (predicted_rewards r) = length pods → 0 ≤ selected_pod_index r < py_len pods →
  (∀ p, p ∈ pods → is_Some (generalpodid_to_pod_ip cfg !! p)) → (∀ l, l ≠ [] → random_choice l ∈ l) →
  ∃ resp, (route_request tuple_hash cfg pods random_choice num_trains use_fallback raw waiting_known r pgm).1 = Ret resp ∧
    selected_pod_generalpodid resp ∈ pods ∧
    generalpodid_to_pod_ip cfg !! selected_pod_generalpodid resp = Some (selected_pod resp) ∧
    (num_trains = 0 → LOAD_PRETRAINED_MODEL cfg = false ∨ RETRAIN_AT_STARTUP cfg = true → ood_fallback resp = 2) ∧
    (num_trains ≠ 0 → ood_fallback resp = use_fallback ∨ ood_fallback resp = 3).
Proof.
  intros Hnd Hlen Hsel Hip Hrand. unfold route_request.
  pose proof (prefix_filter_in_range tuple_hash cfg pods raw waiting_known r pgm Hnd Hlen Hsel) as Hi.
  destruct (prefix_filter tuple_hash cfg pods raw waiting_known r pgm) as [i pgm']. simpl in *.
  destruct (pod_of_index_ok cfg pods i Hi Hip) as (pod & ip & -> & Hpod & Hpip). simpl.
  destruct (tiebreak_ok cfg pods random_choice (predicted_rewards r)
    (mkResponse ip pod (chosen_pod_predicted_reward r) use_fallback None)) as (resp & -> & Hp & Hpi & Hcode); [done..|].
  simpl. exists (untrained_fallback cfg num_trains resp). split; [done|].
  unfold untrained_fallback. destruct (Z.eqb_spec num_trains 0) as [->|Hn]; simpl in Hcode.
  - destruct (LOAD_PRETRAINED_MODEL cfg), (RETRAIN_AT_STARTUP cfg), (fixed_range_mode cfg); simpl; split_and!; try done; naive_solver.
  - rewrite !andb_false_r. split_and!; [done..|]. intros _. naive_solver.
Qed.

(** ** Properties *)

(** Every routing decision is a pod of the cluster. When the agent answers
    with an index of a pod and one reward per pod, and every pod has an address,
    the handler responds, whatever the filter, the tie-break and the state of the
    groups are: with a pod of the cluster and its address, the code 2 for a model
    that was never trained, and otherwise the code of the out-of-distribution
    check or 3. *)
Theorem route_request_safe (NP : Numpy Q) (tuple_hash : Z → Z → Z) (cfg : infer_config) (pods : list pod_id)
    (random_choice : list nat → nat) (num_trains use_fallback : Z) (raw : option raw_features)
    (waiting_known : bool) (r : agent_result) (pgm : option PrefixGroupManager) :
  NoDup pods → length (predicted_rewards r) = length pods → 0 ≤ selected_pod_index r < py_len pods →
  (∀ p, p ∈ pods → is_Some (generalpodid_to_pod_ip cfg !! p)) → (∀ l, l ≠ [] → random_choice l ∈ l) →
  ∃ resp, (route_request tuple_hash cfg pods random_choice num_trains use_fallback raw waiting_known r pgm).1 = Ret resp ∧
    selected_pod_generalpodid resp ∈ pods ∧
    generalpodid_to_pod_ip cfg !! selected_pod_generalpodid resp = Some (selected_pod resp) ∧
    (num_trains = 0 → LOAD_PRETRAINED_MODEL cfg = false ∨ RETRAIN_AT_STARTUP cfg = true → ood_fallback resp = 2) ∧
    (num_trains ≠ 0 → ood_fallback resp = use_fallback ∨ ood_fallback resp = 3).
Proof. apply route_request_runs. Qed.

Definition demo_pods : list pod_id := ["pod_0"; "pod_1"; "pod_2"; "pod_3"].

Definition demo_infer_config (k : Z) : infer_config :=
  mkInferConfig k (1#2) 100 true true false false (1#10)
    (list_to_map (map (λ p, (p, "10.0.0." +:+ p)) demo_pods)) (mkPGMConfig 2 200 10 3 10 2 3).

Definition demo_raw : raw_features :=
  mkRaw (map (λ p, (p, 8#10)) demo_pods) (map (λ p, (p, 60%Q)) demo_pods) 1000 12.

Definition demo_answer : agent_result := mkAgentResult 0 [-1; -2; -3; -4]%Q (-1)%Q false.

(** The head of the list, as a random pick. *)
Definition demo_random (l : list nat) : nat := default 0%nat (head l).

Lemma demo_random_ok l : l ≠ [] → demo_random l ∈ l.
Proof. destruct l; [done|]. intros _. left. Qed.

Lemma demo_ips k p : p ∈ demo_pods → is_Some (generalpodid_to_pod_ip (demo_infer_config k) !! p).
Proof.
  revert p. apply Forall_forall. repeat (constructor; [eexists; vm_compute; reflexivity|]). constructor.
Qed.

Lemma route_request_safe_witness :
  ∃ resp, (@route_request demo_numpy (λ i h, 5 * i + h) (demo_infer_config 2) demo_pods demo_random 3 0 (Some demo_raw)
             true demo_answer None).1 = Ret resp ∧ selected_pod_generalpodid resp ∈ demo_pods.
Proof.
  destruct (route_request_safe demo_numpy (λ i h, 5 * i + h) (demo_infer_config 2) demo_pods demo_random 3 0 (Some demo_raw)
    true demo_answer None) as (resp & E & Hp & _).
  - apply (bool_decide_unpack _). vm_compute. exact I.
  - reflexivity.
  - vm_compute. split; congruence.
  - apply demo_ips.
  - apply demo_random_ok.
  - exists resp. split; [exact E|exact Hp].
Defined.

(** C35: the prefix filter concentrates a group. When it applies and K is
    smaller than the cluster, the choice it passes on is one of the K candidate
    pods of the group: the agent's own choice if that is a candidate, and
    otherwise a candidate whose predicted reward no other candidate exceeds. *)
Theorem prefix_filter_restricts (NP : Numpy Q) (tuple_hash : Z → Z → Z) (cfg : infer_config) (pods : list pod_id)
    (raw : raw_features) (waiting_known : bool) (r : agent_result) (pgm : option PrefixGroupManager) :
  NoDup pods → length (predicted_rewards r) = length pods → 0 ≤ selected_pod_index r < py_len pods →
  ENABLE_PREFIX_FILTERING cfg = true → explored r = false → filter_applies cfg raw = true →
  1 ≤ applied_k cfg raw pgm < py_len pods →
  ∃ candidates i pod own, select_candidate_pods tuple_hash (prefix_hash raw) pods (applied_k cfg raw pgm) = Ret candidates ∧
    py_len candidates = applied_k cfg raw pgm ∧
    (prefix_filter tuple_hash cfg pods (Some raw) waiting_known r pgm).1 = Z.of_nat i ∧
    pods !! i = Some pod ∧ pod ∈ candidates ∧ pods !! Z.to_nat (selected_pod_index r) = Some own ∧
    (own ∈ candidates → selected_pod_index r = Z.of_nat i) ∧
    (own ∉ candidates → ∃ v, predicted_rewards r !! i = Some v ∧
       ∀ p, p ∈ candidates → ∃ j w, pods !! j = Some p ∧ predicted_rewards r !! j = Some w ∧ (w <= v)%Q).
Proof.
  intros Hnd Hlen Hsel Hen Hex Happ Hk.
  destruct (filter_choice_cases tuple_hash cfg pods raw waiting_known r pgm Hnd Hlen Hsel Happ Hk)
    as (cs & i & pod & pgm' & Ec & Hl & Hi & Hin & Hcase).
  destruct (lookup_lt_is_Some_2 pods (Z.to_nat (selected_pod_index r))) as [own Hown]; [unfold py_len in Hsel; lia|].
  exists cs, i, pod, own. unfold prefix_filter. rewrite Hen, Hex. simpl.
  destruct Hcase as [(-> & Hout & Hmax)|[-> Hsame]]; split_and!; try done.
  - intros Hc. by destruct (Hout own Hown).
  - intros Hc. rewrite Hsame, Nat2Z.id, Hi in Hown. by injection Hown as ->.
Qed.

Lemma prefix_filter_restricts_witness :
  ∃ candidates i pod own, select_candidate_pods (λ i h, 5 * i + h) 12 demo_pods 2 = Ret candidates ∧
    (@prefix_filter demo_numpy (λ i h, 5 * i + h) (demo_infer_config 2) demo_pods (Some demo_raw) true
       (mkAgentResult 3 [-1; -2; -3; 4]%Q 4 false) None).1 = Z.of_nat i ∧ demo_pods !! i = Some pod ∧ pod ∈ candidates ∧
    demo_pods !! 3%nat = Some own ∧ (own ∈ candidates → 3 = Z.of_nat i).
Proof.
  destruct (prefix_filter_restricts demo_numpy (λ i h, 5 * i + h) (demo_infer_config 2) demo_pods demo_raw true
    (mkAgentResult 3 [-1; -2; -3; 4]%Q 4 false) None) as (cs & i & pod & own & Ec & _ & Ei & Hi & Hin & Hown & Hkeep & _).
  - apply (bool_decide_unpack _). vm_compute. exact I.
  - reflexivity.
  - vm_compute. split; congruence.
  - reflexivity.
  - reflexivity.
  - vm_compute. reflexivity.
  - vm_compute. split; congruence.
  - exists cs, i, pod, own. split; [exact Ec|]. split; [exact Ei|]. split; [exact Hi|]. split; [exact Hin|]. split; [exact Hown|exact Hkeep].
Defined.

(** The tie-break and the sign of the rewards. With a threshold between 0
    and 1, a best reward that is not negative is among the near-best pods, and all
    of them are within the threshold of it; but when every reward is negative no
    pod is near-best, not even the best one, and the tie-break never happens. *)
Theorem tiebreak_needs_positive_rewards (cfg : infer_config) (pods : list pod_id) (random_choice : list nat → nat)
    (rewards : list Q) (resp : response) :
  rewards ≠ [] → (0 < REWARD_SIMILARITY_THRESHOLD cfg <= 1)%Q →
  let best := max_or_0 rewards in
  ((0 <= best)%Q →
     (∃ i, i ∈ near_best cfg rewards ∧ rewards !! i = Some best) ∧
     ∀ i v, i ∈ near_best cfg rewards → rewards !! i = Some v →
       (best - v <= REWARD_SIMILARITY_THRESHOLD cfg * best)%Q) ∧
  (Forall (λ v, v < 0)%Q rewards →
     near_best cfg rewards = [] ∧ tiebreak cfg pods random_choice rewards resp = Ret resp).
Proof.
  intros Hne Ht best. destruct (max_or_0_spec rewards Hne) as [(i & Hi) Hmax]. split.
  - intros Hb. split.
    + exists i. split; [|done]. apply near_best_spec. exists best. split; [done|]. fold best. nra.
    + intros j v (v' & Hv' & Hle)%near_best_spec Hv. rewrite Hv in Hv'. injection Hv' as <-. fold best in Hle. lra.
  - intros Hneg. assert (Hb : (best < 0)%Q) by (rewrite Forall_lookup in Hneg; by apply (Hneg i)).
    assert (Hnil : near_best cfg rewards = []).
    { apply elem_of_nil_inv. intros j (v & Hv & Hle)%near_best_spec. fold best in Hle.
      assert (v <= best)%Q by (apply Hmax; by eapply list_elem_of_lookup_2). nra. }
    split; [done|]. unfold tiebreak. rewrite Hnil. by destruct (length rewards <=? 1)%nat.
Qed.

Lemma tiebreak_needs_positive_rewards_witness :
  near_best (demo_infer_config 2) [-100; -101; -400]%Q = [] ∧
  ∃ i, i ∈ near_best (demo_infer_config 2) [100; 99; 40]%Q ∧ [100; 99; 40]%Q !! i = Some (max_or_0 [100; 99; 40]%Q).
Proof.
  destruct (tiebreak_needs_positive_rewards (demo_infer_config 2) demo_pods demo_random [-100; -101; -400]%Q
    (mkResponse "" "" 0 0 None)) as [_ Hneg]; [discriminate|vm_compute; split; congruence|].
  destruct (tiebreak_needs_positive_rewards (demo_infer_config 2) demo_pods demo_random [100; 99; 40]%Q
    (mkResponse "" "" 0 0 None)) as [Hpos _]; [discriminate|vm_compute; split; congruence|].
  split; [apply Hneg; repeat constructor|apply Hpos; vm_compute; congruence].
Defined.
