(* ===== verification/LoadBuffer.v ===== *)
(** * The data buffer of the load monitor

    Models [DataPoint] and [DataBuffer] of
    [python/aibrix/aibrix/gpu_optimizer/load_monitor/helpers.py]: the array in
    which the monitor of the GPU optimizer keeps the requests of its window. Rows
    are appended behind the committed part and become visible with [commit];
    room is made by dropping the oldest rows, and [reconcile] enlarges the array.
    Numbers are exact rationals. *)

From S2P Require Import Prelude Num.

Open Scope Z_scope.
Open Scope py_scope.

(** The two components of the signature and the age. *)
Record DataPoint := mkPoint { sig_x : Q; sig_y : Q; age : Q }.

Definition signature (p : DataPoint) : list Q := [sig_x p; sig_y p].

Record DataBuffer := mkDataBuffer { xy : list DataPoint; commited : Z; head_ : Z }.

(** [np.empty((cap, 3))]: the content of a new array is whatever it is. *)
Definition new_DataBuffer (rows : list DataPoint) : DataBuffer := mkDataBuffer rows 0 0.

Definition cap (b : DataBuffer) : Z := py_len (xy b).

(** [xy[a:b] = values]: the slice is clamped to the array; as many values as rows,
    or one value for all of them. *)
Definition np_assign (rows : list DataPoint) (a b : Z) (values : list DataPoint) : outcome (list DataPoint) :=
  let lo := Z.to_nat (py_clamp (py_len rows) a) in
  let hi := Nat.max lo (Z.to_nat (py_clamp (py_len rows) b)) in
  if (length values =? hi - lo)%nat then Ret (take lo rows ++ values ++ drop hi rows)
  else match values with
       | [v] => Ret (take lo rows ++ replicate (hi - lo) v ++ drop hi rows)
       | _ => Raise ValueError
       end.

(** [np.resize]: the rows are repeated until the new array is full. *)
Definition np_resize (rows : list DataPoint) (n : Z) : list DataPoint :=
  take (Z.to_nat n) (concat (replicate (S (Z.to_nat n)) rows)).

(** [while new_cap < cap: new_cap *= 2] *)
Fixpoint grow_loop (fuel : nat) (new_cap cap : Z) : outcome Z :=
  if cap <=? new_cap then Ret new_cap
  else match fuel with
       | O => OutOfFuel
       | S fuel' => grow_loop fuel' (new_cap * 2) cap
       end.

Definition set_rows (rows : list DataPoint) (b : DataBuffer) : DataBuffer :=
  mkDataBuffer rows (commited b) (head_ b).

Definition set_both (n : Z) (b : DataBuffer) : DataBuffer := mkDataBuffer (xy b) n n.

Definition reconcile (n : Z) : M DataBuffer unit :=
  let* b := get in
  if n <? cap b then ret tt
  else
    let* new_cap := lift (grow_loop (Z.to_nat n) (cap b * 2) n) in
    modify (set_rows (np_resize (xy b) new_cap)).

Definition trim_head (start : Z) : M DataBuffer unit :=
  let* b := get in
  if negb (head_ b =? commited b) then raise Exception_
  else if commited b <=? start then modify (set_both 0)
  else if start <=? - commited b then ret tt
  else if 0 <? start then
    let* rows := lift (np_assign (xy b) 0 (commited b - start) (py_slice (xy b) start (commited b))) in
    modify (set_rows rows) ;;
    modify (set_both (commited b - start))
  else
    let* rows := lift (np_assign (xy b) 0 (- start) (py_slice (xy b) (commited b + start) (commited b))) in
    modify (set_rows rows) ;;
    modify (set_both (- start)).

Definition commit : M DataBuffer unit := modify (λ b, mkDataBuffer (xy b) (head_ b) (head_ b)).

(** An empty list has no columns and cannot be assigned to rows of three. *)
Definition append (tokens : list DataPoint) (do_commit : bool) : M DataBuffer (list DataPoint) :=
  let* b := get in
  let size_gap := commited b + py_len tokens - cap b in
  (if 0 <? size_gap then trim_head size_gap else ret tt) ;;
  let tokens' := if cap b <? py_len tokens then py_slice tokens (- cap b) (py_len tokens) else tokens in
  let* b1 := get in
  let* rows := lift (match tokens' with
                     | [] => Raise ValueError
                     | _ => np_assign (xy b1) (commited b1) (commited b1 + py_len tokens') tokens'
                     end) in
  modify (set_rows rows) ;;
  let* b2 := get in
  let result := py_slice (xy b2) (commited b2) (commited b2 + py_len tokens') in
  modify (λ b, mkDataBuffer (xy b) (commited b) (head_ b + py_len tokens')) ;;
  (if do_commit then commit else ret tt) ;;
  ret result.

Definition clear : M DataBuffer unit := modify (set_both 0).

Definition datapoints (b : DataBuffer) : list DataPoint := py_slice (xy b) 0 (commited b).

Definition xs (b : DataBuffer) : list Q := sig_x <$> datapoints b.
Definition ys (b : DataBuffer) : list Q := sig_y <$> datapoints b.

(** ** The abstract buffer: the committed points, oldest first *)

Definition keep_last {A} (k : nat) (l : list A) : list A := drop (length l - k) l.

(** Between two operations nothing is uncommitted. *)
Definition buffer_ok (b : DataBuffer) : Prop := 0 ≤ commited b ≤ cap b ∧ head_ b = commited b.

(** ** Lemmas *)

Lemma datapoints_take b : 0 ≤ commited b ≤ cap b → datapoints b = take (Z.to_nat (commited b)) (xy b).
Proof.
  intros Hc. unfold datapoints. rewrite py_slice_take_drop by (unfold cap in *; lia).
  by rewrite Z.sub_0_r.
Qed.

Lemma length_datapoints b : 0 ≤ commited b ≤ cap b → py_len (datapoints b) = commited b.
Proof. intros Hc. rewrite datapoints_take by done. unfold py_len, cap, py_len in *. rewrite length_take. lia. Qed.

Lemma py_clamp_in n i : 0 ≤ i ≤ n → py_clamp n i = i.
Proof. intros Hi. unfold py_clamp, py_norm_index. destruct (Z.ltb_spec i 0); lia. Qed.

Lemma np_assign_ok rows a b values :
  0 ≤ a → a ≤ b → b ≤ py_len rows → py_len values = b - a →
  np_assign rows a b values = Ret (take (Z.to_nat a) rows ++ values ++ drop (Z.to_nat b) rows).
Proof.
  intros Ha Hab Hb Hl. unfold np_assign. rewrite !py_clamp_in by lia.
  rewrite Nat.max_r by lia. unfold py_len in *.
  destruct (Nat.eqb_spec (length values) (Z.to_nat b - Z.to_nat a)); [done|lia].
Qed.

Lemma keep_last_all {A} k (l : list A) : (length l ≤ k)%nat → keep_last k l = l.
Proof. intros Hk. unfold keep_last. by replace (length l - k)%nat with 0%nat by lia. Qed.

Lemma length_keep_last {A} k (l : list A) : length (keep_last k l) = Nat.min k (length l).
Proof. unfold keep_last. rewrite length_drop. lia. Qed.

Lemma grow_loop_ok fuel n m :
  0 < n → m - n ≤ Z.of_nat fuel → ∃ r, grow_loop fuel n m = Ret r ∧ n ≤ r ∧ m ≤ r.
Proof.
  revert n. induction fuel as [|fuel IH]; intros n Hn Hf; cbn [grow_loop]; destruct (Z.leb_spec m n); try lia.
  1,2: exists n; split; [done|lia].
  destruct (IH (n * 2)) as (r & -> & ? & ?); [lia..|]. exists r. split; [done|lia].
Qed.

Lemma np_resize_prefix rows n k :
  (k ≤ length rows)%nat → (length rows ≤ Z.to_nat n)%nat → take k (np_resize rows n) = take k rows.
Proof.
  intros Hk Hn. unfold np_resize. rewrite take_take, Nat.min_l by lia. simpl.
  by rewrite take_app_le by lia.
Qed.

Lemma length_np_resize rows n : rows ≠ [] → length (np_resize rows n) = Z.to_nat n.
Proof.
  intros Hne. unfold np_resize. rewrite length_take.
  assert (∀ k, (k ≤ length (concat (replicate k rows)))%nat) as Hk.
  { induction k as [|k IH]; simpl; [lia|]. rewrite length_app. destruct rows; [done|simpl; lia]. }
  specialize (Hk (S (Z.to_nat n))). lia.
Qed.

Lemma reconcile_ok b n :
  buffer_ok b → 0 < cap b →
  ∃ b', reconcile n b = (Ret tt, b') ∧ buffer_ok b' ∧ datapoints b' = datapoints b ∧
    cap b ≤ cap b' ∧ n ≤ cap b'.
Proof.
  intros [Hc Hh] Hcap. unfold reconcile. py_unfold. destruct (Z.ltb_spec n (cap b)).
  { exists b. split_and!; try done; lia. }
  destruct (grow_loop_ok (Z.to_nat n) (cap b * 2) n) as (r & -> & Hr1 & Hr2); [lia..|].
  assert (cap (set_rows (np_resize (xy b) r) b) = r) as Hcap'.
  { unfold cap, py_len, set_rows. simpl. rewrite length_np_resize; [lia|].
    intros E. unfold cap in Hcap. rewrite E in Hcap. done. }
  eexists. split; [done|]. rewrite Hcap'. split_and!; try lia.
  - split; simpl; [rewrite Hcap'; lia|done].
  - rewrite !datapoints_take by (rewrite ?Hcap'; simpl; lia). simpl.
    apply np_resize_prefix; unfold cap, py_len in *; lia.
Qed.

(** Moving the rows [a .. b-1] to the front. *)
Lemma move_front rows a b :
  0 ≤ a → a ≤ b → b ≤ py_len rows →
  ∃ rows', np_assign rows 0 (b - a) (py_slice rows a b) = Ret rows' ∧ py_len rows' = py_len rows ∧
    take (Z.to_nat (b - a)) rows' = drop (Z.to_nat a) (take (Z.to_nat b) rows).
Proof.
  intros Ha Hab Hb. rewrite py_slice_take_drop by lia.
  set (vs := take (Z.to_nat (b - a)) (drop (Z.to_nat a) rows)).
  assert (length vs = Z.to_nat (b - a)) as Hvs.
  { unfold vs, py_len in *. rewrite length_take, length_drop. lia. }
  eexists. split; [apply np_assign_ok; unfold py_len in *; lia|]. simpl. split.
  - unfold py_len in *. rewrite length_app, length_drop. lia.
  - rewrite take_app_length' by done. unfold vs. rewrite skipn_firstn_comm. f_equal. lia.
Qed.

Lemma trim_head_ok b start :
  buffer_ok b →
  ∃ b', trim_head start b = (Ret tt, b') ∧ buffer_ok b' ∧ cap b' = cap b ∧
    datapoints b' = if 0 <? start then drop (Z.to_nat start) (datapoints b)
                    else keep_last (Z.to_nat (- start)) (datapoints b).
Proof.
  intros [Hc Hh]. pose proof (length_datapoints b Hc) as Hlen. unfold py_len in Hlen.
  unfold trim_head. py_unfold. rewrite Hh, Z.eqb_refl. simpl.
  assert (∀ l : list DataPoint, datapoints (mkDataBuffer l 0 0) = []) as Hnil.
  { intros l. unfold datapoints, py_slice. simpl. by rewrite !py_clamp_in by (unfold py_len; lia). }
  destruct (Z.leb_spec (commited b) start) as [Hle|Hlt].
  { eexists. split; [done|]. split; [split; simpl; unfold cap, py_len; simpl; lia|]. split; [done|].
    unfold set_both. rewrite Hnil. destruct (Z.ltb_spec 0 start); [by rewrite drop_ge by lia|].
    unfold keep_last. by rewrite drop_ge by lia. }
  destruct (Z.leb_spec start (- commited b)) as [Hle|Hgt].
  { exists b. split_and!; try done. destruct (Z.ltb_spec 0 start); [lia|].
    by rewrite keep_last_all by lia. }
  destruct (Z.ltb_spec 0 start) as [Hpos|Hneg].
  - destruct (move_front (xy b) start (commited b)) as (rows & Hr & Hl & Ht); [unfold cap in *; lia..|].
    rewrite Hr. simpl. eexists. split; [done|].
    assert (cap (set_both (commited b - start) (set_rows rows b)) = cap b) as Hcap by done.
    split; [split; [simpl; rewrite Hcap; lia|done]|]. split; [done|].
    rewrite !datapoints_take by (rewrite ?Hcap; simpl; lia). by simpl.
  - destruct (move_front (xy b) (commited b + start) (commited b)) as (rows & Hr & Hl & Ht);
      [unfold cap in *; lia..|].
    replace (commited b - (commited b + start)) with (- start) in Hr, Ht by lia.
    rewrite Hr. simpl. eexists. split; [done|].
    assert (cap (set_both (- start) (set_rows rows b)) = cap b) as Hcap by done.
    split; [split; [simpl; rewrite Hcap; lia|done]|]. split; [done|]. unfold keep_last.
    rewrite !datapoints_take by (rewrite ?Hcap; simpl; lia). simpl. rewrite Ht. f_equal.
    rewrite length_take. unfold cap, py_len in *. lia.
Qed.

(** After the trimming there is room for the points. *)
Lemma make_room b gap :
  buffer_ok b →
  ∃ b1, (if 0 <? gap then trim_head gap else ret tt) b = (Ret tt, b1) ∧ buffer_ok b1 ∧ cap b1 = cap b ∧
    datapoints b1 = drop (Z.to_nat gap) (datapoints b).
Proof.
  intros Hok. destruct (Z.ltb_spec 0 gap) as [Hg|Hg].
  - destruct (trim_head_ok b gap Hok) as (b1 & ? & ? & ? & Hd). exists b1.
    rewrite (proj2 (Z.ltb_lt 0 gap)) in Hd by lia. done.
  - exists b. split_and!; try done. by replace (Z.to_nat gap) with 0%nat by lia.
Qed.

(** [tokens[-n:]] of a list longer than [n], and the list itself otherwise. *)
Lemma keep_last_slice (tokens : list DataPoint) n :
  0 < n → (if n <? py_len tokens then py_slice tokens (- n) (py_len tokens) else tokens) =
          keep_last (Z.to_nat n) tokens.
Proof.
  intros Hn. unfold py_len, keep_last. destruct (Z.ltb_spec n (Z.of_nat (length tokens))).
  - unfold py_slice, py_clamp, py_norm_index, py_len.
    destruct (Z.ltb_spec (- n) 0), (Z.ltb_spec (Z.of_nat (length tokens)) 0); try lia.
    rewrite take_ge by (rewrite length_drop; lia). f_equal. lia.
  - by replace (length tokens - Z.to_nat n)%nat with 0%nat by lia.
Qed.

(** Writing behind the committed rows of an array with room. *)
Lemma write_behind b tokens :
  0 ≤ commited b → commited b + py_len tokens ≤ cap b →
  ∃ rows, np_assign (xy b) (commited b) (commited b + py_len tokens) tokens = Ret rows ∧
    py_len rows = cap b ∧ py_slice rows (commited b) (commited b + py_len tokens) = tokens ∧
    take (Z.to_nat (commited b + py_len tokens)) rows = take (Z.to_nat (commited b)) (xy b) ++ tokens.
Proof.
  intros Hc Hroom. pose proof (py_len_nonneg tokens). eexists.
  split; [apply np_assign_ok; unfold cap in *; lia|].
  assert (length (take (Z.to_nat (commited b)) (xy b)) = Z.to_nat (commited b)) as Htk.
  { rewrite length_take. unfold cap, py_len in *. lia. }
  set (rows := _ ++ _ ++ _).
  assert (py_len rows = cap b) as Hrows.
  { unfold rows, cap, py_len in *. rewrite !length_app, length_take, length_drop. lia. }
  split_and!; [done| |].
  - rewrite py_slice_take_drop by lia. unfold rows. rewrite drop_app_length' by done.
    rewrite take_app_length'; [done|]. unfold py_len. lia.
  - unfold rows. rewrite app_assoc, take_app_length'; [done|]. rewrite length_app, Htk. unfold py_len. lia.
Qed.

(** Appending and committing keeps the newest points that fit. *)
Lemma append_ok b tokens :
  buffer_ok b → 0 < cap b → tokens ≠ [] →
  ∃ b', append tokens false b = (Ret (keep_last (Z.to_nat (cap b)) tokens), b') ∧
    let b'' := (commit b').2 in
    buffer_ok b'' ∧ cap b'' = cap b ∧
    datapoints b'' = keep_last (Z.to_nat (cap b)) (datapoints b ++ tokens).
Proof.
  intros [Hc Hh] Hcap Hne. pose proof (length_datapoints b Hc) as Hlen. unfold py_len in Hlen.
  assert (0 < length tokens)%nat as Htl by (destruct tokens; [done|simpl; lia]).
  unfold append. unfold bind at 1, get at 1. cbn beta iota zeta. rewrite keep_last_slice by done.
  destruct (make_room b (commited b + py_len tokens - cap b)) as (b1 & H1 & [Hc1 Hh1] & Hcap1 & Hd1); [done|].
  pose proof (length_datapoints b1 Hc1) as Hlen1. rewrite Hd1 in Hlen1. unfold py_len at 1 in Hlen1.
  rewrite length_drop in Hlen1. unfold bind. rewrite H1. unfold get, lift, modify, ret.
  set (tokens' := keep_last (Z.to_nat (cap b)) tokens).
  assert (length tokens' = Nat.min (Z.to_nat (cap b)) (length tokens)) as Hlt' by apply length_keep_last.
  destruct (write_behind b1 tokens') as (rows & Hrows & Hlr & Hsl & Htake); [lia|unfold py_len in *; lia|].
  assert (tokens' = keep_last (Z.to_nat (cap b)) tokens) as Ht' by done. clearbody tokens'.
  destruct tokens' as [|t0 ts]; [simpl in Hlt'; lia|]. rewrite Hrows. cbn beta iota zeta. unfold set_rows. simpl. rewrite Hsl. eexists. split; [done|].
  simpl. rewrite Hh1. set (b'' := mkDataBuffer _ _ _).
  assert (cap b'' = cap b) as Hcap'' by (unfold b'', cap at 1; simpl; lia).
  assert (0 ≤ commited b'' ≤ cap b'') as Hc'' by (rewrite Hcap''; unfold b'', py_len in *; simpl in *; lia).
  split; [done|]. split; [done|]. rewrite (datapoints_take b'') by done. unfold b''. simpl.
  rewrite Htake, <-datapoints_take, Hd1, Ht' by done. unfold keep_last.
  rewrite length_app, drop_app. f_equal; f_equal; unfold py_len in *; lia.
Qed.
