(* ===== verification/Centeroid.v ===== *)
(** * Centres of request clusters

    Models [Centeroid] of
    [python/aibrix/aibrix/gpu_optimizer/load_monitor/helpers.py]: the running
    sums and ranges of the points of a cluster, and the index signature that maps
    its centre to a cell of a throughput table by binary search. Numbers are exact
    rationals; a span of minus infinity, which a clusterer without points has, is
    [None]. *)

From Stdlib Require Import Qabs.
From S2P Require Import Prelude Num LoadBuffer.

Open Scope Z_scope.
Open Scope py_scope.

Record Centeroid := mkCenteroid {
  sum_center : option (list Q);
  range_max : list Q;
  range_min : list Q;
  span_max : Q;
  span_min : Q;
  span_given : option Q;
  c_size : Z;
  c_signature : option (list Z);
  up_to_date : bool
}.

Definition signature_tolerance : Q := 1 # 2.

Definition new_Centeroid (span : option Q) : Centeroid :=
  mkCenteroid None [] [] 0 0 span 0 None false.

(** Python's [min(a, b)] and [max(a, b)] *)
Definition q_min (a b : Q) : Q := if Qle_bool a b then a else b.
Definition q_max (a b : Q) : Q := if Qle_bool b a then a else b.

Definition add (p : DataPoint) (c : Centeroid) : Centeroid :=
  match sum_center c with
  | None =>
    mkCenteroid (Some (signature p)) (signature p) (signature p) (age p) (age p) (span_given c)
      (c_size c + 1) (Some (replicate (length (signature p)) 0)) (up_to_date c)
  | Some s =>
    mkCenteroid (Some (zip_with Qplus s (signature p))) (zip_with q_max (range_max c) (signature p))
      (zip_with q_min (range_min c) (signature p)) (q_max (span_max c) (age p)) (q_min (span_min c) (age p))
      (span_given c) (c_size c + 1) (c_signature c) false
  end.

Definition center (c : Centeroid) : outcome (list Q) :=
  match sum_center c with
  | None => Raise TypeError
  | Some s => Ret ((λ v, v / inject_Z (c_size c))%Q <$> s)
  end.

Definition radius (c : Centeroid) : outcome Q :=
  match sum_center c, zip_with (λ hi lo, (hi - lo) / 2)%Q (range_max c) (range_min c) with
  | None, _ => Raise TypeError
  | _, [] => Raise ValueError
  | _, d :: ds => Ret (foldl q_max d ds)
  end.

Definition span (c : Centeroid) : Q :=
  match span_given c with
  | Some s => if Qle_bool s 0 then
                if Qeq_bool (span_max c) (span_min c) then 1%Q else (span_max c - span_min c)%Q
              else s
  | None => if Qeq_bool (span_max c) (span_min c) then 1%Q else (span_max c - span_min c)%Q
  end.

Definition rate (c : Centeroid) : Q := (inject_Z (c_size c) / span c)%Q.

Definition to_array (c : Centeroid) : outcome (list Q) :=
  try* ctr := center c in try* r := radius c in Ret (ctr ++ [r; rate c]).

(** ** The index signature *)

(** An error handler: dimension, value, index, value of the index, offset. *)
Abbreviation error_suppressor := (Z → Q → Z → Q → Q → bool).

Definition q_at (idx : list Q) (i : nat) : Q := default 0%Q (idx !! i).

(** [while left < right - 1: ...]: an index that equals the value, or the last
    interval around it. *)
Fixpoint search_loop (fuel : nat) (idx : list Q) (value : Q) (lo hi : nat) : outcome (nat + nat * nat) :=
  if (S lo <? hi)%nat then
    match fuel with
    | O => OutOfFuel
    | S fuel' =>
      let mid := ((lo + hi) / 2)%nat in
      if negb (Qle_bool (q_at idx mid) value) then search_loop fuel' idx value lo mid
      else if negb (Qle_bool value (q_at idx mid)) then search_loop fuel' idx value mid hi
      else Ret (inl mid)
    end
  else Ret (inr (lo, hi)).

(** The signature of one dimension; [None] leaves the old one. *)
Definition dim_signature (idx : list Q) (i : Z) (value : Q) (suppress : option error_suppressor) :
    outcome (option Z) :=
  match idx with
  | [] => Raise Exception_
  | [_] => Ret (Some 0)
  | first :: _ =>
    let top := (length idx - 1)%nat in
    let distance := ((q_at idx top - first) / inject_Z (Z.of_nat top))%Q in
    if negb (Qle_bool first value) then
      let offset := (- distance * (1 - signature_tolerance))%Q in
      if Qle_bool (first + offset) value then Ret (Some 0)
      else match suppress with
           | Some f => Ret (if f i value 0 first offset then Some 0 else None)
           | None => Raise Exception_
           end
    else if negb (Qle_bool value (q_at idx top)) then
      let offset := (distance * signature_tolerance)%Q in
      if Qle_bool value (first + offset) then Ret (Some (Z.of_nat top))
      else match suppress with
           | Some f => Ret (if f i value (Z.of_nat top) (q_at idx top) distance then Some (Z.of_nat top) else None)
           | None => Raise Exception_
           end
    else
      try* r := search_loop (length idx) idx value 0 top in
      match r with
      | inl mid => Ret (Some (Z.of_nat mid))
      | inr (lo, hi) =>
        Ret (Some (Z.of_nat (if negb (Qle_bool (q_at idx lo + (q_at idx hi - q_at idx lo) * signature_tolerance) value)
                             then lo else hi)))
      end
  end.

(** The loop over the dimensions: the entries written so far stay when a later
    dimension raises. *)
Fixpoint sig_loop (indexes : list (list Q)) (values : list Q) (i : nat) (suppress : option error_suppressor)
    (sig : list Z) : outcome unit * list Z :=
  match values with
  | [] => (Ret tt, sig)
  | v :: values' =>
    match indexes !! i with
    | None => (Raise IndexError, sig)
    | Some idx =>
      match dim_signature idx (Z.of_nat i) v suppress with
      | Ret r => sig_loop indexes values' (S i) suppress (match r with Some k => <[i := k]> sig | None => sig end)
      | Raise e => (Raise e, sig)
      | OutOfFuel => (OutOfFuel, sig)
      end
    end
  end.

(** The property [signature]. *)
Definition get_c_signature (c : Centeroid) : outcome (list Z) :=
  if up_to_date c then match c_signature c with Some s => Ret s | None => Raise TypeError end
  else Raise Exception_.

Definition set_signature (s : list Z) (done : bool) (c : Centeroid) : Centeroid :=
  mkCenteroid (sum_center c) (range_max c) (range_min c) (span_max c) (span_min c) (span_given c)
    (c_size c) (Some s) done.

Definition get_signature (indexes : list (list Q)) (suppress : option error_suppressor) : M Centeroid (list Z) := λ c,
  match c_signature c with
  | None => (Raise TypeError, c)
  | Some sig =>
    if negb (length sig =? length indexes)%nat then (Raise Exception_, c)
    else if up_to_date c then (get_c_signature c, c)
    else
      match center c with
      | Ret values =>
        match sig_loop indexes values 0 suppress sig with
        | (Ret _, s) => let c' := set_signature s true c in (get_c_signature c', c')
        | (Raise e, s) => (Raise e, set_signature s (up_to_date c) c)
        | (OutOfFuel, s) => (OutOfFuel, set_signature s (up_to_date c) c)
        end
      | Raise e => (Raise e, c)
      | OutOfFuel => (OutOfFuel, c)
      end
  end.

(** ** Lemmas: the search *)

Lemma dim_signature_one idx i value suppress :
  length idx = 1%nat → dim_signature idx i value suppress = Ret (Some 0).
Proof. destruct idx as [|? []]; done. Qed.

Lemma dim_signature_many idx i value suppress :
  (1 < length idx)%nat →
  dim_signature idx i value suppress =
    let first := q_at idx 0 in
    let top := (length idx - 1)%nat in
    let distance := ((q_at idx top - first) / inject_Z (Z.of_nat top))%Q in
    if negb (Qle_bool first value) then
      let offset := (- distance * (1 - signature_tolerance))%Q in
      if Qle_bool (first + offset) value then Ret (Some 0)
      else match suppress with
           | Some f => Ret (if f i value 0 first offset then Some 0 else None)
           | None => Raise Exception_
           end
    else if negb (Qle_bool value (q_at idx top)) then
      let offset := (distance * signature_tolerance)%Q in
      if Qle_bool value (first + offset) then Ret (Some (Z.of_nat top))
      else match suppress with
           | Some f => Ret (if f i value (Z.of_nat top) (q_at idx top) distance then Some (Z.of_nat top) else None)
           | None => Raise Exception_
           end
    else
      try* r := search_loop (length idx) idx value 0 top in
      match r with
      | inl mid => Ret (Some (Z.of_nat mid))
      | inr (lo, hi) =>
        Ret (Some (Z.of_nat (if negb (Qle_bool (q_at idx lo + (q_at idx hi - q_at idx lo) * signature_tolerance) value)
                             then lo else hi)))
      end.
Proof. destruct idx as [|? []]; simpl; [lia..|done]. Qed.

Section search.
Context (idx : list Q) (Hsort : ∀ i j, (i < j < length idx)%nat → (q_at idx i < q_at idx j)%Q).

Lemma q_at_mono i j : (i ≤ j < length idx)%nat → (q_at idx i <= q_at idx j)%Q.
Proof.
  intros Hij. destruct (decide (i = j)) as [->|]; [lra|]. apply Qlt_le_weak, Hsort. lia.
Qed.

(** [i] is a nearest index of the value. *)
Definition nearest (value : Q) (i : nat) : Prop :=
  (i < length idx)%nat ∧ ∀ j, (j < length idx)%nat → (Qabs (value - q_at idx i) <= Qabs (value - q_at idx j))%Q.

Ltac q_split := repeat match goal with
  | |- context [Qle_bool ?a ?b] => destruct (Qle_bool_spec a b)
  | H : context [Qle_bool ?a ?b] |- _ => destruct (Qle_bool_spec a b)
  end; cbn [negb] in *.

(** The loop keeps the value between its bounds and ends. *)
Lemma search_loop_ok fuel value lo hi :
  (hi - lo ≤ fuel)%nat → (lo < hi < length idx)%nat → (q_at idx lo <= value <= q_at idx hi)%Q →
  ∃ r, search_loop fuel idx value lo hi = Ret r ∧
    match r with
    | inl mid => (mid < length idx)%nat ∧ (q_at idx mid == value)%Q
    | inr (l, h) => h = S l ∧ (h < length idx)%nat ∧ (q_at idx l <= value <= q_at idx h)%Q
    end.
Proof.
  revert lo hi. induction fuel as [|fuel IH]; intros lo hi Hf Hb [Hv1 Hv2]; [lia|]. cbn [search_loop].
  destruct (Nat.ltb_spec (S lo) hi).
  - assert (lo < (lo + hi) / 2 < hi)%nat as Hm.
    { split; [apply Nat.div_le_lower_bound; lia|apply Nat.Div0.div_lt_upper_bound; lia]. }
    set (mid := ((lo + hi) / 2)%nat) in *.
    destruct (Qle_bool_spec (q_at idx mid) value); cbn [negb]; [|apply IH; [lia..|split; lra]].
    destruct (Qle_bool_spec value (q_at idx mid)); cbn [negb]; [|apply IH; [lia..|split; lra]].
    eexists. split; [done|]. split; [lia|lra].
  - eexists. split; [done|]. split_and!; [lia|lia|done|done].
Qed.

(** Between two neighbours, the nearer one is nearest of all. *)
Lemma nearest_neighbour value l :
  (S l < length idx)%nat → (q_at idx l <= value <= q_at idx (S l))%Q →
  nearest value (if negb (Qle_bool (q_at idx l + (q_at idx (S l) - q_at idx l) * signature_tolerance) value)
                 then l else S l).
Proof.
  intros Hl [H1 H2]. unfold nearest, signature_tolerance. q_split; (split; [lia|]); intros j Hj;
    (destruct (decide (j ≤ l)%nat) as [Hjl|Hjl];
     [pose proof (q_at_mono j l ltac:(lia))|pose proof (q_at_mono (S l) j ltac:(lia))]);
    apply Qabs_case; intros; apply Qabs_case; intros; lra.
Qed.

Lemma nearest_exact value i : (i < length idx)%nat → (q_at idx i == value)%Q → nearest value i.
Proof.
  intros Hi Heq. split; [done|]. intros j _. rewrite Heq. apply Qabs_case; intros; apply Qabs_case; intros; lra.
Qed.

Lemma nearest_below value : (0 < length idx)%nat → (value <= q_at idx 0)%Q → nearest value 0.
Proof.
  intros Hl Hv. split; [done|]. intros j Hj. pose proof (q_at_mono 0 j ltac:(lia)).
  apply Qabs_case; intros; apply Qabs_case; intros; lra.
Qed.

Lemma nearest_above value :
  (0 < length idx)%nat → (q_at idx (length idx - 1) <= value)%Q → nearest value (length idx - 1).
Proof.
  intros Hl Hv. split; [lia|]. intros j Hj. pose proof (q_at_mono j (length idx - 1) ltac:(lia)).
  apply Qabs_case; intros; apply Qabs_case; intros; lra.
Qed.

(** Inside the range of the indexes the signature is a nearest index, and no
    error handler is asked. *)
Lemma dim_signature_inside i value suppress :
  idx ≠ [] → (q_at idx 0 <= value <= q_at idx (length idx - 1))%Q →
  ∃ k, dim_signature idx i value suppress = Ret (Some (Z.of_nat k)) ∧ nearest value k.
Proof.
  intros Hne [Hv1 Hv2]. assert (0 < length idx)%nat by (by destruct (length idx) eqn:?; [apply nil_length_inv in Heqn|lia]).
  destruct (decide (length idx = 1%nat)) as [H1|H1].
  { rewrite dim_signature_one by done. exists 0%nat. split; [done|]. apply nearest_exact; [lia|].
    rewrite H1 in Hv2. simpl in Hv2. lra. }
  rewrite dim_signature_many by lia. cbn zeta.
  destruct (Qle_bool_spec (q_at idx 0) value); [|lra]. cbn [negb].
  destruct (Qle_bool_spec value (q_at idx (length idx - 1))); [|lra]. cbn [negb].
  destruct (search_loop_ok (length idx) value 0 (length idx - 1)) as (r & -> & Hr); [lia..|by split|]. cbn [obind].
  destruct r as [mid|[l h]].
  - destruct Hr as [Hm Heq]. exists mid. split; [done|]. by apply nearest_exact.
  - destruct Hr as (-> & Hh & Hv'). eexists. split; [done|]. by apply nearest_neighbour.
Qed.

(** The test for a value above the range compares with the first index: no such
    value passes it. *)
Lemma dim_signature_above i value suppress :
  (1 < length idx)%nat → (q_at idx (length idx - 1) < value)%Q →
  dim_signature idx i value suppress =
    match suppress with
    | Some f => Ret (if f i value (Z.of_nat (length idx - 1)) (q_at idx (length idx - 1))
                           ((q_at idx (length idx - 1) - q_at idx 0) / inject_Z (Z.of_nat (length idx - 1)))%Q
                     then Some (Z.of_nat (length idx - 1)) else None)
    | None => Raise Exception_
    end.
Proof.
  intros Hlen Hv. rewrite dim_signature_many by lia. cbn zeta.
  pose proof (q_at_mono 0 (length idx - 1) ltac:(lia)) as Hr.
  set (hi := q_at idx (length idx - 1)) in *. set (lo := q_at idx 0) in *.
  set (k := inject_Z (Z.of_nat (length idx - 1))).
  assert (1 <= k)%Q as Hk.
  { unfold k. change 1%Q with (inject_Z 1). rewrite <-Zle_Qle. lia. }
  assert (0 <= (hi - lo) / k <= hi - lo)%Q as Hd.
  { split; [apply Qle_shift_div_l; lra|]. apply Qle_shift_div_r; [lra|]. nra. }
  destruct (Qle_bool_spec lo value); [|lra]. destruct (Qle_bool_spec value hi); [lra|]. cbn [negb].
  destruct (Qle_bool_spec value (lo + (hi - lo) / k * signature_tolerance)) as [Hc|_]; [|done].
  unfold signature_tolerance in Hc. lra.
Qed.
(** With a handler that accepts everything, as the optimizer's does, the signature
    is a nearest index for every value. *)
Lemma dim_signature_total i value (f : error_suppressor) :
  idx ≠ [] → (∀ a b c d e, f a b c d e = true) →
  ∃ k, dim_signature idx i value (Some f) = Ret (Some (Z.of_nat k)) ∧ nearest value k.
Proof.
  intros Hne Hf. assert (0 < length idx)%nat by (by destruct (length idx) eqn:?; [apply nil_length_inv in Heqn|lia]).
  destruct (decide (length idx = 1%nat)) as [H1|H1].
  { rewrite dim_signature_one by done. exists 0%nat. split; [done|]. split; [lia|].
    intros j Hj. replace j with 0%nat by lia. lra. }
  destruct (Qlt_le_dec value (q_at idx 0)) as [Hlo|Hlo].
  { exists 0%nat. split; [|apply nearest_below; [lia|lra]]. rewrite dim_signature_many by lia. cbn zeta.
    destruct (Qle_bool_spec (q_at idx 0) value); [lra|]. cbn [negb]. rewrite Hf. by destruct (Qle_bool _ _). }
  destruct (Qlt_le_dec (q_at idx (length idx - 1)) value) as [Hhi|Hhi]; [|by apply dim_signature_inside].
  exists (length idx - 1)%nat. split; [|apply nearest_above; [lia|lra]].
  rewrite dim_signature_above by (lia || done). by rewrite Hf.
Qed.
End search.

(** ** Lemmas: the running sums *)

Definition add_all (ps : list DataPoint) (c : Centeroid) : Centeroid := foldl (λ c p, add p c) c ps.

Definition is_max (m : Q) (l : list Q) : Prop := m ∈ l ∧ ∀ x, x ∈ l → (x <= m)%Q.
Definition is_min (m : Q) (l : list Q) : Prop := m ∈ l ∧ ∀ x, x ∈ l → (m <= x)%Q.

Lemma is_max_snoc m x l : is_max m l → is_max (q_max m x) (l ++ [x]).
Proof.
  intros [Hin Hmax]. unfold q_max. destruct (Qle_bool_spec x m); (split; [set_solver|]);
    (intros y [Hy|Hy%list_elem_of_singleton]%elem_of_app; [|subst y; lra]); apply Hmax in Hy; lra.
Qed.

Lemma is_min_snoc m x l : is_min m l → is_min (q_min m x) (l ++ [x]).
Proof.
  intros [Hin Hmin]. unfold q_min. destruct (Qle_bool_spec m x); (split; [set_solver|]);
    (intros y [Hy|Hy%list_elem_of_singleton]%elem_of_app; [|subst y; lra]); apply Hmin in Hy; lra.
Qed.

Lemma Qsum_snoc l x : (Qsum (l ++ [x]) == Qsum l + x)%Q.
Proof. induction l as [|y l IH]; simpl; [lra|]. rewrite IH. lra. Qed.

(** What a centre knows of the points added to it. *)
Record summarizes (ps : list DataPoint) (c : Centeroid) : Prop := mkSummarizes {
  s_size : c_size c = py_len ps;
  s_sum : ∃ a b, sum_center c = Some [a; b] ∧ (a == Qsum (sig_x <$> ps))%Q ∧ (b == Qsum (sig_y <$> ps))%Q;
  s_max : ∃ a b, range_max c = [a; b] ∧ is_max a (sig_x <$> ps) ∧ is_max b (sig_y <$> ps);
  s_min : ∃ a b, range_min c = [a; b] ∧ is_min a (sig_x <$> ps) ∧ is_min b (sig_y <$> ps);
  s_span : is_max (span_max c) (age <$> ps) ∧ is_min (span_min c) (age <$> ps);
  s_sig : ∃ a b, c_signature c = Some [a; b];
  s_fresh : up_to_date c = false
}.

Lemma summarizes_snoc ps p c : summarizes ps c → summarizes (ps ++ [p]) (add p c).
Proof.
  intros [Hsz (a & b & Hs & Ha & Hb) (xa & xb & Hx & Hxa & Hxb) (na & nb & Hn & Hna & Hnb) [Hm Hm'] Hsig Hf].
  unfold add. rewrite Hs. split; cbn [c_size sum_center range_max range_min span_max span_min c_signature up_to_date];
    rewrite ?fmap_app; csimpl.
  - rewrite py_len_app, Hsz. done.
  - eexists _, _. split_and!; [done|..]; rewrite Qsum_snoc; [by rewrite Ha|by rewrite Hb].
  - rewrite Hx. eexists _, _. split_and!; [done|..]; by apply is_max_snoc.
  - rewrite Hn. eexists _, _. split_and!; [done|..]; by apply is_min_snoc.
  - split; [by apply is_max_snoc|by apply is_min_snoc].
  - done.
  - done.
Qed.

Lemma summarizes_first p span : summarizes [p] (add p (new_Centeroid span)).
Proof.
  assert (∀ x, is_max x [x] ∧ is_min x [x]) as H1.
  { intros x. split; (split; [by left|]); intros y ->%list_elem_of_singleton; lra. }
  split; csimpl; [done|..].
  - eexists _, _. split_and!; [done|lra..].
  - eexists _, _. split_and!; [done|apply H1..].
  - eexists _, _. split_and!; [done|apply H1..].
  - split; apply H1.
  - by eexists _, _.
  - done.
Qed.

Lemma add_all_summarizes ps span : ps ≠ [] → summarizes ps (add_all ps (new_Centeroid span)).
Proof.
  destruct ps as [|p ps]; [done|]. intros _. unfold add_all. simpl.
  assert (∀ qs c, summarizes qs c → summarizes (qs ++ ps) (foldl (λ c p, add p c) c ps)) as H.
  { clear p. induction ps as [|p ps IH]; intros qs c Hq; simpl; [by rewrite app_nil_r|].
    rewrite cons_middle, app_assoc. by apply IH, summarizes_snoc. }
  apply (H [p]), summarizes_first.
Qed.

(** ** Properties *)

Definition ascending (idx : list Q) : Prop :=
  idx ≠ [] ∧ ∀ i j, (i < j < length idx)%nat → (q_at idx i < q_at idx j)%Q.

(** The lookup of a centre that has not been looked up yet. *)
Lemma signature_ok ps c i1 i2 (f : error_suppressor) :
  summarizes ps c → ascending i1 → ascending i2 → (∀ a b c d e, f a b c d e = true) →
  let n := inject_Z (py_len ps) in
  ∃ k1 k2 c', get_signature [i1; i2] (Some f) c = (Ret [Z.of_nat k1; Z.of_nat k2], c') ∧
    nearest i1 (Qsum (sig_x <$> ps) / n) k1 ∧ nearest i2 (Qsum (sig_y <$> ps) / n) k2 ∧
    get_signature [i1; i2] (Some f) c' = (Ret [Z.of_nat k1; Z.of_nat k2], c').
Proof.
  intros [Hsz (a & b & Hs & Ha & Hb) _ _ _ (s1 & s2 & Hsig) Hup] [Hn1 Ha1] [Hn2 Ha2] Hf n.
  assert (Proper (Qeq ==> eq ==> iff) (nearest i1) ∧ Proper (Qeq ==> eq ==> iff) (nearest i2)) as [P1 P2].
  { split; intros x y Hxy k ? <-; unfold nearest; by setoid_rewrite Hxy. }
  destruct (dim_signature_total i1 Ha1 0 (a / inject_Z (c_size c)) f Hn1 Hf) as (k1 & E1 & N1).
  destruct (dim_signature_total i2 Ha2 1 (b / inject_Z (c_size c)) f Hn2 Hf) as (k2 & E2 & N2).
  exists k1, k2. unfold get_signature. rewrite Hsig, Hup. unfold center. rewrite Hs.
  cbn [negb length Nat.eqb fmap list_fmap sig_loop lookup list_lookup].
  change (Z.of_nat 0) with 0. change (Z.of_nat 1) with 1. rewrite E1. cbn [insert list_insert]. rewrite E2.
  cbn. eexists. split; [done|]. rewrite Ha, Hsz in N1. rewrite Hb, Hsz in N2. done.
Qed.

Lemma get_signature_up idx f c sig c' : get_signature idx f c = (Ret sig, c') → up_to_date c' = true.
Proof.
  unfold get_signature. destruct (c_signature c) as [s|]; [|done]. destruct (negb _); [done|].
  destruct (up_to_date c) eqn:Hu; [by intros [= _ <-]|]. destruct (center c) as [vs| |]; [|done..].
  destruct (sig_loop _ _ _ _ _) as [[] ?]; [|done..]. by intros [= _ <-].
Qed.

Lemma span_pos ps c : summarizes ps c → (0 < span c)%Q.
Proof.
  intros [_ _ _ _ [[Hx Hmax] [Hn Hmin]] _ _]. unfold span.
  assert (0 < if Qeq_bool (span_max c) (span_min c) then 1%Q else (span_max c - span_min c)%Q)%Q as Hd.
  { destruct (Qeq_bool _ _) eqn:E; [lra|]. apply Qeq_bool_neq in E. apply Hmax in Hn.
    destruct (Qlt_le_dec (span_min c) (span_max c)); [lra|]. destruct E. lra. }
  destruct (span_given c) as [g|]; [|done]. by destruct (Qle_bool_spec g 0).
Qed.

Lemma rate_pos ps c : ps ≠ [] → summarizes ps c → (0 < rate c)%Q.
Proof.
  intros Hne Hs. pose proof (span_pos ps c Hs). unfold rate. rewrite (s_size _ _ Hs).
  apply Qlt_shift_div_l; [done|]. rewrite Qmult_0_l. change 0%Q with (inject_Z 0). rewrite <-Zlt_Qlt.
  unfold py_len. destruct ps; [done|simpl; lia].
Qed.

(** The signature of a centre is a nearest cell. For points whose mean is
    looked up in two ascending lists of indexes with a handler that accepts values
    out of range, the call returns and each entry of the signature is the position
    of an index that no other index is nearer to the mean than; the binary search
    ends, and a second call returns the same signature. *)
Theorem signature_nearest (ps : list DataPoint) (given : option Q) (i1 i2 : list Q) (f : error_suppressor) :
  ps ≠ [] → ascending i1 → ascending i2 → (∀ a b c d e, f a b c d e = true) →
  let c := add_all ps (new_Centeroid given) in
  let n := inject_Z (py_len ps) in
  ∃ k1 k2 c', get_signature [i1; i2] (Some f) c = (Ret [Z.of_nat k1; Z.of_nat k2], c') ∧
    nearest i1 (Qsum (sig_x <$> ps) / n) k1 ∧ nearest i2 (Qsum (sig_y <$> ps) / n) k2 ∧
    get_signature [i1; i2] (Some f) c' = (Ret [Z.of_nat k1; Z.of_nat k2], c').
Proof.
  intros Hne H1 H2 Hf c n. apply (signature_ok ps c i1 i2 f); [by apply add_all_summarizes|done..].
Qed.

Definition demo_points : list DataPoint := [mkPoint 3 5 1; mkPoint 4 6 2; mkPoint 5 10 9]%Q.

Lemma demo_ascending : ascending [2; 3; 5; 8]%Q.
Proof.
  split; [done|]. intros i j Hij. simpl in Hij.
  do 4 (destruct j as [|j]; [do 4 (destruct i as [|i]; [try lia; reflexivity|]); lia|]). lia.
Qed.

Lemma signature_nearest_witness :
  let c := add_all demo_points (new_Centeroid None) in
  ∃ k1 k2 c', get_signature [[2; 3; 5; 8]%Q; [2; 3; 5; 8]%Q] (Some (λ _ _ _ _ _, true)) c =
      (Ret [Z.of_nat k1; Z.of_nat k2], c') ∧
    nearest [2; 3; 5; 8]%Q (Qsum (sig_x <$> demo_points) / inject_Z (py_len demo_points)) k1 ∧
    nearest [2; 3; 5; 8]%Q (Qsum (sig_y <$> demo_points) / inject_Z (py_len demo_points)) k2 ∧
    get_signature [[2; 3; 5; 8]%Q; [2; 3; 5; 8]%Q] (Some (λ _ _ _ _ _, true)) c' =
      (Ret [Z.of_nat k1; Z.of_nat k2], c').
Proof.
  apply (signature_nearest demo_points None [2; 3; 5; 8]%Q [2; 3; 5; 8]%Q (λ _ _ _ _ _, true));
    [discriminate|apply demo_ascending..|reflexivity].
Defined.

(** Out of range without a handler: a value up to half a step below the first
    index counts as the first, but every value above the last index raises, however
    near it is, because the upper test compares with the first index. *)
Theorem upper_tolerance_dead (idx : list Q) (i : Z) (value : Q) :
  ascending idx → (1 < length idx)%nat →
  let step := ((q_at idx (length idx - 1) - q_at idx 0) / inject_Z (Z.of_nat (length idx - 1)))%Q in
  ((q_at idx (length idx - 1) < value)%Q → dim_signature idx i value None = Raise Exception_) ∧
  ((q_at idx 0 - step * (1 # 2) <= value < q_at idx 0)%Q → dim_signature idx i value None = Ret (Some 0)).
Proof.
  intros [Hne Hs] Hlen step. split.
  - intros Hv. by rewrite dim_signature_above.
  - intros [H1 H2]. rewrite dim_signature_many by done. cbn zeta. fold step.
    destruct (Qle_bool_spec (q_at idx 0) value); [lra|]. cbn [negb].
    destruct (Qle_bool_spec (q_at idx 0 + - step * (1 - signature_tolerance)) value) as [|Hc]; [done|].
    unfold signature_tolerance in Hc. lra.
Qed.
