(* ===== verification/Clusterer.v ===== *)
(** * Clustering the load in a moving window

    Models [python/aibrix/aibrix/gpu_optimizer/load_monitor/clusterer.py]
    ([DBSCANClusterer], [MovingDBSCANClusterer]) and the part of
    [ModelMonitor._run_yieldable] (monitor.py) that reads new records into the
    data buffer and the clusterers. The incremental DBSCAN library is a parameter
    ([Dbscan]): points are inserted in batches, and labels are asked for points,
    NaN ([None]) for a point that was never inserted. Clock readings are
    arguments. *)

From stdpp Require Import sorting.
From S2P Require Import Prelude Num LoadBuffer Centeroid.

Open Scope Z_scope.
Open Scope py_scope.

Class Dbscan (D : Type) := {
  dbscan_new : Q → Z → D;
  dbscan_insert : list (list Q) → D → D;
  dbscan_labels : list (list Q) → D → list (option Z)
}.

(** One label per point, and a label for every point that was inserted. *)
Class DbscanLaws (D : Type) `{!Dbscan D} : Prop := {
  labels_length pts (d : D) : length (dbscan_labels pts d) = length pts;
  labels_known eps m (batches : list (list (list Q))) pts :
    Forall (λ p, p ∈ concat batches) pts →
    Forall is_Some (dbscan_labels pts (foldl (λ d b, dbscan_insert b d) (dbscan_new (D:=D) eps m) batches))
}.

(** ** [DBSCANClusterer] *)

(** [pt_start] is [None] while it is infinite. *)
Record DBSCANClusterer (D : Type) := mkClusterer {
  eps : Q;
  min_pts : Z;
  db : D;
  pt_start : option Q;
  pt_end : Q;
  d_length : Z;
  created : Q
}.

Arguments mkClusterer {D}.
Arguments eps {D}.
Arguments min_pts {D}.
Arguments db {D}.
Arguments pt_start {D}.
Arguments pt_end {D}.
Arguments d_length {D}.
Arguments created {D}.

(** [sys.maxsize] *)
Definition maxsize : Z := 2 ^ 63 - 1.

(** [centers[label].add(p)], a new centre for a new label. *)
Fixpoint center_add (label : Z) (fresh : Centeroid) (p : DataPoint) (centers : list (Z * Centeroid)) :
    list (Z * Centeroid) :=
  match centers with
  | [] => [(label, add p fresh)]
  | (l, c) :: rest => if l =? label then (l, add p c) :: rest else (l, c) :: center_add label fresh p rest
  end.

(** The loop over the labels: centres in the order of their first point, the
    least label, and the points of no cluster. *)
Record label_state := mkLabelState {
  centers : list (Z * Centeroid); start_label : Z; uncategorized : list DataPoint }.

Fixpoint label_loop (fresh : Centeroid) (points : list DataPoint) (i : nat) (labels : list (option Z))
    (st : label_state) : outcome label_state :=
  match labels with
  | [] => Ret st
  | None :: rest => label_loop fresh points (S i) rest st
  | Some label :: rest =>
    match points !! i with
    | None => Raise IndexError
    | Some p =>
      label_loop fresh points (S i) rest
        (if label <? 0 then mkLabelState (centers st) (start_label st) (uncategorized st ++ [p])
         else mkLabelState (center_add label fresh p (centers st)) (Z.min (start_label st) label) (uncategorized st))
    end
  end.

(** [labels[i] -= start_label] for the labels of clusters. *)
Definition relabel (start : Z) (labels : list (option Z)) : list (option Z) :=
  (λ l, match l with Some k => if 0 <=? k then Some (k - start) else Some k | None => None end) <$> labels.

(** What [get_cluster_labels] returns, the points of no cluster included. *)
Record cluster_result := mkResult {
  r_labels : list (option Z); r_centers : list Centeroid; r_uncategorized : list DataPoint }.

Section clusterer.
Context {D : Type} `{!Dbscan D}.

Abbreviation DB := (DBSCANClusterer D).

Definition new_DBSCANClusterer (now e : Q) (m : Z) : DB :=
  mkClusterer e m (dbscan_new e m) None 1 0 now.

Definition d_reset (now : Q) (c : DB) : DB := new_DBSCANClusterer now (eps c) (min_pts c).

Definition d_clone (now : Q) (c : DB) : DB := new_DBSCANClusterer now (eps c) (min_pts c).

(** [min] and [max] with the unpacked ages: of one number alone they raise. *)
Definition d_insert (points : list DataPoint) : M DB unit := λ c,
  let c1 := mkClusterer (eps c) (min_pts c) (dbscan_insert (signature <$> points) (db c)) (pt_start c) (pt_end c)
              (d_length c + py_len points) (created c) in
  match age <$> points with
  | [] => (Raise TypeError, c1)
  | a :: ages =>
    let lo := foldl q_min (match pt_start c with Some s => q_min s a | None => a end) ages in
    (Ret tt, mkClusterer (eps c) (min_pts c) (db c1) (Some lo) (foldl q_max (q_max (pt_end c) a) ages)
               (d_length c1) (created c))
  end.

(** [None] is minus infinity. *)
Definition d_window (c : DB) : option Q :=
  if Qeq_bool (pt_end c) 0 then Some 1%Q
  else match pt_start c with
       | Some s => if Qeq_bool (pt_end c) s then Some 1%Q else Some (pt_end c - s)%Q
       | None => None
       end.

Definition d_get_cluster_labels (points : list DataPoint) (c : DB) : outcome cluster_result :=
  let labels := dbscan_labels (signature <$> points) (db c) in
  try* st := label_loop (new_Centeroid (d_window c)) points 0 labels (mkLabelState [] maxsize []) in
  let start := if start_label st =? maxsize then 0 else start_label st in
  Ret (mkResult (if start =? 0 then labels else relabel start labels) (centers st).*2 (uncategorized st)).

(** ** [MovingDBSCANClusterer] *)

(** The window: a number of points, a time, or a test of the caller's. *)
Inductive window_test := PointsWindow (w : Z) | TimeWindow (w : Q) | CustomWindow (f : DB → bool).

Record MovingDBSCANClusterer := mkMoving {
  clusterers : list DB;
  frontier : Z;
  buffer_size : Z;
  window_cb : window_test
}.

Definition new_Moving (now e : Q) (m buffer : Z) (w : window_test) : MovingDBSCANClusterer :=
  mkMoving [new_DBSCANClusterer now e m] 0 buffer w.

Definition run_window_cb (now : Q) (mv : MovingDBSCANClusterer) (c : DB) : outcome bool :=
  match window_cb mv with
  | PointsWindow w =>
    if buffer_size mv =? 0 then Raise ZeroDivisionError
    else Ret (Qle_bool (inject_Z w / inject_Z (buffer_size mv)) (inject_Z (d_length c)))
  | TimeWindow w =>
    if buffer_size mv =? 0 then Raise ZeroDivisionError
    else Ret (Qle_bool (w / inject_Z (buffer_size mv)) (now - created c))
  | CustomWindow f => Ret (f c)
  end.

(** The index after the frontier: the clusterer that has been fed longest. *)
Definition current (mv : MovingDBSCANClusterer) : Z := (frontier mv + 1) mod py_len (clusterers mv).

Definition set_clusterers (cs : list DB) (f : Z) (mv : MovingDBSCANClusterer) : MovingDBSCANClusterer :=
  mkMoving cs f (buffer_size mv) (window_cb mv).

(** [True] when the data must be refreshed. *)
Definition validate (now : Q) : M MovingDBSCANClusterer bool :=
  let* mv := get in
  let* c := lift (py_index (clusterers mv) (frontier mv)) in
  let* due := lift (run_window_cb now mv c) in
  if negb due then ret false
  else
    let* cur := lift (py_index (clusterers mv) (current mv)) in
    if py_len (clusterers mv) <? buffer_size mv then
      modify (set_clusterers (clusterers mv ++ [d_clone now cur]) (py_len (clusterers mv))) ;;
      ret false
    else
      let* cs := lift (py_setitem (clusterers mv) (current mv) (d_reset now cur)) in
      modify (set_clusterers cs (current mv)) ;;
      ret true.

(** [for clusterer in self.clusterers: clusterer.insert(points)] *)
Fixpoint insert_each (points : list DataPoint) (cs : list DB) : outcome unit * list DB :=
  match cs with
  | [] => (Ret tt, [])
  | c :: rest =>
    match d_insert points c with
    | (Ret _, c') => let '(o, rest') := insert_each points rest in (o, c' :: rest')
    | (o, c') => (o, c' :: rest)
    end
  end.

Definition m_insert (points : list DataPoint) : M MovingDBSCANClusterer unit := λ mv,
  let '(o, cs) := insert_each points (clusterers mv) in (o, set_clusterers cs (frontier mv) mv).

Definition m_reset (now : Q) : M MovingDBSCANClusterer unit :=
  let* mv := get in
  let* c := lift (py_index (clusterers mv) 0) in
  modify (set_clusterers [d_clone now c] 0).

Definition active (mv : MovingDBSCANClusterer) : outcome DB := py_index (clusterers mv) (current mv).

Definition m_length (mv : MovingDBSCANClusterer) : outcome Z := try* c := active mv in Ret (d_length c).

Definition m_window (mv : MovingDBSCANClusterer) : outcome (option Q) := try* c := active mv in Ret (d_window c).

Definition m_get_cluster_labels (points : list DataPoint) (mv : MovingDBSCANClusterer) : outcome cluster_result :=
  try* c := active mv in d_get_cluster_labels points c.

(** ** Reading the load: the first half of a turn of [_run_yieldable] *)

Record window_state := mkWindow { moving : MovingDBSCANClusterer; data : DataBuffer }.

Definition on_moving {A} : M MovingDBSCANClusterer A → M window_state A :=
  zoom moving (λ mv w, mkWindow mv (data w)).
Definition on_data {A} : M DataBuffer A → M window_state A :=
  zoom data (λ d w, mkWindow (moving w) d).

Definition active_length : M window_state Z := let* w := get in lift (m_length (moving w)).

Definition load_turn (now : Q) (tokens : list DataPoint) : M window_state cluster_result :=
  let* refresh := on_moving (validate now) in
  (if refresh : bool then let* n := active_length in on_data (trim_head (- n)) else ret tt) ;;
  match tokens with
  | [] => ret tt
  | _ =>
    let* n := active_length in
    on_data (reconcile (n + py_len tokens)) ;;
    let* dps := on_data (append tokens false) in
    on_moving (m_insert dps) ;;
    on_data commit
  end ;;
  let* w := get in
  if 0 <? commited (data w) then lift (m_get_cluster_labels (datapoints (data w)) (moving w))
  else ret (mkResult [] [] []).

End clusterer.

Arguments window_test : clear implicits.
Arguments MovingDBSCANClusterer : clear implicits.
Arguments window_state : clear implicits.

(** ** The abstract window

    A generation is the list of batches a clusterer was fed since it was reset.
    The abstract window is the list of generations, oldest first: a turn may open
    a new generation, dropping the oldest one when the buffer is full, and adds
    its batch to all of them. The points in force are those of the oldest. *)

Abbreviation generation := (list (list DataPoint)).

Inductive rotated : bool → list generation → list generation → Prop :=
| rot_none gens : rotated false gens gens
| rot_open gens : rotated false gens (gens ++ [[]])
| rot_drop g gens : rotated true (g :: gens) (gens ++ [[]]).

Definition fed_all (tokens : list DataPoint) (gens : list generation) : list generation :=
  match tokens with [] => gens | _ => (λ g, g ++ [tokens]) <$> gens end.

Inductive spec_turn (tokens : list DataPoint) : list generation → list generation → Prop :=
| spec_turn_intro r gens gens' : rotated r gens gens' → spec_turn tokens gens (fed_all tokens gens').

Definition in_force (gens : list generation) : list DataPoint := concat (default [] (head gens)).

(** ** Lemmas: the clusterers *)

Section refinement.
Context {D : Type} `{!Dbscan D} {DL : DbscanLaws D} (e : Q) (m : Z).

Implicit Types (mv : MovingDBSCANClusterer D) (c : DBSCANClusterer D) (w : window_state D).

Definition fed (c : DBSCANClusterer D) (g : generation) : Prop :=
  eps c = e ∧ min_pts c = m ∧
  db c = foldl (λ d b, dbscan_insert b d) (dbscan_new e m) ((λ b : list DataPoint, signature <$> b) <$> g) ∧
  d_length c = py_len (concat g).

Lemma fed_fresh now : fed (new_DBSCANClusterer now e m) [].
Proof. done. Qed.

Lemma fed_insert b c g : b ≠ [] → fed c g → ∃ c', d_insert b c = (Ret tt, c') ∧ fed c' (g ++ [b]).
Proof.
  intros Hb (He & Hm & Hdb & Hlen). unfold d_insert. destruct b as [|p b]; [done|].
  eexists. split; [done|]. split_and!; [done..| |]; simpl.
  - rewrite Hdb, fmap_app, foldl_app. done.
  - rewrite Hlen, concat_app, py_len_app. simpl. by rewrite app_nil_r.
Qed.

Lemma insert_each_ok b cs gs :
  b ≠ [] → Forall2 fed cs gs →
  ∃ cs', insert_each b cs = (Ret tt, cs') ∧ Forall2 fed cs' ((λ g, g ++ [b]) <$> gs).
Proof.
  intros Hb. induction 1 as [|c g cs gs Hc _ (cs' & IH & IH')]; simpl; [by exists []|].
  destruct (fed_insert b c g Hb Hc) as (c' & -> & Hc'). rewrite IH. exists (c' :: cs'). split; [done|by constructor].
Qed.

(** The clusterers up to the frontier were reset after those behind it. *)
Definition moving_ok (mv : MovingDBSCANClusterer D) (gens : list generation) : Prop :=
  1 ≤ buffer_size mv ∧
  ∃ l1 l2, clusterers mv = l1 ++ l2 ∧ l1 ≠ [] ∧ frontier mv = py_len l1 - 1 ∧
    Forall2 fed (l2 ++ l1) gens ∧ (py_len (clusterers mv) < buffer_size mv → l2 = []).

Lemma run_window_cb_ok now mv c : 1 ≤ buffer_size mv → ∃ due, run_window_cb now mv c = Ret due.
Proof.
  intros Hb. unfold run_window_cb. destruct (Z.eqb_spec (buffer_size mv) 0); [lia|].
  destruct (window_cb mv); eauto.
Qed.

Lemma py_index_mid {A} (l1 : list A) x l2 : py_index (l1 ++ x :: l2) (py_len l1) = Ret x.
Proof.
  apply py_index_lookup; [apply py_len_nonneg|]. unfold py_len. by rewrite Nat2Z.id, list_lookup_middle.
Qed.

Lemma py_setitem_mid {A} (l1 : list A) x y l2 :
  py_setitem (l1 ++ x :: l2) (py_len l1) y = Ret (l1 ++ y :: l2).
Proof.
  unfold py_setitem, py_norm_index. pose proof (py_len_nonneg l1).
  destruct (Z.ltb_spec (py_len l1) 0); [lia|]. destruct (Z.ltb_spec (py_len l1) 0); [lia|].
  destruct (Z.leb_spec (py_len (l1 ++ x :: l2)) (py_len l1)) as [Hle|_].
  { rewrite py_len_app in Hle. unfold py_len in Hle. simpl in Hle. lia. }
  simpl. unfold py_len. by rewrite Nat2Z.id, insert_app_r_alt, Nat.sub_diag by done.
Qed.

(** The index after the frontier is that of the oldest clusterer. *)
Lemma current_split mv gens :
  moving_ok mv gens →
  ∃ pre c post, clusterers mv = pre ++ c :: post ∧ current mv = py_len pre ∧
    ∃ g gens', gens = g :: gens' ∧ fed c g ∧
      (pre = [] ∧ frontier mv = py_len post ∧ Forall2 fed post gens' ∨
       pre ≠ [] ∧ frontier mv = py_len pre - 1 ∧ Forall2 fed (post ++ pre) gens').
Proof.
  intros (_ & l1 & l2 & Hcs & Hne & Hf & Hfed & _). unfold current. rewrite Hcs, Hf.
  replace (py_len l1 - 1 + 1) with (py_len l1) by lia.
  destruct l2 as [|c l2].
  - destruct l1 as [|c l1]; [done|]. exists [], c, l1. rewrite app_nil_r. split; [done|].
    split; [apply Z.mod_same; unfold py_len; simpl; lia|].
    apply Forall2_cons_inv_l in Hfed as (g & gens' & Hg & Hgs & ->).
    exists g, gens'. split_and!; [done..|]. left. split_and!; [done| |done]. unfold py_len. simpl. lia.
  - exists l1, c, l2. split; [done|]. split.
    + apply Z.mod_small. rewrite py_len_app. unfold py_len. simpl. lia.
    + simpl in Hfed. apply Forall2_cons_inv_l in Hfed as (g & gens' & Hg & Hgs & ->).
      exists g, gens'. split_and!; [done..|]. right. done.
Qed.

Lemma active_ok mv gens :
  moving_ok mv gens → ∃ c g gens', gens = g :: gens' ∧ active mv = Ret c ∧ fed c g.
Proof.
  intros (pre & c & post & Hcs & Hcur & g & gens' & -> & Hc & _)%current_split.
  exists c, g, gens'. split_and!; [done| |done]. unfold active. rewrite Hcs, Hcur. apply py_index_mid.
Qed.

Lemma validate_ok now mv gens :
  moving_ok mv gens →
  ∃ r mv' gens', validate now mv = (Ret r, mv') ∧ moving_ok mv' gens' ∧ rotated r gens gens'.
Proof.
  intros Hok. pose proof Hok as (Hb & l1 & l2 & Hcs & Hne & Hf & Hfed & Hgrow).
  destruct (current_split mv gens Hok) as (pre & c & post & Hcs' & Hcur & g & gens' & Hgens & (He & Hm & _) & Hcase).
  assert (∃ fc, py_index (clusterers mv) (frontier mv) = Ret fc) as [fc Hfc].
  { destruct l1 as [|x l1 _] using rev_ind; [done|]. exists x. rewrite Hcs, Hf, py_len_app, <-app_assoc.
    replace (py_len l1 + py_len [x] - 1) with (py_len l1) by (unfold py_len; simpl; lia). apply py_index_mid. }
  destruct (run_window_cb_ok now mv fc Hb) as [due Hdue].
  unfold validate. py_unfold. rewrite Hfc, Hdue. destruct due; simpl; [|exists false, mv, gens; split_and!; [done|done|apply rot_none]].
  rewrite Hcur, Hcs', py_index_mid. rewrite <-Hcs'.
  destruct (Z.ltb_spec (py_len (clusterers mv)) (buffer_size mv)) as [Hlt|Hge].
  - exists false, (set_clusterers (clusterers mv ++ [d_clone now c]) (py_len (clusterers mv)) mv), (gens ++ [[]]).
    split_and!; [done| |apply rot_open].
    split; [done|]. rewrite (Hgrow Hlt) in *. rewrite app_nil_r in Hcs. simpl in *.
    exists (l1 ++ [d_clone now c]), []. rewrite Hcs. split_and!; [by rewrite app_nil_r|by destruct l1| |..].
    + rewrite py_len_app. unfold py_len at 3. simpl. lia.
    + simpl. apply Forall2_app; [done|]. constructor; [|done]. unfold d_clone. rewrite He, Hm. apply fed_fresh.
    + done.
  - rewrite Hcs', py_setitem_mid. simpl.
    eexists true, _, (gens' ++ [[]]). split_and!; [done| |rewrite Hgens; apply rot_drop].
    assert (fed (d_reset now c) []) as Hfresh by (unfold d_reset; rewrite He, Hm; apply fed_fresh).
    split; [done|]. simpl. exists (pre ++ [d_reset now c]), post.
    split_and!; [by rewrite <-app_assoc|by destruct pre| | |].
    + rewrite py_len_app. unfold py_len at 3. simpl. lia.
    + rewrite app_assoc. apply Forall2_app; [|by constructor].
      destruct Hcase as [(-> & _ & ?)|(_ & _ & ?)]; by rewrite ?app_nil_r.
    + intros Hlt. rewrite Hcs' in Hge. unfold py_len in *. rewrite length_app in *. simpl in *. lia.
Qed.

Lemma m_insert_ok b mv gens :
  b ≠ [] → moving_ok mv gens →
  ∃ mv', m_insert b mv = (Ret tt, mv') ∧ moving_ok mv' ((λ g, g ++ [b]) <$> gens).
Proof.
  intros Hb (Hbs & l1 & l2 & Hcs & Hne & Hf & Hfed & Hgrow). unfold m_insert.
  apply Forall2_app_inv_l in Hfed as (g2 & g1 & H2 & H1 & ->).
  destruct (insert_each_ok b (l1 ++ l2) (g1 ++ g2) Hb (Forall2_app H1 H2)) as (cs & Hins & Hcs').
  rewrite Hcs, Hins. rewrite fmap_app in Hcs'. apply Forall2_app_inv_r in Hcs' as (k1 & k2 & H1' & H2' & ->).
  assert (length k1 = length l1) as Hl1
    by (apply Forall2_length in H1, H1'; rewrite length_fmap in H1'; lia).
  assert (length k2 = length l2) as Hl2
    by (apply Forall2_length in H2, H2'; rewrite length_fmap in H2'; lia).
  eexists. split; [done|]. split; [done|]. simpl. exists k1, k2.
  split_and!; [done|by destruct k1, l1|unfold py_len in *; lia|rewrite fmap_app; by apply Forall2_app|].
  intros Hlt. destruct k2; [done|]. unfold py_len in *. rewrite length_app in *.
  rewrite Hgrow in Hl2; [done|]. rewrite Hcs, length_app. simpl in *. lia.
Qed.

(** ** Lemmas: the labels *)

Definition label_step (fresh : Centeroid) (st : label_state) (pl : DataPoint * option Z) : label_state :=
  match pl.2 with
  | None => st
  | Some label =>
    if label <? 0 then mkLabelState (centers st) (start_label st) (uncategorized st ++ [pl.1])
    else mkLabelState (center_add label fresh pl.1 (centers st)) (Z.min (start_label st) label) (uncategorized st)
  end.

Lemma label_loop_fold fresh points i labels st :
  (i + length labels ≤ length points)%nat →
  label_loop fresh points i labels st = Ret (foldl (label_step fresh) st (zip (drop i points) labels)).
Proof.
  revert i st. induction labels as [|l labels IH]; intros i st Hl; simpl in *.
  { by destruct (drop i points). }
  destruct (lookup_lt_is_Some_2 points i) as [p Hp]; [lia|].
  rewrite (drop_S points p i Hp). simpl. destruct l as [label|]; [rewrite Hp|]; apply IH; lia.
Qed.

(** The active clusterer labels all the points it was fed. *)
Lemma d_labels_ok c g :
  fed c g →
  ∃ res, d_get_cluster_labels (concat g) c = Ret res ∧ length (r_labels res) = length (concat g) ∧
    Forall is_Some (r_labels res).
Proof.
  intros (_ & _ & Hdb & _). unfold d_get_cluster_labels.
  pose proof (labels_length (signature <$> concat g) (db c)) as Hl. rewrite length_fmap in Hl.
  rewrite label_loop_fold by lia. cbn [obind].
  assert (Forall is_Some (dbscan_labels (signature <$> concat g) (db c))) as Hs.
  { rewrite Hdb. apply labels_known. apply Forall_fmap, Forall_forall. intros p Hp. simpl.
    apply elem_of_concat in Hp as (b & Hb & Hp). apply elem_of_concat. exists (signature <$> b).
    split; [by apply list_elem_of_fmap_2|]. by apply list_elem_of_fmap_2. }
  eexists. split; [done|]. cbn [r_labels].
  set (start := if _ =? maxsize then _ else _). destruct (start =? 0); [done|].
  unfold relabel. rewrite length_fmap. split; [done|]. apply Forall_fmap.
  eapply Forall_impl; [done|]. intros [k|]; simpl; [by case_match|by intros []].
Qed.

(** ** Lemmas: a turn *)

(** Later generations are made of the last batches of earlier ones; the buffer
    holds the points in force. *)
Record window_inv (w : window_state D) (gens : list generation) : Prop := mkWindowInv {
  wi_moving : moving_ok (moving w) gens;
  wi_nested : StronglySorted (λ g g', g' `suffix_of` g) gens;
  wi_buffer : buffer_ok (data w);
  wi_cap : 0 < cap (data w);
  wi_data : datapoints (data w) = in_force gens
}.

Lemma nested_snoc gens :
  StronglySorted (λ g g' : generation, g' `suffix_of` g) gens →
  StronglySorted (λ g g' : generation, g' `suffix_of` g) (gens ++ [[]]).
Proof.
  induction 1 as [|g gens _ IH Hg]; simpl; [by repeat constructor|]. constructor; [done|].
  apply Forall_app. split; [done|]. constructor; [apply suffix_nil|done].
Qed.

Lemma nested_fed b gens :
  StronglySorted (λ g g' : generation, g' `suffix_of` g) gens →
  StronglySorted (λ g g' : generation, g' `suffix_of` g) ((λ g, g ++ [b]) <$> gens).
Proof.
  induction 1 as [|g gens _ IH Hg]; csimpl; [constructor|]. constructor; [done|]. apply Forall_fmap.
  eapply Forall_impl; [done|]. intros g' Hs. simpl. by apply suffix_app.
Qed.

Lemma keep_last_suffix (g g' : generation) :
  g' `suffix_of` g → keep_last (length (concat g')) (concat g) = concat g'.
Proof.
  intros [k ->]. rewrite concat_app. unfold keep_last. rewrite length_app, Nat.add_sub. apply drop_app_length.
Qed.

Lemma nested_rotated r gens gens' :
  rotated r gens gens' → StronglySorted (λ g g' : generation, g' `suffix_of` g) gens →
  StronglySorted (λ g g' : generation, g' `suffix_of` g) gens'.
Proof.
  intros [] Hs; [done|by apply nested_snoc|]. apply nested_snoc. by inversion Hs.
Qed.

(** The first part of a turn: rotate, and keep the points of the new oldest
    generation. *)
Lemma refresh_ok now w gens :
  window_inv w gens →
  ∃ w' gens' r, (let* refresh := on_moving (validate now) in
      if refresh : bool then let* n := active_length in on_data (trim_head (- n)) else ret tt)%py w = (Ret tt, w') ∧
    rotated r gens gens' ∧ window_inv w' gens'.
Proof.
  intros [Hmv Hn Hb Hcap Hd]. destruct (validate_ok now (moving w) gens Hmv) as (r & mv' & gens' & Hv & Hmv' & Hrot).
  pose proof (nested_rotated _ _ _ Hrot Hn) as Hn'.
  unfold bind at 1, on_moving, zoom. rewrite Hv. destruct r.
  - destruct (active_ok mv' gens' Hmv') as (c & g' & rest & -> & Hact & (_ & _ & _ & Hlen)).
    destruct (trim_head_ok (data w) (- d_length c) Hb) as (b' & Htrim & Hb' & Hcap' & Hd').
    unfold active_length, m_length, bind, get, lift, on_data, zoom. simpl. rewrite Hact. simpl. rewrite Htrim.
    eexists _, (g' :: rest), true. split; [done|]. split; [done|]. split; simpl; [done..|lia|].
    rewrite Hd'. destruct (Z.ltb_spec 0 (- d_length c)) as [Hneg|_]; [unfold py_len in *; lia|].
    rewrite Hd, Z.opp_involutive, Hlen. unfold py_len, in_force. rewrite Nat2Z.id. simpl.
    apply keep_last_suffix. inversion Hrot; subst; simpl.
    destruct gens0 as [|g1 gens1]; simplify_eq/=; [apply suffix_nil|].
    inversion Hn as [|? ? _ Hall]; subst. by inversion Hall.
  - eexists _, gens', false. split; [done|]. split; [done|]. split; simpl; [done..|].
    rewrite Hd. unfold in_force. inversion Hrot; subst; [done|]. by destruct gens.
Qed.

(** The second part: the new points go to the buffer and to every clusterer, and
    the buffer has room for them. *)
Lemma feed_ok tokens w gens :
  window_inv w gens → tokens ≠ [] →
  ∃ w', (let* n := active_length in
         on_data (reconcile (n + py_len tokens)) ;;
         let* dps := on_data (append tokens false) in
         on_moving (m_insert dps) ;;
         on_data commit)%py w = (Ret tt, w') ∧ window_inv w' ((λ g, g ++ [tokens]) <$> gens).
Proof.
  intros [Hmv Hn Hb Hcap Hd] Hne.
  destruct (active_ok (moving w) gens Hmv) as (c & g & rest & Hgens & Hact & (_ & _ & _ & Hlen)).
  destruct (reconcile_ok (data w) (d_length c + py_len tokens) Hb Hcap) as (b1 & Hrec & Hb1 & Hd1 & Hcap1 & Hroom).
  destruct (append_ok b1 tokens Hb1 ltac:(lia) Hne) as (b2 & Happ & Hb2 & Hcap2 & Hd2).
  destruct (m_insert_ok tokens (moving w) gens Hne Hmv) as (mv' & Hins & Hmv').
  rewrite Hd1, Hd in Hd2. rewrite Hgens in Hd2. unfold in_force in Hd2. simpl in Hd2.
  assert (length (concat g) + length tokens ≤ Z.to_nat (cap b1))%nat as Hfit by (unfold py_len in *; lia).
  rewrite keep_last_all in Hd2 by (rewrite length_app; lia).
  rewrite keep_last_all in Happ by lia.
  unfold active_length, m_length, bind, get, lift, on_data, on_moving, zoom. simpl. rewrite Hact. simpl.
  rewrite Hrec. simpl. rewrite Happ. simpl. rewrite Hins. simpl.
  eexists. split; [done|]. split; simpl; [done|by apply nested_fed|done|..].
  - unfold commit, modify in Hcap2. simpl in Hcap2. unfold cap in *. simpl in *. lia.
  - unfold commit, modify in Hd2. simpl in Hd2. rewrite Hd2, Hgens. unfold in_force. csimpl.
    rewrite concat_app. simpl. by rewrite app_nil_r.
Qed.

Lemma load_turn_ok now tokens w gens :
  window_inv w gens →
  ∃ res w' gens', load_turn now tokens w = (Ret res, w') ∧ spec_turn tokens gens gens' ∧ window_inv w' gens' ∧
    length (r_labels res) = length (in_force gens') ∧ Forall is_Some (r_labels res).
Proof.
  intros Hw. destruct (refresh_ok now w gens Hw) as (w1 & gens1 & r & H1 & Hrot & Hw1).
  unfold load_turn. rewrite bind_bind. rewrite (bind_Ret _ _ _ _ _ H1). clear H1.
  assert (∃ w2, (match tokens with
     | [] => ret tt
     | _ => let* n := active_length in
            on_data (reconcile (n + py_len tokens)) ;;
            let* dps := on_data (append tokens false) in
            on_moving (m_insert dps) ;; on_data commit
     end)%py w1 = (Ret tt, w2) ∧ window_inv w2 (fed_all tokens gens1)) as (w2 & H2 & Hw2).
  { destruct tokens as [|t ts]; [by exists w1|]. by apply feed_ok. }
  rewrite (bind_Ret _ _ _ _ _ H2). clear H2.
  assert (spec_turn tokens gens (fed_all tokens gens1)) as Hspec by by econstructor.
  unfold bind, get, lift, ret. destruct Hw2 as [Hmv2 Hn2 Hb2 Hcap2 Hd2].
  destruct (active_ok _ _ Hmv2) as (c & g & rest & Hg & Hact & Hfed).
  pose proof (length_datapoints (data w2) (proj1 Hb2)) as Hl.
  assert (in_force (fed_all tokens gens1) = concat g) as Hforce by by rewrite Hg.
  destruct (Z.ltb_spec 0 (commited (data w2))).
  - destruct (d_labels_ok c g Hfed) as (res & Hres & Hlen & Hs). unfold m_get_cluster_labels.
    rewrite Hact, Hd2, Hforce. simpl. rewrite Hres. eexists res, w2, _. split_and!; [done..|by rewrite Hforce|done].
  - eexists (mkResult [] [] []), w2, _. split_and!; [done..| |constructor].
    rewrite <-Hd2. unfold py_len in Hl. destruct Hb2. simpl. lia.
Qed.

End refinement.

(** ** Lemmas: the clusters partition the points *)

(** The points with a label, in order. *)
Definition labelled (k : Z) (zs : list (DataPoint * option Z)) : list DataPoint :=
  omap (λ pl, if decide (pl.2 = Some k) then Some pl.1 else None) zs.

Definition noise (zs : list (DataPoint * option Z)) : list DataPoint :=
  omap (λ pl, match pl.2 with Some k => if k <? 0 then Some pl.1 else None | None => None end) zs.

(** The labels of clusters in the order of their first point. *)
Definition add_key (keys : list Z) (pl : DataPoint * option Z) : list Z :=
  match pl.2 with
  | Some k => if (k <? 0) || bool_decide (k ∈ keys) then keys else keys ++ [k]
  | None => keys
  end.

Definition cluster_keys (zs : list (DataPoint * option Z)) : list Z := foldl add_key [] zs.

Lemma labelled_snoc k zs pl :
  labelled k (zs ++ [pl]) = labelled k zs ++ (if decide (pl.2 = Some k) then [pl.1] else []).
Proof. unfold labelled. rewrite omap_app. csimpl. by case_decide. Qed.

Lemma cluster_keys_snoc zs pl : cluster_keys (zs ++ [pl]) = add_key (cluster_keys zs) pl.
Proof. unfold cluster_keys. by rewrite foldl_snoc. Qed.

Lemma cluster_keys_spec zs :
  NoDup (cluster_keys zs) ∧ ∀ k, k ∈ cluster_keys zs ↔ 0 ≤ k ∧ labelled k zs ≠ [].
Proof.
  induction zs as [|[p l] zs [Hnd Hin]] using rev_ind; [split; [constructor|]; intros k; set_solver|].
  setoid_rewrite labelled_snoc. rewrite cluster_keys_snoc. unfold add_key. simpl.
  destruct l as [label|]; [|setoid_rewrite decide_False; [setoid_rewrite app_nil_r|]; done].
  destruct (Z.ltb_spec label 0); simpl.
  { split; [done|]. intros k. rewrite Hin. case_decide as Hk; [|by rewrite app_nil_r].
    simplify_eq. split; intros [? ?]; lia. }
  case_bool_decide as Hk.
  - split; [done|]. intros k. rewrite Hin. case_decide; [|by rewrite app_nil_r].
    simplify_eq. apply Hin in Hk as [? ?]. destruct (labelled k zs); set_solver.
  - split; [apply NoDup_app; set_solver by eauto using NoDup_singleton|]. intros k.
    rewrite elem_of_app, list_elem_of_singleton, Hin. case_decide; simplify_eq.
    + split; [|auto]. intros _. split; [done|]. by destruct (labelled k zs).
    + rewrite app_nil_r. split; [|auto]. intros [?| ->]; [done|congruence].
Qed.

Lemma center_add_map (label : Z) (fresh : Centeroid) (p : DataPoint) (F : Z → Centeroid) (keys : list Z) :
  NoDup keys → (label ∉ keys → F label = fresh) →
  center_add label fresh p ((λ k, (k, F k)) <$> keys) =
    (λ k, (k, if decide (k = label) then add p (F k) else F k)) <$>
      (if bool_decide (label ∈ keys) then keys else keys ++ [label]).
Proof.
  intros Hnd Hfresh. induction keys as [|k keys IH]; csimpl.
  { rewrite decide_True by done. by rewrite Hfresh by set_solver. }
  apply NoDup_cons in Hnd as [Hk Hnd]. destruct (Z.eqb_spec k label) as [->|Hne].
  - rewrite bool_decide_true by set_solver. csimpl. rewrite decide_True by done. f_equal.
    apply list_fmap_ext. intros i k Hi. apply list_elem_of_lookup_2 in Hi. rewrite decide_False; [done|].
    intros ->. done.
  - rewrite IH by set_solver. rewrite (bool_decide_ext (label ∈ k :: keys) (label ∈ keys)) by set_solver.
    destruct (bool_decide (label ∈ keys)); csimpl; by rewrite decide_False.
Qed.

Lemma add_all_snoc ps p c : add_all (ps ++ [p]) c = add p (add_all ps c).
Proof. unfold add_all. by rewrite foldl_snoc. Qed.

(** The loop computes one centre per label from exactly its points. *)
Lemma label_fold_spec fresh zs :
  let st := foldl (label_step fresh) (mkLabelState [] maxsize []) zs in
  centers st = ((λ k, (k, add_all (labelled k zs) fresh)) <$> cluster_keys zs) ∧ uncategorized st = noise zs.
Proof.
  induction zs as [|[p l] zs [IHc IHu]] using rev_ind; [done|].
  rewrite foldl_snoc, cluster_keys_snoc. unfold noise. rewrite omap_app. fold (noise zs).
  set (st := foldl _ _ zs) in *. unfold label_step, add_key. simpl.
  destruct (cluster_keys_spec zs) as [Hnd Hin].
  assert (∀ k, l ≠ Some k → add_all (labelled k (zs ++ [(p, l)])) fresh = add_all (labelled k zs) fresh) as Hsame.
  { intros k Hk. by rewrite labelled_snoc, decide_False, app_nil_r by done. }
  destruct l as [label|]; simpl.
  2: { rewrite app_nil_r. split; [|done]. rewrite IHc. apply list_fmap_ext. intros i k _. by rewrite Hsame. }
  destruct (Z.ltb_spec label 0); simpl.
  - rewrite IHu. split; [|done]. rewrite IHc. apply list_fmap_ext. intros i k Hi.
    apply list_elem_of_lookup_2, Hin in Hi as [? _]. rewrite Hsame; [done|]. intros [= ->]. lia.
  - rewrite app_nil_r. split; [|done]. rewrite IHc, center_add_map; [|done|].
    2: { intros Hk. replace (labelled label zs) with (@nil DataPoint); [done|].
         destruct (labelled label zs) eqn:E; [done|]. destruct Hk. apply Hin. split; [done|by rewrite E]. }
    apply list_fmap_ext. intros i k _. rewrite labelled_snoc. simpl. case_decide as Hk.
    + subst. rewrite decide_True by done. by rewrite add_all_snoc.
    + rewrite decide_False by congruence. by rewrite app_nil_r.
Qed.

(** ** Runs *)

Section runs.
Context {D : Type} `{!Dbscan D}.

Fixpoint run_turns (turns : list (Q * list DataPoint)) : M (window_state D) (list cluster_result) :=
  match turns with
  | [] => ret []
  | (now, tokens) :: rest =>
    let* r := load_turn now tokens in
    let* rs := run_turns rest in
    ret (r :: rs)
  end.

End runs.

Inductive spec_turns : list (list DataPoint) → list generation → list generation → Prop :=
| spec_turns_nil gens : spec_turns [] gens gens
| spec_turns_cons tokens rest gens1 gens2 gens3 :
    spec_turn tokens gens1 gens2 → spec_turns rest gens2 gens3 → spec_turns (tokens :: rest) gens1 gens3.

Lemma run_turns_ok {D : Type} `{!Dbscan D} {DL : DbscanLaws D} e m turns (w : window_state D) gens :
  window_inv e m w gens →
  ∃ rs w' gens', run_turns turns w = (Ret rs, w') ∧ spec_turns turns.*2 gens gens' ∧ window_inv e m w' gens' ∧
    length rs = length turns ∧
    (∀ r, last rs = Some r → length (r_labels r) = length (in_force gens') ∧ Forall is_Some (r_labels r)).
Proof.
  revert w gens. induction turns as [|[now tokens] rest IH]; intros w gens Hw; simpl.
  { exists [], w, gens. split_and!; [done|constructor|done..]. }
  destruct (load_turn_ok e m now tokens w gens Hw) as (res & w1 & gens1 & H1 & Hs & Hw1 & Hl & Hf).
  destruct (IH w1 gens1 Hw1) as (rs & w2 & gens2 & H2 & Hs2 & Hw2 & Hlen & Hlast).
  exists (res :: rs), w2, gens2. rewrite (bind_Ret _ _ _ _ _ H1). rewrite (bind_Ret _ _ _ _ _ H2).
  split_and!; [done|by econstructor|done|simpl; by rewrite Hlen|].
  intros r Hr. destruct rs as [|r' rs]; [|by apply Hlast].
  destruct rest; [|done]. inversion Hs2; subst. by simplify_eq/=.
Qed.

Definition new_window {D : Type} `{!Dbscan D} (now e : Q) (m buffer : Z) (w : window_test D) (rows : list DataPoint) :
  window_state D := mkWindow (new_Moving now e m buffer w) (new_DataBuffer rows).

Lemma new_window_ok {D : Type} `{!Dbscan D} now e m buffer (w : window_test D) rows :
  1 ≤ buffer → rows ≠ [] → window_inv e m (new_window now e m buffer w rows) [[]].
Proof.
  intros Hb Hr. split.
  - split; [done|]. exists [new_DBSCANClusterer now e m], []. split_and!; [done..|by constructor|done].
  - by repeat constructor.
  - split; [|done]. unfold cap, py_len. simpl. lia.
  - unfold cap, py_len. simpl. destruct rows; [done|simpl; lia].
  - unfold datapoints, py_slice. simpl. by rewrite !py_clamp_in by (unfold py_len; lia).
Qed.

(** ** A concrete clusterer

    Every point inserted gets the label 0, others NaN; inserted points are kept. *)

#[export] Instance demo_dbscan : Dbscan (list (list Q)) := {|
  dbscan_new _ _ := [];
  dbscan_insert pts d := d ++ pts;
  dbscan_labels pts d := (λ p, if decide (p ∈ d) then Some 0 else None) <$> pts
|}.

#[export] Instance demo_dbscan_laws : DbscanLaws (list (list Q)).
Proof.
  split; [intros; apply length_fmap|]. intros e m batches pts Hp. simpl. apply Forall_fmap.
  assert (∀ d : list (list Q), foldl (λ d b, d ++ b) d batches = d ++ concat batches) as Hfold.
  { clear. induction batches as [|b batches IH]; intros d; simpl; [by rewrite app_nil_r|]. by rewrite IH, app_assoc. }
  rewrite Hfold. eapply Forall_impl; [done|]. intros p Hin. simpl in *. by rewrite decide_True.
Qed.

(** ** Properties *)

(** C13: the monitor's buffer and clusterers implement a moving window. Over any
    sequence of turns, with any batches and clock readings, no call raises, and the
    run follows the abstract window of generations: the buffer holds exactly the
    points of the oldest generation, which are exactly the points its clusterer
    was fed, and every one of them has a label. *)
Theorem load_window_refines (D : Type) (DB : Dbscan D) (DL : DbscanLaws D) (now e : Q) (m buffer : Z)
    (wt : window_test D) (rows : list DataPoint) (turns : list (Q * list DataPoint)) :
  1 ≤ buffer → rows ≠ [] →
  ∃ rs w gens, run_turns turns (new_window now e m buffer wt rows) = (Ret rs, w) ∧
    spec_turns turns.*2 [[]] gens ∧
    datapoints (data w) = in_force gens ∧
    (∃ c g, active (moving w) = Ret c ∧ head gens = Some g ∧ fed e m c g ∧ d_length c = py_len (in_force gens)) ∧
    (∀ r, last rs = Some r → length (r_labels r) = length (in_force gens) ∧ Forall is_Some (r_labels r)).
Proof.
  intros Hb Hr. destruct (run_turns_ok e m turns _ _ (new_window_ok now e m buffer wt rows Hb Hr))
    as (rs & w & gens & Hrun & Hspec & [Hmv _ _ _ Hd] & _ & Hlast).
  exists rs, w, gens. split_and!; [done..| |done].
  destruct (active_ok e m _ _ Hmv) as (c & g & rest & -> & Hact & Hfed). exists c, g.
  split_and!; [done..|]. apply Hfed.
Qed.

Definition demo_turns : list (Q * list DataPoint) :=
  [(1, [mkPoint 3 5 1; mkPoint 4 6 1]); (2, []); (3, [mkPoint 9 9 3]); (5, [mkPoint 1 1 5]); (7, [mkPoint 2 2 7])]%Q.

Lemma load_window_refines_witness :
  ∃ rs w gens, run_turns demo_turns (new_window (D:=list (list Q)) 0 (1 # 2) 10 2 (TimeWindow 4) (replicate 2 (mkPoint 0 0 0))) =
      (Ret rs, w) ∧
    spec_turns demo_turns.*2 [[]] gens ∧
    datapoints (data w) = in_force gens ∧
    (∃ c g, active (moving w) = Ret c ∧ head gens = Some g ∧ fed (1 # 2) 10 c g ∧ d_length c = py_len (in_force gens)) ∧
    (∀ r, last rs = Some r → length (r_labels r) = length (in_force gens) ∧ Forall is_Some (r_labels r)).
Proof.
  apply (load_window_refines (list (list Q)) _ _ 0 (1 # 2) 10 2 (TimeWindow 4) (replicate 2 (mkPoint 0 0 0)) demo_turns);
    [reflexivity || lia|discriminate].
Defined.

(** The clusters partition the labelled points. The centres a clusterer
    returns are those of the distinct labels that are not negative, each made from
    exactly the points with that label, so that its size is their number; the
    points with a negative label are the uncategorized ones. *)
Theorem clusters_partition (D : Type) (DB : Dbscan D) (DL : DbscanLaws D) (c : DBSCANClusterer D)
    (points : list DataPoint) :
  let zs := zip points (dbscan_labels (signature <$> points) (db c)) in
  ∃ res, d_get_cluster_labels points c = Ret res ∧
    r_centers res = ((λ k, add_all (labelled k zs) (new_Centeroid (d_window c))) <$> cluster_keys zs) ∧
    NoDup (cluster_keys zs) ∧ (∀ k, k ∈ cluster_keys zs ↔ 0 ≤ k ∧ labelled k zs ≠ []) ∧
    c_size <$> r_centers res = ((λ k, py_len (labelled k zs)) <$> cluster_keys zs) ∧
    r_uncategorized res = noise zs.
Proof.
  intros zs. unfold d_get_cluster_labels.
  pose proof (labels_length (signature <$> points) (db c)) as Hl. rewrite length_fmap in Hl.
  rewrite label_loop_fold by lia. cbn [obind]. rewrite drop_0. fold zs.
  destruct (label_fold_spec (new_Centeroid (d_window c)) zs) as [Hc Hu].
  destruct (cluster_keys_spec zs) as [Hnd Hin]. eexists. split; [done|]. cbn [r_centers r_uncategorized].
  rewrite Hc, Hu, <-list_fmap_compose. split_and!; [done..| |done].
  rewrite <-list_fmap_compose. apply list_fmap_ext. intros i k Hk.
  apply list_elem_of_lookup_2, Hin in Hk as [_ Hk]. apply (s_size _ _ (add_all_summarizes _ _ Hk)).
Qed.

Lemma clusters_partition_witness :
  let c := new_DBSCANClusterer (D:=list (list Q)) 0 (1 # 2) 10 in
  let zs := zip demo_points (dbscan_labels (signature <$> demo_points) (db c)) in
  ∃ res, d_get_cluster_labels demo_points c = Ret res ∧
    r_centers res = ((λ k, add_all (labelled k zs) (new_Centeroid (d_window c))) <$> cluster_keys zs) ∧
    NoDup (cluster_keys zs) ∧ (∀ k, k ∈ cluster_keys zs ↔ 0 ≤ k ∧ labelled k zs ≠ []) ∧
    c_size <$> r_centers res = ((λ k, py_len (labelled k zs)) <$> cluster_keys zs) ∧
    r_uncategorized res = noise zs.
Proof. apply (clusters_partition (list (list Q)) demo_dbscan demo_dbscan_laws). Defined.
