(* ===== verification/Optimizer.v ===== *)
(** * The GPU optimizer and its solver

    Models [python/aibrix/aibrix/gpu_optimizer/optimizer/]: [GPUProfile]
    (types.py), [Optimizer] (optimizer.py), which turns the clusters of the load
    into a distribution over the cells of the throughput tables, and the Melange
    solver (solver/melange/), which states the choice of GPUs as an integer
    program. The program is solved by the pulp library, a parameter ([LpSolver])
    that returns an optimal solution or none. [np.log2] is a parameter. The log
    lines are left out, except for the one whose arguments may raise. *)

From S2P Require Import Prelude Num LoadBuffer Centeroid.

Open Scope Z_scope.
Open Scope py_scope.

(** ** Profiles *)

(** A Python number; NumPy makes an integer array of a list of integers. *)
Inductive pynum := PInt (z : Z) | PFloat (q : Q).

Definition to_q (x : pynum) : Q := match x with PInt z => inject_Z z | PFloat q => q end.

Record GPUProfile := mkProfile {
  gpu : string;
  cost : Q;
  tputs : list (list pynum);
  indexes : list (list Q);
  p_created : Q
}.

(** ** The solver *)

(** The integer program: the cost of each GPU type, and per type the load of each
    slice of requests. *)
Record lp := mkLp { lp_costs : list Q; lp_loads : list (list Q); lp_slices : nat }.

(** The values of the decision matrix, one row per slice, and of the vector. *)
Record lp_solution := mkSolution { lp_x : list (list Z); lp_y : list Q }.

Class LpSolver := { lp_solve : lp → option lp_solution }.

(** The load that the slices assigned to type [j] put on it. *)
Definition column_load (loads : list Q) (x : list (list Z)) (j : nat) : Q :=
  Qsum (zip_with (λ row l, inject_Z (default 0%Z (row !! j)) * l)%Q x loads).

Definition total_cost (costs : list Q) (ys : list Z) : Q :=
  Qsum (zip_with (λ y c, inject_Z y * c)%Q ys costs).

(** The constraints of the program for an assignment and whole numbers of GPUs. *)
Definition feasible (p : lp) (x : list (list Z)) (ys : list Z) : Prop :=
  length x = lp_slices p ∧ length ys = length (lp_costs p) ∧
  Forall (λ row, length row = length (lp_costs p) ∧ Forall (λ v, v = 0 ∨ v = 1) row ∧ foldr Z.add 0 row = 1) x ∧
  Forall (λ y, 0 ≤ y) ys ∧
  ∀ j loads y, lp_loads p !! j = Some loads → ys !! j = Some y → (column_load loads x j <= inject_Z y)%Q.

(** A solution that is reported optimal is feasible, whole, and no feasible one is
    cheaper. *)
Class LpLaws (S : LpSolver) : Prop := {
  solve_optimal p s :
    lp_solve p = Some s →
    ∃ ys, lp_y s = (inject_Z <$> ys) ∧ feasible p (lp_x s) ys ∧
      ∀ x' ys', feasible p x' ys' → (total_cost (lp_costs p) ys <= total_cost (lp_costs p) ys')%Q
}.

(** [tputs_to_loads_2d]: the first row gives the number of columns; an index out of
    range raises. *)
Definition load_of (t : Q) : Q := if negb (Qle_bool t 0) then (1 / t)%Q else 1000000%Q.

Definition row_to_loads (cols : nat) (row : list pynum) : outcome (list Q) :=
  omapM (λ j, match row !! j with Some t => Ret (load_of (to_q t)) | None => Raise IndexError end) (seq 0 cols).

Definition tputs_to_loads_2d (max_tputs : list (list pynum)) : outcome (list (list Q)) :=
  omapM (row_to_loads (length (default [] (head max_tputs)))) max_tputs.

(** What the solver reads of a profile. *)
Record gpu_entry := mkEntry { e_cost : Q; e_tputs : list (list pynum) }.

(** [int(x)] of a float *)
Definition q_trunc (q : Q) : Z := Z.quot (Qnum q) (Zpos (Qden q)).

(** Each cell is repeated once per slice. *)
Definition repeat_cells {A} (slice_factor : nat) (rows : list (list A)) : list A :=
  concat ((λ v, replicate slice_factor v) <$> concat rows).

Section melange.
Context {LP : LpSolver}.

Definition rate_histogram (workload_distribution : list (list Q)) (overall_rate : Q) : outcome (list (list Q)) :=
  let cols := length (default [] (head workload_distribution)) in
  omapM (λ row, omapM (λ j, match row !! j with Some w => Ret (w * overall_rate)%Q | None => Raise IndexError end)
                  (seq 0 cols)) workload_distribution.

Definition slice_loads_of (slice_factor : nat) (slices : list Q) (entry : gpu_entry) : outcome (list Q) :=
  try* loads := tputs_to_loads_2d (e_tputs entry) in
  let slice_loads := repeat_cells slice_factor loads in
  if (length slices =? length slice_loads)%nat then Ret slice_loads else Raise AssertionError.

(** The program built from the slices: the coefficient of a slice is its load per
    request times its rate. *)
Definition melange_lp (slices : list Q) (gpu_info : list (string * gpu_entry)) (slice_loads : list (list Q)) : lp :=
  mkLp (e_cost <$> gpu_info.*2) ((λ ls, zip_with Qmult ls slices) <$> slice_loads) (length slices).

(** [MelangeSolver.run]: the number of GPUs of each type and the cost, or [None]
    when no optimal solution is found. The loads of all GPUs are computed before
    the slices are compared. *)
Definition melange_run (workload_distribution : list (list Q)) (overall_rate : Q)
    (gpu_info : list (string * gpu_entry)) (slice_factor : nat) : outcome (option (list (string * Z) * Q)) :=
  try* histogram := rate_histogram workload_distribution overall_rate in
  let slices := (λ r, r / inject_Z (Z.of_nat slice_factor))%Q <$> repeat_cells slice_factor histogram in
  try* _ := omapM (λ e, tputs_to_loads_2d (e_tputs e)) gpu_info.*2 in
  try* slice_loads := omapM (slice_loads_of slice_factor slices) gpu_info.*2 in
  match slices with
  | [] => Raise IndexError
  | _ =>
    match lp_solve (melange_lp slices gpu_info slice_loads) with
    | None => Ret None
    | Some s =>
      let solution := zip gpu_info.*1 (q_trunc <$> lp_y s) in
      Ret (Some (solution, total_cost (e_cost <$> gpu_info.*2) solution.*2))
    end
  end.

End melange.

(** ** The optimizer *)

(** [np.shape] of nested lists; a ragged list raises. *)
Definition np_shape {A} (rows : list (list A)) : outcome (list nat) :=
  match rows with
  | [] => Ret [0%nat]
  | row :: rest =>
    if forallb (λ r, length r =? length row)%nat rest then Ret [length rows; length row] else Raise ValueError
  end.

(** The array [_workload_distribution_template]: its shape, its cells, and
    whether it holds integers. *)
Record template := mkTemplate { t_shape : list nat; t_cells : list (list Q); t_int : bool }.

Definition is_int (x : pynum) : bool := match x with PInt _ => true | PFloat _ => false end.

(** Zeros in the shape of some rows. *)
Definition zero_cells {A} (rows : list (list A)) : list (list Q) := (λ r : list A, replicate (length r) 0%Q) <$> rows.

(** [np.zeros_like] *)
Definition zeros_like (rows : list (list pynum)) : outcome template :=
  try* shape := np_shape rows in
  Ret (mkTemplate shape (zero_cells rows)
         (forallb is_int (concat rows) && (0 <? length (concat rows))%nat)).

Record Optimizer := mkOptimizer {
  gpu_info : list (string * gpu_entry);
  workload_distribution : list (list Q);
  total_request_rate : Q;
  workload_template : option template;
  o_indexes : list (list Q);
  log_indexes : list (list Q);
  gpu_fraction : Q
}.

Definition new_Optimizer (fraction : Q) : Optimizer := mkOptimizer [] [] 0 None [] [] fraction.

(** [slice_factor: int = 4] *)
Definition slice_factor : nat := 4.

Fixpoint qlist_eqb (a b : list Q) : bool :=
  match a, b with
  | [], [] => true
  | x :: a', y :: b' => Qeq_bool x y && qlist_eqb a' b'
  | _, _ => false
  end.

Fixpoint indexes_eqb (a b : list (list Q)) : bool :=
  match a, b with
  | [], [] => true
  | x :: a', y :: b' => qlist_eqb x y && indexes_eqb a' b'
  | _, _ => false
  end.

Section optimizer.
Context (np_log2 : Q → Q) {LP : LpSolver}.

Definition set_gpu_info (info : list (string * gpu_entry)) (o : Optimizer) : Optimizer :=
  mkOptimizer info (workload_distribution o) (total_request_rate o) (workload_template o) (o_indexes o)
    (log_indexes o) (gpu_fraction o).

Definition set_profile (p : GPUProfile) : M Optimizer unit :=
  let* o := get in
  match workload_template o with
  | None =>
    let* t := lift (zeros_like (tputs p)) in
    modify (λ o, mkOptimizer (gpu_info o) (workload_distribution o) (total_request_rate o) (Some t) (indexes p)
                   ((λ idx : list Q, np_log2 <$> idx) <$> indexes p) (gpu_fraction o))
  | Some t =>
    let* shape := lift (np_shape (tputs p)) in
    if bool_decide (t_shape t = shape) && indexes_eqb (o_indexes o) (indexes p) then ret tt else raise Exception_
  end ;;
  modify (λ o, set_gpu_info (assoc_set (gpu p) (mkEntry (cost p) (tputs p)) (gpu_info o)) o).

Definition delete_profile (name : string) (o : Optimizer) : Optimizer :=
  set_gpu_info (List.filter (λ e, negb (String.eqb e.1 name)) (gpu_info o)) o.

(** [template[signature] += x]: an integer array keeps the whole part. *)
Definition cell_add (t : template) (sig : list Z) (x : Q) : outcome template :=
  match sig with
  | [i; j] =>
    try* row := py_index (t_cells t) i in
    try* v := py_index row j in
    let v' := if t_int t then inject_Z (q_trunc (v + x)) else (v + x)%Q in
    try* row' := py_setitem row j v' in
    try* cells := py_setitem (t_cells t) i row' in
    Ret (mkTemplate (t_shape t) cells (t_int t))
  | _ => Raise IndexError
  end.

(** The arguments of the log line: the tick of every entry of the signature and the
    capacity of every GPU in that cell. *)
Definition log_resolved (o : Optimizer) (sig : list Z) : outcome unit :=
  try* _ := omapM (λ '(i, v), try* idx := py_index (o_indexes o) (Z.of_nat i) in py_index idx v)
              (zip (seq 0 (length sig)) sig) in
  try* _ := omapM (λ e, match sig with
                        | [i; j] => try* row := py_index (e_tputs e) i in py_index row j
                        | _ => Raise IndexError
                        end) (gpu_info o).*2 in
  Ret tt.

Definition accept_all : error_suppressor := λ _ _ _ _ _, true.

(** The body of the [try]: the signature, then the new template. The second
    component is the template after the attempt, the third whether the centre's
    signature is up to date. *)
Definition resolve (o : Optimizer) (covered : Q) (t : template) (c : Centeroid) : outcome unit * template * bool :=
  let '(r, c') := get_signature (log_indexes o) (Some accept_all) c in
  match r with
  | Ret sig =>
    if negb (length sig =? length (t_shape t))%nat then (Raise Exception_, t, up_to_date c')
    else
      match (if Qeq_bool covered 0 then Raise ZeroDivisionError else cell_add t sig (rate c / covered)) with
      | Ret t' => (log_resolved o sig, t', up_to_date c')
      | Raise e => (Raise e, t, up_to_date c')
      | OutOfFuel => (OutOfFuel, t, up_to_date c')
      end
  | Raise e => (Raise e, t, up_to_date c')
  | OutOfFuel => (OutOfFuel, t, up_to_date c')
  end.

(** The handler reports [profile.signature], which raises when the signature could
    not be computed. *)
Fixpoint distribute (o : Optimizer) (covered : Q) (profiles : list Centeroid) (t : template) (success : bool) :
    outcome bool * template :=
  match profiles with
  | [] => (Ret success, t)
  | c :: rest =>
    match resolve o covered t c with
    | (Ret _, t', _) => distribute o covered rest t' success
    | (Raise _, t', true) => distribute o covered rest t' false
    | (Raise _, t', false) => (Raise Exception_, t')
    | (OutOfFuel, t', _) => (OutOfFuel, t')
    end
  end.

Definition set_template (t : template) (o : Optimizer) : Optimizer :=
  mkOptimizer (gpu_info o) (workload_distribution o) (total_request_rate o) (Some t) (o_indexes o)
    (log_indexes o) (gpu_fraction o).

Definition set_workload_distribution (profiles : list Centeroid) (total : Q) : M Optimizer bool :=
  let* o := get in
  match workload_template o with
  | None => ret false
  | Some t =>
    let zero := mkTemplate (t_shape t) (zero_cells (t_cells t)) (t_int t) in
    modify (λ o, mkOptimizer (gpu_info o) (workload_distribution o) (total * gpu_fraction o)%Q (Some zero)
                   (o_indexes o) (log_indexes o) (gpu_fraction o)) ;;
    let covered := foldl (λ cnt c, cnt + rate c)%Q 0%Q profiles in
    let '(r, t') := distribute o covered profiles zero true in
    modify (set_template t') ;;
    let* success := lift r in
    modify (λ o, mkOptimizer (gpu_info o) (t_cells t') (total_request_rate o) (workload_template o)
                   (o_indexes o) (log_indexes o) (gpu_fraction o)) ;;
    ret success
  end.

(** [None] when no profile was added. *)
Definition optimizer_run (o : Optimizer) : outcome (option (list (string * Z) * Q)) :=
  match gpu_info o with
  | [] => Ret None
  | _ => melange_run (workload_distribution o) (total_request_rate o) (gpu_info o) slice_factor
  end.

End optimizer.

(** ** Lemmas: sums over tables *)

Lemma Qsum_concat (ls : list (list Q)) : (Qsum (concat ls) == Qsum (Qsum <$> ls))%Q.
Proof. induction ls as [|l ls IH]; csimpl; [lra|]. rewrite Qsum_app, IH. lra. Qed.

Lemma Qsum_insert (l : list Q) i v w : l !! i = Some v → (Qsum (<[i := w]> l) == Qsum l - v + w)%Q.
Proof.
  revert i. induction l as [|x l IH]; intros [|i] Hi; simplify_eq/=; [lra|]. rewrite (IH i Hi). lra.
Qed.

Lemma Qsum_zero (l : list Q) : Forall (λ x, x == 0)%Q l → (Qsum l == 0)%Q.
Proof. induction 1 as [|x l Hx _ IH]; simpl; [lra|]. rewrite Hx, IH. lra. Qed.

Lemma Qsum_repeat_div (k : nat) (l : list Q) :
  (0 < k)%nat →
  (Qsum ((λ r, r / inject_Z (Z.of_nat k)) <$> concat ((λ v, replicate k v) <$> l)) == Qsum l)%Q.
Proof.
  intros Hk. assert (¬ inject_Z (Z.of_nat k) == 0)%Q as Hnz.
  { intros H. unfold Qeq, inject_Z in H. simpl in H. lia. }
  assert (∀ (n : nat) v, Qsum ((λ r, r / inject_Z (Z.of_nat k)) <$> replicate n v) == inject_Z (Z.of_nat n) * (v / inject_Z (Z.of_nat k)))%Q as Hrep.
  { induction n as [|n IH]; intros v; csimpl; [change (Z.of_nat 0) with 0; unfold Qeq; simpl; lia|].
    rewrite IH, Nat2Z.inj_succ, <-Z.add_1_l, inject_Z_plus. ring. }
  induction l as [|x l IH]; csimpl; [lra|]. rewrite fmap_app, Qsum_app, IH, Hrep. field. done.
Qed.

(** ** The type of an optimizer *)

Definition has_shape {A} (rows cols : nat) (l : list (list A)) : Prop :=
  length l = rows ∧ Forall (λ r, length r = cols) l.

Lemma np_shape_two {A} (l : list (list A)) r c :
  np_shape l = Ret [r; c] → has_shape r c l.
Proof.
  unfold np_shape. destruct l as [|row rest]; [done|].
  destruct (forallb _ rest) eqn:E; [|done]. intros [= <- <-]. split; [done|]. constructor; [done|].
  rewrite forallb_forall in E. apply Forall_forall. intros r' Hr'. apply Nat.eqb_eq, E. by apply list_elem_of_In.
Qed.

Lemma zero_cells_shape {A} r c (l : list (list A)) : has_shape r c l → has_shape r c (zero_cells l).
Proof.
  intros [Hr Hc]. split; [by unfold zero_cells; rewrite length_fmap|]. apply Forall_fmap.
  eapply Forall_impl; [done|]. intros l' <-. simpl. apply length_replicate.
Qed.

(** Template, ticks and the tables of all GPUs agree in shape, and the ticks of the
    lookup are the logarithms of the ticks of the profiles. *)
Definition optimizer_ok (np_log2 : Q → Q) (o : Optimizer) : Prop :=
  match workload_template o with
  | None => gpu_info o = []
  | Some t =>
    log_indexes o = ((λ idx : list Q, np_log2 <$> idx) <$> o_indexes o) ∧
    ∀ r c, t_shape t = [r; c] →
      has_shape r c (t_cells t) ∧ Forall (λ e, has_shape r c (e_tputs e.2)) (gpu_info o)
  end.

Lemma set_profile_ok np_log2 p o :
  optimizer_ok np_log2 o → optimizer_ok np_log2 (set_profile np_log2 p o).2.
Proof.
  intros Hok. unfold set_profile, optimizer_ok in *. py_unfold.
  destruct (workload_template o) as [t|] eqn:Ht.
  - destruct (np_shape (tputs p)) as [shape| |] eqn:Hsh; simpl; [|by rewrite Ht..].
    case_bool_decide as Heq; simpl; [|by rewrite Ht].
    destruct (indexes_eqb _ _); simpl; [|by rewrite Ht]. rewrite Ht. destruct Hok as [Hlog Hok].
    split; [done|]. intros r c Hrc. destruct (Hok r c Hrc) as [Hcells Hinfo]. split; [done|].
    apply assoc_set_Forall; [|done]. simpl. apply np_shape_two. congruence.
  - unfold zeros_like. destruct (np_shape (tputs p)) as [shape| |] eqn:Hsh; simpl; [|by rewrite Ht..].
    split; [done|]. intros r c ->. apply np_shape_two in Hsh. split; [by apply zero_cells_shape|].
    rewrite Hok. simpl. by apply Forall_singleton.
Qed.

Lemma delete_profile_ok np_log2 name o : optimizer_ok np_log2 o → optimizer_ok np_log2 (delete_profile name o).
Proof.
  unfold optimizer_ok, delete_profile. simpl. destruct (workload_template o) as [t|]; [|by intros ->].
  intros [Hlog Hok]. split; [done|]. intros r c Hrc. destruct (Hok r c Hrc) as [Hcells Hinfo]. split; [done|].
  apply Forall_forall. intros e [_ He]%elem_of_filter_b. by eapply Forall_forall in Hinfo.
Qed.

(** ** Lemmas: a cell of the template *)

Lemma py_setitem_ok {A} (l : list A) i x : (i < length l)%nat → py_setitem l (Z.of_nat i) x = Ret (<[i := x]> l).
Proof.
  intros Hi. unfold py_setitem, py_norm_index, py_len. destruct (Z.ltb_spec (Z.of_nat i) 0); [lia|].
  destruct (Z.ltb_spec (Z.of_nat i) 0); [lia|].
  destruct (Z.leb_spec (Z.of_nat (length l)) (Z.of_nat i)); [lia|]. simpl. by rewrite Nat2Z.id.
Qed.

Lemma py_index_ok {A} (l : list A) i x : l !! i = Some x → py_index l (Z.of_nat i) = Ret x.
Proof. intros Hi. apply py_index_lookup; [lia|]. by rewrite Nat2Z.id. Qed.

Lemma cell_add_ok t r c i j x :
  has_shape r c (t_cells t) → (i < r)%nat → (j < c)%nat →
  ∃ row v, t_cells t !! i = Some row ∧ row !! j = Some v ∧ length row = c ∧
    cell_add t [Z.of_nat i; Z.of_nat j] x =
      Ret (mkTemplate (t_shape t)
             (<[i := <[j := if t_int t then inject_Z (q_trunc (v + x)) else (v + x)%Q]> row]> (t_cells t)) (t_int t)).
Proof.
  intros [Hr Hc] Hi Hj. destruct (lookup_lt_is_Some_2 (t_cells t) i) as [row Hrow]; [lia|].
  assert (length row = c) as Hlen by (eapply (Forall_lookup_1 (λ r, length r = c)); done).
  destruct (lookup_lt_is_Some_2 row j) as [v Hv]; [lia|]. exists row, v. split_and!; [done..|].
  unfold cell_add. rewrite (py_index_ok _ _ _ Hrow). cbn [obind]. rewrite (py_index_ok _ _ _ Hv). cbn [obind].
  rewrite py_setitem_ok by lia. cbn [obind]. by rewrite py_setitem_ok by lia.
Qed.

Lemma elem_of_insert {A} (l : list A) i x y : x ∈ <[i := y]> l → x = y ∨ x ∈ l.
Proof.
  revert i. induction l as [|z l IH]; intros [|i]; simpl; [by right..| |];
    intros [->|Hx]%elem_of_cons; [by left|right; by right|right; by left|].
  destruct (IH i Hx) as [->|?]; [by left|right; by right].
Qed.

Lemma insert_shape {A} r c i (row : list A) l : has_shape r c l → length row = c → has_shape r c (<[i := row]> l).
Proof. intros [Hr Hc] Hrow. split; [by rewrite length_insert|]. by apply Forall_insert. Qed.

(** ** Lemmas: distributing the load *)

Section distribution.
Context (np_log2 : Q → Q) (o : Optimizer) (i1 i2 : list Q).
Context (Hidx : o_indexes o = [i1; i2])
        (Hlog : log_indexes o = [np_log2 <$> i1; np_log2 <$> i2])
        (H1 : ascending (np_log2 <$> i1)) (H2 : ascending (np_log2 <$> i2))
        (Hinfo : Forall (λ e, has_shape (length i1) (length i2) (e_tputs e.2)) (gpu_info o)).

(** A template of the right shape. *)
Definition template_ok (t : template) : Prop :=
  t_shape t = [length i1; length i2] ∧ has_shape (length i1) (length i2) (t_cells t).

Lemma py_index_in {A} (l : list A) i : (i < length l)%nat → ∃ x, py_index l (Z.of_nat i) = Ret x.
Proof. intros [x Hx]%lookup_lt_is_Some_2. exists x. by apply py_index_ok. Qed.

Lemma log_resolved_ok k1 k2 :
  (k1 < length i1)%nat → (k2 < length i2)%nat → log_resolved o [Z.of_nat k1; Z.of_nat k2] = Ret tt.
Proof.
  intros Hk1 Hk2. unfold log_resolved. rewrite Hidx. simpl.
  destruct (py_index_in i1 k1 Hk1) as [x1 E1], (py_index_in i2 k2 Hk2) as [x2 E2].
  change (py_index [i1; i2] 0) with (Ret i1). change (py_index [i1; i2] 1) with (Ret i2). simpl.
  rewrite E1, E2. simpl.
  assert (∃ l, omapM (λ e, try* row := py_index (e_tputs e) (Z.of_nat k1) in py_index row (Z.of_nat k2))%py
                 (gpu_info o).*2 = Ret l) as [l ->]; [|done].
  revert Hinfo. generalize (gpu_info o). intros info. induction 1 as [|[n e] info [Hr Hc] _ [l IH]]; csimpl; [by eexists|].
  destruct (lookup_lt_is_Some_2 (e_tputs e) k1) as [row Hrow]; [simpl in Hr; lia|].
  rewrite (py_index_ok _ _ _ Hrow). simpl. simpl in Hc. eapply Forall_lookup in Hc as Hl; [|done].
  destruct (py_index_in row k2) as [v ->]; [lia|]. simpl. rewrite IH. by eexists.
Qed.

Lemma resolve_ok covered t ps c :
  template_ok t → summarizes ps c → ¬ (covered == 0)%Q →
  ∃ k1 k2 row v, (k1 < length i1)%nat ∧ t_cells t !! k1 = Some row ∧ row !! k2 = Some v ∧
    resolve o covered t c =
      (Ret tt, mkTemplate (t_shape t)
        (<[k1 := <[k2 := if t_int t then inject_Z (q_trunc (v + rate c / covered)) else (v + rate c / covered)%Q]> row]>
           (t_cells t)) (t_int t), true) ∧
    length row = length i2.
Proof.
  intros [Hsh Hcells] Hs Hcov.
  destruct (signature_ok ps c _ _ accept_all Hs H1 H2 ltac:(done)) as (k1 & k2 & c' & Hg & [Hk1 _] & [Hk2 _] & Hg').
  rewrite length_fmap in Hk1, Hk2.
  destruct (cell_add_ok t (length i1) (length i2) k1 k2 (rate c / covered) Hcells Hk1 Hk2)
    as (row & v & Hrow & Hv & Hlen & Hadd).
  exists k1, k2, row, v. split_and!; [done..| |done]. unfold resolve. rewrite Hlog, Hg, Hsh. cbn [length Nat.eqb negb].
  destruct (Qeq_bool covered 0) eqn:E; [by apply Qeq_bool_iff in E|]. rewrite Hadd, log_resolved_ok by done.
  by rewrite (get_signature_up _ _ _ _ _ Hg), ?Hsh.
Qed.

(** A float template gathers the shares. *)
Lemma distribute_float covered pcs t success :
  template_ok t → t_int t = false → Forall (λ x, 0 <= x)%Q (concat (t_cells t)) → (0 < covered)%Q →
  Forall (λ pc, pc.1 ≠ [] ∧ summarizes pc.1 pc.2) pcs →
  ∃ t', distribute o covered pcs.*2 t success = (Ret success, t') ∧ template_ok t' ∧ t_int t' = false ∧
    Forall (λ x, 0 <= x)%Q (concat (t_cells t')) ∧
    (Qsum (concat (t_cells t')) == Qsum (concat (t_cells t)) + Qsum (rate <$> pcs.*2) / covered)%Q.
Proof.
  intros Ht Hint Hpos Hcov Hpcs. revert t Ht Hint Hpos. induction Hpcs as [|[ps c] pcs [Hne Hs] _ IH];
    intros t Ht Hint Hpos; csimpl.
  { exists t. split_and!; [done..|]. unfold Qdiv. lra. }
  destruct (resolve_ok covered t ps c Ht Hs) as (k1 & k2 & row & v & Hk1 & Hrow & Hv & -> & Hlen); [lra|].
  rewrite Hint. set (t1 := mkTemplate _ _ _).
  assert (0 <= rate c / covered)%Q as Hr.
  { apply Qle_shift_div_l; [done|]. rewrite Qmult_0_l. apply Qlt_le_weak. by eapply rate_pos. }
  assert (0 <= v)%Q as Hv0.
  { eapply Forall_forall; [exact Hpos|]. apply elem_of_concat. exists row.
    split; by eapply list_elem_of_lookup_2. }
  destruct (IH t1) as (t' & -> & Ht' & Hint' & Hpos' & Hsum); [|done| |].
  - destruct Ht as [Hsh Hcells]. split; [done|]. simpl. apply insert_shape; [done|]. by rewrite length_insert.
  - simpl. apply Forall_forall. intros x (l & Hl & Hx)%elem_of_concat.
    rewrite Forall_forall in Hpos. apply elem_of_insert in Hl as [Hl|Hl]; [subst l|]; [|apply Hpos, elem_of_concat; eauto].
    apply elem_of_insert in Hx as [->|Hx]; [lra|]. apply Hpos, elem_of_concat. exists row.
    split; [by eapply list_elem_of_lookup_2|done].
  - exists t'. split_and!; [done..|]. rewrite Hsum. simpl. rewrite !Qsum_concat, list_fmap_insert.
    rewrite (Qsum_insert _ _ (Qsum row)) by by rewrite list_lookup_fmap, Hrow. rewrite (Qsum_insert _ _ v) by done.
    field. lra.
Qed.

(** An integer template drops every share below one. *)
Lemma distribute_int covered pcs t success :
  template_ok t → t_int t = true → t_cells t = zero_cells (t_cells t) → (0 < covered)%Q →
  Forall (λ pc, pc.1 ≠ [] ∧ summarizes pc.1 pc.2 ∧ rate pc.2 < covered)%Q pcs →
  distribute o covered pcs.*2 t success = (Ret success, t).
Proof.
  intros Ht Hint Hzero Hcov Hpcs. induction Hpcs as [|[ps c] pcs (Hne & Hs & Hlt) _ IH]; csimpl; [done|].
  destruct (resolve_ok covered t ps c Ht Hs) as (k1 & k2 & row & v & Hk1 & Hrow & Hv & -> & Hlen); [lra|].
  assert (row = replicate (length row) 0%Q) as Hr0.
  { rewrite Hzero in Hrow. unfold zero_cells in Hrow. rewrite list_lookup_fmap in Hrow.
    destruct (t_cells t !! k1) as [r|]; simplify_eq/=. by rewrite length_replicate. }
  assert (v = 0%Q) as ->. { rewrite Hr0 in Hv. by apply lookup_replicate in Hv as [-> _]. }
  rewrite Hint. simpl in Hlt. assert (q_trunc (0 + rate c / covered) = 0) as ->.
  { pose proof (rate_pos ps c Hne Hs) as Hp.
    assert (0 <= 0 + rate c / covered < 1)%Q as [Ha Hb].
    { split; [|rewrite Qplus_0_l; apply Qlt_shift_div_r; lra].
      rewrite Qplus_0_l. apply Qle_shift_div_l; [done|]. lra. }
    unfold q_trunc. apply Z.quot_small. unfold Qle, Qlt in Ha, Hb. simpl in *. lia. }
  change (inject_Z 0) with 0%Q. rewrite (list_insert_id row) by done. rewrite list_insert_id by done.
  destruct t as [sh cells int]; simpl in *. by rewrite Hint in IH |- *.
Qed.

End distribution.

(** ** Lemmas: every operation keeps the type *)

Lemma py_setitem_Ret {A} (l l' : list A) i x :
  py_setitem l i x = Ret l' → l' = <[Z.to_nat (py_norm_index (py_len l) i) := x]> l.
Proof. unfold py_setitem. by destruct (_ || _); intros [= <-]. Qed.

Lemma py_index_elem {A} (l : list A) i x : py_index l i = Ret x → x ∈ l.
Proof.
  unfold py_index. destruct (_ <? 0); [done|]. destruct (l !! _) eqn:E; [|done].
  intros [= <-]. by eapply list_elem_of_lookup_2.
Qed.

(** A template in place of another. *)
Definition same_shape (t t' : template) : Prop :=
  t_shape t' = t_shape t ∧ ∀ r c, has_shape r c (t_cells t) → has_shape r c (t_cells t').

Lemma cell_add_shape t sig x t' : cell_add t sig x = Ret t' → same_shape t t'.
Proof.
  intros Hadd. unfold cell_add in Hadd. destruct sig as [|i [|j []]]; try done.
  destruct (py_index (t_cells t) i) as [row| |] eqn:Hrow; simpl in Hadd; try done.
  destruct (py_index row j) as [v| |]; simpl in Hadd; try done.
  destruct (py_setitem row j _) as [row'| |] eqn:Hrow'; simpl in Hadd; try done.
  destruct (py_setitem (t_cells t) i row') as [cells| |] eqn:Hcells; simplify_eq/=.
  split; [done|]. intros r c Hsh. apply py_setitem_Ret in Hcells as ->. apply insert_shape; [done|].
  apply py_setitem_Ret in Hrow' as ->. rewrite length_insert.
  eapply (Forall_forall (λ r, length r = c)); [apply Hsh|]. by eapply py_index_elem.
Qed.

Lemma resolve_shape o covered t p : same_shape t (resolve o covered t p).1.2.
Proof.
  unfold resolve. destruct (get_signature _ _ p) as [[sig| |] p']; simpl; [|done..].
  destruct (negb _); simpl; [done|]. destruct (Qeq_bool covered 0); simpl; [done|].
  destruct (cell_add _ _ _) as [t'| |] eqn:Hadd; simpl; [by eapply cell_add_shape|done..].
Qed.

Lemma distribute_shape o covered ps t success : same_shape t (distribute o covered ps t success).2.
Proof.
  revert t success. induction ps as [|p ps IH]; intros t success; simpl; [done|].
  destruct (resolve_shape o covered t p) as [Hs Hc].
  destruct (resolve o covered t p) as [[[u|e|] t'] b]; simpl in *; [|destruct b|]; try done.
  - destruct (IH t' success) as [Hs' Hc']. split; [congruence|auto].
  - destruct (IH t' false) as [Hs' Hc']. split; [congruence|auto].
Qed.

Lemma set_workload_distribution_ok np_log2 ps total o :
  optimizer_ok np_log2 o → optimizer_ok np_log2 (set_workload_distribution ps total o).2.
Proof.
  intros Hok. unfold set_workload_distribution, optimizer_ok in *. py_unfold.
  destruct (workload_template o) as [t|] eqn:Ht; simpl; [|by rewrite Ht].
  destruct Hok as [Hlog Hok]. set (zero := mkTemplate _ _ _). set (covered := foldl _ _ _).
  destruct (distribute_shape o covered ps zero true) as [Hsh Hcells].
  assert (∀ r c, t_shape (distribute o covered ps zero true).2 = [r; c] →
            has_shape r c (t_cells (distribute o covered ps zero true).2) ∧
            Forall (λ e, has_shape r c (e_tputs e.2)) (gpu_info o)) as H.
  { intros r c Hrc. rewrite Hsh in Hrc. destruct (Hok r c Hrc) as [Hc Hi]. split; [|done].
    apply Hcells. by apply zero_cells_shape. }
  destruct (distribute o covered ps zero true) as [[b| |] t']; simpl in *; done.
Qed.

(** ** The optimizer's operations as steps *)

Inductive optimizer_step (np_log2 : Q → Q) (o : Optimizer) : Optimizer → Prop :=
| step_set_profile p : optimizer_step np_log2 o (set_profile np_log2 p o).2
| step_delete_profile name : optimizer_step np_log2 o (delete_profile name o)
| step_set_workload ps total : optimizer_step np_log2 o (set_workload_distribution ps total o).2.

(** In every state that any sequence of [set_profile], [delete_profile] and
    [set_workload_distribution] calls can reach (calls that raise included), there
    is a template as soon as there is a profile, the lookup ticks are the
    logarithms of the profiles' ticks, and for a template of two dimensions its
    cells and the throughput table of every GPU have its shape. *)
Theorem optimizer_shapes np_log2 fraction o :
  rtc (optimizer_step np_log2) (new_Optimizer fraction) o → optimizer_ok np_log2 o.
Proof.
  intros Hr. assert (optimizer_ok np_log2 (new_Optimizer fraction)) as Hok by done.
  induction Hr as [|o1 o2 o3 [] _ IH]; [done|apply IH..].
  - by apply set_profile_ok.
  - by apply delete_profile_ok.
  - by apply set_workload_distribution_ok.
Qed.

(** ** Demonstration profiles *)

Definition demo_profile : GPUProfile :=
  mkProfile "a10" 1 [[PFloat 10; PFloat 5]; [PFloat 4; PFloat 2]] [[4; 8]; [16; 32]]%Q 0.

Definition demo_int_profile : GPUProfile :=
  mkProfile "a10" 1 [[PInt 10; PInt 5]; [PInt 4; PInt 2]] [[4; 8]; [16; 32]]%Q 0.

Lemma optimizer_shapes_witness :
  optimizer_ok id (delete_profile "v100" (set_profile id demo_profile (new_Optimizer 100)).2).
Proof.
  apply (optimizer_shapes id 100). eapply rtc_l; [apply (step_set_profile id _ demo_profile)|].
  eapply rtc_l; [apply step_delete_profile|]. apply rtc_refl.
Defined.

(** ** The load becomes a distribution *)

#[export] Instance Qsum_perm : Proper ((≡ₚ) ==> Qeq) Qsum.
Proof. induction 1; simpl; [done|lra|lra|]. by etrans. Qed.

Lemma foldl_rate cs q : (foldl (λ cnt c, cnt + rate c) q cs == q + Qsum (rate <$> cs))%Q.
Proof. revert q. induction cs as [|c cs IH]; intros q; csimpl; [lra|]. rewrite IH. lra. Qed.

(** The centres of groups of points. *)
Definition centers_of (span : option Q) (groups : list (list DataPoint)) : list Centeroid :=
  (λ ps, add_all ps (new_Centeroid span)) <$> groups.

Lemma centers_summarize span groups :
  Forall (λ ps, ps ≠ []) groups →
  ∃ pcs, pcs.*2 = centers_of span groups ∧ Forall (λ pc, pc.1 ≠ [] ∧ summarizes pc.1 pc.2) pcs.
Proof.
  intros H. exists ((λ ps, (ps, add_all ps (new_Centeroid span))) <$> groups). split.
  - unfold centers_of. by rewrite <-list_fmap_compose.
  - apply Forall_fmap. eapply Forall_impl; [done|]. intros ps Hne. split; [done|]. by apply add_all_summarizes.
Qed.

Lemma rates_pos pcs :
  pcs ≠ [] → Forall (λ pc, pc.1 ≠ [] ∧ summarizes pc.1 pc.2) pcs → (0 < Qsum (rate <$> pcs.*2))%Q.
Proof.
  intros Hne H. destruct H as [|pc pcs [Hpc Hs] H]; [done|]. clear Hne. csimpl.
  pose proof (rate_pos _ _ Hpc Hs). assert (0 <= Qsum (rate <$> pcs.*2))%Q; [|lra].
  induction H as [|pc' pcs [Hpc' Hs'] _ IH]; csimpl; [lra|]. pose proof (rate_pos _ _ Hpc' Hs'). lra.
Qed.

Lemma zero_cells_zero {A} (l : list (list A)) : Forall (λ x, x = 0%Q) (concat (zero_cells l)).
Proof.
  apply Forall_forall. intros x (r & Hr & Hx)%elem_of_concat.
  apply list_elem_of_fmap in Hr as (r' & -> & _). by apply elem_of_replicate in Hx as [-> _].
Qed.

Lemma zero_cells_idemp {A} (l : list (list A)) : zero_cells (zero_cells l) = zero_cells l.
Proof.
  unfold zero_cells. rewrite <-list_fmap_compose. apply list_fmap_ext. intros i r _. simpl. by rewrite length_replicate.
Qed.

(** What the template of an optimizer looks like when its first profile had two
    lists of ticks that match its table. *)
Definition optimizer_for (np_log2 : Q → Q) (i1 i2 : list Q) (int : bool) (o : Optimizer) : Prop :=
  optimizer_ok np_log2 o ∧ o_indexes o = [i1; i2] ∧ ascending (np_log2 <$> i1) ∧ ascending (np_log2 <$> i2) ∧
  ∃ t, workload_template o = Some t ∧ t_shape t = [length i1; length i2] ∧ t_int t = int.

(** The zeroed template of such an optimizer. *)
Lemma optimizer_for_zero np_log2 i1 i2 int o t :
  optimizer_for np_log2 i1 i2 int o → workload_template o = Some t →
  let zero := mkTemplate (t_shape t) (zero_cells (t_cells t)) (t_int t) in
  t_int t = int ∧ template_ok i1 i2 zero ∧ log_indexes o = [np_log2 <$> i1; np_log2 <$> i2] ∧
  Forall (λ e, has_shape (length i1) (length i2) (e_tputs e.2)) (gpu_info o).
Proof.
  intros (Hok & Hidx & _ & _ & t' & Ht' & Hsh & Hint) Ht. assert (t' = t) as -> by congruence. unfold optimizer_ok in Hok. rewrite Ht in Hok.
  destruct Hok as [Hlog Hok]. destruct (Hok _ _ Hsh) as [Hc Hi]. cbn zeta. split; [done|].
  split; [split; [done|by apply zero_cells_shape]|]. split; [by rewrite Hlog, Hidx|done].
Qed.

Lemma set_workload_total np_log2 i1 i2 o span groups total :
  optimizer_for np_log2 i1 i2 false o → groups ≠ [] → Forall (λ ps, ps ≠ []) groups →
  ∃ o', set_workload_distribution (centers_of span groups) total o = (Ret true, o') ∧
    Forall (λ x, 0 <= x)%Q (concat (workload_distribution o')) ∧
    (Qsum (concat (workload_distribution o')) == 1)%Q ∧
    total_request_rate o' = (total * gpu_fraction o)%Q ∧
    gpu_info o' = gpu_info o ∧ has_shape (length i1) (length i2) (workload_distribution o') ∧
    Forall (λ e, has_shape (length i1) (length i2) (e_tputs e.2)) (gpu_info o).
Proof.
  intros Ho Hne Hgs. destruct (centers_summarize span groups Hgs) as (pcs & Hpcs & Hsum).
  assert (pcs ≠ []) as Hpne. { intros ->. by destruct groups. }
  pose proof Ho as (_ & Hidx & H1 & H2 & t & Ht & _). pose proof (rates_pos pcs Hpne Hsum) as Hpos.
  destruct (optimizer_for_zero _ _ _ _ _ _ Ho Ht) as (Hint & Hz & Hlog & Hinfo).
  unfold set_workload_distribution. py_unfold. rewrite Ht, <-Hpcs. simpl. set (covered := foldl _ _ _).
  assert (covered == Qsum (rate <$> pcs.*2))%Q as Hcov by (unfold covered; rewrite foldl_rate; lra).
  destruct (distribute_float np_log2 o i1 i2 Hidx Hlog H1 H2 Hinfo covered pcs _ true Hz Hint)
    as (t' & -> & Ht' & _ & Hp & Hs); [|lra|done|].
  - eapply Forall_impl; [apply zero_cells_zero|]. simpl. intros x ->. lra.
  - simpl. eexists. split; [done|]. simpl. split_and!; [done| |done|done|apply Ht'|done]. rewrite Hs. simpl.
    rewrite (Qsum_zero (concat _)) by (eapply Forall_impl; [apply zero_cells_zero|]; by intros x ->).
    rewrite <-Hcov. field. lra.
Qed.

(** The workload distribution is a distribution. When the profiles hold
    floats, the ticks ascend in the logarithm and every centre stands for at least
    one point, [set_workload_distribution] succeeds, no cell is negative and the
    cells sum to one: the load of every cluster is counted, also when its mean is
    out of the range of the ticks. *)
Theorem workload_distribution_total np_log2 i1 i2 o span groups total :
  optimizer_for np_log2 i1 i2 false o → groups ≠ [] → Forall (λ ps, ps ≠ []) groups →
  ∃ o', set_workload_distribution (centers_of span groups) total o = (Ret true, o') ∧
    Forall (λ x, 0 <= x)%Q (concat (workload_distribution o')) ∧
    (Qsum (concat (workload_distribution o')) == 1)%Q ∧
    total_request_rate o' = (total * gpu_fraction o)%Q.
Proof.
  intros Ho Hne Hgs. destruct (set_workload_total np_log2 i1 i2 o span groups total Ho Hne Hgs)
    as (o' & ? & ? & ? & ? & _). by exists o'.
Qed.

(** Integer throughputs: the template inherits the integer type of the table and
    rounds every share below one down to nothing, so that with two or more centres
    the whole load is lost, although the call reports success. *)
Theorem integer_profile_drops_load np_log2 i1 i2 o span groups total :
  optimizer_for np_log2 i1 i2 true o → (1 < length groups)%nat → Forall (λ ps, ps ≠ []) groups →
  ∃ o', set_workload_distribution (centers_of span groups) total o = (Ret true, o') ∧
    Forall (λ x, x = 0%Q) (concat (workload_distribution o')).
Proof.
  intros Ho Hlen Hgs. destruct (centers_summarize span groups Hgs) as (pcs & Hpcs & Hsum).
  pose proof Ho as (_ & Hidx & H1 & H2 & t & Ht & _).
  destruct (optimizer_for_zero _ _ _ _ _ _ Ho Ht) as (Hint & Hz & Hlog & Hinfo).
  unfold set_workload_distribution. py_unfold. rewrite Ht, <-Hpcs. simpl. set (covered := foldl _ _ _).
  assert (covered == Qsum (rate <$> pcs.*2))%Q as Hcov by (unfold covered; rewrite foldl_rate; lra).
  assert (length pcs = length groups) as Hl.
  { apply (f_equal length) in Hpcs. unfold centers_of in Hpcs. by rewrite !length_fmap in Hpcs. }
  assert (pcs ≠ []) as Hpne. { intros ->. simpl in Hl. lia. } pose proof (rates_pos pcs Hpne Hsum) as Hpos.
  rewrite (distribute_int np_log2 o i1 i2 Hidx Hlog H1 H2 Hinfo); [|done..| |lra|].
  - simpl. eexists. split; [done|]. simpl. apply zero_cells_zero.
  - simpl. by rewrite zero_cells_idemp.
  - apply Forall_forall. intros pc Hpc. pose proof (proj1 (Forall_forall _ _) Hsum _ Hpc) as [Ha Hb].
    split_and!; [done..|]. apply elem_of_Permutation in Hpc as [pcs' Hperm].
    assert (Qsum (rate <$> pcs.*2) == rate pc.2 + Qsum (rate <$> pcs'.*2))%Q as Hs.
    { transitivity (Qsum (rate <$> (pc :: pcs').*2)); [|done]. by rewrite Hperm. }
    rewrite Hcov, Hs. assert (0 < Qsum (rate <$> pcs'.*2))%Q; [|lra].
    apply rates_pos; [|by rewrite Hperm in Hsum; inversion Hsum].
    intros ->. apply Permutation_length in Hperm. simpl in Hperm. lia.
Qed.

(** ** The solver's answer *)

(** The rates of the slices and the loads of a GPU, for tables of one shape. *)
Definition slice_rates (k : nat) (wd : list (list Q)) (overall_rate : Q) : list Q :=
  (λ r, r / inject_Z (Z.of_nat k))%Q <$> repeat_cells k ((λ row : list Q, (λ w, w * overall_rate)%Q <$> row) <$> wd).

Definition table_loads (k : nat) (table : list (list pynum)) : list Q :=
  repeat_cells k ((λ row : list pynum, (λ t, load_of (to_q t)) <$> row) <$> table).

Lemma omapM_seq {A B} (f : A → B) (row : list A) :
  omapM (λ j, match row !! j with Some x => Ret (f x) | None => Raise IndexError end) (seq 0 (length row)) =
  Ret (f <$> row).
Proof.
  assert (∀ pre, omapM (λ j, match (pre ++ row) !! j with Some x => Ret (f x) | None => Raise IndexError end)
                   (seq (length pre) (length row)) = Ret (f <$> row)) as H; [|apply (H [])].
  induction row as [|x row IH]; intros pre; csimpl; [done|].
  rewrite lookup_app_r, Nat.sub_diag by lia. simpl. specialize (IH (pre ++ [x])).
  rewrite <-app_assoc, length_app, Nat.add_1_r in IH. simpl in IH. by rewrite IH.
Qed.

Lemma head_shape {A} r c (l : list (list A)) : has_shape r c l → (0 < r)%nat → length (default [] (head l)) = c.
Proof. intros [Hr Hc] H0. destruct Hc; simpl in *; [lia|done]. Qed.

(** A comprehension over the cells of a table. *)
Lemma omapM_table {A B} (f : A → B) r c (l : list (list A)) :
  has_shape r c l → (0 < r)%nat →
  omapM (λ row : list A, omapM (λ j, match row !! j with Some x => Ret (f x) | None => Raise IndexError end)
           (seq 0 (length (default [] (head l))))) l = Ret ((λ row : list A, f <$> row) <$> l).
Proof.
  intros Hsh H0. rewrite (head_shape r c) by done. apply omapM_Ret.
  eapply Forall_impl; [apply Hsh|]. intros row <-. apply omapM_seq.
Qed.

Lemma repeat_cells_length {A} k r c (l : list (list A)) :
  has_shape r c l → length (repeat_cells k l) = (r * c * k)%nat.
Proof.
  intros [Hr Hc]. unfold repeat_cells.
  assert (length (concat l) = (r * c)%nat) as <-.
  { subst r. induction Hc as [|row l Hrow _ IH]; simpl; [done|]. rewrite length_app, IH. lia. }
  induction (concat l) as [|x xs IH]; csimpl; [done|]. rewrite length_app, length_replicate, IH. lia.
Qed.

Lemma fmap_shape {A B} (f : A → B) r c (l : list (list A)) :
  has_shape r c l → has_shape r c ((λ row : list A, f <$> row) <$> l).
Proof.
  intros [Hr Hc]. split; [by rewrite length_fmap|]. apply Forall_fmap. eapply Forall_impl; [done|].
  intros row Hrow. simpl. by rewrite length_fmap.
Qed.

Lemma slice_rates_sum k wd q : (0 < k)%nat → (Qsum (slice_rates k wd q) == Qsum (concat wd) * q)%Q.
Proof.
  intros Hk. unfold slice_rates, repeat_cells. rewrite Qsum_repeat_div by done.
  assert (∀ l, Qsum ((λ w, w * q) <$> l) == Qsum l * q)%Q as Hrow.
  { intros l. induction l as [|x l IH]; csimpl; [lra|]. rewrite IH. lra. }
  induction wd as [|row wd IH]; csimpl; [lra|]. rewrite !Qsum_app, IH, Hrow. lra.
Qed.

Lemma q_trunc_inject (ys : list Z) : q_trunc <$> (inject_Z <$> ys) = ys.
Proof.
  induction ys as [|y ys IH]; csimpl; [done|]. rewrite IH. f_equal. unfold q_trunc. simpl. apply Z.quot_1_r.
Qed.

Section solver_result.
Context {LP : LpSolver}.

(** On tables of one shape [run] is the solution of the program. *)
Lemma melange_run_eq r c k wd q info :
  has_shape r c wd → Forall (λ e, has_shape r c (e_tputs e.2)) info → (0 < r)%nat → (0 < c)%nat → (0 < k)%nat →
  melange_run wd q info k =
    Ret (s ← lp_solve (melange_lp (slice_rates k wd q) info ((λ e, table_loads k (e_tputs e)) <$> info.*2));
         let sol := zip info.*1 (q_trunc <$> lp_y s) in
         Some (sol, total_cost (e_cost <$> info.*2) sol.*2)).
Proof.
  intros Hwd Hinfo Hr Hc Hk. unfold melange_run, rate_histogram. rewrite (omapM_table (λ w, w * q)%Q r c) by done.
  cbn [obind]. fold (slice_rates k wd q). set (slices := slice_rates k wd q).
  assert (length slices = (r * c * k)%nat) as Hlen.
  { unfold slices, slice_rates. rewrite length_fmap. by apply repeat_cells_length, fmap_shape. }
  assert (Forall (λ e, has_shape r c (e_tputs e)) info.*2) as Hi by (apply Forall_fmap; exact Hinfo).
  assert (Forall (λ e, tputs_to_loads_2d (e_tputs e) =
            Ret ((λ row : list pynum, (λ t, load_of (to_q t)) <$> row) <$> e_tputs e)) info.*2) as Ht.
  { eapply Forall_impl; [exact Hi|]. intros e He. by apply (omapM_table (λ t, load_of (to_q t)) r c). }
  rewrite (omapM_Ret _ (λ e, (λ row : list pynum, (λ t, load_of (to_q t)) <$> row) <$> e_tputs e)) by done. cbn [obind].
  rewrite (omapM_Ret _ (λ e, table_loads k (e_tputs e))).
  - cbn [obind]. destruct slices; [simpl in Hlen; nia|]. by destruct (lp_solve _).
  - apply Forall_forall. intros e He. unfold slice_loads_of. rewrite (proj1 (Forall_forall _ _) Ht e He). cbn [obind].
    fold (table_loads k (e_tputs e)). unfold table_loads at 1. rewrite (repeat_cells_length k r c).
    + by rewrite Hlen, Nat.eqb_refl.
    + apply fmap_shape. by eapply (Forall_forall (λ e, has_shape r c (e_tputs e))).
Qed.

Context {Laws : LpLaws LP}.

(** What the solver answers, when it does. *)
Lemma melange_ok r c k wd q info :
  has_shape r c wd → Forall (λ e, has_shape r c (e_tputs e.2)) info → (0 < r)%nat → (0 < c)%nat → (0 < k)%nat →
  let p := melange_lp (slice_rates k wd q) info ((λ e, table_loads k (e_tputs e)) <$> info.*2) in
  ∃ res, melange_run wd q info k = Ret res ∧ (res = None ↔ lp_solve p = None) ∧
    ∀ sol cost, res = Some (sol, cost) →
      sol.*1 = info.*1 ∧ cost = total_cost (e_cost <$> info.*2) sol.*2 ∧
      (∃ x, feasible p x sol.*2) ∧
      ∀ x' ys', feasible p x' ys' → (cost <= total_cost (e_cost <$> info.*2) ys')%Q.
Proof.
  intros Hwd Hinfo Hr Hc Hk p.
  rewrite (melange_run_eq r c) by done. eexists. split; [done|]. split; [by unfold p; destruct (lp_solve _)|]. intros sol cost Hres.
  fold p in Hres. destruct (lp_solve p) as [s|] eqn:Hs; simplify_eq/=.
  destruct (solve_optimal _ _ Hs) as (ys & Hys & Hf & Hopt). rewrite Hys, q_trunc_inject.
  pose proof Hf as (_ & Hlen & _). unfold p, melange_lp in Hlen. cbn [lp_costs] in Hlen. rewrite !length_fmap in Hlen.
  rewrite fst_zip, snd_zip by (rewrite length_fmap; lia). split_and!; [done|done|by eexists|exact Hopt].
Qed.

(** The solver's answer is a cheapest one. For a distribution and GPU tables of
    one nonempty shape, [MelangeSolver.run] returns; the slices of its integer
    program carry the whole request rate; and when it returns a solution, this
    gives every GPU type a number such that each slice can be served by one type
    within its capacity, the reported cost is the cost of these numbers, and no
    other numbers that can serve the load cost less. *)
Theorem melange_optimal r c k wd q info :
  has_shape r c wd → Forall (λ e, has_shape r c (e_tputs e.2)) info → (0 < r)%nat → (0 < c)%nat → (0 < k)%nat →
  let p := melange_lp (slice_rates k wd q) info ((λ e, table_loads k (e_tputs e)) <$> info.*2) in
  (Qsum (slice_rates k wd q) == Qsum (concat wd) * q)%Q ∧
  ∃ res, melange_run wd q info k = Ret res ∧
    ∀ sol cost, res = Some (sol, cost) →
      sol.*1 = info.*1 ∧ cost = total_cost (e_cost <$> info.*2) sol.*2 ∧
      (∃ x, feasible p x sol.*2) ∧
      ∀ x' ys', feasible p x' ys' → (cost <= total_cost (e_cost <$> info.*2) ys')%Q.
Proof. intros Hwd Hinfo Hr Hc Hk p. split; [by apply slice_rates_sum|]. destruct (melange_ok r c k wd q info) as (res & E & _ & H); [done..|]. by exists res. Qed.

End solver_result.

(** ** A solver for one GPU type

    It assigns every slice to the type and rounds the load up. *)

Definition one_type_load (loads : list Q) (slices : nat) : Q := column_load loads (replicate slices [1]) 0.

Definition one_type_solve (p : lp) : option lp_solution :=
  match lp_costs p, lp_loads p with
  | [c], [loads] =>
    if Qle_bool 0 c then
      Some (mkSolution (replicate (lp_slices p) [1])
              [inject_Z (Z.max 0 (Qround.Qceiling (one_type_load loads (lp_slices p))))])
    else None
  | _, _ => None
  end.

#[export] Instance one_type_solver : LpSolver := {| lp_solve := one_type_solve |}.

Lemma one_type_rows n x :
  length x = n → Forall (λ row, length row = 1%nat ∧ Forall (λ v, v = 0 ∨ v = 1) row ∧ foldr Z.add 0 row = 1) x →
  x = replicate n [1].
Proof.
  intros <-. induction 1 as [|row x (Hl & _ & Hs) _ IH]; simpl; [done|]. rewrite <-IH.
  destruct row as [|v []]; simplify_eq/=. by replace v with 1 by lia.
Qed.

#[export] Instance one_type_laws : LpLaws one_type_solver.
Proof.
  split. intros [costs loads n] s Hs. unfold lp_solve, one_type_solver, one_type_solve in Hs. simpl in Hs.
  destruct costs as [|c []], loads as [|ls []]; try done. destruct (Qle_bool_spec 0 c) as [Hc|]; simplify_eq/=.
  set (y := Z.max 0 _). exists [y]. split; [done|]. split.
  - split_and!; [apply length_replicate|done| |constructor; [unfold y; lia|done]|].
    + apply Forall_replicate. split_and!; [done|constructor; [by right|done]|done].
    + intros [|[]] l z; [|done..]. intros [= <-] [= <-]. fold (one_type_load ls n).
      eapply Qle_trans; [apply Qround.Qle_ceiling|]. rewrite <-Zle_Qle. unfold y. lia.
  - intros x' ys' (Hlen & Hys & Hrows & Hpos & Hcap). simpl in *.
    destruct ys' as [|y' []]; try done. rewrite (one_type_rows n x') in Hcap by done.
    assert (y ≤ y') as Hle.
    { unfold y. apply Z.max_lub; [by inversion Hpos|]. rewrite Zle_Qle.
      pose proof (Hcap 0%nat ls y' eq_refl eq_refl) as Hq. apply Qround.Qceiling_resp_le in Hq.
      rewrite Qround.Qceiling_Z in Hq. by rewrite <-Zle_Qle. }
    unfold total_cost. simpl. rewrite Zle_Qle in Hle. nra.
Qed.

(** ** Witnesses *)

Definition demo_optimizer : Optimizer := (set_profile id demo_profile (new_Optimizer 100)).2.

Definition demo_int_optimizer : Optimizer := (set_profile id demo_int_profile (new_Optimizer 100)).2.

Definition demo_groups : list (list DataPoint) := [[mkPoint 3 20 1; mkPoint 5 30 2]; [mkPoint 9 40 3]]%Q.

Lemma ascending_two (a b : Q) : (a < b)%Q → ascending [a; b].
Proof.
  intros Hab. split; [done|]. intros i j Hij. simpl in Hij.
  do 2 (destruct j as [|j]; [do 2 (destruct i as [|i]; [try lia; done|]); lia|]). lia.
Qed.

Lemma demo_optimizer_for int :
  optimizer_for id [4; 8]%Q [16; 32]%Q int (if int then demo_int_optimizer else demo_optimizer).
Proof.
  split.
  { destruct int; apply set_profile_ok; done. }
  destruct int; (split_and!; [reflexivity|by apply ascending_two..|]; by eexists).
Qed.

Lemma workload_distribution_total_witness :
  ∃ o', set_workload_distribution (centers_of None demo_groups) 7 demo_optimizer = (Ret true, o') ∧
    Forall (λ x, 0 <= x)%Q (concat (workload_distribution o')) ∧
    (Qsum (concat (workload_distribution o')) == 1)%Q ∧
    total_request_rate o' = (7 * gpu_fraction demo_optimizer)%Q.
Proof.
  apply (workload_distribution_total id [4; 8]%Q [16; 32]%Q);
    [apply (demo_optimizer_for false)|discriminate|by repeat constructor].
Defined.

Lemma integer_profile_drops_load_witness :
  ∃ o', set_workload_distribution (centers_of None demo_groups) 7 demo_int_optimizer = (Ret true, o') ∧
    Forall (λ x, x = 0%Q) (concat (workload_distribution o')).
Proof.
  apply (integer_profile_drops_load id [4; 8]%Q [16; 32]%Q);
    [apply (demo_optimizer_for true)|simpl; lia|by repeat constructor].
Defined.

Lemma melange_optimal_witness :
  let wd := [[1 # 4; 1 # 4]; [1 # 2; 0]]%Q in
  let info := [("a10"%string, mkEntry 1 (tputs demo_profile))] in
  let p := melange_lp (slice_rates 4 wd 9) info ((λ e, table_loads 4 (e_tputs e)) <$> info.*2) in
  (∃ sol cost, melange_run wd 9 info 4 = Ret (Some (sol, cost))) ∧
  (Qsum (slice_rates 4 wd 9) == Qsum (concat wd) * 9)%Q ∧
  ∃ res, melange_run wd 9 info 4 = Ret res ∧
    ∀ sol cost, res = Some (sol, cost) →
      sol.*1 = info.*1 ∧ cost = total_cost (e_cost <$> info.*2) sol.*2 ∧
      (∃ x, feasible p x sol.*2) ∧
      ∀ x' ys', feasible p x' ys' → (cost <= total_cost (e_cost <$> info.*2) ys')%Q.
Proof.
  intros wd info p. split; [by eexists _, _|].
  apply (melange_optimal 2 2 4 wd 9 info); [split; [done|by repeat constructor]| |lia..].
  by repeat constructor.
Defined.
