(* ===== verification/LoadReader.v ===== *)
(** * The readers of the load and of the profiles

    Models [python/aibrix/aibrix/gpu_optimizer/load_monitor/load_reader.py]
    ([LoadRecord], [DatasetLoadReader], [WorkloadReader], [GatewayLoadReader]) and
    profile_reader.py ([FileProfileReader], [RedisProfileReader]).

    The Redis server is a parameter: what a [scan] and a [get] return at the time
    of a call. JSON text is parsed by a parameter into the values [jv]. Strings are
    ASCII, where [\d] is a digit 0-9. The log lines are left out. *)

From Stdlib Require Import Ascii.
From stdpp Require Import pretty sorting.
From S2P Require Import Prelude Digits Num LoadBuffer Optimizer.

Open Scope Z_scope.
Open Scope py_scope.

(** ** Records *)

(** A tuple of three or four entries. *)
Record LoadRecord := mkRecord { rec_ts : Q; input_tokens : Q; output_tokens : Q; rec_freq : option Z }.

Definition freq (r : LoadRecord) : Z := default 1 (rec_freq r).

(** ** Values of JSON *)

Inductive jv :=
| JNull | JBool (b : bool) | JInt (z : Z) | JFloat (q : Q) | JStr (s : string)
| JList (l : list jv) | JDict (d : list (string * jv)).

(** A value in a comparison or a division with a number. *)
Definition num_of (v : jv) : outcome Q :=
  match v with
  | JInt z => Ret (inject_Z z)
  | JFloat q => Ret q
  | JBool b => Ret (if b then 1 else 0)%Q
  | _ => Raise TypeError
  end.

(** [int(v)] *)
Definition int_of (v : jv) : outcome Z :=
  match v with
  | JInt z => Ret z
  | JFloat q => Ret (q_trunc q)
  | JBool b => Ret (if b then 1 else 0)
  | JStr s => match py_int s with Some z => Ret z | None => Raise ValueError end
  | _ => Raise TypeError
  end.

(** [x / y] and [x % y] of Python *)
Definition py_div (x y : Q) : outcome Q := if Qeq_bool y 0 then Raise ZeroDivisionError else Ret (x / y)%Q.

Definition py_mod (x y : Q) : outcome Q :=
  if Qeq_bool y 0 then Raise ZeroDivisionError else Ret (x - y * inject_Z (Qfloor (x / y)))%Q.

(** ** [DatasetLoadReader] *)

Record DatasetLoadReader := mkDataset {
  d_df : list (Q * Q);   (* input and output tokens, in the logarithm *)
  d_rps : Z;
  d_interval : Z;
  d_n_read : Z;
  d_n : Z
}.

(** [log2_aggregate] of the two columns is a parameter of the constructor. *)
Definition new_Dataset (log2_aggregate : Q → Q) (rows : list (Q * Q)) (rps : Z) (scale : Q) (interval : Z) :
    DatasetLoadReader :=
  mkDataset ((λ r : Q * Q, (log2_aggregate (r.1 * scale)%Q, log2_aggregate (r.2 * scale)%Q)) <$> rows) rps interval 0 0.

(** [n_batch] is the draw of the Poisson distribution. *)
Definition dataset_read (n_batch : Z) (d : DatasetLoadReader) : (list LoadRecord * Q) * DatasetLoadReader :=
  let stop := Z.min (d_n_read d + n_batch) (py_len (d_df d)) in
  let chunk := py_slice (d_df d) (d_n_read d) stop in
  let records := (λ r : Q * Q, mkRecord (inject_Z (d_n d * d_interval d)) r.1 r.2 None) <$> chunk in
  ((records, match records with [] => 0%Q | _ => inject_Z (d_rps d) end),
   mkDataset (d_df d) (d_rps d) (d_interval d) stop (d_n d + 1)).

(** ** [WorkloadReader] *)

(** A row of the trace: its time in milliseconds and the prompt and output lengths
    of its requests. *)
Record trace_row := mkRow { timestamp : Q; requests : list (Q * Q) }.

Record WorkloadReader := mkWorkload {
  w_df : list trace_row;
  w_scale : Q;
  w_interval : Q;
  w_n_read : nat;
  w_n : Z;
  tick : Q;
  tick_df : option (list (Q * Q));
  w_start : Q
}.

Section workload.
(** [np.round(np.log2(x), 1)]: [None] when the logarithm is infinite. *)
Context (log2_round : Q → option Q).

(** [_read_next_tick] *)
Definition read_next_tick (df : list trace_row) (n_read : nat) : (Q * option (list (Q * Q))) * nat :=
  match df !! n_read with
  | None => ((0%Q, None), n_read)
  | Some row => (((timestamp row / 1000)%Q, Some (requests row)), S n_read)
  end.

Definition next_tick (w : WorkloadReader) : WorkloadReader :=
  let '((t, reqs), n) := read_next_tick (w_df w) (w_n_read w) in
  mkWorkload (w_df w) (w_scale w) (w_interval w) n (w_n w) t reqs (w_start w).

Definition new_Workload (df : list trace_row) (scale interval : Q) : WorkloadReader :=
  let '((t, reqs), n) := read_next_tick df 0 in
  mkWorkload df scale interval n 0 t reqs t.

(** The records of one tick; a request with an infinite logarithm is skipped. *)
Definition tick_records (scale ts : Q) (reqs : list (Q * Q)) : list LoadRecord :=
  omap (λ r : Q * Q,
          match log2_round (r.1 * scale)%Q, log2_round (r.2 * scale)%Q with
          | Some i, Some o => Some (mkRecord ts i o None)
          | _, _ => None
          end) reqs.

(** The [while] loop: one iteration per tick. *)
Fixpoint workload_loop (fuel : nat) (tick_start : Q) (w : WorkloadReader) (records : list LoadRecord) :
    outcome (list LoadRecord) * WorkloadReader :=
  match fuel with
  | O => (OutOfFuel, w)
  | S fuel' =>
    match tick_df w with
    | Some reqs =>
      if Qle_bool tick_start (tick w) && negb (Qle_bool (tick_start + w_interval w) (tick w)) then
        workload_loop fuel' tick_start (next_tick w)
          (records ++ tick_records (w_scale w) (tick w - w_start w) reqs)
      else (Ret records, w)
    | None => (Ret records, w)
    end
  end.

Definition workload_read (w : WorkloadReader) : outcome (list LoadRecord * Q) * WorkloadReader :=
  match tick_df w with
  | None => (Ret ([], 0%Q), w)
  | Some _ =>
    let tick_start := (w_start w + inject_Z (w_n w) * w_interval w)%Q in
    let '(o, w') := workload_loop (S (S (length (w_df w)) - w_n_read w)) tick_start w [] in
    let w'' := mkWorkload (w_df w') (w_scale w') (w_interval w') (w_n_read w') (w_n w' + 1) (tick w') (tick_df w')
                 (w_start w') in
    match o with
    | Ret records =>
      match py_div (inject_Z (py_len records)) (w_interval w) with
      | Ret rate => (Ret (records, rate), w'')
      | Raise e => (Raise e, w'')
      | OutOfFuel => (OutOfFuel, w'')
      end
    | Raise e => (Raise e, w')
    | OutOfFuel => (OutOfFuel, w')
    end
  end.

End workload.

(** ** [GatewayLoadReader] *)

(** The server at the time of a call: a page of keys per cursor, and the value of
    a key. [r_pages] bounds the pages of a scan. *)
Record redis := mkRedis {
  r_scan : Z → exn + Z * list string;
  r_get : string → exn + option string;
  r_pages : nat
}.

(** A reply of the client, or what it raises. *)
Definition reply {A} (r : exn + A) : outcome A := match r with inl e => Raise e | inr a => Ret a end.

Record GatewayLoadReader := mkGateway {
  g_start : Q;
  last_ts : Q;
  g_prefix : string;
  key_ts_alignment : jv;
  ver : Z
}.

Definition new_Gateway (model_name : string) (alignment : Z) : GatewayLoadReader :=
  mkGateway 0 0 ("aibrix:" +:+ model_name +:+ "_request_trace_") (JInt alignment) 3.

Definition set_last_ts (ts : Q) (g : GatewayLoadReader) : GatewayLoadReader :=
  mkGateway (g_start g) ts (g_prefix g) (key_ts_alignment g) (ver g).

Definition set_start (ts : Q) (g : GatewayLoadReader) : GatewayLoadReader :=
  mkGateway ts (last_ts g) (g_prefix g) (key_ts_alignment g) (ver g).

Definition set_alignment (a : jv) (g : GatewayLoadReader) : GatewayLoadReader :=
  mkGateway (g_start g) (last_ts g) (g_prefix g) a (ver g).

(** The longest run of digits at the front of a text. *)
Fixpoint take_digits (l : list Ascii.ascii) : list Z * list Ascii.ascii :=
  match l with
  | c :: l' =>
    match ascii_digit c with
    | Some d => let '(ds, rest) := take_digits l' in (d :: ds, rest)
    | None => ([], l)
    end
  | [] => ([], [])
  end.

(** The end of a text, for [$]: a final newline may follow. *)
Definition at_end (l : list Ascii.ascii) : bool :=
  match l with [] => true | [c] => Ascii.eqb c nl | _ => false end.

(** [re.search('^(\d+):(\d+)$', k)] *)
Definition match_key (k : string) : option (Z * Z) :=
  let '(ds1, rest) := take_digits (String.list_ascii_of_string k) in
  match ds1, rest with
  | _ :: _, c :: rest' =>
    if Ascii.eqb c ":"%char then
      let '(ds2, rest2) := take_digits rest' in
      match ds2 with
      | _ :: _ => if at_end rest2 then Some (digits_val ds1, digits_val ds2) else None
      | [] => None
      end
    else None
  | _, _ => None
  end.

(** [re.search('(?:.*?)_(\d+)$', strkey)]: the digits at the end, after an
    underscore. *)
Definition match_ts (k : string) : option Z :=
  let l := reverse (String.list_ascii_of_string k) in
  let l' := match l with c :: t => if Ascii.eqb c nl then t else l | [] => [] end in
  match take_digits l' with
  | ((_ :: _) as ds, c :: _) => if Ascii.eqb c "_"%char then Some (digits_val (reverse ds)) else None
  | _ => None
  end.

Section gateway.
Context (json_parse : string → option jv).

(** [read_key]: what is no JSON object raises. *)
Definition read_key (r : redis) (key : string) : outcome (option (list (string * jv))) :=
  try* data := reply (r_get r key) in
  match data with
  | None => Ret None
  | Some text =>
    match json_parse text with
    | Some (JDict d) => Ret (Some d)
    | _ => Raise Exception_
    end
  end.

Definition dict_get (d : list (string * jv)) (k : string) (dflt : jv) : jv := default dflt (assoc k d).

(** An entry of the profile; the records are appended in place. *)
Definition parse_entry (precision : jv) (ts : Q) (k : string) (v : jv) : M (list LoadRecord) Z :=
  if String.prefix "meta_" k then ret 0
  else
    match match_key k with
    | None => raise Exception_
    | Some (i, o) =>
      let* value := lift (int_of v) in
      if (value =? 0) && negb (match v with JStr s => String.eqb s "0" | _ => false end) then raise Exception_
      else
        let* p := lift (num_of precision) in
        let* inp := lift (py_div (inject_Z i) p) in
        let* out := lift (py_div (inject_Z o) p) in
        modify (λ rs, rs ++ [mkRecord ts inp out (Some value)]) ;;
        ret value
    end.

Fixpoint parse_entries (precision : jv) (ts : Q) (items : list (string * jv)) (total : Z) : M (list LoadRecord) Z :=
  match items with
  | [] => ret total
  | (k, v) :: rest =>
    let* value := parse_entry precision ts k v in
    parse_entries precision ts rest (total + value)
  end.

Definition on_records {A} : M (list LoadRecord) A → M (GatewayLoadReader * list LoadRecord) A :=
  zoom snd (λ rs s, (s.1, rs)).

(** [_parse_profiles]: the total and the pending requests. The state holds the
    reader, whose alignment follows the profile, and [out_records]. *)
Definition parse_profiles (profiles : list (string * jv)) (ts : Q) :
    M (GatewayLoadReader * list LoadRecord) (jv * jv) :=
  let* version := lift (num_of (dict_get profiles "meta_v" (JInt 1))) in
  let precision := dict_get profiles "meta_precision" (JInt 1) in
  (if Qle_bool 2 version
   then modify (λ s, (set_alignment (dict_get profiles "meta_interval_sec" (JInt 10)) s.1, s.2)) else ret tt) ;;
  let* total := on_records (parse_entries precision ts profiles 0) in
  if Qle_bool 3 version
  then ret (dict_get profiles "meta_total_reqs" (JInt 0), dict_get profiles "meta_pending_reqs" (JInt 0))
  else ret (JInt total, JInt 0).

(** [_get_rate] *)
Definition get_rate (total : jv) (g : GatewayLoadReader) : outcome Q :=
  try* t := num_of total in
  try* a := num_of (key_ts_alignment g) in
  py_div t a.

(** [while True: cursor, keys = self.client.scan(...)] *)
Fixpoint scan_loop (fuel : nat) (r : redis) (cursor : Z) (acc : list string) : outcome (list string) :=
  match fuel with
  | O => OutOfFuel
  | S fuel' =>
    try* page := reply (r_scan r cursor) in
    if page.1 =? 0 then Ret (acc ++ page.2) else scan_loop fuel' r page.1 (acc ++ page.2)
  end.

(** [sorted(matching_keys, key=lambda k: k[1])] *)
Fixpoint insert_ts (x : string * Z) (l : list (string * Z)) : list (string * Z) :=
  match l with
  | [] => [x]
  | y :: l' => if x.2 <? y.2 then x :: l else y :: insert_ts x l'
  end.

Definition sort_ts (l : list (string * Z)) : list (string * Z) := foldl (λ acc x, insert_ts x acc) [] l.

(** One key of the first batch: the records and the last rate. An exception ends
    the key, and the records it appended before stay. *)
Definition first_key (r : redis) (key : string * Z) : M (GatewayLoadReader * list LoadRecord) (option Q) :=
  catch
    (modify (λ s, (set_last_ts (inject_Z key.2) s.1, s.2)) ;;
     let* profiles := lift (read_key r key.1) in
     match profiles with
     | None | Some [] => ret None
     | Some d =>
       let* totals := parse_profiles d (inject_Z key.2) in
       let* s := get in
       let* rate := lift (get_rate totals.1 s.1) in
       ret (Some rate)
     end)
    (λ _, ret None).

Fixpoint first_keys (r : redis) (keys : list (string * Z)) (rate : Q) : M (GatewayLoadReader * list LoadRecord) Q :=
  match keys with
  | [] => ret rate
  | key :: rest => let* q := first_key r key in first_keys r rest (default rate q)
  end.

Definition read_first (now : Q) (r : redis) : M GatewayLoadReader (list LoadRecord * Q) := λ g,
  match scan_loop (r_pages r) r 0 [] with
  | Raise e => (Raise e, g)
  | OutOfFuel => (OutOfFuel, g)
  | Ret keys =>
    match omap (λ k, t ← match_ts k; Some (k, t)) keys with
    | [] => (Ret ([], 0%Q), set_last_ts now g)
    | matching_keys =>
      let '(o, (g', records)) := first_keys r (sort_ts matching_keys) 0 (g, []) in
      (match o with Ret rate => Ret (records, rate) | Raise e => Raise e | OutOfFuel => OutOfFuel end, g')
    end
  end.

(** [read] after the first call, for the aligned time. *)
Definition read_window (ts : Q) (r : redis) : M GatewayLoadReader (list LoadRecord * Q) :=
  let* g := get in
  let* a := lift (num_of (key_ts_alignment g)) in
  let* m := lift (py_mod ts a) in
  let ts := (ts - m)%Q in
  if Qle_bool ts (last_ts g) then ret ([], 0%Q)
  else
    let at_ := if ver g <? 3 then q_trunc (ts - a) else q_trunc ts in
    let* profiles := lift (read_key r (g_prefix g +:+ pretty at_)) in
    modify (set_last_ts ts) ;;
    match profiles with
    | None | Some [] => ret ([], 0%Q)
    | Some d => λ g1,
      let '(o, (g2, records)) := parse_profiles d ts (g1, []) in
      (try* totals := o in try* rate := get_rate totals.1 g2 in Ret (records, rate), g2)
    end.

Definition gateway_read (ts now : Q) (r : redis) : M GatewayLoadReader (list LoadRecord * Q) :=
  catch
    (let* g := get in
     if Qeq_bool (g_start g) 0 then modify (set_start ts) ;; read_first now r
     else read_window ts r)
    (λ _, ret ([], 0%Q)).

(** [next_available] *)
Definition next_available (g : GatewayLoadReader) : outcome Q :=
  try* a := num_of (key_ts_alignment g) in Ret (last_ts g + a + 2)%Q.

(** ** Profile readers *)

(** [GPUProfile( **profile)]: the fields by name, each with a default. *)
Definition profile_fields : list string := ["gpu"; "cost"; "tputs"; "indexes"; "created"]%string.

Definition construct_profile (v : jv) : outcome (list (string * jv)) :=
  match v with
  | JDict d => if forallb (λ k, bool_decide (k ∈ profile_fields)) d.*1 then Ret d else Raise TypeError
  | _ => Raise TypeError
  end.

(** A file: [json.load] reads all of it, so that when its text is no JSON value, the
    loop over the lines starts at the end. A line that is no JSON value ends the loop. *)
Fixpoint load_lines (lines : list string) : list jv :=
  match lines with
  | [] => []
  | line :: rest =>
    if forallb ascii_is_space (String.list_ascii_of_string line) then load_lines rest
    else match json_parse line with Some v => v :: load_lines rest | None => [] end
  end.

Definition load_file (text : string) : list jv :=
  match json_parse text with
  | Some v => [v]
  | None => let remaining := EmptyString in load_lines (readlines remaining)
  end.

(** [FileProfileReader.read]; [None] is a file that cannot be opened. *)
Definition file_profiles (files : list (option string)) : outcome (list (list (string * jv))) :=
  try* values := omapM (λ f, match f with Some text => Ret (load_file text) | None => Raise FileNotFoundError end) files in
  omapM construct_profile (concat values).

(** [RedisProfileReader.read] *)
Definition redis_profiles (r : redis) : outcome (list (list (string * jv))) :=
  try* keys := scan_loop (r_pages r) r 0 [] in
  omapM (λ key,
    try* data := reply (r_get r key) in
    match data with
    | None => Raise Exception_
    | Some text =>
      match json_parse text with
      | None => Raise JSONDecodeError
      | Some (JDict d) => construct_profile (JDict d)
      | Some _ => Raise Exception_
      end
    end) keys.

End gateway.

(** ** Lemmas: the dataset *)

Fixpoint dataset_reads (batches : list Z) (d : DatasetLoadReader) : list (list LoadRecord) * DatasetLoadReader :=
  match batches with
  | [] => ([], d)
  | n :: rest =>
    let '((records, _), d') := dataset_read n d in
    let '(rs, d'') := dataset_reads rest d' in (records :: rs, d'')
  end.

Definition record_tokens (r : LoadRecord) : Q * Q := (input_tokens r, output_tokens r).

Lemma tokens_of_records ts (rows : list (Q * Q)) :
  record_tokens <$> ((λ r : Q * Q, mkRecord ts r.1 r.2 None) <$> rows) = rows.
Proof. induction rows as [|[a b] rows IH]; csimpl; [done|]. by f_equal. Qed.

Lemma dataset_reads_ok batches d :
  0 ≤ d_n_read d ≤ py_len (d_df d) → Forall (λ n, 0 ≤ n) batches →
  let stop := Z.min (d_n_read d + foldr Z.add 0 batches) (py_len (d_df d)) in
  record_tokens <$> concat (dataset_reads batches d).1 = py_slice (d_df d) (d_n_read d) stop ∧
  d_n_read (dataset_reads batches d).2 = stop.
Proof.
  intros Hr Hn. revert d Hr. induction Hn as [|n ns Hn0 Hns IH]; intros d Hr; cbn zeta.
  { simpl. rewrite Z.add_0_r, Z.min_l by lia. split; [|done].
    rewrite py_slice_take_drop, Z.sub_diag by lia. done. }
  cbn [dataset_reads]. unfold dataset_read. set (stop := Z.min _ _). set (d' := mkDataset _ _ _ stop _).
  destruct (IH d') as [IH1 IH2]; [simpl; lia|]. destruct (dataset_reads ns d') as [rs d''].
  cbn [fst snd concat d_df d_n_read d' foldr] in *. assert (0 ≤ foldr Z.add 0 ns) as Hpos.
  { clear -Hns. induction Hns; simpl; lia. }
  rewrite fmap_app, tokens_of_records, IH1, IH2. replace (Z.min (stop + foldr Z.add 0 ns) (py_len (d_df d)))
    with (Z.min (d_n_read d + (n + foldr Z.add 0 ns)) (py_len (d_df d))) by (unfold stop; lia).
  split; [|done]. rewrite !py_slice_take_drop by lia.
  replace (Z.to_nat stop) with (Z.to_nat (d_n_read d) + Z.to_nat (stop - d_n_read d))%nat by lia.
  rewrite take_drop_adjacent. f_equal. lia.
Qed.

(** ** Lemmas: the trace *)

Section trace.
Context (log2_round : Q → option Q) (scale interval start : Q).

Definition row_time (r : trace_row) : Q := (timestamp r / 1000)%Q.

(** The times of a trace do not decrease. *)
Definition in_time_order (rows : list trace_row) : Prop := StronglySorted (λ a b, row_time a <= row_time b)%Q rows.

Definition before (bound : Q) (rows : list trace_row) : list trace_row :=
  List.filter (λ r, negb (Qle_bool bound (row_time r))) rows.

Definition from (bound : Q) (rows : list trace_row) : list trace_row :=
  List.filter (λ r, Qle_bool bound (row_time r)) rows.

Definition rows_records (rows : list trace_row) : list LoadRecord :=
  concat ((λ r, tick_records log2_round scale (row_time r - start) (requests r)) <$> rows).

(** The reader has consumed [done] and stands at the first row of [rest]. *)
Definition stands_at (w : WorkloadReader) (done rest : list trace_row) : Prop :=
  w_df w = done ++ rest ∧ w_scale w = scale ∧ w_interval w = interval ∧ w_start w = start ∧
  match rest with
  | [] => tick_df w = None ∧ w_n_read w = length done
  | r :: _ => tick w = row_time r ∧ tick_df w = Some (requests r) ∧ w_n_read w = S (length done)
  end.

Lemma next_tick_ok w done r rest :
  stands_at w done (r :: rest) → stands_at (next_tick w) (done ++ [r]) rest ∧ w_n (next_tick w) = w_n w.
Proof.
  intros (Hdf & Hs & Hi & Hst & _ & _ & Hn). unfold next_tick, read_next_tick, stands_at.
  rewrite Hdf, Hn, cons_middle, app_assoc. destruct rest as [|r' rest].
  - rewrite app_nil_r, lookup_ge_None_2 by (rewrite length_app; simpl; lia). simpl.
    rewrite length_app, Nat.add_1_r. done.
  - rewrite lookup_app_r by (rewrite length_app; simpl; lia).
    replace (_ - _)%nat with 0%nat by (rewrite length_app; simpl; lia). simpl.
    rewrite length_app, Nat.add_1_r. done.
Qed.

Lemma before_nil bound rows : Forall (λ r, bound <= row_time r)%Q rows → before bound rows = [] ∧ from bound rows = rows.
Proof.
  induction 1 as [|r rows Hr _ [IH1 IH2]]; simpl; [done|]. by rewrite (proj2 (Qle_bool_iff _ _) Hr), IH1, IH2.
Qed.

Lemma from_bound bound rows : Forall (λ r, bound <= row_time r)%Q (from bound rows).
Proof. apply Forall_forall. intros r [Hr _]%elem_of_filter_b. by apply Qle_bool_iff. Qed.

Lemma from_order bound rows : in_time_order rows → in_time_order (from bound rows).
Proof.
  unfold in_time_order. induction 1 as [|r rows _ IH Hr]; simpl; [constructor|]. destruct (Qle_bool _ _); [|done].
  constructor; [done|]. apply Forall_forall. intros r' [_ Hr']%elem_of_filter_b. by eapply Forall_forall in Hr.
Qed.

Lemma workload_loop_ok rest w done records fuel tick_start :
  stands_at w done rest → in_time_order rest → Forall (λ r, tick_start <= row_time r)%Q rest →
  (length rest < fuel)%nat →
  ∃ w', workload_loop log2_round fuel tick_start w records =
      (Ret (records ++ rows_records (before (tick_start + interval) rest)), w') ∧ w_n w' = w_n w ∧
    stands_at w' (done ++ before (tick_start + interval) rest) (from (tick_start + interval) rest).
Proof.
  intros Hw Hs Hlow. revert w done records fuel Hw.
  induction rest as [|r rest IH]; intros w done records [|fuel] Hw Hf; simpl in Hf; try lia; cbn [workload_loop].
  { pose proof Hw as (_ & _ & _ & _ & -> & _). exists w. simpl. by rewrite !app_nil_r. }
  pose proof Hw as (_ & Hsc & Hi & Hst & Htick & -> & _). rewrite Htick, Hi, Hst, Hsc.
  apply StronglySorted_inv in Hs as [Hs Hr]. apply Forall_cons in Hlow as [Hlr Hlow].
  rewrite (proj2 (Qle_bool_iff _ _) Hlr). simpl andb. unfold before, from. simpl List.filter.
  destruct (Qle_bool_spec (tick_start + interval) (row_time r)) as [Hle|Hgt]; simpl negb; cbn [andb].
  - exists w. destruct (before_nil (tick_start + interval) rest) as [Hb Hfr].
    { eapply Forall_impl; [exact Hr|]. simpl. intros r' Hr'. lra. }
    unfold before, from in Hb, Hfr. rewrite Hb, Hfr. unfold rows_records. simpl. rewrite !app_nil_r. done.
  - destruct (next_tick_ok w done r rest Hw) as [Hw' Hn].
    destruct (IH Hs Hlow (next_tick w) (done ++ [r]) (records ++ tick_records log2_round scale (row_time r - start) (requests r)) fuel Hw')
      as (w' & Hrun & Hn' & Hst'); [lia|].
    exists w'. rewrite Hrun. unfold rows_records. csimpl. rewrite <-!app_assoc. split_and!; [done|congruence|].
    by rewrite <-app_assoc in Hst'.
Qed.

End trace.

Section trace_reads.
Context (log2_round : Q → option Q) (scale interval start : Q) (Hinterval : (0 < interval)%Q).

Fixpoint workload_reads (n : nat) (w : WorkloadReader) : outcome (list (list LoadRecord)) * WorkloadReader :=
  match n with
  | O => (Ret [], w)
  | S n' =>
    match workload_read log2_round w with
    | (Ret (records, _), w') =>
      let '(o, w'') := workload_reads n' w' in (try* rs := o in Ret (records :: rs), w'')
    | (Raise e, w') => (Raise e, w')
    | (OutOfFuel, w') => (OutOfFuel, w')
    end
  end.

Lemma before_split b1 b2 rows :
  (b1 <= b2)%Q → in_time_order rows → before b2 rows = before b1 rows ++ before b2 (from b1 rows).
Proof.
  intros Hb Hs. induction Hs as [|r rows Hs IH Hr]; simpl; [done|]. unfold before, from. simpl List.filter.
  destruct (Qle_bool_spec b1 (row_time r)) as [Hle|Hgt]; cbn [negb].
  - destruct (before_nil b1 rows) as [Hn Hf]; [eapply Forall_impl; [exact Hr|]; simpl; intros; lra|].
    unfold before, from in Hn, Hf. rewrite Hn, Hf. done.
  - destruct (Qle_bool_spec b2 (row_time r)); [lra|]. cbn [negb]. simpl. f_equal. apply IH.
Qed.

(** The end of the window of the first [k] reads. *)
Definition window_end (k : Z) : Q := (start + inject_Z k * interval)%Q.

Lemma window_end_succ k : (window_end k + interval == window_end (k + 1))%Q.
Proof. unfold window_end. rewrite inject_Z_plus. change (inject_Z 1) with 1%Q. ring. Qed.

Lemma filter_bound_ext b1 b2 rows : (b1 == b2)%Q → before b1 rows = before b2 rows ∧ from b1 rows = from b2 rows.
Proof.
  intros Hb. unfold before, from. induction rows as [|r rows [IH1 IH2]]; simpl; [done|].
  assert (Qle_bool b1 (row_time r) = Qle_bool b2 (row_time r)) as ->.
  { destruct (Qle_bool_spec b1 (row_time r)), (Qle_bool_spec b2 (row_time r)); [done|lra|lra|done]. }
  by rewrite IH1, IH2.
Qed.

Lemma workload_read_ok k w done rest :
  stands_at scale interval start w done rest → in_time_order rest →
  (rest ≠ [] → w_n w = k) → Forall (λ r, window_end k <= row_time r)%Q rest →
  ∃ w' rate, workload_read log2_round w = (Ret (rows_records log2_round scale start (before (window_end (k + 1)) rest), rate), w') ∧
    stands_at scale interval start w' (done ++ before (window_end (k + 1)) rest) (from (window_end (k + 1)) rest) ∧
    (rest ≠ [] → w_n w' = k + 1).
Proof.
  intros Hw Hs Hk Hlow. unfold workload_read. destruct rest as [|r rest].
  { pose proof Hw as (_ & _ & _ & _ & -> & _). exists w, 0%Q. simpl. rewrite app_nil_r. done. }
  pose proof Hw as (Hdf & _ & Hi & Hst & _ & -> & Hn). rewrite Hst, Hi, (Hk ltac:(done)). fold (window_end k).
  destruct (filter_bound_ext _ _ (r :: rest) (window_end_succ k)) as [<- <-].
  destruct (workload_loop_ok log2_round scale interval start (r :: rest) w done [] (S (S (length (w_df w)) - w_n_read w))
              (window_end k) Hw Hs Hlow) as (w' & -> & Hn' & Hst'); [rewrite Hdf, Hn, length_app; simpl; lia|].
  cbn iota beta. unfold py_div. destruct (Qeq_bool interval 0) eqn:E; [apply Qeq_bool_iff in E; lra|].
  eexists _, _. split_and!; [done|exact Hst'|]. intros _. simpl. rewrite Hn', Hk; done.
Qed.

Lemma workload_reads_ok n k w done rest :
  stands_at scale interval start w done rest → in_time_order rest →
  (rest ≠ [] → w_n w = k) → Forall (λ r, window_end k <= row_time r)%Q rest →
  ∃ rs w', workload_reads n w = (Ret rs, w') ∧ length rs = n ∧
    concat rs = rows_records log2_round scale start (before (window_end (k + Z.of_nat n)) rest).
Proof.
  revert k w done rest. induction n as [|n IH]; intros k w done rest Hw Hs Hk Hlow; cbn [workload_reads].
  { exists [], w. split_and!; [done..|]. rewrite Z.add_0_r. by destruct (before_nil _ _ Hlow) as [-> _]. }
  destruct (workload_read_ok k w done rest Hw Hs Hk Hlow) as (w1 & rate & -> & Hw1 & Hk1).
  destruct (IH (k + 1) w1 _ _ Hw1) as (rs & w2 & -> & Hlen & Hc).
  - by apply from_order.
  - intros Hne. apply Hk1. intros ->. by destruct Hne.
  - apply from_bound.
  - cbn [obind]. eexists _, w2. split_and!; [done|simpl; by rewrite Hlen|]. simpl. rewrite Hc.
    rewrite (before_split (window_end (k + 1)) (window_end (k + Z.of_nat (S n))) rest); [|unfold window_end|done].
    + unfold rows_records. rewrite fmap_app, concat_app.
      by replace (k + 1 + Z.of_nat n) with (k + Z.of_nat (S n)) by lia.
    + assert (inject_Z (k + 1) <= inject_Z (k + Z.of_nat (S n)))%Q by (rewrite <-Zle_Qle; lia). nra.
Qed.

End trace_reads.

(** ** Properties: dataset and trace *)

(** The dataset reader deals every row out once. From a fresh reader, whatever
    the batch sizes drawn, the batches together are the first rows of the dataset
    in order, as many as were drawn or all of them. *)
Theorem dataset_reads_partition log2_aggregate rows rps scale interval batches :
  Forall (λ n, 0 ≤ n) batches →
  let d := new_Dataset log2_aggregate rows rps scale interval in
  record_tokens <$> concat (dataset_reads batches d).1 = take (Z.to_nat (foldr Z.add 0 batches)) (d_df d) ∧
  d_n_read (dataset_reads batches d).2 = Z.min (foldr Z.add 0 batches) (py_len rows).
Proof.
  intros Hb d. assert (0 ≤ foldr Z.add 0 batches) as Hpos by (clear -Hb; induction Hb; simpl; lia).
  assert (py_len (d_df d) = py_len rows) as Hl by (unfold d, py_len; simpl; by rewrite length_fmap).
  destruct (dataset_reads_ok batches d) as [H1 H2]; [split; [done|apply py_len_nonneg]|done|].
  rewrite H1, H2. rewrite Hl. change (d_n_read d) with 0. rewrite Z.add_0_l. split; [|done].
  pose proof (py_len_nonneg rows). rewrite py_slice_take_drop; [|lia..|rewrite Hl; lia]. rewrite drop_0, Z.sub_0_r.
  destruct (Z.le_ge_cases (foldr Z.add 0 batches) (py_len rows)); [by rewrite Z.min_l|].
  rewrite Z.min_r by done. unfold py_len in *. rewrite !take_ge by lia. done.
Qed.

(** The trace reader neither loses nor repeats a request. For a trace whose
    times do not decrease and a positive interval, any number of reads return, and
    their batches together are the requests of exactly the rows before the end of
    the last window, in order. *)
Theorem workload_reads_in_order log2_round df scale interval n :
  in_time_order df → (0 < interval)%Q →
  let w := new_Workload df scale interval in
  ∃ batches w', workload_reads log2_round n w = (Ret batches, w') ∧ length batches = n ∧
    concat batches = rows_records log2_round scale (w_start w)
                       (before (window_end interval (w_start w) (Z.of_nat n)) df).
Proof.
  intros Hs Hi w. destruct (workload_reads_ok log2_round scale interval (w_start w) Hi n 0 w [] df)
    as (rs & w' & Hrun & Hl & Hc); [|done| | |by exists rs, w'].
  - unfold w, new_Workload, read_next_tick. by destruct df.
  - intros _. unfold w, new_Workload, read_next_tick. by destruct df as [|? ?].
  - unfold w, new_Workload, read_next_tick. destruct df as [|r df]; simpl; [constructor|].
    apply StronglySorted_inv in Hs as [_ Hr]. unfold window_end. change (inject_Z 0) with 0%Q.
    constructor; [|eapply Forall_impl; [exact Hr|]]; simpl; unfold row_time; intros; lra.
Qed.

(** ** Lemmas: reading a window *)

Section windows.
Context (json_parse : string → option jv).

(** What parsing does to the records, whether or not it raises: it appends records
    of the window. *)
Definition appends {A} (ts : Q) (rs : list LoadRecord) (res : outcome A * list LoadRecord) : Prop :=
  res.1 ≠ OutOfFuel ∧ ∃ new, res.2 = rs ++ new ∧ Forall (λ r, rec_ts r = ts) new.

Lemma appends_nothing {A} ts rs (o : outcome A) : o ≠ OutOfFuel → appends ts rs (o, rs).
Proof. intros Ho. split; [done|]. exists []. by rewrite app_nil_r. Qed.

Lemma num_of_ends v : num_of v ≠ OutOfFuel.
Proof. by destruct v. Qed.

Lemma int_of_ends v : int_of v ≠ OutOfFuel.
Proof. destruct v; simpl; try done. by destruct (py_int s). Qed.

Lemma py_div_ends x y : py_div x y ≠ OutOfFuel.
Proof. unfold py_div. by destruct (Qeq_bool y 0). Qed.

Lemma lift_appends {A B} ts rs (o : outcome A) (k : A → M (list LoadRecord) B) :
  o ≠ OutOfFuel → (∀ a, appends ts rs (k a rs)) → appends ts rs (bind (lift o) k rs).
Proof. intros Ho Hk. unfold bind, lift. destruct o; [apply Hk|by apply appends_nothing|done]. Qed.

Lemma parse_entry_appends precision ts k v rs : appends ts rs (parse_entry precision ts k v rs).
Proof.
  unfold parse_entry. destruct (String.prefix _ _); [by apply appends_nothing|].
  destruct (match_key k) as [[i o]|]; [|by apply appends_nothing].
  apply lift_appends; [apply int_of_ends|]. intros value. destruct (_ && _); [by apply appends_nothing|].
  apply lift_appends; [apply num_of_ends|]. intros p. apply lift_appends; [apply py_div_ends|]. intros inp.
  apply lift_appends; [apply py_div_ends|]. intros out. split; [done|]. eexists. split; [done|]. by constructor.
Qed.

Lemma parse_entries_appends precision ts items total rs : appends ts rs (parse_entries precision ts items total rs).
Proof.
  revert total rs. induction items as [|[k v] items IH]; intros total rs; simpl; [by apply appends_nothing|].
  unfold bind. destruct (parse_entry_appends precision ts k v rs) as (Ho & new & Hrs & Hnew).
  destruct (parse_entry precision ts k v rs) as [[value|e|] rs1]; simpl in *; [|by split; [|exists new]|done].
  subst rs1. destruct (IH (total + value) (rs ++ new)) as (Ho2 & new2 & Hrs2 & Hnew2). split; [done|].
  exists (new ++ new2). split; [by rewrite Hrs2, app_assoc|]. by apply Forall_app.
Qed.

Lemma parse_profiles_appends d ts g rs o g' rs' :
  parse_profiles d ts (g, rs) = (o, (g', rs')) →
  appends ts rs (o, rs') ∧ last_ts g' = last_ts g ∧ g_start g' = g_start g.
Proof.
  unfold parse_profiles, bind at 1, lift. destruct (num_of _) as [version|e|] eqn:Hv;
    [|intros [= <- <- <-]; by split; [apply appends_nothing|]|by destruct (num_of_ends _ Hv)].
  set (g1 := if Qle_bool 2 version then set_alignment (dict_get d "meta_interval_sec" (JInt 10)) g else g).
  assert ((if Qle_bool 2 version
           then modify (λ s : GatewayLoadReader * list LoadRecord,
                          (set_alignment (dict_get d "meta_interval_sec" (JInt 10)) s.1, s.2)) else ret tt) (g, rs) =
          (Ret tt, (g1, rs))) as H1 by (unfold g1; by destruct (Qle_bool 2 version)).
  rewrite (bind_Ret _ _ _ _ _ H1). unfold bind, on_records, zoom. cbn [snd fst].
  destruct (parse_entries_appends (dict_get d "meta_precision" (JInt 1)) ts d 0 rs) as (Ho & new & Hrs & Hnew).
  assert (last_ts g1 = last_ts g ∧ g_start g1 = g_start g) as Hg by (unfold g1; by destruct (Qle_bool 2 version)).
  destruct (parse_entries _ _ _ _ _) as [[total|e|] rs1]; simpl in *; [destruct (Qle_bool 3 version)| |done];
    intros [= <- <- <-]; (split; [by split; [|exists new]|done]).
Qed.

Lemma get_rate_ends total g : get_rate total g ≠ OutOfFuel.
Proof.
  unfold get_rate. pose proof (num_of_ends total). destruct (num_of total); simpl; [|done..].
  pose proof (num_of_ends (key_ts_alignment g)). destruct (num_of (key_ts_alignment g)); simpl; [|done..]. apply py_div_ends.
Qed.

(** A read after the first: what it returns is new. *)
Definition window_read (g : GatewayLoadReader) (res : outcome (list LoadRecord * Q) * GatewayLoadReader) : Prop :=
  g_start res.2 = g_start g ∧ (last_ts g <= last_ts res.2)%Q ∧ res.1 ≠ OutOfFuel ∧
  ∀ records rate, res.1 = Ret (records, rate) →
    Forall (λ r, (last_ts g < rec_ts r)%Q ∧ rec_ts r = last_ts res.2) records.

Lemma window_read_nothing g (o : outcome (list LoadRecord * Q)) :
  o ≠ OutOfFuel → (∀ records rate, o = Ret (records, rate) → records = []) → window_read g (o, g).
Proof. intros Ho Hr. split_and!; [done|simpl; lra|done|]. intros records rate H. by rewrite (Hr _ _ H). Qed.

Lemma read_window_ok ts r g : window_read g (read_window json_parse ts r g).
Proof.
  unfold read_window, bind at 1, get, bind at 1, lift.
  destruct (num_of (key_ts_alignment g)) as [a|e|] eqn:Ha; [|by apply window_read_nothing|by destruct (num_of_ends _ Ha)].
  unfold bind at 1, lift, py_mod. destruct (Qeq_bool a 0); [by apply window_read_nothing|]. cbn iota beta.
  set (ts' := (ts - _)%Q). destruct (Qle_bool_spec ts' (last_ts g)) as [|Hlt].
  { apply window_read_nothing; [done|]. by intros records rate [= <- <-]. }
  unfold bind at 1, lift. destruct (read_key json_parse r _) as [profiles|e|] eqn:Hk;
    [|by apply window_read_nothing|].
  - unfold bind at 1, modify. cbn iota beta. assert (window_read g (Ret ([], 0%Q), set_last_ts ts' g)) as Hempty.
    { split_and!; [done|simpl; lra|done|]. by intros records rate [= <- <-]. }
    destruct profiles as [[|e d]|]; [exact Hempty| |exact Hempty].
    destruct (parse_profiles (e :: d) ts' (set_last_ts ts' g, [])) as [o [g2 rs]] eqn:Hp.
    destruct (parse_profiles_appends _ _ _ _ _ _ _ Hp) as ((Ho & new & Hrs & Hnew) & Hl & Hs). simpl in *. subst rs.
    unfold window_read. simpl. rewrite Hl, Hs. split_and!; [done|lra| |].
    + destruct o as [totals| |]; simpl; [|done..]. pose proof (get_rate_ends totals.1 g2). by destruct (get_rate _ _).
    + intros records rate. destruct o as [totals| |]; simpl; [|done..]. destruct (get_rate _ _); simpl; [|done..].
      intros [= <- <-]. eapply Forall_impl; [exact Hnew|]. simpl. intros x ->. by split.
  - exfalso. revert Hk. unfold read_key. destruct (r_get r _) as [e|[text|]]; simpl; [done| |done].
    by destruct (json_parse text) as [[]|].
Qed.

Lemma gateway_read_ok ts now r g :
  ¬ (g_start g == 0)%Q →
  ∃ records rate g', gateway_read json_parse ts now r g = (Ret (records, rate), g') ∧ g_start g' = g_start g ∧
    (last_ts g <= last_ts g')%Q ∧ Forall (λ x, (last_ts g < rec_ts x)%Q ∧ rec_ts x = last_ts g') records.
Proof.
  intros Hs. unfold gateway_read, catch, bind at 1, get. destruct (Qeq_bool (g_start g) 0) eqn:E; [by apply Qeq_bool_iff in E|].
  destruct (read_window_ok ts r g) as (H1 & H2 & H3 & H4). destruct (read_window json_parse ts r g) as [[[records rate]|e|] g'];
    simpl in *; [|by eexists [], _, _|done]. eexists _, _, _. split_and!; [done..|]. by eapply H4.
Qed.

(** Reads at given times, each with the server of that time. *)
Fixpoint gateway_reads (calls : list (Q * Q * redis)) : M GatewayLoadReader (list (list LoadRecord)) :=
  match calls with
  | [] => ret []
  | (ts, now, r) :: rest =>
    let* b := gateway_read json_parse ts now r in
    let* bs := gateway_reads rest in
    ret (b.1 :: bs)
  end.

Definition all_before (b1 b2 : list LoadRecord) : Prop := ∀ r1 r2, r1 ∈ b1 → r2 ∈ b2 → (rec_ts r1 < rec_ts r2)%Q.

Lemma gateway_reads_ok calls g :
  ¬ (g_start g == 0)%Q →
  ∃ bs g', gateway_reads calls g = (Ret bs, g') ∧ length bs = length calls ∧ StronglySorted all_before bs ∧
    Forall (Forall (λ x, last_ts g < rec_ts x)%Q) bs.
Proof.
  revert g. induction calls as [|[[ts now] r] calls IH]; intros g Hs; simpl.
  { exists [], g. split_and!; [done..|constructor|constructor]. }
  destruct (gateway_read_ok ts now r g Hs) as (records & rate & g1 & H1 & Hs1 & Hl & Hr).
  destruct (IH g1) as (bs & g2 & H2 & Hlen & Hsort & Hall); [by rewrite Hs1|].
  exists (records :: bs), g2. rewrite (bind_Ret _ _ _ _ _ H1), (bind_Ret _ _ _ _ _ H2).
  split_and!; [done|simpl; by rewrite Hlen| |].
  - constructor; [done|]. eapply Forall_impl; [exact Hall|]. intros b Hb r1 r2 Hr1 Hr2.
    rewrite Forall_forall in Hr, Hb. destruct (Hr _ Hr1) as [_ ->]. by apply Hb.
  - constructor; [eapply Forall_impl; [exact Hr|]; by intros x [? _]|].
    eapply Forall_impl; [exact Hall|]. intros b Hb. eapply Forall_impl; [exact Hb|]. simpl. intros x Hx. lra.
Qed.

End windows.

(** ** Lemmas: numbers in keys *)

Lemma take_digits_app cs ds rest :
  is_digits cs ds → (∀ c l, rest = c :: l → ascii_digit c = None) → take_digits (cs ++ rest) = (ds, rest).
Proof.
  intros Hd Hr. induction Hd as [|c d cs ds Hc _ IH]; simpl.
  - destruct rest as [|c l]; [done|]. simpl. by rewrite (Hr c l).
  - by rewrite Hc, IH.
Qed.

(** ** The profiles the gateway writes *)

Definition encode_key (i o : N) : string := pretty i +:+ String ":" (pretty o).

Definition encode_entry (e : N * N * Z) : string * jv := (encode_key e.1.1 e.1.2, JInt e.2).

Definition encode_profile (precision interval total pending : Z) (entries : list (N * N * Z)) : list (string * jv) :=
  [("meta_v"%string, JInt 3); ("meta_precision"%string, JInt precision); ("meta_interval_sec"%string, JInt interval);
   ("meta_total_reqs"%string, JInt total); ("meta_pending_reqs"%string, JInt pending)] ++ (encode_entry <$> entries).

(** The record an entry stands for. *)
Definition entry_record (precision : Z) (ts : Q) (e : N * N * Z) : LoadRecord :=
  mkRecord ts (inject_Z (Z.of_N e.1.1) / inject_Z precision) (inject_Z (Z.of_N e.1.2) / inject_Z precision) (Some e.2).

Lemma match_encode_key i o : match_key (encode_key i o) = Some (Z.of_N i, Z.of_N o).
Proof.
  destruct (pretty_digits i) as (c1 & cs1 & ds1 & H1 & D1 & V1), (pretty_digits o) as (c2 & cs2 & ds2 & H2 & D2 & V2).
  unfold match_key, encode_key. rewrite list_ascii_append. cbn [String.list_ascii_of_string]. rewrite H1, H2.
  rewrite (take_digits_app _ ds1) by (done || by intros c l [= <- <-]).
  destruct ds1 as [|d1 ds1]; [by inversion D1|]. cbn [Ascii.eqb]. simpl (Ascii.eqb _ _).
  replace (c2 :: cs2) with ((c2 :: cs2) ++ []) by by rewrite app_nil_r.
  rewrite (take_digits_app _ ds2) by done. destruct ds2 as [|d2 ds2]; [by inversion D2|]. simpl at_end. by rewrite V1, V2.
Qed.

Lemma encode_key_no_meta i o : String.prefix "meta_" (encode_key i o) = false.
Proof.
  destruct (pretty_digits i) as (c & cs & ds & H1 & D1 & _). unfold encode_key.
  destruct (pretty i) as [|c' s]; [done|]. rewrite append_cons. simpl in H1. assert (c' = c) as -> by congruence.
  inversion D1 as [|? ? ? ? Hc]; subst. 
  simpl. match goal with |- match ?x with _ => _ end = _ => destruct x as [E|]; [|done] end. by rewrite <-E in Hc.
Qed.

Lemma parse_encoded precision ts entries total rs :
  precision ≠ 0 → Forall (λ e, e.2 ≠ 0) entries →
  parse_entries (JInt precision) ts (encode_entry <$> entries) total rs =
    (Ret (total + foldr (λ e, Z.add e.2) 0 entries), rs ++ (entry_record precision ts <$> entries)).
Proof.
  intros Hp He. revert total rs. induction He as [|[[i o] f] entries Hf _ IH]; intros total rs.
  { simpl. by rewrite app_nil_r, Z.add_0_r. }
  rewrite !fmap_cons. unfold encode_entry at 1. cbn [parse_entries fst snd].
  assert (parse_entry (JInt precision) ts (encode_key i o) (JInt f) rs =
          (Ret f, rs ++ [entry_record precision ts (i, o, f)])) as H.
  { unfold parse_entry. rewrite encode_key_no_meta, match_encode_key. unfold bind, lift, int_of. simpl in Hf.
    destruct (Z.eqb_spec f 0); [done|]. cbn [andb num_of]. unfold py_div.
    assert (Qeq_bool (inject_Z precision) 0 = false) as ->; [|done].
    apply not_true_iff_false. rewrite Qeq_bool_iff. unfold Qeq, inject_Z. simpl. lia. }
  rewrite (bind_Ret _ _ _ _ _ H), IH. cbn [foldr snd]. rewrite <-app_assoc. do 2 f_equal. lia.
Qed.

Lemma parse_meta precision ts k v rest total rs :
  String.prefix "meta_" k = true →
  parse_entries precision ts ((k, v) :: rest) total rs = parse_entries precision ts rest total rs.
Proof. intros Hk. simpl. unfold parse_entry, bind. rewrite Hk. simpl. by rewrite Z.add_0_r. Qed.

Lemma parse_encode_profile precision interval total pending entries ts g rs :
  precision ≠ 0 → Forall (λ e, e.2 ≠ 0) entries →
  parse_profiles (encode_profile precision interval total pending entries) ts (g, rs) =
    (Ret (JInt total, JInt pending),
     (set_alignment (JInt interval) g, rs ++ (entry_record precision ts <$> entries))).
Proof.
  intros Hp He. set (d := encode_profile _ _ _ _ _).
  assert (dict_get d "meta_v" (JInt 1) = JInt 3) as E1 by reflexivity.
  assert (dict_get d "meta_precision" (JInt 1) = JInt precision) as E2 by reflexivity.
  assert (dict_get d "meta_interval_sec" (JInt 10) = JInt interval) as E3 by reflexivity.
  assert (dict_get d "meta_total_reqs" (JInt 0) = JInt total) as E4 by reflexivity.
  assert (dict_get d "meta_pending_reqs" (JInt 0) = JInt pending) as E5 by reflexivity.
  unfold parse_profiles. rewrite E1, E2, E3, E4, E5. unfold bind, lift, modify, on_records, zoom. simpl (num_of _). cbn iota beta.
  change (Qle_bool 2 (inject_Z 3)) with true. change (Qle_bool 3 (inject_Z 3)) with true. cbn iota beta. cbn [fst snd].
  unfold d, encode_profile. cbn [app].
  rewrite !parse_meta by done. by rewrite parse_encoded.
Qed.


(** ** Lemmas: the first read *)

Section first_read.
Context (json_parse : string → option jv).

Lemma first_key_ok r key g rs :
  ∃ q g' new, first_key json_parse r key (g, rs) = (Ret q, (g', rs ++ new)) ∧ g_start g' = g_start g ∧
    last_ts g' = inject_Z key.2 ∧ Forall (λ x, rec_ts x = inject_Z key.2) new.
Proof.
  unfold first_key, catch, bind at 1, modify. cbn iota beta. cbn [fst snd].
  assert (∃ q g' new, (Ret None, (set_last_ts (inject_Z key.2) g, rs)) = (Ret q, (g', rs ++ new)) ∧ g_start g' = g_start g ∧
    last_ts g' = inject_Z key.2 ∧ Forall (λ x, rec_ts x = inject_Z key.2) new) as Hnone
    by (eexists (None : option Q), _, []; by rewrite app_nil_r).
  unfold bind at 1, lift. destruct (read_key json_parse r key.1) as [[[|e d]|]|e|] eqn:Hk; [exact Hnone| |exact Hnone..|].
  - unfold bind at 1. destruct (parse_profiles (e :: d) _ _) as [o [g2 rs2]] eqn:Hp.
    destruct (parse_profiles_appends _ _ _ _ _ _ _ Hp) as ((Ho & new & Hrs & Hnew) & Hl & Hs). simpl in Hl, Hs, Hrs, Ho. subst rs2.
    destruct o as [totals|e'|]; [| |done]; unfold bind, get, lift.
    + pose proof (get_rate_ends totals.1 g2) as Hr. simpl. destruct (get_rate totals.1 g2); [| |done]; by eexists _, g2, new.
    + by eexists _, g2, new.
  - exfalso. revert Hk. unfold read_key. destruct (r_get r _) as [e|[text|]]; simpl; [done| |done].
    by destruct (json_parse text) as [[]|].
Qed.

Lemma insert_ts_sorted x l :
  StronglySorted (λ a b, a.2 ≤ b.2) l → StronglySorted (λ a b : string * Z, a.2 ≤ b.2) (insert_ts x l) ∧
  ∀ y, y ∈ insert_ts x l ↔ y = x ∨ y ∈ l.
Proof.
  induction 1 as [|a l Hs [IH1 IH2] Ha]; simpl.
  { split; [by repeat constructor|]. set_solver. }
  destruct (Z.ltb_spec x.2 a.2) as [Hlt|Hge].
  - split; [|set_solver]. constructor; [by constructor|]. constructor; [lia|].
    eapply Forall_impl; [exact Ha|]. simpl. intros; lia.
  - split; [|set_solver]. constructor; [done|]. rewrite Forall_forall in Ha |- *. intros y [->|Hy]%IH2; [lia|by apply Ha].
Qed.

Lemma sort_ts_sorted l : StronglySorted (λ a b, a.2 ≤ b.2) (sort_ts l).
Proof.
  unfold sort_ts. assert (∀ acc, StronglySorted (λ a b : string * Z, a.2 ≤ b.2) acc →
    StronglySorted (λ a b, a.2 ≤ b.2) (foldl (λ acc x, insert_ts x acc) acc l)) as H; [|apply H; constructor].
  induction l as [|x l IH]; intros acc Hacc; simpl; [done|]. apply IH. by apply insert_ts_sorted.
Qed.

Lemma first_keys_ok r keys q g rs :
  StronglySorted (λ a b, a.2 ≤ b.2) keys →
  StronglySorted (λ a b, rec_ts a <= rec_ts b)%Q rs → Forall (λ x, rec_ts x <= last_ts g)%Q rs →
  Forall (λ k, last_ts g <= inject_Z k.2)%Q keys →
  ∃ q' g' rs', first_keys json_parse r keys q (g, rs) = (Ret q', (g', rs')) ∧ g_start g' = g_start g ∧
    StronglySorted (λ a b, rec_ts a <= rec_ts b)%Q rs' ∧ Forall (λ x, rec_ts x <= last_ts g')%Q rs'.
Proof.
  intros Hk. revert q g rs. induction Hk as [|key keys Hk IH Hkey]; intros q g rs Hrs Hle Hlow; cbn [first_keys].
  { by eexists q, g, rs. }
  apply Forall_cons in Hlow as [Hlk Hlow].
  destruct (first_key_ok r key g rs) as (q1 & g1 & new & H1 & Hs1 & Hl1 & Hnew). rewrite (bind_Ret _ _ _ _ _ H1).
  destruct (IH (default q q1) g1 (rs ++ new)) as (q' & g' & rs' & -> & Hs & Hsort & Hall).
  - apply StronglySorted_app; split_and!; [|done|].
    + intros a b Ha Hb. rewrite Forall_forall in Hle, Hnew. rewrite (Hnew b Hb). specialize (Hle a Ha). simpl in Hle. lra.
    + clear -Hnew. induction Hnew as [|x l Hx Hl IH]; [constructor|]. constructor; [done|].
      eapply Forall_impl; [exact Hl|]. intros y Hy. simpl in *. rewrite Hx, Hy. lra.
  - rewrite Hl1. apply Forall_app. split; [eapply Forall_impl; [exact Hle|]; simpl; intros; lra|].
    eapply Forall_impl; [exact Hnew|]. simpl. intros x ->. lra.
  - rewrite Hl1. eapply Forall_impl; [exact Hkey|]. simpl. intros k Hk'. by rewrite <-Zle_Qle.
  - exists q', g', rs'. split_and!; [done|congruence|done..].
Qed.

Lemma digits_val_nonneg ds : Forall (λ d, 0 ≤ d) ds → 0 ≤ digits_val ds.
Proof.
  induction ds as [|d ds IH] using rev_ind; [done|]. intros [H1 [H2 _]%Forall_cons]%Forall_app.
  rewrite digits_val_snoc. specialize (IH H1). lia.
Qed.

Lemma match_ts_nonneg k t : match_ts k = Some t → 0 ≤ t.
Proof.
  assert (∀ l, Forall (λ d, 0 ≤ d) (take_digits l).1) as Hd.
  { induction l as [|c l IH]; simpl; [constructor|]. destruct (ascii_digit c) as [d|] eqn:E; [|constructor].
    destruct (take_digits l) as [ds rest]. simpl in *. constructor; [|done]. revert E. unfold ascii_digit.
    destruct (Nat.leb_spec 48 (nat_of_ascii c)); cbn [andb]; [|done]. destruct (_ <=? _)%nat; [|done].
    intros [= <-]. lia. }
  unfold match_ts. match goal with |- context [take_digits ?x] => generalize x end. intros l. specialize (Hd l).
  destruct (take_digits l) as [[|d ds] [|c rest]]; try done. destruct (Ascii.eqb c _); [|done]. intros [= <-].
  apply digits_val_nonneg, Forall_reverse. exact Hd.
Qed.

Lemma read_first_ok now r g :
  (last_ts g <= 0)%Q → scan_loop (r_pages r) r 0 [] ≠ OutOfFuel →
  ∃ o g', read_first json_parse now r g = (o, g') ∧ o ≠ OutOfFuel ∧ g_start g' = g_start g ∧
    ∀ records rate, o = Ret (records, rate) →
      StronglySorted (λ a b, rec_ts a <= rec_ts b)%Q records ∧ Forall (λ x, rec_ts x <= last_ts g')%Q records.
Proof.
  intros Hl Hscan. unfold read_first. destruct (scan_loop _ r 0 []) as [keys|e|]; [|by eexists _, g|done].
  destruct (omap _ keys) as [|k ks] eqn:Hk.
  { eexists _, _. split_and!; [done..|]. intros records rate [= <- <-]. split; constructor. }
  destruct (first_keys_ok r (sort_ts (k :: ks)) 0 g []) as (q & g' & rs & -> & Hs & Hsort & Hall);
    [apply sort_ts_sorted|constructor|constructor| |].
  - apply Forall_forall. intros x Hx. assert (0 ≤ x.2) as Hx0; [|rewrite Zle_Qle in Hx0; change (inject_Z 0) with 0%Q in Hx0; lra].
    assert (∀ l acc y, y ∈ foldl (λ acc x, insert_ts x acc) acc l → StronglySorted (λ a b : string * Z, a.2 ≤ b.2) acc → y ∈ acc ∨ y ∈ l) as Hin.
    { clear. induction l as [|z l IH]; intros acc y Hy Hs; simpl in *; [by left|].
      destruct (insert_ts_sorted z acc Hs) as [Hs' Hin']. destruct (IH _ _ Hy Hs') as [Hy'|?]; [|set_solver].
      apply Hin' in Hy' as [->|?]; set_solver. }
    destruct (Hin _ _ _ Hx) as [?|Hx']; [constructor|set_solver|]. rewrite <-Hk in Hx'.
    apply list_elem_of_omap in Hx' as (s & _ & Hs'). destruct (match_ts s) eqn:E; simplify_eq/=. by eapply match_ts_nonneg.
  - eexists _, g'. split_and!; [done..|]. by intros records rate [= <- <-].
Qed.

Lemma fresh_read_ok model a ts now r :
  ¬ (ts == 0)%Q → scan_loop (r_pages r) r 0 [] ≠ OutOfFuel →
  ∃ records rate g', gateway_read json_parse ts now r (new_Gateway model a) = (Ret (records, rate), g') ∧ g_start g' = ts ∧
    StronglySorted (λ a b, rec_ts a <= rec_ts b)%Q records ∧ Forall (λ x, rec_ts x <= last_ts g')%Q records.
Proof.
  intros Hts Hscan. unfold gateway_read, catch, bind at 1, get. change (Qeq_bool (g_start (new_Gateway model a)) 0) with true.
  unfold bind, modify. cbn iota beta.
  destruct (read_first_ok now r (set_start ts (new_Gateway model a))) as (o & g' & -> & Ho & Hs & Hr); [simpl; lra|done|].
  destruct o as [[records rate]|e|]; [| |done].
  - destruct (Hr records rate eq_refl). by eexists _, _, g'.
  - eexists [], _, g'. split_and!; [done..| |]; constructor.
Qed.

End first_read.

(** ** Properties: the gateway's profiles *)

(** No window of the gateway is counted twice. A fresh reader never raises,
    whatever Redis holds or answers; its first batch is in the order of time, and
    over any sequence of reads at any times all records of a batch are later than
    all records of the batches before it. The scan of the keys has to end. *)
Theorem gateway_reads_once json_parse model a ts now r calls :
  ¬ (ts == 0)%Q → scan_loop (r_pages r) r 0 [] ≠ OutOfFuel →
  ∃ first batches g', gateway_reads json_parse ((ts, now, r) :: calls) (new_Gateway model a) = (Ret (first :: batches), g') ∧
    length batches = length calls ∧
    StronglySorted (λ a b, rec_ts a <= rec_ts b)%Q first ∧ StronglySorted all_before (first :: batches).
Proof.
  intros Hts Hscan. destruct (fresh_read_ok json_parse model a ts now r Hts Hscan) as (first & rate & g & H1 & Hs & Hsort & Hle).
  destruct (gateway_reads_ok json_parse calls g) as (bs & g' & H2 & Hlen & Hbs & Hall); [by rewrite Hs|].
  exists first, bs, g'. cbn [gateway_reads]. rewrite (bind_Ret _ _ _ _ _ H1), (bind_Ret _ _ _ _ _ H2).
  split_and!; [done..|]. constructor; [done|]. eapply Forall_impl; [exact Hall|]. intros b Hb r1 r2 Hr1 Hr2.
  rewrite Forall_forall in Hle, Hb. specialize (Hle _ Hr1). specialize (Hb _ Hr2). simpl in *. lra.
Qed.

(** What the gateway writes for a window is what the reader returns. When the
    key of the aligned time holds a profile of version 3 with any entries of
    nonzero frequency, the reader returns one record per entry, with the token
    counts divided by the precision, and the reported requests per second. *)
Theorem gateway_profile_roundtrip json_parse g r ts now a text precision interval total pending entries :
  ¬ (g_start g == 0)%Q → ver g = 3 → key_ts_alignment g = JInt a → 0 < a →
  let window := (ts - (ts - inject_Z a * inject_Z (Qfloor (ts / inject_Z a))))%Q in
  (last_ts g < window)%Q →
  r_get r (g_prefix g +:+ pretty (q_trunc window)) = inr (Some text) →
  json_parse text = Some (JDict (encode_profile precision interval total pending entries)) →
  precision ≠ 0 → interval ≠ 0 → Forall (λ e, e.2 ≠ 0) entries →
  gateway_read json_parse ts now r g =
    (Ret (entry_record precision window <$> entries, (inject_Z total / inject_Z interval)%Q),
     set_alignment (JInt interval) (set_last_ts window g)).
Proof.
  intros Hs Hv Ha Hpos window Hlt Hget Hparse Hp Hi He. assert (∀ z, z ≠ 0 → Qeq_bool (inject_Z z) 0 = false) as Hnz.
  { intros z Hz. apply not_true_iff_false. rewrite Qeq_bool_iff. unfold Qeq, inject_Z. simpl. lia. }
  unfold gateway_read, catch, bind at 1, get. destruct (Qeq_bool (g_start g) 0) eqn:E; [by apply Qeq_bool_iff in E|].
  unfold read_window, bind at 1, get, bind at 1, lift. rewrite Ha. cbn [num_of]. unfold bind at 1, lift, py_mod.
  rewrite Hnz by lia. fold window. destruct (Qle_bool_spec window (last_ts g)); [lra|]. rewrite Hv. change (3 <? 3) with false. cbn iota beta.
  unfold bind at 1, lift, read_key. rewrite Hget. cbn [reply obind]. rewrite Hparse. unfold bind at 1, modify. cbn iota beta.
  change (encode_profile precision interval total pending entries) with
    (("meta_v"%string, JInt 3) :: drop 1 (encode_profile precision interval total pending entries)). cbn iota beta.
  change (("meta_v"%string, JInt 3) :: drop 1 (encode_profile precision interval total pending entries)) with
    (encode_profile precision interval total pending entries).
  rewrite parse_encode_profile by done. cbn [obind get_rate num_of fst key_ts_alignment set_alignment]. unfold py_div.
  by rewrite Hnz.
Qed.

(** A profile that reports an interval of zero stops the reader: the batch is
    dropped, the interval is kept, and every later read divides by zero and
    returns nothing, without advancing. *)
Theorem gateway_zero_interval json_parse g :
  ¬ (g_start g == 0)%Q → key_ts_alignment g = JInt 0 →
  ∀ calls, gateway_reads json_parse calls g = (Ret (replicate (length calls) []), g).
Proof.
  intros Hs Ha calls. induction calls as [|[[ts now] r] calls IH]; [done|]. cbn [gateway_reads].
  assert (gateway_read json_parse ts now r g = (Ret ([], 0%Q), g)) as H.
  { unfold gateway_read, catch, bind at 1, get. destruct (Qeq_bool (g_start g) 0) eqn:E; [by apply Qeq_bool_iff in E|].
    unfold read_window, bind, get, lift. by rewrite Ha. }
  by rewrite (bind_Ret _ _ _ _ _ H), (bind_Ret _ _ _ _ _ IH).
Qed.

(** How the reader gets there. *)
Theorem gateway_adopts_zero_interval precision total pending entries ts g rs :
  precision ≠ 0 → Forall (λ e, e.2 ≠ 0) entries →
  let '(o, (g', _)) := parse_profiles (encode_profile precision 0 total pending entries) ts (g, rs) in
  key_ts_alignment g' = JInt 0 ∧ g_start g' = g_start g ∧
  (try* totals := o in get_rate totals.1 g') = Raise ZeroDivisionError.
Proof. intros Hp He. by rewrite parse_encode_profile. Qed.

(** An integer frequency of zero is refused: only the text "0" may be zero. *)
Theorem zero_frequency_rejected precision ts i o rs :
  parse_entry precision ts (encode_key i o) (JInt 0) rs = (Raise Exception_, rs).
Proof. unfold parse_entry. by rewrite encode_key_no_meta, match_encode_key. Qed.

(** A profile file with one JSON object per line: as a whole it is no JSON value, and
    after [json.load] has consumed it no line is left to read, so the file yields
    no profile, without an error. *)
Theorem jsonl_profiles_ignored json_parse texts :
  Forall (λ t, json_parse t = None) texts → file_profiles json_parse (Some <$> texts) = Ret [].
Proof.
  intros H. unfold file_profiles. rewrite (omapM_Ret _ (λ _, [])).
  - cbn [obind]. by replace (concat _) with (@nil jv) by (clear; induction texts as [|t l IH]; csimpl; done).
  - apply Forall_fmap. eapply Forall_impl; [exact H|]. intros t Ht. simpl. unfold load_file. by rewrite Ht.
Qed.

(** ** Witnesses *)

Example match_ts_demo : match_ts "aibrix:m_request_trace_1730" = Some 1730.
Proof. reflexivity. Qed.

Example match_key_demo : match_key "12:3" = Some (12, 3) ∧ match_key "12-3" = None.
Proof. split; reflexivity. Qed.

Lemma dataset_reads_partition_witness :
  let d := new_Dataset id [(1, 2); (3, 4); (5, 6)]%Q 10 1 10 in
  record_tokens <$> concat (dataset_reads [2; 0; 5] d).1 = take (Z.to_nat (foldr Z.add 0 [2; 0; 5])) (d_df d) ∧
  d_n_read (dataset_reads [2; 0; 5] d).2 = Z.min (foldr Z.add 0 [2; 0; 5]) 3.
Proof. apply (dataset_reads_partition id [(1, 2); (3, 4); (5, 6)]%Q 10 1 10 [2; 0; 5]). repeat constructor; lia. Defined.

Definition demo_trace : list trace_row :=
  [mkRow 1000 [(8, 4)]; mkRow 4000 [(2, 2); (0, 1)]; mkRow 12000 [(5, 5)]]%Q.

Definition demo_log2 (x : Q) : option Q := if Qeq_bool x 0 then None else Some x.

Lemma workload_reads_in_order_witness :
  let w := new_Workload demo_trace 1 10 in
  ∃ batches w', workload_reads demo_log2 2 w = (Ret batches, w') ∧ length batches = 2%nat ∧
    concat batches = rows_records demo_log2 1 (w_start w)
                       (before (window_end 10 (w_start w) (Z.of_nat 2)) demo_trace).
Proof.
  apply (workload_reads_in_order demo_log2 demo_trace 1 10 2); [|reflexivity].
  repeat constructor; compute; discriminate.
Defined.

(** A server with one window. *)
Definition demo_entries : list (N * N * Z) := [(3%N, 4%N, 5); (10%N, 2%N, 1)].

Definition demo_redis : redis :=
  mkRedis (λ _, inr (0, ["aibrix:m_request_trace_100"]%string)) (λ _, inr (Some "v3"%string)) 1.

Definition demo_parse (text : string) : option jv :=
  if String.eqb text "v3" then Some (JDict (encode_profile 10 10 7 0 demo_entries)) else None.

Lemma gateway_reads_once_witness :
  ∃ first batches g', gateway_reads demo_parse [(101, 101, demo_redis); (115, 115, demo_redis)]%Q (new_Gateway "m" 10) =
      (Ret (first :: batches), g') ∧
    length batches = 1%nat ∧
    StronglySorted (λ a b, rec_ts a <= rec_ts b)%Q first ∧ StronglySorted all_before (first :: batches).
Proof.
  apply (gateway_reads_once demo_parse "m" 10 101 101 demo_redis [(115, 115, demo_redis)%Q]);
    [compute; discriminate|discriminate].
Defined.

Definition demo_gateway : GatewayLoadReader := mkGateway 90 100 "aibrix:m_request_trace_" (JInt 10) 3.

Lemma gateway_profile_roundtrip_witness :
  let window := (115 - (115 - inject_Z 10 * inject_Z (Qfloor (115 / inject_Z 10))))%Q in
  gateway_read demo_parse 115 115 demo_redis demo_gateway =
    (Ret (entry_record 10 window <$> demo_entries, (inject_Z 7 / inject_Z 10)%Q),
     set_alignment (JInt 10) (set_last_ts window demo_gateway)).
Proof.
  apply (gateway_profile_roundtrip demo_parse demo_gateway demo_redis 115 115 10 "v3" 10 10 7 0 demo_entries);
    [compute; discriminate|reflexivity|reflexivity|reflexivity|reflexivity|reflexivity|reflexivity|discriminate|discriminate|].
  repeat constructor; discriminate.
Defined.
