(* ===== verification/ModelMonitor.v ===== *)
(** * The model monitor

    Models [DeploymentStates] and [ModelMonitor] of
    [python/aibrix/aibrix/gpu_optimizer/load_monitor/monitor.py]: the deployments
    of a model, their profiles, and the turn of the monitor's thread, which reads
    the load ([load_turn] of the window), asks the optimizer and sets the replicas.

    Profiles are objects that the monitor's dictionary and the deployments share and
    that are changed in place: they live in a heap and are named by their position.
    The lock is a flag; [acquire] of a held lock never returns, which is
    [OutOfFuel]. A call is run to its end: the interleavings of the threads are not
    modelled. Costs are rationals with infinities and NaN. What a profile reader
    returns, the load records and the clock are arguments of the calls that use
    them. Log lines are left out. *)

From S2P Require Import Prelude Num LoadBuffer Centeroid Clusterer Optimizer LoadReader.

Open Scope Z_scope.
Open Scope py_scope.

(** ** Costs *)

Inductive fl := Fin (q : Q) | Inf | NegInf | NaN.

Definition fl_opp (x : fl) : fl :=
  match x with Fin q => Fin (- q) | Inf => NegInf | NegInf => Inf | NaN => NaN end.

Definition fl_add (x y : fl) : fl :=
  match x, y with
  | Fin a, Fin b => Fin (a + b)
  | NaN, _ | _, NaN => NaN
  | Inf, NegInf | NegInf, Inf => NaN
  | Inf, _ | _, Inf => Inf
  | NegInf, _ | _, NegInf => NegInf
  end.

Definition fl_sub (x y : fl) : fl := fl_add x (fl_opp y).

(** ** [DeploymentStates] *)

Record DeploymentStates := mkDeployment {
  d_name : string;
  d_replicas : Z;
  d_overriden : Z;
  min_replicas : Z;
  d_profile : option nat;
  watch_ver : option string
}.

Definition No_Overriden : Z := -1.

Definition new_DeploymentStates (name : string) (replicas min : Z) : DeploymentStates :=
  mkDeployment name replicas No_Overriden min None None.

Definition overriden (d : DeploymentStates) : bool := negb (d_overriden d =? No_Overriden).

Definition replicas (d : DeploymentStates) : Z := if overriden d then d_overriden d else d_replicas d.

Definition set_replicas (n : Z) (d : DeploymentStates) : DeploymentStates :=
  mkDeployment (d_name d) n (d_overriden d) (min_replicas d) (d_profile d) (watch_ver d).

Definition override_replicas (n : Z) (d : DeploymentStates) : DeploymentStates :=
  mkDeployment (d_name d) (d_replicas d) n (min_replicas d) (d_profile d) (watch_ver d).

Definition minimize (d : DeploymentStates) : DeploymentStates := set_replicas (Z.max 0 (min_replicas d)) d.

Definition is_modified (d another : DeploymentStates) : bool := negb (min_replicas d =? min_replicas another).

Definition update (newer d : DeploymentStates) : DeploymentStates :=
  mkDeployment (d_name d) (d_replicas d) (d_overriden d) (min_replicas newer) (d_profile d) (watch_ver d).

Definition set_d_profile (p : option nat) (d : DeploymentStates) : DeploymentStates :=
  mkDeployment (d_name d) (d_replicas d) (d_overriden d) (min_replicas d) p (watch_ver d).

Definition set_watch_ver (v : option string) (d : DeploymentStates) : DeploymentStates :=
  mkDeployment (d_name d) (d_replicas d) (d_overriden d) (min_replicas d) (d_profile d) v.

(** ** [ModelMonitor] *)

(** [R] are the profile readers. *)
Record ModelMonitor (R : Type) := mkMonitor {
  deployments : list (string * DeploymentStates);
  heap : list GPUProfile;
  profiles : list (string * nat);
  optimizer : Optimizer;
  profile_reader : option R;
  m_cost : fl;
  locked : bool;
  fraction : Q;
  outdated_watch_version : option string;
  last_watch_version : option string;
  last_resource_version : option (option string)  (* [None]: no such attribute yet *)
}.

Arguments mkMonitor {R}.
Arguments deployments {R}.
Arguments heap {R}.
Arguments profiles {R}.
Arguments optimizer {R}.
Arguments profile_reader {R}.
Arguments m_cost {R}.
Arguments locked {R}.
Arguments fraction {R}.
Arguments outdated_watch_version {R}.
Arguments last_watch_version {R}.
Arguments last_resource_version {R}.

(** [_deployment_entry_point] *)
Definition entry_point (deployment_name : string) (namespace : option string) : string :=
  match namespace with
  | None => deployment_name
  | Some ns => ns +:+ "/" +:+ deployment_name
  end.

Section setters.
Context {R : Type}.
Implicit Types m : ModelMonitor R.

Definition set_deployments ds m : ModelMonitor R :=
  mkMonitor ds (heap m) (profiles m) (optimizer m) (profile_reader m) (m_cost m) (locked m) (fraction m)
    (outdated_watch_version m) (last_watch_version m) (last_resource_version m).

Definition set_heap h m : ModelMonitor R :=
  mkMonitor (deployments m) h (profiles m) (optimizer m) (profile_reader m) (m_cost m) (locked m) (fraction m)
    (outdated_watch_version m) (last_watch_version m) (last_resource_version m).

Definition set_profiles ps m : ModelMonitor R :=
  mkMonitor (deployments m) (heap m) ps (optimizer m) (profile_reader m) (m_cost m) (locked m) (fraction m)
    (outdated_watch_version m) (last_watch_version m) (last_resource_version m).

Definition set_optimizer o m : ModelMonitor R :=
  mkMonitor (deployments m) (heap m) (profiles m) o (profile_reader m) (m_cost m) (locked m) (fraction m)
    (outdated_watch_version m) (last_watch_version m) (last_resource_version m).

Definition set_reader r m : ModelMonitor R :=
  mkMonitor (deployments m) (heap m) (profiles m) (optimizer m) r (m_cost m) (locked m) (fraction m)
    (outdated_watch_version m) (last_watch_version m) (last_resource_version m).

Definition set_cost c m : ModelMonitor R :=
  mkMonitor (deployments m) (heap m) (profiles m) (optimizer m) (profile_reader m) c (locked m) (fraction m)
    (outdated_watch_version m) (last_watch_version m) (last_resource_version m).

Definition set_locked b m : ModelMonitor R :=
  mkMonitor (deployments m) (heap m) (profiles m) (optimizer m) (profile_reader m) (m_cost m) b (fraction m)
    (outdated_watch_version m) (last_watch_version m) (last_resource_version m).

Definition set_outdated v m : ModelMonitor R :=
  mkMonitor (deployments m) (heap m) (profiles m) (optimizer m) (profile_reader m) (m_cost m) (locked m) (fraction m)
    v (last_watch_version m) (last_resource_version m).

Definition set_resource_version v m : ModelMonitor R :=
  mkMonitor (deployments m) (heap m) (profiles m) (optimizer m) (profile_reader m) (m_cost m) (locked m) (fraction m)
    (outdated_watch_version m) (last_watch_version m) v.

End setters.

Section monitor.
Context {R : Type} (np_log2 : Q → Q) {LP : LpSolver}.

Abbreviation MM := (M (ModelMonitor R)).

(** [self._lock.acquire(blocking=True)] and [self._lock.release()] *)
Definition acquire : MM unit := λ m, if locked m then (OutOfFuel, m) else (Ret tt, set_locked true m).

Definition release : MM unit := λ m, if locked m then (Ret tt, set_locked false m) else (Raise RuntimeError, m).

Definition on_optimizer {A} : M Optimizer A → MM A := zoom optimizer set_optimizer.

(** An object of the heap, and an assignment to its field [gpu]. *)
Definition profile_at (m : ModelMonitor R) (id : nat) : outcome GPUProfile :=
  match heap m !! id with Some p => Ret p | None => Raise KeyError end.

Definition set_gpu (name : string) (p : GPUProfile) : GPUProfile :=
  mkProfile name (cost p) (tputs p) (indexes p) (p_created p).

Definition set_profile_gpu (id : nat) (name : string) : MM unit :=
  modify (λ m, set_heap (alter (set_gpu name) id (heap m)) m).

Definition new_object (p : GPUProfile) : MM nat := λ m, (Ret (length (heap m)), set_heap (heap m ++ [p]) m).

(** [self.deployments[key]], read and changed *)
Definition deployment_at (key : string) : MM DeploymentStates :=
  let* m := get in
  lift (match assoc key (deployments m) with Some d => Ret d | None => Raise KeyError end).

Definition change_deployment (key : string) (f : DeploymentStates → DeploymentStates) : MM unit :=
  deployment_at key ;;
  modify (λ m, set_deployments (assoc_upd key f (deployments m)) m).

(** The property [cost] of a deployment. *)
Definition deployment_cost (m : ModelMonitor R) (d : DeploymentStates) : fl :=
  match d_profile d ≫= λ id, heap m !! id with
  | None => Inf
  | Some p => Fin (cost p * inject_Z (replicas d))
  end.

(** [_match_profile] *)
Definition match_profile (key deployment_name : string) : MM (option nat) :=
  let* m := get in
  match assoc key (profiles m) with
  | Some id => ret (Some id)
  | None =>
    match assoc deployment_name (profiles m) with
    | Some id => set_profile_gpu id key ;; ret (Some id)
    | None => ret None
    end
  end.

(** [add_deployment]; [dp] is the deployment, or what the callable gives. *)
Definition add_deployment (ver : option string) (name : string) (ns : option string) (dp : outcome DeploymentStates) :
    MM bool :=
  let key := entry_point name ns in
  let* profile := match_profile key name in
  (match profile with
   | Some id =>
     let* m := get in
     catch (let* p := lift (profile_at m id) in on_optimizer (set_profile np_log2 p)) (λ _, ret tt)
   | None => ret tt
   end) ;;
  let* d := lift dp in
  acquire ;;
  let* m := get in
  let finish (old_cost : fl) : MM bool :=
    change_deployment key (set_d_profile profile) ;;
    change_deployment key (set_watch_ver ver) ;;
    let* d' := deployment_at key in
    modify (λ m, set_cost (fl_add (m_cost m) (fl_sub (deployment_cost m d') old_cost)) m) ;;
    modify (set_resource_version (Some ver)) ;;
    release ;;
    ret true in
  match assoc key (deployments m) with
  | None => modify (λ m, set_deployments (assoc_set key d (deployments m)) m) ;; finish (Fin 0)
  | Some old =>
    if is_modified old d then
      let old_cost := deployment_cost m old in
      change_deployment key (update d) ;;
      finish old_cost
    else release ;; ret false
  end.

Definition remove_deployment (name : string) (ns : option string) : MM Z :=
  let key := entry_point name ns in
  acquire ;;
  modify (λ m, set_optimizer (delete_profile key (optimizer m)) m) ;;
  deployment_at key ;;
  modify (λ m, set_deployments (assoc_del key (deployments m)) m) ;;
  release ;;
  gets (λ m, py_len (deployments m)).

Definition read_deployment_num_replicas (name : string) (ns : option string) (m : ModelMonitor R) : outcome Z :=
  match assoc (entry_point name ns) (deployments m) with
  | None => Raise Exception_
  | Some d => Ret (replicas d)
  end.

Definition update_deployment_num_replicas (name : string) (ns : option string) (n : Z) (overriding : bool) : MM unit :=
  let key := entry_point name ns in
  let* m := get in
  match assoc key (deployments m) with
  | None => raise Exception_
  | Some _ =>
    if overriding then
      if n =? No_Overriden then
        modify (λ m, set_deployments ((λ e, (e.1, override_replicas n e.2)) <$> deployments m) m)
      else change_deployment key (override_replicas n)
    else change_deployment key (set_replicas n)
  end.

Definition mark_deployments_outdated : MM unit := modify (λ m, set_outdated (last_watch_version m) m).

(** The loop over the dictionary: after a deletion the next step of the iteration
    raises. *)
Fixpoint clear_loop (items : list (string * DeploymentStates)) : MM unit :=
  match items with
  | [] => ret tt
  | (key, states) :: rest =>
    let* m := get in
    if bool_decide (watch_ver states = outdated_watch_version m) then
      modify (λ m, set_deployments (assoc_del key (deployments m)) m) ;; raise RuntimeError
    else clear_loop rest
  end.

Definition clear_outdated_deployments : MM Z :=
  let* m := get in
  clear_loop (deployments m) ;;
  gets (λ m, py_len (deployments m)).

(** ** Profiles *)

(** The loop that looks for a deployment by its name: the loop variable [key]
    after it, and the key of the deployment found. *)
Fixpoint find_by_name (name key : string) (ds : list (string * DeploymentStates)) : string * option string :=
  match ds with
  | [] => (key, None)
  | (k, d) :: rest => if String.eqb (d_name d) name then (k, Some k) else find_by_name name k rest
  end.

(** The part of [_update_profile] under the lock. The [finally] releases it. *)
Definition apply_profile (key : string) (id : nat) (cost_diff : Q) : MM unit :=
  acquire ;;
  let body : MM unit :=
    let* m := get in
    let* p := lift (profile_at m id) in
    if bool_decide (gpu p ∈ (deployments m).*1) then
      change_deployment key (set_d_profile (Some id)) ;;
      on_optimizer (set_profile np_log2 p) ;;
      let* d := deployment_at key in
      modify (λ m, set_cost (fl_add (m_cost m) (Fin (cost_diff * inject_Z (replicas d)))) m)
    else ret tt in
  catch body (λ e, release ;; raise e) ;;
  release.

(** The rest of [_update_profile], once the profile is known to be new. *)
Definition store_profile (key : string) (id : nat) (cost_diff : Q) : MM bool :=
  modify (λ m, set_profiles (assoc_set key id (profiles m)) m) ;;
  let* m := get in
  let* p := lift (profile_at m id) in
  let* found :=
    (if bool_decide (gpu p ∈ (deployments m).*1) then ret (key, true)
     else match find_by_name (gpu p) key (deployments m) with
          | (k, Some k') => set_profile_gpu id k' ;; ret (k, true)
          | (k, None) => ret (k, false)
          end) in
  (if found.2 : bool then apply_profile found.1 id cost_diff else ret tt) ;;
  ret true.

(** [_update_profile] *)
Definition update_profile (id : nat) : MM bool :=
  let* m := get in
  let* p := lift (profile_at m id) in
  let key := gpu p in
  match assoc key (profiles m) with
  | None => store_profile key id (cost p)
  | Some old_id =>
    let* old := lift (profile_at m old_id) in
    if Qle_bool (p_created p) (p_created old) then ret false
    else
      (if String.eqb (gpu old) key then ret tt
       else
         set_profile_gpu id (gpu old) ;;
         if bool_decide (gpu old ∈ (profiles m).*1)
         then modify (λ m, set_profiles (assoc_set (gpu old) id (profiles m)) m) else ret tt) ;;
      store_profile key id (cost p - cost old)
  end.

(** [profile.cost /= self.gpu_fraction], then the update. *)
Definition load_profile (p : GPUProfile) : MM unit :=
  let* m := get in
  let* c := lift (py_div (cost p) (fraction m)) in
  let* id := new_object (mkProfile (gpu p) c (tputs p) (indexes p) (p_created p)) in
  update_profile id ;;
  ret tt.

(** [load_profiles]: [answers] is what a reader returns now. *)
Definition load_profiles (answers : R → outcome (list GPUProfile)) (arg : option R) : MM bool :=
  catch
    (let* reader :=
       (match arg with
        | Some r => modify (set_reader (Some r)) ;; ret (Some r)
        | None => gets profile_reader
        end) in
     match reader with
     | None => ret false
     | Some r =>
       let* ps := lift (answers r) in
       for_each ps load_profile ;;
       ret true
     end)
    (λ _, ret false).

(** ** Optimization *)

(** The replicas of every deployment after a result. *)
Definition reset_replicas (result : list (string * Z)) (ds : list (string * DeploymentStates)) :
    list (string * DeploymentStates) :=
  (λ e : string * DeploymentStates, (e.1, set_replicas (default 0 (assoc e.1 result)) e.2)) <$> ds.

(** The result is discarded when it needs a deployment that is gone. *)
Definition result_current (result : list (string * Z)) (ds : list (string * DeploymentStates)) : bool :=
  forallb (λ e : string * Z, bool_decide (e.1 ∈ ds.*1) || (e.2 <=? 0)) result.

(** [_optimize] *)
Definition optimize (answers : R → outcome (list GPUProfile)) (centers : list Centeroid) (total_request_rate : Q) :
    MM unit :=
  load_profiles answers None ;;
  let* ok := on_optimizer (set_workload_distribution centers total_request_rate) in
  if negb ok then ret tt
  else
    let* m := get in
    let* result := lift (optimizer_run (optimizer m)) in
    match result with
    | None => ret tt
    | Some (numbers, total) =>
      acquire ;;
      let* m := get in
      if negb (result_current numbers (deployments m)) then release
      else
        modify (λ m, set_deployments (reset_replicas numbers (deployments m)) m) ;;
        modify (set_cost (Fin total)) ;;
        release
    end.

(** [_minimize] *)
Definition scale_to_minimum : MM unit :=
  acquire ;;
  modify (λ m, set_deployments ((λ e, (e.1, minimize e.2)) <$> deployments m) m) ;;
  modify (λ m, set_cost (foldl (λ c e, fl_add c (deployment_cost m e.2)) (Fin 0) (deployments m)) m) ;;
  release.

(** ** The constructor *)

Definition empty_monitor (gpu_fraction : Q) : ModelMonitor R :=
  mkMonitor [] [] [] (new_Optimizer gpu_fraction) None (Fin 0) false gpu_fraction None None None.

Definition debug_gpu_profile : GPUProfile := mkProfile "default" 1 [[PInt 100]] [[10]; [10]]%Q 0.

Definition new_ModelMonitor (answers : R → outcome (list GPUProfile)) (ver : option string)
    (deployment : option DeploymentStates) (ns : option string) (reader : option R) (debug : bool) : MM unit :=
  (match reader with
   | Some r => load_profiles answers (Some r) ;; ret tt
   | None => if debug then on_optimizer (set_profile np_log2 debug_gpu_profile) else ret tt
   end) ;;
  match deployment with
  | Some d => add_deployment ver (d_name d) ns (Ret d) ;; ret tt
  | None => ret tt
  end.

(** ** A turn of [_run_yieldable] *)

(** [_expand_records] *)
Definition expand_records (records : list LoadRecord) : list DataPoint :=
  concat ((λ r, replicate (Z.to_nat (freq r)) (mkPoint (output_tokens r) (input_tokens r) (rec_ts r))) <$> records).

Context {D : Type} `{!Dbscan D}.

Definition on_window {A} : M (window_state D) A → M (window_state D * ModelMonitor R) A := zoom fst (λ w s, (w, s.2)).

Definition on_monitor {A} : MM A → M (window_state D * ModelMonitor R) A := zoom snd (λ m s, (s.1, m)).

(** The rate handed to the optimizer: the larger of the mean over the window and the
    current rate. The window of an active clusterer without points is minus
    infinity, and the mean then zero. *)
Definition turn_rate (w : window_state D) (cur_rate : Q) : outcome Q :=
  try* win := m_window (moving w) in
  match win with
  | None => Ret (q_max 0 cur_rate)
  | Some q => try* mean := py_div (inject_Z (commited (data w))) q in Ret (q_max mean cur_rate)
  end.

Definition monitor_turn (answers : R → outcome (list GPUProfile)) (now : Q) (records : list LoadRecord) (cur_rate : Q) :
    M (window_state D * ModelMonitor R) unit :=
  let* res := on_window (load_turn now (expand_records records)) in
  let* s := get in
  match r_centers res with
  | _ :: _ =>
    let* rate := lift (turn_rate s.1 cur_rate) in
    on_monitor (optimize answers (r_centers res) rate)
  | [] =>
    if commited (data s.1) =? 0 then on_monitor scale_to_minimum else ret tt
  end.

End monitor.

(** ** The type of a monitor *)

Section types.
Context {R : Type} (np_log2 : Q → Q) {LP : LpSolver}.

(** Every reference is to an object of the heap, which has at least [n] objects;
    the keys are distinct; and no watch version was ever recorded. *)
Record monitor_ok (n : nat) (m : ModelMonitor R) : Prop := {
  ok_optimizer : optimizer_ok np_log2 (optimizer m);
  ok_profiles : Forall (λ e, (e.2 < length (heap m))%nat) (profiles m);
  ok_deployments : Forall (λ e, ∀ id, d_profile e.2 = Some id → (id < length (heap m))%nat) (deployments m);
  ok_keys : NoDup (deployments m).*1;
  ok_watch : last_watch_version m = None ∧ outdated_watch_version m = None;
  ok_heap : (n ≤ length (heap m))%nat
}.

Lemma ok_weaken n m : monitor_ok n m → monitor_ok (length (heap m)) m.
Proof. intros []; by split. Qed.

Lemma acquire_keeps n : keeps (monitor_ok n) (acquire (R:=R)).
Proof. intros m [????[??]?]. unfold acquire. destruct (locked m); by split. Qed.

Lemma release_keeps n : keeps (monitor_ok n) (release (R:=R)).
Proof. intros m [????[??]?]. unfold release. destruct (locked m); by split. Qed.

Lemma on_optimizer_keeps {A} n (c : M Optimizer A) :
  keeps (optimizer_ok np_log2) c → keeps (monitor_ok n) (on_optimizer (R:=R) c).
Proof.
  intros Hc m [Ho ??? [??] ?]. specialize (Hc _ Ho). unfold on_optimizer, zoom.
  destruct (c (optimizer m)) as [o' ?]; simpl in *. by split.
Qed.

Lemma set_gpu_keeps n id name : keeps (monitor_ok n) (set_profile_gpu (R:=R) id name).
Proof. intros m [????[??]?]. split; simpl; rewrite ?length_alter; done. Qed.

Lemma deployment_at_keeps n key : keeps (monitor_ok n) (deployment_at (R:=R) key).
Proof. unfold deployment_at. repeat keeps_step. Qed.

Lemma change_keeps n key f :
  (∀ d id, d_profile (f d) = Some id → d_profile d = Some id ∨ (id < n)%nat) →
  keeps (monitor_ok n) (change_deployment (R:=R) key f).
Proof.
  intros Hf. unfold change_deployment. apply keeps_bind; [apply deployment_at_keeps|]. intros _. apply keeps_modify.
  intros m [?? Hd ? [??] Hn]. split; simpl; try done; [|by rewrite assoc_upd_keys].
  apply assoc_upd_Forall; [|done]. simpl. intros d Hold id [Hid|Hid]%Hf; [by apply Hold|lia].
Qed.

Lemma set_cost_keeps n c : keeps (monitor_ok n) (modify (λ m : ModelMonitor R, set_cost (c m) m)).
Proof. apply keeps_modify. intros m [????[??]?]. by split. Qed.

Lemma resource_version_keeps n v : keeps (monitor_ok n) (modify (set_resource_version (R:=R) v)).
Proof. apply keeps_modify. intros m [????[??]?]. by split. Qed.

Lemma set_profiles_keeps n key id :
  (id < n)%nat → keeps (monitor_ok n) (modify (λ m : ModelMonitor R, set_profiles (assoc_set key id (profiles m)) m)).
Proof.
  intros Hid. apply keeps_modify. intros m [????[??]?]. split; simpl; try done.
  apply assoc_set_Forall; [simpl; lia|done].
Qed.

End types.

Section preservation.
Context {R : Type} (np_log2 : Q → Q) {LP : LpSolver}.
Abbreviation MOK n := (monitor_ok (R:=R) np_log2 n).

Lemma match_profile_ok n key name m :
  MOK n m → MOK n (match_profile key name m).2 ∧
    ∀ p, (match_profile key name m).1 = Ret (Some p) → (p < length (heap (match_profile key name m).2))%nat.
Proof.
  intros Hm. unfold match_profile, bind at 1 3 5, get.
  assert (∀ k id, assoc k (profiles m) = Some id → (id < length (heap m))%nat) as Hid.
  { intros k id Hk%assoc_elem. apply (ok_profiles _ _ _ Hm) in Hk || (eapply Forall_forall in Hk; [|apply (ok_profiles _ _ _ Hm)]). done. }
  destruct (assoc key (profiles m)) as [id|] eqn:E1; [split; [done|]; intros p [= <-]; by eapply Hid|].
  destruct (assoc name (profiles m)) as [id|] eqn:E2; [|by split].
  split; [by apply (set_gpu_keeps np_log2 n id key m Hm)|]. intros p [= <-]. simpl. rewrite length_alter. by eapply Hid.
Qed.

Lemma set_profile_keeps p : keeps (optimizer_ok np_log2) (set_profile np_log2 p).
Proof. intros o Ho. by apply set_profile_ok. Qed.

Lemma set_workload_keeps cs q : keeps (optimizer_ok np_log2) (set_workload_distribution cs q).
Proof. intros o Ho. by apply set_workload_distribution_ok. Qed.

Hint Resolve acquire_keeps release_keeps set_gpu_keeps deployment_at_keeps set_cost_keeps resource_version_keeps
  set_profiles_keeps on_optimizer_keeps set_profile_keeps set_workload_keeps : lodestar.

Lemma ok_le n n' m : MOK n' m → (n ≤ n')%nat → MOK n m.
Proof. intros [] ?. split; try done. lia. Qed.

Lemma insert_deployment_keeps n key d :
  d_profile d = None →
  keeps (MOK n) (modify (λ m, set_deployments (assoc_set key d (deployments m)) m)).
Proof.
  intros Hd. apply keeps_modify. intros m [????[??]?]. split; simpl; try done; [|by apply assoc_set_NoDup].
  apply assoc_set_Forall; [|done]. simpl. by rewrite Hd.
Qed.
Hint Resolve insert_deployment_keeps : lodestar.

Lemma add_deployment_keeps n ver name ns dp :
  (∀ d, dp = Ret d → d_profile d = None) → keeps (MOK n) (add_deployment np_log2 ver name ns dp).
Proof.
  intros Hdp m Hm. unfold add_deployment. set (key := entry_point name ns).
  destruct (match_profile_ok n key name m Hm) as [Hm1 Hp]. unfold bind at 1.
  destruct (match_profile key name m) as [[profile| |] m1]; [|done..]. simpl in Hm1, Hp.
  set (N := length (heap m1)). apply (ok_le n N); [|apply (ok_heap _ _ _ Hm1)]. apply ok_weaken in Hm1. revert m1 N Hp Hm1.
  intros m1 N Hp Hm1.
  match goal with |- MOK N (?c m1).2 => cut (keeps (MOK N) c); [intros Hk; by apply Hk|] end.
  assert (keeps (MOK N) (change_deployment key (set_d_profile profile))) as Hset.
  { apply change_keeps. intros d id Hid. right. apply Hp. simpl in Hid. by rewrite Hid. }
  repeat first [exact Hset | apply change_keeps; by left | keeps_step].
Qed.

Lemma remove_deployment_keeps n name ns : keeps (MOK n) (remove_deployment name ns).
Proof.
  unfold remove_deployment. repeat keeps_step; apply keeps_modify; intros m [Ho ? Hd ? [??] ?]; split; simpl; try done.
  - by apply delete_profile_ok.
  - by apply assoc_del_Forall.
  - by apply assoc_del_NoDup.
Qed.

Lemma map_deployments_keeps n (f : string * DeploymentStates → DeploymentStates) :
  (∀ e, d_profile (f e) = d_profile e.2) →
  keeps (MOK n) (modify (λ m, set_deployments ((λ e, (e.1, f e)) <$> deployments m) m)).
Proof.
  intros Hf. apply keeps_modify. intros m [?? Hd Hk [??] ?]. split; simpl; try done.
  - apply Forall_fmap. eapply Forall_impl; [exact Hd|]. intros e He id. simpl. rewrite Hf. apply He.
  - by rewrite <-list_fmap_compose.
Qed.

Lemma update_replicas_keeps n name ns k b : keeps (MOK n) (update_deployment_num_replicas name ns k b).
Proof.
  unfold update_deployment_num_replicas.
  repeat first [apply map_deployments_keeps; done | apply change_keeps; by left | keeps_step].
Qed.

Lemma mark_keeps n : keeps (MOK n) mark_deployments_outdated.
Proof. apply keeps_modify. intros m [????[??]?]. by split. Qed.

Lemma clear_loop_keeps n items : keeps (MOK n) (clear_loop items).
Proof.
  induction items as [|[key d] items IH]; simpl; [auto with lodestar|]. repeat first [exact IH | keeps_step].
  apply keeps_modify. intros m [?? Hd ? [??] ?]. split; simpl; try done; [by apply assoc_del_Forall|by apply assoc_del_NoDup].
Qed.

Lemma apply_profile_keeps n key id diff : (id < n)%nat → keeps (MOK n) (apply_profile np_log2 key id diff).
Proof.
  intros Hid. unfold apply_profile.
  repeat first [apply change_keeps; intros ? ? [= <-]; by right | apply on_optimizer_keeps, set_profile_keeps | keeps_step].
Qed.

Lemma store_profile_keeps n key id diff : (id < n)%nat → keeps (MOK n) (store_profile np_log2 key id diff).
Proof. intros Hid. unfold store_profile. repeat first [by apply apply_profile_keeps | keeps_step]. Qed.

Lemma update_profile_keeps n id : (id < n)%nat → keeps (MOK n) (update_profile np_log2 id).
Proof. intros Hid. unfold update_profile. repeat first [by apply store_profile_keeps | keeps_step]. Qed.

Lemma load_profile_keeps n p : keeps (MOK n) (load_profile np_log2 p).
Proof.
  intros m Hm. unfold load_profile, bind at 1, get, bind at 1, lift. destruct (py_div _ _) as [c| |]; [|done..].
  unfold bind at 1, new_object. cbn iota beta. set (m1 := set_heap _ m). set (N := length (heap m1)).
  assert (N = S (length (heap m))) as HN by (unfold N; simpl; rewrite length_app; simpl; lia).
  pose proof (ok_heap _ _ _ Hm) as Hle. apply (ok_le n N); [|lia].
  assert (MOK N m1) as Hm1.
  { destruct Hm as [? Hp Hd ? [??] ?]. split; simpl; try done;
      rewrite length_app; simpl; (eapply Forall_impl; [eassumption|]); simpl; intros e He; [lia|].
    intros id Hid. specialize (He id Hid). lia. }
  revert Hm1. assert (keeps (MOK N) (update_profile np_log2 (length (heap m)) ;; ret tt)%py) as Hk; [|apply Hk].
  repeat first [apply update_profile_keeps; lia | keeps_step].
Qed.

Lemma load_profiles_keeps n answers arg : keeps (MOK n) (load_profiles np_log2 answers arg).
Proof.
  unfold load_profiles. repeat first [apply load_profile_keeps | keeps_step].
  apply keeps_modify. intros m [????[??]?]. by split.
Qed.

Lemma optimize_keeps n answers cs q : keeps (MOK n) (optimize np_log2 answers cs q).
Proof.
  unfold optimize. repeat first [apply load_profiles_keeps | apply on_optimizer_keeps, set_workload_keeps
    | apply (map_deployments_keeps n (λ e, _)); done | apply (set_cost_keeps np_log2 n (λ _, _)) | keeps_step].
Qed.

Lemma scale_keeps n : keeps (MOK n) scale_to_minimum.
Proof.
  unfold scale_to_minimum. repeat first [apply (map_deployments_keeps n (λ e, minimize e.2)); done | keeps_step].
Qed.

End preservation.

(** ** The lock *)

Section lock.
Context {R : Type} (np_log2 : Q → Q) {LP : LpSolver}.
Implicit Types m : ModelMonitor R.

Definition free m : Prop := locked m = false.

(** A call on a free lock that comes back with the lock free. *)
Definition comes_back {A} (c : M (ModelMonitor R) A) m : Prop :=
  let '(o, m') := c m in o ≠ OutOfFuel ∧ free m'.

Lemma acquire_free m : free m → acquire m = (Ret tt, set_locked true m).
Proof. unfold free, acquire. by intros ->. Qed.

Lemma acquire_held m : locked m = true → acquire m = (OutOfFuel, m).
Proof. unfold acquire. by intros ->. Qed.

Lemma deployment_at_ok key d m : assoc key (deployments m) = Some d → deployment_at key m = (Ret d, m).
Proof. intros Hd. unfold deployment_at, bind, get, lift. by rewrite Hd. Qed.

Lemma change_ok key d f m :
  assoc key (deployments m) = Some d →
  change_deployment key f m = (Ret tt, set_deployments (assoc_upd key f (deployments m)) m).
Proof. intros Hd. unfold change_deployment. by rewrite (bind_Ret _ _ _ _ _ (deployment_at_ok key d m Hd)). Qed.

(** The end of [add_deployment]: the new cost. *)
Definition finish_add (key : string) (profile : option nat) (ver : option string) (old_cost : fl) (d : DeploymentStates) m :
    ModelMonitor R :=
  let d' := set_watch_ver ver (set_d_profile profile d) in
  let ds := assoc_upd key (set_watch_ver ver) (assoc_upd key (set_d_profile profile) (deployments m)) in
  set_locked false (set_resource_version (Some ver)
    (set_cost (fl_add (m_cost m) (fl_sub (deployment_cost m d') old_cost)) (set_deployments ds m))).

Lemma finish_ok key profile ver old_cost d m :
  locked m = true → assoc key (deployments m) = Some d →
  (change_deployment key (set_d_profile profile) ;;
   change_deployment key (set_watch_ver ver) ;;
   let* d' := deployment_at key in
   modify (λ m, set_cost (fl_add (m_cost m) (fl_sub (deployment_cost m d') old_cost)) m) ;;
   modify (set_resource_version (Some ver)) ;;
   release ;;
   ret true)%py m = (Ret true, finish_add key profile ver old_cost d m).
Proof.
  intros Hl Hd. rewrite (bind_Ret _ _ _ _ _ (change_ok key d _ m Hd)).
  set (m1 := set_deployments _ m). assert (assoc key (deployments m1) = Some (set_d_profile profile d)) as H1
    by (simpl; by apply assoc_upd_eq).
  rewrite (bind_Ret _ _ _ _ _ (change_ok key _ _ m1 H1)). set (m2 := set_deployments _ m1).
  assert (assoc key (deployments m2) = Some (set_watch_ver ver (set_d_profile profile d))) as H2
    by (simpl; by apply assoc_upd_eq, assoc_upd_eq).
  rewrite (bind_Ret _ _ _ _ _ (deployment_at_ok key _ m2 H2)). unfold bind, modify, release. simpl. by rewrite Hl.
Qed.

Lemma set_profile_ends p o : (set_profile np_log2 p o).1 ≠ OutOfFuel.
Proof.
  assert (∀ l : list (list pynum), np_shape l ≠ OutOfFuel) as Hsh
    by (intros [|row rest]; simpl; [done|by destruct (forallb _ _)]).
  specialize (Hsh (tputs p)). unfold set_profile, zeros_like. py_unfold.
  destruct (workload_template o); destruct (np_shape (tputs p)); simpl; try done. by destruct (_ && _).
Qed.

Lemma match_profile_lock key name m :
  ∃ p m', match_profile key name m = (Ret p, m') ∧ locked m' = locked m ∧ deployments m' = deployments m ∧
    m_cost m' = m_cost m ∧ profiles m' = profiles m ∧ length (heap m') = length (heap m).
Proof.
  unfold match_profile, bind at 1, get. destruct (assoc key _); [by eexists _, m|].
  destruct (assoc name _) as [id|]; [|by eexists _, m]. eexists _, _. unfold bind, set_profile_gpu, modify, ret.
  split; [done|]. simpl. by rewrite length_alter.
Qed.

(** What [add_deployment] does before it takes the lock. *)
Lemma add_prefix_ok name ns m :
  let key := entry_point name ns in
  ∃ profile m1, match_profile key name m = (Ret profile, (match_profile key name m).2) ∧
    (match profile with
     | Some id =>
       let* m := get in
       catch (let* p := lift (profile_at m id) in on_optimizer (set_profile np_log2 p)) (λ _, ret tt)
     | None => ret tt
     end)%py (match_profile key name m).2 = (Ret tt, m1) ∧
    locked m1 = locked m ∧ deployments m1 = deployments m ∧ m_cost m1 = m_cost m ∧
    heap m1 = heap (match_profile key name m).2.
Proof.
  intros key. destruct (match_profile_lock key name m) as (profile & m' & -> & Hl & Hd & Hc & _). simpl. exists profile.
  destruct profile as [id|]; [|by eexists]. unfold bind at 1, get, catch, bind, lift.
  destruct (profile_at m' id) as [p| |] eqn:Hp; [|by eexists|].
  - unfold on_optimizer, zoom. pose proof (set_profile_ends p (optimizer m')) as He.
    destruct (set_profile np_log2 p (optimizer m')) as [[u| |] o']; [destruct u| |done]; by eexists.
  - unfold profile_at in Hp. by destruct (heap m' !! id).
Qed.

Lemma add_deployment_back ver name ns dp m :
  free m → dp ≠ OutOfFuel → comes_back (add_deployment np_log2 ver name ns dp) m.
Proof.
  intros Hf Hdp. unfold comes_back, add_deployment. set (key := entry_point name ns).
  destruct (add_prefix_ok name ns m) as (profile & m1 & H1 & H2 & Hl & Hd & _). fold key in H1, H2.
  rewrite (bind_Ret _ _ _ _ _ H1), (bind_Ret _ _ _ _ _ H2).
  destruct dp as [d|e|]; [|by split; [|unfold free in *; congruence]|done]. rewrite bind_lift.
  rewrite (bind_Ret _ _ _ _ _ (acquire_free m1 ltac:(unfold free in *; congruence))), bind_get.
  cbn [deployments set_locked]. destruct (assoc key (deployments m1)) as [old|] eqn:Ho.
  - destruct (is_modified old d); [|by split].
    rewrite (bind_Ret _ _ _ _ _ (change_ok key old _ (set_locked true m1) Ho)).
    set (m2 := set_deployments _ _). assert (assoc key (deployments m2) = Some (update d old)) as H3
      by (simpl; by apply assoc_upd_eq). by rewrite (finish_ok key profile ver _ (update d old) m2).
  - rewrite bind_modify. set (m2 := set_deployments _ _).
    assert (assoc key (deployments m2) = Some d) as H3 by apply assoc_set_eq.
    by rewrite (finish_ok key profile ver _ d m2).
Qed.

(** Computations that return or raise from every state with a property that they keep. *)
Definition steady {A} (P : ModelMonitor R → Prop) (c : M (ModelMonitor R) A) : Prop :=
  ∀ m, P m → (c m).1 ≠ OutOfFuel ∧ P (c m).2.

Lemma steady_bind {A B} P (c : M (ModelMonitor R) A) (k : A → M (ModelMonitor R) B) :
  steady P c → (∀ a, steady P (k a)) → steady P (bind c k).
Proof.
  intros Hc Hk m Hm. destruct (Hc m Hm) as [Ho Hm']. unfold bind.
  destruct (c m) as [[a| |] m']; simpl in *; [by apply Hk|done..].
Qed.

Lemma steady_catch {A} P (c : M (ModelMonitor R) A) h : steady P c → (∀ e, steady P (h e)) → steady P (catch c h).
Proof.
  intros Hc Hh m Hm. destruct (Hc m Hm) as [Ho Hm']. unfold catch.
  destruct (c m) as [[a| |] m']; simpl in *; [done|by apply Hh|done].
Qed.

Lemma steady_for_each {A} P (l : list A) body : (∀ x, steady P (body x)) → steady P (for_each l body).
Proof. intros Hb. induction l as [|x l IH]; simpl; [by intros m Hm|]. by apply steady_bind. Qed.

Lemma steady_lift {A} P (o : outcome A) : o ≠ OutOfFuel → steady P (lift o).
Proof. by intros Ho m Hm. Qed.

Lemma steady_lock {A} b (c : M (ModelMonitor R) A) :
  (∀ m, (c m).1 ≠ OutOfFuel) → (∀ m, locked (c m).2 = locked m) → steady (λ m, locked m = b) c.
Proof. intros H1 H2 m <-. split; [apply H1|apply H2]. Qed.

Lemma profile_at_ends m id : profile_at m id ≠ OutOfFuel.
Proof. unfold profile_at. by destruct (heap m !! id). Qed.

Lemma deployment_at_steady b key : steady (λ m, locked m = b) (deployment_at key).
Proof. apply steady_lock; intros m; unfold deployment_at, bind, get, lift; by destruct (assoc _ _). Qed.

Lemma change_steady b key f : steady (λ m, locked m = b) (change_deployment key f).
Proof. apply steady_bind; [apply deployment_at_steady|]. intros _. by apply steady_lock. Qed.

Lemma set_profile_steady b p : steady (λ m, locked m = b) (on_optimizer (set_profile np_log2 p)).
Proof.
  apply steady_lock; intros m; unfold on_optimizer, zoom; pose proof (set_profile_ends p (optimizer m));
    by destruct (set_profile np_log2 p (optimizer m)) as [o o'].
Qed.

Hint Resolve steady_lift profile_at_ends deployment_at_steady change_steady set_profile_steady : lodestar.

Ltac steady_step :=
  match goal with
  | |- steady _ (bind _ _) => apply steady_bind; [|intros ?]
  | |- steady _ (catch _ _) => apply steady_catch; [|intros ?]
  | |- steady _ (for_each _ _) => apply steady_for_each; intros ?
  | |- steady _ (match ?x with _ => _ end) => destruct x eqn:?
  | |- steady _ _ => first [solve [auto with lodestar] | solve [apply steady_lock; done]]
  end.

Lemma apply_profile_steady key id diff : steady free (apply_profile np_log2 key id diff).
Proof.
  intros m Hm. unfold apply_profile. rewrite (bind_Ret _ _ _ _ _ (acquire_free m Hm)). set (body := bind get _).
  assert (steady (λ m, locked m = true) body) as Hb by (unfold body; repeat steady_step).
  destruct (Hb (set_locked true m) eq_refl) as [Ho Hl]. clearbody body.
  destruct (body (set_locked true m)) as [o m'] eqn:Eb. simpl in Ho, Hl. unfold bind, catch, release, raise. rewrite Eb.
  destruct o; [| |done]; by rewrite !Hl.
Qed.

Lemma store_profile_steady key id diff : steady free (store_profile np_log2 key id diff).
Proof. unfold store_profile. repeat first [apply apply_profile_steady | steady_step]. Qed.

Lemma load_profiles_steady answers arg :
  (∀ r, answers r ≠ OutOfFuel) → steady free (load_profiles np_log2 answers arg).
Proof.
  intros Ha. unfold load_profiles, load_profile, update_profile.
  repeat first [apply store_profile_steady | steady_step | apply steady_lift, py_div_ends].
Qed.

Lemma remove_deployment_back name ns m :
  free m → entry_point name ns ∈ (deployments m).*1 → comes_back (remove_deployment name ns) m.
Proof.
  intros Hf [d Hd]%assoc_Some. unfold comes_back, remove_deployment.
  rewrite (bind_Ret _ _ _ _ _ (acquire_free m Hf)), bind_modify.
  set (m1 := set_optimizer _ _). by rewrite (bind_Ret _ _ _ _ _ (deployment_at_ok _ d m1 Hd)).
Qed.

Lemma optimize_free answers cs q m :
  (∀ r, answers r ≠ OutOfFuel) → free m → free (optimize np_log2 answers cs q m).2.
Proof.
  intros Ha Hf. unfold optimize. unfold bind at 1. destruct (load_profiles_steady answers None Ha m Hf) as [Ho Hf1].
  destruct (load_profiles np_log2 answers None m) as [[b| |] m1]; simpl in *; [|done..].
  unfold bind at 1, on_optimizer, zoom. destruct (set_workload_distribution cs q (optimizer m1)) as [[ok| |] o]; [|done..].
  destruct (negb ok); [done|]. rewrite bind_get. unfold bind at 1, lift.
  destruct (optimizer_run _) as [[[numbers total]|]| |]; [|done..].
  rewrite (bind_Ret _ _ _ _ _ (acquire_free (set_optimizer o m1) Hf1)), bind_get. by destruct (negb _).
Qed.

(** A removal that leaves the lock held, and calls that then wait. *)
Lemma remove_unknown_held name ns m :
  free m → entry_point name ns ∉ (deployments m).*1 →
  remove_deployment name ns m = (Raise KeyError, (remove_deployment name ns m).2) ∧
  locked (remove_deployment name ns m).2 = true.
Proof.
  intros Hf Hk. unfold remove_deployment. rewrite (bind_Ret _ _ _ _ _ (acquire_free m Hf)), bind_modify.
  set (m' := set_optimizer _ _).
  assert (deployment_at (entry_point name ns) m' = (Raise KeyError, m')) as Hd.
  { unfold deployment_at, bind, get, lift. simpl. by rewrite assoc_None. }
  unfold bind. by rewrite Hd.
Qed.

Lemma add_held ver name ns d m :
  locked m = true → (add_deployment np_log2 ver name ns (Ret d) m).1 = OutOfFuel.
Proof.
  intros Hl. unfold add_deployment. destruct (add_prefix_ok name ns m) as (profile & m1 & H1 & H2 & Hl' & _).
  rewrite (bind_Ret _ _ _ _ _ H1), (bind_Ret _ _ _ _ _ H2), bind_lift. unfold bind at 1.
  by rewrite acquire_held by congruence.
Qed.

End lock.

(** ** The operations as steps *)

Inductive monitor_step {R : Type} (np_log2 : Q → Q) {LP : LpSolver} (m : ModelMonitor R) : ModelMonitor R → Prop :=
| step_add ver name ns dp :
    (∀ d, dp = Ret d → ∃ nm r mn, d = new_DeploymentStates nm r mn) →
    monitor_step np_log2 m (add_deployment np_log2 ver name ns dp m).2
| step_remove name ns : monitor_step np_log2 m (remove_deployment name ns m).2
| step_update name ns n b : monitor_step np_log2 m (update_deployment_num_replicas name ns n b m).2
| step_mark : monitor_step np_log2 m (mark_deployments_outdated m).2
| step_clear : monitor_step np_log2 m (clear_outdated_deployments m).2
| step_load answers arg : monitor_step np_log2 m (load_profiles np_log2 answers arg m).2
| step_debug : monitor_step np_log2 m (on_optimizer (set_profile np_log2 debug_gpu_profile) m).2
| step_optimize answers cs q : monitor_step np_log2 m (optimize np_log2 answers cs q m).2
| step_minimize : monitor_step np_log2 m (scale_to_minimum m).2.

Section reachable.
Context {R : Type} (np_log2 : Q → Q) {LP : LpSolver}.
Implicit Types m : ModelMonitor R.

Lemma step_ok m m' : monitor_step np_log2 m m' → monitor_ok np_log2 0 m → monitor_ok np_log2 0 m'.
Proof.
  intros [ver name ns dp Hdp| | | | | | | |] Hm.
  - apply add_deployment_keeps; [|done]. intros d (nm & r & mn & ->)%Hdp. done.
  - by apply remove_deployment_keeps.
  - by apply update_replicas_keeps.
  - by apply mark_keeps.
  - revert Hm. apply (keeps_bind _ get); [apply keeps_get|]. intros s.
    apply keeps_bind; [apply clear_loop_keeps|intros _; apply keeps_gets].
  - by apply load_profiles_keeps.
  - by apply on_optimizer_keeps; [apply set_profile_keeps|].
  - by apply optimize_keeps.
  - by apply scale_keeps.
Qed.

Lemma reachable_ok fraction m : rtc (monitor_step np_log2) (empty_monitor fraction) m → monitor_ok np_log2 0 m.
Proof.
  intros Hr. assert (monitor_ok (R:=R) np_log2 0 (empty_monitor fraction)) as H0
    by (split; simpl; [done|constructor|constructor|apply NoDup_nil_2|done|lia]).
  induction Hr as [|m1 m2 m3 Hs _ IH]; [done|]. apply IH. by eapply step_ok.
Qed.

(** C15: in every state that the monitor's operations can reach, in any order and
    with any outcomes, the optimizer's tables have one shape, every profile that
    the dictionary or a deployment refers to exists, each deployment has one
    entry, and no watch version has been recorded. *)
Theorem monitor_well_formed fraction m :
  rtc (monitor_step np_log2) (empty_monitor fraction) m →
  optimizer_ok np_log2 (optimizer m) ∧
  (∀ name id, assoc name (profiles m) = Some id → is_Some (heap m !! id)) ∧
  (∀ key d id, assoc key (deployments m) = Some d → d_profile d = Some id → is_Some (heap m !! id)) ∧
  NoDup (deployments m).*1 ∧ last_watch_version m = None ∧ outdated_watch_version m = None.
Proof.
  intros [Ho Hp Hd Hk [Hl Hw] _]%reachable_ok. split_and!; try done.
  - intros name id Hn%assoc_elem. apply lookup_lt_is_Some. by apply (proj1 (Forall_forall _ _) Hp (name, id)).
  - intros key d id Hn%assoc_elem Hid. apply lookup_lt_is_Some. by apply (proj1 (Forall_forall _ _) Hd (key, d)).
Qed.

(** The lock is given back. Called while the lock is free, [add_deployment],
    [load_profiles], [_minimize] and the removal of a known deployment return or
    raise (none waits forever) and leave the lock free; [_optimize] leaves it free. *)
Theorem lock_given_back m :
  free m →
  (∀ ver name ns dp, dp ≠ OutOfFuel → comes_back (add_deployment np_log2 ver name ns dp) m) ∧
  (∀ name ns, entry_point name ns ∈ (deployments m).*1 → comes_back (remove_deployment name ns) m) ∧
  (∀ answers arg, (∀ r, answers r ≠ OutOfFuel) → comes_back (load_profiles np_log2 answers arg) m) ∧
  comes_back scale_to_minimum m ∧
  (∀ answers cs q, (∀ r, answers r ≠ OutOfFuel) → free (optimize np_log2 answers cs q m).2).
Proof.
  intros Hf. split_and!.
  - intros. by apply add_deployment_back.
  - intros. by apply remove_deployment_back.
  - intros answers arg Ha. unfold comes_back. destruct (load_profiles_steady np_log2 answers arg Ha m Hf).
    by destruct (load_profiles np_log2 answers arg m).
  - unfold comes_back, scale_to_minimum. by rewrite (bind_Ret _ _ _ _ _ (acquire_free m Hf)).
  - intros. by apply optimize_free.
Qed.

(** Removing a deployment that is not monitored stops the monitor. The call
    raises [KeyError] with the lock held; from then on adding and removing
    deployments and scaling to the minimum never return. *)
Theorem remove_unknown_blocks name ns m :
  free m → entry_point name ns ∉ (deployments m).*1 →
  let '(o, m') := remove_deployment name ns m in
  o = Raise KeyError ∧ deployments m' = deployments m ∧
  (∀ ver name' ns' d, (add_deployment np_log2 ver name' ns' (Ret d) m').1 = OutOfFuel) ∧
  (∀ name' ns', remove_deployment name' ns' m' = (OutOfFuel, m')) ∧
  scale_to_minimum m' = (OutOfFuel, m').
Proof.
  intros Hf Hk. destruct (remove_unknown_held name ns m Hf Hk) as [-> Hl]. set (m' := (remove_deployment name ns m).2) in *.
  split_and!; [done| |by intros; apply add_held| |].
  - unfold m', remove_deployment. rewrite (bind_Ret _ _ _ _ _ (acquire_free m Hf)), bind_modify.
    unfold bind, deployment_at, get, lift. simpl. by rewrite assoc_None.
  - intros name' ns'. unfold remove_deployment, bind at 1. by rewrite acquire_held.
  - unfold scale_to_minimum, bind at 1. by rewrite acquire_held.
Qed.

(** [clear_outdated_deployments] does not clear what is outdated. In every
    reachable state it compares with no version at all: deployments that carry a
    watch version all stay, however old; and when there is one without a version
    (added by a request), it is removed and the iteration raises. *)
Theorem clear_outdated_spec fraction m :
  rtc (monitor_step np_log2) (empty_monitor fraction) m →
  (Forall (λ e, watch_ver e.2 ≠ None) (deployments m) →
     clear_outdated_deployments m = (Ret (py_len (deployments m)), m)) ∧
  (∀ ds1 key d ds2,
     deployments m = ds1 ++ (key, d) :: ds2 → Forall (λ e, watch_ver e.2 ≠ None) ds1 → watch_ver d = None →
     clear_outdated_deployments m = (Raise RuntimeError, set_deployments (assoc_del key (deployments m)) m)).
Proof.
  intros [_ _ _ _ [_ Hw] _]%reachable_ok.
  assert (∀ ds ds', Forall (λ e, watch_ver e.2 ≠ None) ds → clear_loop (ds ++ ds') m = clear_loop ds' m) as Hskip.
  { intros ds ds'. induction 1 as [|[k d] ds Hd _ IH]; [done|]. simpl. rewrite bind_get, Hw.
    rewrite bool_decide_eq_false_2 by done. apply IH. }
  unfold clear_outdated_deployments. rewrite bind_get. split.
  - intros Hall. specialize (Hskip _ [] Hall). rewrite app_nil_r in Hskip. unfold bind. by rewrite Hskip.
  - intros ds1 key d ds2 Hds Hall Hd. unfold bind at 1. rewrite Hds at 1. rewrite Hskip by done. simpl.
    rewrite bind_get, Hw, bool_decide_eq_true_2 by done. done.
Qed.

End reachable.

(** ** Costs, overrides and optimization *)

Section behaviour.
Context {R : Type} (np_log2 : Q → Q) {LP : LpSolver}.
Implicit Types m : ModelMonitor R.

(** A deployment without a profile that is added again with another minimum: the
    total cost becomes NaN (infinity minus infinity), and adding anything later
    keeps it there. *)
Theorem readd_without_profile_nan ver name ns d old m :
  let key := entry_point name ns in
  free m → assoc key (profiles m) = None → assoc name (profiles m) = None →
  assoc key (deployments m) = Some old → d_profile old = None → min_replicas old ≠ min_replicas d →
  ∃ m', add_deployment np_log2 ver name ns (Ret d) m = (Ret true, m') ∧ m_cost m' = NaN.
Proof.
  intros key Hf H1 H2 Ho Hp Hmin. unfold add_deployment. fold key.
  assert (match_profile key name m = (Ret None, m)) as Hmp
    by (unfold match_profile, bind, get; by rewrite H1, H2).
  rewrite (bind_Ret _ _ _ _ _ Hmp).
  rewrite (bind_Ret (ret tt) _ m tt m) by done. rewrite bind_lift.
  rewrite (bind_Ret _ _ _ _ _ (acquire_free m Hf)), bind_get. cbn [deployments set_locked]. rewrite Ho.
  unfold is_modified. destruct (Z.eqb_spec (min_replicas old) (min_replicas d)); [done|]. cbn [negb].
  rewrite (bind_Ret _ _ _ _ _ (change_ok key old _ (set_locked true m) Ho)). set (m2 := set_deployments _ _).
  assert (assoc key (deployments m2) = Some (update d old)) as H3 by (simpl; by apply assoc_upd_eq).
  rewrite (finish_ok key None ver _ (update d old) m2) by done. eexists. split; [done|]. simpl.
  unfold deployment_cost. rewrite Hp. simpl. by destruct (m_cost m).
Qed.

(** ** Overridden replicas *)

Definition overridden_at (key : string) (n : Z) m : Prop :=
  ∃ d, assoc key (deployments m) = Some d ∧ d_overriden d = n.

Lemma change_overridden key n key' f :
  (∀ d, d_overriden (f d) = d_overriden d) → keeps (overridden_at key n) (change_deployment key' f).
Proof.
  intros Hf. unfold change_deployment. apply keeps_bind.
  { unfold deployment_at. repeat keeps_step. }
  intros _. apply keeps_modify. intros m (d & Hd & Hn). destruct (decide (key' = key)) as [->|Hk].
  - exists (f d). simpl. rewrite (assoc_upd_eq key f _ d) by done. by rewrite Hf.
  - exists d. simpl. by rewrite assoc_upd_ne.
Qed.

Lemma map_overridden key n (f : string * DeploymentStates → DeploymentStates) :
  (∀ e, d_overriden (f e) = d_overriden e.2) →
  keeps (overridden_at key n) (modify (λ m, set_deployments ((λ e, (e.1, f e)) <$> deployments m) m)).
Proof.
  intros Hf. apply keeps_modify. intros m (d & Hd & Hn). simpl.
  assert (∃ d', assoc key ((λ e, (e.1, f e)) <$> deployments m) = Some d' ∧ d_overriden d' = n) as H; [|exact H].
  revert Hd. induction (deployments m) as [|[k v] l IH]; csimpl; [done|]. destruct (decide (k = key)) as [->|]; [|done].
  intros [= ->]. exists (f (key, d)). split; [done|]. by rewrite Hf.
Qed.

Lemma state_overridden key n (f : ModelMonitor R → ModelMonitor R) :
  (∀ m, deployments (f m) = deployments m) → keeps (overridden_at key n) (modify f).
Proof. intros Hf. apply keeps_modify. intros m. unfold overridden_at. by rewrite Hf. Qed.

Lemma lock_overridden key n : keeps (overridden_at key n) acquire ∧ keeps (overridden_at key n) release.
Proof. split; intros m; unfold acquire, release; by destruct (locked m). Qed.

Lemma optimizer_overridden {A} key n (c : M Optimizer A) : keeps (overridden_at key n) (on_optimizer c).
Proof. intros m Hm. unfold on_optimizer, zoom. by destruct (c (optimizer m)). Qed.

Ltac overridden_step :=
  first [ apply (proj1 (lock_overridden _ _)) | apply (proj2 (lock_overridden _ _)) | apply optimizer_overridden
        | apply change_overridden; done | apply (map_overridden _ _ (λ e, _)); done | apply state_overridden; done
        | keeps_step ].

Lemma new_object_overridden key n p : keeps (overridden_at key n) (new_object p).
Proof. by intros m Hm. Qed.

Lemma load_overridden key n answers arg : keeps (overridden_at key n) (load_profiles np_log2 answers arg).
Proof.
  unfold load_profiles, load_profile, update_profile, store_profile, apply_profile, deployment_at.
  repeat first [apply new_object_overridden | overridden_step].
Qed.

Lemma optimize_overridden key n answers cs q : keeps (overridden_at key n) (optimize np_log2 answers cs q).
Proof. unfold optimize. repeat first [apply load_overridden | overridden_step]. Qed.

Lemma scale_overridden key n : keeps (overridden_at key n) scale_to_minimum.
Proof. unfold scale_to_minimum. repeat overridden_step. Qed.

(** What the monitor's thread and the watch of the deployments do. *)
Inductive background_step m : ModelMonitor R → Prop :=
| bg_load answers arg : background_step m (load_profiles np_log2 answers arg m).2
| bg_optimize answers cs q : background_step m (optimize np_log2 answers cs q m).2
| bg_minimize : background_step m (scale_to_minimum m).2
| bg_set name ns n : background_step m (update_deployment_num_replicas name ns n false m).2.

Lemma background_overridden key n m m' :
  rtc background_step m m' → overridden_at key n m → overridden_at key n m'.
Proof.
  induction 1 as [|m1 m2 m3 [answers arg|answers cs q| |name ns k] _ IH]; intros Hm; [done|apply IH..].
  - by apply load_overridden.
  - by apply optimize_overridden.
  - by apply scale_overridden.
  - revert Hm. unfold update_deployment_num_replicas. apply keeps_bind; [apply keeps_get|]. intros s.
    repeat overridden_step.
Qed.

Lemma read_overridden name ns n m :
  overridden_at (entry_point name ns) n m → n ≠ No_Overriden → read_deployment_num_replicas name ns m = Ret n.
Proof.
  intros (d & Hd & Hn) Hne. unfold read_deployment_num_replicas, replicas, overriden. rewrite Hd, Hn.
  by rewrite (proj2 (Z.eqb_neq _ _) Hne).
Qed.

(** An override holds until it is reset. After a deployment's replicas are
    overridden, it reads as the given number whatever is loaded, optimized,
    minimized or set in between; resetting any deployment of the model then makes
    every deployment read as the number last set for it. *)
Theorem override_holds name ns n m m' :
  entry_point name ns ∈ (deployments m).*1 → n ≠ No_Overriden →
  rtc background_step (update_deployment_num_replicas name ns n true m).2 m' →
  read_deployment_num_replicas name ns m' = Ret n ∧
  ∀ name' ns', entry_point name' ns' ∈ (deployments m').*1 →
    let '(o, m'') := update_deployment_num_replicas name' ns' No_Overriden true m' in
    o = Ret tt ∧
    ∀ nm s d, assoc (entry_point nm s) (deployments m') = Some d →
      read_deployment_num_replicas nm s m'' = Ret (d_replicas d).
Proof.
  intros [d Hd]%assoc_Some Hne Hr. split.
  - apply read_overridden; [|done]. eapply background_overridden; [exact Hr|].
    unfold update_deployment_num_replicas. rewrite bind_get, Hd, (proj2 (Z.eqb_neq _ _) Hne), (change_ok _ d) by done.
    exists (override_replicas n d). simpl. by rewrite (assoc_upd_eq _ _ _ d).
  - intros name' ns' [d' Hd']%assoc_Some. unfold update_deployment_num_replicas. rewrite bind_get, Hd'. simpl.
    split; [done|]. intros nm s x Hx. unfold read_deployment_num_replicas. simpl.
    assert (assoc (entry_point nm s) ((λ e, (e.1, override_replicas No_Overriden e.2)) <$> deployments m') =
            Some (override_replicas No_Overriden x)) as ->; [|done].
    revert Hx. clear. induction (deployments m') as [|[k v] l IH]; csimpl; [done|].
    destruct (decide (k = _)); [by intros [= ->]|done].
Qed.

(** ** The optimization *)

Lemma load_profiles_returns answers arg m :
  (∀ r, answers r ≠ OutOfFuel) → free m →
  ∃ b, load_profiles np_log2 answers arg m = (Ret b, (load_profiles np_log2 answers arg m).2) ∧
    free (load_profiles np_log2 answers arg m).2.
Proof.
  intros Ha Hf. destruct (load_profiles_steady np_log2 answers arg Ha m Hf) as [Ho Hf'].
  assert (∀ e, (load_profiles np_log2 answers arg m).1 ≠ Raise e) as Hr.
  { intros e. unfold load_profiles, catch. by destruct (bind _ _ m) as [[| |] ?]. }
  destruct (load_profiles np_log2 answers arg m) as [[b|e|] m1]; [by exists b|by destruct (Hr e)|done].
Qed.

Context {Laws : LpLaws LP}.

(** C12: an optimization gives every deployment a number of replicas that serves the
    load at the least cost. When all GPUs of the optimizer (after the profiles
    were loaded) are deployed, their tables hold floats and the clusters have
    points, [_optimize] returns with the lock free. The slices of the integer program carry the
    whole rate. Exactly when the solver has no solution of this program the deployments and the cost are
    as before; otherwise the replicas are set from a solution, the cost is its cost, and no
    solution costs less; deployments without a GPU in the solution get none. *)
Theorem optimize_meets_load answers span groups rate i1 i2 m :
  free m → (∀ r, answers r ≠ OutOfFuel) → groups ≠ [] → Forall (λ ps, ps ≠ []) groups →
  let m1 := (load_profiles np_log2 answers None m).2 in
  let info := gpu_info (optimizer m1) in
  optimizer_for np_log2 i1 i2 false (optimizer m1) → info ≠ [] →
  Forall (λ e, e.1 ∈ (deployments m1).*1) info →
  let m' := (optimize np_log2 answers (centers_of span groups) rate m).2 in
  let slices := slice_rates slice_factor (workload_distribution (optimizer m')) (rate * gpu_fraction (optimizer m1)) in
  let p := melange_lp slices info ((λ e, table_loads slice_factor (e_tputs e)) <$> info.*2) in
  (optimize np_log2 answers (centers_of span groups) rate m).1 = Ret tt ∧ free m' ∧
  (Qsum slices == rate * gpu_fraction (optimizer m1))%Q ∧
  match lp_solve p with
  | None => deployments m' = deployments m1 ∧ m_cost m' = m_cost m1
  | Some _ =>
    ∃ numbers x,
      let total := total_cost (e_cost <$> info.*2) numbers.*2 in
      numbers.*1 = info.*1 ∧ feasible p x numbers.*2 ∧
      (∀ x' ys', feasible p x' ys' → (total <= total_cost (e_cost <$> info.*2) ys')%Q) ∧
      deployments m' = reset_replicas numbers (deployments m1) ∧ m_cost m' = Fin total
  end.
Proof.
  intros Hf Ha Hg Hgs m1 info Ho Hinfo Hall. destruct (load_profiles_returns answers None m Ha Hf) as (b & H1 & Hf1).
  fold m1 in H1, Hf1. unfold optimize. rewrite (bind_Ret _ _ _ _ _ H1).
  destruct (set_workload_total np_log2 i1 i2 (optimizer m1) span groups rate Ho Hg Hgs)
    as (o' & H2 & _ & Hsum & Hrate & Hgi & Hwd & Htab).
  assert (on_optimizer (set_workload_distribution (centers_of span groups) rate) m1 = (Ret true, set_optimizer o' m1)) as H3
    by (unfold on_optimizer, zoom; by rewrite H2).
  rewrite (bind_Ret _ _ _ _ _ H3). cbn [negb]. rewrite bind_get. cbn [optimizer set_optimizer].
  assert (optimizer_run o' = melange_run (workload_distribution o') (total_request_rate o') info slice_factor) as Hrun.
  { unfold optimizer_run, info. rewrite Hgi. by destruct (gpu_info (optimizer m1)). }
  assert (0 < length i1 ∧ 0 < length i2)%nat as [Hp1 Hp2].
  { destruct Ho as (_ & _ & [Hn1 _] & [Hn2 _] & _). destruct i1, i2; simpl; try done; lia. }
  destruct (melange_ok (length i1) (length i2) slice_factor (workload_distribution o') (total_request_rate o') info)
    as (res & Hres & Hnone & Hsol); [done|done|done|done|unfold slice_factor; lia|].
  rewrite Hrun, Hres, bind_lift. rewrite Hrate in Hnone, Hsol.
  assert (Qsum (slice_rates slice_factor (workload_distribution o') (rate * gpu_fraction (optimizer m1))) == rate * gpu_fraction (optimizer m1))%Q as Hq
    by (rewrite slice_rates_sum by (unfold slice_factor; lia); rewrite Hsum; lra).
  destruct res as [[numbers total]|].
  2: { cbv zeta. cbn [fst snd ret optimizer set_optimizer]. rewrite (proj1 Hnone eq_refl). by split_and!. }
  destruct (Hsol numbers total eq_refl) as (Hkeys & -> & [x Hx] & Hopt).
  rewrite (bind_Ret _ _ _ _ _ (acquire_free (set_optimizer o' m1) Hf1)), bind_get.
  assert (result_current numbers (deployments (set_locked true (set_optimizer o' m1))) = true) as ->.
  { apply forallb_forall. intros [k z] Hk%list_elem_of_In. apply orb_true_iff. left. apply bool_decide_eq_true_2.
    apply (list_elem_of_fmap_2 fst) in Hk. rewrite Hkeys in Hk. simpl in Hk. apply list_elem_of_fmap in Hk as (e & -> & He).
    by eapply (Forall_forall (λ e, e.1 ∈ (deployments m1).*1)) in He. }
  cbv zeta. simpl. split_and!; [done..|]. destruct (lp_solve _); [by exists numbers, x|]. by discriminate (proj2 Hnone eq_refl).
Qed.

End behaviour.

(** ** A profile matched by its short name *)

Section abbreviation.
Context {R : Type} (np_log2 : Q → Q) {LP : LpSolver}.
Implicit Types m : ModelMonitor R.

(** The short name [abbr] was matched with the deployment [key]. *)
Definition abbreviates m (abbr key : string) (old_id : nat) (old : GPUProfile) : Prop :=
  free m ∧ assoc abbr (profiles m) = Some old_id ∧ heap m !! old_id = Some old ∧ gpu old = key ∧ key ≠ abbr ∧
  key ∈ (deployments m).*1 ∧ abbr ∉ (deployments m).*1.

Lemma apply_profile_unknown key id p diff m :
  free m → heap m !! id = Some p → gpu p ∈ (deployments m).*1 → key ∉ (deployments m).*1 →
  apply_profile np_log2 key id diff m = (Raise KeyError, set_locked false (set_locked true m)).
Proof.
  intros Hf Hp Hin Hk. unfold apply_profile. rewrite (bind_Ret _ _ _ _ _ (acquire_free m Hf)).
  unfold bind at 1, catch. rewrite bind_get.
  assert (profile_at (set_locked true m) id = Ret p) as -> by (unfold profile_at; simpl; by rewrite Hp).
  rewrite bind_lift. cbn [deployments set_locked]. rewrite bool_decide_eq_true_2 by done.
  assert (change_deployment key (set_d_profile (Some id)) (set_locked true m) = (Raise KeyError, set_locked true m)) as Hc
    by (unfold change_deployment, deployment_at, bind, get, lift; simpl; by rewrite assoc_None).
  unfold bind at 1. by rewrite Hc.
Qed.

(** The newer profile is recorded, and then the update fails. *)
Lemma update_abbreviated id p abbr key old_id old m :
  abbreviates m abbr key old_id old → heap m !! id = Some p → gpu p = abbr → id ≠ old_id → (p_created old < p_created p)%Q →
  ∃ m', update_profile np_log2 id m = (Raise KeyError, m') ∧ free m' ∧ optimizer m' = optimizer m ∧
    deployments m' = deployments m ∧ m_cost m' = m_cost m ∧ profile_reader m' = profile_reader m ∧
    fraction m' = fraction m ∧ heap m' = alter (set_gpu key) id (heap m) ∧ assoc abbr (profiles m') = Some id.
Proof.
  intros (Hf & Ha & Ho & Hg & Hne & Hk & Hka) Hp Hgp Hid Hc. unfold update_profile. rewrite bind_get.
  assert (profile_at m id = Ret p) as -> by (unfold profile_at; by rewrite Hp). rewrite bind_lift, Hgp, Ha.
  assert (profile_at m old_id = Ret old) as -> by (unfold profile_at; by rewrite Ho). rewrite bind_lift.
  destruct (Qle_bool_spec (p_created p) (p_created old)); [lra|].
  rewrite Hg, (proj2 (String.eqb_neq key abbr) Hne). set (m1 := set_heap (alter (set_gpu key) id (heap m)) m).
  set (ps := if bool_decide (key ∈ (profiles m).*1) then assoc_set key id (profiles m) else profiles m).
  assert ((set_profile_gpu id key ;;
           if bool_decide (key ∈ (profiles m).*1)
           then modify (λ m, set_profiles (assoc_set key id (profiles m)) m) else ret tt)%py m =
          (Ret tt, set_profiles ps m1)) as H1.
  { unfold set_profile_gpu, ps. rewrite bind_modify. by destruct (bool_decide _). }
  rewrite (bind_Ret _ _ _ _ _ H1). unfold store_profile. rewrite bind_modify, bind_get.
  set (m2 := set_profiles _ (set_profiles ps m1)).
  assert (heap m2 !! id = Some (set_gpu key p)) as Hp2 by (simpl; by rewrite list_lookup_alter_eq, Hp).
  assert (profile_at m2 id = Ret (set_gpu key p)) as -> by (unfold profile_at; by rewrite Hp2). rewrite bind_lift.
  rewrite bool_decide_eq_true_2 by done. rewrite (bind_Ret (ret _) _ m2 (abbr, true) m2) by done. cbn [fst snd].
  unfold bind at 1. rewrite (apply_profile_unknown abbr id (set_gpu key p)) by done.
  eexists. split; [done|]. split_and!; try done. simpl. apply assoc_set_eq.
Qed.

(** An update of a profile that was matched by its short name is lost. Loading
    a newer profile reports a failure and changes neither the optimizer nor the
    deployments, but records the profile as seen: loading it again reports success
    and still changes nothing. *)
Theorem abbreviated_update_lost answers r p key old_id old m :
  abbreviates m (gpu p) key old_id old → profile_reader m = Some r → answers r = Ret [p] →
  (p_created old < p_created p)%Q → ¬ (fraction m == 0)%Q → (old_id < length (heap m))%nat →
  ∃ m1 m2, load_profiles np_log2 answers None m = (Ret false, m1) ∧
    load_profiles np_log2 answers None m1 = (Ret true, m2) ∧
    optimizer m2 = optimizer m ∧ deployments m2 = deployments m ∧ m_cost m2 = m_cost m.
Proof.
  intros Ha Hr Hans Hc Hfr Hold. set (p' := mkProfile (gpu p) (cost p / fraction m) (tputs p) (indexes p) (p_created p)).
  assert (∀ m', fraction m' = fraction m →
    load_profile np_log2 p m' = (update_profile np_log2 (length (heap m')) ;; ret tt)%py (set_heap (heap m' ++ [p']) m')) as Hload.
  { intros m' Hm'. unfold load_profile. rewrite bind_get, Hm'. unfold py_div.
    destruct (Qeq_bool (fraction m) 0) eqn:E; [by apply Qeq_bool_iff in E|]. by rewrite bind_lift. }
  assert (∀ m', profile_reader m' = Some r →
    load_profiles np_log2 answers None m' = catch (for_each [p] (load_profile np_log2) ;; ret true)%py (λ _, ret false) m') as Hlp.
  { intros m' Hm'. unfold load_profiles, catch. unfold bind at 1, gets. rewrite Hm', Hans. by rewrite bind_lift. }
  set (id := length (heap m)). set (h1 := heap m ++ [p']).
  assert (h1 !! id = Some p') as Hid by (unfold h1, id; rewrite lookup_app_r, Nat.sub_diag by lia; done).
  destruct (update_abbreviated id p' (gpu p) key old_id old (set_heap h1 m)) as
    (m1 & H1 & Hf1 & Ho1 & Hd1 & Hc1 & Hr1 & Hfr1 & Hh1 & Hp1); [|done..|unfold id; lia|done|].
  { destruct Ha as (? & ? & Hl & ? & ? & ? & ?). split_and!; try done. simpl. unfold h1. by rewrite lookup_app_l. }
  exists m1, (set_heap (heap m1 ++ [p']) m1). split; [|split].
  - rewrite (Hlp m Hr). unfold catch, for_each, bind. rewrite (Hload m eq_refl). fold id h1. unfold bind. by rewrite H1.
  - rewrite (Hlp m1) by by rewrite Hr1. unfold catch, for_each, bind at 1 2. rewrite (Hload m1 Hfr1).
    assert (update_profile np_log2 (length (heap m1)) (set_heap (heap m1 ++ [p']) m1) =
            (Ret false, set_heap (heap m1 ++ [p']) m1)) as Hu; [|unfold bind; by rewrite Hu].
    unfold update_profile. rewrite bind_get. unfold profile_at. cbn [heap set_heap profiles].
    rewrite lookup_app_r, Nat.sub_diag by lia. cbn [lookup list_lookup]. rewrite bind_lift. simpl (gpu p'). rewrite Hp1.
    rewrite lookup_app_l by (rewrite Hh1, length_alter; simpl; unfold h1, id; rewrite length_app; simpl; lia).
    rewrite Hh1. simpl. rewrite list_lookup_alter_eq, Hid. simpl. rewrite bind_lift. simpl.
    by rewrite (proj2 (Qle_bool_iff _ _) (Qle_refl _)).
  - simpl. by rewrite Ho1, Hd1, Hc1.
Qed.

End abbreviation.

(** ** Witnesses *)

Definition demo_answers (_ : unit) : outcome (list GPUProfile) := Ret [demo_profile].

Definition demo_loaded : ModelMonitor unit := (load_profiles id demo_answers (Some tt) (empty_monitor 100)).2.

Definition demo_add (ver : option string) : M (ModelMonitor unit) bool :=
  add_deployment id ver "a10" (Some "ns"%string) (Ret (new_DeploymentStates "a10" 1 0)).

(** A monitor with one deployment, found by the watch or added by a request. *)
Definition demo_monitor (ver : option string) : ModelMonitor unit := (demo_add ver demo_loaded).2.

Lemma demo_monitor_reachable ver : rtc (monitor_step id) (empty_monitor 100) (demo_monitor ver).
Proof.
  eapply rtc_l; [apply (step_load id _ demo_answers (Some tt))|]. eapply rtc_l; [|apply rtc_refl].
  apply (step_add id _ ver "a10" (Some "ns"%string)). intros d [= <-]. by eexists _, _, _.
Qed.

Lemma demo_optimizer_ready ver :
  optimizer_for id [4; 8]%Q [16; 32]%Q false (optimizer (load_profiles id (λ _, Ret []) None (demo_monitor ver)).2).
Proof.
  split.
  - eapply (ok_optimizer _ 0), load_profiles_keeps, reachable_ok, demo_monitor_reachable.
  - split_and!; [reflexivity|by apply ascending_two..|]. eexists. by split_and!.
Qed.

Lemma monitor_well_formed_witness :
  let m := demo_monitor None in
  optimizer_ok id (optimizer m) ∧
  (∀ name id, assoc name (profiles m) = Some id → is_Some (heap m !! id)) ∧
  (∀ key d id, assoc key (deployments m) = Some d → d_profile d = Some id → is_Some (heap m !! id)) ∧
  NoDup (deployments m).*1 ∧ last_watch_version m = None ∧ outdated_watch_version m = None.
Proof. apply (monitor_well_formed id 100), demo_monitor_reachable. Defined.

Lemma lock_given_back_witness :
  let m := demo_monitor None in
  (∀ ver name ns dp, dp ≠ OutOfFuel → comes_back (add_deployment id ver name ns dp) m) ∧
  (∀ name ns, entry_point name ns ∈ (deployments m).*1 → comes_back (remove_deployment name ns) m) ∧
  (∀ answers arg, (∀ r, answers r ≠ OutOfFuel) → comes_back (load_profiles id answers arg) m) ∧
  comes_back scale_to_minimum m ∧
  (∀ answers cs q, (∀ r, answers r ≠ OutOfFuel) → free (optimize id answers cs q m).2).
Proof. apply (lock_given_back id). reflexivity. Defined.

Lemma remove_unknown_blocks_witness :
  let '(o, m') := remove_deployment "v100" (Some "ns"%string) (demo_monitor None) in
  o = Raise KeyError ∧ deployments m' = deployments (demo_monitor None) ∧
  (∀ ver name' ns' d, (add_deployment id ver name' ns' (Ret d) m').1 = OutOfFuel) ∧
  (∀ name' ns', remove_deployment name' ns' m' = (OutOfFuel, m')) ∧
  scale_to_minimum m' = (OutOfFuel, m').
Proof.
  apply (remove_unknown_blocks id "v100" (Some "ns"%string) (demo_monitor None)); [reflexivity|].
  refine (bool_decide_unpack _ _). vm_compute. exact I.
Defined.

Lemma clear_outdated_spec_witness :
  (clear_outdated_deployments (demo_monitor (Some "7"%string)) = (Ret 1, demo_monitor (Some "7"%string))) ∧
  ∃ m', clear_outdated_deployments (demo_monitor None) = (Raise RuntimeError, m') ∧ deployments m' = [].
Proof.
  split.
  - apply (clear_outdated_spec id 100 _ (demo_monitor_reachable _)). repeat constructor. discriminate.
  - eexists. split.
    + eapply (proj2 (clear_outdated_spec id 100 _ (demo_monitor_reachable None)) [] "ns/a10" _ []);
        [reflexivity|constructor|reflexivity].
    + reflexivity.
Defined.

Lemma override_holds_witness :
  let m1 := (update_deployment_num_replicas "a10" (Some "ns"%string) 5 true (demo_monitor None)).2 in
  read_deployment_num_replicas "a10" (Some "ns"%string) (scale_to_minimum m1).2 = Ret 5.
Proof.
  intros m1. apply (override_holds id "a10" (Some "ns"%string) 5 (demo_monitor None)).
  - refine (bool_decide_unpack _ _). vm_compute. exact I.
  - discriminate.
  - eapply rtc_l; [|apply rtc_refl]. apply bg_minimize.
Defined.

(** The solver finds a solution here, and the replicas are set. *)
Lemma optimize_meets_load_witness :
  let m := demo_monitor None in
  let m1 := (load_profiles id (λ _, Ret []) None m).2 in
  let info := gpu_info (optimizer m1) in
  let m' := (optimize id (λ _, Ret []) (centers_of None demo_groups) 7 m).2 in
  ∃ numbers,
    let total := total_cost (e_cost <$> info.*2) numbers.*2 in
    numbers.*1 = info.*1 ∧ deployments m' = reset_replicas numbers (deployments m1) ∧ m_cost m' = Fin total ∧
    (λ e : string * DeploymentStates, (e.1, replicas e.2)) <$> deployments m' = [("ns/a10"%string, 210)].
Proof.
  destruct (optimize_meets_load id (λ _, Ret []) None demo_groups 7 [4; 8]%Q [16; 32]%Q (demo_monitor None))
    as (_ & _ & _ & H); [reflexivity|discriminate|discriminate|by repeat constructor|apply demo_optimizer_ready|discriminate| |].
  { constructor; [|constructor]. refine (bool_decide_unpack _ _). vm_compute. exact I. }
  destruct (lp_solve _) eqn:E in H; [|vm_compute in E; discriminate E].
  destruct H as (numbers & x & Hkeys & _ & _ & Hd & Hc). exists numbers. split; [exact Hkeys|]. split; [exact Hd|]. split; [exact Hc|].
  vm_compute. reflexivity.
Defined.

(** The same profile, measured later. *)
Definition demo_newer : GPUProfile := mkProfile "a10" 1 (tputs demo_profile) (indexes demo_profile) 9.

Lemma abbreviated_update_lost_witness :
  ∃ m1 m2, load_profiles id (λ _, Ret [demo_newer]) None (demo_monitor None) = (Ret false, m1) ∧
    load_profiles id (λ _, Ret [demo_newer]) None m1 = (Ret true, m2) ∧
    optimizer m2 = optimizer (demo_monitor None) ∧ deployments m2 = deployments (demo_monitor None) ∧
    m_cost m2 = m_cost (demo_monitor None).
Proof.
  apply (abbreviated_update_lost id (λ _, Ret [demo_newer]) tt demo_newer "ns/a10" 0
           (mkProfile "ns/a10" (1 / 100) (tputs demo_profile) (indexes demo_profile) 0)); [|reflexivity..|discriminate|vm_compute; lia].
  split_and!; [reflexivity|reflexivity|reflexivity|reflexivity|discriminate| |];
    refine (bool_decide_unpack _ _); vm_compute; exact I.
Defined.
