(* ===== verification/GpuApp.v ===== *)
(** * The GPU optimizer's service

    Models [python/aibrix/aibrix/gpu_optimizer/app.py]: the registry of model
    monitors, the handlers of the HTTP requests and the rounds of the thread that
    watches the deployments. The Kubernetes client is a parameter: a handler gets
    what the read of a deployment returned or raised, a round gets the list of
    deployments and the events of its watch. The profile reader of a model is named
    by the model. [validate_model] and the later calls on the monitor it returns
    are one step: nothing else runs in between. The metrics text and the log lines
    are left out. *)

From S2P Require Import Prelude Digits Num Optimizer LoadReader ModelMonitor.

Open Scope Z_scope.
Open Scope py_scope.

(** ** Deployments as Kubernetes reports them *)

Record deployment := mkK8s {
  k_name : string;
  k_namespace : string;
  k_labels : option (list (string * string));
  k_replicas : option Z
}.

Definition MODEL_LABEL : string := "model.aibrix.ai/name".
Definition MIN_REPLICAS_LABEL : string := "model.aibrix.ai/min_replicas".

(** The monitors, and the models whose monitor was told to stop. *)
Record registry := mkRegistry {
  model_monitors : list (string * ModelMonitor string);
  stopped : list string
}.

(** ** Validation *)

Definition validate_model (d : deployment) : M registry (string * option (ModelMonitor string)) :=
  match k_labels d with
  | None | Some [] => raise Exception_
  | Some labels =>
    match assoc MODEL_LABEL labels with
    | None | Some EmptyString => raise Exception_
    | Some model_name =>
      let* g := get in
      ret (model_name, assoc model_name (model_monitors g))
    end
  end.

Definition new_deployment (d : deployment) : outcome DeploymentStates :=
  try* min_replicas :=
    match k_labels d with
    | None => Ret 0
    | Some labels =>
      match assoc MIN_REPLICAS_LABEL labels with
      | None | Some EmptyString => Ret 0
      | Some label => match py_int label with Some n => Ret n | None => Raise ValueError end
      end
    end in
  Ret (new_DeploymentStates (k_name d) (default 0 (k_replicas d)) min_replicas).

Section app.
Context (np_log2 : Q → Q) {LP : LpSolver} (gpu_fraction : Q) (debug : bool).
(** What the profile reader of a model returns now. *)
Context (answers : string → outcome (list GPUProfile)).

(** A call on the monitor of a model. *)
Definition on_model {A} (name : string) (m : ModelMonitor string) (c : M (ModelMonitor string) A) : M registry A := λ g,
  let '(o, m') := c m in (o, mkRegistry (assoc_set name m' (model_monitors g)) (stopped g)).

Definition start_serving_thread (watch_ver : option string) (d : deployment) : M registry bool :=
  let* '(model_name, monitor) := validate_model d in
  match monitor with
  | Some m =>
    on_model model_name m (add_deployment np_log2 watch_ver (k_name d) (Some (k_namespace d)) (new_deployment d)) ;;
    ret false
  | None =>
    let* states := lift (new_deployment d) in
    let '(o, m) := new_ModelMonitor np_log2 answers watch_ver (Some states) (Some (k_namespace d)) (Some model_name) debug
                     (empty_monitor gpu_fraction) in
    lift o ;;
    modify (λ g, mkRegistry (assoc_set model_name m (model_monitors g)) (stopped g)) ;;
    ret true
  end.

Definition update_deployment (watch_ver : option string) (d : deployment) : M registry unit :=
  let* '(model_name, monitor) := validate_model d in
  match monitor with
  | None => ret tt
  | Some m =>
    on_model model_name m (add_deployment np_log2 watch_ver (k_name d) (Some (k_namespace d)) (new_deployment d)) ;;
    ret tt
  end.

(** [model_monitor.stop()] and [del model_monitors[model_name]] *)
Definition stop_model (model_name : string) : M registry unit :=
  modify (λ g, mkRegistry (assoc_del model_name (model_monitors g)) (stopped g ++ [model_name])).

Definition remove_k8s_deployment (d : deployment) : M registry unit :=
  let* '(model_name, monitor) := validate_model d in
  match monitor with
  | None => ret tt
  | Some m =>
    let* remaining := on_model model_name m (remove_deployment (k_name d) (Some (k_namespace d))) in
    if remaining =? 0 then stop_model model_name else ret tt
  end.

(** ** Requests *)

(** The status of a response; [read] is the outcome of [read_namespaced_deployment]. *)
Definition start_deployment_optimization (read : outcome deployment) : M registry Z :=
  catch (let* d := lift read in start_serving_thread None d ;; ret 200) (λ _, ret 500).

Definition stop_deployment_optimization (read : outcome deployment) : M registry Z :=
  catch (let* d := lift read in remove_k8s_deployment d ;; ret 200) (λ _, ret 500).

Definition update_profile_request (model_name : string) : M registry Z :=
  let* g := get in
  match assoc model_name (model_monitors g) with
  | None => ret 404
  | Some m =>
    let* ok := on_model model_name m (load_profiles np_log2 answers None) in
    ret (if ok : bool then 200 else 500)
  end.

(** [int(data.get('replicas', -1))]: only a [ValueError] is caught. *)
Definition parse_replicas (data : list (string * jv)) : outcome Z :=
  match int_of (dict_get data "replicas" (JInt No_Overriden)) with
  | Ret n => Ret (if n <? No_Overriden then No_Overriden else n)
  | Raise ValueError => Ret No_Overriden
  | Raise e => Raise e
  | OutOfFuel => OutOfFuel
  end.

Definition scale_deployment (name namespace : string) (data : list (string * jv)) (read : outcome deployment) :
    M registry Z :=
  let* n := lift (parse_replicas data) in
  catch
    (let* d := lift read in
     let* '(model_name, monitor) := validate_model d in
     match monitor with
     | None => raise Exception_
     | Some m => on_model model_name m (update_deployment_num_replicas name (Some namespace) n true) ;; ret 200
     end)
    (λ _, ret 500).

(** The status and the number of replicas reported. *)
Definition get_deployment_metrics (name namespace : string) (read : outcome deployment) : M registry (Z * option Z) :=
  catch
    (let* d := lift read in
     let* '(model_name, monitor) := validate_model d in
     match monitor with
     | None => raise Exception_
     | Some m => let* n := lift (read_deployment_num_replicas name (Some namespace) m) in ret (200, Some n)
     end)
    (λ _, ret (404, None)).

(** ** The watch *)

(** [for model_name, model_monitor in model_monitors.items(): mark] *)
Fixpoint mark_all (names : list string) : M registry unit :=
  match names with
  | [] => ret tt
  | name :: rest =>
    let* g := get in
    (match assoc name (model_monitors g) with
     | Some m => on_model name m mark_deployments_outdated
     | None => ret tt
     end) ;;
    mark_all rest
  end.

(** The loop that clears: an exception of a monitor is not caught, and after a
    monitor is deleted the next step of the iteration raises. *)
Fixpoint clear_all (names : list string) : M registry unit :=
  match names with
  | [] => ret tt
  | name :: rest =>
    let* g := get in
    match assoc name (model_monitors g) with
    | None => clear_all rest
    | Some m =>
      let* remaining := on_model name m clear_outdated_deployments in
      if remaining =? 0 then stop_model name ;; raise RuntimeError else clear_all rest
    end
  end.

Inductive event := ADDED (d : deployment) | DELETED (d : deployment) | MODIFIED (d : deployment).

Definition handle_event (watch_version : option string) (e : event) : M registry unit :=
  catch
    (match e with
     | ADDED d => start_serving_thread watch_version d ;; ret tt
     | DELETED d => remove_k8s_deployment d
     | MODIFIED d => update_deployment watch_version d
     end)
    (λ _, ret tt).

(** The first half of a round: the deployments that exist. [listing] is what the
    API returned: a version and the deployments. *)
Definition examine_existing (listing : option string * list deployment) : M registry unit :=
  for_each listing.2 (λ d, catch (start_serving_thread listing.1 d ;; ret tt) (λ _, ret tt)).

(** A round of [main]: the clearing stands outside of every [try]. *)
Definition main_round (listing : option string * list deployment) (events : list event) : M registry unit :=
  let* g := get in
  mark_all (model_monitors g).*1 ;;
  examine_existing listing ;;
  let* g := get in
  clear_all (model_monitors g).*1 ;;
  for_each events (handle_event listing.1).

End app.

(** ** Lemmas: adding a deployment *)

Lemma assoc_not_key {A} key (l : list (string * A)) : assoc key l = None → key ∉ l.*1.
Proof. intros H [v Hv]%assoc_Some. congruence. Qed.

Lemma assoc_upd_last {A} key (f : A → A) v l : assoc key l = None → assoc_upd key f (l ++ [(key, v)]) = l ++ [(key, f v)].
Proof.
  intros Hl. unfold assoc_upd. rewrite fmap_app. csimpl. rewrite String.eqb_refl. f_equal.
  induction l as [|[k w] l IH]; csimpl in *; [done|]. destruct (decide (k = key)); [done|].
  rewrite (proj2 (String.eqb_neq k key)) by done. f_equal. by apply IH.
Qed.

Section adding.
Context {R : Type} (np_log2 : Q → Q) {LP : LpSolver}.
Implicit Types m : ModelMonitor R.

Lemma add_new ver name ns d m :
  free m → assoc (entry_point name ns) (deployments m) = None →
  ∃ profile m', add_deployment np_log2 ver name ns (Ret d) m = (Ret true, m') ∧ free m' ∧
    deployments m' = deployments m ++ [(entry_point name ns, set_watch_ver ver (set_d_profile profile d))].
Proof.
  intros Hf Hk. unfold add_deployment. set (key := entry_point name ns) in *.
  destruct (add_prefix_ok np_log2 name ns m) as (profile & m1 & H1 & H2 & Hl & Hd & _). fold key in H1, H2.
  rewrite (bind_Ret _ _ _ _ _ H1), (bind_Ret _ _ _ _ _ H2), bind_lift.
  rewrite (bind_Ret _ _ _ _ _ (acquire_free m1 ltac:(unfold free in *; congruence))), bind_get.
  cbn [deployments set_locked]. rewrite Hd, Hk, bind_modify. set (m2 := set_deployments _ _).
  rewrite (finish_ok key profile ver _ d m2) by (done || apply assoc_set_eq). exists profile. eexists. split; [done|].
  split; [done|]. simpl. rewrite Hd, (assoc_set_new key d) by done. by rewrite !assoc_upd_last.
Qed.

Lemma add_unmodified ver name ns d old m :
  free m → assoc (entry_point name ns) (deployments m) = Some old → min_replicas old = min_replicas d →
  ∃ m', add_deployment np_log2 ver name ns (Ret d) m = (Ret false, m') ∧ free m' ∧ deployments m' = deployments m.
Proof.
  intros Hf Hk Hmin. unfold add_deployment. set (key := entry_point name ns) in *.
  destruct (add_prefix_ok np_log2 name ns m) as (profile & m1 & H1 & H2 & Hl & Hd & _). fold key in H1, H2.
  rewrite (bind_Ret _ _ _ _ _ H1), (bind_Ret _ _ _ _ _ H2), bind_lift.
  rewrite (bind_Ret _ _ _ _ _ (acquire_free m1 ltac:(unfold free in *; congruence))), bind_get.
  cbn [deployments set_locked]. rewrite Hd, Hk. unfold is_modified. rewrite (proj2 (Z.eqb_eq _ _) Hmin). cbn [negb].
  eexists. split; [done|]. done.
Qed.

(** The only deployment has no watch version. *)
Lemma clear_unversioned key x m :
  monitor_ok np_log2 0 m → deployments m = [(key, x)] → watch_ver x = None →
  clear_outdated_deployments m = (Raise RuntimeError, set_deployments [] m).
Proof.
  intros Hok Hd Hx. unfold clear_outdated_deployments. rewrite bind_get, Hd. unfold bind at 1. simpl. rewrite bind_get.
  destruct (ok_watch _ _ _ Hok) as [_ ->]. rewrite bool_decide_eq_true_2 by done. unfold bind, modify, raise.
  rewrite Hd. simpl. by rewrite String.eqb_refl.
Qed.

(** Without deployments, loading profiles leaves none. *)
Lemma load_no_deployments answers arg : keeps (λ m, deployments m = []) (load_profiles np_log2 answers arg).
Proof.
  assert (∀ f : ModelMonitor R → ModelMonitor R, (∀ m, deployments (f m) = deployments m) →
            keeps (λ m, deployments m = []) (modify f)) as Hmod by (intros f Hf; apply keeps_modify; intros m; by rewrite Hf).
  assert (keeps (λ m : ModelMonitor R, deployments m = []) acquire ∧ keeps (λ m : ModelMonitor R, deployments m = []) release)
    as [Ha Hr] by (split; intros m; unfold acquire, release; by destruct (locked m)).
  assert (∀ key f, keeps (λ m : ModelMonitor R, deployments m = []) (change_deployment key f)) as Hc.
  { intros key f m Hm. unfold change_deployment, deployment_at, bind, get, lift. by rewrite Hm. }
  assert (∀ p, keeps (λ m : ModelMonitor R, deployments m = []) (on_optimizer (set_profile np_log2 p))) as Ho.
  { intros p m Hm. unfold on_optimizer, zoom. by destruct (set_profile np_log2 p (optimizer m)). }
  unfold load_profiles, load_profile, update_profile, store_profile, apply_profile, deployment_at.
  repeat first [exact Ha | exact Hr | apply Hc | apply Ho | apply Hmod; done | keeps_step | by intros m Hm].
Qed.

Lemma new_monitor_ok answers ver d ns r debug q :
  (∀ x, answers x ≠ OutOfFuel) → d_profile d = None →
  ∃ profile m, new_ModelMonitor np_log2 answers ver (Some d) ns (Some r) debug (empty_monitor q) = (Ret tt, m) ∧
    free m ∧ monitor_ok np_log2 0 m ∧
    deployments m = [(entry_point (d_name d) ns, set_watch_ver ver (set_d_profile profile d))].
Proof.
  intros Ha Hd. unfold new_ModelMonitor. set (m0 := empty_monitor q).
  destruct (load_profiles_returns np_log2 answers (Some r) m0 Ha eq_refl) as (b & H1 & Hf1).
  pose proof (load_no_deployments answers (Some r) m0 eq_refl) as Hd1.
  assert (monitor_ok (R:=R) np_log2 0 m0) as Hok0 by apply (reachable_ok np_log2 q m0), rtc_refl.
  pose proof (load_profiles_keeps np_log2 0 answers (Some r) m0 Hok0) as Hok1.
  set (m1 := (load_profiles np_log2 answers (Some r) m0).2) in *. cbn iota.
  assert ((load_profiles np_log2 answers (Some r) ;; ret tt)%py m0 = (Ret tt, m1)) as H2
    by by rewrite (bind_Ret _ _ _ _ _ H1).
  rewrite (bind_Ret _ _ _ _ _ H2). destruct (add_new ver (d_name d) ns d m1 Hf1) as (profile & m2 & H3 & Hf2 & Hd2).
  { by rewrite Hd1. }
  exists profile, m2. rewrite (bind_Ret _ _ _ _ _ H3). split_and!; [done..| |by rewrite Hd2, Hd1].
  replace m2 with (add_deployment np_log2 ver (d_name d) ns (Ret d) m1).2 by by rewrite H3.
  apply add_deployment_keeps; [|done]. by intros d' [= <-].
Qed.

End adding.

(** ** Lemmas: requests *)

(** A deployment that names its model. *)
Definition names_model (d : deployment) (model : string) : Prop :=
  ∃ labels, k_labels d = Some labels ∧ assoc MODEL_LABEL labels = Some model ∧ model ≠ EmptyString.

Lemma validate_model_ok d model g :
  names_model d model → validate_model d g = (Ret (model, assoc model (model_monitors g)), g).
Proof.
  intros (labels & Hl & Ha & Hm). unfold validate_model. rewrite Hl. destruct labels as [|l ls]; [done|]. rewrite Ha.
  by destruct model.
Qed.

Lemma on_model_Ret {A} name m (c : M (ModelMonitor string) A) a m' g :
  c m = (Ret a, m') → on_model name m c g = (Ret a, mkRegistry (assoc_set name m' (model_monitors g)) (stopped g)).
Proof. intros Hc. unfold on_model. by rewrite Hc. Qed.

Lemma new_deployment_states d states :
  new_deployment d = Ret states → d_name states = k_name d ∧ d_replicas states = default 0 (k_replicas d) ∧
    d_profile states = None ∧ d_overriden states = No_Overriden.
Proof.
  unfold new_deployment. destruct (match k_labels d with Some _ => _ | None => _ end); [|done..]. by intros [= <-].
Qed.

Section service.
Context (np_log2 : Q → Q) {LP : LpSolver} (gpu_fraction : Q) (debug : bool).
Context (answers : string → outcome (list GPUProfile)) (Hanswers : ∀ r, answers r ≠ OutOfFuel).
Context (d : deployment) (model : string) (states : DeploymentStates).
Context (Hmodel : names_model d model) (Hstates : new_deployment d = Ret states).

Abbreviation key := (entry_point (k_name d) (Some (k_namespace d))).

(** Starting the first deployment of a model. *)
Lemma start_first ver g :
  assoc model (model_monitors g) = None →
  ∃ profile m, start_serving_thread np_log2 gpu_fraction debug answers ver d g =
      (Ret true, mkRegistry (model_monitors g ++ [(model, m)]) (stopped g)) ∧
    free m ∧ monitor_ok np_log2 0 m ∧ deployments m = [(key, set_watch_ver ver (set_d_profile profile states))].
Proof.
  intros Hg. destruct (new_deployment_states d states Hstates) as (Hn & _ & Hp & _).
  destruct (new_monitor_ok np_log2 answers ver states (Some (k_namespace d)) model debug gpu_fraction Hanswers Hp)
    as (profile & m & Hm & Hf & Hok & Hd). rewrite Hn in Hd. exists profile, m. split_and!; [|done..].
  unfold start_serving_thread. rewrite (bind_Ret _ _ _ _ _ (validate_model_ok d model g Hmodel)), Hg, Hstates, bind_lift, Hm.
  rewrite bind_lift, bind_modify. by rewrite assoc_set_new.
Qed.

Lemma read_key_of m x :
  assoc key (deployments m) = Some x →
  read_deployment_num_replicas (k_name d) (Some (k_namespace d)) (m : ModelMonitor string) = Ret (replicas x).
Proof. intros Hx. unfold read_deployment_num_replicas. by rewrite Hx. Qed.

Lemma metrics_ok g m x :
  assoc model (model_monitors g) = Some m → assoc key (deployments m) = Some x →
  get_deployment_metrics (k_name d) (k_namespace d) (Ret d) g = (Ret (200, Some (replicas x)), g).
Proof.
  intros Hm Hx. unfold get_deployment_metrics, catch. rewrite bind_lift.
  rewrite (bind_Ret _ _ _ _ _ (validate_model_ok d model g Hmodel)), Hm, (read_key_of m x Hx). done.
Qed.

Lemma scale_ok g m x n :
  assoc model (model_monitors g) = Some m → assoc key (deployments m) = Some x → 0 ≤ n →
  scale_deployment (k_name d) (k_namespace d) [("replicas"%string, JInt n)] (Ret d) g =
    (Ret 200, mkRegistry (assoc_set model (set_deployments (assoc_upd key (override_replicas n) (deployments m)) m)
                            (model_monitors g)) (stopped g)).
Proof.
  intros Hm Hx Hn. unfold scale_deployment.
  assert (parse_replicas [("replicas"%string, JInt n)] = Ret n) as ->.
  { unfold parse_replicas, dict_get. simpl. destruct (Z.ltb_spec n No_Overriden); [unfold No_Overriden in *; lia|done]. }
  rewrite bind_lift. unfold catch. rewrite bind_lift, (bind_Ret _ _ _ _ _ (validate_model_ok d model g Hmodel)), Hm.
  erewrite (bind_Ret (on_model _ _ _)); [done|]. apply on_model_Ret. unfold update_deployment_num_replicas.
  rewrite bind_get, Hx. destruct (Z.eqb_spec n No_Overriden); [unfold No_Overriden in *; lia|]. by apply (change_ok _ x).
Qed.

(** From a request to start to the number of replicas reported. Starting the
    optimization of a deployment of a model that is not monitored yet answers 200,
    after which its metrics report the replicas Kubernetes gave; after scaling it
    to any number they report that number, whatever the profiles are. *)
Theorem start_scale_metrics g n :
  assoc model (model_monitors g) = None → 0 ≤ n →
  ∃ g1 g2, start_deployment_optimization np_log2 gpu_fraction debug answers (Ret d) g = (Ret 200, g1) ∧
    get_deployment_metrics (k_name d) (k_namespace d) (Ret d) g1 = (Ret (200, Some (default 0 (k_replicas d))), g1) ∧
    scale_deployment (k_name d) (k_namespace d) [("replicas"%string, JInt n)] (Ret d) g1 = (Ret 200, g2) ∧
    get_deployment_metrics (k_name d) (k_namespace d) (Ret d) g2 = (Ret (200, Some n), g2).
Proof.
  intros Hg Hn. destruct (start_first None g Hg) as (profile & m & H1 & Hf & Hok & Hd).
  destruct (new_deployment_states d states Hstates) as (_ & Hr & _ & Ho). set (x := set_watch_ver _ _) in Hd.
  assert (assoc key (deployments m) = Some x) as Hx by (rewrite Hd; simpl; by rewrite decide_True).
  set (g1 := mkRegistry _ _) in H1. assert (assoc model (model_monitors g1) = Some m) as Hm
    by (unfold g1; simpl; rewrite <-(assoc_set_new model m) by done; apply assoc_set_eq).
  exists g1. eexists. split_and!.
  - unfold start_deployment_optimization, catch. by rewrite bind_lift, (bind_Ret _ _ _ _ _ H1).
  - rewrite (metrics_ok g1 m x Hm Hx). unfold replicas, overriden, x. simpl. rewrite Ho. simpl. by rewrite Hr.
  - by apply (scale_ok g1 m x).
  - rewrite (metrics_ok _ (set_deployments (assoc_upd key (override_replicas n) (deployments m)) m) (override_replicas n x)).
    + unfold replicas, overriden. simpl. destruct (Z.eqb_spec n No_Overriden); [unfold No_Overriden in *; lia|done].
    + simpl. apply assoc_set_eq.
    + simpl. by apply assoc_upd_eq.
Qed.

(** A deployment started by a request ends the watch. At the next round of the
    watch, although the deployment is listed, it is dropped from its monitor, and
    an exception that nothing catches ends the thread before it handles any event. *)
Theorem manual_start_ends_watch g version events :
  model_monitors g = [] →
  ∃ g1 m, start_deployment_optimization np_log2 gpu_fraction debug answers (Ret d) g = (Ret 200, g1) ∧
    main_round np_log2 gpu_fraction debug answers (version, [d]) events g1 =
      (Raise RuntimeError, mkRegistry [(model, m)] (stopped g)) ∧ deployments m = [].
Proof.
  intros Hg. destruct (start_first None g) as (profile & m & H1 & Hf & Hok & Hd); [by rewrite Hg|].
  rewrite Hg in H1. simpl in H1. set (g1 := mkRegistry _ _) in H1. set (x := set_watch_ver _ _) in Hd.
  assert (assoc key (deployments m) = Some x) as Hx by (rewrite Hd; simpl; by rewrite decide_True).
  set (m1 := (mark_deployments_outdated m).2). assert (free m1) as Hf1 by done.
  assert (monitor_ok np_log2 0 m1) as Hok1 by (apply mark_keeps; done).
  destruct (add_unmodified np_log2 version (k_name d) (Some (k_namespace d)) states x m1 Hf1 Hx eq_refl)
    as (m2 & H2 & Hf2 & Hd2).
  assert (monitor_ok np_log2 0 m2) as Hok2.
  { replace m2 with (add_deployment np_log2 version (k_name d) (Some (k_namespace d)) (Ret states) m1).2 by by rewrite H2.
    apply add_deployment_keeps; [|done]. intros d' [= <-]. by destruct (new_deployment_states d states Hstates) as (_ & _ & ? & _). }
  set (m3 := set_deployments [] m2). exists g1, m3. split_and!; [|
    |done].
  { unfold start_deployment_optimization, catch. by rewrite bind_lift, (bind_Ret _ _ _ _ _ H1). }
  unfold main_round. rewrite bind_get. unfold g1 at 1. csimpl.
  assert (mark_all [model] g1 = (Ret tt, mkRegistry [(model, m1)] (stopped g))) as Hmark
    by (simpl; rewrite bind_get; simpl; rewrite decide_True by done; simpl; unfold bind, on_model; simpl; by rewrite decide_True).
  rewrite (bind_Ret _ _ _ _ _ Hmark). set (g2 := mkRegistry [(model, m1)] (stopped g)).
  assert (examine_existing np_log2 gpu_fraction debug answers (version, [d]) g2 = (Ret tt, mkRegistry [(model, m2)] (stopped g))) as Hex.
  { unfold examine_existing. simpl. erewrite (bind_Ret (catch _ _)); [done|]. unfold catch, start_serving_thread.
    assert (assoc model (model_monitors g2) = Some m1) as Hm1 by (simpl; by rewrite decide_True).
    erewrite (bind_Ret _ _ g2); [done|]. rewrite (bind_Ret _ _ _ _ _ (validate_model_ok d model g2 Hmodel)), Hm1, Hstates.
    erewrite (bind_Ret (on_model _ _ _)); [done|]. rewrite (on_model_Ret _ _ _ _ _ _ H2). simpl. by rewrite decide_True. }
  rewrite (bind_Ret _ _ _ _ _ Hex), bind_get. csimpl.
  assert (clear_outdated_deployments m2 = (Raise RuntimeError, m3)) as Hclear
    by (apply (clear_unversioned np_log2 key x); [done|by rewrite Hd2|done]).
  unfold bind at 1. rewrite bind_get. simpl. rewrite decide_True by done. unfold bind, on_model. rewrite Hclear. simpl.
  by rewrite decide_True.
Qed.

End service.

(** ** A lock that is held for ever *)

Section held.
Context (np_log2 : Q → Q) {LP : LpSolver} (gpu_fraction : Q) (debug : bool) (answers : string → outcome (list GPUProfile)).
Context (model : string).

(** The monitor of the model waits for a lock nobody gives back. *)
Definition held (g : registry) : Prop := ∃ m, assoc model (model_monitors g) = Some m ∧ locked m = true.

Definition event_deployment (e : event) : deployment := match e with ADDED d | DELETED d | MODIFIED d => d end.

(** The event does not fail before it asks for the lock. *)
Definition readable (e : event) : Prop :=
  match e with ADDED d | MODIFIED d => ∃ states, new_deployment d = Ret states | DELETED _ => True end.

(** An event that is handled *)
Definition event_step (g g' : registry) : Prop :=
  ∃ version e, handle_event np_log2 gpu_fraction debug answers version e g = (Ret tt, g').

Lemma assoc_del_ne {A} key key' (l : list (string * A)) : key ≠ key' → assoc key (assoc_del key' l) = assoc key l.
Proof.
  intros Hne. induction l as [|[k v] l IH]; [done|]. simpl. destruct (String.eqb_spec k key') as [->|Hk]; simpl; [|by rewrite IH].
  by rewrite decide_False.
Qed.

Lemma validate_model_cases d g : (∃ e, validate_model d g = (Raise e, g)) ∨
  ∃ name, names_model d name ∧ validate_model d g = (Ret (name, assoc name (model_monitors g)), g).
Proof.
  unfold validate_model, names_model. destruct (k_labels d) as [[|l labels]|]; [by left; eexists| |by left; eexists].
  destruct (assoc MODEL_LABEL (l :: labels)) as [[|c name]|] eqn:E; [by left; eexists| |by left; eexists].
  right. exists (String c name). by split; [eexists|].
Qed.

Lemma on_model_held {A} name m (c : M (ModelMonitor string) A) g :
  held g → (name = model → locked (c m).2 = true) → held (on_model name m c g).2.
Proof.
  intros (m0 & Hm & Hl) Hc. unfold on_model. destruct (c m) as [o m'] eqn:E. destruct (decide (name = model)) as [->|Hne].
  - exists m'. split; [apply assoc_set_eq|by apply Hc].
  - exists m0. split; [|done]. simpl. rewrite assoc_set_ne; done.
Qed.

(** Adding to a held monitor waits, or raises before it does. *)
Lemma add_deployment_held ver name ns dp (m : ModelMonitor string) :
  locked m = true → locked (add_deployment np_log2 ver name ns dp m).2 = true.
Proof.
  intros Hl. unfold add_deployment. destruct (add_prefix_ok np_log2 name ns m) as (profile & m1 & H1 & H2 & Hl' & _).
  rewrite (bind_Ret _ _ _ _ _ H1), (bind_Ret _ _ _ _ _ H2). destruct dp as [d|e|]; [|unfold bind at 1; simpl; congruence..].
  rewrite bind_lift. unfold bind at 1. rewrite acquire_held by congruence. simpl. congruence.
Qed.

Lemma remove_deployment_held name ns (m : ModelMonitor string) : locked m = true → remove_deployment name ns m = (OutOfFuel, m).
Proof. intros Hl. unfold remove_deployment, bind at 1. by rewrite acquire_held. Qed.

Lemma catch_snd {S} (c : M S unit) s : (catch c (λ _, ret tt) s).2 = (c s).2.
Proof. unfold catch. by destruct (c s) as [[]]. Qed.

(** No event gives the lock back. *)
Lemma handle_event_held version e g : held g → held (handle_event np_log2 gpu_fraction debug answers version e g).2.
Proof.
  intros Hh. unfold handle_event. rewrite catch_snd.
  assert (∀ d m, assoc model (model_monitors g) = Some m → locked m = true → locked (add_deployment np_log2 version (k_name d) (Some (k_namespace d)) (new_deployment d) m).2 = true) as Hadd
    by (intros d m _; apply add_deployment_held).
  destruct Hh as (m0 & Hm0 & Hl0). assert (held g) as Hh by (by exists m0).
  destruct e as [d|d|d]; unfold start_serving_thread, update_deployment, remove_k8s_deployment;
    destruct (validate_model_cases d g) as [[e E]|(name & _ & E)].
  1, 3, 5: unfold bind; by rewrite E.
  - unfold bind at 1. rewrite (bind_Ret _ _ _ _ _ E). destruct (assoc name (model_monitors g)) as [m|] eqn:Em.
    + pose proof (on_model_held name m (add_deployment np_log2 version (k_name d) (Some (k_namespace d)) (new_deployment d)) g Hh) as Ho.
      unfold bind. revert Ho. destruct (on_model _ _ _ g) as [[b| |] g1]; intros Ho; apply Ho; intros ->; apply (Hadd d); congruence.
    + assert (model ≠ name) by congruence. unfold bind, lift. destruct (new_deployment d) as [states| |]; [|done..].
      destruct (new_ModelMonitor _ _ _ _ _ _ _ _) as [[u| |] m]; [|done..]. simpl. exists m0. split; [|done]. simpl. by rewrite assoc_set_ne.
  - rewrite (bind_Ret _ _ _ _ _ E). destruct (assoc name (model_monitors g)) as [m|] eqn:Em; [|done].
    pose proof (on_model_held name m (remove_deployment (k_name d) (Some (k_namespace d))) g Hh) as Ho. destruct (decide (name = model)) as [->|Hne].
    + assert (m = m0) as -> by congruence. unfold bind, on_model in *. rewrite remove_deployment_held in * by done. by apply Ho.
    + unfold bind. revert Ho. destruct (on_model _ _ _ g) as [[n| |] g1]; intros Ho; [|by apply Ho..]. destruct (Ho ltac:(done)) as (m1 & Hm1 & Hl1).
      destruct (n =? 0); [|by exists m1]. exists m1. split; [|done]. simpl. by rewrite assoc_del_ne.
  - rewrite (bind_Ret _ _ _ _ _ E). destruct (assoc name (model_monitors g)) as [m|] eqn:Em; [|done].
    pose proof (on_model_held name m (add_deployment np_log2 version (k_name d) (Some (k_namespace d)) (new_deployment d)) g Hh) as Ho.
    unfold bind. revert Ho. destruct (on_model _ _ _ g) as [[b| |] g1]; intros Ho; apply Ho; intros ->; apply (Hadd d); congruence.
Qed.

Lemma event_waits version e g : held g → names_model (event_deployment e) model → readable e →
  (handle_event np_log2 gpu_fraction debug answers version e g).1 = OutOfFuel.
Proof.
  intros (m & Hm & Hl) Hn Hr. pose proof (validate_model_ok _ model g Hn) as Hv. unfold handle_event, catch.
  destruct e as [d|d|d]; simpl in *; unfold start_serving_thread, update_deployment, remove_k8s_deployment.
  2: { rewrite (bind_Ret _ _ _ _ _ Hv), Hm. unfold bind, on_model. by rewrite remove_deployment_held. }
  all: destruct Hr as [states Hs]; pose proof (add_held np_log2 version (k_name d) (Some (k_namespace d)) states m Hl) as Ha.
  - unfold bind at 1. rewrite (bind_Ret _ _ _ _ _ Hv), Hm, Hs. unfold bind, on_model.
    by destruct (add_deployment _ _ _ _ _ m) as [o ?]; simpl in Ha; subst o.
  - rewrite (bind_Ret _ _ _ _ _ Hv), Hm, Hs. unfold bind, on_model.
    by destruct (add_deployment _ _ _ _ _ m) as [o ?]; simpl in Ha; subst o.
Qed.

(** C31: a request to stop a deployment that its model's monitor does not know blocks
    the watch. The request answers 500 and leaves the lock of the monitor held. However many
    events are handled after that, none gives the lock back, and an event about any
    deployment of that model never returns, so that the thread handles no further event: a deletion, or a deployment
    that is added or modified and whose labels can be read. *)
Theorem stop_unknown_blocks_watch d g m :
  names_model d model → assoc model (model_monitors g) = Some m → free m → entry_point (k_name d) (Some (k_namespace d)) ∉ (deployments m).*1 →
  ∃ g', stop_deployment_optimization (Ret d) g = (Ret 500, g') ∧
    ∀ g'', rtc event_step g' g'' → held g'' ∧
      ∀ version e, names_model (event_deployment e) model → readable e →
        (handle_event np_log2 gpu_fraction debug answers version e g'').1 = OutOfFuel.
Proof.
  intros Hd Hm Hf Hk. set (m' := (remove_deployment (k_name d) (Some (k_namespace d)) m).2).
  destruct (remove_unknown_held (k_name d) (Some (k_namespace d)) m Hf Hk) as [Hr Hl]. fold m' in Hr, Hl.
  exists (mkRegistry (assoc_set model m' (model_monitors g)) (stopped g)). split.
  - unfold stop_deployment_optimization, catch. rewrite bind_lift. unfold bind at 1, remove_k8s_deployment.
    rewrite (bind_Ret _ _ _ _ _ (validate_model_ok d model g Hd)), Hm. unfold bind, on_model. by rewrite Hr.
  - intros g'' Hrun. assert (held g'') as Hh; [|split; [done|intros version e; by apply event_waits]].
    assert (held (mkRegistry (assoc_set model m' (model_monitors g)) (stopped g))) as H0 by (exists m'; split; [apply assoc_set_eq|done]).
    induction Hrun as [|g0 g1 g2 (version & e & E) _ IH]; [done|]. apply IH. pose proof (handle_event_held version e g0 H0) as Hs. by rewrite E in Hs.
Qed.

End held.


(** ** Witnesses *)

Definition demo_k8s : deployment :=
  mkK8s "a10" "ns" (Some [("model.aibrix.ai/name"%string, "llama"%string); ("model.aibrix.ai/min_replicas"%string, "2"%string)]) (Some 3).

Definition demo_states : DeploymentStates := new_DeploymentStates "a10" 3 2.

Lemma demo_names_model : names_model demo_k8s "llama".
Proof. by eexists. Qed.

Lemma start_scale_metrics_witness :
  ∃ g1 g2, start_deployment_optimization id 100 false (λ _, Ret [demo_profile]) (Ret demo_k8s) (mkRegistry [] []) = (Ret 200, g1) ∧
    get_deployment_metrics "a10" "ns" (Ret demo_k8s) g1 = (Ret (200, Some 3), g1) ∧
    scale_deployment "a10" "ns" [("replicas"%string, JInt 8)] (Ret demo_k8s) g1 = (Ret 200, g2) ∧
    get_deployment_metrics "a10" "ns" (Ret demo_k8s) g2 = (Ret (200, Some 8), g2).
Proof.
  apply (start_scale_metrics id 100 false (λ _, Ret [demo_profile]) ltac:(discriminate) demo_k8s "llama" demo_states
           demo_names_model eq_refl (mkRegistry [] []) 8); [reflexivity|lia].
Defined.

Lemma manual_start_ends_watch_witness :
  ∃ g1 m, start_deployment_optimization id 100 false (λ _, Ret [demo_profile]) (Ret demo_k8s) (mkRegistry [] []) = (Ret 200, g1) ∧
    main_round id 100 false (λ _, Ret [demo_profile]) (Some "7"%string, [demo_k8s]) [MODIFIED demo_k8s] g1 =
      (Raise RuntimeError, mkRegistry [("llama"%string, m)] []) ∧ deployments m = [].
Proof.
  apply (manual_start_ends_watch id 100 false (λ _, Ret [demo_profile]) ltac:(discriminate) demo_k8s "llama" demo_states
           demo_names_model eq_refl (mkRegistry [] [])). reflexivity.
Defined.

Lemma stop_unknown_blocks_watch_witness :
  ∃ g', stop_deployment_optimization (Ret demo_k8s) (mkRegistry [("llama"%string, empty_monitor 100)] []) = (Ret 500, g') ∧
    held "llama" g' ∧
    ∀ e, e = ADDED demo_k8s ∨ e = DELETED demo_k8s ∨ e = MODIFIED demo_k8s →
      (handle_event id 100 false (λ _, Ret []) None e g').1 = OutOfFuel.
Proof.
  destruct (stop_unknown_blocks_watch id 100 false (λ _, Ret []) "llama" demo_k8s
           (mkRegistry [("llama"%string, empty_monitor 100)] []) (empty_monitor 100)) as (g' & E & H);
    [exact demo_names_model|reflexivity|reflexivity|apply not_elem_of_nil|].
  exists g'. split; [exact E|]. destruct (H g' (rtc_refl _ _)) as [Hh He]. split; [exact Hh|].
  intros e [->|[->| ->]]; (apply He; [exact demo_names_model|]); [by exists demo_states|exact I|by exists demo_states].
Defined.
