(* ===== verification/Downloader.v ===== *)
(** * The model downloader

    Models [python/aibrix/aibrix/downloader/] (base.py, entity.py, utils.py, s3.py,
    tos.py, huggingface.py) and the model manager of
    [python/aibrix/aibrix/openapi/model.py].

    The object store is a class [S3Client] with the documented behaviour of the
    calls as laws; the Hugging Face hub is a parameter. A path is a [Path] of
    pathlib: whether it is absolute, and its parts. Relative paths are kept as they
    are, since the working directory does not change; [absolute()] then names the
    same file. A failed transfer leaves the local file alone. Progress bars,
    thread counts and transfer sizes have no effect on what is stored and are left
    out. *)

From Stdlib Require Import Ascii.
From S2P Require Import Prelude.

Open Scope Z_scope.
Open Scope py_scope.

(** ** Strings and paths *)

(** [s.split(c)] *)
Fixpoint split_on (c : ascii) (s : string) : list string :=
  match s with
  | EmptyString => [EmptyString]
  | String a s' =>
    if Ascii.eqb a c then EmptyString :: split_on c s'
    else match split_on c s' with
         | x :: xs => String a x :: xs
         | [] => [String a EmptyString]
         end
  end.

(** [s.lstrip(c)] *)
Fixpoint lstrip (c : ascii) (s : string) : string :=
  match s with
  | String a s' => if Ascii.eqb a c then lstrip c s' else s
  | EmptyString => EmptyString
  end.

Definition str_rev (s : string) : string :=
  String.string_of_list_ascii (reverse (String.list_ascii_of_string s)).

Definition strip (c : ascii) (s : string) : string := lstrip c (str_rev (lstrip c (str_rev s))).

Definition ends_with (s suffix : string) : bool :=
  bool_decide (String.list_ascii_of_string suffix `suffix_of` String.list_ascii_of_string s).

(** The last component after a slash: [s.split('/')[-1]] *)
Definition base_name (s : string) : string := default EmptyString (last (split_on slash s)).

Abbreviation path := (bool * list string)%type.

Definition path_parts (s : string) : list string :=
  List.filter (λ p, negb (String.eqb p EmptyString || String.eqb p ".")) (split_on slash s).

Definition to_path (s : string) : path := (String.prefix "/" s, path_parts s).

Definition joinpath (p : path) (s : string) : path :=
  if String.prefix "/" s then to_path s else (p.1, p.2 ++ path_parts s).

(** ** Sources and states *)

Inductive RemoteSource := Src_S3 | Src_TOS | HUGGINGFACE | SRC_UNKNOWN.

Definition source_value (s : RemoteSource) : string :=
  match s with Src_S3 => "s3" | Src_TOS => "tos" | HUGGINGFACE => "huggingface" | SRC_UNKNOWN => "unknown" end.

Inductive FileDownloadStatus := F_DOWNLOADING | F_DOWNLOADED | F_NO_OPERATION | F_UNKNOWN.

Inductive ModelDownloadStatus := NOT_EXIST | DOWNLOADING | DOWNLOADED | NO_OPERATION | UNKNOWN.

#[export] Instance file_status_eq_dec : EqDecision FileDownloadStatus.
Proof. solve_decision. Defined.

#[export] Instance model_status_eq_dec : EqDecision ModelDownloadStatus.
Proof. solve_decision. Defined.

(** The lock of another process: held, or a lock file that cannot be opened. *)
Inductive lock_state := Held | Broken.

(** The local disk, the locks of other processes, and the objects fetched so far. *)
Record local := mkLocal {
  files : gmap path string;
  dirs : gset path;
  locks : gmap path lock_state;
  transfers : list string
}.

Definition write_file (p : path) (text : string) (l : local) : local :=
  mkLocal (<[p := text]> (files l)) (dirs l) (locks l) (transfers l).

(** [Path.mkdir(parents=True, exist_ok=True)] *)
Definition with_parents (p : path) : gset path :=
  list_to_set ((λ n, (p.1, take n p.2)) <$> seq 0 (S (length p.2))).

Definition mkdir (p : path) (l : local) : local :=
  mkLocal (files l) (with_parents p ∪ dirs l) (locks l) (transfers l).

Definition parent (p : path) : path := (p.1, take (length p.2 - 1) p.2).

Definition file_exists (p : path) (l : local) : bool :=
  bool_decide (is_Some (files l !! p)) || bool_decide (p ∈ dirs l).

(** ** utils.py *)

(** [DOWNLOAD_CACHE_DIR % source] *)
Definition cache_dir_of (source : string) : string := ".cache/" +:+ source +:+ "/download".

Definition meta_file (local_path : path) (file_name source : string) : path :=
  joinpath (joinpath local_path (cache_dir_of source)) (file_name +:+ ".metadata").

Definition save_meta_data (p : path) (etag : string) (l : local) : local :=
  write_file p etag (mkdir (parent p) l).

Definition load_meta_data (p : path) (l : local) : option string := files l !! p.

Definition check_file_exist (local_file meta : path) (expected_size : Z) (expected_etag : string) (l : local) : bool :=
  if expected_size <=? 0 then false
  else if String.eqb expected_etag EmptyString then false
  else
    match files l !! local_file with
    | None => false
    | Some content =>
      if negb (Z.of_nat (String.length content) =? expected_size) then false
      else match load_meta_data meta l with
           | None => false
           | Some etag => String.eqb etag expected_etag
           end
    end.

(** The environment: [DOWNLOADER_FORCE_DOWNLOAD], [DOWNLOADER_CHECK_FILE_EXIST],
    [DOWNLOADER_ALLOW_FILE_SUFFIX], [DOWNLOADER_LOCAL_DIR] and the version of the
    TOS client. *)
Record env := mkEnv {
  FORCE_DOWNLOAD : bool;
  CHECK_FILE_EXIST : bool;
  ALLOW_FILE_SUFFIX : option (list string);
  LOCAL_DIR : string;
  ACCESS_KEYS : option string * option string
}.

Definition need_to_download (e : env) (local_file meta : path) (size : Z) (etag : string) (l : local) : bool :=
  if negb (FORCE_DOWNLOAD e) && CHECK_FILE_EXIST e
  then negb (check_file_exist local_file meta size etag l)
  else true.

(** [uri.strip().strip('/').split('/')[-1]], for a text without white space *)
Definition infer_model_name (uri : string) : outcome string :=
  if String.eqb uri EmptyString then Raise ValueError else Ret (base_name (strip slash uri)).

(** ** entity.py *)

Record DownloadFile := mkDownloadFile { file_path : path; lock_path : path; metadata_path : path }.

Definition get_local_download_paths (model_base_dir : path) (filename : string) (source : RemoteSource) : DownloadFile :=
  let cache_dir := joinpath model_base_dir (strip slash (cache_dir_of (source_value source))) in
  mkDownloadFile (joinpath model_base_dir filename) (joinpath cache_dir (filename +:+ ".lock"))
    (joinpath cache_dir (filename +:+ ".metadata")).

(** [DownloadFile.status]; the lock it takes to look is given up at once. *)
Definition file_status (f : DownloadFile) (l : local) : FileDownloadStatus :=
  if file_exists (file_path f) l && file_exists (metadata_path f) l then F_DOWNLOADED
  else match locks l !! lock_path f with
       | Some Held => F_DOWNLOADING
       | Some Broken => F_UNKNOWN
       | None => F_NO_OPERATION
       end.

(** The entry of [download_lock]: waits for the lock; the lock file stays. *)
Definition download_lock (f : DownloadFile) : M local unit := λ l,
  match locks l !! lock_path f with
  | Some Held => (OutOfFuel, l)
  | Some Broken => (Raise OSError, l)
  | None => (Ret tt, write_file (lock_path f) EmptyString (mkdir (parent (lock_path f)) l))
  end.

Record DownloadModel := mkModel {
  model_source : RemoteSource;
  dm_local_path : path;
  dm_model_name : string;
  download_files : list DownloadFile
}.

Definition model_status (m : DownloadModel) (l : local) : ModelDownloadStatus :=
  let all_status := (λ f, file_status f l) <$> download_files m in
  if forallb (λ s, bool_decide (s = F_DOWNLOADED)) all_status then DOWNLOADED
  else if existsb (λ s, bool_decide (s = F_DOWNLOADING)) all_status then DOWNLOADING
  else if forallb (λ s, bool_decide (s = F_DOWNLOADED) || bool_decide (s = F_NO_OPERATION)) all_status then NO_OPERATION
  else UNKNOWN.

(** [cache_dir.glob('*.lock')]: the names of the files directly in a directory. *)
Definition glob_lock (dir : path) (l : local) : list string :=
  omap (λ e : path * string,
          match reverse e.1.2 with
          | name :: up => if bool_decide ((e.1.1, reverse up) = dir) && ends_with name ".lock" then Some name else None
          | [] => None
          end) (map_to_list (files l)).

(** [lock_name[: -len('.lock')]] *)
Definition drop_lock_suffix (name : string) : string :=
  String.substring 0 (String.length name - 5) name.

Definition infer_from_model_path (local_path : path) (model_name : string) (source : RemoteSource) (l : local) :
    option DownloadModel :=
  let model_base_dir := joinpath local_path model_name in
  if negb (file_exists model_base_dir l) then None
  else
    let cache_dir := joinpath model_base_dir (strip slash (cache_dir_of (source_value source))) in
    Some (mkModel source local_path model_name
            ((λ n, get_local_download_paths model_base_dir (drop_lock_suffix n) source) <$> glob_lock cache_dir l)).

(** ** The object store *)

Record object := mkObject { o_etag : string; o_content : string }.

(** [B] is a bucket at one moment: the reply of each call, or what it raises. The reply to a listing
    is a page: the keys of [Contents] and [IsTruncated]. *)
Class S3Client (B : Type) := {
  objects : B → gmap string object;
  head_bucket : B → option exn;
  head_object : string → B → exn + string * Z;
  list_objects_v2 : string → B → exn + list string * bool;
  get_file : string → B → exn + string
}.

(** Whether a listing with prefix [p] and the delimiter shows a key: the rest of the
    key has no slash. *)
Definition rest_of (p k : string) : string :=
  String.substring (String.length p) (String.length k - String.length p) k.

Definition listed (p k : string) : bool :=
  String.prefix p k && no_slash (rest_of p k).

(** The documented behaviour: a page shows objects directly below the prefix, at most a thousand and
    maybe fewer, since common prefixes count too; it shows all of them unless it says that it is truncated. *)
Class S3Laws (B : Type) `{!S3Client B} : Prop := {
  head_law k b : match objects b !! k with
                 | Some o => head_object k b = inr (o_etag o, Z.of_nat (String.length (o_content o)))
                 | None => ∃ e, head_object k b = inl e
                 end;
  get_law k b : match objects b !! k with
                | Some o => get_file k b = inr (o_content o)
                | None => ∃ e, get_file k b = inl e
                end;
  list_law p b : ∃ ks truncated, list_objects_v2 p b = inr (ks, truncated) ∧ NoDup ks ∧ (length ks ≤ 1000)%nat ∧
                   (∀ k, k ∈ ks → is_Some (objects b !! k) ∧ listed p k = true) ∧
                   (truncated = false → ∀ k, is_Some (objects b !! k) → listed p k = true → k ∈ ks)
}.

(** ** base.py and s3.py *)

(** What a downloader was configured with. *)
Record DownloadExtraConfig := mkConfig {
  ak : option string;
  sk : option string;
  allow_file_suffix : option (list string);
  force_download : option bool
}.

Inductive kind := S3Downloader | TOSDownloader | HuggingFaceDownloader.

Record BaseDownloader := mkDownloader {
  d_kind : kind;
  model_uri : string;
  model_name : string;
  bucket_name : string;
  bucket_path : string;
  suffixes : option (list string);
  force : bool
}.

(** The class attribute [_source]: the one of Hugging Face is not set. *)
Definition source (d : BaseDownloader) : RemoteSource :=
  match d_kind d with S3Downloader => Src_S3 | TOSDownloader => Src_TOS | HuggingFaceDownloader => SRC_UNKNOWN end.

(** [urlparse(uri, scheme)] after the scheme: up to the first of [/?#], and the path. *)
Fixpoint take_netloc (s : string) : string * string :=
  match s with
  | EmptyString => (EmptyString, EmptyString)
  | String c s' =>
    if existsb (Ascii.eqb c) ["/"%char; "?"%char; "#"%char] then (EmptyString, s)
    else let '(n, rest) := take_netloc s' in (String c n, rest)
  end.

Fixpoint take_url_path (s : string) : string :=
  match s with
  | EmptyString => EmptyString
  | String c s' => if existsb (Ascii.eqb c) ["?"%char; "#"%char] then EmptyString else String c (take_url_path s')
  end.

Definition parse_bucket_info_from_uri (scheme uri : string) : string * string :=
  let rest := String.substring (String.length scheme + 3) (String.length uri) uri in
  let '(netloc, p) := take_netloc rest in
  (netloc, lstrip slash (take_url_path p)).

Section downloader.
Context {B : Type} `{!S3Client B} (e : env).

(** [x or y] of optional values: an empty text or list counts as missing. *)
Definition or_str (x y : option string) : option string :=
  match x with Some (String _ _) => x | _ => y end.

Definition or_list (x y : option (list string)) : option (list string) :=
  match x with Some (_ :: _) => x | _ => y end.

(** [_get_auth_config]: only the one of S3 checks the keys. *)
Definition get_auth_config (k : kind) (c : DownloadExtraConfig) : outcome unit :=
  match k with
  | S3Downloader =>
    match or_str (ak c) (ACCESS_KEYS e).1, or_str (sk c) (ACCESS_KEYS e).2 with
    | Some (String _ _), Some (String _ _) => Ret tt
    | _, _ => Raise InvalidArgumentError
    end
  | _ => Ret tt
  end.

(** [_valid_config] of a bucket. *)
Definition valid_config (name bucket_name bucket_path : string) (b : B) : outcome unit :=
  if String.eqb name EmptyString then Raise InvalidArgumentError
  else if String.eqb bucket_name EmptyString then Raise InvalidArgumentError
  else if String.eqb bucket_path EmptyString then Raise InvalidArgumentError
  else match head_bucket b with Some _ => Raise ModelNotFoundError | None => Ret tt end.

Definition new_S3BaseDownloader (k : kind) (scheme uri : string) (name : option string) (c : DownloadExtraConfig) (b : B) :
    outcome BaseDownloader :=
  try* name := match name with Some n => Ret n | None => infer_model_name uri end in
  try* _ := get_auth_config k c in
  let '(bname, bpath) := parse_bucket_info_from_uri scheme uri in
  try* _ := valid_config name bname bpath b in
  Ret (mkDownloader k uri name bname bpath (or_list (allow_file_suffix c) (ALLOW_FILE_SUFFIX e))
         (match force_download c with Some true => true | _ => FORCE_DOWNLOAD e end)).

Definition new_HuggingFaceDownloader (repo_exists : bool) (uri : string) (name : option string) (c : DownloadExtraConfig) :
    outcome BaseDownloader :=
  let name := default uri name in
  if negb (length (split_on slash uri) =? 2)%nat then Raise InvalidArgumentError
  else if negb repo_exists then Raise ModelNotFoundError
  else Ret (mkDownloader HuggingFaceDownloader uri name EmptyString uri (or_list (allow_file_suffix c) (ALLOW_FILE_SUFFIX e))
              (match force_download c with Some true => true | _ => FORCE_DOWNLOAD e end)).

Definition get_downloader (repo_exists : bool) (uri : string) (name : option string) (c : DownloadExtraConfig) (b : B) :
    outcome BaseDownloader :=
  if String.prefix "s3://" uri then new_S3BaseDownloader S3Downloader "s3" uri name c b
  else if String.prefix "tos://" uri then new_S3BaseDownloader TOSDownloader "tos" uri name c b
  else new_HuggingFaceDownloader repo_exists uri name c.

(** [_is_directory] *)
Definition is_directory (d : BaseDownloader) (b : B) : outcome bool :=
  match d_kind d with
  | HuggingFaceDownloader => Ret true
  | _ =>
    if ends_with (bucket_path d) "/" then Ret true
    else
      match list_objects_v2 (bucket_path d) b with
      | inl ex => Raise ex
      | inr ([k], _) => Ret (negb (String.eqb k (bucket_path d)))
      | inr _ => Ret true
      end
  end.

(** [_directory_list]: one page; whether it is truncated is not looked at. *)
Definition directory_list (p : string) (b : B) : outcome (list string) :=
  match list_objects_v2 p b with inl ex => Raise ex | inr (ks, _) => Ret ks end.

(** [S3BaseDownloader.download]; the one of TOS does the same with its own client. *)
Definition download (d : BaseDownloader) (local_path : path) (key : string) (b : B) : M local unit :=
  match head_object key b with
  | inl _ => raise ValueError
  | inr (etag, size) =>
    let file_name := base_name key in
    let local_file := joinpath local_path file_name in
    let meta := meta_file local_path file_name (source_value (source d)) in
    let* l := get in
    if negb (need_to_download e local_file meta size etag l) then ret tt
    else
      download_lock (get_local_download_paths local_path file_name (source d)) ;;
      match get_file key b with
      | inl ex => raise ex
      | inr content =>
        modify (λ l, mkLocal (<[local_file := content]> (files l)) (dirs l) (locks l) (transfers l ++ [key])) ;;
        modify (save_meta_data meta etag)
      end
  end.

Definition filter_files (d : BaseDownloader) (keys : list string) : list string :=
  let fs := List.filter (λ k, negb (ends_with k "/")) keys in
  match suffixes d with
  | None | Some [] => fs
  | Some sfx => List.filter (λ k, existsb (ends_with k) sfx) fs
  end.

(** [download_directory] of the buckets, which support ranges. *)
Definition download_directory (d : BaseDownloader) (local_path : path) (b : B) : M local unit :=
  let* keys := lift (directory_list (bucket_path d) b) in
  for_each (filter_files d keys) (λ k, download d local_path k b).

(** What the hub stores is a parameter: [snapshot] is its effect on the disk. *)
Context (snapshot : path → M local unit).

Definition download_model (d : BaseDownloader) (local_path : option string) (b : B) : M local path :=
  (match local_path with None => modify (mkdir (to_path (LOCAL_DIR e))) | Some _ => ret tt end) ;;
  let model_path := joinpath (to_path (default (LOCAL_DIR e) local_path)) (model_name d) in
  modify (mkdir model_path) ;;
  let* dir := lift (is_directory d b) in
  (match d_kind d with
   | HuggingFaceDownloader => snapshot model_path
   | _ => if dir : bool then download_directory d model_path b else download d model_path (bucket_path d) b
   end) ;;
  ret model_path.

(** ** openapi/model.py *)

(** The answer: an error code, or a status and whether a download was started. *)
Inductive answer := Error (code : Z) | Card (name : string) (status : ModelDownloadStatus) (started : bool).

Definition model_download (repo_exists : bool) (uri : string) (name : option string) (local_dir : option string)
    (c : DownloadExtraConfig) (b : B) (l : local) : answer :=
  match get_downloader repo_exists uri name c b with
  | Raise InvalidArgumentError => Error 422
  | Raise ModelNotFoundError => Error 404
  | Raise _ | OutOfFuel => Error 500
  | Ret d =>
    let dir := match local_dir with Some ((String _ _) as s) => s | _ => LOCAL_DIR e end in
    let status := match infer_from_model_path (to_path dir) (model_name d) (source d) l with
                  | Some m => model_status m l
                  | None => NOT_EXIST
                  end in
    if bool_decide (status = DOWNLOADED) || bool_decide (status = DOWNLOADING)
    then Card (model_name d) status false
    else Card (model_name d) DOWNLOADING true
  end.

End downloader.

(** ** Lemmas: texts and paths *)

(** The last part of a key can name a file. *)
Definition good_name (n : string) : Prop := no_slash n = true ∧ n ≠ EmptyString ∧ n ≠ ".".

(** A text without slashes lengthens the last part only. *)
Lemma split_on_app p r :
  no_slash r = true → ∃ i l, split_on slash p = i ++ [l] ∧ split_on slash (p +:+ r) = i ++ [l +:+ r].
Proof.
  intros Hr. induction p as [|c p (i & l & Hp & Hpr)].
  - exists [], EmptyString. split; [done|]. change (EmptyString +:+ r) with r. simpl.
    induction r as [|a r IH]; [done|]. rewrite no_slash_cons in Hr.
    apply andb_true_iff in Hr as [Ha%negb_true_iff Hr]. simpl. by rewrite Ha, IH.
  - rewrite append_cons. simpl. rewrite Hp, Hpr. destruct (Ascii.eqb c slash).
    + by exists (EmptyString :: i), l.
    + destruct i as [|x i]; [by exists [], (String c l)|by exists (String c x :: i), l].
Qed.

Lemma split_on_no_slash r : no_slash r = true → split_on slash r = [r].
Proof. intros Hr. destruct (split_on_app EmptyString r Hr) as (i & l & Hi & Hp). by destruct i as [|? [|]]; simplify_eq/=. Qed.

Lemma base_name_app p r : no_slash r = true → base_name (p +:+ r) = base_name p +:+ r.
Proof.
  intros Hr. unfold base_name. destruct (split_on_app p r Hr) as (i & l & -> & ->). by rewrite !last_snoc.
Qed.

Lemma base_name_no_slash s : no_slash (base_name s) = true.
Proof.
  unfold base_name. assert (Forall (λ x, no_slash x = true) (split_on slash s)) as Hs.
  { induction s as [|c s IH]; simpl; [by repeat constructor|].
    destruct (Ascii.eqb c slash) eqn:Hc; [by constructor|].
    destruct IH as [|x xs Hx Hxs]; repeat constructor; rewrite ?no_slash_cons, ?Hc; done. }
  destruct (last (split_on slash s)) as [x|] eqn:Hl; [|done].
  rewrite Forall_forall in Hs. apply Hs, last_Some_elem_of, Hl.
Qed.

Lemma substring_all s : String.substring 0 (String.length s) s = s.
Proof. induction s as [|c s IH]; [done|]. simpl. by rewrite IH. Qed.

Lemma rest_of_app p r : rest_of p (p +:+ r) = r.
Proof.
  unfold rest_of. rewrite length_append. replace (_ + _ - _)%nat with (String.length r) by lia.
  induction p as [|c p IH]; [apply substring_all|]. rewrite append_cons. simpl. apply IH.
Qed.

Lemma prefix_app p k : String.prefix p k = true ↔ ∃ r, k = p +:+ r.
Proof.
  revert k. induction p as [|c p IH]; intros k.
  - split; [intros _; by exists k|]. by destruct k.
  - destruct k as [|a k]; simpl; [split; [done|by intros [r [=]]]|].
    destruct (Ascii.ascii_dec c a) as [->|Ha].
    + rewrite IH. split; intros [r Hr]; exists r; [by rewrite append_cons, Hr|]. by injection Hr.
    + split; [done|]. intros [r Hr]. rewrite append_cons in Hr. congruence.
Qed.

(** The keys a listing shows: the prefix and a text without slashes. *)
Lemma listed_spec p k : listed p k = true ↔ ∃ r, k = p +:+ r ∧ no_slash r = true.
Proof.
  unfold listed. rewrite andb_true_iff, prefix_app. split.
  - intros [[r ->] H]. rewrite rest_of_app in H. by exists r.
  - intros (r & -> & Hr). rewrite rest_of_app. split; [by exists r|exact Hr].
Qed.

(** Different keys of one listing have different file names. *)
Lemma listed_base_inj p k k' :
  listed p k = true → listed p k' = true → base_name k = base_name k' → k = k'.
Proof.
  intros (r & -> & Hr)%listed_spec (r' & -> & Hr')%listed_spec. rewrite !base_name_app by done.
  by intros ->%append_inj_l.
Qed.

Lemma drop_lock_suffix_app n : drop_lock_suffix (n +:+ ".lock") = n.
Proof.
  unfold drop_lock_suffix. rewrite length_append. replace (_ + _ - 5)%nat with (String.length n) by (simpl; lia).
  induction n as [|c n IH]; [done|]. rewrite append_cons. simpl. by rewrite IH.
Qed.

Lemma ends_with_spec s suffix : ends_with s suffix = true ↔ ∃ n, s = n +:+ suffix.
Proof.
  unfold ends_with. rewrite bool_decide_eq_true. split; intros [x Hx].
  - exists (String.string_of_list_ascii x). rewrite <-(String.string_of_list_ascii_of_string s), Hx.
    rewrite <-(String.string_of_list_ascii_of_string suffix) at 2.
    clear Hx. induction x as [|a x IH]; [done|]. simpl. by rewrite IH.
  - exists (String.list_ascii_of_string x). by rewrite Hx, list_ascii_append.
Qed.

(** Only a key that ends with a slash has no file name. *)
Lemma base_name_empty k : base_name k = EmptyString → k = EmptyString ∨ ends_with k "/" = true.
Proof.
  rewrite ends_with_spec. induction k as [|c k IH]; [by left|]. intros H. right.
  destruct (split_on_app k EmptyString eq_refl) as (i & x & Hk & _).
  unfold base_name in H, IH. rewrite Hk, last_snoc in IH. simpl in H, IH. rewrite Hk in H.
  destruct (Ascii.eqb_spec c slash) as [->|Hc].
  - change (_ :: i ++ [x]) with ((EmptyString :: i) ++ [x]) in H. rewrite last_snoc in H.
    destruct (IH H) as [->|[n ->]]; [by exists EmptyString|by exists (String slash n)].
  - destruct i as [|y i]; [done|]. change (_ :: (i ++ [x])) with ((String c y :: i) ++ [x]) in H.
    simpl in H. rewrite last_cons, last_snoc in H. destruct (IH H) as [->|[n ->]]; [by destruct i|by exists (String c n)].
Qed.

Lemma good_name_parts n : good_name n → path_parts n = [n].
Proof.
  intros (Hs & He & Hd). unfold path_parts. rewrite split_on_no_slash by done. simpl.
  destruct (String.eqb_spec n EmptyString); [done|]. by destruct (String.eqb_spec n ".").
Qed.

Lemma no_slash_prefix n : no_slash n = true → String.prefix "/" n = false.
Proof.
  destruct n as [|c n]; [done|]. rewrite no_slash_cons. intros [Hc%negb_true_iff _]%andb_true_iff.
  apply Ascii.eqb_neq in Hc. change slash with "/"%char in Hc. cbn [String.prefix]. destruct (Ascii.ascii_dec "/"%char c); congruence.
Qed.

Lemma joinpath_good p n : good_name n → joinpath p n = (p.1, p.2 ++ [n]).
Proof. intros Hn. unfold joinpath. by rewrite no_slash_prefix, good_name_parts by apply Hn. Qed.

(** The files of one download, as parts below the directory of the model. *)
Definition in_cache (lp : path) (s : RemoteSource) (name : string) : path :=
  (lp.1, lp.2 ++ [".cache"; source_value s; "download"] ++ [name]).

Lemma good_suffixed n suffix : no_slash n = true → (1 < String.length suffix)%nat → no_slash suffix = true → good_name (n +:+ suffix).
Proof.
  intros Hn Hl Hs. unfold good_name. rewrite no_slash_app, Hn. split_and!; [done| |];
    intros H%(f_equal String.length); rewrite length_append in H; simpl in H; lia.
Qed.

Lemma join_cache_dir lp s :
  joinpath lp (cache_dir_of (source_value s)) = (lp.1, lp.2 ++ [".cache"; source_value s; "download"]).
Proof. by destruct s. Qed.

Lemma join_cache lp s n suffix : no_slash n = true → (1 < String.length suffix)%nat → no_slash suffix = true →
  joinpath (joinpath lp (cache_dir_of (source_value s))) (n +:+ suffix) = in_cache lp s (n +:+ suffix).
Proof.
  intros. rewrite joinpath_good, join_cache_dir by by apply good_suffixed. unfold in_cache. by rewrite app_assoc.
Qed.

Lemma strip_cache_dir s : strip slash (cache_dir_of (source_value s)) = cache_dir_of (source_value s).
Proof. by destruct s. Qed.

Lemma download_paths lp n s : good_name n →
  get_local_download_paths lp n s =
    mkDownloadFile (lp.1, lp.2 ++ [n]) (in_cache lp s (n +:+ ".lock")) (in_cache lp s (n +:+ ".metadata")).
Proof.
  intros Hn. unfold get_local_download_paths.
  rewrite strip_cache_dir, !join_cache by first [done | exact (proj1 Hn) | simpl; lia]. by rewrite joinpath_good by exact Hn.
Qed.

Lemma meta_file_path lp n s : good_name n → meta_file lp n (source_value s) = in_cache lp s (n +:+ ".metadata").
Proof. intros Hn. unfold meta_file. by rewrite join_cache by first [done | exact (proj1 Hn) | simpl; lia]. Qed.

Lemma in_cache_inj lp s x y : in_cache lp s x = in_cache lp s y → x = y.
Proof. unfold in_cache. intros H. by simplify_list_eq. Qed.

Lemma in_cache_file lp s x n : in_cache lp s x ≠ (lp.1, lp.2 ++ [n]).
Proof. unfold in_cache. intros H%(f_equal (length ∘ snd)). simpl in H. rewrite !length_app in H. simpl in H. lia. Qed.

(** The file of a name, its metadata and its lock are three files, and those of
    different names are different. *)
Lemma lock_not_meta (n n' : string) : n +:+ ".lock" ≠ n' +:+ ".metadata".
Proof.
  intros H%(f_equal (last ∘ String.list_ascii_of_string)). simpl in H. rewrite !list_ascii_append in H.
  simpl in H. by rewrite !last_app in H.
Qed.

(** ** Lemmas: one download *)

Section download.
Context {B : Type} `{!S3Client B} `{!S3Laws B} (e : env).

(** The contents an etag stands for: the store changes the etag with the contents. *)
Context (content_of : string → string).

Definition honest (b : B) : Prop := ∀ k o, objects b !! k = Some o → o_content o = content_of (o_etag o).

(** Where a file is there with its metadata, it has the contents of that etag. *)
Definition coherent (lp : path) (s : RemoteSource) (l : local) : Prop :=
  ∀ n t c, good_name n → files l !! in_cache lp s (n +:+ ".metadata") = Some t →
    files l !! (lp.1, lp.2 ++ [n]) = Some c → c = content_of t.

(** The object is stored under its name, with its etag. *)
Definition stored (lp : path) (s : RemoteSource) (key : string) (o : object) (l : local) : Prop :=
  files l !! (lp.1, lp.2 ++ [base_name key]) = Some (o_content o) ∧
  files l !! in_cache lp s (base_name key +:+ ".metadata") = Some (o_etag o).

Definition fetched (lp : path) (s : RemoteSource) (key : string) (o : object) (l : local) : local :=
  let n := base_name key in
  let l1 := write_file (in_cache lp s (n +:+ ".lock")) EmptyString (mkdir (parent (in_cache lp s (n +:+ ".lock"))) l) in
  save_meta_data (in_cache lp s (n +:+ ".metadata")) (o_etag o)
    (mkLocal (<[(lp.1, lp.2 ++ [n]) := o_content o]> (files l1)) (dirs l1) (locks l1) (transfers l1 ++ [key])).

Definition needed (lp : path) (s : RemoteSource) (key : string) (o : object) (l : local) : bool :=
  need_to_download e (lp.1, lp.2 ++ [base_name key]) (in_cache lp s (base_name key +:+ ".metadata"))
    (Z.of_nat (String.length (o_content o))) (o_etag o) l.

Lemma download_eq (d : BaseDownloader) lp key b o l :
  objects b !! key = Some o → good_name (base_name key) → locks l = ∅ →
  download e d lp key b l =
    (Ret tt, if needed lp (source d) key o l then fetched lp (source d) key o l else l).
Proof.
  intros Ho Hn Hl. pose proof (head_law key b) as Hh. pose proof (get_law key b) as Hg. rewrite Ho in Hh, Hg.
  unfold download, needed. rewrite Hh, meta_file_path, joinpath_good, download_paths, bind_get by done.
  destruct (need_to_download _ _ _ _ _ _); [|done]. unfold download_lock, bind; simpl.
  rewrite Hl, lookup_empty, Hg. simpl. unfold fetched, save_meta_data, write_file, mkdir; simpl. by rewrite ?Hl.
Qed.

Lemma fetched_files lp s key o l : files (fetched lp s key o l) =
  <[in_cache lp s (base_name key +:+ ".metadata") := o_etag o]>
    (<[(lp.1, lp.2 ++ [base_name key]) := o_content o]>
      (<[in_cache lp s (base_name key +:+ ".lock") := EmptyString]> (files l))).
Proof. done. Qed.

Lemma fetched_stored lp s key o l : stored lp s key o (fetched lp s key o l).
Proof.
  unfold stored. rewrite fetched_files. split; [|apply lookup_insert_eq].
  rewrite lookup_insert_ne by apply in_cache_file. apply lookup_insert_eq.
Qed.

(** Other names keep their file and their metadata. *)
Lemma fetched_other lp s key o l n : n ≠ base_name key →
  files (fetched lp s key o l) !! (lp.1, lp.2 ++ [n]) = files l !! (lp.1, lp.2 ++ [n]) ∧
  files (fetched lp s key o l) !! in_cache lp s (n +:+ ".metadata") = files l !! in_cache lp s (n +:+ ".metadata").
Proof.
  intros Hn. rewrite fetched_files. split.
  - rewrite lookup_insert_ne by apply in_cache_file. rewrite lookup_insert_ne by (intros ?; simplify_list_eq).
    by rewrite lookup_insert_ne by apply in_cache_file.
  - rewrite lookup_insert_ne by by intros ?%in_cache_inj%append_inj_r.
    rewrite lookup_insert_ne by (symmetry; apply in_cache_file).
    by rewrite lookup_insert_ne by by intros ?%in_cache_inj%lock_not_meta.
Qed.

Lemma skipped_stored lp s b key o l :
  honest b → objects b !! key = Some o → good_name (base_name key) → coherent lp s l →
  needed lp s key o l = false → stored lp s key o l.
Proof.
  unfold needed, need_to_download, check_file_exist, load_meta_data, stored. intros Hb Ho Hn Hc Hneed.
  destruct (_ && _); [|done]. apply negb_false_iff in Hneed.
  repeat (destruct_match; simplify_eq/=). apply String.eqb_eq in Hneed as ->.
  split; [|done]. f_equal. rewrite (Hb _ _ Ho). by eapply Hc.
Qed.

Lemma fetched_coherent lp s b key o l :
  honest b → objects b !! key = Some o → coherent lp s l → coherent lp s (fetched lp s key o l).
Proof.
  intros Hb Ho Hc n t c Hn Ht Hcn. destruct (decide (n = base_name key)) as [->|Hne].
  - destruct (fetched_stored lp s key o l) as [Hf Hm]. rewrite Hf in Hcn. rewrite Hm in Ht. simplify_eq. by eapply Hb.
  - destruct (fetched_other lp s key o l n Hne) as [Hf Hm]. rewrite Hf in Hcn. rewrite Hm in Ht. by eapply Hc.
Qed.

(** What a model's cache directory shows: each lock file belongs to a file that is
    there with its metadata. *)
Definition complete (f : DownloadFile) (l : local) : bool :=
  file_exists (file_path f) l && file_exists (metadata_path f) l.

Definition settled (lp : path) (s : RemoteSource) (l : local) : Prop :=
  ∀ name, is_Some (files l !! in_cache lp s name) → ends_with name ".lock" = true →
    complete (get_local_download_paths lp (drop_lock_suffix name) s) l = true.

Lemma fetched_exists lp s key o l p : file_exists p l = true → file_exists p (fetched lp s key o l) = true.
Proof.
  unfold file_exists. rewrite fetched_files, !orb_true_iff, !bool_decide_eq_true. intros [H|H]; [left|right].
  - by repeat apply lookup_insert_is_Some'; right; repeat (apply lookup_insert_is_Some'; right).
  - simpl. set_solver.
Qed.

Lemma stored_complete lp s key o l :
  good_name (base_name key) → stored lp s key o l → complete (get_local_download_paths lp (base_name key) s) l = true.
Proof.
  intros Hn [Hf Hm]. unfold complete, file_exists. rewrite download_paths by done. simpl. by rewrite Hf, Hm.
Qed.

Lemma fetched_settled lp s key o l :
  good_name (base_name key) → settled lp s l → settled lp s (fetched lp s key o l).
Proof.
  intros Hn Hs name Hname [n Hl]%ends_with_spec. subst name. rewrite drop_lock_suffix_app.
  destruct (decide (n = base_name key)) as [->|Hne]; [by eapply stored_complete, fetched_stored|].
  rewrite fetched_files in Hname. rewrite lookup_insert_ne in Hname by (intros ?%in_cache_inj; by eapply lock_not_meta).
  rewrite lookup_insert_ne in Hname by (symmetry; apply in_cache_file).
  rewrite lookup_insert_ne in Hname by by intros ?%in_cache_inj%append_inj_r.
  pose proof (Hs _ Hname (proj2 (ends_with_spec _ _) (ex_intro _ n eq_refl))) as Hold. rewrite drop_lock_suffix_app in Hold.
  unfold complete in *. apply andb_true_iff in Hold as [??]. apply andb_true_iff. split; by apply fetched_exists.
Qed.

(** The invariant of a download process that no other one disturbs. *)
Definition tidy (lp : path) (s : RemoteSource) (l : local) : Prop :=
  coherent lp s l ∧ settled lp s l ∧ locks l = ∅.

Lemma download_step (d : BaseDownloader) lp key b o l :
  honest b → objects b !! key = Some o → good_name (base_name key) → tidy lp (source d) l →
  ∃ l', download e d lp key b l = (Ret tt, l') ∧ stored lp (source d) key o l' ∧ tidy lp (source d) l' ∧
    (∀ n, n ≠ base_name key →
       files l' !! (lp.1, lp.2 ++ [n]) = files l !! (lp.1, lp.2 ++ [n]) ∧
       files l' !! in_cache lp (source d) (n +:+ ".metadata") = files l !! in_cache lp (source d) (n +:+ ".metadata")) ∧
    dirs l ⊆ dirs l'.
Proof.
  intros Hb Ho Hn (Hc & Hs & Hl). rewrite (download_eq d lp key b o l Ho Hn Hl).
  destruct (needed _ _ _ _ _) eqn:Hneed; eexists; (split; [reflexivity|]).
  - split_and!; [apply fetched_stored| |apply fetched_other|simpl; set_solver].
    split_and!; [by eapply fetched_coherent|by apply fetched_settled|done].
  - split_and!; [by eapply skipped_stored|done..].
Qed.

(** Downloading a list of keys of one listing. *)
Lemma download_all (d : BaseDownloader) lp b ks l :
  honest b → NoDup (base_name <$> ks) → Forall (λ k, is_Some (objects b !! k) ∧ good_name (base_name k)) ks →
  tidy lp (source d) l →
  ∃ l', for_each ks (λ k, download e d lp k b) l = (Ret tt, l') ∧ tidy lp (source d) l' ∧
    (∀ k o, k ∈ ks → objects b !! k = Some o → stored lp (source d) k o l') ∧
    (∀ n, n ∉ base_name <$> ks →
       files l' !! (lp.1, lp.2 ++ [n]) = files l !! (lp.1, lp.2 ++ [n]) ∧
       files l' !! in_cache lp (source d) (n +:+ ".metadata") = files l !! in_cache lp (source d) (n +:+ ".metadata")) ∧
    dirs l ⊆ dirs l'.
Proof.
  intros Hb Hnd Hks. revert l. induction Hks as [|k ks [[o Ho] Hn] Hks IH]; intros l Hl.
  { exists l. split_and!; try done. by intros ?? ?%not_elem_of_nil. }
  rewrite fmap_cons in Hnd. apply NoDup_cons in Hnd as [Hk Hnd].
  destruct (download_step d lp k b o l Hb Ho Hn Hl) as (l1 & H1 & Hst & Ht1 & Hf1 & Hd1).
  destruct (IH Hnd l1 Ht1) as (l2 & H2 & Ht2 & Hst2 & Hf2 & Hd2).
  exists l2. cbn [for_each]. rewrite (bind_Ret _ _ _ _ _ H1). split_and!; [done..| | |by etrans].
  - intros k' o' [->|Hk']%elem_of_cons Ho'; [|by apply Hst2]. simplify_eq.
    destruct (Hf2 _ Hk) as [E1 E2], Hst. unfold stored. by rewrite E1, E2.
  - intros n Hn'. rewrite fmap_cons, not_elem_of_cons in Hn'. destruct Hn' as [Hn1 Hn2].
    destruct (Hf2 _ Hn2) as [-> ->]. by apply Hf1.
Qed.

(** The keys of one listing. *)
Lemma directory_keys p b : ∃ ks truncated, list_objects_v2 p b = inr (ks, truncated) ∧ directory_list p b = Ret ks ∧
  NoDup (base_name <$> ks) ∧ (length ks ≤ 1000)%nat ∧
  (∀ k, k ∈ ks → is_Some (objects b !! k) ∧ listed p k = true) ∧
  (truncated = false → ∀ k, is_Some (objects b !! k) → listed p k = true → k ∈ ks).
Proof.
  destruct (list_law p b) as (ks & truncated & Hl & Hnd & Hlen & Hks & Hall). exists ks, truncated. unfold directory_list. rewrite Hl.
  split_and!; try done. apply NoDup_fmap_2_strong; [|done].
  intros k k' [_ Hk]%Hks [_ Hk']%Hks. by eapply listed_base_inj.
Qed.

Definition allowed (d : BaseDownloader) (k : string) : bool :=
  match suffixes d with None | Some [] => true | Some sfx => existsb (ends_with k) sfx end.

Lemma filter_files_elem (d : BaseDownloader) ks k :
  k ∈ filter_files d ks ↔ k ∈ ks ∧ ends_with k "/" = false ∧ allowed d k = true.
Proof.
  unfold filter_files, allowed. destruct (suffixes d) as [[|x sfx]|]; rewrite !elem_of_filter_b, negb_true_iff; tauto.
Qed.

(** The names of the bucket are names of files. *)
Definition plain_keys (b : B) : Prop := ∀ k, is_Some (objects b !! k) → k ≠ EmptyString ∧ base_name k ≠ ".".

Lemma filter_files_sub (d : BaseDownloader) ks : filter_files d ks `sublist_of` ks.
Proof.
  assert (∀ f (l : list string), List.filter f l `sublist_of` l) as Hf.
  { intros f l. induction l as [|x l IH]; simpl; [done|]. destruct (f x); by constructor. }
  unfold filter_files. destruct (suffixes d) as [[|]|]; [apply Hf|etrans; apply Hf|apply Hf].
Qed.

(** The files a directory download goes through. *)
Lemma filtered_ok (d : BaseDownloader) b ks :
  plain_keys b → (∀ k, k ∈ ks → is_Some (objects b !! k)) → NoDup (base_name <$> ks) →
  NoDup (base_name <$> filter_files d ks) ∧
  Forall (λ k, is_Some (objects b !! k) ∧ good_name (base_name k)) (filter_files d ks).
Proof.
  intros Hp Hks Hnd. split.
  - eapply sublist_NoDup; [exact Hnd|]. by apply fmap_sublist, filter_files_sub.
  - apply Forall_forall. intros k (Hk & Hs & _)%filter_files_elem. destruct (Hp k (Hks k Hk)) as [He Hd].
    split; [by apply Hks|]. split_and!; [apply base_name_no_slash| |done].
    intros H%base_name_empty. destruct H; congruence.
Qed.

(** The objects directly below the path of the downloader. *)
Definition children (d : BaseDownloader) (b : B) : gset string :=
  filter (λ k, listed (bucket_path d) k = true) (dom (objects b)).

(** A directory download goes through the keys of a page. *)
Lemma directory_run (d : BaseDownloader) lp b l : plain_keys b → ∃ ks truncated,
  list_objects_v2 (bucket_path d) b = inr (ks, truncated) ∧
  download_directory e d lp b l = for_each (filter_files d ks) (λ k, download e d lp k b) l ∧
  NoDup (base_name <$> ks) ∧ (length ks ≤ 1000)%nat ∧ (∀ k, k ∈ ks → k ∈ children d b) ∧
  (truncated = false → ∀ k, k ∈ children d b → k ∈ ks) ∧
  NoDup (base_name <$> filter_files d ks) ∧
  Forall (λ k, is_Some (objects b !! k) ∧ good_name (base_name k)) (filter_files d ks).
Proof.
  intros Hp. destruct (directory_keys (bucket_path d) b) as (ks & truncated & Hl & Hd & Hnd & Hlen & Hks & Hall). exists ks, truncated.
  unfold download_directory, children. rewrite Hd, bind_lift. split_and!; try done.
  - intros k Hk. rewrite elem_of_filter, elem_of_dom. by apply and_comm, Hks.
  - intros Ht k. rewrite elem_of_filter, elem_of_dom. intros [? ?]. by apply Hall.
  - apply (filtered_ok d b); [done|by intros k Hk; apply Hks|done].
  - apply (filtered_ok d b); [done|by intros k Hk; apply Hks|done].
Qed.

(** C30: A directory download from a bucket whose etags identify the contents, into a
    directory that no other process uses, succeeds. Every object of the page that the bucket lists for the path,
    if it is not a directory and has an allowed suffix, is on the disk afterwards under its name,
    with the contents the bucket has now and its etag, whether it was fetched or
    found there; when the page is not truncated these are all the objects directly below the path. The
    directory is fit for the next download. *)
Theorem download_directory_complete (d : BaseDownloader) lp b l :
  honest b → plain_keys b → tidy lp (source d) l →
  ∃ ks truncated l', list_objects_v2 (bucket_path d) b = inr (ks, truncated) ∧
    download_directory e d lp b l = (Ret tt, l') ∧ tidy lp (source d) l' ∧
    ∀ k o, objects b !! k = Some o → k ∈ ks ∨ (truncated = false ∧ listed (bucket_path d) k = true) →
      ends_with k "/" = false → allowed d k = true → stored lp (source d) k o l'.
Proof.
  intros Hb Hp Ht. destruct (directory_run d lp b l Hp) as (ks & truncated & Hl & -> & _ & _ & _ & Hall & Hnd & Hok).
  destruct (download_all d lp b _ l Hb Hnd Hok Ht) as (l' & Hr & Ht' & Hst & _).
  exists ks, truncated, l'. split_and!; [done..|]. intros k o Ho Hk Hs Ha. apply Hst; [|done].
  apply filter_files_elem. split_and!; [|done..]. destruct Hk as [Hk|[Hf Hk]]; [done|]. apply (Hall Hf).
  unfold children. by rewrite elem_of_filter, elem_of_dom, Ho.
Qed.

Lemma stored_not_needed lp s key o l :
  FORCE_DOWNLOAD e = false → CHECK_FILE_EXIST e = true → o_etag o ≠ EmptyString → o_content o ≠ EmptyString →
  stored lp s key o l → needed lp s key o l = false.
Proof.
  intros Hf Hc He Ho [Hl Hm]. unfold needed, need_to_download, check_file_exist, load_meta_data.
  rewrite Hf, Hc, Hl, Hm. simpl. destruct (o_content o) as [|c t]; [done|].
  rewrite Z.eqb_refl, String.eqb_refl. simpl. by destruct (String.eqb_spec (o_etag o) EmptyString).
Qed.

Lemma download_none (d : BaseDownloader) lp b ks l :
  FORCE_DOWNLOAD e = false → CHECK_FILE_EXIST e = true → locks l = ∅ →
  (∀ k o, objects b !! k = Some o → o_etag o ≠ EmptyString ∧ o_content o ≠ EmptyString) →
  Forall (λ k, is_Some (objects b !! k) ∧ good_name (base_name k)) ks →
  (∀ k o, k ∈ ks → objects b !! k = Some o → stored lp (source d) k o l) →
  for_each ks (λ k, download e d lp k b) l = (Ret tt, l).
Proof.
  intros Hf Hc Hl Hne Hks. induction Hks as [|k ks [[o Ho] Hn] Hks IH]; intros Hst; [done|].
  destruct (Hne k o Ho). cbn [for_each].
  rewrite (bind_Ret _ _ _ tt l); [apply IH; intros; apply Hst; [set_solver|done]|].
  rewrite (download_eq d lp k b o l Ho Hn Hl), stored_not_needed; [done..|]. apply Hst; [set_solver|done].
Qed.

(** Downloading twice: when nothing changed in the bucket, etags and contents are
    not empty, and existing files are checked ([DOWNLOADER_CHECK_FILE_EXIST], not
    [DOWNLOADER_FORCE_DOWNLOAD]), the second download succeeds and leaves the disk,
    its metadata and the list of transfers exactly as the first one left them. *)
Theorem repeated_download_idle (d : BaseDownloader) lp b l :
  honest b → plain_keys b → tidy lp (source d) l →
  FORCE_DOWNLOAD e = false → CHECK_FILE_EXIST e = true →
  (∀ k o, objects b !! k = Some o → o_etag o ≠ EmptyString ∧ o_content o ≠ EmptyString) →
  ∃ l', download_directory e d lp b l = (Ret tt, l') ∧ download_directory e d lp b l' = (Ret tt, l').
Proof.
  intros Hb Hp Ht Hf Hc Hne. unfold download_directory.
  destruct (directory_keys (bucket_path d) b) as (ks & truncated & _ & -> & Hnd & _ & Hks & _).
  destruct (filtered_ok d b ks Hp (λ k Hk, proj1 (Hks k Hk)) Hnd) as [Hnd' Hok].
  destruct (download_all d lp b _ l Hb Hnd' Hok Ht) as (l' & Hr & Ht' & Hst & _).
  exists l'. rewrite !bind_lift. split; [done|]. apply download_none; try done. apply Ht'.
Qed.

(** A path with more than a thousand objects directly below it loses the rest: the
    listing is one page and nothing asks for the next. Into an empty directory the
    download succeeds, and one of the objects is not there. *)
Theorem second_page_lost (d : BaseDownloader) lp b l :
  honest b → plain_keys b → tidy lp (source d) l → (1000 < size (children d b))%nat →
  (∀ n, files l !! (lp.1, lp.2 ++ [n]) = None) →
  ∃ l' k, download_directory e d lp b l = (Ret tt, l') ∧ k ∈ children d b ∧
    files l' !! (lp.1, lp.2 ++ [base_name k]) = None.
Proof.
  intros Hb Hp Ht Hsize Hempty. destruct (directory_run d lp b l Hp) as (ks & truncated & _ & -> & Hnd & Hlen & Hks & _ & Hnd' & Hok).
  destruct (download_all d lp b _ l Hb Hnd' Hok Ht) as (l' & Hr & _ & _ & Hother & _).
  destruct (set_choose_or_empty (children d b ∖ list_to_set ks)) as [[k Hk]|He].
  2: { assert (size (children d b) ≤ size (list_to_set ks : gset string))%nat as Hle by (apply subseteq_size; set_solver).
       rewrite size_list_to_set in Hle; [lia|by apply (NoDup_fmap_1 base_name)]. }
  apply elem_of_difference in Hk as [Hk Hnk]. rewrite elem_of_list_to_set in Hnk. exists l', k. split_and!; [done..|].
  destruct (Hother (base_name k)) as [-> _]; [|apply Hempty].
  intros (k' & Hbase & Hk')%list_elem_of_fmap. apply filter_files_elem in Hk' as [Hk' _]. apply Hnk.
  assert (k = k') as ->; [|done]. pose proof (Hks k' Hk') as Hc. unfold children in Hk, Hc. rewrite elem_of_filter in Hk, Hc.
  apply (listed_base_inj (bucket_path d)); tauto.
Qed.

Lemma glob_lock_elem dir l name :
  name ∈ glob_lock dir l → is_Some (files l !! (dir.1, dir.2 ++ [name])) ∧ ends_with name ".lock" = true.
Proof.
  unfold glob_lock. rewrite list_elem_of_omap. intros ([[a ps] c] & Hin%elem_of_map_to_list & Hc).
  simpl in Hc. destruct (reverse ps) as [|x up] eqn:Hr; [done|].
  destruct (bool_decide _ && ends_with x ".lock") eqn:Hb; [|done]. simplify_eq.
  apply andb_true_iff in Hb as [Hd%bool_decide_eq_true Hs]. split; [|done]. subst dir. simpl.
  rewrite <-reverse_cons, <-Hr, reverse_involutive. by exists c.
Qed.

Lemma settled_downloaded base name s l :
  let lp := joinpath base name in
  settled lp s l → file_exists lp l = true →
  ∃ m, infer_from_model_path base name s l = Some m ∧ model_status m l = DOWNLOADED.
Proof.
  intros lp Hs Hex. unfold infer_from_model_path. fold lp. rewrite Hex. simpl. eexists. split; [done|].
  unfold model_status. simpl.
  match goal with |- (if forallb ?p ?fs then _ else _) = _ => assert (forallb p fs = true) as ->; [|done] end.
  apply forallb_forall. intros st Hst%list_elem_of_In. apply list_elem_of_fmap in Hst as (f & -> & Hf).
  apply list_elem_of_fmap in Hf as (n & -> & [Hn Hl]%glob_lock_elem).
  rewrite strip_cache_dir, join_cache_dir in Hn. simpl in Hn. rewrite <-app_assoc in Hn.
  apply bool_decide_eq_true. unfold file_status. fold lp. pose proof (Hs n Hn Hl) as Hc. unfold complete in Hc. by rewrite Hc.
Qed.

(** What the model manager answers for a model whose directory looks complete. *)
Lemma downloaded_answer repo uri name dir cfg b (d : BaseDownloader) l :
  get_downloader e repo uri name cfg b = Ret d → dir ≠ EmptyString →
  let lp := joinpath (to_path dir) (model_name d) in
  settled lp (source d) l → file_exists lp l = true →
  model_download e repo uri name (Some dir) cfg b l = Card (model_name d) DOWNLOADED false.
Proof.
  intros Hd Hdir lp Hs Hex. unfold model_download. rewrite Hd. destruct dir as [|c dir]; [done|].
  by destruct (settled_downloaded (to_path (String c dir)) (model_name d) (source d) l Hs Hex) as (m & -> & ->).
Qed.

(** A download that stopped between two files looks finished: after any first part
    of the files of a directory, the model manager reports the model as downloaded
    and starts nothing, since it looks only at the files that have a lock file;
    those not fetched yet are missing. *)
Theorem partial_download_reported repo uri name dir cfg b (d : BaseDownloader) l done_ rest :
  let lp := joinpath (to_path dir) (model_name d) in
  get_downloader e repo uri name cfg b = Ret d → dir ≠ EmptyString →
  honest b → plain_keys b → tidy lp (source d) l → lp ∈ dirs l → (∀ n, files l !! (lp.1, lp.2 ++ [n]) = None) →
  (try* keys := directory_list (bucket_path d) b in Ret (filter_files d keys)) = Ret (done_ ++ rest) →
  ∃ l', for_each done_ (λ k, download e d lp k b) l = (Ret tt, l') ∧
    model_download e repo uri name (Some dir) cfg b l' = Card (model_name d) DOWNLOADED false ∧
    ∀ k, k ∈ rest → files l' !! (lp.1, lp.2 ++ [base_name k]) = None.
Proof.
  intros lp Hd Hdir Hb Hp Ht Hlp Hempty Hkeys.
  destruct (directory_keys (bucket_path d) b) as (ks & truncated & _ & Hl & Hnd & _ & Hks & _). rewrite Hl in Hkeys. injection Hkeys as Hkeys.
  destruct (filtered_ok d b ks Hp (λ k Hk, proj1 (Hks k Hk)) Hnd) as [Hnd' Hok]. rewrite Hkeys in Hnd', Hok.
  rewrite fmap_app in Hnd'. apply NoDup_app in Hnd' as (Hnd1 & Hdis & _). apply Forall_app in Hok as [Hok _].
  destruct (download_all d lp b done_ l Hb Hnd1 Hok Ht) as (l' & Hr & Ht' & _ & Hother & Hdirs).
  exists l'. split_and!; [done| |].
  - apply downloaded_answer; [done..|apply Ht'|]. unfold file_exists. apply orb_true_iff. right.
    apply bool_decide_eq_true. by apply Hdirs.
  - intros k Hk. destruct (Hother (base_name k)) as [-> _]; [|apply Hempty].
    intros H. apply (Hdis _ H). by apply list_elem_of_fmap_2.
Qed.

(** A listing without the closing slash shows nothing of the directory. *)
Lemma below_not_listed p k : String.prefix (p +:+ "/") k = true → listed p k = false.
Proof.
  intros [r ->]%prefix_app. unfold listed. rewrite append_assoc, rest_of_app.
  simpl. apply andb_false_r.
Qed.

Lemma mkdir_exists p l : file_exists p (mkdir p l) = true.
Proof.
  unfold file_exists. apply orb_true_iff. right. apply bool_decide_eq_true. simpl. apply elem_of_union_l.
  unfold with_parents. apply elem_of_list_to_set, list_elem_of_fmap. exists (length p.2).
  rewrite take_ge by done. split; [by destruct p|]. apply elem_of_seq. lia.
Qed.

Lemma mkdir_settled lp s p l : settled lp s l → settled lp s (mkdir p l).
Proof.
  intros Hs name Hname Hl. pose proof (Hs name Hname Hl) as Hc. unfold complete, file_exists in *. simpl.
  rewrite !andb_true_iff, !orb_true_iff, !bool_decide_eq_true in Hc |- *. clear -Hc. set_solver.
Qed.

(** A model of a bucket named without the closing slash is never fetched: when all
    objects are below [path/], the download with [path] succeeds, makes the
    directory of the model and transfers nothing; from then on the model manager
    reports the model as downloaded. *)
Theorem directory_without_slash_empty snapshot repo uri name dir cfg b (d : BaseDownloader) l :
  let lp := joinpath (to_path dir) (model_name d) in
  get_downloader e repo uri name cfg b = Ret d → d_kind d ≠ HuggingFaceDownloader → dir ≠ EmptyString →
  ends_with (bucket_path d) "/" = false → (∀ k, is_Some (objects b !! k) → String.prefix (bucket_path d +:+ "/") k = true) →
  settled lp (source d) l →
  download_model e snapshot d (Some dir) b l = (Ret lp, mkdir lp l) ∧
  model_download e repo uri name (Some dir) cfg b (mkdir lp l) = Card (model_name d) DOWNLOADED false.
Proof.
  intros lp Hd Hk Hdir Hs Hbelow Hset. split.
  - destruct (list_law (bucket_path d) b) as (ks & truncated & Hl & _ & _ & Hks & _).
    assert (ks = []) as ->.
    { destruct ks as [|k ks]; [done|].
      destruct (Hks k) as [Hin Hlist]; [apply elem_of_cons; by left|]. by rewrite below_not_listed in Hlist by auto. }
    unfold download_model, download_directory, is_directory, directory_list. rewrite Hs, Hl.
    unfold filter_files. by destruct (d_kind d), (suffixes d) as [[|]|].
  - apply downloaded_answer; [done..|by apply mkdir_settled|apply mkdir_exists].
Qed.

End download.

(** ** A bucket that satisfies the laws *)

Section demo.

Abbreviation bucket := (gmap string object).

#[local] Instance demo_client : S3Client bucket := {
  objects b := b;
  head_bucket _ := None;
  head_object k b := match b !! k with
                     | Some o => inr (o_etag o, Z.of_nat (String.length (o_content o)))
                     | None => inl KeyError
                     end;
  list_objects_v2 p b :=
    let ks := List.filter (listed p) (map_to_list b).*1 in inr (take 1000 ks, (1000 <? length ks)%nat);
  get_file k b := match b !! k with Some o => inr (o_content o) | None => inl KeyError end
}.

#[local] Instance demo_laws : S3Laws bucket.
Proof.
  split.
  - intros k b. simpl. destruct (b !! k); [done|by eexists].
  - intros k b. simpl. destruct (b !! k); [done|by eexists].
  - intros p b. eexists _, _. split_and!; [done| | | |].
    + apply (sublist_NoDup _ (List.filter (listed p) (map_to_list b).*1)); [|apply sublist_take].
      apply NoDup_ListNoDup, List.NoDup_filter, NoDup_ListNoDup, NoDup_fst_map_to_list.
    + rewrite length_take. lia.
    + intros k Hk%subseteq_take. apply elem_of_filter_b in Hk as [Hk ([k' o] & -> & Ho%elem_of_map_to_list)%list_elem_of_fmap].
      split; [by exists o|done].
    + intros Hlen%Nat.ltb_ge k [o Ho] Hk. rewrite take_ge by done. apply elem_of_filter_b. split; [done|].
      apply list_elem_of_fmap. exists (k, o). by rewrite elem_of_map_to_list.
Qed.

Definition demo_bucket : bucket := {[
  "models/opt/config.json" := mkObject "e1" "{}";
  "models/opt/weights.bin" := mkObject "e2" "0110"
]}.

Definition demo_content (etag : string) : string := if String.eqb etag "e1" then "{}" else "0110".

Definition demo_env : env := mkEnv false true None "/models" (None, None).

Definition demo_config : DownloadExtraConfig := mkConfig (Some "ak") (Some "sk") None None.

Definition demo_downloader (uri : string) : BaseDownloader :=
  match get_downloader demo_env false uri None demo_config demo_bucket with
  | Ret d => d
  | _ => mkDownloader S3Downloader EmptyString EmptyString EmptyString EmptyString None false
  end.

Definition demo_path : path := joinpath (to_path "/models") "opt".

Definition demo_disk : local := mkdir demo_path (mkLocal ∅ ∅ ∅ []).

(** A fact of all objects, by evaluation. *)
Lemma bucket_forall (f : string → object → bool) (b : bucket) k o :
  forallb (λ ko, f ko.1 ko.2) (map_to_list b) = true → b !! k = Some o → f k o = true.
Proof.
  rewrite forallb_forall. intros Hall Hk%elem_of_map_to_list%list_elem_of_In. exact (Hall _ Hk).
Qed.

#[local] Ltac by_bucket f b H :=
  let Hall := fresh in
  pose proof (bucket_forall f b _ _ ltac:(vm_compute; reflexivity) H) as Hall;
  cbv beta in Hall; apply bool_decide_eq_true in Hall; exact Hall.

Lemma demo_honest : honest demo_content demo_bucket.
Proof.
  intros k o H. by_bucket (λ (_ : string) (o : object), bool_decide (o_content o = demo_content (o_etag o))) demo_bucket H.
Qed.

Lemma demo_plain : plain_keys demo_bucket.
Proof.
  intros k [o H]. by_bucket (λ (k : string) (_ : object), bool_decide (k ≠ EmptyString ∧ base_name k ≠ ".")) demo_bucket H.
Qed.

Lemma demo_tidy lp s (content_of : string → string) : tidy content_of lp s demo_disk.
Proof. split_and!; [by intros n t c _ ?|by intros n [? ?]|done]. Qed.

(** The hypotheses of [download_directory_complete] hold for two files in an empty
    directory, where it applies. *)
Lemma download_directory_complete_witness :
  ∃ l', download_directory demo_env (demo_downloader "s3://bkt/models/opt/") demo_path demo_bucket demo_disk = (Ret tt, l') ∧
    stored demo_path Src_S3 "models/opt/config.json" (mkObject "e1" "{}") l'.
Proof.
  destruct (download_directory_complete demo_env demo_content (demo_downloader "s3://bkt/models/opt/") demo_path demo_bucket demo_disk)
    as (ks & truncated & l' & Hl & Hr & _ & Hst); [apply demo_honest|apply demo_plain|apply demo_tidy|].
  exists l'. split; [exact Hr|]. apply Hst; [vm_compute; reflexivity| |vm_compute; reflexivity..].
  right. vm_compute in Hl. injection Hl as <- <-. split; vm_compute; reflexivity.
Defined.

(** The hypotheses of [repeated_download_idle] hold for the same download. *)
Lemma repeated_download_idle_witness :
  ∃ l', download_directory demo_env (demo_downloader "s3://bkt/models/opt/") demo_path demo_bucket demo_disk = (Ret tt, l') ∧
    download_directory demo_env (demo_downloader "s3://bkt/models/opt/") demo_path demo_bucket l' = (Ret tt, l').
Proof.
  apply (repeated_download_idle demo_env demo_content); [apply demo_honest|apply demo_plain|apply demo_tidy|done|done|].
  intros k o H. by_bucket (λ (_ : string) (o : object), bool_decide (o_etag o ≠ EmptyString ∧ o_content o ≠ EmptyString)) demo_bucket H.
Defined.

(** The hypotheses of [partial_download_reported] hold after the first of the two
    files. *)
Lemma partial_download_reported_witness :
  ∃ l' k, download demo_env (demo_downloader "s3://bkt/models/opt/") demo_path "models/opt/weights.bin" demo_bucket demo_disk = (Ret tt, l') ∧
    model_download demo_env false "s3://bkt/models/opt/" None (Some "/models") demo_config demo_bucket l' = Card "opt" DOWNLOADED false ∧
    files l' !! (demo_path.1, demo_path.2 ++ [base_name k]) = None.
Proof.
  destruct (partial_download_reported demo_env demo_content false "s3://bkt/models/opt/" None "/models" demo_config demo_bucket
              (demo_downloader "s3://bkt/models/opt/") demo_disk ["models/opt/weights.bin"] ["models/opt/config.json"])
    as (l' & Hr & Ha & Hmiss);
    [reflexivity|done|apply demo_honest|apply demo_plain|apply demo_tidy|vm_compute; reflexivity|done|vm_compute; reflexivity|].
  exists l', "models/opt/config.json". split_and!; [|exact Ha|apply Hmiss; set_solver].
  cbn [for_each] in Hr. unfold bind in Hr. destruct (download _ _ _ _ _ _) as [[[]| |] ?]; simplify_eq/=; done.
Defined.

(** The hypotheses of [directory_without_slash_empty] hold for the same model named
    without its slash. *)
Lemma directory_without_slash_empty_witness :
  download_model demo_env (λ _, ret tt) (demo_downloader "s3://bkt/models/opt") (Some "/models") demo_bucket demo_disk =
    (Ret demo_path, mkdir demo_path demo_disk) ∧
  model_download demo_env false "s3://bkt/models/opt" None (Some "/models") demo_config demo_bucket (mkdir demo_path demo_disk) =
    Card "opt" DOWNLOADED false.
Proof.
  apply (directory_without_slash_empty demo_env (λ _, ret tt) false "s3://bkt/models/opt" None "/models" demo_config
           demo_bucket (demo_downloader "s3://bkt/models/opt") demo_disk); [reflexivity|done|done|reflexivity| |].
  - intros k [o H]. by_bucket (λ (k : string) (_ : object), bool_decide (String.prefix "models/opt/" k = true)) demo_bucket H.
  - apply (demo_tidy _ _ demo_content).
Defined.

(** A bucket of 1001 files in one directory, named [x], [xx], ... *)
Definition xs (i : nat) : string := Nat.iter i (String "x") EmptyString.

Definition large_bucket : bucket :=
  list_to_map ((λ i : nat, ("models/opt/" +:+ xs i, mkObject "e2" "0110")) <$> seq 1 1001).

Lemma xs_no_slash i : no_slash (xs i) = true.
Proof. induction i as [|i IH]; [done|]. exact IH. Qed.

Lemma xs_length i : String.length (xs i) = i.
Proof. induction i as [|i IH]; [done|]. simpl. by rewrite IH. Qed.

Lemma large_lookup k o : large_bucket !! k = Some o → ∃ i, k = "models/opt/" +:+ xs i ∧ o = mkObject "e2" "0110".
Proof.
  intros (i & H & _)%elem_of_list_to_map_2%list_elem_of_fmap. exists i. by injection H as -> ->.
Qed.

Lemma large_children : (1000 < size (children (demo_downloader "s3://bkt/models/opt/") large_bucket))%nat.
Proof.
  set (ks := (λ i, "models/opt/" +:+ xs i) <$> seq 1 1001).
  assert (length ks = 1001%nat) as Hlen by (unfold ks; by rewrite length_fmap, length_seq).
  assert (NoDup ks) as Hnd.
  { apply NoDup_fmap_2_strong; [|apply NoDup_seq].
    intros i j _ _ H%append_inj_l%(f_equal String.length). by rewrite !xs_length in H. }
  enough (1001 ≤ size (children (demo_downloader "s3://bkt/models/opt/") large_bucket))%nat by lia.
  rewrite <-Hlen, <-(size_list_to_set (C:=gset string) ks Hnd). apply subseteq_size. intros k.
  rewrite elem_of_list_to_set. unfold ks. intros (i & -> & Hi)%list_elem_of_fmap. unfold children.
  apply elem_of_filter. split; [apply listed_spec; exists (xs i); split; [done|apply xs_no_slash]|].
  apply elem_of_dom. unfold objects, demo_client, large_bucket. apply not_eq_None_Some. rewrite <-not_elem_of_list_to_map.
  intros Hnot. apply Hnot. rewrite <-list_fmap_compose. apply list_elem_of_fmap. by exists i.
Qed.

(** The hypotheses of [second_page_lost] hold for that bucket. *)
Lemma second_page_lost_witness :
  ∃ l' k, download_directory demo_env (demo_downloader "s3://bkt/models/opt/") demo_path large_bucket demo_disk = (Ret tt, l') ∧
    k ∈ children (demo_downloader "s3://bkt/models/opt/") large_bucket ∧
    files l' !! (demo_path.1, demo_path.2 ++ [base_name k]) = None.
Proof.
  apply (second_page_lost demo_env demo_content); [| |apply demo_tidy|apply large_children|done].
  - by intros k o (i & -> & ->)%large_lookup.
  - intros k [o (i & -> & ->)%large_lookup]. split; [done|]. rewrite base_name_app by apply xs_no_slash. by destruct i.
Defined.

End demo.
