(* ===== verification/PodRegistry.v ===== *)
(** * The pod registry

    Models the part of [routing_agent_service/agent_codes/utils.py] that finds pod
    addresses in log text, gives every pod a stable id, and replaces the addresses
    by the ids, with its two uses in routing_agent_service.py ([handle_infer] and
    [handle_flush]).

    A dictionary is its list of entries in insertion order. A set of addresses is a
    [gset]; whatever order Python iterates it in, the code sorts before the order
    matters. The regular expressions are matchers on ASCII text: between two dots the
    digits are a maximal run, so that greedy matching without backtracking gives the
    same matches. [json.loads] is a parameter. *)

From stdpp Require Import sorting pretty.
From Stdlib Require Import Ascii.
From S2P Require Import Prelude.

Open Scope Z_scope.
Open Scope py_scope.

Abbreviation dict A := (list (string * A)).

(** ** Addresses in text *)

Definition is_digit (c : ascii) : bool := (N.leb 48 (N_of_ascii c) && N.leb (N_of_ascii c) 57)%N.

(** [\w] *)
Definition is_word (c : ascii) : bool :=
  let n := N_of_ascii c in
  is_digit c || (N.leb 65 n && N.leb n 90) || (N.leb 97 n && N.leb n 122) || N.eqb n 95.

(** [\d{1,n}], as many as there are *)
Fixpoint take_digits (n : nat) (s : string) : string * string :=
  match n, s with
  | S n', String c s' =>
    if is_digit c then let '(ds, rest) := take_digits n' s' in (String c ds, rest) else (EmptyString, s)
  | _, _ => (EmptyString, s)
  end.

Definition octet (s : string) : option (string * string) :=
  match take_digits 3 s with
  | (EmptyString, _) => None
  | (ds, rest) => Some (ds, rest)
  end.

Definition dot : ascii := "."%char.

(** [n] more octets, each after a dot *)
Fixpoint dotted (n : nat) (s : string) : option (string * string) :=
  match n with
  | O => Some (EmptyString, s)
  | S n' =>
    match s with
    | String c s' =>
      if Ascii.eqb c dot then
        match octet s' with
        | Some (ds, r) =>
          match dotted n' r with
          | Some (t, r') => Some (String dot (ds +:+ t), r')
          | None => None
          end
        | None => None
        end
      else None
    | EmptyString => None
    end
  end.

(** [\d{1,3}\.\d{1,3}\.\d{1,3}\.\d{1,3}] at the start of a text: the match and the rest *)
Definition match_ip (s : string) : option (string * string) :=
  match octet s with
  | Some (ds, r) =>
    match dotted 3 r with
    | Some (t, r') => Some (ds +:+ t, r')
    | None => None
    end
  | None => None
  end.

(** A pattern at a position: the character before it and the text from there give the
    captured group and the length of the match. *)
Definition pattern := option ascii → string → option (string * nat).

Fixpoint strip_prefix (p s : string) : option string :=
  match p, s with
  | EmptyString, _ => Some s
  | String a p', String b s' => if Ascii.eqb a b then strip_prefix p' s' else None
  | _, _ => None
  end.

(** [before(IP)after] *)
Definition between (before after : string) : pattern := λ _ s,
  match strip_prefix before s with
  | None => None
  | Some s1 =>
    match match_ip s1 with
    | None => None
    | Some (ip, s2) =>
      match strip_prefix after s2 with
      | Some s3 => Some (ip, String.length s - String.length s3)%nat
      | None => None
      end
    end
  end.

Definition quote : string := String (ascii_of_nat 34) EmptyString.

Definition selectedpod_pattern : pattern := between "selectedpod@" "@".
Definition json_ip_pattern : pattern := between quote (quote +:+ ":").

(** [\b(IP)\b] *)
Definition general_ip_pattern : pattern := λ prev s,
  if (match prev with Some c => is_word c | None => false end) then None
  else
    match match_ip s with
    | Some (ip, rest) =>
      match rest with
      | String c _ => if is_word c then None else Some (ip, String.length ip)
      | EmptyString => Some (ip, String.length ip)
      end
    | None => None
    end.

(** [re.findall]: from left to right, going on behind each match *)
Fixpoint findall (m : pattern) (prev : option ascii) (skip : nat) (s : string) : list string :=
  match s with
  | EmptyString => []
  | String c s' =>
    match skip with
    | S k => findall m (Some c) k s'
    | O =>
      match m prev s with
      | Some (x, n) => x :: findall m (Some c) (n - 1) s'
      | None => findall m (Some c) 0 s'
      end
    end
  end.

Fixpoint digits_value (acc : N) (s : string) : N :=
  match s with
  | EmptyString => acc
  | String c s' => digits_value (acc * 10 + (N_of_ascii c - 48)) s'
  end.

(** [ip.split('.')] of a text of digits and dots *)
Fixpoint split_dots (s : string) : list string :=
  match s with
  | EmptyString => [EmptyString]
  | String c s' =>
    if Ascii.eqb c dot then EmptyString :: split_dots s'
    else match split_dots s' with
         | x :: xs => String c x :: xs
         | [] => [String c EmptyString]
         end
  end.

Definition is_digits (s : string) : bool :=
  negb (String.eqb s EmptyString) && forallb is_digit (String.list_ascii_of_string s).

Definition valid_ip (ip : string) : bool :=
  let parts := split_dots ip in
  (length parts =? 4)%nat &&
  forallb (λ p, negb (is_digits p) || N.leb (digits_value 0 p) 255) parts.

Definition extract_pod_ips_from_content (content : string) : gset string :=
  let pod_ips := findall selectedpod_pattern None 0 content ++ findall json_ip_pattern None 0 content ++
                 List.filter (String.prefix "10.") (findall general_ip_pattern None 0 content) in
  list_to_set (List.filter valid_ip pod_ips).

(** ** The registry *)

Definition GPU_MODEL_TO_ENCODE : dict Z :=
  [("NVIDIA-L20", 0); ("NVIDIA-A10", 1); ("NVIDIA-A30", 2); ("GPU-L3c", 3); ("NVIDIA-A100", 4); ("NVIDIA-H100", 5);
   ("NVIDIA-L4", 6); ("NVIDIA-L40", 7); ("NVIDIA-L40S", 8); ("NVIDIA-T4", 9); ("Tesla-V100", 10)].

Definition known_gpu (gm : string) : bool := match assoc gm GPU_MODEL_TO_ENCODE with Some _ => true | None => false end.

(** The eight entries of the hyperparameters that are keyed by pods *)
Record views := mkViews {
  hp_pod_ip_to_generalpodid : dict string;
  hp_generalpodid_to_pod_ip : dict string;
  hp_sorted_running_pod_ips : list string;
  hp_pod_ip_to_gpu_model : dict string;
  hp_pod_ip_to_gpu_model_encoded : dict Z;
  hp_generalpodid_to_gpu_model : dict string;
  hp_pod_gpu_mapping : dict string;
  hp_pod_gpu_id_mapping : dict Z
}.

Record registry := mkRegistry {
  pod_ip_to_generalpodid : dict string;
  pod_ip_to_gpu_model : dict string;
  hyperparameters : option views
}.

Definition new_registry : registry := mkRegistry [] [] None.

Definition sorted (l : list string) : list string := merge_sort String.le l.

Definition format_generalpodid (idx : nat) : outcome string :=
  if (idx <? 10)%nat then Ret ("pod_000" +:+ pretty (N.of_nat idx))
  else if (idx <? 100)%nat then Ret ("pod_00" +:+ pretty (N.of_nat idx))
  else if (idx <? 1000)%nat then Ret ("pod_0" +:+ pretty (N.of_nat idx))
  else Raise AssertionError.

(** The models of a payload are texts. *)
Definition resolve_gpu_model (pod_ip : string) (gpu_map : dict string) (fallback : string) : string :=
  match assoc pod_ip gpu_map with
  | Some gm => if negb (String.eqb gm EmptyString) && known_gpu gm then gm else fallback
  | None => fallback
  end.

(** [d[k]] *)
Definition dict_get {A} (d : dict A) (k : string) : outcome A :=
  match assoc k d with Some v => Ret v | None => Raise KeyError end.

(** A dictionary display: later entries replace earlier ones. *)
Definition dict_of {A} (l : dict A) : dict A := assoc_update [] l.

Definition refresh_hyperparameter_views (r : registry) : outcome views :=
  let ip_to_id := pod_ip_to_generalpodid r in
  let id_to_ip := dict_of ((λ e, (e.2, e.1)) <$> ip_to_id) in
  let ip_to_gpu := pod_ip_to_gpu_model r in
  try* encoded := omapM (λ e, try* c := dict_get GPU_MODEL_TO_ENCODE e.2 in Ret (e.1, c)) ip_to_gpu in
  try* id_to_gpu := omapM (λ e, try* pid := dict_get ip_to_id e.1 in Ret (pid, e.2)) ip_to_gpu in
  let id_to_gpu := dict_of id_to_gpu in
  try* gpu_ids := omapM (λ e, try* c := dict_get GPU_MODEL_TO_ENCODE e.2 in Ret (e.1, c)) id_to_gpu in
  Ret (mkViews ip_to_id id_to_ip (sorted ip_to_id.*1) ip_to_gpu encoded id_to_gpu id_to_gpu gpu_ids).

(** The fallback model: the argument, or [TARGET_GPU_MODEL] of the environment *)
Definition fallback_gpu_model (arg env : option string) : string :=
  let f := match arg with
           | Some f => f
           | None => let f := default "NVIDIA-A30" env in if String.eqb f "hetero" then "NVIDIA-A30" else f
           end in
  if known_gpu f then f else "NVIDIA-A30".

(** One turn of the loop; whether the address is new. *)
Definition register_one (gpu_map : dict string) (fallback ip : string) : M registry bool :=
  let* r := get in
  match assoc ip (pod_ip_to_generalpodid r) with
  | Some _ => ret false
  | None =>
    let* new_id := lift (format_generalpodid (length (pod_ip_to_generalpodid r))) in
    modify (λ r, mkRegistry (assoc_set ip new_id (pod_ip_to_generalpodid r))
                   (assoc_set ip (resolve_gpu_model ip gpu_map fallback) (pod_ip_to_gpu_model r)) (hyperparameters r)) ;;
    ret true
  end.

Fixpoint register_loop (gpu_map : dict string) (fallback : string) (ips : list string) : M registry bool :=
  match ips with
  | [] => ret false
  | ip :: ips' =>
    let* a := register_one gpu_map fallback ip in
    let* b := register_loop gpu_map fallback ips' in
    ret (a || b)
  end.

Definition register_pod_ips (pod_ips : list string) (gpu_map : dict string) (arg env : option string) : M registry (dict string) :=
  let* new_ips := register_loop gpu_map (fallback_gpu_model arg env) (sorted pod_ips) in
  (if new_ips : bool then
     let* r := get in
     let* v := lift (refresh_hyperparameter_views r) in
     modify (λ r, mkRegistry (pod_ip_to_generalpodid r) (pod_ip_to_gpu_model r) (Some v))
   else ret tt) ;;
  gets pod_ip_to_generalpodid.

Fixpoint enumerate_ids (idx : nat) (ips : list string) : outcome (dict string) :=
  match ips with
  | [] => Ret []
  | ip :: ips' =>
    try* pid := format_generalpodid idx in
    try* rest := enumerate_ids (S idx) ips' in
    Ret ((ip, pid) :: rest)
  end.

(** The branches are those of [_format_generalpodid]. *)
Definition create_pod_ip_to_generalpodid_mapping (unique_pod_ips : list string) : outcome (dict string) :=
  try* entries := enumerate_ids 0 (sorted unique_pod_ips) in
  Ret (dict_of entries).

(** ** Replacing addresses *)

(** The first address of the table that the text starts with *)
Fixpoint first_match (table : dict string) (s : string) : option (string * string) :=
  match table with
  | [] => None
  | (ip, pid) :: table' => if String.prefix ip s then Some (ip, pid) else first_match table' s
  end.

(** [pattern.sub(lambda m: table[m.group(0)], content)] *)
Fixpoint sub_all (table : dict string) (skip : nat) (s : string) : string :=
  match s with
  | EmptyString => EmptyString
  | String c s' =>
    match skip with
    | S k => sub_all table k s'
    | O =>
      match first_match table s with
      | Some (ip, pid) => pid +:+ sub_all table (String.length ip - 1) s'
      | None => String c (sub_all table 0 s')
      end
    end
  end.

(** [sort(key=len, reverse=True)] *)
Definition longer (a b : string * string) : Prop := (String.length b.1 ≤ String.length a.1)%nat.

#[export] Instance longer_dec a b : Decision (longer a b).
Proof. unfold longer. apply _. Defined.

#[export] Instance longer_trans : Transitive longer.
Proof. unfold longer. intros a b c. lia. Qed.

#[export] Instance longer_total : Total longer.
Proof. unfold longer. intros a b. lia. Qed.

Definition by_length (table : dict string) : dict string := merge_sort longer table.

(** [@GPU@(\{[^@]*\})]: the text up to the last closing brace before the next [@] *)
Fixpoint up_to_brace (s : string) : option string :=
  match s with
  | EmptyString => None
  | String c s' =>
    if Ascii.eqb c "@"%char then None
    else match up_to_brace s' with
         | Some t => Some (String c t)
         | None => if Ascii.eqb c "}"%char then Some (String c EmptyString) else None
         end
  end.

Fixpoint search_gpu (s : string) : option string :=
  match s with
  | EmptyString => None
  | String _ s' =>
    match strip_prefix "@GPU@{" s with
    | Some t =>
      match up_to_brace t with
      | Some b => Some ("{" +:+ b)
      | None => search_gpu s'
      end
    | None => search_gpu s'
    end
  end.

Section replace.
(** [json.loads] of a text in braces: a dictionary, or [None] when it raises. *)
Context (json_loads : string → option (dict string)).

Definition extract_gpu_map_from_log_message (content : string) : dict string :=
  match search_gpu content with
  | None => []
  | Some t => default [] (json_loads t)
  end.

(** The branch of a log message that has the hyperparameters *)
Definition replace_in_message (env : option string) (content : string) : M registry string :=
  let pod_ips := extract_pod_ips_from_content content in
  if bool_decide (pod_ips = ∅) then raise AssertionError
  else
    let* mapping := register_pod_ips (elements pod_ips) (extract_gpu_map_from_log_message content) None env in
    let replaceable := omap (λ ip, (λ pid, (ip, pid)) <$> assoc ip mapping) (elements pod_ips) in
    match replaceable with
    | [] => ret content
    | _ => ret (sub_all (by_length replaceable) 0 content)
    end.

(** The branch of a file: the text written to the new file *)
Definition replace_in_file (content : string) : outcome string :=
  let pod_ips := sorted (elements (extract_pod_ips_from_content content)) in
  match pod_ips with
  | [] => Raise ValueError
  | _ =>
    try* mapping := create_pod_ip_to_generalpodid_mapping pod_ips in
    Ret (sub_all (by_length mapping) 0 content)
  end.

End replace.

(** ** Lemmas: dictionaries and ids *)

Lemma dict_of_new {A} (l : dict A) : NoDup l.*1 → dict_of l = l.
Proof. apply assoc_update_nil. Qed.

Definition pod_name (idx : nat) : string := match format_generalpodid idx with Ret s => s | _ => EmptyString end.

Lemma format_ok idx : (idx < 1000)%nat → format_generalpodid idx = Ret (pod_name idx).
Proof.
  intros H. unfold pod_name, format_generalpodid.
  destruct (idx <? 10)%nat, (idx <? 100)%nat; try done. by apply Nat.ltb_lt in H as ->.
Qed.

Lemma format_overflow idx : (1000 ≤ idx)%nat → format_generalpodid idx = Raise AssertionError.
Proof. intros H. unfold format_generalpodid. by rewrite !(proj2 (Nat.ltb_ge _ _)) by lia. Qed.

(** The number of a pod can be read off its id. *)
Definition pod_number (s : string) : nat := N.to_nat (digits_value 0 (String.substring 4 4 s)).

Lemma pod_number_name idx : (idx < 1000)%nat → pod_number (pod_name idx) = idx.
Proof.
  intros H. apply Nat.eqb_eq. revert idx H.
  assert (forallb (λ i, pod_number (pod_name i) =? i)%nat (seq 0 1000) = true) as Hall by (vm_compute; reflexivity).
  rewrite forallb_forall in Hall. intros idx H. apply Hall, in_seq. lia.
Qed.

Definition pod_names (n : nat) : list string := pod_name <$> seq 0 n.

Lemma pod_names_NoDup n : (n ≤ 1000)%nat → NoDup (pod_names n).
Proof.
  intros Hn. apply NoDup_fmap_2_strong; [|apply NoDup_seq].
  intros i j Hi%elem_of_seq Hj%elem_of_seq H%(f_equal pod_number). by rewrite !pod_number_name in H by lia.
Qed.

Lemma pod_names_S n : pod_names (S n) = pod_names n ++ [pod_name n].
Proof. unfold pod_names. by rewrite seq_S, fmap_app. Qed.

(** ** Lemmas: the registry *)

(** The addresses get the ids in the order of their registration, and a known GPU. *)
Definition well_formed (r : registry) : Prop :=
  let d := pod_ip_to_generalpodid r in
  NoDup d.*1 ∧ d.*2 = pod_names (length d) ∧ (length d ≤ 1000)%nat ∧
  (pod_ip_to_gpu_model r).*1 = d.*1 ∧ Forall (λ e, known_gpu e.2 = true) (pod_ip_to_gpu_model r).

Lemma resolve_known ip gpu_map fallback : known_gpu fallback = true → known_gpu (resolve_gpu_model ip gpu_map fallback) = true.
Proof.
  intros Hf. unfold resolve_gpu_model. destruct (assoc _ _); [|done]. destruct (_ && _) eqn:H; [|done].
  by apply andb_true_iff in H as [_ ?].
Qed.

Lemma fallback_known arg env : known_gpu (fallback_gpu_model arg env) = true.
Proof. unfold fallback_gpu_model. case_match eqn:H; [exact H|done]. Qed.

Lemma register_one_spec gpu_map fallback ip r :
  known_gpu fallback = true → well_formed r →
  let d := pod_ip_to_generalpodid r in
  ((ip ∈ d.*1) ∧ register_one gpu_map fallback ip r = (Ret false, r)) ∨
  ((ip ∉ d.*1) ∧ length d = 1000%nat ∧ register_one gpu_map fallback ip r = (Raise AssertionError, r)) ∨
  ((ip ∉ d.*1) ∧ ∃ r', register_one gpu_map fallback ip r = (Ret true, r') ∧ well_formed r' ∧
     pod_ip_to_generalpodid r' = d ++ [(ip, pod_name (length d))] ∧
     pod_ip_to_gpu_model r' = pod_ip_to_gpu_model r ++ [(ip, resolve_gpu_model ip gpu_map fallback)] ∧
     hyperparameters r' = hyperparameters r).
Proof.
  intros Hf (Hnd & Hids & Hlen & Hgk & Hgv) d. fold d in Hnd, Hids, Hlen, Hgk.
  unfold register_one. rewrite bind_get. fold d. destruct (decide (ip ∈ d.*1)) as [Hin|Hin].
  { left. destruct (assoc_Some _ _ Hin) as [v ->]. done. }
  right. rewrite (assoc_None _ _ Hin). destruct (decide (length d = 1000%nat)) as [Hfull|Hfull].
  { left. by rewrite format_overflow by lia. }
  right. split; [done|]. rewrite format_ok by lia. eexists. split; [reflexivity|]. fold d.
  rewrite (assoc_set_new ip (pod_name _) d) by by apply assoc_None.
  rewrite (assoc_set_new ip _ (pod_ip_to_gpu_model r)) by (apply assoc_None; by rewrite Hgk).
  split_and!; try done. unfold well_formed. simpl. rewrite !fmap_app, length_app. simpl. rewrite Nat.add_comm. simpl.
  split_and!; [|by rewrite pod_names_S, Hids|lia|by rewrite Hgk|].
  - apply NoDup_app. split_and!; [done| |apply NoDup_singleton]. by intros x Hx ->%list_elem_of_singleton.
  - apply Forall_app. split; [done|]. repeat constructor. by apply resolve_known.
Qed.

(** A later registry: the entries are still there, in their places. *)
Definition extends (r r' : registry) : Prop :=
  pod_ip_to_generalpodid r `prefix_of` pod_ip_to_generalpodid r' ∧ pod_ip_to_gpu_model r `prefix_of` pod_ip_to_gpu_model r'.

#[export] Instance extends_preorder : PreOrder extends.
Proof. split; [by split|]. intros a b c [] []. split; by etrans. Qed.

Lemma register_loop_spec gpu_map fallback ips r :
  known_gpu fallback = true → well_formed r →
  ∃ o r', register_loop gpu_map fallback ips r = (o, r') ∧ well_formed r' ∧ extends r r' ∧
    hyperparameters r' = hyperparameters r ∧
    ((o = Ret (negb (length (pod_ip_to_generalpodid r') =? length (pod_ip_to_generalpodid r))%nat) ∧
      ∀ ip, ip ∈ ips → ip ∈ (pod_ip_to_generalpodid r').*1) ∨
     (o = Raise AssertionError ∧ length (pod_ip_to_generalpodid r') = 1000%nat)).
Proof.
  intros Hf. revert r. induction ips as [|ip ips IH]; intros r Hr.
  { exists (Ret false), r. split_and!; [done..|]. left. rewrite Nat.eqb_refl. split; [done|]. by intros ? ?%not_elem_of_nil. }
  cbn [register_loop]. destruct (register_one_spec gpu_map fallback ip r Hf Hr) as [[Hin H1]|[(Hin & Hfull & H1)|(Hin & r1 & H1 & Hr1 & Hd1 & Hg1 & Hh1)]].
  - rewrite (bind_Ret _ _ _ _ _ H1). destruct (IH r Hr) as (o & r' & Hl & Hw & Hx & Hh & Ho).
    unfold bind. rewrite Hl. destruct Ho as [[-> Hips]|[-> Hlen]].
    + eexists _, r'. split_and!; [done..|]. left. split; [done|]. intros x [->|Hx']%elem_of_cons; [|by apply Hips].
      destruct Hx as [[k Hk] _]. rewrite Hk, fmap_app. apply elem_of_app. by left.
    + exists (Raise AssertionError), r'. split_and!; [done..|]. by right.
  - exists (Raise AssertionError), r. unfold bind. rewrite H1. split_and!; [done..|]. by right.
  - rewrite (bind_Ret _ _ _ _ _ H1). destruct (IH r1 Hr1) as (o & r' & Hl & Hw & Hx & Hh & Ho).
    assert (extends r r1) as Hx1 by (split; [rewrite Hd1|rewrite Hg1]; by eexists).
    assert (length (pod_ip_to_generalpodid r) < length (pod_ip_to_generalpodid r'))%nat as Hlt.
    { destruct Hx as [[k Hk] _]. rewrite Hk, Hd1, !length_app. simpl. lia. }
    unfold bind. rewrite Hl. destruct Ho as [[-> Hips]|[-> Hlen]].
    + exists (Ret true), r'. split_and!; [done|done|by etrans|congruence|]. left.
      rewrite (proj2 (Nat.eqb_neq _ _)) by lia. split; [done|]. intros x [->|Hx']%elem_of_cons; [|by apply Hips].
      destruct Hx as [[k Hk] _]. rewrite Hk, Hd1, !fmap_app. csimpl. set_solver.
    + exists (Raise AssertionError), r'. split_and!; [done|done|by etrans|congruence|]. by right.
Qed.

Lemma dict_get_known gm : known_gpu gm = true → ∃ c, dict_get GPU_MODEL_TO_ENCODE gm = Ret c.
Proof. unfold known_gpu, dict_get. destruct (assoc _ _) as [c|]; [by exists c|done]. Qed.

(** The views of a registry: the two dictionaries are inverse to each other, and the
    tables of the GPUs have the entries of the registry. *)
Definition views_agree (r : registry) (v : views) : Prop :=
  let d := pod_ip_to_generalpodid r in
  hp_pod_ip_to_generalpodid v = d ∧ hp_pod_ip_to_gpu_model v = pod_ip_to_gpu_model r ∧
  (∀ ip pid, assoc ip d = Some pid ↔ assoc pid (hp_generalpodid_to_pod_ip v) = Some ip) ∧
  hp_sorted_running_pod_ips v ≡ₚ d.*1 ∧ StronglySorted String.le (hp_sorted_running_pod_ips v) ∧
  (∀ ip pid gm, assoc ip d = Some pid → assoc ip (pod_ip_to_gpu_model r) = Some gm →
     assoc pid (hp_generalpodid_to_gpu_model v) = Some gm ∧ assoc pid (hp_pod_gpu_mapping v) = Some gm ∧
     assoc ip (hp_pod_ip_to_gpu_model_encoded v) = assoc gm GPU_MODEL_TO_ENCODE ∧
     assoc pid (hp_pod_gpu_id_mapping v) = assoc gm GPU_MODEL_TO_ENCODE) ∧
  (hp_pod_gpu_id_mapping v).*1 = d.*2.

(** Encoding the values of a dictionary. *)
Lemma encode_values (l : dict string) :
  Forall (λ e, known_gpu e.2 = true) l →
  ∃ ys, omapM (λ e, try* c := dict_get GPU_MODEL_TO_ENCODE e.2 in Ret (e.1, c)) l = Ret ys ∧
    ys.*1 = l.*1 ∧ ∀ k gm, assoc k l = Some gm → assoc k ys = assoc gm GPU_MODEL_TO_ENCODE.
Proof.
  induction 1 as [|[k gm] l Hk _ (ys & IH & Hkeys & Hys)]; [by exists []|]. destruct (dict_get_known _ Hk) as [c Hc].
  exists ((k, c) :: ys). cbn [omapM]. rewrite Hc. cbn [obind]. rewrite IH. split; [done|]. split; [csimpl; by rewrite Hkeys|].
  intros k' gm'. cbn [assoc]. case_decide; [intros [= <-]|apply Hys].
  unfold dict_get in Hc. cbn [snd] in Hc. destruct (assoc gm GPU_MODEL_TO_ENCODE); congruence.
Qed.

Lemma assoc_iff {A} (d : dict A) k v : NoDup d.*1 → assoc k d = Some v ↔ (k, v) ∈ d.
Proof. intros Hnd. split; [apply assoc_elem|by apply assoc_elem_of]. Qed.

Lemma swap_iff (d : dict string) ip pid :
  NoDup d.*1 → NoDup d.*2 → assoc ip d = Some pid ↔ assoc pid ((λ e, (e.2, e.1)) <$> d) = Some ip.
Proof.
  intros H1 H2. rewrite !assoc_iff; [|rewrite <-list_fmap_compose; exact H2|done]. rewrite list_elem_of_fmap. split.
  - intros H. by exists (ip, pid).
  - by intros ([] & [= -> ->] & H).
Qed.

Lemma assoc_values {A} (x : A) (d : dict A) : NoDup d.*1 → (λ k, default x (assoc k d)) <$> d.*1 = d.*2.
Proof.
  induction d as [|[k v] d IH]; csimpl; [done|]. intros [Hk Hd]%NoDup_cons. rewrite decide_True by done. f_equal.
  rewrite <-(IH Hd). apply list_fmap_ext. intros i k' Hk'%list_elem_of_lookup_2. rewrite decide_False; [done|]. by intros ->.
Qed.

(** The models of the ids. *)
Lemma models_of_ids (d g : dict string) :
  NoDup d.*1 → NoDup d.*2 → g.*1 = d.*1 → Forall (λ e, known_gpu e.2 = true) g →
  ∃ ys, omapM (λ e, try* pid := dict_get d e.1 in Ret (pid, e.2)) g = Ret ys ∧ ys.*1 = d.*2 ∧
    Forall (λ e, known_gpu e.2 = true) ys ∧
    ∀ ip pid gm, assoc ip d = Some pid → assoc ip g = Some gm → assoc pid ys = Some gm.
Proof.
  intros H1 H2 Hk Hg. set (f := λ e : string * string, (default EmptyString (assoc e.1 d), e.2)).
  assert (NoDup g.*1) as Hgn by by rewrite Hk.
  assert ((f <$> g).*1 = d.*2) as Hkeys.
  { rewrite <-(assoc_values EmptyString d H1), <-Hk, <-!list_fmap_compose. done. }
  exists (f <$> g). split_and!; [|done|by apply Forall_fmap|].
  - apply omapM_Ret, Forall_forall. intros e He. destruct (assoc_Some e.1 d) as [pid Hpid].
    { rewrite <-Hk. by apply list_elem_of_fmap_2. }
    unfold f, dict_get. by rewrite Hpid.
  - intros ip pid gm Hip Hgm%assoc_elem. apply assoc_elem_of; [by rewrite Hkeys|].
    apply list_elem_of_fmap. exists (ip, gm). unfold f. simpl. by rewrite Hip.
Qed.

Lemma refresh_agrees r : well_formed r → ∃ v, refresh_hyperparameter_views r = Ret v ∧ views_agree r v.
Proof.
  intros (Hnd & Hids & Hlen & Hgk & Hgv). unfold refresh_hyperparameter_views.
  assert (NoDup (pod_ip_to_generalpodid r).*2) as Hnd2 by (rewrite Hids; by apply pod_names_NoDup).
  destruct (encode_values _ Hgv) as (es & -> & _ & Hes). cbn [obind].
  destruct (models_of_ids _ _ Hnd Hnd2 Hgk Hgv) as (ms & -> & Hmn & Hmk & Hms). cbn [obind].
  rewrite (dict_of_new ms) by (by rewrite Hmn). destruct (encode_values _ Hmk) as (cs & -> & Hck & Hcs). cbn [obind].
  eexists. split; [reflexivity|]. unfold views_agree. simpl.
  split_and!; [done|done| |apply merge_sort_Permutation|apply (StronglySorted_merge_sort _)| |by rewrite Hck].
  - intros ip pid. rewrite dict_of_new by by rewrite <-list_fmap_compose. by apply swap_iff.
  - intros ip pid gm Hip Hgm. pose proof (Hms _ _ _ Hip Hgm) as Hpid. split_and!; [done|done|by apply Hes|by apply Hcs].
Qed.

(** The code of a pod's GPU stays what it was when more pods are registered. *)
Lemma gpu_ids_extend r r' v v' pid z :
  well_formed r → well_formed r' → extends r r' → views_agree r v → views_agree r' v' →
  assoc pid (hp_pod_gpu_id_mapping v) = Some z → assoc pid (hp_pod_gpu_id_mapping v') = Some z.
Proof.
  intros (Hnd & Hids & Hlen & Hgk & _) (Hnd' & _ & _ & Hgk' & _) [[k Hk] [g Hg]] (_ & _ & _ & _ & _ & Hm & Hkeys) (_ & _ & _ & _ & _ & Hm' & _) Hz.
  assert (NoDup (pod_ip_to_generalpodid r).*2) as Hnd2 by (rewrite Hids; by apply pod_names_NoDup).
  assert (pid ∈ (pod_ip_to_generalpodid r).*2) as Hin.
  { rewrite <-Hkeys. apply assoc_elem in Hz. apply list_elem_of_fmap. by exists (pid, z). }
  apply list_elem_of_fmap in Hin as ([ip pid'] & -> & Hin). assert (assoc ip (pod_ip_to_generalpodid r) = Some pid') as Hip by by apply assoc_elem_of.
  destruct (assoc_Some ip (pod_ip_to_gpu_model r)) as [gm Hgm].
  { rewrite Hgk. apply list_elem_of_fmap. by exists (ip, pid'). }
  destruct (Hm ip pid' gm Hip Hgm) as (_ & _ & _ & H). simpl in *. rewrite H in Hz.
  destruct (Hm' ip pid' gm) as (_ & _ & _ & H').
  - rewrite Hk, assoc_app. by rewrite Hip.
  - rewrite Hg, assoc_app. by rewrite Hgm.
  - by rewrite H'.
Qed.

(** The entries of the hyperparameters describe the registry. *)
Definition current (r : registry) : Prop :=
  match hyperparameters r with None => pod_ip_to_generalpodid r = [] | Some v => views_agree r v end.

Definition registry_inv (r : registry) : Prop :=
  well_formed r ∧ ((length (pod_ip_to_generalpodid r) < 1000)%nat → current r).

Lemma extends_same r r' : well_formed r' → extends r r' →
  length (pod_ip_to_generalpodid r') = length (pod_ip_to_generalpodid r) → hyperparameters r' = hyperparameters r →
  well_formed r → r' = r.
Proof.
  intros Hw' [[k Hk] [g Hg]] Hlen Hh Hw. destruct r as [d m h], r' as [d' m' h']; simpl in *. subst.
  rewrite length_app in Hlen. assert (k = []) as -> by (destruct k; simpl in *; [done|lia]).
  destruct Hw as (_ & _ & _ & Hgk & _), Hw' as (_ & _ & _ & Hgk' & _). simpl in *.
  rewrite app_nil_r, fmap_app in *. rewrite Hgk in Hgk'. destruct g; [by rewrite !app_nil_r|].
  apply (f_equal length) in Hgk'. rewrite length_app in Hgk'. simpl in Hgk'. lia.
Qed.

Lemma register_pod_ips_spec pod_ips gpu_map arg env r :
  well_formed r → ∃ o r', register_pod_ips pod_ips gpu_map arg env r = (o, r') ∧ well_formed r' ∧ extends r r' ∧
    ((o = Ret (pod_ip_to_generalpodid r') ∧ (∀ ip, ip ∈ pod_ips → ip ∈ (pod_ip_to_generalpodid r').*1) ∧
      (current r → current r')) ∨
     (o = Raise AssertionError ∧ length (pod_ip_to_generalpodid r') = 1000%nat)).
Proof.
  intros Hw. unfold register_pod_ips.
  destruct (register_loop_spec gpu_map (fallback_gpu_model arg env) (sorted pod_ips) r (fallback_known _ _) Hw)
    as (o & r1 & Hl & Hw1 & Hx & Hh & [[-> Hips]|[-> Hlen]]).
  2: { exists (Raise AssertionError), r1. unfold bind. rewrite Hl. split_and!; [done..|]. by right. }
  assert (∀ ip, ip ∈ pod_ips → ip ∈ (pod_ip_to_generalpodid r1).*1) as Hips'.
  { intros ip Hip. apply Hips. unfold sorted. by rewrite merge_sort_Permutation. }
  rewrite (bind_Ret _ _ _ _ _ Hl). destruct (Nat.eqb_spec (length (pod_ip_to_generalpodid r1)) (length (pod_ip_to_generalpodid r))) as [He|He]; simpl.
  - exists (Ret (pod_ip_to_generalpodid r1)), r1. split_and!; [done..|]. left. split_and!; [done..|].
    by rewrite (extends_same r r1).
  - destruct (refresh_agrees r1 Hw1) as (v & Hv & Hagree). unfold bind, get, lift, modify, gets. rewrite Hv.
    eexists _, _. split; [reflexivity|]. split_and!; [done|done|]. left. split_and!; [done..|]. intros _. exact Hagree.
Qed.

Lemma register_inv pod_ips gpu_map arg env r :
  registry_inv r → registry_inv (register_pod_ips pod_ips gpu_map arg env r).2 ∧
    extends r (register_pod_ips pod_ips gpu_map arg env r).2.
Proof.
  intros [Hw Hc]. destruct (register_pod_ips_spec pod_ips gpu_map arg env r Hw) as (o & r' & -> & Hw' & Hx & Hcase). simpl.
  split; [|done]. split; [done|]. intros Hlt. destruct Hcase as [(_ & _ & Hcur)|[_ Hlen]]; [|lia]. apply Hcur, Hc.
  destruct Hx as [[k Hk] _]. rewrite Hk, length_app in Hlt. lia.
Qed.

(** Any sequence of registrations; one that raises keeps what it registered. *)
Definition register_call : Type := list string * dict string * option string * option string.

Definition run_calls (cs : list register_call) (r : registry) : registry :=
  foldl (λ r c, (register_pod_ips c.1.1.1 c.1.1.2 c.1.2 c.2 r).2) r cs.

Lemma run_calls_inv cs r : registry_inv r → registry_inv (run_calls cs r) ∧ extends r (run_calls cs r).
Proof.
  revert r. induction cs as [|c cs IH]; intros r Hr; [done|]. cbn [run_calls foldl].
  destruct (register_inv c.1.1.1 c.1.1.2 c.1.2 c.2 r Hr) as [Hr1 Hx1]. destruct (IH _ Hr1) as [Hr2 Hx2].
  split; [done|by etrans].
Qed.

Lemma new_registry_inv : registry_inv new_registry.
Proof. split; [|done]. split_and!; [constructor|done|simpl; lia|done|constructor]. Qed.

(** ** Lemmas: the order of first sight *)

Definition see (seen : list string) (ip : string) : list string := if decide (ip ∈ seen) then seen else seen ++ [ip].

(** Every address once, where it comes first *)
Definition first_seen (ips : list string) : list string := foldl see [] ips.

(** The addresses as the calls go through them *)
Definition seen_by (cs : list register_call) : list string := concat ((λ c : register_call, sorted c.1.1.1) <$> cs).

Lemma see_extends ips seen : seen `prefix_of` foldl see seen ips.
Proof.
  revert seen. induction ips as [|ip ips IH]; intros seen; [done|]. simpl. etrans; [|apply IH]. unfold see. case_decide; [done|by eexists].
Qed.

Lemma take_prefix {A} n (l l' : list A) : l `prefix_of` l' → (n ≤ length l)%nat → take n l' = take n l.
Proof. intros [k ->] Hn. by rewrite take_app_le. Qed.

(** Once there is no room nothing is added. *)
Lemma see_take n ips seen : take n (foldl see (take n seen) ips) = take n (foldl see seen ips).
Proof.
  destruct (decide (length seen ≤ n)%nat) as [Hle|Hgt]; [by rewrite (take_ge seen)|].
  rewrite (take_prefix n (take n seen) (foldl _ _ _)) by (apply see_extends || (rewrite length_take; lia)).
  rewrite (take_prefix n seen (foldl _ _ _)) by (apply see_extends || lia). by rewrite take_take, Nat.min_id.
Qed.

Lemma register_loop_keys gpu_map fallback ips r : known_gpu fallback = true → well_formed r →
  (pod_ip_to_generalpodid (register_loop gpu_map fallback ips r).2).*1 = take 1000 (foldl see (pod_ip_to_generalpodid r).*1 ips).
Proof.
  intros Hf. revert r. induction ips as [|ip ips IH]; intros r Hr; (assert (length (pod_ip_to_generalpodid r).*1 ≤ 1000)%nat as Hlen by (rewrite length_fmap; apply Hr)).
  { simpl. by rewrite take_ge. }
  cbn [register_loop foldl]. unfold see at 2. destruct (register_one_spec gpu_map fallback ip r Hf Hr) as [[Hin H1]|[(Hin & Hfull & H1)|(Hin & r1 & H1 & Hr1 & Hd1 & _)]].
  - rewrite (bind_Ret _ _ _ _ _ H1), decide_True by done. rewrite <-(IH r Hr). unfold bind. by destruct (register_loop _ _ ips r) as [[]].
  - unfold bind. rewrite H1, decide_False by done. simpl. rewrite (take_prefix 1000 (pod_ip_to_generalpodid r).*1 (foldl _ _ _)).
    + by rewrite take_ge.
    + etrans; [|apply see_extends]. by eexists.
    + rewrite length_fmap. lia.
  - rewrite (bind_Ret _ _ _ _ _ H1), decide_False by done. pose proof (IH r1 Hr1) as E. rewrite Hd1, fmap_app in E. cbn in E. rewrite <-E.
    unfold bind. by destruct (register_loop _ _ ips r1) as [[]].
Qed.

Lemma register_keys pod_ips gpu_map arg env r : well_formed r →
  (pod_ip_to_generalpodid (register_pod_ips pod_ips gpu_map arg env r).2).*1 = take 1000 (foldl see (pod_ip_to_generalpodid r).*1 (sorted pod_ips)).
Proof.
  intros Hw. rewrite <-(register_loop_keys gpu_map (fallback_gpu_model arg env)) by (done || apply fallback_known). unfold register_pod_ips, bind at 1.
  destruct (register_loop _ _ _ r) as [[[|]| |] r']; [|done..]. unfold bind, get, lift. by destruct (refresh_hyperparameter_views r').
Qed.

Lemma run_calls_keys cs r : registry_inv r →
  (pod_ip_to_generalpodid (run_calls cs r)).*1 = take 1000 (foldl see (pod_ip_to_generalpodid r).*1 (seen_by cs)).
Proof.
  revert r. induction cs as [|c cs IH]; intros r Hr.
  { simpl. rewrite take_ge; [done|]. rewrite length_fmap. apply Hr. }
  unfold seen_by. rewrite fmap_cons. cbn [concat]. fold (seen_by cs). rewrite foldl_app. cbn [run_calls foldl].
  fold (run_calls cs (register_pod_ips c.1.1.1 c.1.1.2 c.1.2 c.2 r).2).
  rewrite IH by apply register_inv, Hr. rewrite register_keys by apply Hr. apply see_take.
Qed.

(** C28: After any sequence of registrations the registered addresses are those of the calls, in the order in which
    they were first seen (the addresses of one call sorted), up to a thousand; their ids are
    [pod_0000], [pod_0001], ... in this order, and each has a GPU model of the table. While there are fewer than a
    thousand pods the eight
    entries of the hyperparameters describe exactly this registry: ids and addresses
    are inverse to each other, and the GPU tables have the registered models and
    their codes. *)
Theorem registry_invariant cs :
  let r := run_calls cs new_registry in
  let d := pod_ip_to_generalpodid r in
  d.*1 = take 1000 (first_seen (seen_by cs)) ∧ NoDup d.*1 ∧ NoDup d.*2 ∧ d.*2 = pod_names (length d) ∧ (length d ≤ 1000)%nat ∧
  Forall (λ e, known_gpu e.2 = true) (pod_ip_to_gpu_model r) ∧
  ((length d < 1000)%nat → current r).
Proof.
  destruct (run_calls_inv cs new_registry new_registry_inv) as [[(Hnd & Hids & Hlen & _ & Hg) Hc] _].
  split_and!; try done; [by rewrite run_calls_keys by apply new_registry_inv|]. rewrite Hids. by apply pod_names_NoDup.
Qed.

Lemma prefix_assoc {A} (l l' : dict A) k v : l `prefix_of` l' → assoc k l = Some v → assoc k l' = Some v.
Proof. intros [x ->] Hk. by rewrite assoc_app, Hk. Qed.

(** A binding is permanent: whatever is registered later, a pod keeps its id and its
    GPU model, so that the predictions of a pod stay with the pod. *)
Theorem registered_for_ever cs cs' ip pid gm :
  assoc ip (pod_ip_to_generalpodid (run_calls cs new_registry)) = Some pid →
  assoc ip (pod_ip_to_gpu_model (run_calls cs new_registry)) = Some gm →
  assoc ip (pod_ip_to_generalpodid (run_calls (cs ++ cs') new_registry)) = Some pid ∧
  assoc ip (pod_ip_to_gpu_model (run_calls (cs ++ cs') new_registry)) = Some gm.
Proof.
  intros Hd Hg. unfold run_calls in *. rewrite foldl_app.
  destruct (run_calls_inv cs new_registry new_registry_inv) as [Hr _].
  destruct (run_calls_inv cs' _ Hr) as [_ [Hx1 Hx2]]. split; by eapply prefix_assoc.
Qed.

Lemma sorted_perm l l' : l ≡ₚ l' → sorted l = sorted l'.
Proof.
  intros Hp. unfold sorted. apply (StronglySorted_unique String.le); [apply (StronglySorted_merge_sort _)..|].
  by rewrite !merge_sort_Permutation.
Qed.

(** The order in which the caller lists the addresses, which for a set changes from
    process to process, has no effect on the ids. *)
Theorem register_order_free pod_ips pod_ips' gpu_map arg env r :
  pod_ips ≡ₚ pod_ips' → register_pod_ips pod_ips gpu_map arg env r = register_pod_ips pod_ips' gpu_map arg env r.
Proof. intros Hp. unfold register_pod_ips. by rewrite (sorted_perm _ _ Hp). Qed.

(** ** Lemmas: the order of new pods *)

Lemma length_sorted l : length (sorted l) = length l.
Proof. apply Permutation_length, merge_sort_Permutation. Qed.

Lemma sorted_NoDup l : NoDup l → NoDup (sorted l).
Proof. intros Hl. unfold sorted. by rewrite merge_sort_Permutation. Qed.

Lemma NoDup_pair {A} (a b : A) : a ≠ b → NoDup [a; b].
Proof. intros. apply NoDup_cons. split; [by intros ?%list_elem_of_singleton|apply NoDup_singleton]. Qed.

Lemma zip_keys {A} (d : dict A) : d = zip d.*1 d.*2.
Proof. induction d as [|[k v] d IH]; csimpl; [done|]. by f_equal. Qed.

(** New addresses are appended in the order of the loop. *)
Lemma register_loop_new gpu_map fallback ips r :
  known_gpu fallback = true → well_formed r → NoDup ((pod_ip_to_generalpodid r).*1 ++ ips) →
  (length (pod_ip_to_generalpodid r) + length ips ≤ 1000)%nat →
  ∃ b r', register_loop gpu_map fallback ips r = (Ret b, r') ∧
    (pod_ip_to_generalpodid r').*1 = (pod_ip_to_generalpodid r).*1 ++ ips.
Proof.
  intros Hf. revert r. induction ips as [|ip ips IH]; intros r Hr Hnd Hlen.
  { exists false, r. split; [done|]. by rewrite app_nil_r. }
  assert (ip ∉ (pod_ip_to_generalpodid r).*1) as Hip.
  { apply NoDup_app in Hnd as (_ & Hd & _). intros H. apply (Hd _ H). left. }
  destruct (register_one_spec gpu_map fallback ip r Hf Hr) as [[? _]|[(_ & Hfull & _)|(_ & r1 & H1 & Hr1 & Hd1 & _)]];
    [done|simpl in Hlen; lia|].
  destruct (IH r1 Hr1) as (b & r' & Hl & Hk).
  - rewrite Hd1, fmap_app, <-app_assoc. done.
  - rewrite Hd1, length_app. simpl in *. lia.
  - exists true, r'. cbn [register_loop]. rewrite (bind_Ret _ _ _ _ _ H1). unfold bind. rewrite Hl. split; [done|].
    by rewrite Hk, Hd1, fmap_app, <-app_assoc.
Qed.

Lemma register_new pod_ips gpu_map arg env r :
  well_formed r → NoDup ((pod_ip_to_generalpodid r).*1 ++ sorted pod_ips) →
  (length (pod_ip_to_generalpodid r) + length pod_ips ≤ 1000)%nat →
  (pod_ip_to_generalpodid (register_pod_ips pod_ips gpu_map arg env r).2).*1 = (pod_ip_to_generalpodid r).*1 ++ sorted pod_ips ∧
  (register_pod_ips pod_ips gpu_map arg env r).1 = Ret (pod_ip_to_generalpodid (register_pod_ips pod_ips gpu_map arg env r).2).
Proof.
  intros Hw Hnd Hlen. pose proof (fallback_known arg env) as Hf.
  destruct (register_loop_new gpu_map _ (sorted pod_ips) r Hf Hw Hnd) as (b & r' & Hl & Hk).
  { by rewrite length_sorted. }
  destruct (register_loop_spec gpu_map _ (sorted pod_ips) r Hf Hw) as (o & r2 & Hl2 & Hw2 & _).
  rewrite Hl in Hl2. injection Hl2 as <- <-. destruct (refresh_agrees r' Hw2) as (v & Hv & _).
  unfold register_pod_ips, bind, get, lift, modify, gets. rewrite Hl. destruct b; [rewrite Hv|]; done.
Qed.

Lemma enumerate_ids_eq idx ips : (idx + length ips ≤ 1000)%nat →
  enumerate_ids idx ips = Ret (zip ips (pod_name <$> seq idx (length ips))).
Proof.
  revert idx. induction ips as [|ip ips IH]; intros idx Hlen; [done|]. simpl in *.
  rewrite format_ok by lia. cbn [obind]. by rewrite IH by lia.
Qed.

Lemma create_mapping_eq ips : NoDup ips → (length ips ≤ 1000)%nat →
  create_pod_ip_to_generalpodid_mapping ips = Ret (zip (sorted ips) (pod_names (length ips))).
Proof.
  intros Hnd Hlen. unfold create_pod_ip_to_generalpodid_mapping.
  rewrite enumerate_ids_eq by (rewrite length_sorted; simpl; lia). cbn [obind].
  rewrite dict_of_new; [by rewrite length_sorted|].
  rewrite fst_zip; [by apply sorted_NoDup|]. by rewrite length_fmap, length_seq.
Qed.

(** At start-up the registry gives the running pods the ids of the temporary mapping
    that was used to look up their GPUs. *)
Theorem first_registration_agrees pod_ips gpu_map arg env :
  NoDup pod_ips → (length pod_ips ≤ 1000)%nat →
  (register_pod_ips pod_ips gpu_map arg env new_registry).1 = create_pod_ip_to_generalpodid_mapping pod_ips.
Proof.
  intros Hnd Hlen. destruct (register_new pod_ips gpu_map arg env new_registry) as [Hk ->];
    [apply new_registry_inv|by apply sorted_NoDup|done|].
  destruct (register_inv pod_ips gpu_map arg env new_registry new_registry_inv) as [[(_ & Hids & _) _] _].
  rewrite create_mapping_eq by done. f_equal. rewrite (zip_keys (pod_ip_to_generalpodid _)), Hids, Hk. simpl. f_equal.
  f_equal. rewrite <-(length_fmap fst), Hk. apply length_sorted.
Qed.

Lemma sorted_pair a b : String.le a b → sorted [a; b] = [a; b].
Proof.
  intros Hab. unfold sorted. apply (StronglySorted_unique String.le);
    [apply (StronglySorted_merge_sort _)| |apply merge_sort_Permutation].
  by repeat constructor.
Qed.

(** After a scale-up, training and serving number the pods differently: when the pod
    with the smaller address was registered second, messages call it [pod_0001] and
    the older one [pod_0000], while a flushed file that mentions both is rewritten
    the other way round. *)
Theorem scale_up_swaps_training_ids a b c1 c2 content :
  String.le a b → a ≠ b → extract_pod_ips_from_content content = {[a; b]} →
  let r := run_calls [([b], c1, None, None); ([a], c2, None, None)] new_registry in
  assoc a (pod_ip_to_generalpodid r) = Some "pod_0001" ∧ assoc b (pod_ip_to_generalpodid r) = Some "pod_0000" ∧
  replace_in_file content = Ret (sub_all (by_length [(a, "pod_0000"); (b, "pod_0001")]) 0 content).
Proof.
  intros Hab Hne Hex r.
  assert (sorted (elements (extract_pod_ips_from_content content)) = [a; b]) as Hs.
  { rewrite Hex, <-(sorted_pair a b Hab). apply sorted_perm. rewrite elements_union_singleton by set_solver.
    by rewrite elements_singleton. }
  assert (pod_ip_to_generalpodid r = [(b, "pod_0000"); (a, "pod_0001")]) as Hr.
  { destruct (register_inv [b] c1 None None new_registry new_registry_inv) as [Hi1 _].
    destruct (register_new [b] c1 None None new_registry) as [Hk1 _];
      [apply new_registry_inv|apply NoDup_singleton|simpl; lia|]. simpl in Hk1.
    destruct (register_new [a] c2 None None (register_pod_ips [b] c1 None None new_registry).2) as [Hk2 _].
    - apply Hi1.
    - rewrite Hk1. by apply NoDup_pair.
    - rewrite <-(length_fmap fst), Hk1. simpl. lia.
    - destruct (register_inv [a] c2 None None _ Hi1) as [[(_ & Hids & _) _] _].
      rewrite (zip_keys (pod_ip_to_generalpodid r)). unfold r. cbn [run_calls foldl fst snd].
      rewrite Hids, <-(length_fmap fst (pod_ip_to_generalpodid _)), Hk2, Hk1. done. }
  split_and!.
  - rewrite Hr. simpl. rewrite decide_False by done. by rewrite decide_True.
  - rewrite Hr. simpl. by rewrite decide_True.
  - unfold replace_in_file. rewrite Hs, create_mapping_eq; [|by apply NoDup_pair|simpl; lia].
    by rewrite sorted_pair.
Qed.

(** ** Lemmas: addresses in text *)

Definition ip_char (c : ascii) : bool := is_digit c || Ascii.eqb c dot.

Definition starts_with (P : ascii → bool) (s : string) : bool := match s with String c _ => P c | EmptyString => false end.

Fixpoint all_chars (P : ascii → bool) (s : string) : bool := match s with EmptyString => true | String c s' => P c && all_chars P s' end.

Lemma all_chars_app P s1 s2 : all_chars P (s1 +:+ s2) = all_chars P s1 && all_chars P s2.
Proof. induction s1 as [|c s1 IH]; [done|]. rewrite append_cons. simpl. by rewrite IH, andb_assoc. Qed.

Lemma all_chars_impl (P Q : ascii → bool) s : (∀ c, P c = true → Q c = true) → all_chars P s = true → all_chars Q s = true.
Proof. intros HPQ. induction s as [|c s IH]; [done|]. simpl. rewrite !andb_true_iff. intros []. split; auto. Qed.

Lemma take_digits_spec n s ds r : take_digits n s = (ds, r) → s = ds +:+ r ∧ all_chars is_digit ds = true.
Proof.
  revert s ds r. induction n as [|n IH]; intros [|c s] ds r; simpl; try by intros [= <- <-].
  destruct (is_digit c) eqn:Hc; [|by intros [= <- <-]]. destruct (take_digits n s) as [ds' r'] eqn:E. intros [= <- <-].
  destruct (IH _ _ _ E) as [-> Hd]. simpl. by rewrite Hc.
Qed.

Lemma take_digits_append n s ds r rest : starts_with is_digit rest = false →
  take_digits n s = (ds, r) → take_digits n (s +:+ rest) = (ds, r +:+ rest).
Proof.
  intros Hrest. revert s ds r. induction n as [|n IH]; intros [|c s] ds r; try by intros [= <- <-].
  - simpl. intros [= <- <-]. change (EmptyString +:+ rest) with rest. destruct rest as [|c rest]; [done|]. simpl in *. by rewrite Hrest.
  - rewrite append_cons. simpl. destruct (is_digit c); [|by intros [= <- <-]].
    destruct (take_digits n s) as [ds' r'] eqn:E. intros [= <- <-]. by rewrite (IH _ _ _ E).
Qed.

Lemma octet_spec s ds r : octet s = Some (ds, r) →
  s = ds +:+ r ∧ all_chars is_digit ds = true ∧ starts_with is_digit ds = true.
Proof.
  unfold octet. destruct (take_digits 3 s) as [[|c ds'] r'] eqn:E; [done|]. intros [= <- <-].
  apply take_digits_spec in E as [-> Hd]. simpl in *. by apply andb_true_iff in Hd as [-> ->].
Qed.

Lemma octet_app s ds r rest : starts_with is_digit rest = false → octet s = Some (ds, r) → octet (s +:+ rest) = Some (ds, r +:+ rest).
Proof.
  intros Hrest. unfold octet. destruct (take_digits 3 s) as [[|c ds'] r'] eqn:E; [done|]. intros [= <- <-].
  by rewrite (take_digits_append _ _ _ _ _ Hrest E).
Qed.

Lemma digits_ip_chars ds : all_chars is_digit ds = true → all_chars ip_char ds = true.
Proof. apply all_chars_impl. intros c Hc. unfold ip_char. by rewrite Hc. Qed.

Lemma dotted_spec n s t r : dotted n s = Some (t, r) → s = t +:+ r ∧ all_chars ip_char t = true.
Proof.
  revert s t r. induction n as [|n IH]; intros s t r; simpl; [by intros [= <- <-]|].
  destruct s as [|c s]; [done|]. destruct (Ascii.eqb_spec c dot) as [->|]; [|done].
  destruct (octet s) as [[ds r1]|] eqn:E; [|done]. destruct (dotted n r1) as [[t' r2]|] eqn:E2; [|done]. intros [= <- <-].
  apply octet_spec in E as (-> & Hd & _). apply IH in E2 as [-> Ht]. rewrite append_cons, append_assoc. split; [done|].
  cbn [all_chars]. rewrite all_chars_app, Ht, digits_ip_chars by done. done.
Qed.

Lemma dotted_app n s t r rest : starts_with is_digit rest = false →
  dotted n s = Some (t, r) → dotted n (s +:+ rest) = Some (t, r +:+ rest).
Proof.
  intros Hrest. revert s t r. induction n as [|n IH]; intros s t r; simpl; [by intros [= <- <-]|].
  destruct s as [|c s]; [done|]. rewrite append_cons. destruct (Ascii.eqb c dot); [|done].
  destruct (octet s) as [[ds r1]|] eqn:E; [|done]. destruct (dotted n r1) as [[t' r2]|] eqn:E2; [|done]. intros [= <- <-].
  by rewrite (octet_app _ _ _ _ Hrest E), (IH _ _ _ E2).
Qed.

(** An address is a text of digits and dots that starts with a digit. *)
Definition ip_shape (ip : string) : Prop := all_chars ip_char ip = true ∧ starts_with is_digit ip = true.

Lemma match_ip_spec s ip r : match_ip s = Some (ip, r) → s = ip +:+ r ∧ ip_shape ip.
Proof.
  unfold match_ip, ip_shape. destruct (octet s) as [[ds r1]|] eqn:E; [|done].
  destruct (dotted 3 r1) as [[t r2]|] eqn:E2; [|done]. intros [= <- <-].
  apply octet_spec in E as (-> & Hd & Hs). apply dotted_spec in E2 as [-> Ht]. rewrite append_assoc, all_chars_app, Ht, digits_ip_chars by done.
  split_and!; [done..|]. by destruct ds.
Qed.

Lemma match_ip_app ip rest : starts_with is_digit rest = false →
  match_ip ip = Some (ip, EmptyString) → match_ip (ip +:+ rest) = Some (ip, rest).
Proof.
  intros Hrest. unfold match_ip. destruct (octet ip) as [[ds r1]|] eqn:E; [|done].
  destruct (dotted 3 r1) as [[t r2]|] eqn:E2; [|done]. intros [= Ht ->].
  by rewrite (octet_app _ _ _ _ Hrest E), (dotted_app _ _ _ _ _ Hrest E2), Ht.
Qed.

Lemma strip_prefix_spec p s r : strip_prefix p s = Some r ↔ s = p +:+ r.
Proof.
  revert s. induction p as [|a p IH]; intros s; simpl; [split; [by intros [= ->]|by intros ->]|].
  destruct s as [|b s]; [split; [done|intros [=]]|]. rewrite append_cons. destruct (Ascii.eqb_spec a b) as [->|Hab].
  - rewrite IH. split; [by intros ->|by intros [= ->]].
  - split; [done|]. intros [=]. congruence.
Qed.

Lemma between_spec before after prev s ip n : between before after prev s = Some (ip, n) →
  ip_shape ip ∧ ∃ rest, s = before +:+ (ip +:+ (after +:+ rest)) ∧ n = (String.length before + String.length ip + String.length after)%nat.
Proof.
  unfold between. destruct (strip_prefix before s) as [s1|] eqn:E1; [|done]. apply strip_prefix_spec in E1 as ->.
  destruct (match_ip s1) as [[ip' s2]|] eqn:E2; [|done]. apply match_ip_spec in E2 as [-> Hs].
  destruct (strip_prefix after s2) as [s3|] eqn:E3; [|done]. apply strip_prefix_spec in E3 as ->. intros [= <- <-].
  split; [done|]. exists s3. split; [done|]. rewrite !length_append. lia.
Qed.

Lemma general_spec prev s ip n : general_ip_pattern prev s = Some (ip, n) → ip_shape ip.
Proof.
  unfold general_ip_pattern. destruct (match prev with Some c => is_word c | None => false end); [done|].
  destruct (match_ip s) as [[ip' [|c rest]]|] eqn:E; [| |done]; apply match_ip_spec in E as [_ Hs].
  - by intros [= <- _].
  - destruct (is_word c); [done|]. by intros [= <- _].
Qed.

(** What a pattern captures. *)
Lemma findall_captured (m : pattern) (P : string → Prop) prev skip s x :
  (∀ prev s ip n, m prev s = Some (ip, n) → P ip) → x ∈ findall m prev skip s → P x.
Proof.
  intros Hm. revert prev skip. induction s as [|c s IH]; intros prev skip; cbn [findall]; [by intros ?%not_elem_of_nil|].
  destruct skip as [|k]; [|apply IH]. destruct (m prev (String c s)) as [[y n]|] eqn:E; [|apply IH].
  intros [->|Hx]%elem_of_cons; [by eapply Hm|by eapply IH].
Qed.

Lemma extracted_shape content ip : ip ∈ extract_pod_ips_from_content content → ip_shape ip.
Proof.
  unfold extract_pod_ips_from_content. rewrite elem_of_list_to_set, elem_of_filter_b, !elem_of_app, elem_of_filter_b.
  intros [_ [H|[H|[_ H]]]]; revert H; apply findall_captured; intros prev s y n H.
  - by apply between_spec in H as [].
  - by apply between_spec in H as [].
  - by apply general_spec in H.
Qed.

(** A match of a JSON key ends before the quote that opens another one. *)
Lemma json_match_before pre ip post y rest :
  starts_with is_digit ip = true → ip_shape y → pre ≠ EmptyString →
  pre +:+ (quote +:+ (ip +:+ post)) = quote +:+ (y +:+ ((quote +:+ ":") +:+ rest)) →
  (String.length y + 3 ≤ String.length pre)%nat.
Proof.
  intros Hip [Hy _] Hpre Heq. destruct pre as [|c pre]; [done|]. rewrite append_cons in Heq. injection Heq as -> Heq.
  clear Hpre. simpl. revert y Hy Heq. induction pre as [|c pre IH]; intros y Hy Heq.
  - exfalso. destruct y as [|d y].
    + destruct ip as [|a ip]; [done|]. rewrite append_cons in Heq. injection Heq as Ha _. subst. done.
    + injection Heq as <- _. simpl in Hy. done.
  - rewrite append_cons in Heq. destruct y as [|d y].
    + injection Heq as -> Heq. destruct pre as [|c pre]; [injection Heq; done|]. simpl. lia.
    + rewrite append_cons in Heq. injection Heq as -> Heq. simpl in Hy. apply andb_true_iff in Hy as [_ Hy].
      specialize (IH y Hy Heq). simpl. lia.
Qed.

Lemma json_key_matches prev ip post : match_ip ip = Some (ip, EmptyString) →
  json_ip_pattern prev (quote +:+ (ip +:+ ((quote +:+ ":") +:+ post))) = Some (ip, (String.length ip + 3)%nat).
Proof.
  intros Hip. unfold json_ip_pattern, between. rewrite (proj2 (strip_prefix_spec _ _ _) eq_refl).
  rewrite match_ip_app by done. rewrite (proj2 (strip_prefix_spec _ _ _) eq_refl). rewrite !length_append. simpl. do 2 f_equal. lia.
Qed.

Lemma findall_json_key pre prev skip ip post : match_ip ip = Some (ip, EmptyString) → (skip ≤ String.length pre)%nat →
  ip ∈ findall json_ip_pattern prev skip (pre +:+ (quote +:+ (ip +:+ ((quote +:+ ":") +:+ post)))).
Proof.
  intros Hip. pose proof (match_ip_spec _ _ _ Hip) as [_ [_ Hdig]].
  revert prev skip. induction pre as [|c pre IH]; intros prev skip Hskip.
  - assert (skip = 0%nat) as -> by (simpl in Hskip; lia). change (EmptyString +:+ ?x) with x.
    pose proof (json_key_matches prev ip post Hip) as Hm.
    change (quote +:+ ?x) with (String (ascii_of_nat 34) x) in Hm |- *. cbn [findall]. rewrite Hm. left.
  - rewrite append_cons. cbn [findall]. destruct skip as [|k]; [|apply IH; simpl in Hskip; lia].
    destruct (json_ip_pattern _ _) as [[y n]|] eqn:E; [|apply IH; lia].
    right. apply between_spec in E as (Hy & rest & Heq & ->). apply IH.
    rewrite <-append_cons in Heq. apply json_match_before in Heq; [|done..]. simpl in *. lia.
Qed.

(** Every pod that is a key of a JSON map in the text is found, wherever the map is. *)
Theorem json_keys_found pre ip post :
  match_ip ip = Some (ip, EmptyString) → valid_ip ip = true →
  ip ∈ extract_pod_ips_from_content (pre +:+ (quote +:+ (ip +:+ ((quote +:+ ":") +:+ post)))).
Proof.
  intros Hip Hv. unfold extract_pod_ips_from_content.
  rewrite elem_of_list_to_set, elem_of_filter_b, !elem_of_app. split; [done|]. right; left.
  apply findall_json_key; [done|lia].
Qed.

(** ** Lemmas: replacing addresses *)

(** A text as addresses and single characters. *)
Inductive token := Ip (ip : string) | Chr (c : ascii).

Fixpoint text (ts : list token) : string :=
  match ts with [] => EmptyString | Ip ip :: ts' => ip +:+ text ts' | Chr c :: ts' => String c (text ts') end.

Fixpoint renamed (ids : dict string) (ts : list token) : string :=
  match ts with
  | [] => EmptyString
  | Ip ip :: ts' => default ip (assoc ip ids) +:+ renamed ids ts'
  | Chr c :: ts' => String c (renamed ids ts')
  end.

(** The tokens are where the addresses are: an address is not followed by more digits
    or dots, and nowhere else does an address start. *)
Fixpoint tokens_ok (ips : gset string) (ts : list token) : Prop :=
  match ts with
  | [] => True
  | Ip ip :: ts' => ip ∈ ips ∧ starts_with ip_char (text ts') = false ∧ tokens_ok ips ts'
  | Chr c :: ts' => (∀ ip, ip ∈ ips → String.prefix ip (String c (text ts')) = false) ∧ tokens_ok ips ts'
  end.

Lemma prefix_split p s : String.prefix p s = true → ∃ r, s = p +:+ r.
Proof.
  revert s. induction p as [|c p IH]; intros s; [by exists s|]. destruct s as [|a s]; simpl; [done|].
  destruct (Ascii.ascii_dec c a) as [->|]; [|done]. intros [r ->]%IH. by exists r.
Qed.

Lemma prefix_self p r : String.prefix p (p +:+ r) = true.
Proof. induction p as [|c p IH]; [by destruct r|]. rewrite append_cons. simpl. by destruct (Ascii.ascii_dec c c). Qed.

(** No longer address starts where one ends. *)
Lemma longest_address ip ip' rest :
  all_chars ip_char ip' = true → starts_with ip_char rest = false → String.prefix ip' (ip +:+ rest) = true →
  (String.length ip ≤ String.length ip')%nat → ip' = ip.
Proof.
  revert ip'. induction ip as [|c ip IH]; intros ip' Hc Hr Hp Hl.
  - destruct ip' as [|a ip']; [done|]. change (EmptyString +:+ rest) with rest in Hp. destruct rest as [|b rest]; [done|].
    simpl in *. destruct (Ascii.ascii_dec a b) as [->|]; [|done]. by rewrite Hr in Hc.
  - destruct ip' as [|a ip']; [simpl in Hl; lia|]. rewrite append_cons in Hp. simpl in *.
    destruct (Ascii.ascii_dec a c) as [->|]; [|done]. apply andb_true_iff in Hc as [_ Hc]. f_equal. apply IH; [done..|lia].
Qed.

Lemma first_match_longest (table : dict string) ip pid rest :
  StronglySorted longer table → NoDup table.*1 → Forall (λ e, all_chars ip_char e.1 = true) table →
  starts_with ip_char rest = false → (ip, pid) ∈ table → first_match table (ip +:+ rest) = Some (ip, pid).
Proof.
  intros Hs Hnd Hc Hr Hin. induction Hs as [|[x q] table Hs IH Hall]; [by apply not_elem_of_nil in Hin|].
  apply Forall_cons in Hc as [Hx Hc]. apply NoDup_cons in Hnd as [Hnx Hnd]. simpl. apply elem_of_cons in Hin as [[= -> ->]|Hin].
  { by rewrite prefix_self. }
  destruct (String.prefix x (ip +:+ rest)) eqn:Hp; [|by apply IH]. exfalso. apply Hnx.
  assert (x = ip) as ->; [|by apply (list_elem_of_fmap_2 fst _ _ Hin)]. eapply longest_address; [done..|].
  rewrite Forall_forall in Hall. exact (Hall _ Hin).
Qed.

Lemma first_match_none (table : dict string) s : (∀ ip, ip ∈ table.*1 → String.prefix ip s = false) → first_match table s = None.
Proof.
  induction table as [|[ip q] table IH]; csimpl; [done|]. intros H. rewrite (H ip) by (by left). apply IH. intros ip' Hip. apply H. by right.
Qed.

Lemma sub_all_skip table p s : sub_all table (String.length p) (p +:+ s) = sub_all table 0 s.
Proof. induction p as [|c p IH]; [done|]. rewrite append_cons. simpl. apply IH. Qed.

Lemma sub_all_tokens (ids table : dict string) ips ts :
  StronglySorted longer table → NoDup table.*1 → (∀ ip, ip ∈ table.*1 ↔ ip ∈ ips) →
  (∀ ip, ip ∈ ips → ip_shape ip) → (∀ ip pid, (ip, pid) ∈ table → assoc ip ids = Some pid) →
  tokens_ok ips ts → sub_all table 0 (text ts) = renamed ids ts.
Proof.
  intros Hs Hnd Hk Hshape Hids. induction ts as [|[ip|c] ts IH]; [done| |].
  - intros (Hin & Hr & Hok). pose proof (Hshape ip Hin) as [_ Hst]. apply Hk, list_elem_of_fmap in Hin as ([ip' pid] & -> & Hin).
    simpl in *. destruct ip' as [|c ip']; [done|]. rewrite append_cons. cbn [sub_all].
    rewrite <-append_cons, (first_match_longest table (String c ip') pid); [|done..| |done|done].
    + cbn [String.length]. replace (S (String.length ip') - 1)%nat with (String.length ip') by lia.
      rewrite sub_all_skip, (Hids _ _ Hin), IH by done. done.
    + apply Forall_forall. intros e He. apply Hshape, Hk. by apply list_elem_of_fmap_2.
  - intros [Hno Hok]. cbn [text sub_all renamed]. rewrite first_match_none; [by rewrite IH|]. intros ip Hip. apply Hno. by apply Hk.
Qed.

Lemma register_one_length gpu_map fallback ip r :
  (length (pod_ip_to_generalpodid (register_one gpu_map fallback ip r).2) ≤ S (length (pod_ip_to_generalpodid r)))%nat.
Proof.
  unfold register_one. rewrite bind_get. destruct (assoc _ _); [simpl; lia|]. unfold bind, lift.
  destruct (format_generalpodid _); simpl; [|lia..]. rewrite <-!(length_fmap fst), assoc_set_dom.
  case_decide; [lia|]. rewrite length_app. simpl. lia.
Qed.

Lemma register_loop_length gpu_map fallback ips r :
  (length (pod_ip_to_generalpodid (register_loop gpu_map fallback ips r).2) ≤ length (pod_ip_to_generalpodid r) + length ips)%nat.
Proof.
  revert r. induction ips as [|ip ips IH]; intros r; cbn [register_loop]; [simpl; lia|].
  pose proof (register_one_length gpu_map fallback ip r) as H1. unfold bind. destruct (register_one _ _ _ r) as [[a| |] r1]; simpl in *; [|lia..].
  specialize (IH r1). destruct (register_loop _ _ ips r1) as [[b| |] r2]; simpl in *; lia.
Qed.

(** Below a thousand pods a registration returns and the hyperparameters are current. *)
Lemma register_fits pod_ips gpu_map arg env r :
  registry_inv r → (length (pod_ip_to_generalpodid r) + length pod_ips < 1000)%nat →
  ∃ r', register_pod_ips pod_ips gpu_map arg env r = (Ret (pod_ip_to_generalpodid r'), r') ∧ registry_inv r' ∧ current r' ∧
    ∀ ip, ip ∈ pod_ips → ip ∈ (pod_ip_to_generalpodid r').*1.
Proof.
  intros Hi Hlen. destruct Hi as [Hw Hc]. pose proof (register_loop_length gpu_map (fallback_gpu_model arg env) (sorted pod_ips) r) as Hb.
  rewrite length_sorted in Hb.
  destruct (register_pod_ips_spec pod_ips gpu_map arg env r Hw) as (o & r' & Hr & Hw' & Hx & Hcase).
  assert (length (pod_ip_to_generalpodid r') < 1000)%nat as Hlt.
  { destruct (register_loop_spec gpu_map (fallback_gpu_model arg env) (sorted pod_ips) r (fallback_known _ _) Hw) as (o1 & r1 & Hl & Hw1 & _).
    rewrite Hl in Hb. unfold register_pod_ips, bind, get, lift, modify, gets in Hr. rewrite Hl in Hr. simpl in Hb.
    destruct (refresh_agrees r1 Hw1) as (v & Hv & _). destruct o1 as [[]| |]; try rewrite Hv in Hr; injection Hr as _ <-; simpl; lia. }
  destruct Hcase as [(-> & Hips & Hcur)|[_ Hfull]]; [|lia]. assert (current r') as Hc' by (apply Hcur, Hc; lia).
  exists r'. split_and!; [done| |done|done]. by split.
Qed.

Lemma omap_keys (d : dict string) l : (∀ x, x ∈ l → ∃ pid, assoc x d = Some pid) →
  (omap (λ ip, (λ pid, (ip, pid)) <$> assoc ip d) l).*1 = l.
Proof.
  induction l as [|x l IH]; intros Hall; [done|]. simpl. destruct (Hall x) as [pid ->]; [left|].
  csimpl. f_equal. apply IH. intros y Hy. apply Hall. by right.
Qed.

(** C29: A message is rewritten by the registry: for a text whose addresses stand apart
    from other digits and dots, each is replaced by the id the registry has for it
    (also when one address is the beginning of another), the rest is kept, and every
    id put into the message has its address in the hyperparameters, where the handler
    looks up the pod it chose. *)
Theorem message_rewritten json_loads cs env ts :
  let r := run_calls cs new_registry in
  let ips := extract_pod_ips_from_content (text ts) in
  ips ≠ ∅ → (length (pod_ip_to_generalpodid r) + size ips < 1000)%nat → tokens_ok ips ts →
  ∃ r' v, replace_in_message json_loads env (text ts) r = (Ret (renamed (pod_ip_to_generalpodid r') ts), r') ∧
    hyperparameters r' = Some v ∧
    ∀ ip, ip ∈ ips → ∃ pid, assoc ip (pod_ip_to_generalpodid r') = Some pid ∧ assoc pid (hp_generalpodid_to_pod_ip v) = Some ip.
Proof.
  intros r ips Hne Hlen Hok. destruct (run_calls_inv cs new_registry new_registry_inv) as [Hi _].
  destruct (register_fits (elements ips) (extract_gpu_map_from_log_message json_loads (text ts)) None env r Hi Hlen)
    as (r' & Hr & Hi' & Hc & Hin).
  assert (∀ ip, ip ∈ ips → ∃ pid, assoc ip (pod_ip_to_generalpodid r') = Some pid) as Hpid.
  { intros ip Hip. by apply assoc_Some, Hin, elem_of_elements. }
  unfold current in Hc. destruct (hyperparameters r') as [v|] eqn:Hv.
  2: { destruct (set_choose_L _ Hne) as [ip Hip]. destruct (Hpid ip Hip) as [pid H]. by rewrite Hc in H. }
  exists r', v. split_and!; [|done|].
  2: { intros ip Hip. destruct (Hpid ip Hip) as [pid H]. exists pid. split; [done|]. by apply Hc. }
  unfold replace_in_message. fold ips. rewrite bool_decide_false by done. rewrite (bind_Ret _ _ _ _ _ Hr).
  set (table := omap _ (elements ips)).
  assert (table.*1 = elements ips) as Hkeys.
  { apply omap_keys. intros x Hx. apply Hpid. by apply elem_of_elements. }
  assert (sub_all (by_length table) 0 (text ts) = renamed (pod_ip_to_generalpodid r') ts) as Hsub.
  { assert (by_length table ≡ₚ table) as Hp by apply merge_sort_Permutation.
    apply (sub_all_tokens _ _ ips); [| | | | |done].
    - apply (StronglySorted_merge_sort _).
    - rewrite Hp, Hkeys. apply NoDup_elements.
    - intros ip. by rewrite Hp, Hkeys, elem_of_elements.
    - intros ip. apply extracted_shape.
    - intros ip pid. rewrite Hp. unfold table. rewrite list_elem_of_omap. intros (x & _ & Hx).
      destruct (assoc x _) eqn:Hax; [|done]. by simplify_eq/=. }
  clearbody table. destruct table as [|e table']; [|unfold ret; by rewrite Hsub].
  exfalso. apply Hne. symmetry in Hkeys. apply elements_empty_inv in Hkeys. by apply leibniz_equiv.
Qed.

(** ** Witnesses *)

(** The hypotheses of [registered_for_ever] hold for a pod that is followed by one with a
    smaller address. *)
Lemma registered_for_ever_witness :
  assoc "10.0.0.5" (pod_ip_to_generalpodid (run_calls ([(["10.0.0.5"], [], None, None)] ++ [(["10.0.0.1"], [], None, None)]) new_registry))
    = Some "pod_0000".
Proof.
  apply (registered_for_ever [(["10.0.0.5"], [], None, None)] [(["10.0.0.1"], [], None, None)] "10.0.0.5" "pod_0000" "NVIDIA-A30");
    vm_compute; reflexivity.
Defined.

(** The hypothesis of [register_order_free] holds for two listings of the same pods. *)
Lemma register_order_free_witness :
  register_pod_ips ["10.0.0.5"; "10.0.0.1"] [] None None new_registry = register_pod_ips ["10.0.0.1"; "10.0.0.5"] [] None None new_registry.
Proof. apply register_order_free. apply Permutation_swap. Defined.

(** The hypotheses of [first_registration_agrees] hold for two pods. *)
Lemma first_registration_agrees_witness :
  (register_pod_ips ["10.0.0.5"; "10.0.0.1"] [] None None new_registry).1 = Ret [("10.0.0.1", "pod_0000"); ("10.0.0.5", "pod_0001")].
Proof.
  rewrite first_registration_agrees; [vm_compute; reflexivity| |simpl; lia].
  apply NoDup_pair. done.
Defined.

Definition demo_tokens : list token :=
  [Chr "{"; Chr (ascii_of_nat 34); Ip "10.0.1.5"; Chr (ascii_of_nat 34); Chr ":"; Chr "0"; Chr ",";
   Chr (ascii_of_nat 34); Ip "10.0.1.50"; Chr (ascii_of_nat 34); Chr ":"; Chr "1"; Chr "}"].

Lemma demo_addresses : extract_pod_ips_from_content (text demo_tokens) = {["10.0.1.5"; "10.0.1.50"]}.
Proof. vm_compute. reflexivity. Qed.

(** The hypotheses of [scale_up_swaps_training_ids] hold for a text that mentions both
    pods. *)
Lemma scale_up_swaps_training_ids_witness :
  let r := run_calls [(["10.0.1.50"], [], None, None); (["10.0.1.5"], [], None, None)] new_registry in
  assoc "10.0.1.5" (pod_ip_to_generalpodid r) = Some "pod_0001" ∧
  replace_in_file (text demo_tokens) = Ret (sub_all (by_length [("10.0.1.5", "pod_0000"); ("10.0.1.50", "pod_0001")]) 0 (text demo_tokens)).
Proof.
  destruct (scale_up_swaps_training_ids "10.0.1.5" "10.0.1.50" [] [] (text demo_tokens)) as (H1 & _ & H2);
    [vm_compute; exact I|done|apply demo_addresses|]. split; [exact H1|exact H2].
Defined.

(** The hypotheses of [json_keys_found] hold for a key of a map. *)
Lemma json_keys_found_witness :
  "10.0.1.50" ∈ extract_pod_ips_from_content ("kv@{" +:+ (quote +:+ ("10.0.1.50" +:+ ((quote +:+ ":") +:+ "0.5}")))).
Proof. apply json_keys_found; vm_compute; reflexivity. Defined.

(** The hypotheses of [message_rewritten] hold where one address is the beginning of
    the other. *)
Lemma message_rewritten_witness :
  ∃ r' v, replace_in_message (λ _, None) None (text demo_tokens) new_registry = (Ret (renamed (pod_ip_to_generalpodid r') demo_tokens), r') ∧
    hyperparameters r' = Some v.
Proof.
  destruct (message_rewritten (λ _, None) [] None demo_tokens) as (r' & v & H1 & H2 & _).
  - rewrite demo_addresses. set_solver.
  - rewrite demo_addresses. vm_compute. lia.
  - rewrite demo_addresses. repeat split; try (intros ip; rewrite elem_of_union, !elem_of_singleton; intros [->| ->]; reflexivity); set_solver.
  - exists r', v. split; [exact H1|exact H2].
Defined.
