(* ===== verification/Preprocess.v ===== *)
(** * Log messages and the rows of a request

    Models [routing_agent_service/agent_codes/preprocess.py] without its reward branch
    (see RewardDispatch): the parsers of log messages and log files, the fast
    preprocessing of a request that is to be routed, and the unified preprocessing of
    a frame, of which the fast one claims to be equivalent for a single row; and
    [get_sorted_all_pod_ids] of utils.py.

    A row is a dictionary of Python values, a frame its columns and rows; a cell that a
    row lacks is NaN. [json.loads], [ast.literal_eval], [float(text)], [pd.to_numeric] of
    a text, the exponential and the rounding to float32 are parameters. Whole columns
    of numbers keep the kind (integer or float) each number was written with. *)

From stdpp Require Import sorting pretty.
From Stdlib Require Import Ascii SpecFloat.
From S2P Require Import Prelude Digits Num.

Open Scope Z_scope.
Open Scope py_scope.

Abbreviation dict A := (list (string * A)).

Inductive value (F : Type) :=
| VNone
| VBool (b : bool)
| VInt (z : Z)
| VFloat (x : F)
| VStr (s : string)
| VList (l : list (value F))
| VDict (d : list (string * value F)).

Arguments VNone {F}.
Arguments VBool {F} _.
Arguments VInt {F} _.
Arguments VFloat {F} _.
Arguments VStr {F} _.
Arguments VList {F} _.
Arguments VDict {F} _.

(** ** Text *)

Definition at_sign : ascii := "@"%char.

(** [s.split('@')] *)
Fixpoint split_at (s : string) : list string :=
  match s with
  | EmptyString => [EmptyString]
  | String c s' =>
    if Ascii.eqb c at_sign then EmptyString :: split_at s'
    else match split_at s' with
         | x :: xs => String c x :: xs
         | [] => [String c EmptyString]
         end
  end.

(** The rest behind the first occurrence of a text *)
Fixpoint after (p s : string) : option string :=
  if String.prefix p s then Some (String.substring (String.length p) (String.length s) s)
  else match s with String _ s' => after p s' | EmptyString => None end.

Definition contains (p s : string) : bool := match after p s with Some _ => true | None => false end.

Fixpoint digits_of (acc : Z) (l : list ascii) : option Z :=
  match l with
  | [] => Some acc
  | c :: l' => match ascii_digit c with Some d => digits_of (10 * acc + d) l' | None => None end
  end.

(** [int(s)] of a text with [s.isdigit()] *)
Definition as_digits (s : string) : option Z :=
  match s with EmptyString => None | _ => digits_of 0 (String.list_ascii_of_string s) end.

Definition remove_char (c : ascii) (s : string) : string :=
  String.string_of_list_ascii (List.filter (λ a, negb (Ascii.eqb a c)) (String.list_ascii_of_string s)).

Definition count_char (c : ascii) (s : string) : nat :=
  length (List.filter (Ascii.eqb c) (String.list_ascii_of_string s)).

Definition last_char (s : string) : option ascii := last (String.list_ascii_of_string s).

(** [s.replace('\\\"', '\"')]: a backslash before a quote is dropped *)
Definition dquote : ascii := ascii_of_nat 34.
Definition backslash : ascii := ascii_of_nat 92.

Fixpoint unescape (s : string) : string :=
  match s with
  | String c s' =>
    match s' with
    | String d s'' =>
      if Ascii.eqb c backslash && Ascii.eqb d dquote then String d (unescape s'') else String c (unescape s')
    | EmptyString => String c EmptyString
    end
  | EmptyString => EmptyString
  end.

Definition replace_char (a b : ascii) (s : string) : string :=
  String.string_of_list_ascii ((λ c, if Ascii.eqb c a then b else c) <$> String.list_ascii_of_string s).

(** [value.startswith('{') and value.endswith('}')] *)
Definition in_braces (s : string) : bool :=
  String.prefix "{" s && match last_char s with Some c => Ascii.eqb c "}"%char | None => false end.

(** ** The parsers *)

Section preprocess.
Context {F : Type} {NF : Num F}.
Context (json_loads literal_eval pd_to_numeric : string → option (value F)) (float_of_string : string → option F).
Context (np_exp f32 : F → F) (nan : F).

Definition fast_parse_value (v : string) : value F :=
  match v with
  | EmptyString => VStr v
  | _ =>
    match as_digits v with
    | Some n => VInt n
    | None =>
      if (count_char "."%char v =? 1)%nat then
        match as_digits (remove_char "-"%char (remove_char "."%char v)) with
        | Some _ => match float_of_string v with Some x => VFloat x | None => VStr v end
        | None => VStr v
        end
      else VStr v
    end
  end.

Definition parse_field (v : string) : value F :=
  if in_braces v then
    match json_loads (unescape v) with Some j => j | None => VStr (unescape v) end
  else fast_parse_value v.

(** Pairs of a key and a value; an odd part at the end is ignored. *)
Fixpoint pairs (parts : list string) : list (string * string) :=
  match parts with
  | k :: v :: parts' => (k, v) :: pairs parts'
  | _ => []
  end.

(** [_parse_log_to_dict]; the list of JSON columns it also returns is not used. *)
Definition parse_log_to_dict (log_message : string) : dict (value F) :=
  if negb (contains "latency_metrics" log_message) then []
  else
    match after "latency_metrics@" log_message with
    | None => []
    | Some rest => assoc_update [] ((λ kv, (kv.1, parse_field kv.2)) <$> pairs (split_at rest))
    end.

(** A value of a line of a log file *)
Definition parse_file_field (v : string) : value F :=
  if in_braces v then match json_loads (unescape v) with Some j => j | None => VStr v end
  else if String.eqb v "null" then VDict []
  else match py_int v with
       | Some z => VInt z
       | None => match float_of_string v with Some x => VFloat x | None => VStr v end
       end.

Definition parse_file_line (line : string) : outcome (list (string * string)) :=
  if negb (contains "latency_metrics" line) then Raise AssertionError
  else
    try* line := (if contains "**@" line then
                    match after "**@latency_metrics@" line with
                    | None => Raise IndexError
                    | Some rest =>
                      (* the part up to the next occurrence of the separator *)
                      match after "**@latency_metrics@" rest with
                      | None => Ret rest
                      | Some rest' => Ret (String.substring 0 (String.length rest - String.length rest' - 19) rest)
                      end
                    end
                  else Ret line) in
    Ret (pairs (split_at line)).

Record frame := mkFrame { columns : list string; rows : list (dict (value F)) }.

(** [pd.DataFrame(data, columns=...)]: the keys of the first line are the columns *)
Definition parse_log_file (lines : list string) : outcome frame :=
  try* data := omapM parse_file_line (List.filter (λ l, negb (String.eqb l EmptyString)) lines) in
  match data with
  | [] => Raise AssertionError
  | first :: _ =>
    let cols := first.*1 in
    Ret (mkFrame cols ((λ fields, List.filter (λ e, bool_decide (e.1 ∈ cols))
                                   (assoc_update [] ((λ kv, (kv.1, parse_file_field kv.2)) <$> fields))) <$> data))
  end.

Definition safe_parse_json (v : value F) : outcome (value F) :=
  match v with
  | VDict _ => Ret v
  | VStr EmptyString => Raise AssertionError
  | VStr s =>
    match json_loads s with
    | Some j => Ret j
    | None => match json_loads (replace_char "'"%char dquote s) with Some j => Ret j | None => Raise ValueError end
    end
  | _ => Raise AssertionError
  end.

(** ** Shared pieces *)

(** [float(v)] *)
Definition to_float (v : value F) : outcome F :=
  match v with
  | VBool b => Ret (lit (if b then 1 else 0))
  | VInt z => Ret (lit z)
  | VFloat x => Ret x
  | VStr s => match float_of_string s with Some x => Ret x | None => Raise ValueError end
  | _ => Raise TypeError
  end.

Definition dget (d : dict (value F)) (k : string) (dflt : value F) : value F := default dflt (assoc k d).

(** The fields the service reads from [HYPERPARAMETERS] here *)
Record hyper := mkHyper { EXCLUDED_POD_FEATURES : option (list string); KV_FRESHNESS_HALF_LIFE : option F }.

Definition excluded_features (hp : option hyper) : list string :=
  match hp with
  | Some (mkHyper (Some ex) _) => if bool_decide ("none" ∈ ex) || bool_decide ("None" ∈ ex) then [] else ex
  | _ => []
  end.

Definition half_life (hp : option hyper) : F :=
  match hp with Some (mkHyper _ (Some h)) => h | _ => lit 15 end.

Definition excluded (hp : option hyper) (feature : string) : bool := bool_decide (feature ∈ excluded_features hp).

Definition json_columns : list string :=
  ["allPodsKvCacheHitRatios"; "allPodsKvCacheLastAccess"; "numInflightRequestsAllPods"; "numInflightPrefillRequestsAllPods";
   "numInflightDecodeRequestsAllPods"; "vllmGPUKVCacheUsage"; "vllmCPUKVCacheUsage"; "vllmNumRequestsRunning";
   "vllmNumRequestsWaiting"; "numPrefillTokensForAllPods"; "numDecodeTokensForAllPods"; "GPU"].

Definition numeric_columns : list string :=
  ["ttft"; "avg_tpot"; "total_decode_time"; "e2e"; "numInputTokens"; "numOutputTokens"; "numTotalTokens";
   "request_start_time"; "request_end_time"; "prev_reward"].

(** The features of a pod and the columns they come from *)
Definition feature_configs : list (string * string) :=
  [("kv_hit_ratio", "allPodsKvCacheHitRatios"); ("inflight_requests", "numInflightRequestsAllPods");
   ("inflight_prefill_requests", "numInflightPrefillRequestsAllPods"); ("inflight_decode_requests", "numInflightDecodeRequestsAllPods");
   ("gpu_kv_cache", "vllmGPUKVCacheUsage"); ("cpu_kv_cache", "vllmCPUKVCacheUsage"); ("running_requests", "vllmNumRequestsRunning");
   ("waiting_requests", "vllmNumRequestsWaiting"); ("prefill_tokens", "numPrefillTokensForAllPods");
   ("decode_tokens", "numDecodeTokensForAllPods")].

Definition pod_key (pod feature : string) : string := pod +:+ ("-" +:+ feature).

(** [v if isinstance(v, dict) else {}] *)
Definition as_map (v : value F) : dict (value F) := match v with VDict d => d | _ => [] end.

Definition py_min (a b : F) : F := if nlt b a then b else a.

(** ** The fast path *)

(** The loops over the JSON and the numeric columns of [preprocess_inference_fast] *)
Definition fast_json_column (col : string) (row : dict (value F)) : outcome (dict (value F)) :=
  match dget row col VNone with
  | VStr s => try* j := safe_parse_json (VStr s) in Ret (assoc_set col j row)
  | VNone => Ret (assoc_set col (VDict []) row)
  | _ => Ret row
  end.

Fixpoint ofold {A B} (f : A → B → outcome B) (l : list A) (b : B) : outcome B :=
  match l with
  | [] => Ret b
  | a :: l' => try* b' := f a b in ofold f l' b'
  end.

Definition fast_numeric_column (row : dict (value F)) (col : string) : dict (value F) :=
  match assoc col row with
  | None => row
  | Some (VInt _) | Some (VFloat _) | Some (VBool _) => row
  | Some v => assoc_set col (VFloat (match to_float v with Ret x => x | _ => nan end)) row
  end.

(** The row with its numeric columns converted *)
Definition numbered (row : dict (value F)) : dict (value F) := foldl fast_numeric_column row numeric_columns.

(** The columns that may be missing *)
Definition fill_missing (row : dict (value F)) : dict (value F) :=
  let row := match assoc "subAlgorithm" row with None => assoc_set "subAlgorithm" VNone row | Some _ => row end in
  match assoc "GPU" row with None => assoc_set "GPU" (VDict []) row | Some _ => row end.

Definition base_features (row : dict (value F)) : dict (value F) :=
  [("request_id", dget row "requestID" VNone); ("selected_pod", dget row "selectedpod" VNone);
   ("input_tokens", dget row "numInputTokens" (VInt 0)); ("output_tokens", dget row "numOutputTokens" (VInt 0));
   ("total_tokens", dget row "numTotalTokens" (VInt 0)); ("ttft", dget row "ttft" (VInt 0));
   ("avg_tpot", dget row "avg_tpot" (VInt 0)); ("e2e_latency", dget row "e2e" (VInt 0));
   ("request_start_time", dget row "request_start_time" (VInt 0)); ("request_end_time", dget row "request_end_time" (VInt 0));
   ("subAlgorithm", dget row "subAlgorithm" VNone)].

(** The value of a feature of a pod: a float, 0 when it is no number *)
Definition fast_feature (m : dict (value F)) (pod : string) : value F :=
  VFloat (match to_float (dget m pod (VInt 0)) with Ret x => x | _ => lit 0 end).

Definition fast_features (hp : option hyper) (row : dict (value F)) (pods : list string) : dict (value F) :=
  concat ((λ fc : string * string,
             if excluded hp fc.1 then []
             else (λ pod, (pod_key pod fc.1, fast_feature (as_map (dget row fc.2 (VDict []))) pod)) <$> pods) <$> feature_configs).

(** The freshness of the prefix: the weight of an age in seconds *)
Definition fresh_weight (hl age : F) : F :=
  np_exp (ndiv (nmul (nopp (nlit 693147 1000000)) age) (py_max hl (nlit 1 10))).

Definition fast_age (current_us la : F) : F :=
  let age := if nlt (lit 0) la then py_max (lit 0) (ndiv (nsub current_us la) (lit 1000000)) else lit 999 in
  py_min age (lit 999).

Definition fast_fresh (hp : option hyper) (row result : dict (value F)) (pods : list string) : outcome (dict (value F)) :=
  if excluded hp "kv_hit_ratio_fresh" || excluded hp "kv_hit_ratio" then Ret []
  else
    try* current_us := to_float (dget result "request_start_time" (VInt 0)) in
    omapM (λ pod,
      try* raw_hit := to_float (dget result (pod_key pod "kv_hit_ratio") (VFloat (lit 0))) in
      try* la := to_float (dget (as_map (dget row "allPodsKvCacheLastAccess" (VDict []))) pod (VInt 0)) in
      Ret (pod_key pod "kv_hit_ratio_fresh", VFloat (nmul raw_hit (fresh_weight (half_life hp) (fast_age current_us la))))) pods.

Definition gpu_features (hp : option hyper) (row : dict (value F)) (pods : list string) : dict (value F) :=
  if excluded hp "GPU" then []
  else (λ pod, (pod_key pod "GPU", dget (as_map (dget row "GPU" (VDict []))) pod (VStr "GPU-L3c"))) <$> pods.

(** [math.isnan] becomes 0 *)
Definition fill_nan (v : value F) : value F :=
  match v with VFloat x => if nisnan x then VInt 0 else v | _ => v end.

Definition preprocess_inference_fast (row : dict (value F)) (hp : option hyper) (pods : list string) : outcome (dict (value F)) :=
  try* row := ofold fast_json_column json_columns row in
  let row := numbered (fill_missing row) in
  let result := assoc_update (base_features row) (fast_features hp row pods) in
  try* fresh := fast_fresh hp row result pods in
  let result := assoc_update (assoc_update result fresh) (gpu_features hp row pods) in
  Ret ((λ e, (e.1, fill_nan e.2)) <$> result).

(** ** The unified path *)

Definition expected_columns : list string :=
  ["requestID"; "selectedpod"; "ttft"; "avg_tpot"; "total_decode_time"; "e2e"; "numInputTokens"; "numOutputTokens";
   "numTotalTokens"; "request_start_time"; "request_end_time"; "allPodsKvCacheHitRatios"; "numInflightRequestsAllPods";
   "vllmGPUKVCacheUsage"; "vllmCPUKVCacheUsage"; "vllmNumRequestsRunning"; "vllmNumRequestsWaiting";
   "numPrefillTokensForAllPods"; "numDecodeTokensForAllPods"; "GPU"; "subAlgorithm"].

Definition cell (row : dict (value F)) (col : string) : value F := dget row col (VFloat nan).

Definition set_rows (rs : list (dict (value F))) (f : frame) : frame := mkFrame (columns f) rs.

Definition uni_json_column (col : string) (f : frame) : outcome frame :=
  if negb (bool_decide (col ∈ columns f)) then Ret f
  else
    match rows f with
    | [] => Raise IndexError
    | row0 :: _ =>
      match cell row0 col with
      | VStr _ =>
        try* rs := omapM (λ r, try* j := safe_parse_json (cell r col) in Ret (assoc_set col j r)) (rows f) in
        Ret (set_rows rs f)
      | _ => Ret f
      end
    end.

Definition add_column (col : string) (v : value F) (f : frame) : frame :=
  if bool_decide (col ∈ columns f) then f
  else mkFrame (columns f ++ [col]) (assoc_set col v <$> rows f).

(** [pd.to_numeric(errors='coerce')] *)
Definition to_numeric (v : value F) : value F :=
  match v with
  | VInt _ | VFloat _ | VBool _ => v
  | VStr s => default (VFloat nan) (pd_to_numeric s)
  | _ => VFloat nan
  end.

Definition uni_numeric_column (f : frame) (col : string) : frame :=
  if bool_decide (col ∈ columns f) then set_rows ((λ r, assoc_set col (to_numeric (cell r col)) r) <$> rows f) f
  else f.

Definition column (f : frame) (col : string) : list (value F) := (λ r, cell r col) <$> rows f.

Definition uni_base (f : frame) : dict (list (value F)) :=
  [("request_id", column f "requestID"); ("selected_pod", column f "selectedpod"); ("input_tokens", column f "numInputTokens");
   ("output_tokens", column f "numOutputTokens"); ("total_tokens", column f "numTotalTokens"); ("ttft", column f "ttft");
   ("avg_tpot", column f "avg_tpot"); ("e2e_latency", column f "e2e"); ("request_start_time", column f "request_start_time");
   ("request_end_time", column f "request_end_time"); ("subAlgorithm", column f "subAlgorithm")].

(** [safe_get_column(df, col, {})] *)
Definition safe_get_column (f : frame) (col : string) : list (value F) :=
  if bool_decide (col ∈ columns f) then column f col else (λ _, VDict []) <$> rows f.

Definition py_strip (s : string) : string :=
  String.string_of_list_ascii (reverse (drop_spaces (reverse (drop_spaces (String.list_ascii_of_string s))))).

Definition lower_char (c : ascii) : ascii :=
  if (N.leb 65 (N_of_ascii c) && N.leb (N_of_ascii c) 90)%N then ascii_of_N (N_of_ascii c + 32) else c.

Definition py_lower (s : string) : string := String.string_of_list_ascii (lower_char <$> String.list_ascii_of_string s).

(** The map of pods in an entry of a column *)
Definition entry_map (v : value F) : outcome (dict (value F)) :=
  match v with
  | VDict d => Ret d
  | VStr s =>
    let stripped := py_strip s in
    if String.eqb stripped EmptyString || bool_decide (py_lower stripped ∈ ["null"; "none"]) then Ret []
    else
      match json_loads stripped with
      | Some (VDict d) => Ret d
      | Some _ => Raise Exception_
      | None =>
        match literal_eval stripped with
        | Some (VDict d) => Ret d
        | Some _ => Raise Exception_
        | None => Ret []
        end
      end
  | _ => Ret []
  end.

(** [pd.isna] of a scalar *)
Definition is_na (v : value F) : bool := match v with VNone => true | VFloat x => nisnan x | _ => false end.

(** [np.array([v], dtype=np.float32)[0]] *)
Definition np_float32 (v : value F) : outcome (value F) :=
  match v with
  | VNone => Ret (VFloat nan)
  | VDict _ => Raise TypeError
  | VList _ => Raise ValueError
  | _ => try* x := to_float v in Ret (VFloat (f32 x))
  end.

(** [extract_pod_features_fast], for one pod: a single row goes through float32, and a
    text is kept as it is; in a batch what is missing is filled in. *)
Definition pod_column (maps : list (dict (value F))) (dflt : value F) (pod : string) : outcome (list (value F)) :=
  match maps with
  | [m] =>
    match dget m pod dflt with
    | VStr s => Ret [VStr s]
    | v => try* x := np_float32 v in Ret [x]
    end
  | _ => Ret ((λ m, match assoc pod m with Some v => if is_na v then dflt else v | None => dflt end) <$> maps)
  end.

Definition extract_pod_features (entries : list (value F)) (pods : list string) (dflt : value F) : outcome (dict (list (value F))) :=
  try* maps := omapM entry_map entries in
  omapM (λ pod, try* c := pod_column maps dflt pod in Ret (pod, c)) pods.

Definition uni_feature (hp : option hyper) (f : frame) (pods : list string) (feature col : string) (dflt : value F) :
    outcome (dict (list (value F))) :=
  if excluded hp feature then Ret []
  else
    try* cs := extract_pod_features (safe_get_column f col) pods dflt in
    Ret ((λ e, (pod_key e.1 feature, e.2)) <$> cs).

Definition uni_age (current_us la : F) : F :=
  np_where (nlt (lit 0) la) (np_maximum (lit 0) (ndiv (nsub current_us la) (lit 1000000))) (lit 999).

(** [raw_hit * weight]: a text cannot be multiplied *)
Definition times (hl : F) (hit la time : value F) : outcome (value F) :=
  try* t := to_float time in
  try* l := to_float la in
  match hit with
  | VStr _ => Raise TypeError
  | _ => try* h := to_float hit in Ret (VFloat (nmul h (fresh_weight hl (np_clip (uni_age t l) (lit 0) (lit 999)))))
  end.

Fixpoint omap3 {A B C D} (f : A → B → C → outcome D) (xs : list A) (ys : list B) (zs : list C) : outcome (list D) :=
  match xs, ys, zs with
  | x :: xs', y :: ys', z :: zs' => try* d := f x y z in try* ds := omap3 f xs' ys' zs' in Ret (d :: ds)
  | _, _, _ => Ret []
  end.

Definition uni_fresh (hp : option hyper) (f : frame) (base : dict (list (value F))) (pods : list string) : outcome (dict (list (value F))) :=
  if excluded hp "kv_hit_ratio_fresh" || excluded hp "kv_hit_ratio" then Ret []
  else
    try* las := extract_pod_features (safe_get_column f "allPodsKvCacheLastAccess") pods (VInt 0) in
    omapM (λ e : string * list (value F),
      try* col := omap3 (times (half_life hp)) (default [] (assoc (pod_key e.1 "kv_hit_ratio") base)) e.2
                        (default [] (assoc "request_start_time" base)) in
      Ret (pod_key e.1 "kv_hit_ratio_fresh", col)) las.

(** The position of a text in a sorted list of the distinct selected pods *)
Definition str_of (v : value F) : outcome string := match v with VStr s => Ret s | _ => Raise TypeError end.

Fixpoint index_of (x : string) (l : list string) : option nat :=
  match l with [] => None | y :: l' => if String.eqb x y then Some 0%nat else S <$> index_of x l' end.

Definition action_values (selected : list (value F)) : outcome (list (value F)) :=
  try* pods := omapM str_of selected in
  let unique_pods := merge_sort String.le (remove_dups pods) in
  omapM (λ p, match index_of p unique_pods with Some i => Ret (VInt (Z.of_nat i)) | None => Raise KeyError end) pods.

(** [fillna(0)] *)
Definition fill_na (v : value F) : value F := if is_na v then VInt 0 else v.

Definition uni_prepare (f : frame) : outcome frame :=
  try* f := ofold uni_json_column json_columns f in
  let f := add_column "GPU" (VDict []) (add_column "subAlgorithm" VNone f) in
  if forallb (λ c, bool_decide (c ∈ columns f)) expected_columns then Ret (foldl uni_numeric_column f numeric_columns)
  else Raise AssertionError.

(** The columns of the processed frame, without those of the rewards; [f] is prepared *)
Definition unified_columns (is_training : bool) (f : frame) (hp : option hyper) (pods : list string) :
    outcome (dict (list (value F))) :=
  let base := uni_base f in
  try* hits := uni_feature hp f pods "kv_hit_ratio" "allPodsKvCacheHitRatios" (VInt 0) in
  let base := assoc_update base hits in
  try* fresh := uni_fresh hp f base pods in
  try* others := omapM (λ fc : string * string, uni_feature hp f pods fc.1 fc.2 (VInt 0)) (tail feature_configs) in
  try* gpus := uni_feature hp f pods "GPU" "GPU" (VStr "GPU-L3c") in
  let base := assoc_update base (fresh ++ concat others ++ gpus) in
  try* base := (if is_training then
                  try* actions := action_values (default [] (assoc "selected_pod" base)) in
                  Ret (assoc_set "action" actions base)
                else Ret base) in
  Ret ((λ e : string * list (value F), (e.1, fill_na <$> e.2)) <$> base).

Definition preprocess_data_unified (is_training : bool) (f : frame) (hp : option hyper) (pods : list string) :
    outcome (dict (list (value F))) :=
  try* f := uni_prepare f in unified_columns is_training f hp pods.

(** The dictionary a single row for inference becomes *)
Definition single_row_of (cols : dict (list (value F))) : dict (value F) := (λ e, (e.1, default VNone (head e.2))) <$> cols.

Definition unified_single_row (f : frame) (hp : option hyper) (pods : list string) : outcome (dict (value F)) :=
  try* cols := preprocess_data_unified false f hp pods in Ret (single_row_of cols).

(** ** The pods of a row and the inference branch of [main] *)

Definition pod_id_columns : list string :=
  ["allPodsKvCacheHitRatios"; "numInflightRequestsAllPods"; "vllmGPUKVCacheUsage"; "vllmCPUKVCacheUsage";
   "vllmNumRequestsRunning"; "vllmNumRequestsWaiting"].

(** [.keys()] of a value *)
Definition keys_of (v : value F) : outcome (list string) := match v with VDict d => Ret d.*1 | _ => Raise Exception_ end.

Definition sorted_set (l : list string) : list string := merge_sort String.le (remove_dups l).

Definition single_row_pods (row : dict (value F)) : outcome (list string) :=
  try* ks := omapM (λ col, keys_of (dget row col (VDict []))) pod_id_columns in
  match sorted_set (concat ks) with
  | [] => Raise AssertionError
  | pods => Ret pods
  end.

(** The pods of the rows of a frame; what is no map is skipped. *)
Definition row_pods (v : value F) : outcome (list string) :=
  match v with
  | VDict d => Ret d.*1
  | VStr s => match json_loads s with Some j => keys_of j | None => Ret [] end
  | _ => Ret []
  end.

Definition batch_pods (f : frame) : outcome (list string) :=
  try* ks := omapM row_pods (concat ((λ col, if bool_decide (col ∈ columns f) then column f col else []) <$> pod_id_columns)) in
  Ret (sorted_set (concat ks)).

Definition main_inference (log_message : string) (hp : option hyper) : outcome (dict (value F) * list string) :=
  if String.eqb log_message EmptyString then Raise AssertionError
  else
    let row := parse_log_to_dict log_message in
    match row with
    | [] => Raise AssertionError
    | _ =>
      try* pods := single_row_pods row in
      try* result := preprocess_inference_fast row hp pods in
      Ret (result, pods)
    end.

End preprocess.

(** ** Lemmas: text *)

Fixpoint no_at (s : string) : bool := match s with EmptyString => true | String c s' => negb (Ascii.eqb c at_sign) && no_at s' end.

(** What the gateway writes: keys and values joined by [@] *)
Fixpoint join_at (parts : list string) : string :=
  match parts with
  | [] => EmptyString
  | [x] => x
  | x :: parts' => x +:+ String at_sign (join_at parts')
  end.

Definition flat (fields : list (string * string)) : list string := concat ((λ f, [f.1; f.2]) <$> fields).

Definition log_line (fields : list (string * string)) : string := "**@latency_metrics@" +:+ join_at (flat fields).

Lemma split_at_cons x s : no_at x = true → split_at (x +:+ String at_sign s) = x :: split_at s.
Proof.
  induction x as [|c x IH]; intros H; [done|]. rewrite append_cons. simpl in *. apply andb_true_iff in H as [Hc Hx].
  apply negb_true_iff in Hc. by rewrite Hc, IH.
Qed.

Lemma split_at_last x : no_at x = true → split_at x = [x].
Proof.
  induction x as [|c x IH]; intros H; [done|]. simpl in *. apply andb_true_iff in H as [Hc Hx].
  apply negb_true_iff in Hc. by rewrite Hc, IH.
Qed.

Lemma split_join parts : parts ≠ [] → Forall (λ x, no_at x = true) parts → split_at (join_at parts) = parts.
Proof.
  intros Hne. induction 1 as [|x parts Hx Hp IH]; [done|]. destruct parts as [|y parts]; [by apply split_at_last|].
  change (join_at (x :: y :: parts)) with (x +:+ String at_sign (join_at (y :: parts))). rewrite split_at_cons by done. by rewrite IH.
Qed.

Lemma pairs_flat fields : pairs (flat fields) = fields.
Proof. induction fields as [|[k v] fields IH]; [done|]. unfold flat in *. csimpl. simpl. by rewrite IH. Qed.

Lemma substring_rest n s : (String.length s ≤ n)%nat → String.substring 0 n s = s.
Proof.
  revert n. induction s as [|c s IH]; intros n Hn; [by destruct n|]. destruct n as [|n]; simpl in *; [lia|]. by rewrite IH by lia.
Qed.

Lemma substring_append p s n : (String.length s ≤ n)%nat → String.substring (String.length p) n (p +:+ s) = s.
Proof. intros Hn. induction p as [|c p IH]; [by apply substring_rest|]. rewrite append_cons. simpl. apply IH. Qed.

Lemma prefix_append p s : String.prefix p (p +:+ s) = true.
Proof. induction p as [|c p IH]; [by destruct s|]. rewrite append_cons. simpl. by destruct (Ascii.ascii_dec c c). Qed.

Lemma after_here p s : after p (p +:+ s) = Some s.
Proof.
  destruct (p +:+ s) as [|c t] eqn:E; unfold after; rewrite <-E, prefix_append.
  - f_equal. apply substring_append. rewrite length_append. lia.
  - fold after. f_equal. apply substring_append. rewrite length_append. lia.
Qed.

Lemma after_skip p c s : String.prefix p (String c s) = false → after p (String c s) = after p s.
Proof. intros H. cbn [after]. by rewrite H. Qed.

(** The prefix of the gateway's lines is found where it is. *)
Lemma after_metrics body : after "latency_metrics@" ("**@latency_metrics@" +:+ body) = Some body.
Proof.
  change ("**@latency_metrics@" +:+ body) with (String "*" (String "*" (String "@" ("latency_metrics@" +:+ body)))).
  rewrite !after_skip by reflexivity. apply after_here.
Qed.

Lemma contains_metrics body : contains "latency_metrics" ("**@latency_metrics@" +:+ body) = true.
Proof.
  unfold contains. change ("**@latency_metrics@" +:+ body) with (String "*" (String "*" (String "@" ("latency_metrics" +:+ ("@" +:+ body))))).
  rewrite !after_skip by reflexivity. by rewrite after_here.
Qed.

Lemma flat_ok fields : fields ≠ [] → Forall (λ f, no_at f.1 = true ∧ no_at f.2 = true) fields →
  split_at (join_at (flat fields)) = flat fields.
Proof.
  intros Hne Hf. apply split_join; [by destruct fields as [|[] ]|].
  induction Hf as [|[k v] fields [Hk Hv] _ IH]; [done|]. unfold flat in *. csimpl.
  constructor; [done|]. constructor; [done|]. destruct fields; [constructor|by apply IH].
Qed.

Lemma digits_of_val cs ds acc : is_digits cs ds → digits_of acc cs = Some (foldl (λ a d, 10 * a + d) acc ds).
Proof. intros H. revert acc. induction H as [|c d cs ds Hc _ IH]; intros acc; [done|]. cbn [digits_of foldl]. by rewrite Hc, IH. Qed.

(** A number is read back from its decimal text. *)
Lemma as_digits_pretty (n : N) : as_digits (pretty n) = Some (Z.of_N n).
Proof.
  destruct (pretty_digits n) as (c & cs & ds & Hl & Hd & Hv). unfold as_digits.
  destruct (pretty n) as [|c' s] eqn:E; [done|]. rewrite Hl. rewrite (digits_of_val _ _ _ Hd). by f_equal.
Qed.

Lemma int_digits_val cs ds acc b : is_digits cs ds → (cs ≠ [] ∨ b = true) →
  int_digits acc b cs = Some (foldl (λ a d, 10 * a + d) acc ds).
Proof.
  intros H. revert acc b. induction H as [|c d cs ds Hc _ IH]; intros acc b Hb; [by destruct Hb; simplify_eq|].
  cbn [int_digits foldl]. rewrite Hc. apply IH. by right.
Qed.

Lemma digit_not_space c d : ascii_digit c = Some d → ascii_is_space c = false ∧ Ascii.eqb c "-"%char = false ∧ Ascii.eqb c "+"%char = false.
Proof.
  unfold ascii_digit, ascii_is_space. destruct ((48 <=? _)%nat && _) eqn:H; [|done]. intros _.
  apply andb_true_iff in H as [H1%Nat.leb_le H2%Nat.leb_le]. split_and!.
  - apply orb_false_iff. split; apply andb_false_iff; right; apply Nat.leb_gt; lia.
  - apply Ascii.eqb_neq. intros ->. by apply Nat.leb_le in H1.
  - apply Ascii.eqb_neq. intros ->. by apply Nat.leb_le in H1.
Qed.

Lemma drop_spaces_digits cs ds : is_digits cs ds → drop_spaces cs = cs.
Proof. destruct 1 as [|c d cs ds Hc _]; [done|]. cbn [drop_spaces]. by destruct (digit_not_space c d Hc) as [-> _]. Qed.

(** Digits are the same number for [int(...)] and for the fast parser. *)
Lemma py_int_digits s n : as_digits s = Some n → py_int s = Some n.
Proof.
  unfold as_digits, py_int. destruct s as [|c s]; [done|]. cbn [String.list_ascii_of_string].
  remember (c :: String.list_ascii_of_string s) as l eqn:El. intros H. assert (∃ ds, is_digits l ds) as [ds Hd].
  { clear El. revert H. generalize 0. induction l as [|a l IH]; intros acc; [intros _; exists []; constructor|]. cbn [digits_of].
    destruct (ascii_digit a) as [d|] eqn:Ha; [|done]. intros [ds Hds]%IH. exists (d :: ds). by constructor. }
  assert (is_digits (reverse l) (reverse ds)) as Hr by by apply Forall2_reverse.
  rewrite (drop_spaces_digits l ds), (drop_spaces_digits (reverse l) (reverse ds)), reverse_involutive by done.
  rewrite (digits_of_val _ _ _ Hd) in H. subst l. apply Forall2_cons_inv_l in Hd as (d & ds' & Hc & Hd & ->).
  destruct (digit_not_space c d Hc) as (_ & -> & ->). rewrite (int_digits_val _ (d :: ds')); [done|by constructor|by left].
Qed.

Lemma filter_all {A} (f : A → bool) (l : list A) : Forall (λ x, f x = true) l → List.filter f l = l.
Proof. induction 1 as [|x l Hx _ IH]; simpl; [done|]. by rewrite Hx, IH. Qed.

Section parsing.
Context {F : Type} {NF : Num F} (json_loads : string → option (value F)) (float_of_string : string → option F).

Lemma parse_log_line fields :
  fields ≠ [] → NoDup fields.*1 → Forall (λ f, no_at f.1 = true ∧ no_at f.2 = true) fields →
  parse_log_to_dict json_loads float_of_string (log_line fields) = (λ f, (f.1, parse_field json_loads float_of_string f.2)) <$> fields.
Proof.
  intros Hne Hnd Hf. unfold parse_log_to_dict, log_line. rewrite contains_metrics, after_metrics. simpl.
  rewrite flat_ok, pairs_flat by done. apply assoc_update_nil. rewrite <-list_fmap_compose. exact Hnd.
Qed.

Lemma parse_field_digits (n : N) : parse_field json_loads float_of_string (pretty n) = VInt (Z.of_N n).
Proof.
  pose proof (as_digits_pretty n) as Hd. unfold parse_field. destruct (in_braces (pretty n)) eqn:Hb.
  - exfalso. unfold in_braces in Hb. destruct (pretty_digits n) as (c & cs & ds & Hl & Hc & _).
    destruct (pretty n) as [|c' s]; [done|]. simpl in Hl. injection Hl as -> _. apply Forall2_cons_inv_l in Hc as (d & _ & Hc & _).
    apply andb_true_iff in Hb as [Hb _]. cbn [String.prefix] in Hb. by destruct (Ascii.ascii_dec "{"%char c) as [<-|].
  - unfold fast_parse_value. rewrite Hd. by destruct (pretty n).
Qed.

(** A line of the gateway is read back: the message of a request, whose fields are
    joined by [@], becomes the dictionary of exactly these fields in their order, with
    the integers and the maps that were written. *)
Theorem log_message_roundtrip (fields : list (string * N)) (maps : list (string * string)) :
  let all := ((λ f, (f.1, pretty f.2)) <$> fields) ++ maps in
  all ≠ [] → NoDup all.*1 → Forall (λ f, no_at f.1 = true ∧ no_at f.2 = true) all →
  Forall (λ f, in_braces f.2 = true ∧ is_Some (json_loads (unescape f.2))) maps →
  parse_log_to_dict json_loads float_of_string (log_line all) =
    ((λ f, (f.1, VInt (Z.of_N f.2))) <$> fields) ++ ((λ f, (f.1, default VNone (json_loads (unescape f.2)))) <$> maps).
Proof.
  intros all Hne Hnd Hf Hm. rewrite parse_log_line by done. unfold all. rewrite fmap_app. f_equal.
  - rewrite <-list_fmap_compose. apply list_fmap_ext. intros i [k n] _. simpl. by rewrite parse_field_digits.
  - apply list_fmap_ext. intros i [k v] Hv%list_elem_of_lookup_2. rewrite Forall_forall in Hm. destruct (Hm _ Hv) as [Hb [j Hj]].
    unfold parse_field. simpl in *. by rewrite Hb, Hj.
Qed.

Lemma parse_file_line_eq fields :
  fields ≠ [] → Forall (λ f, no_at f.1 = true ∧ no_at f.2 = true) fields →
  after "**@latency_metrics@" (join_at (flat fields)) = None →
  parse_file_line (log_line fields) = Ret fields.
Proof.
  intros Hne Hf Hno. unfold parse_file_line, log_line. rewrite contains_metrics. cbn [negb].
  assert (contains "**@" ("**@latency_metrics@" +:+ join_at (flat fields)) = true) as ->.
  { unfold contains. change ("**@latency_metrics@" +:+ ?b) with ("**@" +:+ ("latency_metrics@" +:+ b)). by rewrite after_here. }
  rewrite after_here, Hno. cbn [obind]. by rewrite flat_ok, pairs_flat.
Qed.

(** The values on which the two parsers agree: JSON objects, digits, decimal numbers,
    and texts that are no number. *)
Definition plain_value (v : string) : bool :=
  if in_braces v then match json_loads (unescape v) with Some _ => true | None => false end
  else match as_digits v with
       | Some _ => negb (String.eqb v "null")
       | None =>
         (negb (String.eqb v "null")) && match py_int v with Some _ => false | None => true end &&
         match float_of_string v with
         | Some _ => (count_char "."%char v =? 1)%nat &&
                     match as_digits (remove_char "-"%char (remove_char "."%char v)) with Some _ => true | None => false end
         | None => true
         end
       end.

Lemma plain_value_agrees v : plain_value v = true → parse_file_field json_loads float_of_string v = parse_field json_loads float_of_string v.
Proof.
  unfold plain_value, parse_file_field, parse_field. destruct (in_braces v); [by destruct (json_loads _)|].
  unfold fast_parse_value. destruct (as_digits v) as [n|] eqn:Hd.
  - intros ->%negb_true_iff. rewrite (py_int_digits _ _ Hd). destruct v; [done|]. done.
  - intros [[->%negb_true_iff Hi]%andb_true_iff Hf]%andb_true_iff. destruct (py_int v); [done|].
    destruct (float_of_string v) eqn:E.
    + apply andb_true_iff in Hf as [Hc Ha]. rewrite Hc. destruct (as_digits (remove_char _ _)); [by destruct v|done].
    + destruct v; [done|]. by repeat case_match.
Qed.

(** A row keeps the columns it has. *)
Lemma file_row_eq (fs : list (string * string)) : Forall (λ f, plain_value f.2 = true) fs →
  List.filter (λ e, bool_decide (e.1 ∈ fs.*1)) ((λ kv, (kv.1, parse_file_field json_loads float_of_string kv.2)) <$> fs) =
  (λ f, (f.1, parse_field json_loads float_of_string f.2)) <$> fs.
Proof.
  intros Hf. rewrite filter_all.
  - apply list_fmap_ext. intros i [k v] Hv%list_elem_of_lookup_2. rewrite Forall_forall in Hf. f_equal. apply plain_value_agrees, (Hf _ Hv).
  - apply Forall_forall. intros e ([k v] & -> & Hin)%list_elem_of_fmap. apply bool_decide_eq_true. simpl.
    apply list_elem_of_fmap. by exists (k, v).
Qed.

(** Training and serving read a line alike: for lines with distinct keys and values
    that are JSON objects, unsigned integers, decimal numbers or other text, the file
    parser gives one row per line with the same values the message parser gives. *)
Theorem parsers_agree (lines : list (list (string * string))) first :
  head lines = Some first → Forall (λ fs, fs.*1 = first.*1) lines → NoDup first.*1 → first ≠ [] →
  Forall (λ fs, Forall (λ f, no_at f.1 = true ∧ no_at f.2 = true ∧ plain_value f.2 = true) fs) lines →
  Forall (λ fs, after "**@latency_metrics@" (join_at (flat fs)) = None) lines →
  parse_log_file json_loads float_of_string (log_line <$> lines) =
    Ret (mkFrame first.*1 ((λ fs, parse_log_to_dict json_loads float_of_string (log_line fs)) <$> lines)).
Proof.
  intros Hhd Hkeys Hnd Hne Hok Hno. unfold parse_log_file.
  assert (∀ fs, fs ∈ lines → fs.*1 = first.*1 ∧ fs ≠ [] ∧ Forall (λ f, no_at f.1 = true ∧ no_at f.2 = true ∧ plain_value f.2 = true) fs ∧
            after "**@latency_metrics@" (join_at (flat fs)) = None) as Hall.
  { rewrite Forall_forall in Hkeys, Hok, Hno. intros fs Hfs. split_and!; [by apply Hkeys| |by apply Hok|by apply Hno].
    intros ->. specialize (Hkeys _ Hfs). by destruct first. }
  assert (List.filter (λ l, negb (String.eqb l EmptyString)) (log_line <$> lines) = log_line <$> lines) as ->.
  { apply filter_all, Forall_forall. by intros l (fs & -> & _)%list_elem_of_fmap. }
  assert (omapM parse_file_line (log_line <$> lines) = Ret lines) as ->.
  { clear Hhd Hkeys Hok Hno. induction lines as [|fs lines IH]; [done|]. csimpl.
    destruct (Hall fs) as (_ & Hfs & Hf & Hn); [left|]. rewrite parse_file_line_eq; [|done| |done].
    - cbn [obind]. rewrite IH; [done|]. intros x Hx. apply Hall. by right.
    - eapply Forall_impl; [exact Hf|]. by intros x (? & ? & ?). }
  cbn [obind]. destruct lines as [|l0 lines]; [done|]. injection Hhd as ->. do 2 f_equal.
  apply list_fmap_ext. intros i fs Hfs%list_elem_of_lookup_2. destruct (Hall fs Hfs) as (Hk & Hfn & Hf & _).
  rewrite parse_log_line; [|done|by rewrite Hk|eapply Forall_impl; [exact Hf|]; by intros x (? & ? & ?)].
  rewrite assoc_update_nil by (rewrite <-list_fmap_compose; by rewrite <-Hk in Hnd).
  rewrite <-Hk. apply file_row_eq. eapply Forall_impl; [exact Hf|]. by intros x (? & ? & ?).
Qed.

End parsing.

(** ** Lemmas: keys of pods *)

Fixpoint no_dash (s : string) : bool := match s with EmptyString => true | String c s' => negb (Ascii.eqb c "-"%char) && no_dash s' end.

Lemma no_dash_app s1 s2 : no_dash (s1 +:+ s2) = no_dash s1 && no_dash s2.
Proof. induction s1 as [|c s1 IH]; [done|]. rewrite append_cons. simpl. by rewrite IH, andb_assoc. Qed.

Lemma pod_key_dash p f : no_dash (pod_key p f) = false.
Proof. unfold pod_key. rewrite no_dash_app. simpl. apply andb_false_r. Qed.

(** Pod and feature can be read off the key. *)
Lemma pod_key_inj p p' f f' : no_dash f = true → no_dash f' = true → pod_key p f = pod_key p' f' → p = p' ∧ f = f'.
Proof.
  intros Hf Hf'. revert p'. induction p as [|c p IH]; intros [|c' p'] H.
  - split; [done|]. by injection H.
  - exfalso. unfold pod_key in H. rewrite append_cons in H. injection H as <- H. change (EmptyString +:+ ?x) with x in H.
    subst f. fold (pod_key p' f') in Hf. by rewrite pod_key_dash in Hf.
  - exfalso. unfold pod_key in H. rewrite append_cons in H. injection H as -> H. change (EmptyString +:+ ?x) with x in H.
    subst f'. fold (pod_key p f) in Hf'. by rewrite pod_key_dash in Hf'.
  - unfold pod_key in H. rewrite !append_cons in H. injection H as -> H. destruct (IH p' H) as [-> ->]. done.
Qed.

Section blocks.
Context {V : Type}.

(** The entries of some features for all pods, feature by feature *)
Definition block (gs : list (string * (string → V))) (pods : list string) : dict V :=
  concat ((λ g, (λ pod, (pod_key pod g.1, g.2 pod)) <$> pods) <$> gs).

Lemma block_app gs gs' pods : block (gs ++ gs') pods = block gs pods ++ block gs' pods.
Proof. unfold block. by rewrite fmap_app, concat_app. Qed.

Lemma block_perm gs gs' pods : gs ≡ₚ gs' → block gs pods ≡ₚ block gs' pods.
Proof.
  induction 1 as [|g gs gs' _ IH|g g' gs|gs1 gs2 gs3 _ IH1 _ IH2]; unfold block in *; csimpl; [done| | |by etrans].
  - by rewrite IH.
  - rewrite !app_assoc. apply Permutation_app_tail, Permutation_app_comm.
Qed.

Lemma block_elem gs pods k v : (k, v) ∈ block gs pods ↔ ∃ g pod, g ∈ gs ∧ pod ∈ pods ∧ k = pod_key pod g.1 ∧ v = g.2 pod.
Proof.
  unfold block. rewrite elem_of_concat_map. setoid_rewrite list_elem_of_fmap. split.
  - intros (g & Hg & pod & [= -> ->] & Hp). by exists g, pod.
  - intros (g & pod & Hg & Hp & -> & ->). exists g. split; [done|]. by exists pod.
Qed.

Lemma block_NoDup gs pods : NoDup pods → NoDup gs.*1 → Forall (λ g, no_dash g.1 = true) gs → NoDup (block gs pods).*1.
Proof.
  intros Hp Hg Hd. induction Hd as [|[f g] gs Hf Hd IH]; [constructor|]. csimpl. apply NoDup_cons in Hg as [Hfg Hg].
  unfold block. csimpl. rewrite fmap_app. apply NoDup_app. split_and!; [| |by apply IH].
  - rewrite <-list_fmap_compose. apply NoDup_fmap_2_strong; [|done]. intros p p' _ _ H. by apply pod_key_inj in H as [].
  - intros k (e & -> & Hk)%list_elem_of_fmap. apply list_elem_of_fmap in Hk as (p & -> & Hpod). simpl.
    intros ([k v] & Hk & Hin)%list_elem_of_fmap. simpl in Hk. subst k.
    apply (proj1 (block_elem gs pods _ _)) in Hin as (g' & pod' & Hg' & _ & Hkey & _).
    rewrite Forall_forall in Hd. apply pod_key_inj in Hkey as [_ Hfe]; [|done|by apply Hd].
    simpl in Hfe. apply Hfg. rewrite Hfe. apply list_elem_of_fmap. by exists g'.
Qed.

Lemma assoc_update_lookup (d l : dict V) k : NoDup l.*1 →
  assoc k (assoc_update d l) = match assoc k l with Some v => Some v | None => assoc k d end.
Proof.
  revert d. induction l as [|[k' v] l IH]; intros d Hnd; [done|]. apply NoDup_cons in Hnd as [Hk Hl]. simpl in Hk.
  change (assoc_update d ((k', v) :: l)) with (assoc_update (assoc_set k' v d) l). rewrite IH by done. simpl.
  case_decide as E; [subst; rewrite (assoc_None _ _ Hk); apply assoc_set_eq|]. by rewrite assoc_set_ne.
Qed.

Lemma assoc_perm (l l' : dict V) k : NoDup l.*1 → l ≡ₚ l' → assoc k l = assoc k l'.
Proof.
  intros Hnd Hp. assert (NoDup l'.*1) as Hnd' by by rewrite <-Hp.
  destruct (assoc k l) as [v|] eqn:E.
  - symmetry. apply assoc_elem_of; [done|]. rewrite <-Hp. by apply assoc_elem.
  - destruct (assoc k l') as [v|] eqn:E'; [|done]. exfalso. apply assoc_elem in E'. rewrite <-Hp in E'.
    by rewrite (assoc_elem_of _ v) in E.
Qed.

Lemma assoc_update_app (d l l' : dict V) : assoc_update (assoc_update d l) l' = assoc_update d (l ++ l').
Proof. unfold assoc_update. by rewrite foldl_app. Qed.

Lemma block_lookup gs pods g pod : NoDup pods → NoDup gs.*1 → Forall (λ g, no_dash g.1 = true) gs →
  g ∈ gs → pod ∈ pods → assoc (pod_key pod g.1) (block gs pods) = Some (g.2 pod).
Proof. intros. apply assoc_elem_of; [by apply block_NoDup|]. apply block_elem. by exists g, pod. Qed.

(** A key without a dash is not the key of a pod. *)
Lemma block_no_dash gs pods k : no_dash k = true → assoc k (block gs pods) = None.
Proof.
  intros Hk. destruct (assoc k _) as [v|] eqn:E; [|done]. apply assoc_elem, block_elem in E as (g & pod & _ & _ & -> & _).
  by rewrite pod_key_dash in Hk.
Qed.

End blocks.

Lemma assoc_set_same {A} k (v : A) (l : dict A) : assoc k l = Some v → assoc_set k v l = l.
Proof.
  induction l as [|[k' w] l IH]; simpl; [done|]. case_decide as E; [subst; by intros [= ->]|]. intros H. by rewrite IH.
Qed.

Definition wrap {A} (e : string * A) : string * list A := (e.1, [e.2]).

Lemma assoc_set_wrap {A} k (v : A) (l : dict A) : assoc_set k [v] (wrap <$> l) = wrap <$> assoc_set k v l.
Proof. induction l as [|[k' w] l IH]; csimpl; [done|]. case_decide; csimpl; [done|]. by rewrite IH. Qed.

Lemma assoc_update_wrap {A} (d l : dict A) : assoc_update (wrap <$> d) (wrap <$> l) = wrap <$> assoc_update d l.
Proof.
  unfold assoc_update. revert d. induction l as [|[k v] l IH]; intros d; csimpl; [done|]. by rewrite assoc_set_wrap, IH.
Qed.

Lemma assoc_wrap {A} k (l : dict A) : assoc k (wrap <$> l) = (λ v, [v]) <$> assoc k l.
Proof. induction l as [|[k' v] l IH]; csimpl; [done|]. by case_decide. Qed.

(** ** The order of numbers *)

(** What the two formulas of the age rely on: numbers that are not NaN are ordered. *)
Class NumOrder (F : Type) {NF : Num F} : Prop := {
  le_lt (a b : F) : nisnan a = false → nisnan b = false → nle b a = negb (nlt a b);
  lt_asym (a b : F) : nlt a b = true → nlt b a = false;
  zero_ok : nisnan (lit 0) = false;
  oldest_ok : nisnan (lit 999) = false;
  zero_lt_oldest : nlt (lit 0) (lit 999) = true
}.

#[export] Instance NumOrder_Q : NumOrder Q.
Proof.
  split; [|simpl|done..].
  - intros a b _ _. simpl. by rewrite negb_involutive.
  - intros a b H%negb_true_iff. destruct (Qle_bool_spec b a); [done|]. apply negb_false_iff. apply Qle_bool_iff. lra.
Qed.

Lemma SFcompare_swap a b : SFcompare b a = CompOpp <$> SFcompare a b.
Proof.
  destruct a as [[]|[]| |[] ma ea], b as [[]|[]| |[] mb eb]; try done; simpl; rewrite (Z.compare_antisym ea eb);
    destruct (ea ?= eb); try done; simpl; f_equal; change (Pos.compare_cont Eq mb ma) with (Pos.compare mb ma);
    change (Pos.compare_cont Eq ma mb) with (Pos.compare ma mb); rewrite (Pos.compare_antisym ma mb);
    by destruct (Pos.compare ma mb).
Qed.

Lemma SFcompare_some a b : nisnan a = false → nisnan b = false → ∃ c, SFcompare a b = Some c.
Proof. destruct a as [[]|[]| |[] ma ea], b as [[]|[]| |[] mb eb]; simpl; try done; eauto; destruct (ea ?= eb); eauto. Qed.

#[export] Instance NumOrder_b64 : NumOrder spec_float.
Proof.
  split; [| |done..].
  - intros a b Ha Hb. simpl. unfold SFleb, SFltb. rewrite (SFcompare_swap a b).
    destruct (SFcompare_some a b Ha Hb) as [[] ->]; done.
  - intros a b. simpl. unfold SFltb. rewrite (SFcompare_swap a b). by destruct (SFcompare a b) as [[]|].
Qed.

Section ages.
Context {F : Type} {NF : Num F} `{!NumOrder F}.

Lemma lt_irrefl (a : F) : nlt a a = false.
Proof. destruct (nlt a a) eqn:E; [|done]. by rewrite (lt_asym a a) in E. Qed.

(** Clipping a number that is at least zero is taking the smaller one. *)
Lemma clip_min (x : F) : nisnan x = false → nlt x (lit 0) = false → np_clip x (lit 0) (lit 999) = py_min x (lit 999).
Proof.
  intros Hx H0. unfold np_clip, np_minimum, np_maximum, py_min.
  rewrite Hx, zero_ok, (le_lt x (lit 0)), H0 by (done || apply zero_ok). cbn [negb].
  rewrite Hx, oldest_ok, (le_lt (lit 999) x) by (done || apply oldest_ok). by destruct (nlt (lit 999) x).
Qed.

Lemma age_agrees (t la : F) : nisnan (ndiv (nsub t la) (lit 1000000)) = false →
  np_clip (uni_age t la) (lit 0) (lit 999) = fast_age t la.
Proof.
  intros Ha. unfold uni_age, fast_age, np_where. destruct (nlt (lit 0) la); [|apply clip_min; [apply oldest_ok|apply lt_asym, zero_lt_oldest]].
  set (a := ndiv _ _) in *. unfold np_maximum, py_max. rewrite zero_ok, Ha, (le_lt (lit 0) a) by (done || apply zero_ok).
  destruct (nlt (lit 0) a) eqn:E; simpl.
  - apply clip_min; [done|by apply lt_asym].
  - apply clip_min; [apply zero_ok|apply lt_irrefl].
Qed.

End ages.

(** ** The two paths of a request *)

Ltac by_decision := refine (bool_decide_unpack _ _); vm_compute; exact I.

Lemma feature_columns_json : Forall (λ c, c ∈ json_columns) ("allPodsKvCacheLastAccess" :: feature_configs.*2).
Proof. by_decision. Qed.

Section paths.
Context {F : Type} {NF : Num F} `{!NumOrder F}.
Context (json_loads literal_eval pd_to_numeric : string → option (value F)) (float_of_string : string → option F).
Context (np_exp f32 : F → F) (nan : F).

Abbreviation to_float := (to_float float_of_string).
Abbreviation fast_feature := (fast_feature float_of_string).
Abbreviation cell := (cell nan).
Abbreviation numbered := (numbered float_of_string nan).
Abbreviation column := (column nan).

Definition number (v : value F) : Prop := match v with VInt _ | VFloat _ => True | _ => False end.

Definition as_number (v : value F) : F := match v with VInt z => lit z | VFloat x => x | _ => nan end.

Lemma to_float_number v : number v → to_float v = Ret (as_number v).
Proof. by destruct v. Qed.

(** A row of a request, with a condition on its numeric columns: the maps are maps from pods to numbers (of GPU
    to texts) *)
Record row_with (P : value F → Prop) (row : dict (value F)) (pods : list string) : Prop := {
  gr_numeric c v : c ∈ numeric_columns → assoc c row = Some v → P v;
  gr_maps c v : c ∈ json_columns → assoc c row = Some v → ∃ d, v = VDict d;
  gr_values c d pod v : c ∈ "allPodsKvCacheLastAccess" :: feature_configs.*2 → assoc c row = Some (VDict d) →
    pod ∈ pods → assoc pod d = Some v → number v;
  gr_gpus d pod v : assoc "GPU" row = Some (VDict d) → assoc pod d = Some v → ∃ s, v = VStr s
}.

Abbreviation plain_row := (row_with number).

(** A number, or a text that is one, as the parser leaves a negative integer *)
Definition readable_number (v : value F) : Prop := number v ∨ ∃ s x, v = VStr s ∧ float_of_string s = Some x.

(** A row as the gateway sends it *)
Definition sent_row : dict (value F) → list string → Prop := row_with readable_number.

Definition as_float (v : value F) : value F :=
  match v with VInt _ | VFloat _ | VBool _ => v | _ => VFloat (match to_float v with Ret x => x | _ => nan end) end.

(** The number of a pod in a column, and the time of the request *)
Definition map_of (row : dict (value F)) (col : string) : dict (value F) := as_map (dget row col (VDict [])).

Definition pod_number (row : dict (value F)) (col pod : string) : F := as_number (dget (map_of row col) pod (VInt 0)).

Definition start_time (row : dict (value F)) : F := as_number (dget (numbered row) "request_start_time" (VInt 0)).

(** The row has every column that is expected and that is not added when it is missing, request, pod and algorithm
    are not null, pandas and [float] read the same numbers in its texts, and the age of a prefix is a number. *)
Record gateway_row (row : dict (value F)) (pods : list string) : Prop := {
  gr_expected c : c ∈ expected_columns → c ∉ ["subAlgorithm"; "GPU"] → ∃ v, assoc c row = Some v;
  gr_sent : sent_row row pods;
  gr_given c v : c ∈ ["requestID"; "selectedpod"; "subAlgorithm"] → assoc c row = Some v → v ≠ VNone;
  gr_texts c s : c ∈ numeric_columns → assoc c row = Some (VStr s) →
    ∃ w, pd_to_numeric s = Some w ∧ number w ∧ float_of_string s = Some (as_number w) ∧ nisnan (as_number w) = false;
  gr_ages pod : pod ∈ pods →
    nisnan (ndiv (nsub (start_time row) (f32 (pod_number row "allPodsKvCacheLastAccess" pod))) (lit 1000000)) = false
}.

(** Converting columns one after the other *)
Lemma fold_lookup (step : dict (value F) → string → dict (value F)) (f : value F → value F) cols row c :
  (∀ row c', assoc c (step row c') = (if decide (c = c') then f else id) <$> assoc c row) → NoDup cols →
  assoc c (foldl step row cols) = (if decide (c ∈ cols) then f else id) <$> assoc c row.
Proof.
  intros Hstep. revert row. induction cols as [|c' cols IH]; intros row Hnd; [by rewrite decide_False, option_fmap_id by apply not_elem_of_nil|].
  apply NoDup_cons in Hnd as [Hc Hnd]. cbn [foldl]. rewrite IH, Hstep by done. destruct (decide (c = c')) as [->|Hne].
  - rewrite (decide_False (P:=c' ∈ cols)), decide_True by (done || left). by rewrite option_fmap_id.
  - rewrite option_fmap_id. destruct (decide (c ∈ cols)); [rewrite decide_True by (by right)|rewrite decide_False by (by rewrite not_elem_of_cons)]; done.
Qed.

Lemma numbered_lookup row c : assoc c (numbered row) = (if decide (c ∈ numeric_columns) then as_float else id) <$> assoc c row.
Proof.
  apply fold_lookup; [|by_decision]. intros row' c'. unfold fast_numeric_column. case_decide as E; [subst c'|].
  - destruct (assoc c row') as [v|] eqn:E; [|by rewrite E]. destruct v; rewrite ?assoc_set_eq; simpl; by rewrite ?E.
  - rewrite option_fmap_id. destruct (assoc c' row') as [[]|]; rewrite ?assoc_set_ne by done; done.
Qed.

Lemma numbered_other row c dflt : c ∉ numeric_columns → dget (numbered row) c dflt = dget row c dflt.
Proof. intros Hc. unfold dget. rewrite numbered_lookup, decide_False by done. by rewrite option_fmap_id. Qed.

Lemma as_float_number v : readable_number v → number (as_float v).
Proof. intros [Hv|(s & x & -> & E)]; [by destruct v|]. done. Qed.

Lemma not_numeric : Forall (λ c, c ∉ numeric_columns) (json_columns ++ ["requestID"; "selectedpod"; "subAlgorithm"]).
Proof. by_decision. Qed.

Ltac not_numeric := let H := fresh in pose proof not_numeric as H; rewrite Forall_forall in H; apply H, elem_of_app; auto.

Lemma numbered_map row c : c ∈ json_columns → map_of (numbered row) c = map_of row c.
Proof. intros Hc. unfold map_of. rewrite numbered_other; [done|]. not_numeric. Qed.

(** The converted columns are numbers, and the others are as they were. *)
Lemma converted_plain (P : value F → Prop) row row' pods : row_with P row pods →
  (∀ c v, c ∈ numeric_columns → assoc c row' = Some v → number v) → (∀ c, c ∉ numeric_columns → assoc c row' = assoc c row) →
  plain_row row' pods.
Proof.
  intros Hr Hn Ho. pose proof feature_columns_json as Hfj. rewrite Forall_forall in Hfj.
  assert (∀ c, c ∈ json_columns → assoc c row' = assoc c row) as Hj by (intros c Hc; apply Ho; not_numeric). split.
  - done.
  - intros c v Hc. rewrite Hj by done. by apply (gr_maps _ _ _ Hr).
  - intros c d pod v Hc. rewrite Hj by auto. by apply (gr_values _ _ _ Hr).
  - intros d pod v. rewrite Hj by by_decision. by apply (gr_gpus _ _ _ Hr).
Qed.

Lemma numbered_plain row pods : sent_row row pods → plain_row (numbered row) pods.
Proof.
  intros Hr. apply (converted_plain readable_number row); [done| |].
  - intros c v Hc. rewrite numbered_lookup, decide_True by done. intros (w & Hw & ->)%fmap_Some. by apply as_float_number, (gr_numeric _ _ _ Hr c).
  - intros c Hc. rewrite numbered_lookup, decide_False by done. by rewrite option_fmap_id.
Qed.

Lemma fast_json_ok cols row : (∀ c v, c ∈ cols → assoc c row = Some v → ∃ d, v = VDict d) →
  ∃ row', ofold (fast_json_column json_loads) cols row = Ret row' ∧
    (∀ c, dget row' c (VDict []) = dget row c (VDict [])) ∧ (∀ c v, assoc c row = Some v → assoc c row' = Some v) ∧
    (∀ c, c ∉ cols → assoc c row' = assoc c row).
Proof.
  revert row. induction cols as [|c cols IH]; intros row Hmaps; [by exists row|].
  assert (∃ row1, fast_json_column json_loads c row = Ret row1 ∧ (∀ c', dget row1 c' (VDict []) = dget row c' (VDict [])) ∧
            (∀ c' v, assoc c' row = Some v → assoc c' row1 = Some v) ∧ (∀ c', c' ≠ c → assoc c' row1 = assoc c' row))
    as (row1 & H1 & Hd1 & Hk1 & Ho1).
  { unfold fast_json_column, dget. destruct (assoc c row) as [v|] eqn:E.
    - destruct (Hmaps c v) as [d ->]; [left|done|]. by exists row.
    - simpl. exists (assoc_set c (VDict []) row). split_and!; [done| | |].
      + intros c'. destruct (decide (c' = c)) as [->|]; [by rewrite assoc_set_eq, E|by rewrite assoc_set_ne].
      + intros c' v Hv. rewrite assoc_set_ne; [done|]. intros ->. congruence.
      + intros c' Hc. by rewrite assoc_set_ne. }
  destruct (IH row1) as (row' & Hr & Hd & Hk & Ho).
  { intros c' v Hc Hv. destruct (decide (c' = c)) as [->|]; [|rewrite Ho1 in Hv by done; apply (Hmaps c'); [by right|done]].
    pose proof (Hd1 c) as Hd. unfold dget in Hd. rewrite Hv in Hd. simpl in Hd. destruct (assoc c row) as [w|] eqn:E.
    - destruct (Hmaps c w) as [d ->]; [left|done|]. simpl in Hd. subst. eauto.
    - simpl in Hd. subst. eauto. }
  exists row'. cbn [ofold]. rewrite H1. cbn [obind]. split_and!; [done|intros; by rewrite Hd|auto|].
  intros c' [Hne Hc]%not_elem_of_cons. by rewrite Ho, Ho1.
Qed.

(** The features of the pods, as functions of the pod *)
Definition feature_group (hp : option (hyper (F:=F))) (row : dict (value F)) (fc : string * string) : list (string * (string → value F)) :=
  if excluded hp fc.1 then [] else [(fc.1, fast_feature (map_of row fc.2))].

Definition feature_groups hp row (fcs : list (string * string)) := concat (feature_group hp row <$> fcs).

Lemma block_one {V} (f : string) (g : string → V) pods : block [(f, g)] pods = (λ pod, (pod_key pod f, g pod)) <$> pods.
Proof. unfold block. csimpl. apply app_nil_r. Qed.

Lemma block_groups hp row fcs pods :
  concat ((λ fc : string * string, if excluded hp fc.1 then []
             else (λ pod, (pod_key pod fc.1, fast_feature (map_of row fc.2) pod)) <$> pods) <$> fcs) =
  block (feature_groups hp row fcs) pods.
Proof.
  unfold feature_groups. induction fcs as [|fc fcs IH]; [done|]. csimpl. rewrite block_app, IH. f_equal. unfold feature_group.
  destruct (excluded hp fc.1); [done|]. by rewrite block_one.
Qed.

Definition age_of (row : dict (value F)) (pod : string) : F :=
  fast_age (as_number (dget row "request_start_time" (VInt 0))) (as_number (dget (map_of row "allPodsKvCacheLastAccess") pod (VInt 0))).

Definition fresh_group (hp : option (hyper (F:=F))) (row : dict (value F)) : list (string * (string → value F)) :=
  if excluded hp "kv_hit_ratio_fresh" || excluded hp "kv_hit_ratio" then []
  else [("kv_hit_ratio_fresh", λ pod, VFloat (nmul (as_number (fast_feature (map_of row "allPodsKvCacheHitRatios") pod))
                                                  (fresh_weight np_exp (half_life hp) (age_of row pod))))].

Definition gpu_group (hp : option (hyper (F:=F))) (row : dict (value F)) : list (string * (string → value F)) :=
  if excluded hp "GPU" then [] else [("GPU", λ pod, dget (map_of row "GPU") pod (VStr "GPU-L3c"))].

(** All features, in the order of the fast path *)
Definition all_groups hp row : list (string * (string → value F)) :=
  feature_groups hp row feature_configs ++ fresh_group hp row ++ gpu_group hp row.

Lemma sub_features hp row : (all_groups hp row).*1 `sublist_of` feature_configs.*1 ++ ["kv_hit_ratio_fresh"; "GPU"].
Proof.
  unfold all_groups. rewrite !fmap_app. apply sublist_app.
  - unfold feature_groups. induction feature_configs as [|fc fcs IH]; [done|]. csimpl. rewrite fmap_app.
    unfold feature_group at 1. destruct (excluded hp fc.1); csimpl; by constructor.
  - unfold fresh_group, gpu_group. destruct (_ || _), (excluded hp "GPU"); csimpl; repeat constructor.
Qed.

Lemma groups_NoDup hp row : NoDup (all_groups hp row).*1.
Proof. eapply sublist_NoDup; [|apply sub_features]. by_decision. Qed.

Lemma groups_no_dash hp row : Forall (λ g, no_dash g.1 = true) (all_groups hp row).
Proof.
  apply Forall_forall. intros g Hg. assert (g.1 ∈ feature_configs.*1 ++ ["kv_hit_ratio_fresh"; "GPU"]) as H.
  { eapply elem_of_sublist; [|apply sub_features]. apply list_elem_of_fmap. by exists g. }
  revert H. generalize (g.1). intros f Hf.
  assert (Forall (λ f, no_dash f = true) (feature_configs.*1 ++ ["kv_hit_ratio_fresh"; "GPU"])) as Hall by (repeat constructor).
  rewrite Forall_forall in Hall. by apply Hall.
Qed.

Section row.
Context (row : dict (value F)) (pods : list string) (hp : option (hyper (F:=F))).
Context (Hplain : plain_row row pods) (Hpods : NoDup pods).

Lemma map_of_dict c : c ∈ json_columns → dget row c (VDict []) = VDict (map_of row c).
Proof.
  intros Hc. unfold map_of, dget. destruct (assoc c row) as [v|] eqn:E; [|done].
  by destruct (gr_maps _ _ _ Hplain c v Hc E) as [d ->].
Qed.

Lemma number_at c pod : c ∈ "allPodsKvCacheLastAccess" :: feature_configs.*2 → pod ∈ pods → number (dget (map_of row c) pod (VInt 0)).
Proof.
  intros Hc Hpod. unfold map_of, dget at 2. destruct (assoc c row) as [v|] eqn:E; simpl; [|done].
  destruct (gr_maps _ _ _ Hplain c v) as [d ->]; [|done|].
  { pose proof feature_columns_json as Hall. rewrite Forall_forall in Hall. by apply Hall. }
  simpl. unfold dget. destruct (assoc pod d) as [w|] eqn:Ew; simpl; [|done]. by apply (gr_values _ _ _ Hplain c d pod).
Qed.

Lemma feature_number c pod : c ∈ feature_configs.*2 → pod ∈ pods →
  fast_feature (map_of row c) pod = VFloat (pod_number row c pod).
Proof. intros Hc Hpod. unfold Preprocess.fast_feature. rewrite to_float_number; [done|]. by apply number_at; [right|]. Qed.

Lemma time_number : number (dget row "request_start_time" (VInt 0)).
Proof.
  unfold dget. destruct (assoc _ row) as [v|] eqn:E; [|done]. apply (gr_numeric _ _ _ Hplain "request_start_time"); [by_decision|done].
Qed.

Definition features : list (string * (string → value F)) := feature_groups hp row feature_configs.

Lemma features_ok : NoDup features.*1 ∧ Forall (λ g, no_dash g.1 = true) features.
Proof.
  pose proof (groups_NoDup hp row) as H1. pose proof (groups_no_dash hp row) as H2. unfold all_groups in *.
  rewrite fmap_app in H1. apply NoDup_app in H1 as [H1 _]. apply Forall_app in H2 as [H2 _]. done.
Qed.

Lemma hits_in_features : excluded hp "kv_hit_ratio" = false →
  ("kv_hit_ratio", fast_feature (map_of row "allPodsKvCacheHitRatios")) ∈ features.
Proof. intros H. unfold features, feature_groups, feature_configs. csimpl. unfold feature_group at 1. simpl. rewrite H. left. Qed.

(** Looking up a base feature and a hit ratio among the features of some groups *)
Lemma base_lookup gs (d : dict (value F)) k : NoDup gs.*1 → Forall (λ g, no_dash g.1 = true) gs → no_dash k = true →
  assoc k (assoc_update d (block gs pods)) = assoc k d.
Proof. intros H1 H2 Hk. rewrite assoc_update_lookup by by apply block_NoDup. by rewrite block_no_dash. Qed.

Lemma group_lookup gs (d : dict (value F)) g pod : NoDup gs.*1 → Forall (λ g, no_dash g.1 = true) gs → g ∈ gs → pod ∈ pods →
  assoc (pod_key pod g.1) (assoc_update d (block gs pods)) = Some (g.2 pod).
Proof. intros. rewrite assoc_update_lookup by by apply block_NoDup. by rewrite block_lookup. Qed.

Lemma fast_fresh_eq row' : (∀ c, c ∈ json_columns → dget row' c (VDict []) = dget row c (VDict [])) →
  fast_fresh float_of_string np_exp hp row' (assoc_update (base_features row) (block features pods)) pods = Ret (block (fresh_group hp row) pods).
Proof.
  intros Hd. unfold fast_fresh, fresh_group.
  destruct (excluded hp "kv_hit_ratio_fresh"), (excluded hp "kv_hit_ratio") eqn:Hex; try done. cbn [orb]. destruct features_ok as [H1 H2].
  assert (dget (assoc_update (base_features row) (block features pods)) "request_start_time" (VInt 0) = dget row "request_start_time" (VInt 0)) as ->.
  { unfold dget at 1. rewrite base_lookup by done. reflexivity. }
  rewrite to_float_number by apply time_number. cbn [obind]. rewrite block_one.
  apply (omapM_Ret _ (λ pod, (pod_key pod "kv_hit_ratio_fresh", _))), Forall_forall. intros pod Hpod.
  unfold dget at 1. rewrite (group_lookup features _ _ pod H1 H2 (hits_in_features Hex) Hpod). cbn [snd default from_option].
  rewrite feature_number by (done || by_decision). cbn [Preprocess.to_float obind].
  rewrite Hd by by_decision. fold (map_of row "allPodsKvCacheLastAccess").
  pose proof (number_at "allPodsKvCacheLastAccess" pod ltac:(left) Hpod) as Hn. rewrite to_float_number by done. cbn [obind]. by rewrite to_float_number by done.
Qed.

(** ** The features with their numbers rounded by [rho] *)

Section rounding.
Context (rho : F → F).

Definition feature_with (fc : string * string) : list (string * (string → value F)) :=
  if excluded hp fc.1 then [] else [(fc.1, λ pod, VFloat (rho (pod_number row fc.2 pod)))].

Definition fresh_with : list (string * (string → value F)) :=
  if excluded hp "kv_hit_ratio_fresh" || excluded hp "kv_hit_ratio" then []
  else [("kv_hit_ratio_fresh", λ pod, VFloat (nmul (rho (pod_number row "allPodsKvCacheHitRatios" pod))
          (fresh_weight np_exp (half_life hp)
             (fast_age (as_number (dget row "request_start_time" (VInt 0))) (rho (pod_number row "allPodsKvCacheLastAccess" pod))))))].

Definition features_with (fcs : list (string * string)) : list (string * (string → value F)) := concat (feature_with <$> fcs).

Definition groups_with : list (string * (string → value F)) := features_with feature_configs ++ fresh_with ++ gpu_group hp row.

Lemma groups_with_names : groups_with.*1 = (all_groups hp row).*1.
Proof.
  unfold groups_with, all_groups. rewrite !fmap_app. f_equal; [|f_equal].
  - unfold features_with, feature_groups. induction feature_configs as [|fc fcs IH]; [done|]. csimpl. rewrite !fmap_app, IH. f_equal.
    unfold feature_with, feature_group. by destruct (excluded hp fc.1).
  - unfold fresh_with, fresh_group. by destruct (_ || _).
Qed.

Lemma groups_with_ok : NoDup groups_with.*1 ∧ Forall (λ g, no_dash g.1 = true) groups_with.
Proof.
  pose proof (groups_no_dash hp row) as Hd. rewrite groups_with_names. split; [apply groups_NoDup|].
  assert (Forall (λ f, no_dash f = true) groups_with.*1) as H by (rewrite groups_with_names; by apply Forall_fmap). by apply Forall_fmap in H.
Qed.

(** The groups of a feature *)
Lemma groups_with_feature fc : fc ∈ feature_configs → excluded hp fc.1 = false → (fc.1, λ pod, VFloat (rho (pod_number row fc.2 pod))) ∈ groups_with.
Proof.
  intros Hfc Hex. apply elem_of_app. left. apply elem_of_concat_map. exists fc. split; [done|]. unfold feature_with. rewrite Hex. left.
Qed.

Lemma groups_with_cases g : g ∈ groups_with →
  (∃ fc, fc ∈ feature_configs ∧ excluded hp fc.1 = false ∧ g = (fc.1, λ pod, VFloat (rho (pod_number row fc.2 pod)))) ∨ g ∈ fresh_with ∨ g ∈ gpu_group hp row.
Proof.
  unfold groups_with. rewrite !elem_of_app. intros [Hg|Hg]; [left|by right]. apply elem_of_concat_map in Hg as (fc & Hfc & Hg).
  unfold feature_with in Hg. destruct (excluded hp fc.1) eqn:Hex; [by apply not_elem_of_nil in Hg|]. apply list_elem_of_singleton in Hg as ->. eauto.
Qed.

End rounding.

(** The fast path rounds nothing. *)
Lemma fast_groups : block (all_groups hp row) pods = block (groups_with id) pods.
Proof.
  unfold all_groups, groups_with. rewrite !block_app. f_equal; [|f_equal].
  - assert (∀ fcs, (∀ fc, fc ∈ fcs → fc ∈ feature_configs) → block (feature_groups hp row fcs) pods = block (features_with id fcs) pods) as H; [|by apply H].
    induction fcs as [|fc fcs IH]; intros Hin; [done|]. unfold feature_groups, features_with in *. csimpl. rewrite !block_app, IH by (intros fc' Hfc; apply Hin; by right).
    f_equal. unfold feature_group, feature_with. destruct (excluded hp fc.1); [done|]. rewrite !block_one. apply list_fmap_ext. intros i pod Hpod. simpl.
    rewrite feature_number; [done| |by eapply list_elem_of_lookup_2]. apply list_elem_of_fmap. exists fc. split; [done|]. apply Hin. left.
  - unfold fresh_group, fresh_with. destruct (_ || _); [done|]. rewrite !block_one. apply list_fmap_ext. intros i pod Hpod. cbn beta.
    rewrite feature_number; [done|by_decision|by eapply list_elem_of_lookup_2].
Qed.

Context (Hexpected : ∀ c, c ∈ expected_columns → ∃ v, assoc c row = Some v).
Context (Hage : ∀ pod, pod ∈ pods →
  nisnan (ndiv (nsub (as_number (dget row "request_start_time" (VInt 0))) (f32 (pod_number row "allPodsKvCacheLastAccess" pod))) (lit 1000000)) = false).

(** The frame of the one row *)
Definition one_row : frame (F:=F) := mkFrame row.*1 [row].

Lemma in_columns c v : assoc c row = Some v → c ∈ columns one_row.
Proof. intros H%assoc_elem. apply list_elem_of_fmap. by exists (c, v). Qed.

Lemma uni_base_eq : uni_base nan one_row = wrap <$> base_features row.
Proof.
  assert (∀ c dflt, c ∈ expected_columns → column one_row c = [dget row c dflt]) as Hc.
  { intros c dflt Hc. destruct (Hexpected c Hc) as [v Hv]. unfold Preprocess.column, one_row, Preprocess.cell, dget. simpl. by rewrite Hv. }
  unfold uni_base, base_features, wrap. simpl. repeat f_equal; apply Hc; by_decision.
Qed.

Lemma get_column_eq c : c ∈ json_columns → safe_get_column nan one_row c = [VDict (map_of row c)].
Proof.
  intros Hc. pose proof (map_of_dict c Hc) as Hm. unfold safe_get_column. case_bool_decide as Hin.
  - simpl in Hin. apply assoc_Some in Hin as [v Hv]. unfold Preprocess.column, Preprocess.cell, dget in *. simpl. rewrite Hv in *. by simpl in *; rewrite Hm.
  - simpl. unfold dget in Hm. rewrite assoc_None in Hm by exact Hin. simpl in Hm. by rewrite Hm.
Qed.

Lemma extract_eq c dflt (g : string → value F) : c ∈ json_columns →
  (∀ pod, pod ∈ pods → pod_column float_of_string f32 nan [map_of row c] dflt pod = Ret [g pod]) →
  extract_pod_features json_loads literal_eval float_of_string f32 nan (safe_get_column nan one_row c) pods dflt =
    Ret ((λ pod, (pod, [g pod])) <$> pods).
Proof.
  intros Hc Hg. unfold extract_pod_features. rewrite get_column_eq by done. cbn [omapM entry_map obind].
  apply omapM_Ret, Forall_forall. intros pod Hpod. by rewrite Hg.
Qed.

Lemma pod_column_number c pod : c ∈ "allPodsKvCacheLastAccess" :: feature_configs.*2 → pod ∈ pods →
  pod_column float_of_string f32 nan [map_of row c] (VInt 0) pod = Ret [VFloat (f32 (pod_number row c pod))].
Proof.
  intros Hc Hpod. pose proof (number_at c pod Hc Hpod) as Hn. unfold pod_column, pod_number. by destruct (dget (map_of row c) pod (VInt 0)).
Qed.

Lemma wrap_block f (g : string → value F) :
  (λ e : string * list (value F), (pod_key e.1 f, e.2)) <$> ((λ pod, (pod, [g pod])) <$> pods) = wrap <$> block [(f, g)] pods.
Proof. rewrite block_one, <-!list_fmap_compose. done. Qed.

Abbreviation feature_of := (uni_feature json_loads literal_eval float_of_string f32 nan hp one_row pods).

Lemma uni_feature_eq fc : fc ∈ feature_configs → feature_of fc.1 fc.2 (VInt 0) = Ret (wrap <$> block (feature_with f32 fc) pods).
Proof.
  intros Hfc. assert (fc.2 ∈ feature_configs.*2) as Hc by (apply list_elem_of_fmap; by exists fc).
  assert (fc.2 ∈ json_columns) as Hj.
  { pose proof feature_columns_json as Hall. rewrite Forall_forall in Hall. apply Hall. by right. }
  unfold uni_feature, feature_with. destruct (excluded hp fc.1); [done|].
  rewrite (extract_eq fc.2 _ (λ pod, VFloat (f32 (pod_number row fc.2 pod))) Hj); [cbn [obind]; by rewrite wrap_block|].
  intros pod Hpod. apply pod_column_number; [by right|done].
Qed.

Lemma uni_features_eq fcs : (∀ fc, fc ∈ fcs → fc ∈ feature_configs) →
  ∃ ls, omapM (λ fc : string * string, feature_of fc.1 fc.2 (VInt 0)) fcs = Ret ls ∧ concat ls = wrap <$> block (features_with f32 fcs) pods.
Proof.
  induction fcs as [|fc fcs IH]; intros H; [by exists []|]. destruct IH as (ls & Hls & Hc); [intros; apply H; by right|].
  exists ((wrap <$> block (feature_with f32 fc) pods) :: ls). cbn [omapM]. rewrite uni_feature_eq by (apply H; left). cbn [obind].
  rewrite Hls. split; [done|]. simpl. unfold features_with. csimpl. by rewrite block_app, fmap_app, Hc.
Qed.

Lemma uni_gpu_eq : feature_of "GPU" "GPU" (VStr "GPU-L3c") = Ret (wrap <$> block (gpu_group hp row) pods).
Proof.
  unfold uni_feature, gpu_group. destruct (excluded hp "GPU"); [done|].
  rewrite (extract_eq "GPU" _ (λ pod, dget (map_of row "GPU") pod (VStr "GPU-L3c"))); [cbn [obind]; by rewrite wrap_block|by_decision|].
  intros pod Hpod. unfold pod_column. assert (∃ s, dget (map_of row "GPU") pod (VStr "GPU-L3c") = VStr s) as [s ->]; [|done].
  unfold map_of, dget. destruct (assoc "GPU" row) as [v|] eqn:E; [|by eexists].
  destruct (gr_maps _ _ _ Hplain "GPU" v) as [d ->]; [by_decision|done|]. simpl. destruct (assoc pod d) as [w|] eqn:Ew; [|by eexists].
  destruct (gr_gpus _ _ _ Hplain d pod w E Ew) as [s ->]. by exists s.
Qed.

Definition hit_group : list (string * (string → value F)) := feature_with f32 ("kv_hit_ratio", "allPodsKvCacheHitRatios").

Lemma hit_group_ok : NoDup hit_group.*1 ∧ Forall (λ g, no_dash g.1 = true) hit_group.
Proof. unfold hit_group, feature_with. destruct (excluded _ _); simpl; split; repeat constructor; apply not_elem_of_nil. Qed.

Lemma uni_fresh_eq :
  uni_fresh json_loads literal_eval float_of_string np_exp f32 nan hp one_row (wrap <$> assoc_update (base_features row) (block hit_group pods)) pods =
    Ret (wrap <$> block (fresh_with f32) pods).
Proof.
  unfold uni_fresh, fresh_with. destruct (excluded hp "kv_hit_ratio_fresh"), (excluded hp "kv_hit_ratio") eqn:Hex; try done. cbn [orb].
  destruct hit_group_ok as [H1 H2].
  rewrite (extract_eq "allPodsKvCacheLastAccess" _ (λ pod, VFloat (f32 (pod_number row "allPodsKvCacheLastAccess" pod))));
    [|by_decision|intros; apply pod_column_number; [left|done]]. cbn [obind].
  rewrite block_one, <-list_fmap_compose. rewrite omapM_fmap. apply (omapM_Ret _ (λ pod, wrap (pod_key pod "kv_hit_ratio_fresh", _))), Forall_forall. intros pod Hpod.
  cbn [fst snd]. rewrite !assoc_wrap, (base_lookup hit_group _ "request_start_time") by done.
  rewrite (group_lookup hit_group _ ("kv_hit_ratio", λ pod, VFloat (f32 (pod_number row "allPodsKvCacheHitRatios" pod))) pod);
    [|done|done|unfold hit_group, feature_with; cbn [fst]; rewrite Hex; left|done].
  change (assoc "request_start_time" (base_features row)) with (Some (dget row "request_start_time" (VInt 0))).
  cbn [snd fmap option_fmap option_map default from_option omap3].
  unfold times, id. cbn [omap3]. rewrite (to_float_number (dget row _ _)) by apply time_number. cbn [obind Preprocess.to_float id].
  rewrite age_agrees by (by apply Hage). done.
Qed.

Lemma unified_path_eq : (try* cols := unified_columns json_loads literal_eval float_of_string np_exp f32 nan false one_row hp pods in Ret (single_row_of cols)) =
  Ret ((λ e, (e.1, fill_na e.2)) <$>
    assoc_update (base_features row) (block (hit_group ++ fresh_with f32 ++ features_with f32 (tail feature_configs) ++ gpu_group hp row) pods)).
Proof.
  unfold unified_columns.
  pose proof (uni_feature_eq ("kv_hit_ratio", "allPodsKvCacheHitRatios") ltac:(by_decision)) as Hhits. cbn [fst snd] in Hhits.
  rewrite Hhits. cbn [obind]. fold hit_group. rewrite uni_base_eq, assoc_update_wrap, uni_fresh_eq. cbn [obind].
  destruct (uni_features_eq (tail feature_configs)) as (ls & -> & Hls); [by right|]. cbn [obind].
  rewrite uni_gpu_eq. cbn [obind]. rewrite Hls, <-!fmap_app, assoc_update_wrap. cbn [obind].
  unfold single_row_of. rewrite assoc_update_app, <-!block_app, <-!list_fmap_compose. done.
Qed.

Lemma groups_perm : groups_with f32 ≡ₚ hit_group ++ fresh_with f32 ++ features_with f32 (tail feature_configs) ++ gpu_group hp row.
Proof.
  unfold groups_with. change (features_with f32 feature_configs) with (hit_group ++ features_with f32 (tail feature_configs)).
  rewrite <-app_assoc. apply Permutation_app_head. apply Permutation_app_swap_app.
Qed.

End row.

(** ** The fast path of a row *)

Lemma assoc_fmap_values {A B} (f : A → B) (l : dict A) k : assoc k ((λ e, (e.1, f e.2)) <$> l) = f <$> assoc k l.
Proof. induction l as [|[k' v] l IH]; csimpl; [done|]. by case_decide. Qed.

(** The row with the two columns that may be missing *)
Lemma fill_missing_lookup (row : dict (value F)) c : assoc c (fill_missing row) =
  if decide (c = "subAlgorithm") then Some (default VNone (assoc c row))
  else if decide (c = "GPU") then Some (default (VDict []) (assoc c row)) else assoc c row.
Proof.
  unfold fill_missing. set (row1 := match assoc "subAlgorithm" row with None => _ | Some _ => _ end). cbn zeta.
  assert (assoc c row1 = if decide (c = "subAlgorithm") then Some (default VNone (assoc c row)) else assoc c row) as H1.
  { unfold row1. case_decide as E; [subst c|by case_match; rewrite ?assoc_set_ne].
    destruct (assoc "subAlgorithm" row) as [v|] eqn:Ev; [by rewrite Ev|by rewrite assoc_set_eq]. }
  destruct (decide (c = "GPU")) as [->|Hne].
  - rewrite decide_False in H1 |- * by done. rewrite <-H1. destruct (assoc "GPU" row1) as [v|] eqn:Ev; [by rewrite Ev|by rewrite assoc_set_eq].
  - rewrite <-H1. by destruct (assoc "GPU" row1); rewrite ?assoc_set_ne by done.
Qed.

(** The row with its maps *)
Lemma completed_row row pods : sent_row row pods →
  ∃ row', ofold (fast_json_column json_loads) json_columns row = Ret row' ∧
    (∀ c, c ∈ json_columns → dget (fill_missing row') c (VDict []) = dget row c (VDict [])) ∧
    (∀ c, c ∉ json_columns → c ≠ "subAlgorithm" → assoc c (fill_missing row') = assoc c row) ∧
    dget (fill_missing row') "subAlgorithm" VNone = dget row "subAlgorithm" VNone.
Proof.
  intros Hr. destruct (fast_json_ok json_columns row) as (row' & E & Hd & _ & Ho); [intros c v; apply (gr_maps _ _ _ Hr)|].
  exists row'. split_and!; [done|..].
  - intros c Hc. rewrite <-Hd. unfold dget. rewrite fill_missing_lookup, decide_False; [by case_decide|]. intros ->. revert Hc. by_decision.
  - intros c Hc Hs. rewrite fill_missing_lookup, !decide_False; [by apply Ho| |done]. intros ->. apply Hc. by_decision.
  - unfold dget. rewrite fill_missing_lookup, decide_True, Ho by (done || by_decision). done.
Qed.

Lemma fast_path_eq row pods hp : sent_row row pods → NoDup pods →
  preprocess_inference_fast json_loads float_of_string np_exp nan row hp pods =
  Ret ((λ e, (e.1, fill_nan e.2)) <$> assoc_update (base_features (numbered row)) (block (all_groups hp (numbered row)) pods)).
Proof.
  intros Hr Hpods. pose proof (numbered_plain row pods Hr) as Hplain. unfold preprocess_inference_fast.
  destruct (completed_row row pods Hr) as (row' & -> & H2). cbn [obind].
  destruct H2 as (Hm & Ho & Ha). set (row2 := fill_missing row') in *.
  assert (∀ c, c ∈ json_columns → dget (numbered row2) c (VDict []) = dget (numbered row) c (VDict [])) as Hd.
  { intros c Hc. rewrite !numbered_other by not_numeric. by apply Hm. }
  assert (∀ c dflt, c ∉ json_columns → c ≠ "subAlgorithm" → dget (numbered row2) c dflt = dget (numbered row) c dflt) as Hb.
  { intros c dflt Hc Hs. unfold dget. by rewrite !numbered_lookup, Ho. }
  assert (base_features (numbered row2) = base_features (numbered row)) as ->.
  { unfold base_features. rewrite !Hb by by_decision. do 11 f_equal. rewrite !numbered_other by by_decision. by rewrite Ha. }
  assert (fast_features float_of_string hp (numbered row2) pods = block (features (numbered row) hp) pods) as ->.
  { unfold features. rewrite <-block_groups. unfold fast_features, map_of. f_equal. apply list_fmap_ext. intros i fc Hfc. rewrite Hd; [done|].
    pose proof feature_columns_json as Hall. rewrite Forall_forall in Hall. apply Hall. right. apply list_elem_of_fmap. exists fc. split; [done|by eapply list_elem_of_lookup_2]. }
  rewrite (fast_fresh_eq (numbered row) pods hp Hplain Hpods) by done. cbn [obind]. rewrite !assoc_update_app. unfold all_groups. rewrite !block_app.
  assert (gpu_features hp (numbered row2) pods = block (gpu_group hp (numbered row)) pods) as ->; [|done].
  unfold gpu_features, gpu_group. destruct (excluded hp "GPU"); [done|]. rewrite block_one. unfold map_of. rewrite Hd by by_decision. done.
Qed.

(** ** The unified path of a row *)

Section gateway.
Context (row : dict (value F)) (pods : list string) (hp : option (hyper (F:=F))).
Context (Hrow : gateway_row row pods) (Hpods : NoDup pods).

Abbreviation to_numeric := (to_numeric pd_to_numeric nan).

(** The row as [pd.to_numeric] converts it *)
Definition numeric_step (r : dict (value F)) (c : string) : dict (value F) :=
  match assoc c r with Some v => assoc_set c (to_numeric v) r | None => r end.

Definition converted : dict (value F) := foldl numeric_step (fill_missing row) numeric_columns.

Lemma converted_lookup c : assoc c converted = (if decide (c ∈ numeric_columns) then to_numeric else id) <$> assoc c (fill_missing row).
Proof.
  apply fold_lookup; [|by_decision]. intros r c'. unfold numeric_step. case_decide as E; [subst c'|].
  - destruct (assoc c r) as [v|] eqn:E; [by rewrite assoc_set_eq|by rewrite E].
  - rewrite option_fmap_id. destruct (assoc c' r); by rewrite ?assoc_set_ne.
Qed.

(** A numeric column is not filled in. *)
Lemma converted_numeric c : c ∈ numeric_columns → assoc c converted = to_numeric <$> assoc c row.
Proof.
  intros Hc. rewrite converted_lookup, decide_True, fill_missing_lookup by done. rewrite !decide_False; [done|..]; intros ->; revert Hc; by_decision.
Qed.

Lemma converted_other c : c ∉ numeric_columns → assoc c converted = assoc c (fill_missing row).
Proof. intros Hc. rewrite converted_lookup, decide_False by done. apply option_fmap_id. Qed.

(** What the conversions make of a numeric column *)
Lemma numbers_agree c v : c ∈ numeric_columns → assoc c row = Some v →
  number (to_numeric v) ∧ as_number (to_numeric v) = as_number (as_float v) ∧
  (to_numeric v = as_float v ∨ nisnan (as_number (as_float v)) = false ∧ ∃ x, as_float v = VFloat x).
Proof.
  intros Hc E. destruct (gr_numeric _ _ _ (gr_sent _ _ Hrow) c v Hc E) as [Hn|(s & x & -> & Hx)]; [by destruct v; auto|].
  destruct (gr_texts _ _ Hrow c s Hc E) as (w & Hw & Hnum & Hs & Hnan). simpl. rewrite Hw, Hs. split_and!; [done..|]. right. split; [done|by eexists].
Qed.

Lemma converted_plain_row : plain_row converted pods.
Proof.
  assert (sent_row (fill_missing row) pods) as Hf.
  { pose proof (gr_sent _ _ Hrow) as Hr. pose proof feature_columns_json as Hfj. rewrite Forall_forall in Hfj.
    assert (∀ c v, c ≠ "subAlgorithm" → assoc c (fill_missing row) = Some v → assoc c row = Some v ∨ c = "GPU" ∧ v = VDict []) as Hl.
    { intros c v Hc. rewrite fill_missing_lookup, decide_False by done. case_decide as Eg; [|by left]. destruct (assoc c row) as [w|] eqn:E; [by left|].
      intros [= <-]. by right. }
    assert (∀ c, c ∈ json_columns ++ numeric_columns → c ≠ "subAlgorithm") as Hs by (intros c Hc ->; revert Hc; by_decision). split.
    - intros c v Hc [H|[-> _]]%Hl; [by apply (gr_numeric _ _ _ Hr c)|by exfalso; revert Hc; by_decision|apply Hs, elem_of_app; by right].
    - intros c v Hc [H|[_ ->]]%Hl; [by apply (gr_maps _ _ _ Hr c)|by eexists|apply Hs, elem_of_app; by left].
    - intros c d pod v Hc [H|[-> _]]%Hl Hp E; [by apply (gr_values _ _ _ Hr c d pod)|by exfalso; revert Hc; by_decision|].
      apply Hs, elem_of_app. left. by apply Hfj.
    - intros d pod v [H|[_ [= ->]]]%Hl E; [by apply (gr_gpus _ _ _ Hr d pod)|done|done]. }
  apply (converted_plain readable_number (fill_missing row)); [done| |apply converted_other].
  intros c v Hc. rewrite converted_numeric by done. intros (w & Hw & ->)%fmap_Some. by apply (numbers_agree c w).
Qed.

(** Every expected column is there. *)
Lemma filled_expected c : c ∈ expected_columns → ∃ v, assoc c (fill_missing row) = Some v.
Proof.
  intros Hc. rewrite fill_missing_lookup. case_decide as Es; [by eexists|]. case_decide as Eg; [by eexists|].
  apply (gr_expected _ _ Hrow); [done|]. rewrite !not_elem_of_cons. split_and!; [done..|apply not_elem_of_nil].
Qed.

Lemma uni_json_same cols : (∀ c, c ∈ cols → c ∈ json_columns) →
  ofold (uni_json_column json_loads nan) cols (one_row row) = Ret (one_row row).
Proof.
  induction cols as [|c cols IH]; intros Hin; [done|]. cbn [ofold].
  assert (uni_json_column json_loads nan c (one_row row) = Ret (one_row row)) as ->; [|cbn [obind]; apply IH; intros; apply Hin; by right].
  unfold uni_json_column. case_bool_decide as Hc; [|done]. simpl in Hc. apply assoc_Some in Hc as [v Hv]. cbn [negb rows one_row].
  unfold Preprocess.cell, dget. rewrite Hv. destruct (gr_maps _ _ _ (gr_sent _ _ Hrow) c v) as [d ->]; [apply Hin; left|done|done].
Qed.

Lemma add_column_row c v (r : dict (value F)) : add_column c v (one_row r) = one_row (match assoc c r with None => assoc_set c v r | Some _ => r end).
Proof.
  unfold add_column. case_bool_decide as Hc; simpl in Hc; [by apply assoc_Some in Hc as [w ->]|]. rewrite (assoc_None _ _ Hc). unfold one_row.
  by rewrite assoc_set_dom, decide_False by done.
Qed.

Lemma numeric_fold_row cols (r : dict (value F)) :
  foldl (uni_numeric_column pd_to_numeric nan) (one_row r) cols = one_row (foldl numeric_step r cols).
Proof.
  revert r. induction cols as [|c cols IH]; intros r; [done|]. cbn [foldl]. rewrite <-IH. f_equal. unfold uni_numeric_column, numeric_step.
  case_bool_decide as Hc; simpl in Hc; [|by rewrite (assoc_None _ _ Hc)]. pose proof Hc as Hin. apply assoc_Some in Hc as [v Hv]. rewrite Hv.
  unfold set_rows, one_row. rewrite assoc_set_dom, decide_True by done. unfold Preprocess.cell, dget. csimpl. by rewrite Hv.
Qed.

Lemma uni_prepare_eq : uni_prepare json_loads pd_to_numeric nan (one_row row) = Ret (one_row converted).
Proof.
  unfold uni_prepare. rewrite uni_json_same by done. cbn [obind]. rewrite !add_column_row.
  change (one_row (match assoc "GPU" _ with None => _ | Some _ => _ end)) with (one_row (fill_missing row)).
  assert (forallb (λ c, bool_decide (c ∈ columns (one_row (fill_missing row)))) expected_columns = true) as ->; [|by rewrite numeric_fold_row].
  apply forallb_forall. intros c Hc%list_elem_of_In. apply bool_decide_eq_true_2. destruct (filled_expected c Hc) as [v Hv]. by apply (in_columns _ _ v).
Qed.

(** Both rows have the same maps and the same time. *)
Lemma converted_map c : c ∈ json_columns → map_of converted c = map_of row c.
Proof.
  intros Hc. unfold map_of, dget. rewrite converted_other by not_numeric. rewrite fill_missing_lookup, decide_False by (intros ->; revert Hc; by_decision).
  case_decide; [|done]. by destruct (assoc c row).
Qed.

Lemma converted_time : as_number (dget converted "request_start_time" (VInt 0)) = start_time row.
Proof.
  unfold start_time, dget. rewrite converted_numeric, numbered_lookup, decide_True by by_decision.
  destruct (assoc "request_start_time" row) as [v|] eqn:E; [|done]. simpl. apply (numbers_agree "request_start_time" v); [by_decision|done].
Qed.

Lemma groups_agree rho r : (∀ c, c ∈ json_columns → map_of r c = map_of row c) → as_number (dget r "request_start_time" (VInt 0)) = start_time row →
  groups_with r hp rho = groups_with (numbered row) hp rho.
Proof.
  intros Hm Ht. assert (∀ c, c ∈ json_columns → map_of r c = map_of (numbered row) c) as Hm' by (intros; by rewrite Hm, numbered_map).
  unfold groups_with. f_equal; [|f_equal].
  - unfold features_with. f_equal. apply list_fmap_ext. intros i fc Hfc. unfold feature_with, pod_number. rewrite Hm'; [done|].
    pose proof feature_columns_json as Hall. rewrite Forall_forall in Hall. apply Hall. right. apply list_elem_of_fmap. exists fc. split; [done|by eapply list_elem_of_lookup_2].
  - unfold fresh_with, pod_number. rewrite Ht, !Hm' by by_decision. done.
  - unfold gpu_group. by rewrite Hm' by by_decision.
Qed.

(** The entries of both paths, with the numbers of the pods rounded by [rho] *)
Definition entries (rho : F → F) : dict (value F) := block (groups_with (numbered row) hp rho) pods.

Lemma fast_entries k : ∀ fast, preprocess_inference_fast json_loads float_of_string np_exp nan row hp pods = Ret fast →
  assoc k fast = fill_nan <$> assoc k (assoc_update (base_features (numbered row)) (entries id)).
Proof.
  intros fast. rewrite fast_path_eq by (done || apply (gr_sent _ _ Hrow)). intros [= <-]. rewrite assoc_fmap_values.
  by rewrite (fast_groups (numbered row) pods hp (numbered_plain _ _ (gr_sent _ _ Hrow))).
Qed.

Lemma unified_entries : ∃ unified,
  unified_single_row json_loads literal_eval pd_to_numeric float_of_string np_exp f32 nan (one_row row) hp pods = Ret unified ∧
  ∀ k, assoc k unified = fill_na <$> assoc k (assoc_update (base_features converted) (entries f32)).
Proof.
  unfold unified_single_row, preprocess_data_unified. rewrite uni_prepare_eq. cbn [obind]. eexists. split.
  - apply (unified_path_eq converted pods hp converted_plain_row Hpods).
    + intros c Hc. destruct (filled_expected c Hc) as [v Hv]. rewrite converted_lookup, Hv. by eexists.
    + intros pod Hpod. rewrite converted_time. unfold pod_number. rewrite converted_map by by_decision. by apply (gr_ages _ _ Hrow).
  - intros k. rewrite assoc_fmap_values. f_equal. destruct (groups_with_ok converted hp f32) as [H1 H2].
    assert (NoDup (block (groups_with converted hp f32) pods).*1) as Hnd by by apply block_NoDup.
    pose proof (block_perm _ _ pods (groups_perm converted hp)) as Hp. rewrite !assoc_update_lookup; [|unfold entries; apply block_NoDup; [done|apply groups_with_ok..]|by rewrite <-Hp].
    rewrite <-(assoc_perm _ _ k Hnd Hp). unfold entries. by rewrite (groups_agree f32 converted converted_map converted_time).
Qed.

(** Numbers, or anything else that is equal *)
Definition same (a b : option (value F)) : Prop :=
  a = b ∨ ∃ v w, a = Some v ∧ b = Some w ∧ number v ∧ number w ∧ as_number v = as_number w.

(** The features of the pods that are numbers *)
Definition rounded_features : list string :=
  filter (λ f, excluded hp f = false) feature_configs.*1 ++
  (if excluded hp "kv_hit_ratio_fresh" || excluded hp "kv_hit_ratio" then [] else ["kv_hit_ratio_fresh"]).

Definition rounded_key (k : string) : Prop := ∃ pod f, pod ∈ pods ∧ f ∈ rounded_features ∧ k = pod_key pod f.

Lemma rounded_names rho r : (features_with r hp rho feature_configs ++ fresh_with r hp rho).*1 = rounded_features.
Proof.
  rewrite fmap_app. unfold rounded_features. f_equal; [|unfold fresh_with; by destruct (_ || _)].
  unfold features_with. induction feature_configs as [|fc fcs IH]; [done|]. csimpl. rewrite fmap_app, IH. unfold feature_with at 1.
  destruct (excluded hp fc.1) eqn:E; [by rewrite filter_cons_False by (by rewrite E)|]. by rewrite filter_cons_True.
Qed.

Lemma fill_agree v : v ≠ VNone → fill_na v = fill_nan v.
Proof. by destruct v. Qed.

(** The other entries of the pods are their GPUs. *)
Lemma entries_unrounded rho k : ¬ rounded_key k → assoc k (entries rho) = assoc k (block (gpu_group hp (numbered row)) pods).
Proof.
  intros Hk. unfold entries, groups_with. rewrite app_assoc, block_app. set (gs := features_with _ _ _ _ ++ _).
  assert (k ∉ (block gs pods).*1) as Hin.
  { intros ([k' v] & -> & Hin)%list_elem_of_fmap. apply block_elem in Hin as (g & pod & Hg & Hp & -> & _). apply Hk. exists pod, g.1.
    split_and!; [done| |done]. rewrite <-(rounded_names rho (numbered row)). apply list_elem_of_fmap. by exists g. }
  by rewrite assoc_app, (assoc_None _ _ Hin).
Qed.

Lemma entries_given rho k v : assoc k (entries rho) = Some v → v ≠ VNone.
Proof.
  intros (g & pod & Hg & Hpod & _ & ->)%assoc_elem%block_elem. apply groups_with_cases in Hg as [(fc & _ & _ & ->)|[Hg|Hg]]; [done|..].
  - unfold fresh_with in Hg. destruct (_ || _); [by apply not_elem_of_nil in Hg|]. by apply list_elem_of_singleton in Hg as ->.
  - unfold gpu_group in Hg. destruct (excluded _ _); [by apply not_elem_of_nil in Hg|]. apply list_elem_of_singleton in Hg as ->. simpl.
    rewrite numbered_map by by_decision. unfold map_of, dget. destruct (assoc "GPU" row) as [v|] eqn:E; [|done].
    destruct (gr_maps _ _ _ (gr_sent _ _ Hrow) "GPU" v) as [d ->]; [by_decision|done|]. simpl. destruct (assoc pod d) as [w|] eqn:Ew; [|done].
    by destruct (gr_gpus _ _ _ (gr_sent _ _ Hrow) d pod w E Ew) as [s ->].
Qed.

(** The base features of both paths *)
Definition base_columns : dict (string * value F) :=
  [("request_id", ("requestID", VNone)); ("selected_pod", ("selectedpod", VNone)); ("input_tokens", ("numInputTokens", VInt 0));
   ("output_tokens", ("numOutputTokens", VInt 0)); ("total_tokens", ("numTotalTokens", VInt 0)); ("ttft", ("ttft", VInt 0));
   ("avg_tpot", ("avg_tpot", VInt 0)); ("e2e_latency", ("e2e", VInt 0)); ("request_start_time", ("request_start_time", VInt 0));
   ("request_end_time", ("request_end_time", VInt 0)); ("subAlgorithm", ("subAlgorithm", VNone))].

Lemma base_lookup_columns r k : assoc k (base_features r) = (λ e, dget r e.1 e.2) <$> assoc k base_columns.
Proof. rewrite <-assoc_fmap_values. done. Qed.

Lemma base_column_cases k c dflt : assoc k base_columns = Some (c, dflt) →
  c ∈ numeric_columns ∧ dflt = VInt 0 ∨ c ∈ ["requestID"; "selectedpod"] ∧ dflt = VNone ∨ k = "subAlgorithm" ∧ c = "subAlgorithm" ∧ dflt = VNone.
Proof.
  intros H%assoc_elem. unfold base_columns in H.
  repeat (apply elem_of_cons in H as [[= -> -> ->]|H]; [first [left; split; [by_decision|done]|right; left; split; [by_decision|done]|by right; right]|]).
  by apply not_elem_of_nil in H.
Qed.

Lemma base_same k : (k = "subAlgorithm" → is_Some (assoc k row)) →
  same (fill_nan <$> assoc k (base_features (numbered row))) (fill_na <$> assoc k (base_features converted)).
Proof.
  intros Hsub. rewrite !base_lookup_columns. destruct (assoc k base_columns) as [[c dflt]|] eqn:Ek; [|by left]. cbn [fmap option_fmap option_map fst snd].
  assert (∀ c v, c ∈ ["requestID"; "selectedpod"; "subAlgorithm"] → assoc c row = Some v →
    same (Some (fill_nan (dget (numbered row) c VNone))) (Some (fill_na (dget converted c VNone)))) as Hgiven.
  { intros c' v Hc E. left. assert (c' ∉ numeric_columns) as Hn by not_numeric. rewrite numbered_other by done. unfold dget. rewrite converted_other, fill_missing_lookup, E by done.
    assert (v ≠ VNone) as Hv by by apply (gr_given _ _ Hrow c'). simpl. repeat case_decide; simpl; by rewrite (fill_agree v). }
  destruct (base_column_cases k c dflt Ek) as [[Hc ->]|[[Hc ->]|(-> & -> & ->)]].
  - unfold dget. rewrite converted_numeric, numbered_lookup, decide_True by done. destruct (assoc c row) as [v|] eqn:E; [|by left]. simpl.
    destruct (numbers_agree c v Hc E) as (Hn & He & [->|[Hnan [x Hx]]]).
    + left. f_equal. symmetry. apply fill_agree. intros H. pose proof (as_float_number v (gr_numeric _ _ _ (gr_sent _ _ Hrow) c v Hc E)). by rewrite H in *.
    + right. rewrite Hx in Hnan, He. rewrite Hx. simpl in Hnan, He |- *. rewrite Hnan. exists (VFloat x), (to_numeric v). split_and!; try done.
      f_equal. destruct (to_numeric v); try done. unfold fill_na. simpl in He |- *. by rewrite He, Hnan.
  - assert (c ∈ expected_columns ∧ (c ∉ ["subAlgorithm"; "GPU"]) ∧ c ∈ ["requestID"; "selectedpod"; "subAlgorithm"]) as (He & Hn & Hg).
    { clear Ek. revert c Hc. apply Forall_forall. by_decision. }
    destruct (gr_expected _ _ Hrow c He Hn) as [v Hv]. by apply (Hgiven c v).
  - destruct Hsub as [v Hv]; [done|]. apply (Hgiven "subAlgorithm" v); [by_decision|done].
Qed.

(** Where the entries of the pods are the same, the features are. *)
Lemma features_same k : assoc k (entries f32) = assoc k (entries id) → (k = "subAlgorithm" → is_Some (assoc k row)) →
  same (fill_nan <$> assoc k (assoc_update (base_features (numbered row)) (entries id)))
       (fill_na <$> assoc k (assoc_update (base_features converted) (entries f32))).
Proof.
  intros He Hsub. rewrite !assoc_update_lookup by (unfold entries; apply block_NoDup; [done|apply groups_with_ok..]). rewrite He.
  destruct (assoc k (entries id)) as [v|] eqn:E; [|by apply base_same]. left. simpl. by rewrite (fill_agree v) by by eapply entries_given.
Qed.

(** The freshness of a pod's prefix *)
Definition freshness (rho : F → F) (pod : string) : F :=
  nmul (rho (pod_number row "allPodsKvCacheHitRatios" pod))
    (fresh_weight np_exp (half_life hp) (fast_age (start_time row) (rho (pod_number row "allPodsKvCacheLastAccess" pod)))).

(** The entry of a group of features *)
Lemma entry_of rho g pod (d : dict (value F)) : g ∈ groups_with (numbered row) hp rho → pod ∈ pods →
  assoc (pod_key pod g.1) (assoc_update d (entries rho)) = Some (g.2 pod).
Proof. intros. by apply group_lookup; [done|apply groups_with_ok..|done|done]. Qed.

Lemma feature_entry rho fc pod (d : dict (value F)) : fc ∈ feature_configs → excluded hp fc.1 = false → pod ∈ pods →
  assoc (pod_key pod fc.1) (assoc_update d (entries rho)) = Some (VFloat (rho (pod_number row fc.2 pod))).
Proof.
  intros Hfc Hex Hpod. pose proof (entry_of rho _ pod d (groups_with_feature (numbered row) hp rho fc Hfc Hex) Hpod) as E. cbn [fst snd] in E.
  rewrite E. unfold pod_number. rewrite numbered_map; [done|]. pose proof feature_columns_json as Hall. rewrite Forall_forall in Hall. apply Hall. right. apply list_elem_of_fmap. by exists fc.
Qed.

Lemma fresh_entry rho pod (d : dict (value F)) : excluded hp "kv_hit_ratio_fresh" = false → excluded hp "kv_hit_ratio" = false → pod ∈ pods →
  assoc (pod_key pod "kv_hit_ratio_fresh") (assoc_update d (entries rho)) = Some (VFloat (freshness rho pod)).
Proof.
  intros Hf Hh Hpod. assert (∃ g, g ∈ groups_with (numbered row) hp rho ∧ g.1 = "kv_hit_ratio_fresh" ∧ g.2 pod = VFloat (freshness rho pod)) as (g & Hg & <- & <-).
  - eexists. split; [apply elem_of_app; right; apply elem_of_app; left; unfold fresh_with; rewrite Hf, Hh; left|]. split; [done|]. cbn [snd].
    unfold freshness, start_time, pod_number. by rewrite !numbered_map by by_decision.
  - by apply entry_of.
Qed.

Lemma base_entry rho k (d : dict (value F)) : no_dash k = true → assoc k (assoc_update d (entries rho)) = assoc k d.
Proof. intros Hk. unfold entries. destruct (groups_with_ok (numbered row) hp rho) as [H1 H2]. exact (base_lookup pods Hpods _ d k H1 H2 Hk). Qed.

(** A missing algorithm *)
Lemma missing_algorithm : assoc "subAlgorithm" row = None →
  assoc "subAlgorithm" (base_features (numbered row)) = Some VNone ∧ assoc "subAlgorithm" (base_features converted) = Some VNone.
Proof.
  intros E. rewrite !base_lookup_columns. change (assoc "subAlgorithm" base_columns) with (Some ("subAlgorithm", VNone (F:=F))).
  cbn [fmap option_fmap option_map fst snd]. rewrite numbered_other by by_decision. unfold dget. rewrite E, converted_other by by_decision.
  rewrite fill_missing_lookup, E. done.
Qed.

(** Without rounding both paths have the same entries. *)
Lemma entries_exact : (∀ c pod, c ∈ "allPodsKvCacheLastAccess" :: feature_configs.*2 → pod ∈ pods → f32 (pod_number row c pod) = pod_number row c pod) →
  entries f32 = entries id.
Proof.
  intros Hx. assert (∀ c pod, c ∈ "allPodsKvCacheLastAccess" :: feature_configs.*2 → pod ∈ pods →
    f32 (pod_number (numbered row) c pod) = pod_number (numbered row) c pod) as Hn.
  { intros c pod Hc Hp. unfold pod_number. rewrite numbered_map; [by apply Hx|]. pose proof feature_columns_json as Hall. rewrite Forall_forall in Hall. by apply Hall. }
  unfold entries, groups_with. rewrite !block_app. f_equal; [|f_equal].
  - assert (∀ fcs, (∀ fc, fc ∈ fcs → fc ∈ feature_configs) → block (features_with (numbered row) hp f32 fcs) pods = block (features_with (numbered row) hp id fcs) pods) as H;
      [|by apply H].
    induction fcs as [|fc fcs IH]; intros Hin; [done|]. unfold features_with in *. csimpl. rewrite !block_app, IH by (intros fc' Hfc; apply Hin; by right).
    f_equal. unfold feature_with. destruct (excluded hp fc.1); [done|]. rewrite !block_one. apply list_fmap_ext. intros i pod Hpod. cbn beta.
    apply list_elem_of_lookup_2 in Hpod. unfold id. rewrite (Hn fc.2 pod); [reflexivity| |exact Hpod]. right. apply list_elem_of_fmap. exists fc. split; [done|]. apply Hin. left.
  - unfold fresh_with. destruct (_ || _); [done|]. rewrite !block_one. apply list_fmap_ext. intros i pod Hpod. cbn beta.
    apply list_elem_of_lookup_2 in Hpod. unfold id. rewrite (Hn "allPodsKvCacheHitRatios" pod), (Hn "allPodsKvCacheLastAccess" pod); [reflexivity|left|done|by_decision|done].
Qed.

End gateway.

(** C16: The fast preprocessing of a request is that of a frame of one row, up to the rounding of the
    unified path to [float32]. For a row as the gateway writes it, both paths return; a feature of a pod is
    the number of the gateway's map on the fast path and that number rounded on the unified one, and the
    freshness is the same formula over the exact and over the rounded hit ratio and last access; every other
    feature is the same (equal, or the same number), except a missing algorithm, which is [None] on the fast
    path and 0 on the unified one. So the paths agree on every feature when the numbers of the maps are
    [float32] numbers. *)
Theorem inference_paths_agree row pods hp :
  gateway_row row pods → NoDup pods →
  ∃ fast unified,
    preprocess_inference_fast json_loads float_of_string np_exp nan row hp pods = Ret fast ∧
    unified_single_row json_loads literal_eval pd_to_numeric float_of_string np_exp f32 nan (mkFrame row.*1 [row]) hp pods = Ret unified ∧
    (∀ fc pod, fc ∈ feature_configs → excluded hp fc.1 = false → pod ∈ pods →
       assoc (pod_key pod fc.1) fast = Some (fill_nan (VFloat (pod_number row fc.2 pod))) ∧
       assoc (pod_key pod fc.1) unified = Some (fill_nan (VFloat (f32 (pod_number row fc.2 pod))))) ∧
    (∀ pod, excluded hp "kv_hit_ratio_fresh" = false → excluded hp "kv_hit_ratio" = false → pod ∈ pods →
       assoc (pod_key pod "kv_hit_ratio_fresh") fast = Some (fill_nan (VFloat (freshness row hp id pod))) ∧
       assoc (pod_key pod "kv_hit_ratio_fresh") unified = Some (fill_nan (VFloat (freshness row hp f32 pod)))) ∧
    (∀ k, ¬ rounded_key pods hp k → (k = "subAlgorithm" → is_Some (assoc k row)) → same (assoc k fast) (assoc k unified)) ∧
    (assoc "subAlgorithm" row = None → assoc "subAlgorithm" fast = Some VNone ∧ assoc "subAlgorithm" unified = Some (VInt 0)) ∧
    ((∀ c pod, c ∈ "allPodsKvCacheLastAccess" :: feature_configs.*2 → pod ∈ pods → f32 (pod_number row c pod) = pod_number row c pod) →
     ∀ k, (k = "subAlgorithm" → is_Some (assoc k row)) → same (assoc k fast) (assoc k unified)).
Proof.
  intros Hrow Hpods. pose proof (fast_path_eq row pods hp (gr_sent _ _ Hrow) Hpods) as Hf.
  destruct (unified_entries row pods hp Hrow Hpods) as (unified & Hu & Eu). eexists _, unified. split; [exact Hf|]. split; [exact Hu|].
  pose proof (λ k, fast_entries row pods hp Hrow Hpods k _ Hf) as Ef. clear Hf Hu. split_and!.
  - intros fc pod Hfc Hex Hpod. by rewrite Ef, Eu, !(feature_entry row pods hp Hpods).
  - intros pod Hx Hh Hpod. by rewrite Ef, Eu, !(fresh_entry row pods hp Hpods).
  - intros k Hk Hsub. rewrite Ef, Eu. apply features_same; [done..| |done]. by rewrite !entries_unrounded.
  - intros E. rewrite Ef, Eu, !(base_entry row pods hp Hpods) by reflexivity. by destruct (missing_algorithm row E) as [-> ->].
  - intros Hx k Hsub. rewrite Ef, Eu. apply features_same; [done..| |done]. by rewrite entries_exact.
Qed.

(** A preprocessed request has every feature of every pod: for each pod of the
    cluster and each feature that is not excluded there is an entry, and it is a number
    that is not NaN, also for pods the gateway's maps do not mention. *)
Theorem inference_row_complete row pods hp pod fc :
  gateway_row row pods → NoDup pods → pod ∈ pods → fc ∈ feature_configs → excluded hp fc.1 = false →
  ∃ fast v, preprocess_inference_fast json_loads float_of_string np_exp nan row hp pods = Ret fast ∧
    assoc (pod_key pod fc.1) fast = Some v ∧ number v ∧ nisnan (as_number v) = false.
Proof.
  intros Hrow Hpods Hpod Hfc Hex. eexists _, (fill_nan (VFloat (pod_number row fc.2 pod))). split; [by apply fast_path_eq; [apply (gr_sent _ _ Hrow)|]|].
  rewrite assoc_fmap_values, (fast_groups (numbered row) pods hp (numbered_plain _ _ (gr_sent _ _ Hrow))).
  change (block _ pods) with (entries row pods hp id). rewrite feature_entry by done. simpl.
  destruct (nisnan _) eqn:E; [|done]. split_and!; [done..|apply zero_ok].
Qed.

End paths.

Section null.
Context {F : Type} {NF : Num F} (json_loads : string → option (value F)) (float_of_string : string → option F) (np_exp : F → F) (nan : F).

Lemma omapM_raise {A B} (f : A → outcome B) (l : list A) e x :
  (∀ y, (∃ b, f y = Ret b) ∨ f y = Raise e) → x ∈ l → f x = Raise e → omapM f l = Raise e.
Proof.
  intros Hf. induction l as [|y l IH]; [by intros ?%not_elem_of_nil|]. intros [->|Hin]%elem_of_cons Hx; cbn [omapM].
  - by rewrite Hx.
  - destruct (Hf y) as [[b ->]| ->]; [|done]. cbn [obind]. by rewrite IH.
Qed.

(** A map the gateway writes as [null] is empty for training, but fails a request: when
    one of the columns that name the pods is [null], the training parser reads the empty
    map, while the message parser keeps the text, whose keys do not exist, and the
    preprocessing of the request raises. *)
Theorem null_column_refused (fields : list (string * string)) col hp :
  NoDup fields.*1 → Forall (λ f, no_at f.1 = true ∧ no_at f.2 = true) fields →
  col ∈ pod_id_columns → (col, "null") ∈ fields →
  parse_file_field json_loads float_of_string "null" = VDict [] ∧
  main_inference json_loads float_of_string np_exp nan (log_line fields) hp = Raise Exception_.
Proof.
  intros Hnd Hf Hcol Hin. split; [done|]. assert (fields ≠ []) as Hne by (intros ->; by apply not_elem_of_nil in Hin).
  unfold main_inference. rewrite parse_log_line by done. destruct fields as [|f0 fields]; [done|]. csimpl.
  set (row := (f0.1, parse_field json_loads float_of_string f0.2) :: _).
  assert (assoc col row = Some (VStr "null")) as Hrow.
  { apply assoc_elem_of.
    - unfold row. change (_ :: ?l) with ((λ f : string * string, (f.1, parse_field json_loads float_of_string f.2)) <$> (f0 :: fields)).
      rewrite <-list_fmap_compose. exact Hnd.
    - unfold row. change (_ :: ?l) with ((λ f : string * string, (f.1, parse_field json_loads float_of_string f.2)) <$> (f0 :: fields)).
      apply list_elem_of_fmap. by exists (col, "null"). }
  unfold single_row_pods. rewrite (omapM_raise _ _ Exception_ col); [done| |done|].
  - intros c. unfold keys_of. destruct (dget row c (VDict [])); [by right..|left; eauto].
  - unfold dget. by rewrite Hrow.
Qed.

End null.

(** ** Witnesses *)

(** A parser of JSON that knows the maps of a cluster, over the rationals *)
Definition demo_json (s : string) : option (value Q) :=
  if String.eqb s "{hits}" then Some (VDict [("pod_0000", VFloat (1 # 3)%Q); ("pod_0001", VInt 0); ("pod_0002", VInt 1)])
  else if String.eqb s "{access}" then Some (VDict [("pod_0000", VInt 16777217); ("pod_0001", VInt 0)])
  else if String.eqb s "{usage}" then Some (VDict [("pod_0000", VFloat (9147457006952076 # 1000000000000000000)%Q); ("pod_0001", VInt 0)])
  else if String.eqb s "{tokens}" then Some (VDict [("pod_0000", VInt 2077); ("pod_0001", VInt 340)])
  else if String.eqb s "{gpus}" then Some (VDict [("pod_0000", VStr "NVIDIA-A30")])
  else if String.eqb s "{}" then Some (VDict [])
  else None.

(** [float] of a decimal text, and [pd.to_numeric], which keeps integers *)
Definition demo_float (s : string) : option Q :=
  let negative := String.prefix "-" s in
  let body := if negative then String.substring 1 (String.length s) s else s in
  match as_digits (remove_char "."%char body) with
  | Some n => Some (Qmake (if negative then - n else n) (Z.to_pos (10 ^ Z.of_nat (String.length (default EmptyString (after "." body))))))
  | None => None
  end.

Definition demo_numeric (s : string) : option (value Q) :=
  match py_int s with Some z => Some (VInt z) | None => VFloat <$> demo_float s end.

(** The nearest number with a significand of 24 bits, ties to even, as [np.float32] rounds a number of its range *)
Definition demo_f32 (x : Q) : Q :=
  let m := Z.abs (Qnum x) in let d := Zpos (Qden x) in
  if m =? 0 then x
  else
    let e := Z.log2 m - Z.log2 d in
    let e := if m * 2 ^ Z.max 0 (- e) <? d * 2 ^ Z.max 0 e then e - 1 else e in
    let s := 23 - e in
    let n := m * 2 ^ Z.max 0 s in let b := d * 2 ^ Z.max 0 (- s) in
    let q := n / b in let r := n mod b in
    let q := if (2 * r <? b) || (2 * r =? b) && Z.even q then q else q + 1 in
    Qred (Qmake (Z.sgn (Qnum x) * q * 2 ^ Z.max 0 (- s)) (Z.to_pos (2 ^ Z.max 0 s))).

Example demo_f32_rounds :
  demo_f32 (1 # 4)%Q = (1 # 4)%Q ∧ demo_f32 (16777217 # 1)%Q = (16777216 # 1)%Q ∧ demo_f32 (1 # 3)%Q = (11184811 # 33554432)%Q.
Proof. by vm_compute. Qed.

(** A message in the format of the gateway, which has negative integers where nothing is known yet, and a line of its
    log, where a doubled separator shifts what follows *)
Definition demo_message : string :=
  "**@latency_metrics@requestID@17@request_start_time@-25051@request_end_time@-9999@selectedpod@-9999@ttft@-9999@avg_tpot@-9999@" +:+
  "total_decode_time@-9999@e2e@-9999@numInputTokens@2102@numOutputTokens@1@numTotalTokens@2103@allPodsKvCacheHitRatios@{hits}@" +:+
  "allPodsKvCacheLastAccess@{access}@hashOfMatchedPrefix@8866696005710957937@numInflightRequestsAllPods@{}@" +:+
  "numInflightPrefillRequestsAllPods@{}@numInflightDecodeRequestsAllPods@{}@vllmGPUKVCacheUsage@{usage}@vllmCPUKVCacheUsage@{}@" +:+
  "vllmNumRequestsRunning@{}@vllmNumRequestsWaiting@{}@vllmNumPreemptions@{}@numPrefillTokensForAllPods@{tokens}@" +:+
  "numDecodeTokensForAllPods@{}@subAlgorithm@lodestar@prev_reward@-7.000000@GPU@{gpus}".

Definition demo_line : string :=
  "I0401 00:02:33.440092 1 gateway_rsp_body.go:1013] **@latency_metrics@requestID@0@request_start_time@-25051@request_end_time@1267023@" +:+
  "selectedpod@pod_0001@ttft@1291@avg_tpot@0@total_decode_time@0@e2e@1292@numInputTokens@2102@numOutputTokens@1@numTotalTokens@2103@" +:+
  "allPodsKvCacheHitRatios@{hits}@allPodsKvCacheLastAccess@{access}@hashOfMatchedPrefix@8866696005710957937@numInflightRequestsAllPods@{}@" +:+
  "numInflightPrefillRequestsAllPods@{}@numInflightDecodeRequestsAllPods@{}@vllmGPUKVCacheUsage@{usage}@vllmCPUKVCacheUsage@{}@" +:+
  "vllmNumRequestsRunning@{}@vllmNumRequestsWaiting@{}@numPrefillTokensForAllPods@{tokens}@numDecodeTokensForAllPods@{}@numTrains@0@" +:+
  "numFlush@0@exploration@-1@explorationEnabled@-1@@predictedRewards@null@chosenPodPredictedReward@-99.000000@iteration@0@" +:+
  "subAlgorithm@random@prev_reward@-7.000000@GPU@{gpus}@selectedPodGPU@NotDecidedYet".

Definition demo_pods : list string := ["pod_0000"; "pod_0001"; "pod_0002"].

Definition demo_row : dict (value Q) := parse_log_to_dict demo_json demo_float demo_message.

Definition demo_line_row : dict (value Q) := parse_log_to_dict demo_json demo_float demo_line.

(** A property of the values of some columns, checked by evaluation. *)
Lemma columns_checked {F} (row : dict (value F)) (P : value F → bool) cols c v :
  forallb (λ c, match assoc c row with Some v => P v | None => true end) cols = true →
  c ∈ cols → assoc c row = Some v → P v = true.
Proof. rewrite forallb_forall. intros H Hc%list_elem_of_In E. specialize (H c Hc). cbv beta in H. by rewrite E in H. Qed.

Definition is_number {F} (v : value F) : bool := match v with VInt _ | VFloat _ => true | _ => false end.

Definition is_map {F} (v : value F) : bool := match v with VDict _ => true | _ => false end.

Definition map_all {F} (P : value F → bool) (v : value F) : bool := match v with VDict d => forallb P d.*2 | _ => true end.

Lemma map_all_lookup {F} P (d : dict (value F)) k v : map_all P (VDict d) = true → assoc k d = Some v → P v = true.
Proof. cbn [map_all]. rewrite forallb_forall. intros H E%assoc_elem. apply H, list_elem_of_In, list_elem_of_fmap. by exists (k, v). Qed.

Definition is_text {F} (v : value F) : bool := match v with VStr _ => true | _ => false end.

Definition all_columns {F} (P : value F → bool) (cols : list string) (row : dict (value F)) : bool :=
  forallb (λ c, match assoc c row with Some v => P v | None => true end) cols.

Definition present {F} (cols : list string) (row : dict (value F)) : bool :=
  forallb (λ c, match assoc c row with Some _ => true | None => false end) cols.

(** A row of a gateway over the rationals, by evaluation *)
Definition is_readable (v : value Q) : bool :=
  match v with VInt _ | VFloat _ => true | VStr s => match demo_float s with Some _ => true | None => false end | _ => false end.

Definition sent_row_check (row : dict (value Q)) : bool :=
  all_columns is_readable numeric_columns row && all_columns is_map json_columns row &&
  all_columns (map_all is_number) ("allPodsKvCacheLastAccess" :: feature_configs.*2) row && all_columns (map_all is_text) ["GPU"] row.

(** Both readings of a text are the same number. *)
Definition reads_agree (v : value Q) : bool :=
  match v with
  | VStr s =>
    match demo_numeric s, demo_float s with
    | Some (VInt z), Some x => Z.eqb (Qnum x) z && Pos.eqb (Qden x) 1
    | Some (VFloat y), Some x => Z.eqb (Qnum x) (Qnum y) && Pos.eqb (Qden x) (Qden y)
    | _, _ => false
    end
  | _ => true
  end.

Definition gateway_row_check (row : dict (value Q)) : bool :=
  present (filter (λ c, c ∉ ["subAlgorithm"; "GPU"]) expected_columns) row && sent_row_check row &&
  all_columns (λ v, match v with VNone => false | _ => true end) ["requestID"; "selectedpod"; "subAlgorithm"] row &&
  all_columns reads_agree numeric_columns row.

Lemma present_lookup {F} cols (row : dict (value F)) c : present cols row = true → c ∈ cols → ∃ v, assoc c row = Some v.
Proof. unfold present. rewrite forallb_forall. intros H Hc%list_elem_of_In%H. destruct (assoc c row) as [v|]; [by exists v|done]. Qed.

Lemma sent_row_checked row pods : sent_row_check row = true → sent_row demo_float row pods.
Proof.
  unfold sent_row_check, all_columns. rewrite !andb_true_iff. intros (((Hn & Hm) & Hv) & Hg). split.
  - intros c v Hc E. pose proof (columns_checked _ _ _ c v Hn Hc E) as H. destruct v; try done; [by left..|right].
    simpl in H. destruct (demo_float _) as [x|] eqn:Ex; [|done]. by eexists _, x.
  - intros c v Hc E. pose proof (columns_checked _ _ _ c v Hm Hc E). destruct v; eauto; done.
  - intros c d pod v Hc E _ Ed. pose proof (map_all_lookup _ _ _ _ (columns_checked _ _ _ c _ Hv Hc E) Ed). by destruct v.
  - intros d pod v E Ed. pose proof (map_all_lookup _ _ _ _ (columns_checked _ _ _ "GPU" _ Hg ltac:(left) E) Ed). destruct v; eauto; done.
Qed.

Lemma gateway_row_checked row pods : gateway_row_check row = true → gateway_row demo_numeric demo_float demo_f32 (0 # 1)%Q row pods.
Proof.
  unfold gateway_row_check. rewrite !andb_true_iff. intros (((He & Hs) & Hg) & Ht). split.
  - intros c Hc Hn. apply (present_lookup _ _ _ He). by apply list_elem_of_filter.
  - by apply sent_row_checked.
  - intros c v Hc E. pose proof (columns_checked _ _ _ c v Hg Hc E). by destruct v.
  - intros c s Hc E. pose proof (columns_checked _ _ _ c _ Ht Hc E) as H. cbn [reads_agree] in H.
    destruct (demo_numeric s) as [w|], (demo_float s) as [[n den]|]; try done; [|by destruct w]. exists w.
    destruct w as [| | |[n' den']| | |]; try done; apply andb_true_iff in H as [H1%Z.eqb_eq H2%Pos.eqb_eq]; simpl in H1, H2; by subst.
  - done.
Qed.

Lemma demo_gateway_row : gateway_row demo_numeric demo_float demo_f32 (0 # 1)%Q demo_row demo_pods.
Proof. apply gateway_row_checked. vm_compute. reflexivity. Qed.

Lemma demo_line_gateway_row : gateway_row demo_numeric demo_float demo_f32 (0 # 1)%Q demo_line_row demo_pods.
Proof. apply gateway_row_checked. vm_compute. reflexivity. Qed.

(** A configuration that excludes one feature. *)
Definition demo_hp : option (hyper (F:=Q)) := Some (mkHyper (Some ["prefill_tokens"]) None).

(** The usage of a cache is rounded on the one path only; the number of tokens, the time and the algorithm are the same, and
    the line of the log, which has no algorithm, is covered too. *)
Lemma inference_paths_agree_witness :
  (∃ fast unified,
     preprocess_inference_fast demo_json demo_float (λ x, x) (0 # 1)%Q demo_row demo_hp demo_pods = Ret fast ∧
     unified_single_row demo_json demo_json demo_numeric demo_float (λ x, x) demo_f32 (0 # 1)%Q (mkFrame demo_row.*1 [demo_row]) demo_hp demo_pods = Ret unified ∧
     assoc (pod_key "pod_0000" "gpu_kv_cache") fast = Some (VFloat (9147457006952076 # 1000000000000000000)%Q) ∧
     assoc (pod_key "pod_0000" "gpu_kv_cache") unified = Some (VFloat (9822007 # 1073741824)%Q) ∧
     same (0 # 1)%Q (assoc "request_start_time" fast) (assoc "request_start_time" unified) ∧
     same (0 # 1)%Q (assoc "subAlgorithm" fast) (assoc "subAlgorithm" unified)) ∧
  (∃ fast unified,
     preprocess_inference_fast demo_json demo_float (λ x, x) (0 # 1)%Q demo_line_row demo_hp demo_pods = Ret fast ∧
     unified_single_row demo_json demo_json demo_numeric demo_float (λ x, x) demo_f32 (0 # 1)%Q (mkFrame demo_line_row.*1 [demo_line_row]) demo_hp demo_pods = Ret unified ∧
     assoc "subAlgorithm" fast = Some VNone ∧ assoc "subAlgorithm" unified = Some (VInt 0)).
Proof.
  assert (∀ k, no_dash k = true → ¬ rounded_key demo_pods demo_hp k) as Hk by (intros k Hk (pod & f & _ & _ & ->); by rewrite pod_key_dash in Hk).
  split.
  - destruct (inference_paths_agree demo_json demo_json demo_numeric demo_float (λ x, x) demo_f32 (0 # 1)%Q demo_row demo_pods demo_hp demo_gateway_row
      ltac:(by_decision)) as (fast & unified & Hf & Hu & Hfeature & _ & Hsame & _). exists fast, unified.
    destruct (Hfeature ("gpu_kv_cache", "vllmGPUKVCacheUsage") "pod_0000") as [E1 E2]; [by_decision..|]. split_and!; [done..|exact E1| | |].
    + etransitivity; [exact E2|vm_compute; reflexivity].
    + apply Hsame; [by apply Hk|done].
    + apply Hsame; [by apply Hk|]. intros _. vm_compute. by eexists.
  - destruct (inference_paths_agree demo_json demo_json demo_numeric demo_float (λ x, x) demo_f32 (0 # 1)%Q demo_line_row demo_pods demo_hp demo_line_gateway_row
      ltac:(by_decision)) as (fast & unified & Hf & Hu & _ & _ & _ & Hsub & _). exists fast, unified.
    split_and!; [done..|apply Hsub; vm_compute; reflexivity|apply Hsub; vm_compute; reflexivity].
Defined.

Lemma inference_row_complete_witness :
  ∃ fast v, preprocess_inference_fast demo_json demo_float (λ x, x) (0 # 1)%Q demo_row demo_hp demo_pods = Ret fast ∧
    assoc (pod_key "pod_0002" "kv_hit_ratio") fast = Some v ∧ number v ∧ nisnan (as_number (0 # 1)%Q v) = false.
Proof.
  apply (inference_row_complete demo_json demo_numeric demo_float (λ x, x) demo_f32 (0 # 1)%Q demo_row demo_pods demo_hp "pod_0002" ("kv_hit_ratio", "allPodsKvCacheHitRatios"));
    [exact demo_gateway_row|by_decision..].
Defined.

Lemma log_message_roundtrip_witness :
  parse_log_to_dict demo_json (λ _, None) "**@latency_metrics@ttft@120@vllmCPUKVCacheUsage@{tokens}" =
    [("ttft", VInt 120); ("vllmCPUKVCacheUsage", VDict [("pod_0000", VInt 2077); ("pod_0001", VInt 340)])].
Proof.
  apply (log_message_roundtrip demo_json (λ _, None) [("ttft", 120%N)] [("vllmCPUKVCacheUsage", "{tokens}")]); [done|by_decision..|].
  repeat constructor. by eexists.
Defined.

Lemma parsers_agree_witness :
  parse_log_file demo_json (λ _, None) (log_line <$> [[("ttft", "120"); ("GPU", "{gpus}")]; [("ttft", "90"); ("GPU", "{gpus}")]]) =
    Ret (mkFrame ["ttft"; "GPU"]
      ((λ fs, parse_log_to_dict demo_json (λ _, None) (log_line fs)) <$> [[("ttft", "120"); ("GPU", "{gpus}")]; [("ttft", "90"); ("GPU", "{gpus}")]])).
Proof.
  apply (parsers_agree demo_json (λ _, None) _ [("ttft", "120"); ("GPU", "{gpus}")]); [done|by_decision..].
Defined.

Lemma null_column_refused_witness :
  parse_file_field demo_json (λ _, None) "null" = VDict [] ∧
  main_inference demo_json (λ _, None) (λ x, x) (0 # 1)%Q (log_line [("ttft", "120"); ("vllmGPUKVCacheUsage", "null")]) None = Raise Exception_.
Proof.
  apply (null_column_refused _ _ _ _ [("ttft", "120"); ("vllmGPUKVCacheUsage", "null")] "vllmGPUKVCacheUsage"); by_decision.
Defined.
