(* ===== verification/Encoding.v ===== *)
(** * The tensors of the model

    Models [routing_agent_service/agent_codes/encoding.py]: the [DataEncoder] with its
    caches, the features of the pods for one row and for a batch, the request features,
    actions and rewards, the tensors of a request and of a training file, and the
    description that is saved beside them.

    The input is the dictionary of a request or a frame of columns. An array of shape
    [n, pods, features] is a list of samples, each a list of pods, each a list of numbers.
    [float(text)], [str] of a value that is neither a text nor an integer, the rounding to
    float32, [np.nan_to_num] of a float and the statistics of an array are parameters.
    Every log line that indexes an array is evaluated, whether it is printed or not. *)

From stdpp Require Import sorting pretty.
From Stdlib Require Import Ascii.
From S2P Require Import Prelude Digits Num PodRegistry Preprocess.

Open Scope Z_scope.
Open Scope py_scope.

(** ** Data *)

(** What the encoder reads of the hyperparameters. *)
Record enc_hyper := mkEncHyper {
  enc_excluded : list string;               (* [EXCLUDED_POD_FEATURES], default [[]] *)
  enc_include_gpu : option bool;            (* [INCLUDE_GPU_FEATURES] *)
  enc_pod_gpu_ids : dict Z                  (* [pod_gpu_id_mapping], default [{}] *)
}.

Record feature_config := mkConfig {
  all_numeric : list string;
  pod_numeric : list string;
  n_numeric : nat;
  n_pod_numeric : nat;
  gpu_onehot_dim : nat;
  total_feature_dim : nat
}.

(** A part of the key of the GPU cache: a name, nothing, or a NaN, which is a new object
    each time and equal to nothing. *)
Inductive key_part := KName (s : string) | KNone | KNaN.

Definition key_part_eqb (a b : key_part) : bool :=
  match a, b with KName s, KName t => String.eqb s t | KNone, KNone => true | _, _ => false end.

Record DataEncoder := mkEncoder {
  sorted_all_pod_ids : list string;
  pod_features : list string;
  numeric_request_features : list string;
  num_gpu_types : nat;
  cached_pod_ids : option (list string * list string);                       (* key and set *)
  cached_pod_feature_columns : option (list string * (list string * list string)); (* key, columns and features *)
  cached_feature_config : option ((list string * nat) * feature_config);
  cached_gpu_mapping : option ((list string * list key_part) * dict Z)
}.

Definition new_DataEncoder : DataEncoder := mkEncoder [] [] [] 0 None None None None.

Definition set_pod_features (fs : list string) (e : DataEncoder) : DataEncoder :=
  mkEncoder (sorted_all_pod_ids e) fs (numeric_request_features e) (num_gpu_types e) (cached_pod_ids e)
            (cached_pod_feature_columns e) (cached_feature_config e) (cached_gpu_mapping e).

Definition set_pod_ids (ids : list string) (e : DataEncoder) : DataEncoder :=
  mkEncoder ids (pod_features e) (numeric_request_features e) (num_gpu_types e) (cached_pod_ids e)
            (cached_pod_feature_columns e) (cached_feature_config e) (cached_gpu_mapping e).

Definition set_cached_ids (c : list string * list string) (e : DataEncoder) : DataEncoder :=
  mkEncoder (sorted_all_pod_ids e) (pod_features e) (numeric_request_features e) (num_gpu_types e) (Some c)
            (cached_pod_feature_columns e) (cached_feature_config e) (cached_gpu_mapping e).

Definition set_request (n : nat) (fs : list string) (e : DataEncoder) : DataEncoder :=
  mkEncoder (sorted_all_pod_ids e) (pod_features e) fs n (cached_pod_ids e)
            (cached_pod_feature_columns e) (cached_feature_config e) (cached_gpu_mapping e).

Definition set_columns (c : list string * (list string * list string)) (e : DataEncoder) : DataEncoder :=
  mkEncoder (sorted_all_pod_ids e) (pod_features e) (numeric_request_features e) (num_gpu_types e) (cached_pod_ids e)
            (Some c) (cached_feature_config e) (cached_gpu_mapping e).

Definition set_config (c : option ((list string * nat) * feature_config)) (e : DataEncoder) : DataEncoder :=
  mkEncoder (sorted_all_pod_ids e) (pod_features e) (numeric_request_features e) (num_gpu_types e) (cached_pod_ids e)
            (cached_pod_feature_columns e) c (cached_gpu_mapping e).

Definition set_gpu (c : (list string * list key_part) * dict Z) (e : DataEncoder) : DataEncoder :=
  mkEncoder (sorted_all_pod_ids e) (pod_features e) (numeric_request_features e) (num_gpu_types e) (cached_pod_ids e)
            (cached_pod_feature_columns e) (cached_feature_config e) (Some c).

(** ** The configuration of features *)

Definition base_features_list : list string :=
  ["inflight_requests"; "inflight_prefill_requests"; "inflight_decode_requests"; "gpu_kv_cache"; "cpu_kv_cache";
   "running_requests"; "waiting_requests"; "prefill_tokens"; "decode_tokens"; "kv_hit_ratio"; "kv_hit_ratio_fresh"].

Definition config_of (excluded : list string) (gpu_types : nat) : feature_config :=
  let all_numeric := List.filter (λ f, bool_decide (f ∉ excluded)) base_features_list in
  let pod_numeric := List.filter (λ f, negb (String.eqb f "kv_hit_ratio")) all_numeric in
  mkConfig all_numeric pod_numeric (length all_numeric) (length pod_numeric) gpu_types (length all_numeric + gpu_types).

Definition get_feature_config (hp : enc_hyper) : M DataEncoder feature_config :=
  let* e := get in
  let excluded := sorted_set (enc_excluded hp) in
  let cache_key := (excluded, num_gpu_types e) in
  let recompute :=
    let config := config_of excluded (num_gpu_types e) in
    modify (set_config (Some (cache_key, config))) ;;
    ret config in
  match cached_feature_config e with
  | Some (key, config) =>
    if bool_decide (cache_key = key) then
      if bool_decide (length (all_numeric config) = n_numeric config ∧
                      total_feature_dim config = (n_numeric config + gpu_onehot_dim config)%nat)
      then ret config else recompute
    else recompute
  | None => recompute
  end.

(** A configuration that fails the check of its caller is computed again. *)
Definition checked_config (consistent : feature_config → bool) (hp : enc_hyper) : M DataEncoder feature_config :=
  let* config := get_feature_config hp in
  if consistent config then ret config
  else modify (set_config None) ;; get_feature_config hp.

Definition CURRENT_STATE_FEATURES : list string :=
  ["inflight_requests"; "inflight_prefill_requests"; "inflight_decode_requests"; "kv_hit_ratio"; "kv_hit_ratio_fresh";
   "gpu_kv_cache"; "cpu_kv_cache"; "running_requests"; "waiting_requests"; "prefill_tokens"; "decode_tokens"].

(** ** Names of columns *)

Definition dash : ascii := "-"%char.

(** [col.split('-')] *)
Fixpoint split_dashes (s : string) : list string :=
  match s with
  | EmptyString => [EmptyString]
  | String c s' =>
    if Ascii.eqb c dash then EmptyString :: split_dashes s'
    else match split_dashes s' with
         | x :: xs => String c x :: xs
         | [] => [String c EmptyString]
         end
  end.

(** [col.split('-', 1)] of a text with a dash *)
Fixpoint split_dash (s : string) : option (string * string) :=
  match s with
  | EmptyString => None
  | String c s' =>
    if Ascii.eqb c dash then Some (EmptyString, s')
    else match split_dash s' with Some (a, b) => Some (String c a, b) | None => None end
  end.

Definition is_pod_column (col : string) : bool := String.prefix "pod_" col.

Definition feature_names (cols : list string) : list string :=
  sorted_set (omap (λ col, split_dashes col !! 1%nat) cols).

(** ** Arrays *)

Section encoding.
Context {F : Type} {NF : Num F}.
Context (float_of_string : string → option F) (repr : value F → string) (f32 nan_to_num : F → F) (nan : F).

Abbreviation np2 := (list (list F)).
Abbreviation np3 := (list (list (list F))).

(** The value a float32 array holds after a value is assigned to an element. *)
Definition to_f32 (v : value F) : outcome F :=
  match v with
  | VNone => Ret nan
  | VDict _ => Raise TypeError
  | VList _ => Raise ValueError
  | _ => try* x := to_float float_of_string v in Ret (f32 x)
  end.

(** The input: the dictionary of a request, or a frame with its number of rows. *)
Inductive table :=
| Row (d : dict (value F))
| Frame (n : nat) (cols : dict (list (value F))).

Definition n_samples (t : table) : nat := match t with Row _ => 1%nat | Frame n _ => n end.

Definition columns (t : table) : list string := match t with Row d => d.*1 | Frame _ cols => cols.*1 end.

(** What is kept of a column for a pod: a value when there is one row, else the array. *)
Inductive cell := Scalar (v : value F) | Column (vs : list (value F)).

Definition get_first_value (c : cell) : outcome (value F) :=
  match c with
  | Scalar v => Ret v
  | Column (v :: _) => Ret v
  | Column [] => Raise TypeError
  end.

Definition cell_of (t : table) (col : string) : outcome cell :=
  match t with
  | Row d => match assoc col d with Some v => Ret (Scalar v) | None => Raise KeyError end
  | Frame n cols =>
    match assoc col cols with
    | Some vs => if (n =? 1)%nat then match vs with v :: _ => Ret (Scalar v) | [] => Raise IndexError end else Ret (Column vs)
    | None => Raise KeyError
    end
  end.

Abbreviation pods_data := (dict (dict cell)).

Fixpoint extract_loop (t : table) (ids cols : list string) (pod_data : pods_data) : outcome pods_data :=
  match cols with
  | [] => Ret pod_data
  | col :: cols' =>
    match (if is_pod_column col then split_dash col else None) with
    | Some (pod_id, feature) =>
      if bool_decide (pod_id ∈ ids) then
        try* c := cell_of t col in
        extract_loop t ids cols' (assoc_set pod_id (assoc_set feature c (default [] (assoc pod_id pod_data))) pod_data)
      else Raise SystemExit
    | None => extract_loop t ids cols' pod_data
    end
  end.

Definition extract_pod_columns (t : table) (ids cols : list string) : outcome pods_data :=
  try* pod_data := extract_loop t ids cols [] in
  match pod_data with [] => Raise SystemExit | _ => Ret pod_data end.

(** ** The GPUs of the pods *)

Definition gpu_in_data (pod_data : pods_data) (pod_id : string) : outcome (option Z * key_part) :=
  match assoc pod_id pod_data with
  | Some fs =>
    match assoc "GPU" fs with
    | Some c =>
      try* v := get_first_value c in
      match v with
      | VNone => Ret (None, KNone)
      | VStr s => match assoc s GPU_MODEL_TO_ENCODE with Some i => Ret (Some i, KName s) | None => Raise AssertionError end
      | VFloat x => if nisnan x then Ret (None, KNaN) else Raise AssertionError
      | VInt _ | VBool _ => Raise AssertionError
      | VDict _ | VList _ => Raise Exception_
      end
    | None => Ret (None, KNone)
    end
  | None => Ret (None, KNone)
  end.

Definition gpu_model_id (hp : enc_hyper) (gpu_types : nat) (pod_data : pods_data) (pod_id : string) : outcome (Z * key_part) :=
  try* r := gpu_in_data pod_data pod_id in
  let '(found, part) := r in
  match (match found with Some i => Some i | None => assoc pod_id (enc_pod_gpu_ids hp) end) with
  | Some i => if (i <? 0) || (Z.of_nat gpu_types <=? i) then Raise AssertionError else Ret (i, part)
  | None => Raise AssertionError
  end.

Definition same_key (a b : list string * list key_part) : bool :=
  bool_decide (a.1 = b.1) && (length a.2 =? length b.2)%nat && forallb (λ p, key_part_eqb p.1 p.2) (zip a.2 b.2).

Definition gpu_encoded (hp : enc_hyper) (pod_data : pods_data) : M DataEncoder (dict Z) :=
  let* e := get in
  match num_gpu_types e with
  | O => ret []
  | S _ =>
    let* parts := lift (omapM (gpu_model_id hp (num_gpu_types e) pod_data) (sorted_all_pod_ids e)) in
    let gpu_key := (sorted_all_pod_ids e, parts.*2) in
    let mapping := zip (sorted_all_pod_ids e) parts.*1 in
    let fresh := modify (set_gpu (gpu_key, mapping)) ;; ret mapping in
    match cached_gpu_mapping e with
    | Some (key, cached) => if same_key gpu_key key then ret cached else fresh
    | None => fresh
    end
  end.

(** [gpu_onehot = np.zeros(dim); gpu_onehot[i] = 1] *)
Definition gpu_onehot (dim : nat) (i : Z) : outcome (list F) :=
  if (i <? - Z.of_nat dim) || (Z.of_nat dim <=? i) then Raise IndexError
  else Ret ((λ j, if Z.of_nat j =? py_norm_index (Z.of_nat dim) i then lit 1 else lit 0) <$> seq 0 dim).

(** The GPU part of the row of a pod: zeros for a pod without data. *)
Definition gpu_part (dim : nat) (gpus : dict Z) (pod_data : pods_data) (pod_id : string) : outcome (list F) :=
  match assoc pod_id pod_data with
  | Some _ =>
    if (dim =? 0)%nat then Ret []
    else match assoc pod_id gpus with Some i => gpu_onehot dim i | None => Raise KeyError end
  | None => Ret (replicate dim (lit 0))
  end.

(** ** One row *)

Definition single_feature (fs : dict cell) (feature : string) : outcome F :=
  match assoc feature fs with
  | Some c => try* v := get_first_value c in to_f32 v
  | None => Ret (lit 0)
  end.

(** The numeric features of a pod and its hit ratio *)
Definition single_numeric (features : list string) (pod_data : pods_data) (pod_id : string) : outcome (list F * F) :=
  match assoc pod_id pod_data with
  | Some fs =>
    try* row := omapM (single_feature fs) features in
    try* kv := single_feature fs "kv_hit_ratio" in
    Ret (row, kv)
  | None => Ret (replicate (length features) (lit 0), lit 0)
  end.

(** Features, hit ratios and the positions of the features *)
Definition single_row_process_pod_features (hp : enc_hyper) (pod_data : pods_data) : M DataEncoder (np3 * np3 * dict nat) :=
  let* config := checked_config (λ c, length (pod_numeric c) =? n_pod_numeric c)%nat hp in
  let* gpus := gpu_encoded hp pod_data in
  let* e := get in
  let ids := sorted_all_pod_ids e in
  let* numeric := lift (omapM (single_numeric (pod_numeric config) pod_data) ids) in
  let* onehots := lift (omapM (gpu_part (gpu_onehot_dim config) gpus pod_data) ids) in
  let indices := match ids with [] => [] | _ => zip (pod_numeric config) (seq 0 (length (pod_numeric config))) end in
  ret ([zip_with (++) numeric.*1 onehots], [(λ kv, [kv]) <$> numeric.*2], indices).

(** ** A batch *)

(** [np.nan_to_num] changes arrays of floats only. *)
Definition is_numeric (v : value F) : bool := match v with VInt _ | VFloat _ => true | _ => false end.

Definition get_feature_values (vs : list (value F)) : list (value F) :=
  if forallb is_numeric vs then (λ v, match v with VFloat x => VFloat (nan_to_num x) | v => v end) <$> vs else vs.

(** A column assigned to the samples of a feature *)
Definition batch_feature (n : nat) (fs : dict cell) (feature : string) : outcome (list F) :=
  match assoc feature fs with
  | Some (Column vs) => omapM to_f32 (get_feature_values vs)
  | Some (Scalar v) => try* x := to_f32 v in Ret (replicate n x)
  | None => Ret (replicate n (lit 0))
  end.

(** The columns of a pod: its numeric features and its GPU *)
Definition batch_pod (config : feature_config) (n : nat) (gpus : dict Z) (pod_data : pods_data) (pod_id : string) :
    outcome (list (list F) * list F) :=
  match assoc pod_id pod_data with
  | Some fs =>
    try* numeric := omapM (batch_feature n fs) (all_numeric config) in
    try* gpu := gpu_part (gpu_onehot_dim config) gpus pod_data pod_id in
    Ret (numeric, gpu)
  | None => Ret (replicate (n_numeric config) (replicate n (lit 0)), replicate (gpu_onehot_dim config) (lit 0))
  end.

(** The rows of an array given by its columns *)
Definition sample (columns : list (list F)) (i : nat) : list F := (λ c, default (lit 0) (c !! i)) <$> columns.

Definition select {A} (idxs : list nat) (l : list A) : list A := omap (λ i, l !! i) idxs.

(** The positions of the elements with a property *)
Definition positions {A} (P : A → bool) (l : list A) : list nat :=
  (List.filter (λ p : nat * A, P p.2) (zip (seq 0 (length l)) l)).*1.

Definition last_axis (f : list F → list F) (a : np3) : np3 := (λ s : list (list F), f <$> s) <$> a.

Definition filter_identity_features (a : np3) (names : list string) : np3 * list string :=
  match positions (λ f, bool_decide (f ∈ CURRENT_STATE_FEATURES)) names with
  | [] => (a, names)
  | keep => (last_axis (select keep) a, select keep names)
  end.

Definition concatenate (a b : np3) : np3 := zip_with (zip_with (++)) a b.

Definition gpu_feature_names (dim : nat) : list string := (λ i : nat, "gpu_model_" +:+ pretty i) <$> seq 0 dim.

(** The separation of the hit ratio: features, hit ratios and the names of the features *)
Definition split_kv (n n_pods : nat) (a : np3) (kept : list string) : np3 * np3 * list string :=
  match index_of "kv_hit_ratio" kept with
  | Some k =>
    let others := List.filter (λ i, negb (i =? k)%nat) (seq 0 (length kept)) in
    let kv := last_axis (select [k]) a in
    match others with
    | [] => (replicate n (replicate n_pods [nlit 1 2]), kv, ["minimal_feature"])
    | _ => (last_axis (select others) a, kv, select others kept)
    end
  | None => (a, replicate n (replicate n_pods [lit 0]), kept)
  end.

Definition process_pod_features (hp : enc_hyper) (pod_data : pods_data) (n : nat) : M DataEncoder (np3 * np3 * dict nat) :=
  match pod_data with
  | [] => raise AssertionError
  | _ =>
    if (n =? 1)%nat then single_row_process_pod_features hp pod_data
    else
      let* config := checked_config (λ c, length (all_numeric c) =? n_numeric c)%nat hp in
      let* gpus := gpu_encoded hp pod_data in
      let* e := get in
      let ids := sorted_all_pod_ids e in
      let* pods := lift (omapM (batch_pod config n gpus pod_data) ids) in
      let numeric := (λ i, (λ p : list (list F) * list F, sample p.1 i) <$> pods) <$> seq 0 n in
      let gpu := replicate n pods.*2 in
      let '(numeric, kept_numeric) := filter_identity_features numeric (all_numeric config) in
      let '(features, kv, kept) :=
        split_kv n (length ids) (concatenate numeric gpu) (kept_numeric ++ gpu_feature_names (num_gpu_types e)) in
      modify (set_pod_features kept) ;;
      if (n =? 0)%nat || (length ids <? 2)%nat then raise IndexError
      else ret (features, kv, [])
  end.

(** ** Requests, actions and rewards *)

Definition extract_request_features (t : table) (names : list string) : outcome np2 :=
  match names with
  | [] => Ret (replicate (n_samples t) [])
  | _ =>
    match t with
    | Row d => try* r := omapM (λ f, to_f32 (dget d f (VInt 0))) names in Ret [r]
    | Frame n cols =>
      if forallb (λ f, bool_decide (f ∈ cols.*1)) names then
        try* cs := omapM (λ f, omapM to_f32 (default [] (assoc f cols))) names in
        Ret ((λ i, sample cs i) <$> seq 0 n)
      else Raise AssertionError
    end
  end.

Definition py_str (v : value F) : string := match v with VStr s => s | VInt z => pretty z | v => repr v end.

(** The position of the selected pod; what is no pod is 0. *)
Definition action_of (ids : list string) (v : value F) : Z :=
  if is_na v then 0 else match index_of (py_str v) ids with Some i => Z.of_nat i | None => 0 end.

Definition extract_actions (t : table) (ids : list string) : list Z :=
  match t with
  | Row d => [match assoc "selected_pod" d with Some v => action_of ids v | None => 0 end]
  | Frame n cols => match assoc "selected_pod" cols with Some vs => action_of ids <$> vs | None => replicate n 0 end
  end.

(** One of the columns of rewards and latencies *)
Definition extract_target (t : table) (col : string) : outcome (list F) :=
  match t with
  | Row d =>
    match assoc col d with
    | Some v => if is_na v then Ret [lit 0] else try* x := to_float float_of_string v in Ret [f32 x]
    | None => Ret [lit 0]
    end
  | Frame n cols =>
    match assoc col cols with
    | Some vs => match omapM (λ v, to_f32 (fill_na v)) vs with Ret xs => Ret xs | Raise _ => Raise SystemExit | OutOfFuel => OutOfFuel end
    | None => Ret (replicate n (lit 0))
    end
  end.

Definition target_columns : list string := ["reward"; "ttft_reward"; "tpot_reward"; "ttft"; "avg_tpot"; "e2e_latency"; "input_tokens"].

Definition raw_input_tokens (t : table) : outcome (option (list F)) :=
  if bool_decide ("input_tokens" ∈ columns t) then
    match t with
    | Row d => let v := dget d "input_tokens" VNone in try* x := to_f32 (if is_na v then VInt 0 else v) in Ret (Some [x])
    | Frame n cols =>
      try* xs := omapM (λ v, to_f32 (fill_na v)) (default [] (assoc "input_tokens" cols)) in
      if (n =? 0)%nat then Raise ValueError else Ret (Some xs)
    end
  else Ret None.

(** ** Encoding a table *)

Record processed := mkProcessed {
  p_pod_features : np3;
  p_kv_hit_ratios : np3;
  p_positional_encodings : np3;
  p_request_features : np2;
  p_interaction_features : np3;
  p_feature_timing : dict string;
  p_pod_ids : list string;
  p_actions : list Z;
  p_targets : dict (list F);
  p_input_tokens : list F;
  p_pod_features_list : list string;
  p_feature_indices_map : dict nat;
  p_numeric_request_features : list string;
  p_sample_weights : option (list F)
}.

(** The pod columns and the names of their features, from the cache for the same columns *)
Definition classify_columns (cols : list string) : M DataEncoder (list string) :=
  let* e := get in
  let recompute :=
    let pod_columns := List.filter is_pod_column cols in
    let names := feature_names pod_columns in
    modify (set_pod_features names) ;;
    modify (set_columns (cols, (pod_columns, names))) ;;
    ret pod_columns in
  match cached_pod_feature_columns e with
  | Some (key, (pod_columns, names)) =>
    if bool_decide (cols = key) then modify (set_pod_features names) ;; ret pod_columns else recompute
  | None => recompute
  end.

Definition remember_pod_ids (ids : list string) : M DataEncoder unit :=
  modify (set_pod_ids ids) ;;
  let* e := get in
  if bool_decide (fst <$> cached_pod_ids e = Some ids) then ret tt else modify (set_cached_ids (ids, ids)).

Definition sample_weights (t : table) : outcome (option (list F)) :=
  match t with
  | Row _ => Ret None
  | Frame _ cols =>
    match assoc "_sample_weight" cols with
    | Some vs => try* xs := omapM to_f32 vs in Ret (Some xs)
    | None => Ret None
    end
  end.

Definition prepare_for_encoding (t : table) (ids request_features_train : list string) (hp : enc_hyper) : M DataEncoder processed :=
  remember_pod_ids ids ;;
  let* raw := lift (raw_input_tokens t) in
  let* include := lift (match enc_include_gpu hp with Some b => Ret b | None => Raise KeyError end) in
  modify (set_request (if include : bool then length GPU_MODEL_TO_ENCODE else 0%nat) request_features_train) ;;
  let* pod_columns := classify_columns (columns t) in
  let* e := get in
  let feature_timing := (λ f, (f, if contains "last_second" f then "historical" else "current")) <$> pod_features e in
  let id_set := match cached_pod_ids e with Some (_, s) => s | None => ids end in
  let* pod_data := lift (extract_pod_columns t id_set pod_columns) in
  let* requests := lift (extract_request_features t request_features_train) in
  let* pods := process_pod_features hp pod_data (n_samples t) in
  let '(features, kv, indices) := pods in
  let actions := extract_actions t ids in
  let* targets := lift (omapM (λ col, try* xs := extract_target t col in Ret (col, xs)) target_columns) in
  let n_pods := length ids in
  let* weights := lift (sample_weights t) in
  let* e := get in
  ret (mkProcessed features kv (replicate (n_samples t) (replicate n_pods [lit 0])) requests
         ((λ r, replicate n_pods r) <$> requests) feature_timing (sorted_all_pod_ids e) actions targets
         (match raw with Some xs => xs | None => default [] (assoc "input_tokens" targets) end)
         (pod_features e) indices (numeric_request_features e) weights).

(** ** The tensors of a request *)

Record inference_tensors := mkTensors {
  it_pod_features : np3;
  it_kv_hit_ratios : np3;
  it_request_features : np2;
  it_rewards : list F;
  it_positional_encodings : np3;
  it_pod_features_with_staleness : np3;
  it_query : np3;
  it_key_value : np3;
  it_ttft_rewards : list F;
  it_tpot_rewards : list F;
  it_actions : list Z
}.

Definition target (p : processed) (col : string) : list F := default [] (assoc col (p_targets p)).

Definition tensors_of (p : processed) : inference_tensors :=
  mkTensors (p_pod_features p) (p_kv_hit_ratios p) (p_request_features p) (target p "reward") (p_positional_encodings p)
            (p_pod_features p) (p_pod_features p) (p_kv_hit_ratios p) (target p "ttft_reward") (target p "tpot_reward") (p_actions p).

(** The state is the encoder that is kept between requests, none before the first. *)
Definition encode_for_inference (t : table) (ids request_features_train : list string) (hp : enc_hyper) :
    M (option DataEncoder) inference_tensors :=
  let* p := zoom (default new_DataEncoder) (λ e _, Some e) (prepare_for_encoding t ids request_features_train hp) in
  ret (tensors_of p).

(** ** The data of a training round *)

Definition sampled (idxs : list nat) (p : processed) : processed :=
  mkProcessed (select idxs (p_pod_features p)) (select idxs (p_kv_hit_ratios p)) (select idxs (p_positional_encodings p))
    (select idxs (p_request_features p)) (select idxs (p_interaction_features p)) (p_feature_timing p) (p_pod_ids p)
    (select idxs (p_actions p)) ((λ e : string * list F, (e.1, select idxs e.2)) <$> p_targets p) (select idxs (p_input_tokens p))
    (p_pod_features_list p) (p_feature_indices_map p) (p_numeric_request_features p) (select idxs <$> p_sample_weights p).

(** [shape[2]] *)
Definition dim3 (a : np3) : nat := length (default [] (head (default [] (head a)))).

Record metadata := mkMetadata {
  md_dataset_size : nat;
  md_original_dataset_size : nat;
  md_sampling_applied : bool;
  md_num_pods : nat;
  md_pod_features_list : list string;
  md_numeric_request_features : list string;
  md_model_input_feature_names : list string;
  md_pod_ids : list string;
  md_feature_dimensions : dict nat;
  md_reward_statistics : F * F * F * F;
  md_action_distribution : list nat;
  md_historical_features : nat;
  md_current_features : nat
}.

Definition kv_feat_names (dim : nat) : list string :=
  if (dim =? 1)%nat then ["kv_hit_ratio"] else (λ i : nat, "kv_hit_ratio_" +:+ pretty i) <$> seq 0 dim.

Definition model_input_feature_names (p : processed) : list string :=
  p_pod_features_list p ++ kv_feat_names (dim3 (p_kv_hit_ratios p)) ++ p_numeric_request_features p.

(** The width of the input of the model, which the names should cover *)
Definition expected_dim (p : processed) : nat :=
  (dim3 (p_pod_features p) + dim3 (p_kv_hit_ratios p) + length (default [] (head (p_request_features p))))%nat.

(** [choice n k]: the sorted random sample of [k] of [n] positions *)
Definition save_processed_data `{!Numpy F} (choice : nat → nat → list nat) (max_samples : Z) (p : processed) : processed * metadata :=
  let n := length (p_actions p) in
  let sampling := max_samples <? Z.of_nat n in
  let saved := if sampling then sampled (choice n (Z.to_nat max_samples)) p else p in
  let rewards := target saved "reward" in
  (saved,
   mkMetadata (if sampling then Z.to_nat max_samples else n) n sampling (length (p_pod_ids p)) (p_pod_features_list p)
     (p_numeric_request_features p) (model_input_feature_names p) (p_pod_ids p)
     [("pod_features", dim3 (p_pod_features p)); ("pod_features_with_staleness", dim3 (p_pod_features p));
      ("kv_hit_ratios", dim3 (p_kv_hit_ratios p)); ("request_features", length (default [] (head (p_request_features p))));
      ("positional_encodings", dim3 (p_positional_encodings p))]
     (np_mean rewards, np_std rewards, np_min rewards, np_max rewards)
     ((λ i : nat, length (List.filter (Z.eqb (Z.of_nat i)) (p_actions saved))) <$> seq 0 (length (p_pod_ids p)))
     (length (List.filter (λ e : string * string, String.eqb e.2 "historical") (p_feature_timing p)))
     (length (List.filter (λ e : string * string, String.eqb e.2 "current") (p_feature_timing p)))).

(** More than 20 percent of a column of numbers is missing *)
Definition high_missing (n : nat) (vs : list (value F)) : bool :=
  forallb is_numeric vs && (n <? 5 * length (List.filter is_na vs))%nat.

Definition encode_for_train `{!Numpy F} (choice : nat → nat → list nat) (n : nat) (cols : dict (list (value F)))
    (ids request_features_train : list string) (hp : enc_hyper) : outcome (processed * metadata) :=
  try* first := match assoc "selected_pod" cols with
                | Some (v :: _) => Ret v | Some [] => Raise IndexError | None => Raise KeyError
                end in
  if match first with VStr s => bool_decide (s ∈ ids) | _ => false end then
    if existsb (high_missing n) cols.*2 then Raise AssertionError
    else
      try* p := (prepare_for_encoding (Frame n cols) ids request_features_train hp new_DataEncoder).1 in
      Ret (save_processed_data choice 10000000 p)
  else Raise AssertionError.

End encoding.

(** ** Compatible tensors *)

(** The shapes of the tensors of two data sets *)
Definition validate_tensor_compatibility (existing_data new_data : dict (list nat)) : bool :=
  forallb (λ k, bool_decide (k ∈ new_data.*1)) existing_data.*1 &&
  forallb (λ k, match assoc k existing_data, assoc k new_data with
                | Some es, Some ns =>
                  (length es =? length ns)%nat && ((length es <=? 1)%nat || bool_decide (tail es = tail ns))
                | _, _ => true
                end) existing_data.*1.

(** ** The specification: encoding without caches *)

Section spec.
Context {F : Type} {NF : Num F}.
Context (float_of_string : string → option F) (repr : value F → string) (f32 nan_to_num : F → F) (nan : F).

Abbreviation single_numeric := (single_numeric float_of_string f32 nan).
Abbreviation batch_pod := (batch_pod float_of_string f32 nan_to_num nan).
Abbreviation pods_data := (dict (dict (cell (F:=F)))).

Definition gpu_types_of (include : bool) : nat := if include then length GPU_MODEL_TO_ENCODE else 0%nat.

Definition gpu_spec (hp : enc_hyper) (types : nat) (ids : list string) (pod_data : pods_data) : outcome (dict Z) :=
  match types with
  | O => Ret []
  | S _ => try* parts := omapM (gpu_model_id hp types pod_data) ids in Ret (zip ids parts.*1)
  end.

Definition enc_config (hp : enc_hyper) (types : nat) : feature_config := config_of (sorted_set (enc_excluded hp)) types.

Definition single_spec (hp : enc_hyper) (types : nat) (ids : list string) (pod_data : pods_data) :
    outcome (list (list (list F)) * list (list (list F)) * dict nat) :=
  let config := enc_config hp types in
  try* gpus := gpu_spec hp types ids pod_data in
  try* numeric := omapM (single_numeric (pod_numeric config) pod_data) ids in
  try* onehots := omapM (gpu_part types gpus pod_data) ids in
  Ret ([zip_with (++) numeric.*1 onehots], [(λ kv, [kv]) <$> numeric.*2],
       match ids with [] => [] | _ => zip (pod_numeric config) (seq 0 (length (pod_numeric config))) end).

(** The arrays of a batch and the names of the features *)
Definition batch_arrays (config : feature_config) (n : nat) (ids : list string) (pods : list (list (list F) * list F)) :
    list (list (list F)) * list (list (list F)) * list string :=
  let numeric := (λ i, (λ p : list (list F) * list F, sample p.1 i) <$> pods) <$> seq 0 n in
  let '(numeric, kept_numeric) := filter_identity_features numeric (all_numeric config) in
  split_kv n (length ids) (concatenate numeric (replicate n pods.*2)) (kept_numeric ++ gpu_feature_names (gpu_onehot_dim config)).

Definition batch_spec (hp : enc_hyper) (types : nat) (ids : list string) (pod_data : pods_data) (n : nat) :
    outcome (list (list (list F)) * list (list (list F)) * list string) :=
  let config := enc_config hp types in
  try* gpus := gpu_spec hp types ids pod_data in
  try* pods := omapM (batch_pod config n gpus pod_data) ids in
  if (n =? 0)%nat || (length ids <? 2)%nat then Raise IndexError else Ret (batch_arrays config n ids pods).

(** Features, hit ratios, positions and names *)
Definition pods_spec (hp : enc_hyper) (types : nat) (ids : list string) (pod_data : pods_data) (n : nat) (names : list string) :
    outcome (list (list (list F)) * list (list (list F)) * dict nat * list string) :=
  match pod_data with
  | [] => Raise AssertionError
  | _ =>
    if (n =? 1)%nat then try* r := single_spec hp types ids pod_data in Ret (r, names)
    else try* r := batch_spec hp types ids pod_data n in Ret (r.1, [], r.2)
  end.

Definition encode_spec (t : table) (ids request_features_train : list string) (hp : enc_hyper) : outcome (processed (F:=F)) :=
  try* raw := raw_input_tokens float_of_string f32 nan t in
  try* include := match enc_include_gpu hp with Some b => Ret b | None => Raise KeyError end in
  let pod_columns := List.filter is_pod_column (columns t) in
  let names := feature_names pod_columns in
  try* pod_data := extract_pod_columns t ids pod_columns in
  try* requests := extract_request_features float_of_string f32 nan t request_features_train in
  try* pods := pods_spec hp (gpu_types_of include) ids pod_data (n_samples t) names in
  let '(features, kv, indices, kept) := pods in
  try* targets := omapM (λ col, try* xs := extract_target float_of_string f32 nan t col in Ret (col, xs)) target_columns in
  try* weights := sample_weights float_of_string f32 nan t in
  Ret (mkProcessed features kv (replicate (n_samples t) (replicate (length ids) [lit 0])) requests
         ((λ r, replicate (length ids) r) <$> requests)
         ((λ f, (f, if contains "last_second" f then "historical" else "current")) <$> names) ids
         (extract_actions repr t ids) targets
         (match raw with Some xs => xs | None => default [] (assoc "input_tokens" targets) end)
         kept indices request_features_train weights).

(** ** The caches are transparent *)

(** The GPU a part of the key stands for *)
Definition part_id (mapping : dict Z) (pod : string) (part : key_part) : option Z :=
  match part with KName s => assoc s GPU_MODEL_TO_ENCODE | _ => assoc pod mapping end.

(** The caches hold what would be computed again, the GPUs with a mapping of pods to
    models that agrees with [mapping]. *)
Record caches_ok (mapping : dict Z) (e : DataEncoder) : Prop := {
  co_ids key ids : cached_pod_ids e = Some (key, ids) → ids = key;
  co_columns key cols names : cached_pod_feature_columns e = Some (key, (cols, names)) →
    cols = List.filter is_pod_column key ∧ names = feature_names cols;
  co_config excluded types config : cached_feature_config e = Some ((excluded, types), config) → config = config_of excluded types;
  co_gpu ids parts gpus : cached_gpu_mapping e = Some ((ids, parts), gpus) →
    ∃ zs, gpus = zip ids zs ∧ length parts = length ids ∧ length zs = length ids ∧
      ∀ i pod part z, ids !! i = Some pod → parts !! i = Some part → zs !! i = Some z → part_id mapping pod part = Some z
}.

Lemma new_encoder_ok mapping : caches_ok mapping new_DataEncoder.
Proof. by split. Qed.

(** What the operations on the caches leave alone *)
Definition same_core (e e' : DataEncoder) : Prop :=
  sorted_all_pod_ids e' = sorted_all_pod_ids e ∧ pod_features e' = pod_features e ∧
  numeric_request_features e' = numeric_request_features e ∧ num_gpu_types e' = num_gpu_types e.

Lemma config_consistent excluded types :
  let c := config_of excluded types in
  length (all_numeric c) = n_numeric c ∧ total_feature_dim c = (n_numeric c + gpu_onehot_dim c)%nat.
Proof. done. Qed.

Lemma set_config_ok mapping e excluded types :
  caches_ok mapping e → caches_ok mapping (set_config (Some ((excluded, types), config_of excluded types)) e).
Proof. intros [H1 H2 H3 H4]. split; try done. simpl. by intros ??? [= <- <- <-]. Qed.

Lemma get_feature_config_runs mapping hp e :
  caches_ok mapping e →
  runs (get_feature_config hp) e (Ret (enc_config hp (num_gpu_types e))) (λ e', caches_ok mapping e' ∧ same_core e e').
Proof.
  intros Hok. unfold get_feature_config. apply runs_get.
  assert (runs (modify (set_config (Some ((sorted_set (enc_excluded hp), num_gpu_types e), config_of (sorted_set (enc_excluded hp)) (num_gpu_types e)))) ;;
                ret (config_of (sorted_set (enc_excluded hp)) (num_gpu_types e))) e
               (Ret (enc_config hp (num_gpu_types e))) (λ e', caches_ok mapping e' ∧ same_core e e')) as Hre.
  { apply runs_modify, runs_ret. split; [by apply set_config_ok|done]. }
  destruct (cached_feature_config e) as [[[excluded types] config]|] eqn:E; [|done].
  pose proof (co_config _ _ Hok _ _ _ E) as ->.
  case_bool_decide as Hkey; [|done]. injection Hkey as <- <-. rewrite bool_decide_true by apply config_consistent.
  by apply runs_ret.
Qed.

Lemma checked_config_runs mapping hp e consistent :
  caches_ok mapping e → consistent (enc_config hp (num_gpu_types e)) = true →
  runs (checked_config consistent hp) e (Ret (enc_config hp (num_gpu_types e))) (λ e', caches_ok mapping e' ∧ same_core e e').
Proof.
  intros Hok Hc. unfold checked_config.
  apply (runs_bind _ _ _ (Ret (enc_config hp (num_gpu_types e))) (λ c, Ret c) _ _ (get_feature_config_runs mapping hp e Hok)); [done|].
  intros a e' [= <-] H. rewrite Hc. by apply runs_ret.
Qed.

Lemma gpu_model_id_part hp types (pod_data : pods_data) pod i part :
  gpu_model_id hp types pod_data pod = Ret (i, part) → part_id (enc_pod_gpu_ids hp) pod part = Some i.
Proof.
  unfold gpu_model_id. intros H.
  assert (∀ found part', gpu_in_data pod_data pod = Ret (found, part') →
            match part' with KName s => found = assoc s GPU_MODEL_TO_ENCODE ∧ is_Some found | _ => found = None end) as Hin.
  { intros found part'. unfold gpu_in_data. destruct (assoc pod pod_data) as [fs|]; [|by intros [= <- <-]].
    destruct (assoc "GPU" fs) as [c|]; [|by intros [= <- <-]]. destruct (get_first_value c) as [v| |]; [|done..]. cbn [obind].
    destruct v; intros Hv; repeat case_match; simplify_eq; eauto. }
  destruct (gpu_in_data pod_data pod) as [[found part']| |]; [|done..]. specialize (Hin _ _ eq_refl). cbn [obind] in H.
  destruct part' as [s| |].
  - destruct Hin as [-> [z Hz]]. rewrite Hz in H. case_match; simplify_eq. done.
  - subst found. case_match; [|done]. case_match; simplify_eq. done.
  - subst found. case_match; [|done]. case_match; simplify_eq. done.
Qed.

Lemma key_part_eqb_eq a b : key_part_eqb a b = true → a = b.
Proof. destruct a, b; try done. simpl. intros ->%String.eqb_eq. done. Qed.

Lemma same_key_eq a b : same_key a b = true → a = b.
Proof.
  destruct a as [ids parts], b as [ids' parts']. unfold same_key. simpl. rewrite !andb_true_iff. intros [[H1 H2] H3].
  apply bool_decide_eq_true in H1 as ->. f_equal. apply Nat.eqb_eq in H2. revert parts' H2 H3.
  induction parts as [|p parts IH]; intros [|p' parts'] Hl; try done. simpl. rewrite andb_true_iff. intros [->%key_part_eqb_eq H].
  f_equal. apply IH; [by injection Hl|done].
Qed.

(** The identifiers of the pods are determined by the key. *)
Lemma gpu_parts_ok hp types (pod_data : pods_data) ids parts :
  omapM (gpu_model_id hp types pod_data) ids = Ret parts →
  length parts.*2 = length ids ∧ length parts.*1 = length ids ∧
  ∀ i pod part z, ids !! i = Some pod → parts.*2 !! i = Some part → parts.*1 !! i = Some z → part_id (enc_pod_gpu_ids hp) pod part = Some z.
Proof.
  intros H. pose proof (omapM_length _ _ _ H) as Hl. rewrite !length_fmap. split_and!; [done..|].
  intros i pod part z Hp. destruct (omapM_lookup _ _ _ _ _ H Hp) as ([z' part'] & Hr & Hf). rewrite !list_lookup_fmap, Hr.
  simpl. intros [= <-] [= <-]. by eapply gpu_model_id_part.
Qed.

Lemma set_gpu_ok mapping e ids parts zs :
  caches_ok mapping e → length parts = length ids → length zs = length ids →
  (∀ i pod part z, ids !! i = Some pod → parts !! i = Some part → zs !! i = Some z → part_id mapping pod part = Some z) →
  caches_ok mapping (set_gpu ((ids, parts), zip ids zs) e).
Proof. intros [H1 H2 H3 H4] Hp Hz Hid. split; try done. simpl. intros ??? [= <- <- <-]. by exists zs. Qed.

Lemma gpu_encoded_runs hp (pod_data : pods_data) e :
  caches_ok (enc_pod_gpu_ids hp) e →
  runs (gpu_encoded hp pod_data) e (gpu_spec hp (num_gpu_types e) (sorted_all_pod_ids e) pod_data)
       (λ e', caches_ok (enc_pod_gpu_ids hp) e' ∧ same_core e e').
Proof.
  intros Hok. unfold gpu_encoded, gpu_spec. apply runs_get. destruct (num_gpu_types e) as [|types] eqn:Et; [by apply runs_ret|].
  apply runs_lift; [done|]. intros parts Hparts. destruct (gpu_parts_ok _ _ _ _ _ Hparts) as (Hl2 & Hl1 & Hid).
  assert (runs (modify (set_gpu (sorted_all_pod_ids e, parts.*2, zip (sorted_all_pod_ids e) parts.*1)) ;;
                ret (zip (sorted_all_pod_ids e) parts.*1)) e (Ret (zip (sorted_all_pod_ids e) parts.*1))
               (λ e', caches_ok (enc_pod_gpu_ids hp) e' ∧ same_core e e')) as Hfresh.
  { apply runs_modify, runs_ret. split; [by apply set_gpu_ok|done]. }
  destruct (cached_gpu_mapping e) as [[[ids' parts'] gpus]|] eqn:E; [|done].
  destruct (same_key _ _) eqn:Hk; [|done]. apply same_key_eq in Hk. injection Hk as <- <-.
  destruct (co_gpu _ _ Hok _ _ _ E) as (zs & -> & _ & Hlz & Hz). assert (zs = parts.*1) as ->; [|by apply runs_ret].
  apply list_eq_same_length with (length (sorted_all_pod_ids e)); [done..|]. intros i z z' Hi Hz1 Hz2.
  destruct (lookup_lt_is_Some_2 (sorted_all_pod_ids e) i Hi) as [pod Hpod].
  destruct (lookup_lt_is_Some_2 parts.*2 i) as [part Hpart]; [lia|].
  pose proof (Hz i pod part z Hpod Hpart Hz1). pose proof (Hid i pod part z' Hpod Hpart Hz2). congruence.
Qed.

Abbreviation process_pod_features := (process_pod_features float_of_string f32 nan_to_num nan).
Abbreviation single_row_process_pod_features := (single_row_process_pod_features float_of_string f32 nan).
Abbreviation prepare_for_encoding := (prepare_for_encoding float_of_string repr f32 nan_to_num nan).

Lemma single_row_runs hp (pod_data : pods_data) e :
  caches_ok (enc_pod_gpu_ids hp) e →
  runs (single_row_process_pod_features hp pod_data) e (single_spec hp (num_gpu_types e) (sorted_all_pod_ids e) pod_data)
       (λ e', caches_ok (enc_pod_gpu_ids hp) e' ∧ same_core e e').
Proof.
  intros Hok. unfold single_row_process_pod_features, single_spec.
  apply (runs_bind _ _ _ (Ret (enc_config hp (num_gpu_types e)))
           (λ config, try* gpus := gpu_spec hp (num_gpu_types e) (sorted_all_pod_ids e) pod_data in _) _ _
           (checked_config_runs (enc_pod_gpu_ids hp) hp e _ Hok (Nat.eqb_refl _))); [done|].
  intros config e1 [= <-] [Hok1 (Hids & Hpf & Hreq & Hn)].
  pose proof (gpu_encoded_runs hp pod_data e1 Hok1) as Hg. rewrite Hids, Hn in Hg.
  apply (runs_bind _ _ _ _ _ _ _ Hg).
  { intros e2 [H1 (? & ? & ? & ?)]. split; [done|]. split_and!; congruence. }
  intros gpus e2 _ [Hok2 (Hids2 & Hpf2 & Hreq2 & Hn2)]. apply runs_get. rewrite Hids2, Hids.
  assert (same_core e e2) by (split_and!; congruence).
  apply runs_lift; [done|]. intros numeric _. apply runs_lift; [done|]. intros onehots _. by apply runs_ret.
Qed.

Lemma set_pod_features_ok mapping fs e : caches_ok mapping e → caches_ok mapping (set_pod_features fs e).
Proof. intros [H1 H2 H3 H4]. by split. Qed.

Lemma process_runs hp (pod_data : pods_data) n e :
  caches_ok (enc_pod_gpu_ids hp) e →
  let spec := pods_spec hp (num_gpu_types e) (sorted_all_pod_ids e) pod_data n (pod_features e) in
  runs (process_pod_features hp pod_data n) e (try* r := spec in Ret r.1)
       (λ e', caches_ok (enc_pod_gpu_ids hp) e' ∧ sorted_all_pod_ids e' = sorted_all_pod_ids e ∧
              numeric_request_features e' = numeric_request_features e ∧ ∀ r, spec = Ret r → pod_features e' = r.2).
Proof.
  intros Hok spec. unfold process_pod_features, pods_spec in *. destruct pod_data as [|pd0 pd]; [by apply runs_raise|].
  remember (pd0 :: pd) as pod_data eqn:Hpd. clear Hpd. destruct (n =? 1)%nat.
  { destruct (single_row_runs hp pod_data e Hok) as [H1 (H2 & H3 & H4 & H5 & _)]. split.
    - rewrite H1. unfold spec. by destruct (single_spec hp _ _ _).
    - split_and!; [done..|]. unfold spec. intros r Hr. destruct (single_spec hp _ _ _); [|done..]. by injection Hr as <-. }
  unfold batch_spec in spec.
  destruct (runs_elim _ _ _ _ (checked_config_runs (enc_pod_gpu_ids hp) hp e (λ c, length (all_numeric c) =? n_numeric c)%nat Hok (Nat.eqb_refl _)))
    as (e1 & Hc & Hok1 & Hids & Hpf & Hreq & Hn). apply (runs_seq _ _ _ _ _ _ _ Hc).
  destruct (runs_elim _ _ _ _ (gpu_encoded_runs hp pod_data e1 Hok1)) as (e2 & Hg & Hok2 & Hids2 & Hpf2 & Hreq2 & Hn2).
  rewrite Hids, Hn in Hg. apply (runs_seq _ _ _ _ _ _ _ Hg). unfold spec.
  destruct (gpu_spec hp _ _ pod_data) as [gpus| |]; cbn [obind]; [|split_and!; (done || congruence)..].
  apply runs_get. rewrite Hids2, Hids. eapply runs_seq; [done|].
  destruct (omapM _ (sorted_all_pod_ids e)) as [pods| |]; cbn [obind]; [|split_and!; (done || congruence)..].
  unfold batch_arrays. rewrite Hn2, Hn. change (gpu_onehot_dim (enc_config hp (num_gpu_types e))) with (num_gpu_types e).
  destruct (filter_identity_features _ _) as [numeric kept_numeric].
  destruct (split_kv n _ _ _) as [[features kv] kept]. apply runs_modify.
  destruct (_ || _); cbn [obind].
  - apply runs_raise. split_and!; [by apply set_pod_features_ok|simpl; congruence..|done].
  - apply runs_ret. split_and!; [by apply set_pod_features_ok|simpl; congruence..|]. by intros r [= <-].
Qed.

Lemma remember_pod_ids_ok mapping ids e :
  caches_ok mapping e →
  ∃ e', remember_pod_ids ids e = (Ret tt, e') ∧ caches_ok mapping e' ∧ sorted_all_pod_ids e' = ids ∧ ∃ key, cached_pod_ids e' = Some (key, ids).
Proof.
  intros [H1 H2 H3 H4]. unfold remember_pod_ids. rewrite bind_modify, bind_get. simpl. case_bool_decide as Hk.
  - eexists. split; [done|]. split; [by split|]. split; [done|]. simpl. destruct (cached_pod_ids e) as [[key ids']|] eqn:E; [|done].
    injection Hk as ->. pose proof (H1 _ _ eq_refl) as ->. by exists ids.
  - eexists. split; [done|]. split; [split; try done; by intros ?? [= <- <-]|]. split; [done|]. by exists ids.
Qed.

Lemma classify_columns_ok mapping cols e :
  caches_ok mapping e →
  ∃ e', classify_columns cols e = (Ret (List.filter is_pod_column cols), e') ∧ caches_ok mapping e' ∧
    sorted_all_pod_ids e' = sorted_all_pod_ids e ∧ numeric_request_features e' = numeric_request_features e ∧
    num_gpu_types e' = num_gpu_types e ∧ cached_pod_ids e' = cached_pod_ids e ∧
    pod_features e' = feature_names (List.filter is_pod_column cols).
Proof.
  intros Hok. pose proof Hok as [H1 H2 H3 H4]. unfold classify_columns. rewrite bind_get.
  assert (caches_ok mapping (set_columns (cols, (List.filter is_pod_column cols, feature_names (List.filter is_pod_column cols)))
            (set_pod_features (feature_names (List.filter is_pod_column cols)) e))) by (split; try done; by intros ??? [= <- <- <-]).
  destruct (cached_pod_feature_columns e) as [[key [pc names]]|] eqn:E; [|by eexists].
  case_bool_decide as Hk; [|by eexists]. subst key. destruct (H2 _ _ _ eq_refl) as [-> ->].
  eexists. split; [done|]. split; [by apply set_pod_features_ok|done].
Qed.

Lemma prepare_runs t ids request_features_train hp e :
  caches_ok (enc_pod_gpu_ids hp) e →
  runs (prepare_for_encoding t ids request_features_train hp) e (encode_spec t ids request_features_train hp)
       (caches_ok (enc_pod_gpu_ids hp)).
Proof.
  intros Hok. unfold prepare_for_encoding, encode_spec.
  destruct (remember_pod_ids_ok _ ids e Hok) as (e1 & H1 & Hok1 & Hids1 & key & Hkey). apply (runs_seq _ _ _ _ _ _ _ H1).
  apply runs_lift; [done|]. intros raw _. apply runs_lift; [done|]. intros include _. apply runs_modify.
  assert (caches_ok (enc_pod_gpu_ids hp) (set_request (gpu_types_of include) request_features_train e1)) as Hok2
    by (by destruct Hok1; split).
  destruct (classify_columns_ok _ (columns t) _ Hok2) as (e3 & H3 & Hok3 & Hids3 & Hreq3 & Hn3 & Hk3 & Hpf3).
  apply (runs_seq _ _ _ _ _ _ _ H3). apply runs_get. rewrite Hpf3, Hk3. cbn [set_request cached_pod_ids]. rewrite Hkey.
  apply runs_lift; [done|]. intros pod_data _. apply runs_lift; [done|]. intros requests _.
  pose proof (process_runs hp pod_data (n_samples t) e3 Hok3) as Hp. cbv zeta in Hp. rewrite Hn3, Hids3, Hpf3, Hreq3 in Hp.
  cbn [set_request num_gpu_types sorted_all_pod_ids numeric_request_features] in Hp. rewrite Hids1 in Hp.
  destruct (runs_elim _ _ _ _ Hp) as (e4 & H4 & Hok4 & Hids4 & Hreq4 & Hpf4). apply (runs_seq _ _ _ _ _ _ _ H4).
  destruct (pods_spec _ _ _ _ _ _) as [[[[features kv] indices] kept]| |]; cbn [obind]; [|done..].
  apply runs_lift; [done|]. intros targets _. apply runs_lift; [done|]. intros weights _. apply runs_get.
  rewrite Hids4, Hreq4, (Hpf4 _ eq_refl). by apply runs_ret.
Qed.

(** The later mapping of pods to GPUs keeps what the earlier has. *)
Definition gpu_ids_kept (hp hp' : enc_hyper) : Prop :=
  ∀ pod z, assoc pod (enc_pod_gpu_ids hp) = Some z → assoc pod (enc_pod_gpu_ids hp') = Some z.

Lemma caches_ok_kept hp hp' e : gpu_ids_kept hp hp' → caches_ok (enc_pod_gpu_ids hp) e → caches_ok (enc_pod_gpu_ids hp') e.
Proof.
  intros Hk [H1 H2 H3 H4]. split; try done. intros ids parts gpus E. destruct (H4 _ _ _ E) as (zs & -> & Hp & Hz & Hid).
  exists zs. split_and!; try done. intros i pod part z Hi Hpart Hzi. specialize (Hid i pod part z Hi Hpart Hzi).
  destruct part; simpl in *; auto.
Qed.

Definition encode_call : Type := table (F:=F) * list string * list string * enc_hyper.

Abbreviation encode_for_inference := (encode_for_inference float_of_string repr f32 nan_to_num nan).

(** The encoder after some requests, whether they were encoded or failed *)
Definition after_calls (cs : list encode_call) : option DataEncoder :=
  foldl (λ g (c : encode_call), let '(t, ids, req, hp) := c in (encode_for_inference t ids req hp g).2) None cs.

Lemma encode_for_inference_runs t ids req hp g :
  caches_ok (enc_pod_gpu_ids hp) (default new_DataEncoder g) →
  runs (encode_for_inference t ids req hp) g (try* p := encode_spec t ids req hp in Ret (tensors_of p))
       (λ g', caches_ok (enc_pod_gpu_ids hp) (default new_DataEncoder g')).
Proof.
  intros Hok. unfold encode_for_inference.
  apply (runs_bind _ _ _ _ _ (λ g', caches_ok (enc_pod_gpu_ids hp) (default new_DataEncoder g'))); [|done|].
  - destruct (prepare_runs t ids req hp _ Hok) as [H1 H2]. unfold runs, zoom. by destruct (prepare_for_encoding t ids req hp _).
  - intros p g' _ H. by apply runs_ret.
Qed.

Lemma after_calls_ok cs hp :
  StronglySorted gpu_ids_kept (cs.*2 ++ [hp]) → caches_ok (enc_pod_gpu_ids hp) (default new_DataEncoder (after_calls cs)).
Proof.
  unfold after_calls. assert (∀ hp', hp' ∈ cs.*2 ++ [hp] → caches_ok (enc_pod_gpu_ids hp') (default new_DataEncoder None)) as H0
    by (intros; apply new_encoder_ok). revert H0. generalize (None : option DataEncoder).
  induction cs as [|[[[t ids] req] hp1] cs IH]; intros g Hg Hs; simpl in *.
  - apply Hg. by left.
  - inversion_clear Hs as [|?? Hs' Hf]. apply IH; [|done]. intros hp' Hhp'. apply (caches_ok_kept hp1).
    + rewrite Forall_forall in Hf. by apply Hf.
    + apply encode_for_inference_runs, Hg. by left.
Qed.

(** The encoder that is kept between requests implements encoding without caches: after
    any requests, also failed ones, on clusters and with features that change between
    them, a request has exactly the tensors (or the error) a fresh computation gives,
    provided the mapping of pods to GPUs only grows, as the registry's does. *)
Theorem cached_encoder_refines cs t ids request_features_train hp :
  StronglySorted gpu_ids_kept (cs.*2 ++ [hp]) →
  (encode_for_inference t ids request_features_train hp (after_calls cs)).1 =
    (try* p := encode_spec t ids request_features_train hp in Ret (tensors_of p)).
Proof. intros Hs. by apply encode_for_inference_runs, after_calls_ok. Qed.

End spec.

(** ** Lemmas: selections *)

Lemma select_range {A} (a b c : list A) : select (seq (length a) (length b)) (a ++ b ++ c) = b.
Proof.
  revert a. induction b as [|x b IH]; intros a; [done|]. unfold select. simpl.
  rewrite list_lookup_middle by done. f_equal. replace (a ++ x :: b ++ c) with ((a ++ [x]) ++ b ++ c) by (by rewrite <-app_assoc).
  replace (S (length a)) with (length (a ++ [x])) by (rewrite length_app; simpl; lia). apply IH.
Qed.

Lemma select_all {A} (l : list A) : select (seq 0 (length l)) l = l.
Proof. pose proof (select_range [] l []) as H. by rewrite app_nil_r in H. Qed.

(** All positions but one *)
Lemma others_split (k m : nat) :
  List.filter (λ i, negb (i =? k)%nat) (seq 0 (k + S m)) = seq 0 k ++ seq (S k) m.
Proof.
  rewrite seq_app, List.filter_app. simpl. rewrite Nat.eqb_refl. simpl.
  f_equal; apply List.forallb_filter_id, forallb_forall; intros i Hi%in_seq; apply negb_true_iff, Nat.eqb_neq; lia.
Qed.

Lemma select_others {A} (a b : list A) x k m :
  length a = k → length b = m → select (List.filter (λ i, negb (i =? k)%nat) (seq 0 (k + S m))) (a ++ x :: b) = a ++ b.
Proof.
  intros <- <-. rewrite others_split. unfold select. rewrite omap_app. f_equal.
  - apply (select_range [] a (x :: b)).
  - pose proof (select_range (a ++ [x]) b []) as H. rewrite app_nil_r, <-app_assoc, length_app, Nat.add_comm in H. exact H.
Qed.

Lemma positions_all {A} (P : A → bool) l : Forall (λ x, P x = true) l → positions P l = seq 0 (length l).
Proof.
  intros H. unfold positions. rewrite List.forallb_filter_id.
  - apply fst_zip. by rewrite length_seq.
  - apply forallb_forall. intros [i x] Hin. rewrite Forall_forall in H. apply H.
    by apply list_elem_of_In, elem_of_zip_r in Hin.
Qed.

Lemma index_of_split x (a b : list string) : x ∉ a → index_of x (a ++ x :: b) = Some (length a).
Proof.
  induction a as [|y a IH]; intros Hx; simpl; [by rewrite String.eqb_refl|].
  apply not_elem_of_cons in Hx as [Hy Hx]. rewrite (proj2 (String.eqb_neq x y) Hy). by rewrite IH.
Qed.

(** ** Lemmas: the arrays of a batch *)

Section arrays.
Context {F : Type} {NF : Num F}.

(** An array given by its entries *)
Definition tabulate3 (n : nat) (ids : list string) (row : nat → string → list F) : list (list (list F)) :=
  (λ i, row i <$> ids) <$> seq 0 n.

Lemma tabulate3_ext n ids row row' : (∀ i pod, pod ∈ ids → row i pod = row' i pod) → tabulate3 n ids row = tabulate3 n ids row'.
Proof.
  intros H. apply list_fmap_ext. intros _ i _. apply list_fmap_ext. intros j pod Hj. apply H. by eapply list_elem_of_lookup_2.
Qed.

Lemma last_axis_tabulate f n ids row : last_axis f (tabulate3 n ids row) = tabulate3 n ids (λ i pod, f (row i pod)).
Proof.
  unfold last_axis, tabulate3. rewrite <-list_fmap_compose. apply list_fmap_ext. intros _ i _. simpl.
  by rewrite <-list_fmap_compose.
Qed.

Lemma concatenate_tabulate n ids row (g : string → list F) :
  concatenate (tabulate3 n ids row) (replicate n (g <$> ids)) = tabulate3 n ids (λ i pod, row i pod ++ g pod).
Proof.
  unfold concatenate, tabulate3.
  assert (replicate n (g <$> ids) = (λ _ : nat, g <$> ids) <$> seq 0 n) as ->.
  { symmetry. erewrite const_fmap by done. by rewrite length_seq. }
  rewrite zip_with_fmap_l, zip_with_fmap_r, zip_with_diag. apply list_fmap_ext. intros _ i _.
  by rewrite zip_with_fmap_l, zip_with_fmap_r, zip_with_diag.
Qed.

Lemma filter_identity_all (a : list (list (list F))) names n ids row :
  Forall (λ f, f ∈ CURRENT_STATE_FEATURES) names → a = tabulate3 n ids row →
  (∀ i pod, pod ∈ ids → length (row i pod) = length names) → filter_identity_features a names = (a, names).
Proof.
  intros Hn -> Hrow. unfold filter_identity_features. rewrite positions_all.
  2: { eapply Forall_impl; [exact Hn|]. intros f. apply bool_decide_eq_true. }
  destruct (seq 0 (length names)) as [|k ks] eqn:E; [done|]. rewrite <-E, select_all, last_axis_tabulate. f_equal.
  apply tabulate3_ext. intros i pod Hpod. by rewrite <-(Hrow i pod Hpod), select_all.
Qed.

(** The numeric features that are not excluded, around the hit ratio *)
Lemma config_split excluded types :
  "kv_hit_ratio" ∉ excluded →
  ∃ a b, all_numeric (config_of excluded types) = a ++ "kv_hit_ratio" :: b ∧ pod_numeric (config_of excluded types) = a ++ b ∧
         "kv_hit_ratio" ∉ a ++ b.
Proof.
  intros Hkv. unfold config_of. cbn [all_numeric pod_numeric].
  change base_features_list with (take 9 base_features_list ++ "kv_hit_ratio" :: ["kv_hit_ratio_fresh"]).
  set (P := λ f, bool_decide (f ∉ excluded)). rewrite List.filter_app.
  assert (List.filter P ("kv_hit_ratio" :: ["kv_hit_ratio_fresh"]) = "kv_hit_ratio" :: List.filter P ["kv_hit_ratio_fresh"]) as ->.
  { cbn [List.filter]. unfold P at 1. by rewrite bool_decide_true. }
  set (a := List.filter P (take 9 _)). set (b := List.filter P ["kv_hit_ratio_fresh"]).
  assert (Forall (λ f, f ≠ "kv_hit_ratio") a) as Ha.
  { apply Forall_forall. intros f [_ Hf]%elem_of_filter_b. revert f Hf. apply Forall_forall. by_decision. }
  assert (Forall (λ f, f ≠ "kv_hit_ratio") b) as Hb.
  { apply Forall_forall. intros f [_ Hf]%elem_of_filter_b. revert f Hf. apply Forall_forall. by_decision. }
  assert (∀ l, Forall (λ f, f ≠ "kv_hit_ratio") l → List.filter (λ f, negb (String.eqb f "kv_hit_ratio")) l = l) as Hid.
  { intros l Hl. apply List.forallb_filter_id, forallb_forall. intros f Hf%list_elem_of_In. rewrite Forall_forall in Hl.
    apply negb_true_iff, String.eqb_neq. by apply Hl. }
  exists a, b. split; [done|]. split.
  - rewrite List.filter_app, (Hid a Ha). f_equal. simpl. apply Hid, Hb.
  - rewrite elem_of_app. rewrite Forall_forall in Ha, Hb. intros [H|H]; [by apply (Ha _ H)|by apply (Hb _ H)].
Qed.

Lemma all_numeric_current excluded types : Forall (λ f, f ∈ CURRENT_STATE_FEATURES) (all_numeric (config_of excluded types)).
Proof.
  apply Forall_forall. intros f [_ Hf]%elem_of_filter_b. revert f Hf. apply Forall_forall. by_decision.
Qed.

(** The arrays of a batch, entry by entry. *)
Lemma batch_arrays_eq excluded types n ids (val : string → string → nat → F) (g : string → list F) :
  "kv_hit_ratio" ∉ excluded → (∀ pod, pod ∈ ids → length (g pod) = types) →
  let config := config_of excluded types in
  pod_numeric config ≠ [] ∨ types ≠ 0%nat →
  batch_arrays config n ids ((λ pod, ((λ f, val pod f <$> seq 0 n) <$> all_numeric config, g pod)) <$> ids) =
    (tabulate3 n ids (λ i pod, ((λ f, val pod f i) <$> pod_numeric config) ++ g pod),
     tabulate3 n ids (λ i pod, [val pod "kv_hit_ratio" i]),
     pod_numeric config ++ gpu_feature_names types).
Proof.
  intros Hkv Hg config Hsome. destruct (config_split excluded types Hkv) as (a & b & Hall & Hpod & Hnot). fold config in Hall, Hpod.
  unfold batch_arrays.
  set (numeric := (λ i, _ <$> _) <$> seq 0 n).
  assert (numeric = tabulate3 n ids (λ i pod, (λ f, val pod f i) <$> all_numeric config)) as Hnum.
  { unfold numeric, tabulate3. apply list_fmap_ext. intros k i Hk. apply lookup_seq in Hk as [-> Hk].
    rewrite <-list_fmap_compose. apply list_fmap_ext. intros _ pod _. simpl. unfold sample. rewrite <-list_fmap_compose.
    apply list_fmap_ext. intros _ f _. simpl. rewrite list_lookup_fmap, lookup_seq_lt by lia. done. }
  rewrite (filter_identity_all numeric (all_numeric config) n ids _ (all_numeric_current _ _) Hnum) by (intros; apply length_fmap).
  rewrite <-list_fmap_compose. change (snd ∘ _) with g. rewrite Hnum, concatenate_tabulate.
  unfold split_kv. rewrite Hall, <-app_assoc. cbn [app].
  assert ("kv_hit_ratio" ∉ a) as Hna by (intros H; apply Hnot, elem_of_app; by left).
  rewrite (index_of_split _ _ _ Hna), length_app, !last_axis_tabulate. cbn [length].
  set (m := length (b ++ gpu_feature_names (gpu_onehot_dim config))).
  assert (∀ i pod, pod ∈ ids → length (((λ f, val pod f i) <$> b) ++ g pod) = m) as Hlen.
  { intros i pod Hp. unfold m, gpu_feature_names. by rewrite !length_app, !length_fmap, length_seq, Hg. }
  assert (∀ i pod, ((λ f, val pod f i) <$> a ++ "kv_hit_ratio" :: b) ++ g pod =
            ((λ f, val pod f i) <$> a) ++ val pod "kv_hit_ratio" i :: ((λ f, val pod f i) <$> b) ++ g pod) as Hrow.
  { intros i pod. by rewrite fmap_app, fmap_cons, <-app_assoc. }
  destruct (List.filter (λ i, negb (i =? length a)%nat) _) as [|o os] eqn:Eo.
  { exfalso. apply (f_equal length) in Eo. rewrite others_split, length_app, !length_seq in Eo. unfold m in Eo.
    rewrite length_app in Eo. unfold gpu_feature_names in Eo. rewrite length_fmap, length_seq in Eo. simpl in Eo.
    rewrite Hpod in Hsome. destruct a, b; simpl in *; try lia. destruct Hsome; [done|lia]. }
  rewrite <-Eo. f_equal; [f_equal|].
  - apply tabulate3_ext. intros i pod Hp. rewrite Hrow, select_others by (rewrite ?length_fmap; auto). rewrite Hpod, fmap_app. by rewrite <-app_assoc.
  - apply tabulate3_ext. intros i pod Hp. rewrite Hrow. unfold select. simpl. by rewrite list_lookup_middle by (by rewrite length_fmap).
  - rewrite select_others by done. by rewrite Hpod, <-app_assoc.
Qed.

End arrays.

(** ** Lemmas: the columns of the pods *)

Definition dict_map {A B} (f : A → B) (d : dict A) : dict B := (λ e : string * A, (e.1, f e.2)) <$> d.

Lemma assoc_dict_map {A B} (f : A → B) (d : dict A) k : assoc k (dict_map f d) = f <$> assoc k d.
Proof. apply assoc_fmap_values. Qed.

Lemma assoc_set_dict_map {A B} (f : A → B) k v (d : dict A) : assoc_set k (f v) (dict_map f d) = dict_map f (assoc_set k v d).
Proof. induction d as [|[k' w] d IH]; csimpl; [done|]. case_decide; csimpl; [done|]. f_equal. exact IH. Qed.

Lemma dict_map_keys {A B} (f : A → B) (d : dict A) : (dict_map f d).*1 = d.*1.
Proof. unfold dict_map. by rewrite <-list_fmap_compose. Qed.

Section columns.
Context {F : Type}.
Implicit Types (cols : dict (list (value F))).

Abbreviation pods_data := (dict (dict (cell (F:=F)))).

(** A row of a frame *)
Definition row_at (i : nat) (cols : dict (list (value F))) : dict (value F) := dict_map (λ vs, default VNone (vs !! i)) cols.

Definition cell_at (i : nat) (c : cell (F:=F)) : cell := match c with Column vs => Scalar (default VNone (vs !! i)) | c => c end.

Definition data_at (i : nat) (pod_data : pods_data) : pods_data :=
  dict_map (dict_map (cell_at i)) pod_data.

Lemma data_at_lookup i (pod_data : pods_data) pod :
  assoc pod (data_at i pod_data) = dict_map (cell_at i) <$> assoc pod pod_data.
Proof. apply assoc_dict_map. Qed.

(** The pods of a row are those of the frame, with the values of the row. *)
Lemma extract_loop_row i n cols ids cs (acc pod_data : pods_data) :
  n ≠ 1%nat → extract_loop (Frame n cols) ids cs acc = Ret pod_data →
  extract_loop (Row (row_at i cols)) ids cs (data_at i acc) = Ret (data_at i pod_data).
Proof.
  intros Hn. revert acc. induction cs as [|col cs IH]; intros acc; [by intros [= <-]|]. cbn [extract_loop].
  destruct (if is_pod_column col then split_dash col else None) as [[pod f]|]; [|apply IH].
  destruct (bool_decide (pod ∈ ids)); [|done]. unfold cell_of, row_at at 1. rewrite assoc_dict_map.
  destruct (assoc col cols) as [vs|]; [|done]. rewrite (proj2 (Nat.eqb_neq n 1) Hn). cbn [obind fmap option_fmap option_map].
  intros H. apply IH in H. rewrite <-H. f_equal. rewrite data_at_lookup. unfold data_at.
  rewrite <-(assoc_set_dict_map (dict_map (cell_at i))), <-(assoc_set_dict_map (cell_at i)). f_equal. f_equal.
  by destruct (assoc pod acc).
Qed.

(** Every pod of the data is one of the cluster, with columns of the frame. *)
Definition data_of (n : nat) cols (ids : list string) (pod_data : pods_data) : Prop :=
  ∀ pod fs f c, assoc pod pod_data = Some fs → assoc f fs = Some c →
    ∃ col vs, is_pod_column col = true ∧ split_dash col = Some (pod, f) ∧ assoc col cols = Some vs ∧ c = Column vs.

Lemma extract_loop_data n cols ids cs (acc pod_data : pods_data) :
  n ≠ 1%nat → data_of n cols ids acc → extract_loop (Frame n cols) ids cs acc = Ret pod_data → data_of n cols ids pod_data.
Proof.
  intros Hn. revert acc. induction cs as [|col cs IH]; intros acc Hacc; [by intros [= <-]|]. cbn [extract_loop].
  destruct (is_pod_column col) eqn:Hp; [|by apply IH]. destruct (split_dash col) as [[pod f]|] eqn:Hs; [|by apply IH].
  destruct (bool_decide (pod ∈ ids)); [|done]. unfold cell_of. destruct (assoc col cols) as [vs|] eqn:Hc; [|done].
  rewrite (proj2 (Nat.eqb_neq n 1) Hn). cbn [obind]. apply IH. intros pod' fs f' c Hpod Hf.
  destruct (decide (pod' = pod)) as [->|]; [|rewrite assoc_set_ne in Hpod by done; by eapply Hacc].
  rewrite assoc_set_eq in Hpod. injection Hpod as <-. destruct (decide (f' = f)) as [->|].
  - rewrite assoc_set_eq in Hf. injection Hf as <-. by exists col, vs.
  - rewrite assoc_set_ne in Hf by done. destruct (assoc pod acc) as [fs|] eqn:E; [|done]. by eapply Hacc.
Qed.

(** The extraction succeeds when all pods of the columns are known. *)
Lemma extract_loop_total n cols ids cs (acc : pods_data) :
  (∀ col, col ∈ cs → ∃ vs, assoc col cols = Some vs ∧ (n = 1%nat → vs ≠ [])) →
  (∀ col pod f, col ∈ cs → is_pod_column col = true → split_dash col = Some (pod, f) → pod ∈ ids) →
  ∃ pod_data, extract_loop (Frame n cols) ids cs acc = Ret pod_data ∧ ∀ pod, is_Some (assoc pod acc) → is_Some (assoc pod pod_data).
Proof.
  revert acc. induction cs as [|col cs IH]; intros acc Hin Hids; [by exists acc|]. cbn [extract_loop].
  assert (∀ acc', ∃ pod_data, extract_loop (Frame n cols) ids cs acc' = Ret pod_data ∧ ∀ pod, is_Some (assoc pod acc') → is_Some (assoc pod pod_data)) as IH'.
  { intros acc'. apply IH; [intros c Hc; apply Hin; by right|]. intros c pod f Hc. apply Hids. by right. }
  destruct (is_pod_column col) eqn:Hp; [|apply IH']. destruct (split_dash col) as [[pod f]|] eqn:Hs; [|apply IH'].
  rewrite bool_decide_true by (by apply (Hids col pod f); [left|..]). unfold cell_of.
  destruct (Hin col) as (vs & -> & Hv); [left|].
  assert (∃ c, (if (n =? 1)%nat then match vs with v :: _ => Ret (Scalar v) | [] => Raise IndexError end else Ret (Column vs)) = Ret c) as [c ->].
  { destruct (Nat.eqb_spec n 1); [|by eexists]. destruct vs; [by destruct Hv|by eexists]. }
  cbn [obind]. destruct (IH' (assoc_set pod (assoc_set f c (default [] (assoc pod acc))) acc)) as (pd & -> & Hk).
  exists pd. split; [done|]. intros p Hp'. apply Hk. destruct (decide (p = pod)) as [->|]; [by rewrite assoc_set_eq|by rewrite assoc_set_ne].
Qed.

Lemma extract_loop_found t ids cs (acc pod_data : pods_data) pod :
  extract_loop t ids cs acc = Ret pod_data →
  is_Some (assoc pod acc) ∨ (∃ col f, col ∈ cs ∧ is_pod_column col = true ∧ split_dash col = Some (pod, f)) → is_Some (assoc pod pod_data).
Proof.
  revert acc. induction cs as [|col cs IH]; intros acc; cbn [extract_loop].
  { intros [= <-] [H|(? & ? & H%not_elem_of_nil & _)]; done. }
  intros H Hpod. destruct (if is_pod_column col then split_dash col else None) as [[pod' f]|] eqn:Es.
  - destruct (bool_decide (pod' ∈ ids)); [|done]. destruct (cell_of t col) as [c| |]; [|done..]. cbn [obind] in H.
    apply (IH _ H). destruct (decide (pod = pod')) as [->|Hne]; [left; by rewrite assoc_set_eq|]. rewrite assoc_set_ne by done.
    destruct Hpod as [Hpod|(col' & f' & [->|Hin]%elem_of_cons & Hp & Hs)]; [by left| |right; eauto].
    rewrite Hp, Hs in Es. injection Es as <- <-. done.
  - apply (IH _ H). destruct Hpod as [Hpod|(col' & f' & [->|Hin]%elem_of_cons & Hp & Hs)]; [by left| |right; eauto].
    by rewrite Hp, Hs in Es.
Qed.

(** The id of a pod: it begins as the columns of pods do and has no dash. *)
Definition pod_id_ok (pod : string) : Prop := is_pod_column pod = true ∧ no_dash pod = true.

Lemma split_dash_key pod f : no_dash pod = true → split_dash (pod_key pod f) = Some (pod, f).
Proof.
  unfold pod_key. induction pod as [|c pod IH]; [done|]. cbn [no_dash]. rewrite andb_true_iff. intros [Hc Hp].
  rewrite append_cons. cbn [split_dash]. apply negb_true_iff in Hc. unfold dash. rewrite Hc. by rewrite IH.
Qed.

Lemma split_dash_inv col pod f : split_dash col = Some (pod, f) → col = pod_key pod f.
Proof.
  unfold pod_key. revert pod. induction col as [|c col IH]; intros pod; [done|]. cbn [split_dash].
  destruct (Ascii.eqb_spec c dash) as [->|]; [by intros [= <- <-]|].
  destruct (split_dash col) as [[a b]|]; [|done]. intros [= <- <-]. rewrite append_cons. by rewrite (IH a eq_refl).
Qed.

Lemma prefix_of_append p a b : String.prefix p a = true → String.prefix p (a +:+ b) = true.
Proof.
  revert a. induction p as [|c p IH]; intros a; [by destruct (a +:+ b)|]. destruct a as [|c' a]; [done|]. rewrite append_cons. simpl.
  destruct (ascii_dec c c'); [|done]. apply IH.
Qed.

Lemma pod_column_key pod f : pod_id_ok pod → is_pod_column (pod_key pod f) = true.
Proof. intros [H _]. by apply prefix_of_append. Qed.

(** What the data has for a feature of a pod is what its column has. *)
Lemma extract_loop_lookup t ids cs (acc pod_data : pods_data) pod f :
  pod_id_ok pod → extract_loop t ids cs acc = Ret pod_data →
  assoc f (default [] (assoc pod pod_data)) =
    if decide (pod_key pod f ∈ cs) then match cell_of t (pod_key pod f) with Ret c => Some c | _ => None end
    else assoc f (default [] (assoc pod acc)).
Proof.
  intros Hok. revert acc. induction cs as [|col cs IH]; intros acc; cbn [extract_loop]; [by intros [= <-]|]. intros H.
  assert (∀ acc', extract_loop t ids cs acc' = Ret pod_data → col ≠ pod_key pod f →
            assoc f (default [] (assoc pod acc')) = assoc f (default [] (assoc pod acc)) →
            assoc f (default [] (assoc pod pod_data)) =
              if decide (pod_key pod f ∈ col :: cs) then match cell_of t (pod_key pod f) with Ret c => Some c | _ => None end
              else assoc f (default [] (assoc pod acc))) as Hskip.
  { intros acc' H' Hne Hacc. rewrite (IH acc' H'), Hacc. by repeat case_decide; set_solver. }
  destruct (if is_pod_column col then split_dash col else None) as [[pod' f']|] eqn:Es.
  - destruct (bool_decide (pod' ∈ ids)); [|done]. destruct (cell_of t col) as [c| |] eqn:Ec; [|done..]. cbn [obind] in H.
    destruct (is_pod_column col); [|done]. destruct (decide (col = pod_key pod f)) as [->|Hne].
    + rewrite (split_dash_key _ _ (proj2 Hok)) in Es. injection Es as <- <-. rewrite (IH _ H), assoc_set_eq. simpl. rewrite assoc_set_eq.
      rewrite (decide_True (P := pod_key pod f ∈ _ :: cs)) by left. rewrite Ec. by destruct (decide _).
    + apply (Hskip _ H Hne). destruct (decide (pod' = pod)) as [->|]; [|by rewrite assoc_set_ne]. rewrite assoc_set_eq. simpl.
      apply assoc_set_ne. intros ->. apply Hne. by apply split_dash_inv in Es.
  - apply (Hskip _ H); [|done]. intros ->. by rewrite pod_column_key, (split_dash_key _ _ (proj2 Hok)) in Es.
Qed.

End columns.

(** ** Training and serving *)

Lemma tabulate_lookup {A B} (g : A → B) (d : A) (l : list A) n :
  length l = n → (λ i, g (default d (l !! i))) <$> seq 0 n = g <$> l.
Proof.
  intros <-. apply list_eq. intros i. rewrite !list_lookup_fmap. destruct (decide (i < length l)%nat) as [Hi|Hi].
  - rewrite lookup_seq_lt by done. destruct (lookup_lt_is_Some_2 l i Hi) as [x Hx]. simpl. by rewrite Hx.
  - rewrite lookup_seq_ge, lookup_ge_None_2 by lia. done.
Qed.

Lemma tabulate_const {A} (x : A) n : (λ _ : nat, x) <$> seq 0 n = replicate n x.
Proof. erewrite const_fmap by done. by rewrite length_seq. Qed.

Section train_serve.
Context {F : Type} {NF : Num F}.
Context (float_of_string : string → option F) (repr : value F → string) (f32 nan_to_num : F → F) (nan : F).

Abbreviation to_f32 := (to_f32 float_of_string f32 nan).
Abbreviation batch_feature := (batch_feature float_of_string f32 nan_to_num nan).
Abbreviation single_feature := (single_feature float_of_string f32 nan).
Abbreviation batch_pod := (batch_pod float_of_string f32 nan_to_num nan).
Abbreviation single_numeric := (single_numeric float_of_string f32 nan).
Abbreviation as_number := (as_number nan).
Abbreviation pods_data := (dict (dict (cell (F:=F)))).

Definition finite_number (v : value F) : Prop :=
  match v with VInt _ => True | VFloat x => nan_to_num x = x ∧ nisnan x = false | _ => False end.

(** A frame the trainer encodes: two rows or more, every pod column of a
    pod of the cluster, features, requests and rewards finite numbers, the hit ratio not
    excluded and something else left, the GPU of a pod the same known model in all rows,
    and a GPU registered for every pod. *)
Record training_frame (n : nat) (cols : dict (list (value F))) (ids req : list string) (hp : enc_hyper) : Prop := {
  tf_rows : (2 ≤ n)%nat;
  tf_lengths col vs : assoc col cols = Some vs → length vs = n;
  tf_known col pod f : col ∈ cols.*1 → is_pod_column col = true → split_dash col = Some (pod, f) → pod ∈ ids;
  tf_some : ∃ col pod f, col ∈ cols.*1 ∧ is_pod_column col = true ∧ split_dash col = Some (pod, f);
  tf_numbers col vs pod f : assoc col cols = Some vs → is_pod_column col = true → split_dash col = Some (pod, f) →
    f ∈ base_features_list → Forall finite_number vs;
  tf_kv : "kv_hit_ratio" ∉ enc_excluded hp;
  tf_left : pod_numeric (config_of (enc_excluded hp) 0) ≠ [] ∨ enc_include_gpu hp = Some true;
  tf_include : is_Some (enc_include_gpu hp);
  tf_gpu_columns col vs pod : assoc col cols = Some vs → is_pod_column col = true → split_dash col = Some (pod, "GPU") →
    ∃ s, vs = replicate n (VStr s) ∧ known_gpu s = true;
  tf_gpu_ids pod : pod ∈ ids → ∃ z, assoc pod (enc_pod_gpu_ids hp) = Some z ∧ 0 ≤ z < Z.of_nat (length GPU_MODEL_TO_ENCODE);
  tf_numeric col : col ∈ "_sample_weight" :: req ++ target_columns → ∀ vs, assoc col cols = Some vs → Forall finite_number vs;
  tf_requests f : f ∈ req → f ∈ cols.*1
}.

Lemma to_f32_number v : finite_number v → to_f32 v = Ret (f32 (as_number v)).
Proof. by destruct v. Qed.

Lemma omapM_f32 vs : Forall finite_number vs → omapM to_f32 vs = Ret ((λ v, f32 (as_number v)) <$> vs).
Proof. intros H. apply omapM_Ret. eapply Forall_impl; [exact H|]. apply to_f32_number. Qed.

Lemma get_feature_values_finite vs : Forall finite_number vs → get_feature_values nan_to_num vs = vs.
Proof.
  intros H. unfold get_feature_values. destruct (forallb is_numeric vs); [|done].
  induction H as [|v vs Hv _ IH]; csimpl; [done|]. rewrite IH. f_equal. destruct v; try done. simpl in Hv. by destruct Hv as [-> _].
Qed.

(** The value of a feature of a pod in a row *)
Definition val (pod_data : pods_data) (pod f : string) (i : nat) : F :=
  match assoc f (default [] (assoc pod pod_data)) with
  | Some (Column vs) => f32 (as_number (default VNone (vs !! i)))
  | _ => lit 0
  end.

Section frame.
Context (n : nat) (cols : dict (list (value F))) (ids req : list string) (hp : enc_hyper).
Context (Hf : training_frame n cols ids req hp).
Context (pod_data : pods_data) (Hdata : data_of n cols ids pod_data).

Lemma base_feature f types : f ∈ all_numeric (config_of (enc_excluded hp) types) → f ∈ base_features_list.
Proof. by intros [_ H]%elem_of_filter_b. Qed.

Lemma batch_feature_val pod fs f :
  assoc pod pod_data = Some fs → f ∈ base_features_list → batch_feature n fs f = Ret (val pod_data pod f <$> seq 0 n).
Proof.
  intros Hpod Hb. unfold batch_feature, val. rewrite Hpod. simpl. destruct (assoc f fs) as [c|] eqn:Ef; [|by rewrite tabulate_const].
  destruct (Hdata _ _ _ _ Hpod Ef) as (col & vs & Hp & Hs & Hc & ->).
  pose proof (tf_numbers _ _ _ _ _ Hf _ _ _ _ Hc Hp Hs Hb) as Hn. rewrite get_feature_values_finite, omapM_f32 by done.
  f_equal. symmetry. apply (tabulate_lookup (λ v, f32 (as_number v))). by apply (tf_lengths _ _ _ _ _ Hf col).
Qed.

Lemma single_feature_val i pod fs f :
  (i < n)%nat → assoc pod pod_data = Some fs → f ∈ base_features_list →
  single_feature (dict_map (cell_at i) fs) f = Ret (val pod_data pod f i).
Proof.
  intros Hi Hpod Hb. unfold single_feature, val. rewrite Hpod, assoc_dict_map. simpl.
  destruct (assoc f fs) as [c|] eqn:Ef; [|done]. destruct (Hdata _ _ _ _ Hpod Ef) as (col & vs & Hp & Hs & Hc & ->). simpl.
  pose proof (tf_numbers _ _ _ _ _ Hf _ _ _ _ Hc Hp Hs Hb) as Hn. apply to_f32_number.
  destruct (lookup_lt_is_Some_2 vs i) as [v Hv]; [by rewrite (tf_lengths _ _ _ _ _ Hf col vs)|]. rewrite Hv. simpl.
  rewrite Forall_lookup in Hn. by eapply Hn.
Qed.

Lemma single_numeric_val i pod features :
  (i < n)%nat → Forall (λ f, f ∈ base_features_list) features →
  single_numeric features (data_at i pod_data) pod =
    Ret ((λ f, val pod_data pod f i) <$> features, val pod_data pod "kv_hit_ratio" i).
Proof.
  intros Hi Hb. unfold single_numeric. rewrite data_at_lookup. destruct (assoc pod pod_data) as [fs|] eqn:Hpod; simpl.
  - rewrite (omapM_Ret _ (λ f, val pod_data pod f i)).
    + cbn [obind]. by rewrite (single_feature_val i pod fs) by (done || by_decision).
    + eapply Forall_impl; [exact Hb|]. intros f Hf'. by apply single_feature_val.
  - do 2 f_equal; [|unfold val; by rewrite Hpod]. symmetry. apply const_fmap. intros j f _. unfold val. by rewrite Hpod.
Qed.

Lemma batch_pod_val types gpus pod g :
  gpu_part types gpus pod_data pod = Ret g →
  let config := config_of (sorted_set (enc_excluded hp)) types in
  batch_pod config n gpus pod_data pod = Ret ((λ f, val pod_data pod f <$> seq 0 n) <$> all_numeric config, g).
Proof.
  intros Hg config. unfold batch_pod. unfold gpu_part in Hg. destruct (assoc pod pod_data) as [fs|] eqn:Hpod.
  - rewrite (omapM_Ret _ (λ f, val pod_data pod f <$> seq 0 n)).
    + cbn [obind]. unfold gpu_part. rewrite Hpod. simpl. by rewrite Hg.
    + apply Forall_forall. intros f [_ Hb]%elem_of_filter_b. by apply batch_feature_val.
  - injection Hg as <-. do 2 f_equal. symmetry. rewrite <-(const_fmap (λ f, val pod_data pod f <$> seq 0 n) (all_numeric config) (replicate n (lit 0))).
    + done.
    + intros j f _. rewrite <-tabulate_const. apply list_fmap_ext. intros _ i _. unfold val. by rewrite Hpod.
Qed.

Lemma gpu_in_data_row i pod : (i < n)%nat → gpu_in_data (data_at i pod_data) pod = gpu_in_data pod_data pod.
Proof.
  intros Hi. unfold gpu_in_data. rewrite data_at_lookup. destruct (assoc pod pod_data) as [fs|] eqn:Hpod; [|done]. simpl.
  rewrite assoc_dict_map. destruct (assoc "GPU" fs) as [c|] eqn:Eg; [|done].
  destruct (Hdata _ _ _ _ Hpod Eg) as (col & vs & Hp & Hs & Hc & ->). destruct (tf_gpu_columns _ _ _ _ _ Hf _ _ _ Hc Hp Hs) as (s & -> & _).
  simpl. rewrite lookup_replicate_2 by done. destruct n as [|m]; [lia|done].
Qed.

Lemma gpu_code_range s z : assoc s GPU_MODEL_TO_ENCODE = Some z → 0 ≤ z < Z.of_nat (length GPU_MODEL_TO_ENCODE).
Proof.
  intros H%assoc_elem. assert (Forall (λ e : string * Z, 0 ≤ e.2 < Z.of_nat (length GPU_MODEL_TO_ENCODE)) GPU_MODEL_TO_ENCODE) as Hall
    by (repeat constructor; simpl; lia). rewrite Forall_forall in Hall. by apply (Hall _ H).
Qed.

Lemma gpu_model_id_total pod :
  pod ∈ ids → ∃ z part, gpu_model_id hp (length GPU_MODEL_TO_ENCODE) pod_data pod = Ret (z, part) ∧ 0 ≤ z < Z.of_nat (length GPU_MODEL_TO_ENCODE).
Proof.
  intros Hpod. destruct (tf_gpu_ids _ _ _ _ _ Hf pod Hpod) as (z0 & Hz0 & Hr0).
  assert (∃ found part, gpu_in_data pod_data pod = Ret (found, part) ∧ ∀ z, found = Some z → 0 ≤ z < Z.of_nat (length GPU_MODEL_TO_ENCODE))
    as (found & part & Hin & Hr).
  { unfold gpu_in_data. destruct (assoc pod pod_data) as [fs|] eqn:Ep; [|by eexists _, _].
    destruct (assoc "GPU" fs) as [c|] eqn:Eg; [|by eexists _, _].
    destruct (Hdata _ _ _ _ Ep Eg) as (col & vs & Hp & Hs & Hc & ->). destruct (tf_gpu_columns _ _ _ _ _ Hf _ _ _ Hc Hp Hs) as (s & -> & Hk).
    pose proof (tf_rows _ _ _ _ _ Hf). destruct n as [|m]; [lia|]. cbn [replicate get_first_value obind]. unfold known_gpu in Hk.
    destruct (assoc s GPU_MODEL_TO_ENCODE) as [z|] eqn:Ez; [|done]. eexists _, _. split; [done|]. intros ? [= <-]. by eapply gpu_code_range. }
  unfold gpu_model_id. rewrite Hin. cbn [obind].
  destruct found as [z|]; [|rewrite Hz0].
  - specialize (Hr z eq_refl). exists z, part. split; [|done].
    rewrite (proj2 (Z.ltb_ge _ _)), (proj2 (Z.leb_gt _ _)) by lia. done.
  - exists z0, part. split; [|done]. rewrite (proj2 (Z.ltb_ge _ _)), (proj2 (Z.leb_gt _ _)) by lia. done.
Qed.

(** The codes in the mapping are those of the models. *)
Lemma gpu_ids_ok parts pod :
  omapM (gpu_model_id hp (length GPU_MODEL_TO_ENCODE) pod_data) ids = Ret parts → pod ∈ ids →
  ∃ z part, assoc pod (zip ids parts.*1) = Some z ∧ gpu_model_id hp (length GPU_MODEL_TO_ENCODE) pod_data pod = Ret (z, part).
Proof.
  intros Hparts Hpod. pose proof (omapM_length _ _ _ Hparts) as Hl.
  destruct (assoc_Some pod (zip ids parts.*1)) as [z Hz]; [by rewrite fst_zip by (rewrite length_fmap; lia)|]. exists z.
  pose proof Hz as Hj. apply assoc_elem, list_elem_of_lookup in Hj as [j Hj]. apply lookup_zip_with_Some in Hj as (pod' & z' & [= <- <-] & Hp & Hz').
  destruct (omapM_lookup _ _ _ _ _ Hparts Hp) as ([z2 part] & Hy & Hid). rewrite list_lookup_fmap, Hy in Hz'. injection Hz' as <-. by exists part.
Qed.

Lemma gpu_onehot_ok dim z : 0 ≤ z < Z.of_nat dim →
  gpu_onehot (F:=F) dim z = Ret ((λ j, if Z.of_nat j =? z then lit 1 else lit 0) <$> seq 0 dim).
Proof.
  intros Hz. unfold gpu_onehot, py_norm_index. rewrite (proj2 (Z.ltb_ge z (- _))), (proj2 (Z.leb_gt _ _)) by lia.
  by rewrite (proj2 (Z.ltb_ge z 0)) by lia.
Qed.

Lemma gpu_spec_total include :
  ∃ gpus, gpu_spec hp (gpu_types_of include) ids pod_data = Ret gpus ∧
    (∀ i, (i < n)%nat → gpu_spec hp (gpu_types_of include) ids (data_at i pod_data) = Ret gpus) ∧
    ∀ pod, pod ∈ ids → ∃ g, gpu_part (F:=F) (gpu_types_of include) gpus pod_data pod = Ret g ∧ length g = gpu_types_of include ∧
      (include = true → is_Some (assoc pod pod_data) → ∃ z part, gpu_model_id hp (length GPU_MODEL_TO_ENCODE) pod_data pod = Ret (z, part) ∧
         g = (λ j, if Z.of_nat j =? z then lit 1 else lit 0) <$> seq 0 (length GPU_MODEL_TO_ENCODE)).
Proof.
  destruct include; unfold gpu_types_of.
  2: { exists []. split; [done|]. split; [done|]. intros pod _. exists []. split_and!; [|done..]. unfold gpu_part. by destruct (assoc pod pod_data). }
  destruct (omapM_total (gpu_model_id hp (length GPU_MODEL_TO_ENCODE) pod_data) ids) as (parts & Hparts & _).
  { apply Forall_forall. intros pod Hpod. destruct (gpu_model_id_total pod Hpod) as (z & part & H & _). by eexists. }
  assert (∀ d, gpu_spec hp (length GPU_MODEL_TO_ENCODE) ids d =
            (try* parts := omapM (gpu_model_id hp (length GPU_MODEL_TO_ENCODE) d) ids in Ret (zip ids parts.*1))) as Hgs by done.
  exists (zip ids parts.*1). split; [by rewrite Hgs, Hparts|]. split.
  - intros i Hi. rewrite Hgs. erewrite omapM_ext; [by rewrite Hparts|]. intros pod _. unfold gpu_model_id. by rewrite gpu_in_data_row.
  - intros pod Hpod. unfold gpu_part. destruct (assoc pod pod_data) eqn:Epod.
    2: { exists (replicate (length GPU_MODEL_TO_ENCODE) (lit 0)). split_and!; [done|by rewrite length_replicate|]. by intros _ []. }
    destruct (gpu_ids_ok parts pod Hparts Hpod) as (z & part & Hz & Hid). rewrite Hz.
    destruct (gpu_model_id_total pod Hpod) as (z2 & part2 & H2 & Hr2). rewrite Hid in H2. injection H2 as <- <-.
    rewrite gpu_onehot_ok by done. eexists. split_and!; [done|by rewrite length_fmap, length_seq|]. eauto.
Qed.

End frame.

Abbreviation extract_request_features := (extract_request_features float_of_string f32 nan).
Abbreviation extract_target := (extract_target float_of_string f32 nan).
Abbreviation extract_actions := (extract_actions repr).
Abbreviation raw_input_tokens := (raw_input_tokens float_of_string f32 nan).

Section table.
Context (n : nat) (cols : dict (list (value F))) (ids req : list string) (hp : enc_hyper).
Context (Hf : training_frame n cols ids req hp).

(** The number in a column at a row *)
Definition num_at (col : string) (i : nat) : F :=
  match assoc col cols with Some vs => f32 (as_number (default VNone (vs !! i))) | None => lit 0 end.

Definition action_at (i : nat) : Z :=
  match assoc "selected_pod" cols with Some vs => action_of repr ids (default VNone (vs !! i)) | None => 0 end.

Lemma column_finite col vs i :
  col ∈ "_sample_weight" :: req ++ target_columns → assoc col cols = Some vs → (i < n)%nat → finite_number (default VNone (vs !! i)).
Proof.
  intros Hc E Hi. pose proof (tf_numeric _ _ _ _ _ Hf _ Hc _ E) as Hn. rewrite Forall_lookup in Hn.
  destruct (lookup_lt_is_Some_2 vs i) as [v Hv]; [by rewrite (tf_lengths _ _ _ _ _ Hf col vs)|]. rewrite Hv. by eapply Hn.
Qed.

Lemma column_numbers col vs :
  col ∈ "_sample_weight" :: req ++ target_columns → assoc col cols = Some vs → omapM to_f32 vs = Ret (num_at col <$> seq 0 n).
Proof.
  intros Hc E. rewrite omapM_f32 by (by apply (tf_numeric _ _ _ _ _ Hf col)). unfold num_at. rewrite E. f_equal. symmetry.
  apply (tabulate_lookup (λ v, f32 (as_number v))). by apply (tf_lengths _ _ _ _ _ Hf col).
Qed.

Lemma not_na v : finite_number v → is_na v = false.
Proof. destruct v; try done. simpl. by intros [_ H]. Qed.

Lemma fill_na_finite v : finite_number v → fill_na v = v.
Proof. intros H. unfold fill_na. by rewrite not_na. Qed.

Lemma request_column f : f ∈ req → ∃ vs, assoc f cols = Some vs ∧ f ∈ "_sample_weight" :: req ++ target_columns.
Proof.
  intros Hin. destruct (assoc_Some f cols (tf_requests _ _ _ _ _ Hf f Hin)) as [vs E]. exists vs. split; [done|].
  apply elem_of_cons. right. apply elem_of_app. by left.
Qed.

Lemma requests_frame : extract_request_features (Frame n cols) req = Ret ((λ i, (λ f, num_at f i) <$> req) <$> seq 0 n).
Proof.
  assert (∀ names, (∀ f, f ∈ names → f ∈ req) →
            extract_request_features (Frame n cols) names = Ret ((λ i, (λ f, num_at f i) <$> names) <$> seq 0 n)) as H; [|by apply H].
  intros [|r0 names] Hin; [exact (eq_sym (f_equal Ret (tabulate_const [] n)))|]. unfold extract_request_features.
  remember (r0 :: names) as all eqn:Hall. clear Hall. rewrite (proj2 (forallb_forall _ _)).
  2: { intros f Hf'%list_elem_of_In. apply bool_decide_eq_true. by apply (tf_requests _ _ _ _ _ Hf), Hin. }
  rewrite (omapM_Ret _ (λ f, num_at f <$> seq 0 n)).
  - cbn [obind]. f_equal. apply list_fmap_ext. intros k i Hk. apply lookup_seq in Hk as [-> Hk]. unfold sample.
    rewrite <-list_fmap_compose. apply list_fmap_ext. intros _ f _. simpl. by rewrite list_lookup_fmap, lookup_seq_lt.
  - apply Forall_forall. intros f Hf'. destruct (request_column f (Hin f Hf')) as (vs & E & Hc). rewrite E. by apply column_numbers.
Qed.

Lemma requests_row i : (i < n)%nat → extract_request_features (Row (row_at i cols)) req = Ret [(λ f, num_at f i) <$> req].
Proof.
  intros Hi. assert (∀ names, (∀ f, f ∈ names → f ∈ req) →
            extract_request_features (Row (row_at i cols)) names = Ret [(λ f, num_at f i) <$> names]) as H; [|by apply H].
  intros [|r0 names] Hin; [done|]. unfold extract_request_features. remember (r0 :: names) as all eqn:Hall. clear Hall.
  rewrite (omapM_Ret _ (λ f, num_at f i)); [done|]. apply Forall_forall. intros f Hf'.
  destruct (request_column f (Hin f Hf')) as (vs & E & Hc). unfold dget, row_at, num_at. rewrite assoc_dict_map, E.
  by apply to_f32_number, (column_finite f).
Qed.

Lemma target_frame col : col ∈ target_columns → extract_target (Frame n cols) col = Ret (num_at col <$> seq 0 n).
Proof.
  intros Hc. unfold extract_target. destruct (assoc col cols) as [vs|] eqn:E.
  - assert (col ∈ "_sample_weight" :: req ++ target_columns) as Hin by (apply elem_of_cons; right; apply elem_of_app; by right).
    pose proof (tf_numeric _ _ _ _ _ Hf _ Hin _ E) as Hn. rewrite (omapM_ext _ to_f32), (column_numbers col); [done..|].
    intros v Hv. rewrite Forall_forall in Hn. by rewrite fill_na_finite by auto.
  - unfold num_at. by rewrite E, tabulate_const.
Qed.

Lemma target_row col i : (i < n)%nat → col ∈ target_columns → extract_target (Row (row_at i cols)) col = Ret [num_at col i].
Proof.
  intros Hi Hc. unfold extract_target, row_at, num_at. rewrite assoc_dict_map. destruct (assoc col cols) as [vs|] eqn:E; [|done].
  assert (finite_number (default VNone (vs !! i))) as Hn.
  { apply (column_finite col); [|done..]. apply elem_of_cons. right. apply elem_of_app. by right. }
  simpl. rewrite not_na by done. by destruct (default VNone (vs !! i)).
Qed.

Lemma actions_frame : extract_actions (Frame n cols) ids = action_at <$> seq 0 n.
Proof.
  unfold extract_actions, action_at. destruct (assoc "selected_pod" cols) as [vs|] eqn:E; [|by rewrite tabulate_const].
  symmetry. apply tabulate_lookup. by apply (tf_lengths _ _ _ _ _ Hf "selected_pod").
Qed.

Lemma actions_row i : extract_actions (Row (row_at i cols)) ids = [action_at i].
Proof. unfold extract_actions, action_at, row_at. rewrite assoc_dict_map. by destruct (assoc "selected_pod" cols). Qed.

Lemma raw_tokens_total t : t = Frame n cols ∨ (∃ i, (i < n)%nat ∧ t = Row (row_at i cols)) → ∃ raw, raw_input_tokens t = Ret raw.
Proof.
  assert ("input_tokens" ∈ "_sample_weight" :: req ++ target_columns) as Hin by (apply elem_of_cons; right; apply elem_of_app; right; by_decision).
  intros [->|(i & Hi & ->)]; unfold raw_input_tokens; case_bool_decide as Hc; try (by eexists); simpl in Hc.
  - destruct (assoc_Some _ _ Hc) as [vs E]. rewrite E. simpl. pose proof (tf_numeric _ _ _ _ _ Hf _ Hin _ E) as Hn.
    rewrite (omapM_ext _ to_f32), (column_numbers _ _ Hin E).
    + pose proof (tf_rows _ _ _ _ _ Hf). cbn [obind]. rewrite (proj2 (Nat.eqb_neq n 0)) by lia. by eexists.
    + intros v Hv. rewrite Forall_forall in Hn. by rewrite fill_na_finite by auto.
  - unfold row_at in Hc. rewrite dict_map_keys in Hc. destruct (assoc_Some _ _ Hc) as [vs E]. unfold dget, row_at.
    rewrite assoc_dict_map, E. simpl. pose proof (column_finite _ _ i Hin E Hi). rewrite not_na by done. rewrite to_f32_number by done. by eexists.
Qed.

Lemma sorted_set_elem (l : list string) x : x ∈ sorted_set l ↔ x ∈ l.
Proof. unfold sorted_set. by rewrite merge_sort_Permutation, elem_of_remove_dups. Qed.

Lemma config_sorted excluded types : config_of (sorted_set excluded) types = config_of excluded types.
Proof.
  unfold config_of. assert (List.filter (λ f, bool_decide (f ∉ sorted_set excluded)) base_features_list =
    List.filter (λ f, bool_decide (f ∉ excluded)) base_features_list) as ->; [|done].
  apply List.filter_ext. intros f. apply bool_decide_ext. by rewrite sorted_set_elem.
Qed.

(** The pods of the frame and of its rows *)
Lemma pods_extracted :
  ∃ pod_data, data_of n cols ids pod_data ∧ pod_data ≠ [] ∧
    (∀ pod f, pod_id_ok pod → assoc f (default [] (assoc pod pod_data)) = Column <$> assoc (pod_key pod f) cols) ∧
    extract_pod_columns (Frame n cols) ids (List.filter is_pod_column cols.*1) = Ret pod_data ∧
    ∀ i, extract_pod_columns (Row (row_at i cols)) ids (List.filter is_pod_column cols.*1) = Ret (data_at i pod_data).
Proof.
  pose proof (tf_rows _ _ _ _ _ Hf) as Hn. assert (n ≠ 1%nat) as Hn1 by lia.
  destruct (extract_loop_total n cols ids (List.filter is_pod_column cols.*1) []) as (pd & Hpd & _).
  { intros col [_ Hc]%elem_of_filter_b. destruct (assoc_Some _ _ Hc) as [vs E]. exists vs. split; [done|]. lia. }
  { intros col pod f [_ Hc]%elem_of_filter_b. by apply (tf_known _ _ _ _ _ Hf). }
  assert (pd ≠ []) as Hne.
  { destruct (tf_some _ _ _ _ _ Hf) as (col & pod & f & Hc & Hp & Hs).
    destruct (extract_loop_found _ _ _ _ _ pod Hpd) as [fs Hfs]; [|by intros ->].
    right. exists col, f. split; [|done]. by apply elem_of_filter_b. }
  exists pd. split_and!; [|done|..].
  - by apply (extract_loop_data _ _ _ _ [] _ Hn1) in Hpd.
  - intros pod f Hok. rewrite (extract_loop_lookup _ _ _ _ _ pod f Hok Hpd). unfold cell_of. rewrite (proj2 (Nat.eqb_neq n 1) Hn1).
    destruct (assoc (pod_key pod f) cols) as [vs|] eqn:E; [|by destruct (decide _)]. rewrite decide_True; [done|].
    apply elem_of_filter_b. split; [by apply pod_column_key|]. apply assoc_elem in E. apply list_elem_of_fmap. by exists (pod_key pod f, vs).
  - unfold extract_pod_columns. rewrite Hpd. by destruct pd.
  - intros i. unfold extract_pod_columns. pose proof (extract_loop_row i n cols ids _ [] pd Hn1 Hpd) as Hr. unfold data_at in Hr at 1. simpl in Hr.
    rewrite Hr. by destruct pd.
Qed.

Lemma match_nonempty {A B} (l : list A) (x y : B) : l ≠ [] → match l with [] => x | _ :: _ => y end = y.
Proof. by destruct l. Qed.

Section pods.
Context (include : bool) (Hinc : enc_include_gpu hp = Some include).
Context (pod_data : pods_data) (Hdata : data_of n cols ids pod_data) (Hne : pod_data ≠ []).
Context (gpus : dict Z) (g : string → list F).

Local Abbreviation types := (gpu_types_of include).
Local Abbreviation features := (pod_numeric (enc_config hp types)).

Context (Hg : ∀ pod, pod ∈ ids → gpu_part types gpus pod_data pod = Ret (g pod) ∧ length (g pod) = types).

Definition encoded_row (i : nat) (pod : string) : list F := ((λ f, val pod_data pod f i) <$> features) ++ g pod.

Lemma batch_pods_ok :
  omapM (batch_pod (config_of (sorted_set (enc_excluded hp)) types) n gpus pod_data) ids =
    Ret ((λ pod, ((λ f, val pod_data pod f <$> seq 0 n) <$> all_numeric (config_of (sorted_set (enc_excluded hp)) types), g pod)) <$> ids).
Proof.
  apply omapM_Ret, Forall_forall. intros pod Hpod. apply (batch_pod_val n cols ids req hp Hf pod_data Hdata). by apply Hg.
Qed.

(** A batch with a single pod fails when its second pod is to be logged. *)
Lemma batch_single_pod names :
  (length ids < 2)%nat → gpu_spec hp types ids pod_data = Ret gpus →
  pods_spec float_of_string f32 nan_to_num nan hp types ids pod_data n names = Raise IndexError.
Proof.
  intros Hids Hspec. unfold pods_spec. rewrite match_nonempty by done. pose proof (tf_rows _ _ _ _ _ Hf).
  rewrite (proj2 (Nat.eqb_neq n 1)) by lia. unfold batch_spec. rewrite Hspec. cbn [obind]. unfold enc_config. rewrite batch_pods_ok.
  cbn [obind]. by rewrite (proj2 (Nat.ltb_lt _ _) Hids), orb_true_r.
Qed.

Lemma batch_encoded names :
  (2 ≤ length ids)%nat → gpu_spec hp types ids pod_data = Ret gpus →
  pods_spec float_of_string f32 nan_to_num nan hp types ids pod_data n names =
    Ret (tabulate3 n ids encoded_row, tabulate3 n ids (λ i pod, [val pod_data pod "kv_hit_ratio" i]), [],
         features ++ gpu_feature_names types).
Proof.
  intros Hids Hspec. unfold pods_spec. rewrite match_nonempty by done. unfold encoded_row, enc_config. rewrite config_sorted.
  pose proof (tf_rows _ _ _ _ _ Hf). rewrite (proj2 (Nat.eqb_neq n 1)) by lia.
  unfold batch_spec. rewrite Hspec. cbn [obind]. unfold enc_config. rewrite batch_pods_ok. cbn [obind]. rewrite (proj2 (Nat.eqb_neq n 0)), (proj2 (Nat.ltb_ge _ _)) by lia. cbn [orb]. rewrite config_sorted.
  rewrite batch_arrays_eq; [done|apply (tf_kv _ _ _ _ _ Hf)|intros pod Hpod; by apply Hg|].
  destruct (tf_left _ _ _ _ _ Hf) as [Hl|Hl]; [by left|]. right. rewrite Hinc in Hl. injection Hl as ->. done.
Qed.

Lemma row_encoded i names :
  (i < n)%nat → gpu_spec hp types ids (data_at i pod_data) = Ret gpus →
  ∃ indices, pods_spec float_of_string f32 nan_to_num nan hp types ids (data_at i pod_data) 1 names =
    Ret ([encoded_row i <$> ids], [(λ pod, [val pod_data pod "kv_hit_ratio" i]) <$> ids], indices, names).
Proof.
  intros Hi Hspec. unfold pods_spec. rewrite match_nonempty by (by destruct pod_data). unfold encoded_row, enc_config. rewrite config_sorted.
  unfold single_spec. rewrite Hspec. cbn [Nat.eqb obind]. unfold enc_config. rewrite config_sorted.
  rewrite (omapM_Ret _ (λ pod, ((λ f, val pod_data pod f i) <$> pod_numeric (config_of (enc_excluded hp) types), val pod_data pod "kv_hit_ratio" i))).
  2: { apply Forall_forall. intros pod Hpod. apply (single_numeric_val n cols ids req hp Hf pod_data Hdata); [done|].
       apply Forall_forall. intros f [_ [_ Hb]%elem_of_filter_b]%elem_of_filter_b. done. }
  cbn [obind]. rewrite (omapM_Ret _ g).
  2: { apply Forall_forall. intros pod Hpod. rewrite <-(proj1 (Hg pod Hpod)). unfold gpu_part. rewrite data_at_lookup.
       by destruct (assoc pod pod_data). }
  cbn [obind]. eexists. do 5 f_equal.
  - by rewrite <-list_fmap_compose, zip_with_fmap_l, zip_with_fmap_r, zip_with_diag.
  - by rewrite <-!list_fmap_compose.
Qed.

End pods.

(** The one-hot code of the model with a number *)
Definition onehot (z : Z) : list F := (λ j, if Z.of_nat j =? z then lit 1 else lit 0) <$> seq 0 (length GPU_MODEL_TO_ENCODE).

Lemma pod_gpus include (pod_data : pods_data) :
  data_of n cols ids pod_data →
  (∀ pod f, pod_id_ok pod → assoc f (default [] (assoc pod pod_data)) = Column <$> assoc (pod_key pod f) cols) →
  ∃ gpus g, gpu_spec hp (gpu_types_of include) ids pod_data = Ret gpus ∧
    (∀ i, (i < n)%nat → gpu_spec hp (gpu_types_of include) ids (data_at i pod_data) = Ret gpus) ∧
    (∀ pod, pod ∈ ids → gpu_part (F:=F) (gpu_types_of include) gpus pod_data pod = Ret (g pod) ∧ length (g pod) = gpu_types_of include) ∧
    (include = true → ∀ pod s vs z, pod ∈ ids → pod_id_ok pod → assoc (pod_key pod "GPU") cols = Some (VStr s :: vs) →
       assoc s GPU_MODEL_TO_ENCODE = Some z → g pod = onehot z).
Proof.
  intros Hdata Hlook. destruct (gpu_spec_total n cols ids req hp Hf pod_data Hdata include) as (gpus & Hg & Hgi & Hpart).
  exists gpus, (λ pod, match gpu_part (F:=F) (gpu_types_of include) gpus pod_data pod with Ret l => l | _ => [] end).
  split_and!; [done..| |].
  - intros pod Hpod. by destruct (Hpart pod Hpod) as (l & -> & Hl & _).
  - intros Hi pod s vs z Hpod Hok Hc Hs. destruct (Hpart pod Hpod) as (l & -> & _ & Hl). specialize (Hlook pod "GPU" Hok).
    rewrite Hc in Hlook. destruct (assoc pod pod_data) as [fs|] eqn:Ep; [|done]. destruct (Hl Hi) as (z' & part & Hid & ->); [by eexists|].
    simpl in Hlook. unfold gpu_model_id, gpu_in_data in Hid. rewrite Ep, Hlook in Hid. cbn [get_first_value obind] in Hid. rewrite Hs in Hid.
    cbn [obind] in Hid. case_match; simplify_eq. done.
Qed.

Lemma assoc_tabulated {B} (f : string → B) l k : k ∈ l → assoc k ((λ c, (c, f c)) <$> l) = Some (f k).
Proof. induction l as [|c l IH]; [by intros ?%not_elem_of_nil|]. intros [->|H]%elem_of_cons; csimpl; case_decide; subst; auto; done. Qed.

Lemma targets_frame :
  omapM (λ col, try* xs := extract_target (Frame n cols) col in Ret (col, xs)) target_columns =
    Ret ((λ col, (col, num_at col <$> seq 0 n)) <$> target_columns).
Proof. apply omapM_Ret, Forall_forall. intros col Hc. by rewrite target_frame. Qed.

Lemma targets_row i : (i < n)%nat →
  omapM (λ col, try* xs := extract_target (Row (row_at i cols)) col in Ret (col, xs)) target_columns =
    Ret ((λ col, (col, [num_at col i])) <$> target_columns).
Proof. intros Hi. apply omapM_Ret, Forall_forall. intros col Hc. by rewrite target_row. Qed.

Lemma weights_total : ∃ w, sample_weights float_of_string f32 nan (Frame n cols) = Ret w.
Proof.
  unfold sample_weights. destruct (assoc "_sample_weight" cols) as [vs|] eqn:E; [|by eexists].
  rewrite (column_numbers "_sample_weight" vs) by (done || by left). by eexists.
Qed.

Lemma row_columns i : columns (Row (row_at i cols)) = cols.*1.
Proof. apply dict_map_keys. Qed.

(** The encoding of a row, given the pods and the GPUs of the frame *)
Lemma row_spec_encoded include pod_data gpus g i :
  enc_include_gpu hp = Some include → data_of n cols ids pod_data → pod_data ≠ [] →
  (∀ i, extract_pod_columns (Row (row_at i cols)) ids (List.filter is_pod_column cols.*1) = Ret (data_at i pod_data)) →
  (∀ pod, pod ∈ ids → gpu_part (F:=F) (gpu_types_of include) gpus pod_data pod = Ret (g pod) ∧ length (g pod) = gpu_types_of include) →
  (i < n)%nat → gpu_spec hp (gpu_types_of include) ids (data_at i pod_data) = Ret gpus →
  ∃ q, encode_spec float_of_string repr f32 nan_to_num nan (Row (row_at i cols)) ids req hp = Ret q ∧
    p_pod_features q = [encoded_row include pod_data g i <$> ids] ∧
    p_kv_hit_ratios q = [(λ pod, [val pod_data pod "kv_hit_ratio" i]) <$> ids] ∧
    p_request_features q = [(λ f, num_at f i) <$> req] ∧ p_actions q = [action_at i] ∧
    p_targets q = (λ col, (col, [num_at col i])) <$> target_columns.
Proof.
  intros Hinc Hdata Hne Hxi Hgp Hi Hgi. destruct (raw_tokens_total (Row (row_at i cols))) as [rawi Hrawi]; [right; eauto|].
  destruct (row_encoded include pod_data Hdata Hne gpus g Hgp i (feature_names (List.filter is_pod_column cols.*1)) Hi Hgi) as [indices Hrow].
  eexists. split.
  { unfold encode_spec. rewrite Hrawi, Hinc. cbn [obind n_samples]. rewrite row_columns, Hxi, requests_row by done. cbn [obind]. rewrite Hrow. cbn [obind]. rewrite targets_row by done. cbn [obind sample_weights]. done. }
  cbn [p_pod_features p_kv_hit_ratios p_request_features p_actions p_targets]. by rewrite actions_row.
Qed.

(** The encoding of the frame and of its rows, entry by entry *)
Lemma table_encoded include :
  (2 ≤ length ids)%nat → enc_include_gpu hp = Some include →
  ∃ pod_data g p, (∀ pod, pod ∈ ids → length (g pod) = gpu_types_of include) ∧
    (∀ pod f i, pod_id_ok pod → val pod_data pod f i = num_at (pod_key pod f) i) ∧
    (include = true → ∀ pod s vs z, pod ∈ ids → pod_id_ok pod → assoc (pod_key pod "GPU") cols = Some (VStr s :: vs) →
       assoc s GPU_MODEL_TO_ENCODE = Some z → g pod = onehot z) ∧
    encode_spec float_of_string repr f32 nan_to_num nan (Frame n cols) ids req hp = Ret p ∧
    p_pod_features p = tabulate3 n ids (encoded_row include pod_data g) ∧
    p_kv_hit_ratios p = tabulate3 n ids (λ i pod, [val pod_data pod "kv_hit_ratio" i]) ∧
    p_request_features p = (λ i, (λ f, num_at f i) <$> req) <$> seq 0 n ∧
    p_actions p = action_at <$> seq 0 n ∧
    p_targets p = (λ col, (col, num_at col <$> seq 0 n)) <$> target_columns ∧
    p_pod_features_list p = pod_numeric (enc_config hp (gpu_types_of include)) ++ gpu_feature_names (gpu_types_of include) ∧
    p_positional_encodings p = replicate n (replicate (length ids) [lit 0]) ∧
    p_interaction_features p = (λ r, replicate (length ids) r) <$> p_request_features p ∧
    p_pod_ids p = ids ∧ p_numeric_request_features p = req ∧
    ∀ i, (i < n)%nat → ∃ q, encode_spec float_of_string repr f32 nan_to_num nan (Row (row_at i cols)) ids req hp = Ret q ∧
      p_pod_features q = [encoded_row include pod_data g i <$> ids] ∧
      p_kv_hit_ratios q = [(λ pod, [val pod_data pod "kv_hit_ratio" i]) <$> ids] ∧
      p_request_features q = [(λ f, num_at f i) <$> req] ∧ p_actions q = [action_at i] ∧
      p_targets q = (λ col, (col, [num_at col i])) <$> target_columns.
Proof.
  intros Hids Hinc. destruct pods_extracted as (pod_data & Hdata & Hne & Hlook & Hx & Hxi).
  destruct (pod_gpus include pod_data Hdata Hlook) as (gpus & g & Hg & Hgi & Hgp & Hgo).
  destruct (raw_tokens_total (Frame n cols)) as [raw Hraw]; [by left|]. destruct weights_total as [w Hw].
  exists pod_data, g. eexists. split; [intros pod Hpod; by apply Hgp|].
  split; [intros pod f i Hok; unfold val, num_at; rewrite (Hlook pod f Hok); by destruct (assoc (pod_key pod f) cols)|]. split; [exact Hgo|]. split.
  { unfold encode_spec. rewrite Hraw, Hinc. cbn [obind columns n_samples]. rewrite Hx, requests_frame. cbn [obind].
    rewrite (batch_encoded include Hinc pod_data Hdata Hne gpus g Hgp _ Hids Hg). cbn [obind]. rewrite targets_frame, Hw. cbn [obind]. done. }
  cbn [p_pod_features p_kv_hit_ratios p_request_features p_actions p_targets p_pod_features_list p_positional_encodings p_interaction_features p_pod_ids p_numeric_request_features].
  rewrite actions_frame. split_and!; [done..|]. intros i Hi.
  by apply (row_spec_encoded include pod_data gpus g i); [..|apply Hgi].
Qed.

(** A row is encoded into tensors of one shape, also when the cluster has a single pod. *)
Lemma row_tensors include i :
  enc_include_gpu hp = Some include → (i < n)%nat →
  ∃ q, encode_spec float_of_string repr f32 nan_to_num nan (Row (row_at i cols)) ids req hp = Ret q ∧
    (∃ x, p_pod_features q = [x] ∧ length x = length ids ∧
       Forall (λ r, length r = (length (pod_numeric (enc_config hp (gpu_types_of include))) + gpu_types_of include)%nat) x) ∧
    (∃ x, p_kv_hit_ratios q = [x] ∧ length x = length ids ∧ Forall (λ r, length r = 1%nat) x) ∧
    (∃ r, p_request_features q = [r] ∧ length r = length req).
Proof.
  intros Hinc Hi. destruct pods_extracted as (pod_data & Hdata & Hne & Hlook & _ & Hxi).
  destruct (pod_gpus include pod_data Hdata Hlook) as (gpus & g & _ & Hgi & Hgp & _).
  destruct (row_spec_encoded include pod_data gpus g i) as (q & Hq & Hx & Hk & Hr & _); [done..|by apply Hgi|].
  exists q. rewrite Hx, Hk, Hr. split; [done|]. split_and!; eexists; (split; [done|]); rewrite length_fmap; [..|done]; (split; [done|]).
  - apply Forall_fmap, Forall_forall. intros pod Hpod. unfold compose, encoded_row. rewrite length_app, length_fmap. by rewrite (proj2 (Hgp pod Hpod)).
  - by apply Forall_fmap, Forall_forall.
Qed.


Lemma single_pod_spec :
  (length ids < 2)%nat → encode_spec float_of_string repr f32 nan_to_num nan (Frame n cols) ids req hp = Raise IndexError.
Proof.
  intros Hids. destruct (tf_include _ _ _ _ _ Hf) as [include Hinc]. destruct pods_extracted as (pod_data & Hdata & Hne & Hlook & Hx & _).
  destruct (pod_gpus include pod_data Hdata Hlook) as (gpus & g & Hg & _ & Hgp & _).
  destruct (raw_tokens_total (Frame n cols)) as [raw Hraw]; [by left|].
  unfold encode_spec. rewrite Hraw, Hinc. cbn [obind columns n_samples]. rewrite Hx, requests_frame. cbn [obind].
  by rewrite (batch_single_pod include pod_data Hdata Hne gpus g Hgp _ Hids Hg).
Qed.

Lemma action_range i : ids ≠ [] → 0 ≤ action_at i < py_len ids.
Proof.
  intros Hids. assert (0 < py_len ids) by (unfold py_len; destruct ids; [done|simpl; lia]).
  unfold action_at, action_of. destruct (assoc "selected_pod" cols) as [vs|]; [|lia]. destruct (is_na _); [lia|].
  destruct (index_of _ ids) as [k|] eqn:E; [|lia].
  assert (∀ x l k, index_of x l = Some k → (k < length l)%nat) as Hk.
  { clear. intros x l. induction l as [|y l IH]; intros k; simpl; [done|]. case_match; [intros [= <-]; lia|].
    destruct (index_of x l) as [j|]; [|done]. intros [= <-]. specialize (IH j eq_refl). lia. }
  apply Hk in E. unfold py_len. lia.
Qed.

End table.

Abbreviation prepare_for_encoding := (prepare_for_encoding float_of_string repr f32 nan_to_num nan).
Abbreviation encode_for_inference := (encode_for_inference float_of_string repr f32 nan_to_num nan).
Abbreviation after_calls := (after_calls float_of_string repr f32 nan_to_num nan).

(** A frame is encoded by a new encoder as specified. *)
Lemma prepare_new t ids req hp :
  (prepare_for_encoding t ids req hp new_DataEncoder).1 = encode_spec float_of_string repr f32 nan_to_num nan t ids req hp.
Proof. apply prepare_runs, new_encoder_ok. Qed.

Lemma tabulate3_lookup n ids row i : (i < n)%nat → tabulate3 (F:=F) n ids row !! i = Some (row i <$> ids).
Proof. intros Hi. unfold tabulate3. by rewrite list_lookup_fmap, lookup_seq_lt. Qed.

(** C17: Training and serving see the same numbers: when a frame of served requests is
    encoded for training and one of its rows is encoded as a request, by the encoder kept
    after any earlier requests, then the features of the pods, the hit ratios, the
    request features, the action and the rewards of the request are those of its
    row in the batch, although the two paths build them differently. *)
Theorem training_serving_agree cs n cols ids req hp :
  training_frame n cols ids req hp → (2 ≤ length ids)%nat → StronglySorted gpu_ids_kept (cs.*2 ++ [hp]) →
  ∃ p, (prepare_for_encoding (Frame n cols) ids req hp new_DataEncoder).1 = Ret p ∧
    ∀ i, (i < n)%nat → ∃ t, (encode_for_inference (Row (row_at i cols)) ids req hp (after_calls cs)).1 = Ret t ∧
      head (it_pod_features t) = p_pod_features p !! i ∧ head (it_kv_hit_ratios t) = p_kv_hit_ratios p !! i ∧
      head (it_request_features t) = p_request_features p !! i ∧ head (it_actions t) = p_actions p !! i ∧
      head (it_rewards t) = target p "reward" !! i.
Proof.
  intros Hf Hids Hs. destruct (tf_include _ _ _ _ _ Hf) as [include Hinc].
  destruct (table_encoded n cols ids req hp Hf include Hids Hinc)
    as (pod_data & g & p & _ & _ & _ & Hp & Hpf & Hkv & Hreq & Hact & Htgt & _ & _ & _ & _ & _ & Hrows).
  exists p. split; [by rewrite prepare_new|]. intros i Hi. destruct (Hrows i Hi) as (q & Hq & Hqf & Hqk & Hqr & Hqa & Hqt).
  exists (tensors_of q). split.
  { destruct (encode_for_inference_runs float_of_string repr f32 nan_to_num nan (Row (row_at i cols)) ids req hp (after_calls cs)) as [-> _];
      [by apply after_calls_ok|]. by rewrite Hq. }
  unfold tensors_of, target. cbn [it_pod_features it_kv_hit_ratios it_request_features it_actions it_rewards].
  rewrite Hqf, Hqk, Hqr, Hqa, Hqt, Hpf, Hkv, Hreq, Hact, Htgt, !tabulate3_lookup by done.
  rewrite !list_lookup_fmap, lookup_seq_lt by done. rewrite !(assoc_tabulated (λ c, _)) by by_decision. simpl.
  by rewrite list_lookup_fmap, lookup_seq_lt.
Qed.

(** A batch of a cluster with a single pod cannot be encoded: a log line that shows the
    features of the second pod is evaluated whether it is printed or not, and raises. *)
Theorem single_pod_batch_raises n cols pod req hp :
  training_frame n cols [pod] req hp →
  (prepare_for_encoding (Frame n cols) [pod] req hp new_DataEncoder).1 = Raise IndexError.
Proof. intros Hf. rewrite prepare_new. apply single_pod_spec; [done|simpl; lia]. Qed.

(** An array of shape [n, m, k] *)
Definition shape3 (a : list (list (list F))) (n m k : nat) : Prop :=
  length a = n ∧ Forall (λ s, length s = m ∧ Forall (λ r, length r = k) s) a.

Lemma tabulate3_shape n ids row k : (∀ i pod, pod ∈ ids → length (row i pod) = k) → shape3 (tabulate3 n ids row) n (length ids) k.
Proof.
  intros Hrow. unfold tabulate3. split; [by rewrite length_fmap, length_seq|]. apply Forall_fmap, Forall_forall. intros i _.
  split; [apply length_fmap|]. apply Forall_fmap, Forall_forall. intros pod Hpod. by apply Hrow.
Qed.

Lemma replicate_shape (x : F) n m : shape3 (replicate n (replicate m [x])) n m 1.
Proof. split; [apply length_replicate|]. apply Forall_replicate. split; [apply length_replicate|]. by apply Forall_replicate. Qed.

Lemma dim3_shape a n m k : shape3 a n m k → (0 < n)%nat → (0 < m)%nat → dim3 a = k.
Proof.
  intros [Hn Ha] Hn0 Hm0. unfold dim3. destruct a as [|s a]; [simpl in Hn; lia|]. apply Forall_cons in Ha as [[Hs Hr] _].
  destruct s as [|r s]; [simpl in Hs; lia|]. by apply Forall_cons in Hr as [].
Qed.

(** C19: The tensors of a training batch are well formed: features, hit ratios, positional
    encodings and interactions have one entry per row and pod and the same width
    throughout, every action is a pod of the cluster, rewards and latencies have one
    entry per row, and the names saved with the tensors are as many as the inputs of
    the model, so that the warning about missing names is never given. *)
Theorem encoded_shapes n cols ids req hp :
  training_frame n cols ids req hp → (2 ≤ length ids)%nat →
  ∃ p, (prepare_for_encoding (Frame n cols) ids req hp new_DataEncoder).1 = Ret p ∧
    shape3 (p_pod_features p) n (length ids) (length (p_pod_features_list p)) ∧ shape3 (p_kv_hit_ratios p) n (length ids) 1 ∧
    shape3 (p_positional_encodings p) n (length ids) 1 ∧ shape3 (p_interaction_features p) n (length ids) (length req) ∧
    length (p_request_features p) = n ∧ Forall (λ r, length r = length req) (p_request_features p) ∧
    length (p_actions p) = n ∧ Forall (λ a, 0 ≤ a < py_len ids) (p_actions p) ∧
    Forall (λ e, length e.2 = n) (p_targets p) ∧ length (model_input_feature_names p) = expected_dim p.
Proof.
  intros Hf Hids. destruct (tf_include _ _ _ _ _ Hf) as [include Hinc]. pose proof (tf_rows _ _ _ _ _ Hf) as Hn.
  destruct (table_encoded n cols ids req hp Hf include Hids Hinc)
    as (pod_data & g & p & Hg & _ & _ & Hp & Hpf & Hkv & Hreq & Hact & Htgt & Hnames & Hpos & Hint & _ & Hnr & _).
  exists p. split; [by rewrite prepare_new|].
  assert (shape3 (p_pod_features p) n (length ids) (length (p_pod_features_list p))) as H1.
  { rewrite Hpf, Hnames. apply tabulate3_shape. intros i pod Hpod. unfold encoded_row, gpu_feature_names.
    by rewrite !length_app, !length_fmap, length_seq, Hg. }
  assert (shape3 (p_kv_hit_ratios p) n (length ids) 1) as H2 by (rewrite Hkv; by apply tabulate3_shape).
  assert (Forall (λ r, length r = length req) (p_request_features p)) as H3.
  { rewrite Hreq. apply Forall_fmap, Forall_forall. intros i _. apply length_fmap. }
  assert (length (p_request_features p) = n) as H4 by (by rewrite Hreq, length_fmap, length_seq).
  split_and!; [done|done|rewrite Hpos; apply replicate_shape| |done|done|by rewrite Hact, length_fmap, length_seq|..].
  - rewrite Hint. split; [by rewrite length_fmap|]. apply Forall_fmap. eapply Forall_impl; [exact H3|]. intros r Hr.
    split; [apply length_replicate|]. by apply Forall_replicate.
  - rewrite Hact. apply Forall_fmap, Forall_forall. intros i _. apply (action_range n cols ids req hp Hf). intros ->. simpl in Hids. lia.
  - rewrite Htgt. apply Forall_fmap, Forall_forall. intros col _. simpl. by rewrite length_fmap, length_seq.
  - unfold model_input_feature_names, expected_dim. rewrite (dim3_shape _ _ _ _ H1), (dim3_shape _ _ _ _ H2), Hnr by lia.
    destruct (p_request_features p) as [|r rs]; [simpl in H4; lia|]. apply Forall_cons in H3 as [Hr _].
    rewrite !length_app. simpl. lia.
Qed.

(** The entry of an array *)
Definition entry (a : list (list (list F))) (i k j : nat) : option F :=
  match a !! i with Some s => match s !! k with Some r => r !! j | None => None end | None => None end.

Lemma tabulate3_entry n ids row i k j pod :
  (i < n)%nat → ids !! k = Some pod → entry (tabulate3 n ids row) i k j = row i pod !! j.
Proof. intros Hi Hk. unfold entry. rewrite tabulate3_lookup by done. by rewrite list_lookup_fmap, Hk. Qed.

Lemma base_not_gpu f (m : nat) : f ∈ base_features_list → f ≠ "gpu_model_" +:+ pretty m.
Proof.
  intros Hf ->. assert (∀ f', f' ∈ base_features_list → String.prefix "gpu_model_" f' = false) as H.
  { apply Forall_forall. by_decision. }
  specialize (H _ Hf). rewrite prefix_of_append in H; done.
Qed.

(** The names saved for the columns of the features say what the columns hold: under the
    name of a feature is, for every row and pod, the number the frame has in the column
    of that pod and feature (zero when there is none), and under the name of a GPU model is
    one for the pods with that model and zero for the others. *)
Theorem names_label_columns n cols ids req hp :
  training_frame n cols ids req hp → (2 ≤ length ids)%nat → Forall pod_id_ok ids →
  ∃ p, (prepare_for_encoding (Frame n cols) ids req hp new_DataEncoder).1 = Ret p ∧
    (∀ i k pod j f, (i < n)%nat → ids !! k = Some pod → p_pod_features_list p !! j = Some f → f ∈ base_features_list →
       entry (p_pod_features p) i k j = Some (num_at cols (pod_key pod f) i)) ∧
    (∀ i k pod j m s vs z, (i < n)%nat → ids !! k = Some pod → p_pod_features_list p !! j = Some ("gpu_model_" +:+ pretty (m : nat)) →
       assoc (pod_key pod "GPU") cols = Some (VStr s :: vs) → assoc s GPU_MODEL_TO_ENCODE = Some z →
       entry (p_pod_features p) i k j = Some (if Z.of_nat m =? z then lit 1 else lit 0)).
Proof.
  intros Hf Hids Hok. destruct (tf_include _ _ _ _ _ Hf) as [include Hinc].
  destruct (table_encoded n cols ids req hp Hf include Hids Hinc)
    as (pod_data & g & p & Hg & Hval & Hgo & Hp & Hpf & _ & _ & _ & _ & Hnames & _). rewrite Forall_forall in Hok.
  exists p. split; [by rewrite prepare_new|]. rewrite Hpf, Hnames.
  set (features := pod_numeric (enc_config hp (gpu_types_of include))). split.
  - intros i k pod j f Hi Hk Hj Hb. rewrite (tabulate3_entry _ _ _ _ _ _ pod) by done. unfold encoded_row. fold features.
    apply lookup_app_Some in Hj as [Hj|[_ Hj]].
    + rewrite lookup_app_l by (rewrite length_fmap; by eapply lookup_lt_Some). rewrite list_lookup_fmap, Hj. simpl.
      rewrite Hval; [done|]. apply Hok. by eapply list_elem_of_lookup_2.
    + unfold gpu_feature_names in Hj. rewrite list_lookup_fmap in Hj. destruct (seq _ _ !! _) as [m|]; [|done]. injection Hj as <-.
      by destruct (base_not_gpu _ m Hb).
  - intros i k pod j m s vs z Hi Hk Hj Hc Hs. rewrite (tabulate3_entry _ _ _ _ _ _ pod) by done. unfold encoded_row. fold features.
    apply lookup_app_Some in Hj as [Hj|[Hge Hj]].
    { exfalso. apply list_elem_of_lookup_2 in Hj. unfold features in Hj.
      apply elem_of_filter_b in Hj as [_ [_ Hj]%elem_of_filter_b]. by apply (base_not_gpu _ m Hj). }
    assert (pod ∈ ids) as Hpod by (by eapply list_elem_of_lookup_2). unfold gpu_feature_names in Hj.
    rewrite list_lookup_fmap in Hj. destruct (seq _ _ !! _) as [m'|] eqn:Em; [|done]. injection Hj as Hm.
    apply append_inj_l, (inj pretty) in Hm as ->. apply lookup_seq in Em as [-> Hlt].
    destruct include; [|simpl in Hlt; lia]. rewrite lookup_app_r by (by rewrite length_fmap). rewrite length_fmap.
    rewrite (Hgo eq_refl pod s vs z) by auto. unfold onehot. by rewrite list_lookup_fmap, lookup_seq_lt by done.
Qed.

End train_serve.

(** ** The GPUs of a batch *)

Section first_row.
Context {F : Type} {NF : Num F}.
Context (float_of_string : string → option F) (repr : value F → string) (f32 nan_to_num : F → F) (nan : F).

Abbreviation pods_data := (dict (dict (cell (F:=F)))).

Definition gpu_column (col : string) : bool :=
  is_pod_column col && match split_dash col with Some (_, f) => String.eqb f "GPU" | None => false end.

Definition first_values (vs : list (value F)) : list (value F) :=
  match vs with v :: _ => replicate (length vs) v | [] => [] end.

Definition keyed {A} (f : string → A → A) (d : dict A) : dict A := (λ e : string * A, (e.1, f e.1 e.2)) <$> d.

(** The frame in which every row has the GPUs of the first *)
Definition first_gpus (cols : dict (list (value F))) : dict (list (value F)) :=
  keyed (λ col vs, if gpu_column col then first_values vs else vs) cols.

Definition first_cell (f : string) (c : cell (F:=F)) : cell :=
  match c with Column vs => if String.eqb f "GPU" then Column (first_values vs) else c | _ => c end.

Lemma assoc_keyed {A} (f : string → A → A) d k : assoc k (keyed f d) = f k <$> assoc k d.
Proof. induction d as [|[k' v] d IH]; csimpl; [done|]. case_decide; [by subst|done]. Qed.

Lemma assoc_set_keyed {A} (f : string → A → A) k v d : assoc_set k (f k v) (keyed f d) = keyed f (assoc_set k v d).
Proof. induction d as [|[k' w] d IH]; csimpl; [done|]. case_decide; csimpl; [by subst|]. f_equal. exact IH. Qed.

Lemma keyed_keys {A} (f : string → A → A) d : (keyed f d).*1 = d.*1.
Proof. unfold keyed. by rewrite <-list_fmap_compose. Qed.

Lemma first_gpus_other cols col : gpu_column col = false → assoc col (first_gpus cols) = assoc col cols.
Proof. intros H. unfold first_gpus. rewrite assoc_keyed, H. by destruct (assoc col cols). Qed.

Definition frozen (pod_data : pods_data) : pods_data := dict_map (keyed first_cell) pod_data.

Lemma frozen_loop n cols ids cs (acc : pods_data) :
  n ≠ 1%nat →
  extract_loop (Frame n (first_gpus cols)) ids cs (frozen acc) =
    match extract_loop (Frame n cols) ids cs acc with Ret pd => Ret (frozen pd) | Raise e => Raise e | OutOfFuel => OutOfFuel end.
Proof.
  intros Hn. revert acc. induction cs as [|col cs IH]; intros acc; [done|]. cbn [extract_loop].
  destruct (if is_pod_column col then split_dash col else None) as [[pod f]|] eqn:Es; [|apply IH].
  destruct (bool_decide (pod ∈ ids)); [|done]. unfold cell_of. rewrite (proj2 (Nat.eqb_neq n 1) Hn). unfold first_gpus at 1.
  rewrite assoc_keyed. destruct (assoc col cols) as [vs|]; [|done]. cbn [obind fmap option_fmap option_map]. rewrite <-IH. f_equal.
  unfold frozen. rewrite <-(assoc_set_dict_map (keyed first_cell)), <-(assoc_set_keyed first_cell), assoc_dict_map. f_equal.
  assert (gpu_column col = String.eqb f "GPU") as ->.
  { unfold gpu_column. destruct (is_pod_column col); [|done]. by rewrite Es. }
  f_equal; [simpl; by destruct (String.eqb f "GPU")|]. by destruct (assoc pod acc).
Qed.

Lemma frozen_feature (pod_data : pods_data) pod f :
  f ≠ "GPU" → assoc f (default [] (assoc pod (frozen pod_data))) = assoc f (default [] (assoc pod pod_data)).
Proof.
  intros Hf. unfold frozen. rewrite assoc_dict_map. destruct (assoc pod pod_data) as [fs|]; [|done]. simpl.
  rewrite assoc_keyed. destruct (assoc f fs) as [c|]; [|done]. simpl. destruct c; [done|]. simpl. by rewrite (proj2 (String.eqb_neq f "GPU") Hf).
Qed.

Lemma frozen_gpu (pod_data : pods_data) pod : gpu_in_data (frozen pod_data) pod = gpu_in_data pod_data pod.
Proof.
  unfold gpu_in_data, frozen. rewrite assoc_dict_map. destruct (assoc pod pod_data) as [fs|]; [|done]. simpl. rewrite assoc_keyed.
  destruct (assoc "GPU" fs) as [[v|[|v vs]]|]; done.
Qed.

Lemma frozen_pod config n gpus (pod_data : pods_data) pod :
  "GPU" ∉ all_numeric config →
  batch_pod float_of_string f32 nan_to_num nan config n gpus (frozen pod_data) pod =
    batch_pod float_of_string f32 nan_to_num nan config n gpus pod_data pod.
Proof.
  intros Hc. unfold batch_pod, gpu_part. pose proof (frozen_feature pod_data pod) as Hf. unfold frozen in *. rewrite assoc_dict_map in *.
  destruct (assoc pod pod_data) as [fs|]; [|done]. cbn [fmap option_fmap option_map] in *.
  erewrite omapM_ext; [done|]. intros f Hin. unfold batch_feature. rewrite Hf; [done|]. by intros ->.
Qed.

Lemma frozen_pods hp types ids (pod_data : pods_data) n names :
  n ≠ 1%nat →
  pods_spec float_of_string f32 nan_to_num nan hp types ids (frozen pod_data) n names =
    pods_spec float_of_string f32 nan_to_num nan hp types ids pod_data n names.
Proof.
  intros Hn. unfold pods_spec. destruct pod_data as [|e pd]; [done|]. set (pod_data := e :: pd).
  rewrite match_nonempty by done. rewrite (proj2 (Nat.eqb_neq n 1) Hn). unfold batch_spec.
  assert (gpu_spec hp types ids (frozen pod_data) = gpu_spec hp types ids pod_data) as ->.
  { unfold gpu_spec. destruct types; [done|]. erewrite omapM_ext; [done|]. intros pod _. unfold gpu_model_id. by rewrite frozen_gpu. }
  destruct (gpu_spec hp types ids pod_data) as [gpus| |]; [|done..]. cbn [obind].
  erewrite (omapM_ext (batch_pod float_of_string f32 nan_to_num nan _ n gpus (frozen pod_data))); [done|]. intros pod _. apply frozen_pod.
  intros [_ H]%elem_of_filter_b. revert H. by_decision.
Qed.

(** Everything but the pods is encoded from other columns. *)
Lemma first_gpus_rest n cols ids req :
  Forall (λ f, gpu_column f = false) req →
  raw_input_tokens float_of_string f32 nan (Frame n (first_gpus cols)) = raw_input_tokens float_of_string f32 nan (Frame n cols) ∧
  extract_request_features float_of_string f32 nan (Frame n (first_gpus cols)) req = extract_request_features float_of_string f32 nan (Frame n cols) req ∧
  extract_actions repr (Frame n (first_gpus cols)) ids = extract_actions repr (Frame n cols) ids ∧
  omapM (λ col, try* xs := extract_target float_of_string f32 nan (Frame n (first_gpus cols)) col in Ret (col, xs)) target_columns =
    omapM (λ col, try* xs := extract_target float_of_string f32 nan (Frame n cols) col in Ret (col, xs)) target_columns ∧
  sample_weights float_of_string f32 nan (Frame n (first_gpus cols)) = sample_weights float_of_string f32 nan (Frame n cols).
Proof.
  intros Hreq. assert ((first_gpus cols).*1 = cols.*1) as Hkeys by apply keyed_keys.
  split_and!.
  - unfold raw_input_tokens. cbn [columns]. by rewrite Hkeys, first_gpus_other.
  - unfold extract_request_features. rewrite Hkeys. destruct req as [|r0 rs]; [done|]. case_match; [|done].
    erewrite (omapM_ext (λ f, omapM _ (default [] (assoc f (first_gpus cols))))); [done|]. intros f Hin. rewrite Forall_forall in Hreq.
    by rewrite first_gpus_other by auto.
  - unfold extract_actions. by rewrite first_gpus_other.
  - apply omapM_ext. intros col Hin. unfold extract_target. rewrite first_gpus_other; [done|]. revert col Hin. apply Forall_forall. by_decision.
  - unfold sample_weights. by rewrite first_gpus_other.
Qed.

(** The GPU of a pod in a batch is that of the first row: changing the GPUs of all later
    rows to those of the first changes nothing in what a batch is encoded to. So a pod that
    joined later, for which the first row has the default model, has that model in
    every row. *)
Theorem batch_gpu_of_first_row n cols ids req hp :
  n ≠ 1%nat → Forall (λ f, gpu_column f = false) req →
  (prepare_for_encoding float_of_string repr f32 nan_to_num nan (Frame n cols) ids req hp new_DataEncoder).1 =
    (prepare_for_encoding float_of_string repr f32 nan_to_num nan (Frame n (first_gpus cols)) ids req hp new_DataEncoder).1.
Proof.
  intros Hn Hreq. rewrite !prepare_new. unfold encode_spec. destruct (first_gpus_rest n cols ids req Hreq) as (-> & -> & -> & -> & ->).
  cbn [columns n_samples]. rewrite (keyed_keys _ cols : (first_gpus cols).*1 = cols.*1).
  assert (extract_pod_columns (Frame n (first_gpus cols)) ids (List.filter is_pod_column cols.*1) =
          (try* pd := extract_pod_columns (Frame n cols) ids (List.filter is_pod_column cols.*1) in Ret (frozen pd))) as ->.
  { unfold extract_pod_columns. pose proof (frozen_loop n cols ids (List.filter is_pod_column cols.*1) [] Hn) as Hx.
    change (frozen []) with (@nil (string * dict (cell (F:=F)))) in Hx. rewrite Hx.
    by destruct (extract_loop (Frame n cols) ids _ []) as [[|e pd]| |]. }
  repeat (match goal with |- obind ?o _ = obind ?o _ => destruct o; [|done..]; cbn [obind] end).
  destruct (extract_pod_columns (Frame n cols) ids _) as [pd| |]; [|done..]. cbn [obind].
  repeat (match goal with |- obind ?o _ = obind ?o _ => destruct o; [|done..]; cbn [obind] end).
  by rewrite frozen_pods.
Qed.

End first_row.

(** ** The encoder and the registry of pods *)

Section serving.
Context {F : Type} {NF : Num F}.
Context (float_of_string : string → option F) (repr : value F → string) (f32 nan_to_num : F → F) (nan : F).

Abbreviation encode_for_inference := (encode_for_inference float_of_string repr f32 nan_to_num nan).

(** The hyperparameters of a request: two settings and the table of the registry *)
Definition hyper_of (r : registry) (excluded : list string) (include : option bool) : enc_hyper :=
  mkEncHyper excluded include (match hyperparameters r with Some v => hp_pod_gpu_id_mapping v | None => [] end).

(** A request registers the pods of its message and is encoded. *)
Record request := mkRequest {
  rq_pods : register_call;
  rq_table : table (F:=F);
  rq_ids : list string;
  rq_features : list string;
  rq_excluded : list string;
  rq_include : option bool
}.

Definition serve (q : request) (s : registry * option DataEncoder) : outcome (inference_tensors (F:=F)) * (registry * option DataEncoder) :=
  let r := run_calls [rq_pods q] s.1 in
  let '(o, g) := encode_for_inference (rq_table q) (rq_ids q) (rq_features q) (hyper_of r (rq_excluded q) (rq_include q)) s.2 in
  (o, (r, g)).

Definition serve_all (qs : list request) : registry * option DataEncoder := foldl (λ s q, (serve q s).2) (new_registry, None) qs.

Definition serving_inv (s : registry * option DataEncoder) : Prop :=
  registry_inv s.1 ∧
  ((length (pod_ip_to_generalpodid s.1) < 1000)%nat →
   ∀ excluded include, caches_ok (enc_pod_gpu_ids (hyper_of s.1 excluded include)) (default new_DataEncoder s.2)).

Lemma hyper_kept r r' excluded include excluded' include' :
  registry_inv r → registry_inv r' → extends r r' → (length (pod_ip_to_generalpodid r') < 1000)%nat →
  gpu_ids_kept (hyper_of r excluded include) (hyper_of r' excluded' include').
Proof.
  intros [Hw Hc] [Hw' Hc'] Hx Hlt pod z. assert (length (pod_ip_to_generalpodid r) < 1000)%nat as Hlt0.
  { destruct Hx as [[k Hk] _]. rewrite Hk, length_app in Hlt. lia. }
  specialize (Hc Hlt0). specialize (Hc' Hlt). unfold current in *. unfold hyper_of. simpl.
  destruct (hyperparameters r) as [v|]; [|done]. destruct (hyperparameters r') as [v'|]; [by apply (gpu_ids_extend r r')|].
  destruct Hx as [[k Hk] _]. rewrite Hc' in Hk. apply eq_sym, app_eq_nil in Hk as [Hnil _]. destruct Hc as (_ & _ & _ & _ & _ & _ & Hkeys).
  rewrite Hnil in Hkeys. apply fmap_nil_inv in Hkeys. by rewrite Hkeys.
Qed.

(** A registry that grows keeps the caches of the encoder valid. *)
Lemma serving_grow r r' g : serving_inv (r, g) → registry_inv r' → extends r r' → serving_inv (r', g).
Proof.
  intros [Hr Hc] Hr' Hx. split; [done|]. simpl in *. intros Hlt excluded include.
  apply (caches_ok_kept (hyper_of r excluded include) (hyper_of r' excluded include)); [by apply hyper_kept|]. apply (Hc ltac:(
    destruct Hx as [[k Hk] _]; rewrite Hk, length_app in Hlt; lia) excluded include).
Qed.

(** An encoded request, with the result it has without caches *)
Lemma serving_encode r g t ids req excluded include :
  serving_inv (r, g) →
  let res := encode_for_inference t ids req (hyper_of r excluded include) g in
  serving_inv (r, res.2) ∧
  ((length (pod_ip_to_generalpodid r) < 1000)%nat →
   res.1 = (try* p := encode_spec float_of_string repr f32 nan_to_num nan t ids req (hyper_of r excluded include) in Ret (tensors_of p))).
Proof.
  intros [Hr Hc] res. simpl in *. assert ((length (pod_ip_to_generalpodid r) < 1000)%nat →
    runs (encode_for_inference t ids req (hyper_of r excluded include)) g
      (try* p := encode_spec float_of_string repr f32 nan_to_num nan t ids req (hyper_of r excluded include) in Ret (tensors_of p))
      (λ g', caches_ok (enc_pod_gpu_ids (hyper_of r excluded include)) (default new_DataEncoder g'))) as H.
  { intros Hlt. apply encode_for_inference_runs, (Hc Hlt excluded include). }
  split; [split; [done|]; intros Hlt excluded' include'; apply (H Hlt)|]. intros Hlt. apply (H Hlt).
Qed.

Lemma serve_step q s :
  serving_inv s →
  serving_inv (serve q s).2 ∧
  ((length (pod_ip_to_generalpodid (serve q s).2.1) < 1000)%nat →
   (serve q s).1 = (try* p := encode_spec float_of_string repr f32 nan_to_num nan (rq_table q) (rq_ids q) (rq_features q)
                                (hyper_of (serve q s).2.1 (rq_excluded q) (rq_include q)) in Ret (tensors_of p))).
Proof.
  destruct s as [r g]. intros Hs. destruct (run_calls_inv [rq_pods q] r (proj1 Hs)) as [Hr' Hx].
  pose proof (serving_encode _ g (rq_table q) (rq_ids q) (rq_features q) (rq_excluded q) (rq_include q) (serving_grow r _ g Hs Hr' Hx)) as H.
  unfold serve. simpl in *. by destruct (encode_for_inference _ _ _ _ g).
Qed.

Lemma serve_all_inv qs : serving_inv (serve_all qs).
Proof.
  unfold serve_all. assert (serving_inv (new_registry, None)) as H0.
  { split; [apply new_registry_inv|]. intros _ excluded include. apply new_encoder_ok. }
  revert H0. generalize (new_registry, None : option DataEncoder). induction qs as [|q qs IH]; intros s Hs; [done|]. simpl.
  apply IH. by apply serve_step.
Qed.

(** C18: Whatever was served before, a request is encoded as if the encoder had no caches:
    after any sequence of requests, each of which may register new pods and may fail, on
    clusters and with features that change in between, the tensors of the next request
    (or its error) are those of the specification, with the GPUs the registry then has.
    The mapping of pods to GPUs the cache relies on is the registry's, which only grows. *)
Theorem served_requests_refine qs q :
  let s := serve q (serve_all qs) in
  (length (pod_ip_to_generalpodid s.2.1) < 1000)%nat →
  s.1 = (try* p := encode_spec float_of_string repr f32 nan_to_num nan (rq_table q) (rq_ids q) (rq_features q)
                     (hyper_of s.2.1 (rq_excluded q) (rq_include q)) in Ret (tensors_of p)).
Proof. intros s. apply serve_step, serve_all_inv. Qed.

End serving.

(** ** Witnesses *)

Definition demo_cols (pods : bool) : dict (list (value Q)) :=
  [("selected_pod", [VStr "pod_0001"; VStr "pod_0000"]); ("input_tokens", [VInt 9; VInt 5]); ("reward", [VFloat (1 # 2)%Q; VInt 1]);
   ("pod_0000-kv_hit_ratio", [VFloat (1 # 2)%Q; VInt 0]); ("pod_0000-GPU", [VStr "NVIDIA-A10"; VStr "NVIDIA-A10"])] ++
  (if pods then [("pod_0001-waiting_requests", [VInt 4; VInt 2]); ("pod_0001-GPU", [VStr "NVIDIA-A30"; VStr "NVIDIA-A30"])] else []).

Definition demo_ids (pods : bool) : list string := if pods then ["pod_0000"; "pod_0001"] else ["pod_0000"].

Definition demo_enc : enc_hyper := mkEncHyper ["decode_tokens"] (Some true) [("pod_0000", 1); ("pod_0001", 2)].

Ltac each_column H := apply assoc_elem in H; cbn in H; repeat (apply elem_of_cons in H as [[= -> ->]|H]); [..|by apply not_elem_of_nil in H].

Lemma demo_training_frame pods : training_frame (λ x, x) 2 (demo_cols pods) (demo_ids pods) ["input_tokens"] demo_enc.
Proof.
  split.
  - done.
  - intros col vs H. destruct pods; each_column H; done.
  - intros col pod f H Hp Hs. destruct pods; cbn in H; repeat (apply elem_of_cons in H as [->|H]); try done; try (by apply not_elem_of_nil in H);
      injection Hs as <- <-; by_decision.
  - exists "pod_0000-GPU", "pod_0000", "GPU". destruct pods; split_and!; by_decision || done.
  - intros col vs pod f H Hp Hs Hb. destruct pods; each_column H; try done; try (by repeat constructor);
      injection Hs as <- <-; exfalso; revert Hb; by_decision.
  - by_decision.
  - by right.
  - by eexists.
  - intros col vs pod H Hp Hs. destruct pods; each_column H; try done; (eexists; split; [done|done]).
  - intros pod H. destruct pods; cbn in H; repeat (apply elem_of_cons in H as [->|H]); try (by apply not_elem_of_nil in H);
      (eexists; split; [done|simpl; lia]).
  - intros col Hc vs H. destruct pods; each_column H; try (by repeat constructor); exfalso; revert Hc; by_decision.
  - intros f Hf. destruct pods; by apply list_elem_of_singleton in Hf as ->; by_decision.
Qed.

(** An earlier request, with other pods and features *)
Definition demo_calls : list (encode_call (F:=Q)) :=
  [(Row [("pod_0000-kv_hit_ratio", VInt 1); ("pod_0000-GPU", VStr "NVIDIA-A10")], ["pod_0000"], [], mkEncHyper [] (Some true) [("pod_0000", 1)])].

Lemma demo_calls_sorted : StronglySorted gpu_ids_kept (demo_calls.*2 ++ [demo_enc]).
Proof.
  repeat constructor. intros pod z H. simpl in *. case_decide; [|done]. injection H as <-. done.
Qed.

Lemma cached_encoder_refines_witness :
  (encode_for_inference (λ _, None) (λ _, EmptyString) (λ x, x) (λ x, x) (0 # 1)%Q (Row (row_at 0 (demo_cols true))) (demo_ids true) ["input_tokens"] demo_enc
     (after_calls (λ _, None) (λ _, EmptyString) (λ x, x) (λ x, x) (0 # 1)%Q demo_calls)).1 =
    (try* p := encode_spec (λ _, None) (λ _, EmptyString) (λ x, x) (λ x, x) (0 # 1)%Q (Row (row_at 0 (demo_cols true))) (demo_ids true) ["input_tokens"] demo_enc in
     Ret (tensors_of p)).
Proof. apply cached_encoder_refines, demo_calls_sorted. Defined.

Lemma training_serving_agree_witness :
  ∃ p, (prepare_for_encoding (λ _, None) (λ _, EmptyString) (λ x, x) (λ x, x) (0 # 1)%Q (Frame 2 (demo_cols true)) (demo_ids true) ["input_tokens"] demo_enc new_DataEncoder).1 = Ret p ∧
    ∀ i, (i < 2)%nat → ∃ t, (encode_for_inference (λ _, None) (λ _, EmptyString) (λ x, x) (λ x, x) (0 # 1)%Q (Row (row_at i (demo_cols true))) (demo_ids true) ["input_tokens"] demo_enc
        (after_calls (λ _, None) (λ _, EmptyString) (λ x, x) (λ x, x) (0 # 1)%Q demo_calls)).1 = Ret t ∧
      head (it_pod_features t) = p_pod_features p !! i ∧ head (it_kv_hit_ratios t) = p_kv_hit_ratios p !! i ∧
      head (it_request_features t) = p_request_features p !! i ∧ head (it_actions t) = p_actions p !! i ∧
      head (it_rewards t) = target p "reward" !! i.
Proof.
  apply training_serving_agree; [exact (demo_training_frame true)|by_decision|exact demo_calls_sorted].
Defined.

Lemma single_pod_batch_raises_witness :
  (prepare_for_encoding (λ _, None) (λ _, EmptyString) (λ x, x) (λ x, x) (0 # 1)%Q (Frame 2 (demo_cols false)) ["pod_0000"] ["input_tokens"] demo_enc new_DataEncoder).1 =
    Raise IndexError.
Proof. apply single_pod_batch_raises. exact (demo_training_frame false). Defined.

Lemma encoded_shapes_witness :
  ∃ p, (prepare_for_encoding (λ _, None) (λ _, EmptyString) (λ x, x) (λ x, x) (0 # 1)%Q (Frame 2 (demo_cols true)) (demo_ids true) ["input_tokens"] demo_enc new_DataEncoder).1 = Ret p ∧
    shape3 (p_pod_features p) 2 2 (length (p_pod_features_list p)) ∧ shape3 (p_kv_hit_ratios p) 2 2 1 ∧
    shape3 (p_positional_encodings p) 2 2 1 ∧ shape3 (p_interaction_features p) 2 2 1 ∧
    length (p_request_features p) = 2%nat ∧ Forall (λ r, length r = 1%nat) (p_request_features p) ∧
    length (p_actions p) = 2%nat ∧ Forall (λ a, 0 ≤ a < 2) (p_actions p) ∧
    Forall (λ e, length e.2 = 2%nat) (p_targets p) ∧ length (model_input_feature_names p) = expected_dim p.
Proof. apply (encoded_shapes _ _ _ _ _ 2 (demo_cols true) (demo_ids true) ["input_tokens"]); [exact (demo_training_frame true)|by_decision]. Defined.

Lemma names_label_columns_witness :
  ∃ p, (prepare_for_encoding (λ _, None) (λ _, EmptyString) (λ x, x) (λ x, x) (0 # 1)%Q (Frame 2 (demo_cols true)) (demo_ids true) ["input_tokens"] demo_enc new_DataEncoder).1 = Ret p ∧
    (∀ i k pod j f, (i < 2)%nat → demo_ids true !! k = Some pod → p_pod_features_list p !! j = Some f → f ∈ base_features_list →
       entry (p_pod_features p) i k j = Some (num_at (λ x, x) (0 # 1)%Q (demo_cols true) (pod_key pod f) i)) ∧
    (∀ i k pod j m s vs z, (i < 2)%nat → demo_ids true !! k = Some pod → p_pod_features_list p !! j = Some ("gpu_model_" +:+ pretty (m : nat)) →
       assoc (pod_key pod "GPU") (demo_cols true) = Some (VStr s :: vs) → assoc s GPU_MODEL_TO_ENCODE = Some z →
       entry (p_pod_features p) i k j = Some (if Z.of_nat m =? z then lit 1 else lit 0)).
Proof.
  apply names_label_columns; [exact (demo_training_frame true)|by_decision|repeat constructor].
Defined.

(** A frame whose second row has another GPU *)
Definition demo_moved : dict (list (value Q)) :=
  [("selected_pod", [VStr "pod_0000"; VStr "pod_0001"]); ("pod_0000-GPU", [VStr "NVIDIA-A10"; VStr "NVIDIA-A10"]);
   ("pod_0001-GPU", [VStr "GPU-L3c"; VStr "NVIDIA-A30"])].

Lemma batch_gpu_of_first_row_witness :
  (prepare_for_encoding (λ _, None) (λ _, EmptyString) (λ x, x) (λ x, x) (0 # 1)%Q (Frame 2 demo_moved) (demo_ids true) ["ttft"] demo_enc new_DataEncoder).1 =
    (prepare_for_encoding (λ _, None) (λ _, EmptyString) (λ x, x) (λ x, x) (0 # 1)%Q (Frame 2 (first_gpus demo_moved)) (demo_ids true) ["ttft"] demo_enc new_DataEncoder).1.
Proof. apply batch_gpu_of_first_row; [done|by repeat constructor]. Defined.

Definition demo_request (pods : bool) : request (F:=Q) :=
  mkRequest (if pods then ["10.0.0.1"; "10.0.0.2"] else ["10.0.0.2"], [], None, None)
            (Row [("pod_0000-kv_hit_ratio", VInt 1); ("pod_0000-waiting_requests", VInt 3)]) (demo_ids pods) [] [] (Some true).

Lemma served_requests_refine_witness :
  let s := serve (λ _, None) (λ _, EmptyString) (λ x, x) (λ x, x) (0 # 1)%Q (demo_request true)
             (serve_all (λ _, None) (λ _, EmptyString) (λ x, x) (λ x, x) (0 # 1)%Q [demo_request false]) in
  s.1 = (try* p := encode_spec (λ _, None) (λ _, EmptyString) (λ x, x) (λ x, x) (0 # 1)%Q (rq_table (demo_request true)) (rq_ids (demo_request true))
                     (rq_features (demo_request true)) (hyper_of s.2.1 (rq_excluded (demo_request true)) (rq_include (demo_request true))) in Ret (tensors_of p)).
Proof. apply served_requests_refine. refine (bool_decide_unpack _ _). vm_compute. exact I. Defined.
