(* ===== verification/RewardNet.v ===== *)
(** * The agent and its reward network

    Models the classes of
    [python/routing_agent_service/agent_codes/reward_predictor.py]: [RewardNetwork],
    which scores one pod for one request, and [RewardPredictor], the contextual bandit
    around it: the choice of a pod with its exploration methods, the update on a
    batch, the loss on held-out data, the activations for the replay buffer, and the
    files of the model. Numbers are exact rationals. What torch computes is the class
    [Torch] with its documented behaviour as [TorchLaws]; random draws (the units that
    dropout keeps, the exploration) are arguments. The attributes [batch_size],
    [update_frequency], [steps_since_update] and the entries [action_distribution],
    [exploration_count] and [exploitation_count] of the metrics, which nothing here
    changes or reads, are left out. *)

From stdpp Require Import pretty.
From S2P Require Import Prelude Num RunningStats.

Open Scope Z_scope.
Open Scope py_scope.

Abbreviation np2 := (list (list Q)).
Abbreviation np3 := (list (list (list Q))).

(** ** What torch provides *)

Record layer := mkLayer { in_features : nat; out_features : nat; weight : np2; bias : list Q }.

(** [self.scorer]: the linear layers at their places of the sequence of modules; ReLU
    is at 1, 4 and 7, dropout at 2 and 5. *)
Record scorer := mkScorer { scorer_0 : layer; scorer_3 : layer; scorer_6 : layer; scorer_8 : layer }.

Definition shape (l : layer) : nat * nat := (out_features l, in_features l).

Definition shapes (w : scorer) : list (nat * nat) :=
  [shape (scorer_0 w); shape (scorer_3 w); shape (scorer_6 w); shape (scorer_8 w)].

(** The shapes together with the numbers of rows of the weights and of biases *)
Definition layout (w : scorer) : list (nat * nat * nat * nat) :=
  (λ l, (shape l, length (weight l), length (bias l))) <$> [scorer_0 w; scorer_3 w; scorer_6 w; scorer_8 w].

Class Torch := {
  linear : layer → list Q → list Q;                     (* [nn.Linear] on one row *)
  relu : Q → Q;
  dropout : (nat → bool) → list Q → list Q;             (* while training, with the units that are kept *)
  xavier_uniform : Z → nat → nat → nat → np2;           (* by the seed and the place of the layer *)
  kaiming_uniform : Z → nat → nat → nat → np2;
  mse_loss : list Q → list Q → Q;
  tensor_mean : list Q → Q;
  load_state_dict : scorer → scorer → outcome unit * scorer;  (* the saved weights into a network *)
  adam : Type;
  new_adam : Q → Q → adam;                              (* learning rate, weight decay *)
  adam_lr : adam → Q;
  set_lr : Q → adam → adam;
  load_adam : adam → adam → outcome adam;
  backward : (scorer → Q) → scorer → np2;               (* the gradient of every parameter *)
  clip_and_step : np2 → adam → scorer → adam * scorer;  (* [clip_grad_norm_(1.0)], [optimizer.step()] *)
  exponential_step : Q → adam → adam;                   (* [ExponentialLR.step] by gamma *)
  plateau : Type;
  new_plateau : plateau;                                (* [ReduceLROnPlateau(min, factor=0.3, patience=2)] *)
  plateau_step : Q → plateau * adam → plateau * adam
}.

(** The documented behaviour the code relies on. *)
Class TorchLaws (T : Torch) : Prop := {
  linear_def l x : length x = in_features l → linear l x = zip_with (λ w b, (dot w x + b)%Q) (weight l) (bias l);
  relu_def x : relu x = if Qle_bool x 0 then 0%Q else x;
  dropout_def keep x : dropout keep x = imap (λ i v, if keep i then (v / (9 # 10))%Q else 0%Q) x;
  xavier_shape seed i o n : length (xavier_uniform seed i o n) = o;
  kaiming_shape seed i o n : length (kaiming_uniform seed i o n) = o;
  mse_def p r : length p = length r → mse_loss p r = tensor_mean (zip_with (λ a b, (a - b) * (a - b))%Q p r);
  tensor_mean_sum l : l ≠ [] → (tensor_mean l * inject_Z (py_len l) == Qsum l)%Q;
  load_same cur saved : shapes cur = shapes saved → load_state_dict cur saved = (Ret tt, saved);
  load_other cur saved : shapes cur ≠ shapes saved →
    (load_state_dict cur saved).1 = Raise RuntimeError ∧ layout (load_state_dict cur saved).2 = layout cur;
  load_adam_saved cur saved : load_adam cur saved = Ret saved;
  new_adam_lr lr wd : adam_lr (new_adam lr wd) = lr;
  set_lr_lr lr o : adam_lr (set_lr lr o) = lr;
  step_layout g o w : layout (clip_and_step g o w).2 = layout w;
  step_lr g o w : adam_lr (clip_and_step g o w).1 = adam_lr o;
  exponential_lr g o : (adam_lr (exponential_step g o) == adam_lr o * g)%Q;
  plateau_patient n m o : (n ≤ 3)%nat → adam_lr (Nat.iter n (plateau_step m) (new_plateau, o)).2 = adam_lr o
}.

(** Which units dropout keeps: by row, dropout layer and unit. *)
Abbreviation noise := (nat → nat → nat → bool).

(** ** Hyperparameters

    An entry that is missing from the dictionary is [None]. *)

Record hyper := mkHyper {
  model_seed : option Z;
  weight_initialization : option string;
  hidden_dim : option nat;
  learning_rate : option Q;
  weight_decay : option Q;
  lr_scheduler_type : option string;
  lr_scheduler_gamma : option Q;
  hp_exploration_method : option string;
  initial_epsilon : option Q;
  hp_epsilon_decay : option Q;
  hp_epsilon_min : option Q;
  hp_ucb_confidence : option Q;
  explore : option bool;
  RETURN_POD_PROBABILITIES : option Z;
  LOAD_PRETRAINED_MODEL : option bool;
  RETRAIN_AT_STARTUP : option bool;
  LOAD_METADATA_ON_INFER : option bool;
  test_split_ratio : option Q;
  training_epochs : option Z;
  hp_batch_size : option Z;
  ONLINE_TRAIN_FROM_SCRATCH : option bool;
  RESET_LR_PER_ROUND : option bool
}.

(** ** Metrics *)

(** The entries of [training_metrics] hold numbers, actions, pairs and triples of
    numbers, and tables of predictions. *)
Inductive metric_entry :=
| MNum (x : Q) | MAction (a : Z) | MPair (a b : Q) | MTriple (a b c : Q) | MTable (t : np2).

Abbreviation metrics := (list (string * list metric_entry)).

(** ** The network *)

Section network.
Context {T : Torch}.

Definition init_weight (method : string) (seed : Z) (place o n : nat) : np2 :=
  if String.eqb method "xavier" then xavier_uniform seed place o n
  else if String.eqb method "kaiming" then kaiming_uniform seed place o n
  else if String.eqb method "static" then replicate o (replicate n (1 # 10))
  else xavier_uniform seed place o n.

Definition init_layer (method : string) (seed : Z) (place o n : nat) : layer :=
  mkLayer n o (init_weight method seed place o n) (replicate o (1 # 100)).

Definition new_RewardNetwork (per_pod_context_dim hidden : nat) (method : string) (seed : Z) : scorer :=
  mkScorer (init_layer method seed 0 hidden per_pod_context_dim) (init_layer method seed 3 hidden hidden)
    (init_layer method seed 6 hidden hidden) (init_layer method seed 8 1 hidden).

(** A dropout module is the identity in evaluation mode. *)
Definition drop_units (training : bool) (keep : nat → bool) (x : list Q) : list Q :=
  if training then dropout keep x else x.

(** The outputs of the modules at 6 and 8 for one row. *)
Definition forward_row (w : scorer) (training : bool) (keep : nat → nat → bool) (x : list Q) : list Q * list Q :=
  let x := drop_units training (keep 0%nat) (relu <$> linear (scorer_0 w) x) in
  let x := drop_units training (keep 1%nat) (relu <$> linear (scorer_3 w) x) in
  let hidden := linear (scorer_6 w) x in
  (hidden, linear (scorer_8 w) (relu <$> hidden)).

Definition forward_both (w : scorer) (training : bool) (keep : noise) (context : np2) : outcome (list (list Q * list Q)) :=
  if forallb (λ x, (length x =? in_features (scorer_0 w))%nat) context
  then Ret (imap (λ i x, forward_row w training (keep i) x) context)
  else Raise RuntimeError.

(** [self.reward_net(context)] *)
Definition forward (w : scorer) (training : bool) (keep : noise) (context : np2) : outcome np2 :=
  try* rows := forward_both w training keep context in Ret rows.*2.

(** ** The agent *)

Record state_dims := mkDims { dim_pod_features : nat; dim_kv_hit_ratios : nat; dim_request_features : nat }.

Inductive lr_scheduler := ExponentialLR (gamma : Q) | ReduceLROnPlateau (p : plateau).

Definition new_metrics : metrics :=
  (λ k, (k, [])) <$>
  ["losses"; "eval_losses"; "rewards"; "epsilons"; "learning_rates"; "reward_latency_pairs";
   "reward_latency_input_tuples"; "ttft_values"; "tpot_values"; "predicted_rewards"; "actual_rewards";
   "selected_actions"; "all_predicted_rewards"; "greedy_actions"; "training_actions"; "counterfactual_gains";
   "input_tokens_per_sample"].

(** [self.training_metrics.get(k, [])] *)
Definition metric (k : string) (m : metrics) : list metric_entry := default [] (assoc k m).

(** [self.training_metrics[k].extend(xs)] *)
Definition extend_metric (k : string) (xs : list metric_entry) (m : metrics) : metrics := assoc_upd k (λ l, l ++ xs) m.

Definition extend_metrics (es : metrics) (m : metrics) : metrics := foldl (λ m e, extend_metric e.1 e.2 m) m es.

(** What [__init__] fixes *)
Record settings := mkSettings {
  state_dim : state_dims;
  action_dim : nat;
  hyperparameters : hyper;
  scheduler_type : string;
  exploration_method : string;
  epsilon_decay : Q;
  epsilon_min : Q;
  ucb_confidence : Q
}.

Record RewardPredictor := mkAgent {
  fixed : settings;
  reward_net : scorer;
  training : bool;                    (* the mode of the network *)
  optimizer : adam;
  scheduler : option lr_scheduler;
  gradient_norms : list Q;
  epsilon : Q;
  action_counts : list Q;
  total_steps : Z;
  training_metrics : metrics;
  last_epsilon_effective : option Q
}.

Definition set_mode (b : bool) (a : RewardPredictor) : RewardPredictor :=
  mkAgent (fixed a) (reward_net a) b (optimizer a) (scheduler a) (gradient_norms a) (epsilon a) (action_counts a)
    (total_steps a) (training_metrics a) (last_epsilon_effective a).

Definition set_model (w : scorer) (o : adam) (a : RewardPredictor) : RewardPredictor :=
  mkAgent (fixed a) w (training a) o (scheduler a) (gradient_norms a) (epsilon a) (action_counts a)
    (total_steps a) (training_metrics a) (last_epsilon_effective a).

Definition set_scheduler (s : option lr_scheduler) (o : adam) (a : RewardPredictor) : RewardPredictor :=
  mkAgent (fixed a) (reward_net a) (training a) o s (gradient_norms a) (epsilon a) (action_counts a)
    (total_steps a) (training_metrics a) (last_epsilon_effective a).

Definition add_gradient_norm (x : Q) (a : RewardPredictor) : RewardPredictor :=
  mkAgent (fixed a) (reward_net a) (training a) (optimizer a) (scheduler a) (gradient_norms a ++ [x]) (epsilon a)
    (action_counts a) (total_steps a) (training_metrics a) (last_epsilon_effective a).

Definition set_exploration (e : Q) (counts : list Q) (steps : Z) (a : RewardPredictor) : RewardPredictor :=
  mkAgent (fixed a) (reward_net a) (training a) (optimizer a) (scheduler a) (gradient_norms a) e counts
    steps (training_metrics a) (last_epsilon_effective a).

Definition set_last_epsilon (e : Q) (a : RewardPredictor) : RewardPredictor :=
  mkAgent (fixed a) (reward_net a) (training a) (optimizer a) (scheduler a) (gradient_norms a) (epsilon a) (action_counts a)
    (total_steps a) (training_metrics a) (Some e).

Definition on_metrics (f : metrics → metrics) (a : RewardPredictor) : RewardPredictor :=
  mkAgent (fixed a) (reward_net a) (training a) (optimizer a) (scheduler a) (gradient_norms a) (epsilon a) (action_counts a)
    (total_steps a) (f (training_metrics a)) (last_epsilon_effective a).

Definition per_pod_context_dim (d : state_dims) : nat :=
  dim_pod_features d + dim_kv_hit_ratios d + dim_request_features d.

Definition choose_scheduler (hp : hyper) : string * option lr_scheduler :=
  let type := default "constant" (lr_scheduler_type hp) in
  if String.eqb type "constant" then (type, None)
  else if String.eqb type "exponential" then (type, Some (ExponentialLR (default (95 # 100) (lr_scheduler_gamma hp))))
  else if String.eqb type "gradient_adaptive" then (type, Some (ReduceLROnPlateau new_plateau))
  else ("constant", None).

Definition new_RewardPredictor (d : state_dims) (n : nat) (hp : hyper) : RewardPredictor :=
  let net := new_RewardNetwork (per_pod_context_dim d) (default 128%nat (hidden_dim hp))
               (default "xavier" (weight_initialization hp)) (default 42 (model_seed hp)) in
  let '(type, sched) := choose_scheduler hp in
  mkAgent
    (mkSettings d n hp type (default "epsilon_greedy" (hp_exploration_method hp))
       (default (995 # 1000) (hp_epsilon_decay hp)) (default (5 # 100) (hp_epsilon_min hp)) (default 2%Q (hp_ucb_confidence hp)))
    net true (new_adam (default (1 # 10000) (learning_rate hp)) (default (1 # 100000) (weight_decay hp))) sched []
    (default (3 # 10) (initial_epsilon hp)) (replicate n 0%Q) 0 new_metrics None.

(** ** Contexts *)

(** Each row is the features of one pod, its hit ratio and the features of the request;
    [torch.cat] refuses tensors of other sizes, [reshape] one without elements. *)
Definition create_per_pod_contexts (pod_features kv_hit_ratios : np3) (request_features : np2) : outcome np2 :=
  if (length pod_features =? length kv_hit_ratios)%nat && (length pod_features =? length request_features)%nat &&
     forallb (λ pk : np2 * np2, (length pk.1 =? length pk.2)%nat) (zip pod_features kv_hit_ratios)
  then
    match concat (zip_with (λ (pk : np2 * np2) r, zip_with (λ p k, p ++ k ++ r) pk.1 pk.2)
                    (zip pod_features kv_hit_ratios) request_features) with
    | [] => Raise RuntimeError
    | contexts => Ret contexts
    end
  else Raise RuntimeError.

(** ** The choice of a pod *)

(** The random numbers of one call: of the dropout layers, and what [np.random.random],
    [randint] and [randn] return. *)
Record draws := mkDraws { dr_keep : noise; dr_random : Q; dr_randint : nat → nat; dr_randn : nat → list Q }.

Context {NP : Numpy Q} {SQ : Sqrt Q}.

Definition ucb_values (a : RewardPredictor) (rewards : list Q) : list Q :=
  let n := length rewards in
  let counts := if (n <=? length (action_counts a))%nat then take n (action_counts a) else replicate n 0%Q in
  zip_with (λ r c, r + np_sqrt (ucb_confidence (fixed a) * np_log (inject_Z (total_steps a + 1)) / (c + 1)))%Q rewards counts.

(** The action and whether it explored *)
Definition select_action (a : RewardPredictor) (d : draws) (evaluate : bool) (rewards : list Q) : outcome (nat * bool) :=
  let method := exploration_method (fixed a) in
  if evaluate || String.eqb method "greedy" then
    try* i := np_argmax rewards in Ret (i, false)
  else if String.eqb method "epsilon_greedy" then
    if negb (Qle_bool (epsilon a) (dr_random d)) then Ret (dr_randint d (length rewards), true)
    else try* i := np_argmax rewards in Ret (i, false)
  else if String.eqb method "ucb" then
    try* i := np_argmax (ucb_values a rewards) in Ret (i, false)
  else if String.eqb method "thompson_sampling" then
    try* i := np_argmax (zip_with (λ r z, r + z * epsilon a)%Q rewards (dr_randn d (length rewards))) in Ret (i, true)
  else Raise ValueError.

Definition choose_action (pod_features kv_hit_ratios : np3) (request_features : np2) (evaluate : bool) (d : draws) :
    M RewardPredictor (nat * list Q * bool) :=
  let* contexts := lift (create_per_pod_contexts pod_features kv_hit_ratios request_features) in
  let* a := get in
  let* rows := lift (forward (reward_net a) (training a) (dr_keep d) contexts) in
  let predicted_rewards := concat rows in
  let* choice := lift (select_action a d evaluate predicted_rewards) in
  modify (set_exploration (epsilon a) (alter (λ c, c + 1)%Q choice.1 (action_counts a)) (total_steps a + 1)) ;;
  modify (set_last_epsilon (epsilon a)) ;;
  ret (choice.1, predicted_rewards, choice.2).

(** ** Learning *)

(** [x.reshape(n, m)] of a vector *)
Definition reshape2 (n m : nat) (x : list Q) : outcome np2 :=
  if (length x =? n * m)%nat then Ret ((λ i, take m (drop (i * m) x)) <$> seq 0 n) else Raise RuntimeError.

(** [x.gather(1, actions.unsqueeze(1)).squeeze(1)] *)
Definition gather2_one (ra : list Q * Z) : outcome Q :=
  if ra.2 <? 0 then Raise RuntimeError
  else match ra.1 !! Z.to_nat ra.2 with Some v => Ret v | None => Raise RuntimeError end.

Definition gather2 (x : np2) (actions : list Z) : outcome (list Q) := omapM gather2_one (zip x actions).

(** Two vectors of one size, or one of them with a single element, which is repeated *)
Definition broadcast (x y : list Q) : outcome (list (Q * Q)) :=
  if (length x =? length y)%nat then Ret (zip x y)
  else match x, y with
       | [v], _ => Ret ((λ w, (v, w)) <$> y)
       | _, [w] => Ret ((λ v, (v, w)) <$> x)
       | _, _ => Raise RuntimeError
       end.

Record batch := mkBatch {
  b_pod_features : np3;
  b_kv_hit_ratios : np3;
  b_request_features : np2;
  b_actions : list Z;
  b_rewards : list Q;
  b_input_tokens : option (list Q);
  b_sample_weights : option (list Q)
}.

Definition batch_loss (predicted rewards : list Q) (sample_weights : option (list Q)) : outcome Q :=
  try* pairs := broadcast predicted rewards in
  match sample_weights with
  | Some sw =>
    try* weighted := broadcast ((λ pr : Q * Q, (pr.1 - pr.2) * (pr.1 - pr.2))%Q <$> pairs) sw in
    Ret (Qsum ((λ lw : Q * Q, lw.1 * lw.2)%Q <$> weighted) / Qsum sw)%Q
  | None => Ret (mse_loss pairs.*1 pairs.*2)
  end.

(** The predictions of a batch, those of its actions, and its loss *)
Definition evaluate_batch (w : scorer) (mode : bool) (keep : noise) (b : batch) : outcome (np2 * list Q * Q) :=
  try* contexts := create_per_pod_contexts (b_pod_features b) (b_kv_hit_ratios b) (b_request_features b) in
  try* flat := forward w mode keep contexts in
  try* predicted := reshape2 (length (b_actions b)) (length (default [] (head (b_pod_features b)))) (concat flat) in
  try* taken := gather2 predicted (b_actions b) in
  try* loss := batch_loss taken (b_rewards b) (b_sample_weights b) in
  Ret (predicted, taken, loss).

(** The loss as a function of the weights *)
Definition loss_at (mode : bool) (keep : noise) (b : batch) (w : scorer) : Q :=
  match evaluate_batch w mode keep b with Ret (_, _, l) => l | _ => 0%Q end.

Context (norm2 : list Q → Q).

(** The norm of all gradients together *)
Definition total_norm (grads : np2) : Q := np_sqrt (Qsum ((λ g, norm2 g * norm2 g)%Q <$> grads)).

(** Every tenth update is recorded in full. Nothing here raises for a batch whose loss
    was computed. *)
Definition record_off_policy (predicted : np2) (taken rewards : list Q) (actions : list Z) (tokens : list Q) (m : metrics) :
    outcome metrics :=
  try* greedy := omapM np_argmax predicted in
  try* best := gather2 predicted (Z.of_nat <$> greedy) in
  try* gains := broadcast best rewards in
  let m := extend_metrics
    [("predicted_rewards", MNum <$> taken); ("actual_rewards", MNum <$> rewards); ("selected_actions", MAction <$> actions);
     ("greedy_actions", MAction <$> (Z.of_nat <$> greedy)); ("training_actions", MAction <$> actions)] m in
  let m := if (length (metric "all_predicted_rewards" m) <? 500)%nat
           then extend_metric "all_predicted_rewards" [MTable predicted] m else m in
  Ret (extend_metrics
    [("counterfactual_gains", (λ g : Q * Q, MNum (g.1 - g.2)%Q) <$> gains); ("input_tokens_per_sample", MNum <$> tokens)] m).

Definition record_update (loss : Q) (b : batch) (predicted : np2) (taken : list Q) : M RewardPredictor unit :=
  let* a := get in
  let m := extend_metrics
    [("losses", [MNum loss]); ("rewards", [MNum (tensor_mean (b_rewards b))]); ("epsilons", [MNum (epsilon a)]);
     ("learning_rates", [MNum (adam_lr (optimizer a))])] (training_metrics a) in
  modify (on_metrics (λ _, m)) ;;
  if (length (metric "losses" m) mod 10 =? 0)%nat then
    let tokens := match b_input_tokens b with Some t => t | None => replicate (length (b_actions b)) (-1)%Q end in
    let* m' := lift (record_off_policy predicted taken (b_rewards b) (b_actions b) tokens m) in
    modify (on_metrics (λ _, m'))
  else ret tt.

(** The loss and the mean reward *)
Definition learn (keep : noise) (b : batch) : M RewardPredictor (Q * Q) :=
  match b_actions b with
  | [] => ret (0%Q, 0%Q)
  | _ =>
    let* a := get in
    let* r := lift (evaluate_batch (reward_net a) (training a) keep b) in
    let '(predicted, taken, loss) := r in
    let grads := backward (loss_at (training a) keep b) (reward_net a) in
    (if String.eqb (scheduler_type (fixed a)) "gradient_adaptive" then modify (add_gradient_norm (total_norm grads)) else ret tt) ;;
    let '(o, w) := clip_and_step grads (optimizer a) (reward_net a) in
    modify (set_model w o) ;;
    modify (set_exploration (py_max (epsilon_min (fixed a)) (epsilon a * epsilon_decay (fixed a))%Q) (action_counts a) (total_steps a)) ;;
    record_update loss b predicted taken ;;
    ret (loss, tensor_mean (b_rewards b))
  end.

(** The dropout layers are off while the loss is computed. *)
Definition evaluate_loss (b : batch) : M RewardPredictor Q :=
  match b_actions b with
  | [] => ret 0%Q
  | _ =>
    modify (set_mode false) ;;
    let* a := get in
    let* r := lift (evaluate_batch (reward_net a) (training a) (λ _ _ _, true) b) in
    modify (set_mode true) ;;
    ret r.2
  end.

(** ** Activations for the replay buffer *)

(** [range(0, n, step)] *)
Definition range_step (n step : nat) : list nat := (λ i, i * step)%nat <$> seq 0 (Nat.div (n + step - 1) step).

Definition extract_activations_and_predictions (contexts : np2) (batch_size : nat) : M RewardPredictor (np2 * list Q) :=
  modify (set_mode false) ;;
  let* a := get in
  let parts :=
    if (batch_size =? 0)%nat then Raise ValueError
    else omapM (λ start, forward_both (reward_net a) (training a) (λ _ _ _, true) (take batch_size (drop start contexts)))
           (range_step (length contexts) batch_size) in
  modify (set_mode true) ;;
  let* parts := lift parts in
  match parts with
  | [] => raise ValueError
  | _ => ret (concat ((λ p : list (list Q * list Q), p.*1) <$> parts), concat ((λ p : list (list Q * list Q), concat p.*2) <$> parts))
  end.

(** ** The files of a model *)

Record metadata := mkMetadata {
  md_state_dim : option state_dims;
  md_action_dim : option nat;
  md_per_pod_context_dim : option nat;
  md_hyperparameters : option hyper;
  md_epsilon : option Q;
  md_action_counts : option (list Q);
  md_total_steps : option Z;
  md_training_metrics : option metrics
}.

Inductive file := FNet (w : scorer) | FAdam (o : adam) | FMetadata (m : metadata).

Abbreviation files := (gmap string file).

Definition file_name (stem suffix extension : string) : string := stem +:+ suffix +:+ extension.

Definition metadata_of (a : RewardPredictor) : metadata :=
  mkMetadata (Some (state_dim (fixed a))) (Some (action_dim (fixed a)))
    (Some (per_pod_context_dim (state_dim (fixed a)))) (Some (hyperparameters (fixed a))) (Some (epsilon a))
    (Some (action_counts a)) (Some (total_steps a)) (Some (training_metrics a)).

(** Each file under its plain name and, for a round, under the name of its checkpoint *)
Definition save_as (stem extension : string) (num_trains : option Z) (f : file) (fs : files) : files :=
  let fs := <[file_name stem "" extension := f]> fs in
  match num_trains with
  | Some n => <[file_name stem ("-" +:+ pretty n) extension := f]> fs
  | None => fs
  end.

Definition save (num_trains : option Z) (a : RewardPredictor) (fs : files) : files :=
  save_as "metadata" ".pkl" num_trains (FMetadata (metadata_of a))
    (save_as "optimizer" ".pth" num_trains (FAdam (optimizer a))
       (save_as "reward_net" ".pth" num_trains (FNet (reward_net a)) fs)).

Definition off_policy_keys : list string :=
  ["counterfactual_gains"; "greedy_actions"; "training_actions"; "input_tokens_per_sample"].

(** Lists of different lengths are emptied. *)
Definition clear_mismatched (m : metrics) : metrics :=
  if forallb (λ k, (length (metric k m) =? length (metric "counterfactual_gains" m))%nat) off_policy_keys then m
  else foldl (λ m k, assoc_upd k (λ _, []) m) m off_policy_keys.

(** The learning rates are made as many as the losses. *)
Definition align_learning_rates (current_lr : Q) (m : metrics) : metrics :=
  let losses_len := length (metric "losses" m) in
  let lr_list := metric "learning_rates" m in
  if (losses_len =? 0)%nat then m
  else
    match lr_list with
    | [] => assoc_upd "learning_rates" (λ _, replicate losses_len (MNum current_lr)) m
    | pad_value :: _ =>
      if (length lr_list <? losses_len)%nat
      then assoc_upd "learning_rates" (λ _, replicate (losses_len - length lr_list) pad_value ++ lr_list) m
      else if (losses_len <? length lr_list)%nat then assoc_upd "learning_rates" (λ _, take losses_len lr_list) m
      else m
    end.

Definition merge_metrics (loaded m : metrics) : metrics :=
  (λ e : string * list metric_entry, (e.1, default e.2 (assoc e.1 loaded))) <$> m.

Definition load_metadata_of (md : metadata) : M RewardPredictor unit :=
  modify (λ a, set_exploration (default (epsilon a) (md_epsilon md)) (default (action_counts a) (md_action_counts md))
                 (default 0 (md_total_steps md)) a) ;;
  modify (on_metrics (λ m, clear_mismatched (merge_metrics (default [] (md_training_metrics md)) m))) ;;
  modify (λ a, on_metrics (align_learning_rates (adam_lr (optimizer a))) a).

Definition load_model (fs : files) (load_metadata : bool) : M RewardPredictor unit :=
  match fs !! file_name "reward_net" "" ".pth" with
  | None => ret tt
  | Some (FNet saved) =>
    let* a := get in
    let '(o, w) := load_state_dict (reward_net a) saved in
    modify (set_model w (optimizer a)) ;; lift o
  | Some _ => raise Exception_
  end ;;
  match fs !! file_name "optimizer" "" ".pth" with
  | Some (FAdam saved) =>
    let* a := get in
    match load_adam (optimizer a) saved with
    | Ret o => modify (set_model (reward_net a) o)
    | _ => ret tt
    end
  | _ => ret tt
  end ;;
  if load_metadata then
    match fs !! file_name "metadata" "" ".pkl" with
    | Some (FMetadata md) => load_metadata_of md
    | Some _ => raise Exception_
    | None => ret tt
    end
  else ret tt.

End network.

Abbreviation files := (gmap string file).

(** ** Lemmas: contexts *)

(** A tensor with [n] entries of [m] rows of width [k] *)
Definition tensor3 (x : np3) (n m k : nat) : Prop := length x = n ∧ Forall (λ s, length s = m ∧ Forall (λ r, length r = k) s) x.

Definition tensor2 (x : np2) (n k : nat) : Prop := length x = n ∧ Forall (λ r, length r = k) x.

(** The context of pod [j] for row [i] *)
Definition context_at (pf kv : np3) (rf : np2) (i j : nat) : option (list Q) :=
  p ← pf !! i; k ← kv !! i; r ← rf !! i; x ← p !! j; y ← k !! j; Some (x ++ y ++ r).

Lemma concat_lookup {A} (l : list (list A)) m i j :
  Forall (λ s, length s = m) l → (j < m)%nat → concat l !! (i * m + j)%nat = l !! i ≫= (.!! j).
Proof.
  intros Hl Hj. revert i. induction Hl as [|s l Hs Hl IH]; intros i; [done|]. destruct i as [|i]; simpl.
  - apply lookup_app_l. lia.
  - rewrite lookup_app_r by lia. rewrite <-IH. f_equal. lia.
Qed.

Lemma concat_length {A} (l : list (list A)) m : Forall (λ s, length s = m) l → length (concat l) = (length l * m)%nat.
Proof. induction 1 as [|s l Hs Hl IH]; [done|]. simpl. rewrite length_app, IH. lia. Qed.

Lemma contexts_spec pf kv rf b n f k r :
  tensor3 pf b n f → tensor3 kv b n k → tensor2 rf b r → (0 < b * n)%nat →
  ∃ c, create_per_pod_contexts pf kv rf = Ret c ∧ tensor2 c (b * n) (f + k + r) ∧
    ∀ i j, (j < n)%nat → c !! (i * n + j)%nat = context_at pf kv rf i j.
Proof.
  intros [Hp Hpf] [Hk Hkv] [Hr Hrf] Hpos. unfold create_per_pod_contexts. rewrite Hp, Hk, Hr, !Nat.eqb_refl. simpl.
  set (rows := zip_with (λ (pk : np2 * np2) r, zip_with (λ p k, p ++ k ++ r) pk.1 pk.2) (zip pf kv) rf).
  assert (∀ i p k' r', pf !! i = Some p → kv !! i = Some k' → rf !! i = Some r' →
    rows !! i = Some (zip_with (λ x y, x ++ y ++ r') p k')) as Hrow.
  { intros i p k' r' E1 E2 E3. unfold rows. rewrite lookup_zip_with, lookup_zip_with, E1, E2, E3. done. }
  assert (length rows = b) as Hlen.
  { unfold rows. rewrite length_zip_with, length_zip_with. lia. }
  assert (Forall (λ s, length s = n ∧ Forall (λ c, length c = f + k + r)%nat s) rows) as Hrows.
  { apply Forall_lookup. intros i s Hs. destruct (lookup_lt_is_Some_2 pf i) as [p E1]; [apply lookup_lt_Some in Hs; lia|].
    destruct (lookup_lt_is_Some_2 kv i) as [k' E2]; [apply lookup_lt_Some in Hs; lia|].
    destruct (lookup_lt_is_Some_2 rf i) as [r' E3]; [apply lookup_lt_Some in Hs; lia|].
    rewrite (Hrow _ _ _ _ E1 E2 E3) in Hs. injection Hs as <-.
    destruct (Forall_lookup_1 _ _ _ _ Hpf E1) as [Lp Wp]. destruct (Forall_lookup_1 _ _ _ _ Hkv E2) as [Lk Wk].
    pose proof (Forall_lookup_1 _ _ _ _ Hrf E3) as Wr. split; [rewrite length_zip_with; lia|].
    apply Forall_lookup. intros j c (x & y & -> & Hx & Hy)%lookup_zip_with_Some.
    rewrite !length_app, (Forall_lookup_1 _ _ _ _ Wp Hx), (Forall_lookup_1 _ _ _ _ Wk Hy), Wr. lia. }
  assert (Forall (λ s, length s = n) rows) as Hn by (eapply Forall_impl; [exact Hrows|]; by intros s [? _]).
  assert (length (concat rows) = (b * n)%nat) as Hc by (by rewrite (concat_length rows n), Hlen).
  assert (forallb (λ pk : np2 * np2, (length pk.1 =? length pk.2)%nat) (zip pf kv) = true) as ->.
  { apply Is_true_true_1, forallb_True, Forall_lookup. intros i [p k'] (E1 & E2)%lookup_zip_Some.
    destruct (Forall_lookup_1 _ _ _ _ Hpf E1) as [Lp _]. destruct (Forall_lookup_1 _ _ _ _ Hkv E2) as [Lk _].
    simpl. rewrite Lp, Lk, Nat.eqb_refl. done. }
  exists (concat rows). split_and!.
  - destruct (concat rows); [simpl in Hc; lia|done].
  - split; [done|]. apply Forall_concat. eapply Forall_impl; [exact Hrows|]. by intros s [_ ?].
  - intros i j Hj. rewrite (concat_lookup rows n) by done.
    unfold context_at, rows. rewrite lookup_zip_with, lookup_zip_with.
    destruct (pf !! i) as [p|]; [|done]. destruct (kv !! i) as [k'|]; [|done]. destruct (rf !! i) as [r'|]; [|done].
    simpl. rewrite lookup_zip_with. by destruct (p !! j), (k' !! j).
Qed.

(** ** Lemmas: the network *)

Section laws.
Context {T : Torch} {TL : TorchLaws T}.

Definition layer_wf (l : layer) : Prop := length (weight l) = out_features l ∧ length (bias l) = out_features l.

(** A network for contexts of width [d] with [h] hidden units *)
Record net_wf (d h : nat) (w : scorer) : Prop := mkNetWf {
  nw_shapes : shapes w = [(h, d); (h, h); (h, h); (1%nat, h)];
  nw_layers : Forall layer_wf [scorer_0 w; scorer_3 w; scorer_6 w; scorer_8 w]
}.

Lemma linear_length l x : layer_wf l → length x = in_features l → length (linear l x) = out_features l.
Proof. intros [Hw Hb] Hx. rewrite linear_def, length_zip_with by done. lia. Qed.

Lemma drop_units_length mode keep x : length (drop_units mode keep x) = length x.
Proof. destruct mode; [|done]. simpl. by rewrite dropout_def, length_imap. Qed.

Lemma forward_row_lengths d h w mode keep x :
  net_wf d h w → length x = d → length (forward_row w mode keep x).1 = h ∧ length (forward_row w mode keep x).2 = 1%nat.
Proof.
  intros [Hs Hl] Hx. unfold shapes, shape in Hs. injection Hs as O0 I0 O3 I3 O6 I6 O8 I8.
  apply Forall_cons in Hl as [W0 [W3 [W6 [W8 _]%Forall_cons]%Forall_cons]%Forall_cons].
  unfold forward_row. simpl.
  assert (∀ l y, layer_wf l → length y = in_features l → ∀ k, length (drop_units mode k (relu <$> linear l y)) = out_features l) as Hd.
  { intros l y Hw Hy k. by rewrite drop_units_length, length_fmap, linear_length. }
  assert (length (linear (scorer_6 w) (drop_units mode (keep 1%nat) (relu <$> linear (scorer_3 w)
    (drop_units mode (keep 0%nat) (relu <$> linear (scorer_0 w) x))))) = h) as H6.
  { rewrite linear_length; [done..|]. rewrite Hd; [congruence|done|]. rewrite Hd; congruence. }
  split; [done|]. rewrite linear_length; [done..|]. by rewrite length_fmap, H6.
Qed.

(** The reward predicted for one context *)
Definition score (w : scorer) (mode : bool) (keep : nat → nat → bool) (x : list Q) : Q :=
  default 0%Q (head (forward_row w mode keep x).2).

Lemma forward_row_score d h w mode keep x :
  net_wf d h w → length x = d → (forward_row w mode keep x).2 = [score w mode keep x].
Proof.
  intros Hw Hx. destruct (forward_row_lengths d h w mode keep x Hw Hx) as [_ H1]. unfold score.
  destruct (forward_row w mode keep x).2 as [|y [|]]; [done|done|simpl in H1; lia].
Qed.

Lemma forward_both_spec d h w mode keep c :
  net_wf d h w → Forall (λ x, length x = d) c →
  forward_both w mode keep c = Ret (imap (λ i x, forward_row w mode (keep i) x) c).
Proof.
  intros Hw Hc. unfold forward_both. assert (in_features (scorer_0 w) = d) as ->.
  { pose proof (nw_shapes _ _ _ Hw) as Hs. unfold shapes, shape in Hs. by injection Hs. }
  replace (forallb _ c) with true; [done|]. symmetry. apply Is_true_true_1, forallb_True.
  eapply Forall_impl; [exact Hc|]. intros x ->. by rewrite Nat.eqb_refl.
Qed.

Lemma imap_scores d h w mode (keep : noise) c :
  net_wf d h w → Forall (λ x, length x = d) c →
  concat (imap (λ i x, forward_row w mode (keep i) x) c).*2 = imap (λ i x, score w mode (keep i) x) c.
Proof.
  intros Hw Hc. revert keep. induction Hc as [|x c Hx Hc IH]; intros keep; [done|].
  rewrite !imap_cons. rewrite fmap_cons. cbn [concat]. rewrite (forward_row_score d h) by done. cbn [app]. f_equal. apply (IH (λ i, keep (S i))).
Qed.

Lemma forward_spec d h w mode keep c :
  net_wf d h w → Forall (λ x, length x = d) c →
  ∃ rows, forward w mode keep c = Ret rows ∧ concat rows = imap (λ i x, score w mode (keep i) x) c.
Proof.
  intros Hw Hc. unfold forward. rewrite (forward_both_spec d h) by done. eexists. split; [done|]. by apply (imap_scores d h).
Qed.

Lemma new_net_wf d h method seed : net_wf d h (new_RewardNetwork d h method seed).
Proof.
  split; [done|]. repeat constructor; simpl; try apply length_replicate; unfold init_weight;
    repeat case_match; rewrite ?xavier_shape, ?kaiming_shape, ?length_replicate; done.
Qed.

Lemma layout_net_wf d h w w' : layout w' = layout w → net_wf d h w → net_wf d h w'.
Proof.
  intros Hl [Hs Hw]. unfold layout, shape in Hl. injection Hl as O0 I0 A0 B0 O3 I3 A3 B3 O6 I6 A6 B6 O8 I8 A8 B8.
  apply Forall_cons in Hw as [[] [[] [[] [[] _]%Forall_cons]%Forall_cons]%Forall_cons]. split; [|repeat constructor; unfold layer_wf; congruence].
  rewrite <-Hs. unfold shapes, shape. congruence.
Qed.

Lemma step_net_wf d h g o w : net_wf d h w → net_wf d h (clip_and_step g o w).2.
Proof. apply layout_net_wf, step_layout. Qed.

(** ** Lemmas: metrics *)

Lemma metric_upd k k' f (m : metrics) :
  k' ∈ m.*1 → metric k (assoc_upd k' f m) = if String.eqb k k' then f (metric k m) else metric k m.
Proof.
  intros Hk. unfold metric. destruct (String.eqb_spec k k') as [->|Hne].
  - destruct (assoc_Some k' m Hk) as [v Hv]. by rewrite (assoc_upd_eq _ _ _ v), Hv.
  - by rewrite assoc_upd_ne.
Qed.

Lemma extend_keys es (m : metrics) : (extend_metrics es m).*1 = m.*1.
Proof. revert m. induction es as [|e es IH]; intros m; [done|]. simpl. rewrite IH. apply assoc_upd_keys. Qed.

(** The lists that every update extends have one length, and so have those of every
    tenth update; at most 500 tables are kept. *)
Definition mlen (m : metrics) (k : string) : nat := length (metric k m).

(** How much the extensions add to the list of a key *)
Definition added (k : string) (es : metrics) : nat :=
  foldr (λ e n, (if String.eqb k e.1 then length e.2 else 0) + n)%nat 0%nat es.

Lemma extend_len es (m : metrics) k : Forall (λ e, e.1 ∈ m.*1) es → mlen (extend_metrics es m) k = (mlen m k + added k es)%nat.
Proof.
  revert m. induction es as [|e es IH]; intros m Hes; [simpl; lia|]. apply Forall_cons in Hes as [He Hes].
  cbn [extend_metrics foldl added foldr]. fold (extend_metrics es (extend_metric e.1 e.2 m)) (added k es). rewrite IH.
  - unfold mlen, extend_metric. rewrite metric_upd by done. case_match; rewrite ?length_app; lia.
  - unfold extend_metric. by rewrite assoc_upd_keys.
Qed.

Definition update_keys : list string := ["losses"; "rewards"; "epsilons"; "learning_rates"].

Definition sampled_keys : list string :=
  ["predicted_rewards"; "actual_rewards"; "selected_actions"; "greedy_actions"; "training_actions";
   "counterfactual_gains"; "input_tokens_per_sample"].

Record metrics_ok (m : metrics) : Prop := mkMetricsOk {
  mo_keys : m.*1 = new_metrics.*1;
  mo_update : Forall (λ k, mlen m k = mlen m "losses") update_keys;
  mo_sampled : Forall (λ k, mlen m k = mlen m "counterfactual_gains") sampled_keys;
  mo_tables : (mlen m "all_predicted_rewards" ≤ 500)%nat
}.

Lemma new_metrics_ok : metrics_ok new_metrics.
Proof. split; [done|by repeat constructor..|unfold mlen; simpl; lia]. Qed.

(** ** Lemmas: the choice *)

Record agent_ok (a : RewardPredictor) : Prop := mkAgentOk {
  ao_net : ∃ h, net_wf (per_pod_context_dim (state_dim (fixed a))) h (reward_net a);
  ao_metrics : metrics_ok (training_metrics a)
}.

(** The tensors of one request for [n] pods *)
Definition request_ok (d : state_dims) (n : nat) (pf kv : np3) (rf : np2) : Prop :=
  tensor3 pf 1 n (dim_pod_features d) ∧ tensor3 kv 1 n (dim_kv_hit_ratios d) ∧ tensor2 rf 1 (dim_request_features d) ∧ (0 < n)%nat.

Definition draws_ok (n : nat) (d : draws) : Prop := (dr_randint d n < n)%nat ∧ length (dr_randn d n) = n.

Definition known_methods : list string := ["greedy"; "epsilon_greedy"; "ucb"; "thompson_sampling"].

(** No value of the list is greater than the one at [i]. *)
Definition greatest_at (i : nat) (l : list Q) : Prop := ∃ v, l !! i = Some v ∧ ∀ j x, l !! j = Some x → (x <= v)%Q.

Context {NP : Numpy Q} {SQ : Sqrt Q}.

Lemma argmax_in l : l ≠ [] → ∃ i, np_argmax l = Ret i ∧ (i < length l)%nat ∧ greatest_at i l.
Proof. intros Hl. destruct (np_argmax_spec l Hl) as (i & v & -> & Hi & Hm). exists i. split_and!; [done|by eapply lookup_lt_Some|by exists v]. Qed.

Lemma ucb_length a rewards : length (ucb_values a rewards) = length rewards.
Proof.
  unfold ucb_values. rewrite length_zip_with. case_match eqn:E; [|rewrite length_replicate; lia].
  rewrite length_take. apply Nat.leb_le in E. lia.
Qed.

Lemma select_action_ok a d evaluate rewards :
  rewards ≠ [] → exploration_method (fixed a) ∈ known_methods → draws_ok (length rewards) d →
  ∃ i e, select_action a d evaluate rewards = Ret (i, e) ∧ (i < length rewards)%nat ∧
    (evaluate = true ∨ exploration_method (fixed a) = "greedy" ∨ (exploration_method (fixed a) = "epsilon_greedy" ∧ (epsilon a <= dr_random d)%Q) →
       greatest_at i rewards ∧ e = false).
Proof.
  intros Hr Hm [Hi Hn]. unfold select_action. destruct (argmax_in rewards Hr) as (g & Eg & Lg & Mg). rewrite Eg. simpl.
  destruct evaluate; simpl; [by exists g, false|].
  unfold known_methods in Hm. repeat (apply elem_of_cons in Hm as [->|Hm]; simpl); [| | | |by apply not_elem_of_nil in Hm].
  - by exists g, false.
  - destruct (Qle_bool_spec (epsilon a) (dr_random d)) as [H|H]; simpl; [by exists g, false|].
    eexists _, true. split_and!; [done..|]. intros [[=]|[[=]|[_ ?]]]. lra.
  - destruct (argmax_in (ucb_values a rewards)) as (u & -> & Lu & _).
    { intros E. pose proof (ucb_length a rewards) as Hl. rewrite E in Hl. by destruct rewards. }
    rewrite ucb_length in Lu. exists u, false. split_and!; [done..|]. naive_solver.
  - set (l := zip_with _ _ _). assert (length l = length rewards) as Hl by (unfold l; rewrite length_zip_with; lia).
    destruct (argmax_in l) as (u & -> & Lu & _); [by destruct l, rewards|]. exists u, true. split_and!; [done|lia|]. naive_solver.
Qed.

(** The agent after it chose pod [i] *)
Definition after_choice (i : nat) (a : RewardPredictor) : RewardPredictor :=
  set_last_epsilon (epsilon a)
    (set_exploration (epsilon a) (alter (λ c, c + 1)%Q i (action_counts a)) (total_steps a + 1) a).

(** The rewards predicted for the pods of a request *)
Definition predictions (a : RewardPredictor) (keep : noise) (pf kv : np3) (rf : np2) (n : nat) : list Q :=
  (λ j, score (reward_net a) (training a) (keep j) (default [] (context_at pf kv rf 0 j))) <$> seq 0 n.

Lemma predictions_length a keep pf kv rf n : length (predictions a keep pf kv rf n) = n.
Proof. unfold predictions. by rewrite length_fmap, length_seq. Qed.

Lemma predictions_lookup a keep pf kv rf n j x :
  (j < n)%nat → context_at pf kv rf 0 j = Some x →
  predictions a keep pf kv rf n !! j = Some (score (reward_net a) (training a) (keep j) x).
Proof. intros Hj Hx. unfold predictions. rewrite list_lookup_fmap, lookup_seq_lt by done. simpl. by rewrite Hx. Qed.

Lemma predictions_spec a keep pf kv rf n c :
  length c = n → (∀ j, (j < n)%nat → c !! j = context_at pf kv rf 0 j) →
  imap (λ i x, score (reward_net a) (training a) (keep i) x) c = predictions a keep pf kv rf n.
Proof.
  intros <- Hc. apply list_eq. intros j. rewrite list_lookup_imap. destruct (c !! j) as [x|] eqn:E.
  - pose proof (lookup_lt_Some _ _ _ E) as Hj. rewrite (predictions_lookup _ _ _ _ _ _ j x); [done..|]. by rewrite <-Hc.
  - symmetry. apply lookup_ge_None. rewrite predictions_length. by apply lookup_ge_None.
Qed.

Lemma choose_action_runs a d evaluate pf kv rf n :
  agent_ok a → request_ok (state_dim (fixed a)) n pf kv rf → exploration_method (fixed a) ∈ known_methods → draws_ok n d →
  length (predictions a (dr_keep d) pf kv rf n) = n ∧
  ∃ i e, choose_action pf kv rf evaluate d a = (Ret (i, predictions a (dr_keep d) pf kv rf n, e), after_choice i a) ∧ (i < n)%nat ∧
    (evaluate = true ∨ exploration_method (fixed a) = "greedy" ∨ (exploration_method (fixed a) = "epsilon_greedy" ∧ (epsilon a <= dr_random d)%Q) →
       greatest_at i (predictions a (dr_keep d) pf kv rf n) ∧ e = false).
Proof.
  intros Ha (Hp & Hk & Hr & Hn) Hm Hd. destruct (ao_net a Ha) as [h Hw].
  destruct (contexts_spec pf kv rf 1 n _ _ _ Hp Hk Hr) as (c & Ec & [Lc Wc] & Hc); [lia|]. rewrite Nat.mul_1_l in Lc.
  destruct (forward_spec _ h (reward_net a) (training a) (dr_keep d) c Hw Wc) as (rows & Er & Es).
  rewrite (predictions_spec a (dr_keep d) pf kv rf n c) in Es; [|done|intros j Hj; by rewrite <-(Hc 0%nat j)].
  pose proof (predictions_length a (dr_keep d) pf kv rf n) as Hlen.
  split; [done|].
  destruct (select_action_ok a d evaluate (predictions a (dr_keep d) pf kv rf n)) as (i & e & Ei & Li & Mi);
    [by destruct (predictions _ _ _ _ _ _); [simpl in Hlen; lia|]|done|by rewrite Hlen|].
  exists i, e. split; [|rewrite Hlen in Li; by split].
  unfold choose_action. rewrite Ec. py_unfold. rewrite Er, Es, Ei. done.
Qed.

End laws.

Section learning.
Context {T : Torch} {TL : TorchLaws T} {NP : Numpy Q} {SQ : Sqrt Q}.

(** Extensions under keys the metrics have *)
Definition known_keys (es : metrics) : bool := forallb (λ e, bool_decide (e.1 ∈ new_metrics.*1)) es.

Lemma known_len es m k : metrics_ok m → known_keys es = true → mlen (extend_metrics es m) k = (mlen m k + added k es)%nat.
Proof.
  intros Hm Hes. apply extend_len. apply Is_true_true_2, forallb_True in Hes. eapply Forall_impl; [exact Hes|].
  intros e He. rewrite (mo_keys _ Hm). by apply bool_decide_unpack in He.
Qed.

(** Extensions that add as much to every key of a group *)
Lemma extend_ok es m :
  metrics_ok m → known_keys es = true → Forall (λ k, added k es = added "losses" es) update_keys →
  Forall (λ k, added k es = added "counterfactual_gains" es) sampled_keys →
  (mlen m "all_predicted_rewards" + added "all_predicted_rewards" es ≤ 500)%nat → metrics_ok (extend_metrics es m).
Proof.
  intros Hm Hes Hu' Hs' Ht'. pose proof Hm as [Hk Hu Hs _]. rewrite Forall_forall in Hu, Hu', Hs, Hs'.
  split; [by rewrite extend_keys| | |by rewrite known_len].
  - apply Forall_forall. intros k Hin. by rewrite !known_len, Hu, Hu' by done.
  - apply Forall_forall. intros k Hin. by rewrite !known_len, Hs, Hs' by done.
Qed.

Lemma extend_extend es1 es2 (m : metrics) : extend_metrics es2 (extend_metrics es1 m) = extend_metrics (es1 ++ es2) m.
Proof. unfold extend_metrics. by rewrite foldl_app. Qed.

(** A batch for [n] pods: one action among the pods, one reward and, where given, one
    count of tokens and one weight for every row *)
Record batch_ok (d : state_dims) (n : nat) (b : batch) : Prop := mkBatchOk {
  bo_pods : (0 < n)%nat;
  bo_pf : tensor3 (b_pod_features b) (length (b_actions b)) n (dim_pod_features d);
  bo_kv : tensor3 (b_kv_hit_ratios b) (length (b_actions b)) n (dim_kv_hit_ratios d);
  bo_rf : tensor2 (b_request_features b) (length (b_actions b)) (dim_request_features d);
  bo_actions : Forall (λ x, 0 ≤ x < Z.of_nat n) (b_actions b);
  bo_rewards : length (b_rewards b) = length (b_actions b);
  bo_tokens : ∀ t, b_input_tokens b = Some t → length t = length (b_actions b);
  bo_weights : ∀ w, b_sample_weights b = Some w → length w = length (b_actions b)
}.

Lemma reshape2_spec n m x : length x = (n * m)%nat → ∃ rows, reshape2 n m x = Ret rows ∧ tensor2 rows n m.
Proof.
  intros Hx. unfold reshape2. rewrite Hx, Nat.eqb_refl. eexists. split; [done|]. split; [by rewrite length_fmap, length_seq|].
  apply Forall_fmap, Forall_forall. intros i Hi%elem_of_seq. simpl. rewrite length_take, length_drop, Hx. nia.
Qed.

Lemma gather2_spec x n (actions : list Z) :
  tensor2 x (length actions) n → Forall (λ a, 0 ≤ a < Z.of_nat n) actions →
  ∃ r, gather2 x actions = Ret r ∧ length r = length actions.
Proof.
  intros [Hl Hx] Ha. unfold gather2. destruct (omapM_total gather2_one (zip x actions)) as (r & E & _); [|exists r; split; [exact E|]].
  - apply Forall_lookup. intros i [row z] (Hrow & Hz)%lookup_zip_Some.
    pose proof (Forall_lookup_1 _ _ _ _ Hx Hrow) as Hn. pose proof (Forall_lookup_1 _ _ _ _ Ha Hz) as Hb. unfold gather2_one. simpl in *.
    destruct (Z.ltb_spec z 0); [lia|]. destruct (lookup_lt_is_Some_2 row (Z.to_nat z)) as [v ->]; [lia|]. by exists v.
  - apply omapM_length in E. rewrite E, length_zip_with. lia.
Qed.

Lemma broadcast_same x y : length x = length y → broadcast x y = Ret (zip x y).
Proof. intros H. unfold broadcast. by rewrite H, Nat.eqb_refl. Qed.

Lemma batch_loss_ok p r sw :
  length p = length r → (∀ w, sw = Some w → length w = length r) → ∃ l, batch_loss p r sw = Ret l.
Proof.
  intros Hp Hw. unfold batch_loss. rewrite broadcast_same by done. simpl. destruct sw as [w|]; [|by eexists].
  rewrite broadcast_same; [by eexists|]. rewrite length_fmap, length_zip_with, (Hw w) by done. lia.
Qed.

Lemma evaluate_batch_runs d h n w mode keep b :
  net_wf (per_pod_context_dim d) h w → batch_ok d n b → b_actions b ≠ [] →
  ∃ p t l, evaluate_batch w mode keep b = Ret (p, t, l) ∧ tensor2 p (length (b_actions b)) n ∧ length t = length (b_actions b).
Proof.
  intros Hw Hb Hne. assert (0 < length (b_actions b))%nat as Hm by (destruct (b_actions b); [done|simpl; lia]).
  destruct (contexts_spec _ _ _ _ _ _ _ _ (bo_pf _ _ _ Hb) (bo_kv _ _ _ Hb) (bo_rf _ _ _ Hb)) as (c & Ec & [Lc Wc] & _);
    [pose proof (bo_pods _ _ _ Hb); nia|].
  destruct (forward_spec _ h w mode keep c Hw Wc) as (rows & Er & Es). unfold evaluate_batch. rewrite Ec. simpl. rewrite Er. simpl.
  assert (length (default [] (head (b_pod_features b))) = n) as ->.
  { destruct (bo_pf _ _ _ Hb) as [Lp Hp]. destruct (b_pod_features b) as [|s pf]; [simpl in Lp; lia|]. by apply Forall_cons in Hp as [[? _] _]. }
  destruct (reshape2_spec (length (b_actions b)) n (concat rows)) as (p & -> & Hp); [by rewrite Es, length_imap|]. simpl.
  destruct (gather2_spec p n (b_actions b) Hp (bo_actions _ _ _ Hb)) as (t & -> & Ht). simpl.
  destruct (batch_loss_ok t (b_rewards b) (b_sample_weights b)) as [l ->].
  { by rewrite Ht, (bo_rewards _ _ _ Hb). }
  { intros sw Hsw. by rewrite (bo_weights _ _ _ Hb sw Hsw), (bo_rewards _ _ _ Hb). }
  simpl. by exists p, t, l.
Qed.

Lemma greedy_spec p m n : tensor2 p m n → (0 < n)%nat → ∃ g, omapM np_argmax p = Ret g ∧ length g = m ∧ Forall (λ i, (i < n)%nat) g.
Proof.
  intros [Hl Hp] Hn. destruct (omapM_total np_argmax p) as (g & Eg & Hg).
  { eapply Forall_impl; [exact Hp|]. intros row Hrow. destruct (argmax_in row) as (i & Ei & _); [by destruct row; [simpl in Hrow; lia|]|by exists i]. }
  exists g. split_and!; [done|by rewrite (omapM_length _ _ _ Eg)|]. apply Forall_lookup. intros i j Hj.
  destruct (Forall2_lookup_r _ _ _ _ _ Hg Hj) as (row & Hrow & Ei). pose proof (Forall_lookup_1 _ _ _ _ Hp Hrow) as Hr.
  destruct (argmax_in row) as (j' & Ej & Lj & _); [by destruct row; [simpl in Hr; lia|]|]. rewrite Ej in Ei. injection Ei as ->. simpl in Hr. lia.
Qed.

Lemma record_off_policy_ok p t rewards actions tokens n m :
  metrics_ok m → tensor2 p (length actions) n → (0 < n)%nat → length t = length actions → length rewards = length actions →
  length tokens = length actions →
  ∃ m', record_off_policy p t rewards actions tokens m = Ret m' ∧ metrics_ok m' ∧ mlen m' "losses" = mlen m "losses" ∧
    mlen m' "eval_losses" = mlen m "eval_losses".
Proof.
  intros Hm Hp Hn Lt Lr Ltok. destruct (greedy_spec p _ n Hp Hn) as (g & Eg & Lg & Hg).
  destruct (gather2_spec p n (Z.of_nat <$> g)) as (best & Eb & Lb).
  { by rewrite length_fmap, Lg. }
  { apply Forall_fmap. eapply Forall_impl; [exact Hg|]. intros i Hi. unfold compose. cbv beta in *. lia. }
  rewrite length_fmap in Lb. unfold record_off_policy. rewrite Eg. cbn [obind]. rewrite Eb. cbn [obind].
  rewrite broadcast_same by lia. cbn [obind].
  match goal with |- context [extend_metrics ?e m] => set (es1 := e) end. set (m1 := extend_metrics es1 m).
  match goal with |- context [Ret (extend_metrics ?e _)] => set (es2 := e) end.
  set (es := es1 ++ (if (length (metric "all_predicted_rewards" m1) <? 500)%nat then [("all_predicted_rewards", [MTable p])] else []) ++ es2).
  exists (extend_metrics es m). split; [unfold es; rewrite <-!extend_extend; fold m1; by case_match|].
  assert (length (zip best rewards) = length actions) as Hz by (rewrite length_zip_with; lia).
  assert (mlen m1 "all_predicted_rewards" = mlen m "all_predicted_rewards") as Hm1 by (unfold m1; rewrite known_len by done; simpl; lia).
  assert (known_keys es = true) as Hkn by (unfold es; by case_match).
  split; [|rewrite !known_len by done; unfold es; split; case_match; simpl; lia].
  apply extend_ok; [done|done| | |].
  - unfold es. case_match; by repeat constructor.
  - unfold es. case_match; repeat constructor; simpl; rewrite ?length_fmap; lia.
  - pose proof (mo_tables _ Hm). unfold es, mlen in *. case_match eqn:E; simpl; [apply Nat.ltb_lt in E|]; lia.
Qed.

(** What an update leaves of the agent, and what it changes *)
Record updated (a a' : RewardPredictor) : Prop := mkUpdated {
  up_fixed : fixed a' = fixed a;
  up_mode : training a' = training a;
  up_lr : adam_lr (optimizer a') = adam_lr (optimizer a);
  up_scheduler : scheduler a' = scheduler a;
  up_epsilon : epsilon a' = py_max (epsilon_min (fixed a)) (epsilon a * epsilon_decay (fixed a))%Q;
  up_counts : action_counts a' = action_counts a;
  up_steps : total_steps a' = total_steps a;
  up_losses : mlen (training_metrics a') "losses" = S (mlen (training_metrics a) "losses");
  up_eval : mlen (training_metrics a') "eval_losses" = mlen (training_metrics a) "eval_losses";
  up_net : ∀ d h, net_wf d h (reward_net a) → net_wf d h (reward_net a')
}.

Lemma record_update_runs loss b p t n a :
  metrics_ok (training_metrics a) → tensor2 p (length (b_actions b)) n → (0 < n)%nat → length t = length (b_actions b) →
  length (b_rewards b) = length (b_actions b) → (∀ tok, b_input_tokens b = Some tok → length tok = length (b_actions b)) →
  ∃ m, record_update loss b p t a = (Ret tt, on_metrics (λ _, m) a) ∧ metrics_ok m ∧ mlen m "losses" = S (mlen (training_metrics a) "losses") ∧
    mlen m "eval_losses" = mlen (training_metrics a) "eval_losses".
Proof.
  intros Hm Hp Hn Lt Lr Htok. unfold record_update. rewrite bind_get.
  match goal with |- context [extend_metrics ?e _] => set (es := e) end. set (m1 := extend_metrics es (training_metrics a)).
  assert (metrics_ok m1) as Hm1.
  { apply extend_ok; [done|done|by repeat constructor..|]. pose proof (mo_tables _ Hm). simpl. lia. }
  assert (mlen m1 "losses" = S (mlen (training_metrics a) "losses")) as Hl by (unfold m1; rewrite known_len by done; simpl; lia).
  assert (mlen m1 "eval_losses" = mlen (training_metrics a) "eval_losses") as Hev by (unfold m1; rewrite known_len by done; simpl; lia).
  unfold bind at 1. cbn [modify]. case_match; [|by exists m1].
  set (tokens := match b_input_tokens b with Some _ => _ | None => _ end).
  destruct (record_off_policy_ok p t (b_rewards b) (b_actions b) tokens n m1) as (m' & Em & Hm' & Hl' & Hev'); try done.
  { unfold tokens. destruct (b_input_tokens b) as [tok|]; [by apply Htok|apply length_replicate]. }
  exists m'. unfold bind, lift. rewrite Em. split_and!; [done|done|congruence|congruence].
Qed.

Lemma learn_runs norm2 keep b n a :
  agent_ok a → batch_ok (state_dim (fixed a)) n b → b_actions b ≠ [] →
  ∃ loss a', learn norm2 keep b a = (Ret (loss, tensor_mean (b_rewards b)), a') ∧ agent_ok a' ∧ updated a a'.
Proof.
  intros Ha Hb Hne. destruct (ao_net a Ha) as [h Hw].
  destruct (evaluate_batch_runs _ h n (reward_net a) (training a) keep b Hw Hb Hne) as (p & t & l & E & Hp & Ht).
  unfold learn. destruct (b_actions b) as [|z zs] eqn:Ez; [done|]. rewrite <-Ez in *. rewrite bind_get. unfold bind at 1. unfold lift at 1. rewrite E.
  set (grads := backward _ _). pose proof (step_net_wf _ h grads (optimizer a) (reward_net a) Hw) as Hw'.
  pose proof (step_lr grads (optimizer a) (reward_net a)) as Hlr.
  destruct (clip_and_step grads _ _) as [o w] eqn:Es. simpl in Hw', Hlr.
  set (norms := if String.eqb (scheduler_type (fixed a)) "gradient_adaptive" then modify _ else ret tt).
  assert (∃ a1, norms a = (Ret tt, a1) ∧ fixed a1 = fixed a ∧ training a1 = training a ∧ scheduler a1 = scheduler a ∧
    training_metrics a1 = training_metrics a) as (a1 & En & F1 & T1 & S1 & M1) by (unfold norms; case_match; by eexists).
  unfold bind at 1. rewrite En. unfold bind at 1. cbn [modify]. unfold bind at 1. cbn [modify]. set (a2 := set_exploration _ _ _ _).
  destruct (record_update_runs l b p t n a2) as (m & Em & Hm & Hl & Hev); try done.
  { unfold a2. simpl. rewrite M1. apply (ao_metrics a Ha). }
  { by apply (bo_pods _ _ _ Hb). } { by apply (bo_rewards _ _ _ Hb). } { by apply (bo_tokens _ _ _ Hb). }
  unfold bind. rewrite Em. eexists l, (on_metrics (λ _, m) a2). split; [done|]. split.
  - split; simpl; [rewrite F1; by exists h|done].
  - simpl in Hl, Hev. rewrite M1 in Hl, Hev. split; simpl; try done.
    intros d' h'. replace w with (clip_and_step grads (optimizer a) (reward_net a)).2 by (by rewrite Es). apply step_net_wf.
Qed.

(** ** Lemmas: evaluation and activations *)

Lemma evaluate_loss_runs b n a :
  agent_ok a → batch_ok (state_dim (fixed a)) n b → training a = true → ∃ l, evaluate_loss b a = (Ret l, a).
Proof.
  intros Ha Hb Ht. unfold evaluate_loss. destruct (b_actions b) as [|z zs] eqn:Ez; [by eexists|]. destruct (ao_net a Ha) as [h Hw].
  destruct (evaluate_batch_runs _ h n (reward_net a) false (λ _ _ _, true) b Hw Hb) as (p & t & l & E & _); [by rewrite Ez|].
  exists l. unfold bind, modify, get, lift, ret. simpl. rewrite E. simpl. f_equal. unfold set_mode. simpl. rewrite <-Ht. by destruct a.
Qed.

(** Cutting a list into parts of one size and putting them together again *)
Lemma chunks_take {A} (l : list A) b k : concat ((λ i, take b (drop (i * b) l)) <$> seq 0 k) = take (k * b) l.
Proof.
  induction k as [|k IH]; [done|]. rewrite seq_S, fmap_app, concat_app, IH. csimpl. rewrite app_nil_r.
  pose proof (take_drop_adjacent l 0 (k * b) b) as H. rewrite drop_0 in H. simpl in H. rewrite H. f_equal. lia.
Qed.

Lemma chunks_all {A} (l : list A) b : (0 < b)%nat → concat ((λ s, take b (drop s l)) <$> range_step (length l) b) = l.
Proof.
  intros Hb. unfold range_step. rewrite <-list_fmap_compose. unfold compose. rewrite chunks_take. apply take_ge.
  pose proof (Nat.div_mod (length l + b - 1) b ltac:(lia)). pose proof (Nat.mod_upper_bound (length l + b - 1) b ltac:(lia)). nia.
Qed.

Lemma fmap_concat {A B} (f : A → B) (l : list (list A)) : f <$> concat l = concat ((λ x : list A, f <$> x) <$> l).
Proof. induction l as [|x l IH]; [done|]. csimpl. by rewrite fmap_app, IH. Qed.

(** The output of the network for a context, without dropout *)
Definition run_row (w : scorer) (x : list Q) : list Q * list Q := forward_row w false (λ _ _, true) x.

Lemma forward_both_eval d h w c :
  net_wf d h w → Forall (λ x, length x = d) c → forward_both w false (λ _ _ _, true) c = Ret (run_row w <$> c).
Proof. intros Hw Hc. rewrite (forward_both_spec d h) by done. f_equal. apply imap_const. Qed.

Lemma extract_runs c batch_size d a :
  agent_ok a → training a = true → d = per_pod_context_dim (state_dim (fixed a)) → Forall (λ x, length x = d) c → c ≠ [] → (0 < batch_size)%nat →
  extract_activations_and_predictions c batch_size a =
    (Ret ((λ x, (run_row (reward_net a) x).1) <$> c, (λ x, default 0%Q (head (run_row (reward_net a) x).2)) <$> c), a).
Proof.
  intros Ha Ht -> Hc Hne Hb. destruct (ao_net a Ha) as [h Hw]. unfold extract_activations_and_predictions.
  unfold bind, modify, get, lift, ret. simpl. rewrite (proj2 (Nat.eqb_neq batch_size 0)) by lia.
  rewrite (omapM_Ret _ (λ s, run_row (reward_net a) <$> take batch_size (drop s c))).
  2: { apply Forall_forall. intros s _. apply (forward_both_eval _ h _ _ Hw). by apply Forall_take, Forall_drop. }
  set (parts := (λ s, run_row (reward_net a) <$> take batch_size (drop s c)) <$> range_step (length c) batch_size).
  assert (concat parts = run_row (reward_net a) <$> c) as Hp.
  { unfold parts. rewrite <-(chunks_all c batch_size Hb) at 2. by rewrite fmap_concat, <-list_fmap_compose. }
  destruct parts as [|p ps] eqn:Ep; [by destruct c|].
  change (set_mode true (set_mode false a)) with (set_mode true a).
  assert (set_mode true a = a) as -> by (unfold set_mode; rewrite <-Ht; by destruct a). f_equal. f_equal. f_equal.
  - rewrite <-fmap_concat, Hp. rewrite <-list_fmap_compose. done.
  - trans (concat (concat (p :: ps)).*2); [rewrite fmap_concat|].
    + generalize (p :: ps). intros l. induction l as [|q l IH]; [done|]. csimpl. by rewrite concat_app, IH.
    + rewrite Hp. clear -Hc Hw TL. induction Hc as [|x c Hx Hc IH]; [done|]. rewrite !fmap_cons. cbn [concat]. rewrite IH.
      unfold run_row at 1. by rewrite (forward_row_score _ h _ _ _ _ Hw Hx).
Qed.

(** ** Lemmas: the files *)

(** The three files of a model under their plain names *)
Definition model_files (fs : files) (w : scorer) (o : adam) (md : metadata) : Prop :=
  fs !! file_name "reward_net" "" ".pth" = Some (FNet w) ∧ fs !! file_name "optimizer" "" ".pth" = Some (FAdam o) ∧
  fs !! file_name "metadata" "" ".pkl" = Some (FMetadata md).

Lemma save_as_eq stem ext nt f (fs : files) : String.prefix "-" ext = false → save_as stem ext nt f fs !! file_name stem "" ext = Some f.
Proof.
  intros Hx. unfold save_as. destruct nt as [n|]; [|apply lookup_insert_eq]. rewrite lookup_insert_ne; [apply lookup_insert_eq|].
  unfold file_name. intros H%append_inj_l. rewrite append_cons in H. destruct ext as [|c ext]; [done|]. injection H as <- _. by destruct ext.
Qed.

Lemma save_as_ne stem ext nt f (fs : files) stem' ext' :
  (∀ s, file_name stem s ext ≠ file_name stem' "" ext') → save_as stem ext nt f fs !! file_name stem' "" ext' = fs !! file_name stem' "" ext'.
Proof. intros Hne. unfold save_as. destruct nt as [n|]; by rewrite !lookup_insert_ne. Qed.

Lemma save_files nt a fs : model_files (save nt a fs) (reward_net a) (optimizer a) (metadata_of a).
Proof.
  unfold save. split_and!.
  - rewrite !save_as_ne by (unfold file_name; by intros). by apply save_as_eq.
  - rewrite save_as_ne by (unfold file_name; by intros). by apply save_as_eq.
  - by apply save_as_eq.
Qed.

Lemma load_weights_runs fs w o md b a :
  model_files fs w o md → shapes (reward_net a) = shapes w →
  load_model fs b a = (if b then load_metadata_of md else ret tt) (set_model w o a).
Proof.
  intros (Hn & Ho & Hm) Hs. unfold load_model. rewrite Hn, Ho, Hm. unfold bind at 1. rewrite bind_get, load_same by done.
  unfold bind, modify, lift, get. simpl. rewrite load_adam_saved. done.
Qed.

Lemma merge_keys (l m : metrics) : (merge_metrics l m).*1 = m.*1.
Proof. unfold merge_metrics. rewrite <-list_fmap_compose. by apply list_fmap_ext. Qed.

Lemma merge_same (l m : metrics) : NoDup m.*1 → l.*1 = m.*1 → merge_metrics l m = l.
Proof.
  intros Hnd Hk. unfold merge_metrics. apply list_eq. intros i. rewrite list_lookup_fmap.
  destruct (m !! i) as [[k v]|] eqn:E.
  - destruct (lookup_lt_is_Some_2 l i) as [[k' v'] E'].
    { apply lookup_lt_Some in E. apply (f_equal length) in Hk. rewrite !length_fmap in Hk. lia. }
    assert (k' = k) as ->.
    { assert (l.*1 !! i = m.*1 !! i) as H by by rewrite Hk. rewrite !list_lookup_fmap, E, E' in H. by injection H. }
    rewrite E'. simpl. rewrite (assoc_elem_of k v' l); [done|by rewrite Hk|by eapply list_elem_of_lookup_2].
  - symmetry. apply lookup_ge_None. apply lookup_ge_None in E. apply (f_equal length) in Hk. rewrite !length_fmap in Hk. lia.
Qed.

Lemma clear_matching (m : metrics) : metrics_ok m → clear_mismatched m = m.
Proof.
  intros [_ _ Hs _]. unfold clear_mismatched. replace (forallb _ _) with true; [done|]. symmetry. rewrite Forall_forall in Hs.
  apply Is_true_true_1, forallb_True, Forall_forall. intros k Hk. unfold mlen in Hs. rewrite (Hs k); [by rewrite Nat.eqb_refl|].
  unfold off_policy_keys, sampled_keys in *. set_solver.
Qed.

Lemma align_aligned lr (m : metrics) : metrics_ok m → align_learning_rates lr m = m.
Proof.
  intros [_ Hu _ _]. unfold align_learning_rates. unfold update_keys, mlen in Hu. rewrite !Forall_cons in Hu. destruct Hu as (_ & _ & _ & Hl & _).
  case_match eqn:E0; [done|]. apply Nat.eqb_neq in E0. destruct (metric "learning_rates" m) eqn:E; [simpl in Hl; lia|]. rewrite <-E, Hl in *.
  by rewrite Nat.ltb_irrefl.
Qed.

Lemma load_metadata_runs (s a : RewardPredictor) :
  metrics_ok (training_metrics s) → metrics_ok (training_metrics a) →
  load_metadata_of (metadata_of s) a =
    (Ret tt, on_metrics (λ _, training_metrics s) (set_exploration (epsilon s) (action_counts s) (total_steps s) a)).
Proof.
  intros Hs Ha. unfold load_metadata_of, bind, modify. simpl. f_equal. unfold on_metrics. simpl. rewrite merge_same.
  - by rewrite clear_matching, align_aligned.
  - rewrite (mo_keys _ Ha). by apply (bool_decide_unpack _).
  - by rewrite (mo_keys _ Ha), (mo_keys _ Hs).
Qed.

Lemma cleared_len (m : metrics) k :
  m.*1 = new_metrics.*1 → k ∈ off_policy_keys → mlen (clear_mismatched m) k = mlen (clear_mismatched m) "counterfactual_gains".
Proof.
  intros Hk Hin. unfold clear_mismatched. destruct (forallb _ _) eqn:E.
  - apply Is_true_true_2, forallb_True in E. rewrite Forall_forall in E. specialize (E k Hin). simpl in E. by apply Is_true_true_1, Nat.eqb_eq in E.
  - assert (∀ k', k' ∈ off_policy_keys → metric k' (foldl (λ m k, assoc_upd k (λ _, []) m) m off_policy_keys) = []) as H.
    { intros k' Hk'. unfold off_policy_keys in *. simpl. rewrite !metric_upd by (rewrite ?assoc_upd_keys, Hk; by apply (bool_decide_unpack _)).
      repeat (apply elem_of_cons in Hk' as [->|Hk']; [done|]). by apply not_elem_of_nil in Hk'. }
    unfold mlen. rewrite !H; [done|unfold off_policy_keys; set_solver|done].
Qed.

Lemma clear_keys (m : metrics) : (clear_mismatched m).*1 = m.*1.
Proof. unfold clear_mismatched. case_match; [done|]. unfold off_policy_keys. simpl. by rewrite !assoc_upd_keys. Qed.

Lemma align_spec lr (m : metrics) :
  m.*1 = new_metrics.*1 →
  (align_learning_rates lr m).*1 = new_metrics.*1 ∧ (∀ k, k ≠ "learning_rates" → metric k (align_learning_rates lr m) = metric k m) ∧
  ((0 < mlen m "losses")%nat → mlen (align_learning_rates lr m) "learning_rates" = mlen m "losses").
Proof.
  intros Hk. unfold align_learning_rates, mlen. destruct (Nat.eqb_spec (length (metric "losses" m)) 0) as [->|Hn]; [split_and!; [done|done|lia]|].
  assert (∀ f k, metric k (assoc_upd "learning_rates" f m) = if String.eqb k "learning_rates" then f (metric k m) else metric k m) as Hupd.
  { intros f k. apply metric_upd. rewrite Hk. by apply (bool_decide_unpack _). }
  assert (∀ f, (assoc_upd "learning_rates" f m).*1 = new_metrics.*1 ∧
    ∀ k, k ≠ "learning_rates" → metric k (assoc_upd "learning_rates" f m) = metric k m) as Hother.
  { intros f. split; [by rewrite assoc_upd_keys|]. intros k Hne. rewrite Hupd. by destruct (String.eqb_spec k "learning_rates"). }
  destruct (metric "learning_rates" m) as [|x l] eqn:E; [|rewrite <-E in *; destruct (Nat.ltb_spec (length (metric "learning_rates" m)) (length (metric "losses" m)));
    [|destruct (Nat.ltb_spec (length (metric "losses" m)) (length (metric "learning_rates" m)))]].
  - destruct (Hother (λ _, replicate (length (metric "losses" m)) (MNum lr))) as [H1 H2]. split_and!; [done..|]. intros _. rewrite Hupd. apply length_replicate.
  - set (f := λ _ : list metric_entry, _). destruct (Hother f) as [H1 H2]. split_and!; [done..|]. intros _. rewrite Hupd. unfold f. simpl.
    rewrite length_app, length_replicate. lia.
  - set (f := λ _ : list metric_entry, _). destruct (Hother f) as [H1 H2]. split_and!; [done..|]. intros _. rewrite Hupd. unfold f. simpl.
    rewrite length_take. lia.
  - split_and!; [done..|lia].
Qed.

(** ** Lemmas: the decay of exploration *)

(** [e] multiplied [n] times by the decay *)
Definition decayed (d : Q) (n : nat) (e : Q) : Q := Nat.iter n (λ x, x * d)%Q e.

Lemma decayed_S d n e : decayed d (S n) e = decayed d n (e * d)%Q.
Proof. induction n as [|n IH]; [done|]. change (decayed d (S (S n)) e) with (decayed d (S n) e * d)%Q. by rewrite IH. Qed.

Lemma decayed_le d n x y : (0 <= d)%Q → (x <= y)%Q → (decayed d n x <= decayed d n y)%Q.
Proof. intros Hd Hxy. induction n as [|n IH]; [done|]. simpl. by apply Qmult_le_compat_r. Qed.

Lemma decayed_small d n x : (0 <= d)%Q → (d <= 1)%Q → (0 <= x)%Q → (0 <= decayed d n x)%Q ∧ (decayed d n x <= x)%Q.
Proof. intros H0 H1 Hx. induction n as [|n [IH0 IH]]; [split; [done|apply Qle_refl]|]. simpl. fold (decayed d n x). nra. Qed.

Lemma py_max_Q (a b : Q) : (py_max a b == Qmax a b)%Q.
Proof.
  unfold py_max. simpl. destruct (Qle_bool_spec b a) as [H|H]; simpl; [by rewrite Q.max_l|by rewrite Q.max_r by lra].
Qed.

Lemma decayed_proper d n x y : (x == y)%Q → (decayed d n x == decayed d n y)%Q.
Proof. intros H. induction n as [|n IH]; [done|]. simpl. fold (decayed d n x) (decayed d n y). by rewrite IH. Qed.

Lemma decayed_floor d n lo y :
  (0 <= d)%Q → (d <= 1)%Q → (0 <= lo)%Q → (Qmax lo (decayed d n (Qmax lo y)) == Qmax lo (decayed d n y))%Q.
Proof.
  intros H0 H1 Hlo. destruct (Q.max_spec lo y) as [[Hy E]|[Hy E]].
  - by rewrite (decayed_proper d n _ _ E).
  - rewrite (decayed_proper d n _ _ E). destruct (decayed_small d n lo H0 H1 Hlo) as [_ Hs]. pose proof (decayed_le d n y lo H0 Hy) as Hl.
    rewrite !Q.max_l by lra. done.
Qed.

(** The updates of a list of batches, one after the other *)
Definition learn_all (norm2 : list Q → Q) (bs : list (noise * batch)) : M RewardPredictor unit :=
  for_each bs (λ kb, learn norm2 kb.1 kb.2 ;; ret tt).

Lemma learn_all_runs norm2 bs a :
  agent_ok a → Forall (λ kb : noise * batch, (∃ n, batch_ok (state_dim (fixed a)) n kb.2) ∧ b_actions kb.2 ≠ []) bs →
  ∃ a', learn_all norm2 bs a = (Ret tt, a') ∧ agent_ok a' ∧ fixed a' = fixed a ∧ training a' = training a ∧
    adam_lr (optimizer a') = adam_lr (optimizer a) ∧
    mlen (training_metrics a') "losses" = (mlen (training_metrics a) "losses" + length bs)%nat ∧
    ((0 <= epsilon_min (fixed a))%Q → (0 <= epsilon_decay (fixed a) <= 1)%Q → bs ≠ [] →
       (epsilon a' == Qmax (epsilon_min (fixed a)) (decayed (epsilon_decay (fixed a)) (length bs) (epsilon a)))%Q).
Proof.
  intros Ha Hbs. revert a Ha Hbs. induction bs as [|[k b] bs IH]; intros a Ha Hbs.
  { exists a. split_and!; [done..|simpl; lia|done]. }
  apply Forall_cons in Hbs as [[[n Hb] Hne] Hbs]. simpl in Hb, Hne.
  destruct (learn_runs norm2 k b n a Ha Hb Hne) as (loss & a1 & E & Ha1 & Hu). pose proof Hu as [Hf Hmode Hlr _ He _ _ Hl _ _].
  destruct (IH a1 Ha1) as (a' & E' & Ha' & Hf' & Hm' & Hlr' & Hl' & He'); [by rewrite Hf|].
  exists a'. split_and!; [|done|congruence|congruence|congruence| |].
  - unfold learn_all in *. simpl. unfold bind at 1. unfold bind at 1. by rewrite E.
  - simpl. lia.
  - intros Hlo [H0 H1] _. simpl length. rewrite decayed_S. rewrite Hf in He'.
    assert (epsilon a1 == Qmax (epsilon_min (fixed a)) (epsilon a * epsilon_decay (fixed a)))%Q as Hq by (rewrite He; apply py_max_Q).
    destruct bs as [|kb bs]; [by injection E' as <-|].
    rewrite He' by done. rewrite (decayed_proper _ _ _ _ Hq). by apply decayed_floor.
Qed.

End learning.

Lemma new_agent_ok {T : Torch} {TL : TorchLaws T} d n hp : agent_ok (new_RewardPredictor d n hp).
Proof.
  unfold new_RewardPredictor. destruct (choose_scheduler hp) as [type sched].
  split; simpl; [eexists; apply new_net_wf|apply new_metrics_ok].
Qed.

(** ** Properties *)

Section properties.
Context {T : Torch} {TL : TorchLaws T} {NP : Numpy Q} {SQ : Sqrt Q}.

(** On a request for any number of pods, also another number than the agent was made for,
    every exploration method answers: with the reward the network gives to each pod's own
    context, an index of a pod, and, when it does not explore, an index of greatest
    predicted reward. The call counts one step and one choice and leaves the network alone. *)
Theorem choose_action_correct a d evaluate pf kv rf n :
  agent_ok a → request_ok (state_dim (fixed a)) n pf kv rf → exploration_method (fixed a) ∈ known_methods → draws_ok n d →
  ∃ i e, let rewards := predictions a (dr_keep d) pf kv rf n in
    choose_action pf kv rf evaluate d a = (Ret (i, rewards, e), after_choice i a) ∧ (i < n)%nat ∧ length rewards = n ∧
    (∀ j x, (j < n)%nat → context_at pf kv rf 0 j = Some x →
       rewards !! j = Some (score (reward_net a) (training a) (dr_keep d j) x)) ∧
    (evaluate = true ∨ exploration_method (fixed a) = "greedy" ∨
     (exploration_method (fixed a) = "epsilon_greedy" ∧ (epsilon a <= dr_random d)%Q) → greatest_at i rewards ∧ e = false).
Proof.
  intros Ha Hr Hm Hd. destruct (choose_action_runs a d evaluate pf kv rf n Ha Hr Hm Hd) as (Hlen & i & e & E & Hi & Hg).
  exists i, e. split_and!; [done..| |done]. intros j x Hj Hx. by apply predictions_lookup.
Qed.

(** C21: However many batches it learns from, and however many pods they have, every update of
    the agent returns; the lists of its metrics stay of one length (those of every update, those
    of every tenth), at most 500 tables of predictions are kept, the learning rate is left
    to the scheduler, and the exploration rate is the first one decayed as often as
    there were updates, but not below its minimum. *)
Theorem learning_correct norm2 bs a :
  agent_ok a → Forall (λ kb : noise * batch, (∃ n, batch_ok (state_dim (fixed a)) n kb.2) ∧ b_actions kb.2 ≠ []) bs →
  ∃ a', learn_all norm2 bs a = (Ret tt, a') ∧ agent_ok a' ∧ adam_lr (optimizer a') = adam_lr (optimizer a) ∧
    mlen (training_metrics a') "losses" = (mlen (training_metrics a) "losses" + length bs)%nat ∧
    ((0 <= epsilon_min (fixed a))%Q → (0 <= epsilon_decay (fixed a) <= 1)%Q → bs ≠ [] →
       (epsilon a' == Qmax (epsilon_min (fixed a)) (decayed (epsilon_decay (fixed a)) (length bs) (epsilon a)))%Q).
Proof. intros Ha Hbs. destruct (learn_all_runs norm2 bs a Ha Hbs) as (a' & E & H1 & _ & _ & H2 & H3 & H4). by exists a'. Qed.

(** The activations for the replay buffer do not depend on the size of the batches they are
    computed in, and the agent is left as it was; but what the hook on the module at 6 reads is
    the hidden layer before its ReLU: the prediction of a row is the last layer applied
    to the positive part of its activations. *)
Theorem activations_before_relu c batch_size a :
  agent_ok a → training a = true → Forall (λ x, length x = per_pod_context_dim (state_dim (fixed a))) c → c ≠ [] → (0 < batch_size)%nat →
  ∃ acts preds, extract_activations_and_predictions c batch_size a = (Ret (acts, preds), a) ∧
    length acts = length c ∧ length preds = length c ∧
    (∀ i x, c !! i = Some x → acts !! i = Some (run_row (reward_net a) x).1) ∧
    preds = (λ h, default 0%Q (head (linear (scorer_8 (reward_net a)) ((λ v, if Qle_bool v 0 then 0%Q else v) <$> h)))) <$> acts.
Proof.
  intros Ha Ht Hc Hne Hb. eexists _, _. split; [by apply (extract_runs c batch_size _ a Ha Ht eq_refl)|].
  rewrite !length_fmap. split_and!; [done..| |].
  - intros i x Hi. by rewrite list_lookup_fmap, Hi.
  - rewrite <-list_fmap_compose. apply list_fmap_ext. intros i x _. unfold compose, run_row, forward_row. simpl.
    f_equal. f_equal. f_equal. apply list_fmap_ext. intros j v _. apply relu_def.
Qed.

(** C23: A model that is saved, under any round and over whatever the directory held, and loaded
    into another agent of the same dimensions gives that agent the weights, the state of the
    optimizer, the exploration state and the metrics of the saved one, and so the same
    predictions; without the metadata only the weights and the optimizer are taken over. *)
Theorem save_load_roundtrip num_trains fs s a :
  agent_ok s → agent_ok a → shapes (reward_net a) = shapes (reward_net s) →
  load_model (save num_trains s fs) true a =
    (Ret tt, on_metrics (λ _, training_metrics s)
               (set_exploration (epsilon s) (action_counts s) (total_steps s) (set_model (reward_net s) (optimizer s) a))) ∧
  load_model (save num_trains s fs) false a = (Ret tt, set_model (reward_net s) (optimizer s) a).
Proof.
  intros Hs Ha Hsh. pose proof (save_files num_trains s fs) as Hf. split.
  - rewrite (load_weights_runs _ _ _ _ true a Hf Hsh). apply load_metadata_runs; [exact (ao_metrics s Hs)|exact (ao_metrics a Ha)].
  - by rewrite (load_weights_runs _ _ _ _ false a Hf Hsh).
Qed.

(** Whatever metrics a metadata file has, loading it leaves the agent with all its keys, the
    lists of the off-policy evaluation of one length, and one learning rate per loss. *)
Theorem load_repairs_metrics md a :
  (training_metrics a).*1 = new_metrics.*1 →
  ∃ a', load_metadata_of md a = (Ret tt, a') ∧ (training_metrics a').*1 = new_metrics.*1 ∧
    (∀ k, k ∈ off_policy_keys → mlen (training_metrics a') k = mlen (training_metrics a') "counterfactual_gains") ∧
    ((0 < mlen (training_metrics a') "losses")%nat →
       mlen (training_metrics a') "learning_rates" = mlen (training_metrics a') "losses").
Proof.
  intros Hk. eexists. split; [done|]. simpl. set (m := clear_mismatched _). set (lr := adam_lr _).
  assert (m.*1 = new_metrics.*1) as Hm.
  { unfold m. by rewrite clear_keys, merge_keys. }
  destruct (align_spec lr m Hm) as (H1 & H2 & H3). split_and!; [done| |].
  - intros k Hin. unfold mlen. rewrite !H2.
    + apply cleared_len; [by rewrite merge_keys|done].
    + done.
    + intros ->. apply (bool_decide_pack _) in Hin. by vm_compute in Hin.
  - unfold mlen in *. by rewrite (H2 "losses").
Qed.

End properties.

(** ** A concrete instance of torch

    An optimizer that only lowers the last bias, and a scheduler that waits for three
    values without improvement. *)

Definition demo_step (w : scorer) : scorer :=
  let l := scorer_8 w in
  mkScorer (scorer_0 w) (scorer_3 w) (scorer_6 w)
    (mkLayer (in_features l) (out_features l) (weight l) ((λ b, b - (1 # 100))%Q <$> bias l)).

Definition demo_plateau_step (m : Q) (po : (option Q * nat) * Q) : (option Q * nat) * Q :=
  let '((best, bad), lr) := po in
  match best with
  | None => ((Some m, 0%nat), lr)
  | Some b =>
    if negb (Qle_bool (b * (9999 # 10000)) m) then ((Some m, 0%nat), lr)
    else if (2 <=? bad)%nat then ((Some b, 0%nat), lr * (3 # 10))%Q
    else ((Some b, S bad), lr)
  end.

#[export] Instance demo_torch : Torch := {|
  linear l x := zip_with (λ w b, (dot w x + b)%Q) (weight l) (bias l);
  relu x := if Qle_bool x 0 then 0%Q else x;
  dropout keep x := imap (λ i v, if keep i then (v / (9 # 10))%Q else 0%Q) x;
  xavier_uniform _ _ o n := replicate o (replicate n (1 # 2)%Q);
  kaiming_uniform _ _ o n := replicate o (replicate n (1 # 3)%Q);
  tensor_mean l := (Qsum l / inject_Z (py_len l))%Q;
  mse_loss p r := let l := zip_with (λ a b, (a - b) * (a - b))%Q p r in (Qsum l / inject_Z (py_len l))%Q;
  load_state_dict cur saved := if decide (shapes cur = shapes saved) then (Ret tt, saved) else (Raise RuntimeError, cur);
  adam := Q;
  new_adam lr _ := lr;
  adam_lr lr := lr;
  set_lr lr _ := lr;
  load_adam _ saved := Ret saved;
  backward _ _ := [];
  clip_and_step _ o w := (o, demo_step w);
  exponential_step g o := (o * g)%Q;
  plateau := option Q * nat;
  new_plateau := (None, 0%nat);
  plateau_step := demo_plateau_step
|}.

#[export] Instance demo_torch_laws : TorchLaws demo_torch.
Proof.
  split; simpl; try done.
  - intros. apply length_replicate.
  - intros. apply length_replicate.
  - intros l Hl. assert (¬ inject_Z (py_len l) == 0)%Q; [|by field].
    unfold Qeq, inject_Z, py_len. simpl. destruct l; [done|simpl; lia].
  - intros cur saved Hs. by rewrite decide_True.
  - intros cur saved Hs. by rewrite decide_False.
  - intros _ _ w. unfold layout. simpl. by rewrite length_fmap.
  - intros [|[|[|[|n]]]] m o Hn; [done|done| | |lia];
    destruct (Qle_bool (m * (9999 # 10000)) m) eqn:E; unfold demo_plateau_step; simpl; rewrite E; simpl; rewrite ?E; done.
Qed.

#[export] Instance demo_agent_sqrt : Sqrt Q := λ x, x.

Definition demo_hyper : hyper :=
  mkHyper None (Some "static") (Some 2%nat) None None None None None None None None None None None None None None None None None None None.

Definition demo_dims : state_dims := mkDims 1 1 1.

Definition demo_agent : RewardPredictor := new_RewardPredictor demo_dims 2 demo_hyper.

(** Three pods for an agent that was made for two *)
Definition demo_pf : np3 := [[[1%Q]; [2%Q]; [0%Q]]].
Definition demo_kv : np3 := [[[0%Q]; [1%Q]; [0%Q]]].
Definition demo_rf : np2 := [[1%Q]].

Definition demo_draws : draws := mkDraws (λ _ _ _, true) (1 # 2) (λ _, 0%nat) (λ n, replicate n 0%Q).

Definition demo_batch : batch := mkBatch (demo_pf ++ demo_pf) (demo_kv ++ demo_kv) (demo_rf ++ demo_rf) [1; 2] [1%Q; 0%Q] None (Some [1%Q; 1%Q]).

Lemma demo_request_ok : request_ok demo_dims 3 demo_pf demo_kv demo_rf.
Proof. split_and!; try (by repeat constructor); lia. Qed.

Lemma demo_batch_ok : batch_ok demo_dims 3 demo_batch.
Proof.
  split; [lia|by repeat constructor|by repeat constructor|by repeat constructor| |done|done|by intros ? [= <-]].
  simpl. apply Forall_cons; split; [lia|]. apply Forall_cons; split; [lia|done].
Qed.

(** The second pod, of greatest predicted reward, is chosen without exploration. *)
Lemma choose_action_correct_witness :
  ∃ i e, let rewards := predictions demo_agent (λ _ _ _, true) demo_pf demo_kv demo_rf 3 in
    choose_action (NP := demo_numpy) demo_pf demo_kv demo_rf true demo_draws demo_agent = (Ret (i, rewards, e), after_choice i demo_agent) ∧
    (i < 3)%nat ∧ greatest_at i rewards.
Proof.
  destruct (choose_action_correct (NP := demo_numpy) demo_agent demo_draws true demo_pf demo_kv demo_rf 3) as (i & e & E & Hi & _ & _ & Hg).
  - apply new_agent_ok.
  - exact demo_request_ok.
  - by apply (bool_decide_unpack _).
  - split; simpl; [lia|done].
  - exists i, e. split_and!; [exact E|exact Hi|]. apply Hg. by left.
Defined.

Lemma learning_correct_witness :
  ∃ a', learn_all (λ _, 0%Q) [(λ _ _ _, true, demo_batch); (λ _ _ _, false, demo_batch)] demo_agent = (Ret tt, a') ∧ agent_ok a' ∧
    mlen (training_metrics a') "losses" = 2%nat ∧ (epsilon a' == (3 # 10) * (995 # 1000) * (995 # 1000))%Q.
Proof.
  destruct (learning_correct (λ _, 0%Q) [(λ _ _ _, true, demo_batch); (λ _ _ _, false, demo_batch)] demo_agent) as (a' & E & Ha & _ & Hl & He).
  - apply new_agent_ok.
  - repeat constructor; simpl; try done; exists 3%nat; exact demo_batch_ok.
  - exists a'. split_and!; [exact E|exact Ha|exact Hl|]. rewrite He; [by vm_compute|by vm_compute|by split; vm_compute|done].
Defined.

(** With a negative bias in the hidden layer the activation is negative. *)
Definition demo_negative : RewardPredictor :=
  set_model (let w := reward_net demo_agent in
             mkScorer (scorer_0 w) (scorer_3 w) (mkLayer 2 2 (weight (scorer_6 w)) [-1; 1]%Q) (scorer_8 w)) (optimizer demo_agent) demo_agent.

Lemma demo_negative_ok : agent_ok demo_negative.
Proof. split; [exists 2%nat; split; [done|by repeat constructor]|exact new_metrics_ok]. Qed.

Lemma activations_before_relu_witness :
  ∃ acts preds, extract_activations_and_predictions [[1; 0; 1]%Q; [2; 1; 1]%Q] 1 demo_negative = (Ret (acts, preds), demo_negative) ∧
    length acts = 2%nat ∧ Exists (Exists (λ v, v < 0)%Q) acts.
Proof.
  destruct (activations_before_relu [[1; 0; 1]%Q; [2; 1; 1]%Q] 1 demo_negative) as (acts & preds & E & Hl & _ & Ha & _);
    [exact demo_negative_ok|done|by repeat constructor|done|lia|].
  exists acts, preds. split_and!; [exact E|exact Hl|]. destruct acts as [|x acts]; [done|]. left.
  pose proof (Ha 0%nat _ eq_refl) as H0. simpl in H0. injection H0 as ->. left. by vm_compute.
Defined.

Lemma save_load_roundtrip_witness :
  let s := (learn (λ _, 0%Q) (λ _ _ _, true) demo_batch demo_agent).2 in
  load_model (save (Some 3) s ∅) true demo_agent =
    (Ret tt, on_metrics (λ _, training_metrics s)
               (set_exploration (epsilon s) (action_counts s) (total_steps s) (set_model (reward_net s) (optimizer s) demo_agent))).
Proof.
  destruct (learn_runs (λ _, 0%Q) (λ _ _ _, true) demo_batch 3 demo_agent) as (l & a' & E & Ha' & _);
    [apply new_agent_ok|exact demo_batch_ok|done|].
  apply (save_load_roundtrip (Some 3) ∅ (learn (λ _, 0%Q) (λ _ _ _, true) demo_batch demo_agent).2 demo_agent);
    [by rewrite E|apply new_agent_ok|by vm_compute].
Defined.

(** A file with three losses, one learning rate and lists of different lengths *)
Definition demo_metadata : metadata :=
  mkMetadata None None None None None None None
    (Some [("losses", [MNum 1; MNum 1; MNum 1]); ("learning_rates", [MNum (1 # 10)]); ("greedy_actions", [MAction 0])]).

Lemma load_repairs_metrics_witness :
  ∃ a', load_metadata_of demo_metadata demo_agent = (Ret tt, a') ∧ metric "greedy_actions" (training_metrics a') = [] ∧
    mlen (training_metrics a') "learning_rates" = 3%nat.
Proof.
  destruct (load_repairs_metrics demo_metadata demo_agent) as (a' & E & _ & H1 & H2); [done|]. exists a'. split; [exact E|].
  injection E as <-. split; [by vm_compute|]. rewrite H2; [by vm_compute|vm_compute; lia].
Defined.
