(* ===== verification/RewardService.v ===== *)
(** * Serving and training the agent

    Models the module level of
    [python/routing_agent_service/agent_codes/reward_predictor.py]: the cached agent that
    requests are answered with ([infer_from_tensor]), its reload when the cluster or the
    model changed, in the request or in a thread of its own, its start
    ([preload_agent_from_metadata]), and a training round ([train]) on that same
    agent. The state is the record of the module's globals, the reloading thread and
    the model directory. A request is two steps, [prepare] and [answer], so that the
    thread may end in between; the critical sections under the lock are one step. The
    timings of the summary and the plots of [plot_neural_cb_metrics] are left out. *)

From stdpp Require Import sorting.
From S2P Require Import Prelude Num RunningStats Inference RewardNet.

Open Scope Z_scope.
Open Scope py_scope.

(** ** The globals of the module *)

Section service.
Context {T : Torch} {NP : Numpy Q} {SQ : Sqrt Q}.

(** What the thread was started with *)
Record reload_job := mkReload {
  rj_dims : state_dims;
  rj_pods : nat;
  rj_hyper : hyper;
  rj_epsilon : Q;
  rj_steps : Z
}.

Record service := mkService {
  cached_agent : option RewardPredictor;
  cached_config_key : option (state_dims * nat);
  model_updated_consumed : bool;
  reload_in_progress : bool;
  reload : option reload_job;
  model_dir : files
}.

Definition set_cached (a : RewardPredictor) (key : option (state_dims * nat)) (s : service) : service :=
  mkService (Some a) key (model_updated_consumed s) (reload_in_progress s) (reload s) (model_dir s).

Definition set_consumed (b : bool) (s : service) : service :=
  mkService (cached_agent s) (cached_config_key s) b (reload_in_progress s) (reload s) (model_dir s).

Definition set_reload (b : bool) (j : option reload_job) (s : service) : service :=
  mkService (cached_agent s) (cached_config_key s) (model_updated_consumed s) b j (model_dir s).

Definition set_model_dir (fs : files) (s : service) : service :=
  mkService (cached_agent s) (cached_config_key s) (model_updated_consumed s) (reload_in_progress s) (reload s) fs.

Definition new_service : service := mkService None None false false None ∅.

#[export] Instance state_dims_eq_dec : EqDecision state_dims.
Proof. solve_decision. Defined.

(** A method of the cached agent *)
Definition on_agent {A} (m : M RewardPredictor A) : M service A := λ s,
  match cached_agent s with
  | None => (Raise AttributeError, s)
  | Some a => let '(o, a') := m a in (o, set_cached a' (cached_config_key s) s)
  end.

(** ** Creating the agent *)

Definition net_exists (fs : files) : bool := bool_decide (is_Some (fs !! file_name "reward_net" "" ".pth")).

Definition skip_weights (hp : hyper) : bool := negb (default true (LOAD_PRETRAINED_MODEL hp)) || default false (RETRAIN_AT_STARTUP hp).

(** [CB_LOAD_METADATA_ON_INFER] is read from the environment. *)
Context (CB_LOAD_METADATA_ON_INFER : bool).

Definition load_metadata_on_infer (hp : hyper) : bool := default false (LOAD_METADATA_ON_INFER hp) || CB_LOAD_METADATA_ON_INFER.

(** A new agent with the weights of the directory, unless they are to be skipped *)
Definition new_loaded_agent (d : state_dims) (n : nat) (hp : hyper) (load_metadata : bool) (fs : files) : outcome RewardPredictor :=
  let a := new_RewardPredictor d n hp in
  if net_exists fs && negb (skip_weights hp) then
    match load_model fs load_metadata a with
    | (Ret _, a') => Ret a'
    | (Raise e, _) => Raise e
    | (OutOfFuel, _) => OutOfFuel
    end
  else Ret a.

Definition preload_agent_from_metadata (hp : hyper) (num_pods : option nat) : M service bool :=
  let* s := get in
  match model_dir s !! file_name "metadata" "" ".pkl" with
  | Some (FMetadata md) =>
    match md_state_dim md with
    | None => ret false
    | Some d =>
      let n := match num_pods with Some n => n | None => default 0%nat (md_action_dim md) end in
      if (n =? 0)%nat then ret false
      else if (dim_pod_features d =? 0)%nat || (dim_kv_hit_ratios d =? 0)%nat || (dim_request_features d =? 0)%nat then ret false
      else if bool_decide (is_Some (cached_agent s)) && bool_decide (cached_config_key s = Some (d, n)) then ret true
      else
        let* a := lift (new_loaded_agent d n hp true (model_dir s)) in
        modify (set_cached a (Some (d, n))) ;;
        modify (set_consumed true) ;;
        modify (λ s, set_reload false (reload s) s) ;;
        ret true
    end
  | _ => ret false
  end.

(** ** A request *)

(** The tensors of a request, with or without the dimension of the batch, the pods, and
    what the request meets: whether the lock is free for a reload, and random draws. *)
Record request := mkRequest {
  rq_pod_features : np2 + np3;
  rq_kv_hit_ratios : np2 + np3;
  rq_request_features : list Q + np2;
  rq_model_updated : bool;
  rq_pods : list string;
  rq_acquired : bool;
  rq_draws : draws
}.

(** [unsqueeze(0)] of a tensor without the dimension of the batch *)
Definition as_batch {A} (t : A + list A) : list A := match t with inl x => [x] | inr xs => xs end.

(** [shape[2]] *)
Definition dim3 (a : np3) : nat := length (default [] (head (default [] (head a)))).

Definition current_config (r : request) : state_dims * nat :=
  (mkDims (dim3 (as_batch (rq_pod_features r))) (dim3 (as_batch (rq_kv_hit_ratios r)))
     (length (default [] (head (as_batch (rq_request_features r))))),
   length (default [] (head (as_batch (rq_pod_features r))))).

(** The exploration state of the agent before is kept. *)
Definition keep_exploration (e : Q) (steps : Z) (a : RewardPredictor) : RewardPredictor := set_exploration e (action_counts a) steps a.

Definition sync_reload (hp : hyper) (config : state_dims * nat) : M service unit :=
  let* s := get in
  let* a := lift (new_loaded_agent config.1 config.2 hp (load_metadata_on_infer hp) (model_dir s)) in
  let a := match cached_agent s with Some old => keep_exploration (epsilon old) (total_steps old) a | None => a end in
  modify (set_cached a (Some config)).

Definition start_reload (hp : hyper) (config : state_dims * nat) (acquired : bool) : M service unit :=
  let* s := get in
  match cached_agent s with
  | Some a =>
    if acquired && negb (reload_in_progress s) then
      modify (set_reload true (Some (mkReload config.1 config.2 hp (epsilon a) (total_steps a)))) ;; modify (set_consumed true)
    else ret tt
  | None => ret tt
  end.

Definition needs_sync_reload (config : state_dims * nat) (s : service) : bool :=
  negb (bool_decide (is_Some (cached_agent s))) || negb (bool_decide (cached_config_key s = Some config)).

(** The first half of [infer_from_tensor]: the agent for the configuration of the request *)
Definition prepare (hp : hyper) (r : request) : M service unit :=
  let config := current_config r in
  (if rq_model_updated r then ret tt else modify (set_consumed false)) ;;
  let* s := get in
  let effective := rq_model_updated r && negb (model_updated_consumed s) in
  (if needs_sync_reload config s
   then sync_reload hp config ;; (if effective then modify (set_consumed true) else ret tt)
   else ret tt) ;;
  if effective then start_reload hp config (rq_acquired r) else ret tt.

(** [load_state_dict] says "size mismatch" of a saved model of other dimensions. *)
Definition size_mismatch (fs : files) (a : RewardPredictor) : bool :=
  match fs !! file_name "reward_net" "" ".pth" with
  | Some (FNet saved) => negb (bool_decide (shapes (reward_net a) = shapes saved))
  | _ => false
  end.

(** The thread: what goes wrong is logged, and the flag is given back; only a model of other
    dimensions leaves the new agent with what could be loaded. *)
Definition reload_body (j : reload_job) (fs : files) : outcome RewardPredictor :=
  let a := new_RewardPredictor (rj_dims j) (rj_pods j) (rj_hyper j) in
  if net_exists fs then
    match load_model fs (load_metadata_on_infer (rj_hyper j)) a with
    | (Ret _, a') => Ret a'
    | (Raise RuntimeError, a') => if size_mismatch fs a then Ret a' else Raise RuntimeError
    | (Raise e, _) => Raise e
    | (OutOfFuel, _) => OutOfFuel
    end
  else Ret a.

Definition finish_reload : M service unit :=
  let* s := get in
  match reload s with
  | None => ret tt
  | Some j =>
    match reload_body j (model_dir s) with
    | Ret a => modify (set_cached (keep_exploration (rj_epsilon j) (rj_steps j) a) (Some (rj_dims j, rj_pods j)))
    | _ => modify (set_consumed false)
    end ;;
    modify (set_reload false None)
  end.

(** ** The answer *)

Record result := mkResult {
  selected_index : nat;
  rewards_of_pods : list Q;
  epsilon_effective : Q;
  chosen_reward : Q;
  pod_probabilities : option (list (string * Q));
  result_epsilon : Q;
  result_steps : Z;
  was_explored : bool
}.

Context (np_exp : Q → Q).

(** The softmax of the rewards, by the ids of the pods *)
Definition probabilities (rewards : list Q) (pods : list string) : outcome (list (string * Q)) :=
  let max_reward := np_max rewards in
  let exp_rewards := (λ x, np_exp (x - max_reward)%Q) <$> rewards in
  let sum := Qsum exp_rewards in
  if Qeq_bool sum 0 then Ret (assoc_update [] ((λ p, (p, 1 / inject_Z (py_len pods))%Q) <$> pods))
  else
    try* probs := omapM (λ i, py_index ((λ x, x / sum)%Q <$> exp_rewards) i) (py_range (py_len pods)) in
    Ret (assoc_update [] (zip pods probs)).

(** The second half of [infer_from_tensor] *)
Definition answer (hp : hyper) (r : request) : M service result :=
  let* c := on_agent (choose_action (as_batch (rq_pod_features r)) (as_batch (rq_kv_hit_ratios r)) (as_batch (rq_request_features r))
                        (negb (default true (explore hp))) (rq_draws r)) in
  let '(action, rewards, explored) := c in
  let* chosen := lift (py_index rewards (Z.of_nat action)) in
  let* probs := lift (if 1 <=? default 0 (RETURN_POD_PROBABILITIES hp)
                      then try* p := probabilities rewards (rq_pods r) in Ret (Some p) else Ret None) in
  let* s := get in
  match cached_agent s with
  | None => raise AttributeError
  | Some a => ret (mkResult action rewards (default (epsilon a) (last_epsilon_effective a)) chosen probs (epsilon a) (total_steps a) explored)
  end.

Definition infer_from_tensor (hp : hyper) (r : request) : M service result := prepare hp r ;; answer hp r.

(** ** Training *)

(** The tensors of one encoded file *)
Record dataset := mkDataset { ds_batch : batch; ds_ttft : option (list Q); ds_avg_tpot : option (list Q) }.

Inductive dir_item := Subdirectory (d : option dataset) | TensorFile (d : dataset) | OtherFile.

(** The files in the subdirectories, or else the one in the directory itself, sorted by
    their paths *)
Definition path_le (x y : string * dataset) : Prop := String.le x.1 y.1.

#[local] Instance path_le_dec x y : Decision (path_le x y).
Proof. unfold path_le. apply _. Defined.

Definition tensor_files (dir : list (string * dir_item)) : list (string * dataset) :=
  let nested := omap (λ e : string * dir_item, match e.2 with
    | Subdirectory (Some d) => Some (e.1 +:+ "/tensor_dataset.pt", d)
    | _ => None
    end) dir in
  let files := match nested with
    | [] => match assoc "tensor_dataset.pt" dir with Some (TensorFile d) => [("tensor_dataset.pt", d)] | _ => [] end
    | _ => nested
    end in
  merge_sort path_le files.

(** The random permutations of a round: of the split, by the number of the call; of the
    files, by epoch; of the rows, the rows that are recorded and the units kept by dropout, by epoch,
    position of the file and batch. *)
Record train_draws := mkTrainDraws {
  split_perm : nat → nat → list nat;
  file_order : nat → nat → list nat;
  row_order : nat → nat → nat → list nat;
  recorded : nat → nat → nat → nat → list nat;
  batch_keep : nat → nat → nat → noise
}.

(** [x[idx]] for a tensor of [n] rows; other values are taken whole. *)
Definition split_rows {A} (n : nat) (idx : list nat) (x : list A) : list A :=
  if (length x =? n)%nat then omap (λ i, x !! i) idx else x.

Definition split_batch (n : nat) (idx : list nat) (b : batch) : batch :=
  mkBatch (split_rows n idx (b_pod_features b)) (split_rows n idx (b_kv_hit_ratios b)) (split_rows n idx (b_request_features b))
    (split_rows n idx (b_actions b)) (split_rows n idx (b_rewards b)) (split_rows n idx <$> b_input_tokens b)
    (split_rows n idx <$> b_sample_weights b).

Definition split_dataset (n : nat) (idx : list nat) (d : dataset) : dataset :=
  mkDataset (split_batch n idx (ds_batch d)) (split_rows n idx <$> ds_ttft d) (split_rows n idx <$> ds_avg_tpot d).

Definition ds_size (d : dataset) : nat := length (b_actions (ds_batch d)).

(** [max(1, int(n * ratio))] *)
Definition test_size (n : nat) (ratio : Q) : nat := Nat.max 1 (Z.to_nat (Qfloor (inject_Z (Z.of_nat n) * ratio))).

Definition split_file (ratio : Q) (perm : nat → list nat) (d : dataset) : dataset * dataset :=
  let n := ds_size d in
  let indices := perm n in
  (split_dataset n (drop (test_size n ratio) indices) d, split_dataset n (take (test_size n ratio) indices) d).

(** The training and the test files: by file, or by row when there are fewer than five *)
Definition train_test_split (ratio : Q) (td : train_draws) (ds : list dataset) : list dataset * list dataset :=
  if (5 <=? length ds)%nat then
    let test_indices := take (test_size (length ds) ratio) (split_perm td 0 (length ds)) in
    (omap (λ i, if bool_decide (i ∈ test_indices) then None else ds !! i) (seq 0 (length ds)),
     omap (λ i, if bool_decide (i ∈ test_indices) then ds !! i else None) (seq 0 (length ds)))
  else
    let parts := imap (λ k d, split_file ratio (split_perm td k) d) ds in (parts.*1, parts.*2).

(** [indices[start:end]] of a tensor: an index out of range raises. *)
Definition index_rows {A} (idx : list nat) (x : list A) : outcome (list A) :=
  omapM (λ i, match x !! i with Some v => Ret v | None => Raise IndexError end) idx.

Definition index_opt {A} (idx : list nat) (x : option (list A)) : outcome (option (list A)) :=
  match x with Some l => try* r := index_rows idx l in Ret (Some r) | None => Ret None end.

Definition index_batch (idx : list nat) (b : batch) : outcome batch :=
  try* pf := index_rows idx (b_pod_features b) in
  try* kv := index_rows idx (b_kv_hit_ratios b) in
  try* rf := index_rows idx (b_request_features b) in
  try* acts := index_rows idx (b_actions b) in
  try* rews := index_rows idx (b_rewards b) in
  try* toks := index_opt idx (b_input_tokens b) in
  try* sw := index_opt idx (b_sample_weights b) in
  Ret (mkBatch pf kv rf acts rews toks sw).

(** The entries one recorded row adds *)
Definition latency_entries (b : batch) (ttft : list Q) (tpot : option (list Q)) (i : nat) : outcome metrics :=
  try* rew := py_index (b_rewards b) (Z.of_nat i) in
  try* t := py_index ttft (Z.of_nat i) in
  try* p := match tpot with Some l => try* v := py_index l (Z.of_nat i) in Ret [("tpot_values", [MNum v])] | None => Ret [] end in
  try* k := match b_input_tokens b with
            | Some l => try* v := py_index l (Z.of_nat i) in Ret [("reward_latency_input_tuples", [MTriple rew t v])]
            | None => Ret [] end in
  Ret ([("reward_latency_pairs", [MPair rew t]); ("ttft_values", [MNum t])] ++ p ++ k).

Definition record_latencies (d : dataset) (idx : list nat) (b : batch) (rows : nat → list nat) : M RewardPredictor unit :=
  match ds_ttft d with
  | None => ret tt
  | Some ttft =>
    let* t := lift (index_rows idx ttft) in
    let* p := lift (index_opt idx (ds_avg_tpot d)) in
    for_each (rows (length (b_actions b))) (λ i,
      let* es := lift (latency_entries b t p i) in modify (on_metrics (extend_metrics es)))
  end.

Context (norm2 : list Q → Q).

(** One mini-batch, with its loss and mean reward *)
Definition train_batch (d : dataset) (idx : list nat) (rows : nat → list nat) (keep : noise) : M RewardPredictor (Q * Q) :=
  let* b := lift (index_batch idx (ds_batch d)) in
  record_latencies d idx b rows ;;
  learn norm2 keep b.

(** [for x in l: results.append(body(x))] *)
Fixpoint for_results {S A B} (l : list A) (body : A → M S B) : M S (list B) :=
  match l with
  | [] => ret []
  | x :: l' => let* y := body x in let* ys := for_results l' body in ret (y :: ys)
  end.

(** The batches of a file, by their number: [range(num_batches)] *)
Definition num_batches (size : nat) (batch_size : Z) : Z := (Z.of_nat size + batch_size - 1) / batch_size.

Definition batch_indices (indices : list nat) (batch_size batch_idx : Z) : list nat :=
  py_slice indices (batch_idx * batch_size) (Z.min (batch_idx * batch_size + batch_size) (py_len indices)).

Definition train_file (td : train_draws) (hp : hyper) (epoch pos : nat) (d : dataset) : M RewardPredictor (list (Q * Q)) :=
  let batch_size := default 256 (hp_batch_size hp) in
  if batch_size =? 0 then raise ZeroDivisionError
  else
    let indices := row_order td epoch pos (ds_size d) in
    for_results (py_range (num_batches (ds_size d) batch_size)) (λ k,
      train_batch d (batch_indices indices batch_size k) (recorded td epoch pos (Z.to_nat k)) (batch_keep td epoch pos (Z.to_nat k))).

(** The scheduler at the end of an epoch with the given number of updates *)
Definition step_scheduler (updates : nat) : M RewardPredictor unit :=
  let* a := get in
  match scheduler a with
  | None => ret tt
  | Some (ExponentialLR gamma) => modify (set_scheduler (scheduler a) (exponential_step gamma (optimizer a)))
  | Some (ReduceLROnPlateau p) =>
    match gradient_norms a with
    | [] => ret tt
    | norms =>
      let recent := if (updates <=? length norms)%nat then py_slice norms (- Z.of_nat updates) (py_len norms) else norms in
      let avg := np_mean recent in
      if negb (Qle_bool (1 # 10000) avg) || negb (Qle_bool avg 10) then
        let '(p', o) := plateau_step (1 # 10) (p, optimizer a) in modify (set_scheduler (Some (ReduceLROnPlateau p')) o)
      else ret tt
    end
  end.

Definition evaluate_test (test : list dataset) : M RewardPredictor unit :=
  match test with
  | [] => ret tt
  | _ =>
    let* losses := for_results test (λ d, evaluate_loss (ds_batch d)) in
    modify (on_metrics (extend_metric "eval_losses" [MNum (np_mean losses)]))
  end.

(** One epoch over the training files in their shuffled order *)
Definition train_epoch (td : train_draws) (hp : hyper) (train test : list dataset) (epoch : nat) : M RewardPredictor unit :=
  let shuffled := omap (λ i, train !! i) (file_order td epoch (length train)) in
  let* results := for_results (zip (seq 0 (length shuffled)) shuffled) (λ pd, train_file td hp epoch pd.1 pd.2) in
  step_scheduler (length (concat results)) ;;
  evaluate_test test.

(** The agent of the round: the cached one or a new one, with the weights of the directory
    unless the round starts from scratch; a model that cannot be loaded is only logged. *)
Definition init_train_agent (hp : hyper) (first : dataset) : M service unit :=
  let b := ds_batch first in
  let fresh := new_RewardPredictor
    (mkDims (dim3 (b_pod_features b)) (dim3 (b_kv_hit_ratios b)) (length (default [] (head (b_request_features b)))))
    (length (default [] (head (b_pod_features b)))) hp in
  let* s := get in
  let scratch := default false (ONLINE_TRAIN_FROM_SCRATCH hp) in
  (match cached_agent s with
   | None => modify (set_cached fresh (cached_config_key s))
   | Some _ => if scratch then modify (set_cached fresh (cached_config_key s)) else ret tt
   end) ;;
  if scratch then ret tt
  else if net_exists (model_dir s) then catch (on_agent (load_model (model_dir s) true)) (λ _, ret tt)
  else ret tt.

Definition reset_lr (hp : hyper) (num_trains : option Z) : M RewardPredictor unit :=
  let* a := get in
  match scheduler a, num_trains with
  | Some sc, Some _ =>
    if default true (RESET_LR_PER_ROUND hp) then
      let o := set_lr (default (3 # 10000) (learning_rate hp)) (optimizer a) in
      modify (set_scheduler (Some (match sc with
        | ExponentialLR _ => ExponentialLR (default (95 # 100) (lr_scheduler_gamma hp))
        | _ => sc end)) o)
    else ret tt
  | _, _ => ret tt
  end.

(** A round; [None] when there is nothing to train on. The widths of the agent are those of the
    first training file; a part of a file has the widths of the file. *)
Definition train (hp : hyper) (td : train_draws) (num_trains : option Z) (dir : option (list (string * dir_item))) : M service (option unit) :=
  match dir with
  | None => ret None
  | Some items =>
    match (tensor_files items).*2 with
    | [] => ret None
    | d :: ds =>
      let '(train_files, test_files) := train_test_split (default (2 # 10) (test_split_ratio hp)) td (d :: ds) in
      init_train_agent hp (if (length (d :: ds) <? 5)%nat then d else default d (head train_files)) ;;
      on_agent (reset_lr hp num_trains) ;;
      on_agent (modify (on_metrics (λ _, new_metrics))) ;;
      for_each (seq 0 (Z.to_nat (default 10 (training_epochs hp)))) (λ epoch, on_agent (train_epoch td hp train_files test_files epoch)) ;;
      let* s := get in
      match cached_agent s with
      | None => raise AttributeError
      | Some a => modify (set_model_dir (save num_trains a (model_dir s))) ;; ret (Some tt)
      end
    end
  end.

End service.

(** ** Lemmas: the agent that is loaded *)

Section serving.
Context {T : Torch} {TL : TorchLaws T} {NP : Numpy Q} {SQ : Sqrt Q} (env_metadata : bool) (np_exp : Q → Q) (hp : hyper).

Definition hidden : nat := default 128%nat (hidden_dim hp).

Definition method : string := default "epsilon_greedy" (hp_exploration_method hp).

(** An agent for a configuration, its network in training mode as it was created *)
Record serves (key : state_dims * nat) (a : RewardPredictor) : Prop := mkServes {
  sv_ok : agent_ok a;
  sv_net : net_wf (per_pod_context_dim key.1) hidden (reward_net a);
  sv_mode : training a = true;
  sv_dims : state_dim (fixed a) = key.1;
  sv_method : exploration_method (fixed a) = method
}.

(** The directory has no model, or one that an agent with this number of hidden units saved. *)
Definition dir_ok (fs : files) : Prop :=
  net_exists fs = false ∨
  ∃ saved, agent_ok saved ∧ net_wf (per_pod_context_dim (state_dim (fixed saved))) hidden (reward_net saved) ∧
    model_files fs (reward_net saved) (optimizer saved) (metadata_of saved).

(** The weights of the directory, if they are used, are for contexts of this width. *)
Definition fits (d : state_dims) (fs : files) : Prop :=
  skip_weights hp = true ∨ ∀ w, fs !! file_name "reward_net" "" ".pth" = Some (FNet w) → in_features (scorer_0 w) = per_pod_context_dim d.

Lemma net_wf_in d h w : net_wf d h w → in_features (scorer_0 w) = d.
Proof. intros [Hs _]. unfold shapes, shape in Hs. by injection Hs. Qed.

Lemma new_serves d n : serves (d, n) (new_RewardPredictor d n hp).
Proof.
  pose proof (new_agent_ok d n hp) as Hok. unfold new_RewardPredictor in *. destruct (choose_scheduler hp) as [type sched].
  split; [done| |done..]. apply new_net_wf.
Qed.

Lemma set_model_serves key w o a : serves key a → net_wf (per_pod_context_dim key.1) hidden w → serves key (set_model w o a).
Proof. intros [H1 H2 H3 H4 H5] Hw. split; simpl; try done. split; simpl; [rewrite H4; by exists hidden|apply (ao_metrics a H1)]. Qed.

Lemma set_exploration_serves key e c n a : serves key a → serves key (set_exploration e c n a).
Proof. intros [[H1 H1'] H2 H3 H4 H5]. by split. Qed.

Lemma set_metrics_serves key m a : serves key a → metrics_ok m → serves key (on_metrics (λ _, m) a).
Proof. intros [[H1 H1'] H2 H3 H4 H5] Hm. by split. Qed.

Lemma load_serves key fs b a :
  serves key a → net_exists fs = true → dir_ok fs →
  (∀ w, fs !! file_name "reward_net" "" ".pth" = Some (FNet w) → in_features (scorer_0 w) = per_pod_context_dim key.1) →
  ∃ a', load_model fs b a = (Ret tt, a') ∧ serves key a'.
Proof.
  intros Hsv He [Hd|(saved & Hok & Hw & Hf)] Hfit; [congruence|].
  assert (per_pod_context_dim (state_dim (fixed saved)) = per_pod_context_dim key.1) as Hdim.
  { rewrite <-(net_wf_in _ _ _ Hw). apply Hfit, Hf. }
  assert (shapes (reward_net a) = shapes (reward_net saved)) as Hs.
  { rewrite (nw_shapes _ _ _ (sv_net _ _ Hsv)), (nw_shapes _ _ _ Hw), Hdim. done. }
  rewrite (load_weights_runs _ _ _ _ b a Hf Hs). rewrite Hdim in Hw. pose proof (set_model_serves key _ (optimizer saved) a Hsv Hw) as Hsv'.
  destruct b; [|by eexists]. rewrite load_metadata_runs; [|exact (ao_metrics _ Hok)|exact (ao_metrics _ (sv_ok _ _ Hsv'))].
  eexists. split; [done|]. apply set_metrics_serves; [by apply set_exploration_serves|exact (ao_metrics _ Hok)].
Qed.

Lemma load_misfit key fs b a :
  serves key a → net_exists fs = true → dir_ok fs →
  (∀ w, fs !! file_name "reward_net" "" ".pth" = Some (FNet w) → in_features (scorer_0 w) ≠ per_pod_context_dim key.1) →
  ∃ a', load_model fs b a = (Raise RuntimeError, a') ∧ size_mismatch fs a = true ∧ serves key a'.
Proof.
  intros Hsv He [Hd|(saved & Hok & Hw & Hf)] Hfit; [congruence|]. destruct Hf as (Hn & _ & _).
  assert (shapes (reward_net a) ≠ shapes (reward_net saved)) as Hs.
  { rewrite (nw_shapes _ _ _ (sv_net _ _ Hsv)), (nw_shapes _ _ _ Hw). intros [= Hdim]. apply (Hfit _ Hn). rewrite (net_wf_in _ _ _ Hw). done. }
  destruct (load_other _ _ Hs) as [E Hl]. exists (set_model (load_state_dict (reward_net a) (reward_net saved)).2 (optimizer a) a).
  split_and!; [|unfold size_mismatch; rewrite Hn; by rewrite bool_decide_eq_false_2|
    apply set_model_serves; [done|]; by apply (layout_net_wf _ _ (reward_net a)); [|apply Hsv]].
  unfold load_model. rewrite Hn. unfold bind at 1. rewrite bind_get. destruct (load_state_dict _ _) as [o w]. simpl in E. subst o.
  unfold bind, modify, lift. simpl. done.
Qed.

Lemma new_loaded_serves d n b fs :
  dir_ok fs → fits d fs → ∃ a, new_loaded_agent d n hp b fs = Ret a ∧ serves (d, n) a.
Proof.
  intros Hd Hfit. unfold new_loaded_agent. pose proof (new_serves d n) as Hn. destruct (net_exists fs) eqn:He, (skip_weights hp) eqn:Hs; simpl;
    try (by eexists). destruct Hfit as [Hf|Hf]; [congruence|].
  destruct (load_serves (d, n) fs b _ Hn He Hd Hf) as (a' & -> & Ha'). by exists a'.
Qed.

Lemma new_loaded_misfit d n b fs :
  dir_ok fs → net_exists fs = true → ¬ fits d fs → new_loaded_agent d n hp b fs = Raise RuntimeError.
Proof.
  intros Hd He Hfit. unfold new_loaded_agent. rewrite He. destruct (skip_weights hp) eqn:Hs; [destruct Hfit; by left|]. simpl.
  destruct (load_misfit (d, n) fs b _ (new_serves d n) He Hd) as (a' & -> & _ & _); [|done].
  intros w Hw Heq. apply Hfit. right. intros w' Hw'. simplify_eq. done.
Qed.

(** ** Lemmas: requests and reloads *)

Record service_ok (s : service) : Prop := mkServiceOk {
  so_agent : ∀ a key, cached_agent s = Some a → cached_config_key s = Some key → serves key a;
  so_key : cached_agent s = None → cached_config_key s = None;
  so_reload : is_Some (reload s) ↔ reload_in_progress s = true;
  so_job : ∀ j, reload s = Some j → rj_hyper j = hp;
  so_dir : dir_ok (model_dir s)
}.

Lemma set_cached_ok key a s : service_ok s → serves key a → service_ok (set_cached a (Some key) s).
Proof. intros [H1 H0 H2 H3 H4] Ha. split; simpl; try done. by intros a' key' [= <-] [= <-]. Qed.

Lemma set_consumed_ok b s : service_ok s → service_ok (set_consumed b s).
Proof. intros [H1 H0 H2 H3 H4]. by split. Qed.

Lemma keep_exploration_serves key e n a : serves key a → serves key (keep_exploration e n a).
Proof. apply set_exploration_serves. Qed.

Lemma sync_reload_runs config s :
  service_ok s → fits config.1 (model_dir s) →
  ∃ a, sync_reload env_metadata hp config s = (Ret tt, set_cached a (Some config) s) ∧ serves config a.
Proof.
  intros Hs Hfit. destruct config as [d n]. destruct (new_loaded_serves d n (load_metadata_on_infer env_metadata hp) _ (so_dir _ Hs) Hfit) as (a & E & Ha).
  unfold sync_reload. rewrite bind_get. unfold bind, lift, modify. simpl in *. rewrite E. eexists. split; [done|].
  case_match; [by apply keep_exploration_serves|done].
Qed.

Lemma sync_reload_misfit config s :
  service_ok s → net_exists (model_dir s) = true → ¬ fits config.1 (model_dir s) →
  sync_reload env_metadata hp config s = (Raise RuntimeError, s).
Proof.
  intros Hs He Hfit. unfold sync_reload. rewrite bind_get. unfold bind, lift. rewrite new_loaded_misfit; [done|apply Hs|done|done].
Qed.

Lemma fits_dec d fs : dir_ok fs → net_exists fs = true → fits d fs ∨ ¬ fits d fs.
Proof.
  intros [Hd|(saved & _ & _ & Hn & _)] He; [congruence|]. unfold fits. rewrite Hn.
  destruct (skip_weights hp); [by left; left|]. destruct (decide (in_features (scorer_0 (reward_net saved)) = per_pod_context_dim d)).
  - left. right. by intros w [= <-].
  - right. intros [?|H]; [done|]. by specialize (H _ eq_refl).
Qed.

Lemma fits_absent d fs : net_exists fs = false → fits d fs.
Proof. intros He. right. intros w Hw. unfold net_exists in He. apply bool_decide_eq_false in He. rewrite Hw in He. by destruct He. Qed.

Lemma start_reload_ok config b s :
  service_ok s → ∃ s', start_reload hp config b s = (Ret tt, s') ∧ service_ok s' ∧ cached_agent s' = cached_agent s ∧
    cached_config_key s' = cached_config_key s ∧ model_dir s' = model_dir s.
Proof.
  intros Hs. unfold start_reload. rewrite bind_get. destruct (cached_agent s) as [a|] eqn:Ea; [|by exists s].
  case_match; [|by exists s]. unfold bind, modify. eexists. split; [done|]. split; [|done]. destruct Hs as [H1 H0 H2 H3 H4].
  split; simpl; try done. by intros j [= <-].
Qed.

Lemma sync_step config (effective : bool) s :
  service_ok s →
  (fits config.1 (model_dir s) ∧ ∃ s' a,
     (sync_reload env_metadata hp config ;; (if effective then modify (set_consumed true) else ret tt)) s = (Ret tt, s') ∧ service_ok s' ∧
     cached_agent s' = Some a ∧ serves config a ∧ cached_config_key s' = Some config ∧ model_dir s' = model_dir s) ∨
  (net_exists (model_dir s) = true ∧ ¬ fits config.1 (model_dir s) ∧
   (sync_reload env_metadata hp config ;; (if effective then modify (set_consumed true) else ret tt)) s = (Raise RuntimeError, s)).
Proof.
  intros Hs. assert (fits config.1 (model_dir s) ∨ net_exists (model_dir s) = true ∧ ¬ fits config.1 (model_dir s)) as [Hf|[He Hf]].
  { destruct (net_exists (model_dir s)) eqn:He; [|left; by apply fits_absent]. destruct (fits_dec config.1 _ (so_dir _ Hs) He); auto. }
  - left. split; [done|]. destruct (sync_reload_runs config s Hs Hf) as (a & E & Ha). unfold bind at 1. rewrite E.
    pose proof (set_cached_ok config a s Hs Ha). destruct effective; eexists _, a; (split; [done|]); split_and!; try done. by apply set_consumed_ok.
  - right. split_and!; [done..|]. unfold bind. by rewrite sync_reload_misfit.
Qed.

(** What the first half of a request leaves: an agent for its configuration, or the error
    of a model of other dimensions and the state as it was but for the flag *)
Lemma prepare_agent_runs r s :
  service_ok s →
  let config := current_config r in
  ((fits config.1 (model_dir s) ∨ cached_config_key s = Some config ∧ is_Some (cached_agent s)) ∧
   ∃ s' a, prepare env_metadata hp r s = (Ret tt, s') ∧ service_ok s' ∧ cached_agent s' = Some a ∧ serves config a ∧
     cached_config_key s' = Some config ∧ model_dir s' = model_dir s) ∨
  (net_exists (model_dir s) = true ∧ ¬ fits config.1 (model_dir s) ∧ (cached_config_key s ≠ Some config ∨ cached_agent s = None) ∧
   prepare env_metadata hp r s = (Raise RuntimeError, if rq_model_updated r then s else set_consumed false s)).
Proof.
  intros Hs config. set (s1 := if rq_model_updated r then s else set_consumed false s).
  assert ((if rq_model_updated r then ret tt else modify (set_consumed false)) s = (Ret tt, s1)) as E1 by (unfold s1; by case_match).
  assert (service_ok s1) as Hs1 by (unfold s1; case_match; [done|by apply set_consumed_ok]).
  assert (cached_agent s1 = cached_agent s ∧ cached_config_key s1 = cached_config_key s ∧ model_dir s1 = model_dir s) as (Ha1 & Hk1 & Hd1)
    by (unfold s1; by case_match).
  set (effective := rq_model_updated r && negb (model_updated_consumed s1)).
  assert (prepare env_metadata hp r s =
    ((if needs_sync_reload config s1
      then sync_reload env_metadata hp config ;; (if effective then modify (set_consumed true) else ret tt) else ret tt) ;;
     if effective then start_reload hp config (rq_acquired r) else ret tt) s1) as ->.
  { unfold prepare. fold config. unfold bind at 1. by rewrite E1, bind_get. }
  assert (∀ s2 a, service_ok s2 → cached_agent s2 = Some a → serves config a → cached_config_key s2 = Some config → model_dir s2 = model_dir s →
    ∃ s' a', (if effective then start_reload hp config (rq_acquired r) else ret tt) s2 = (Ret tt, s') ∧ service_ok s' ∧
      cached_agent s' = Some a' ∧ serves config a' ∧ cached_config_key s' = Some config ∧ model_dir s' = model_dir s) as Hrest.
  { intros s2 a Hs2 Ha Hsv Hk Hd. destruct effective; [|by exists s2, a].
    destruct (start_reload_ok config (rq_acquired r) s2 Hs2) as (s' & E & Hs' & E2 & E3 & E4). exists s', a. split_and!; try done; congruence. }
  destruct (needs_sync_reload config s1) eqn:En.
  - assert (cached_config_key s ≠ Some config ∨ cached_agent s = None) as Hneed.
    { unfold needs_sync_reload in En. rewrite Ha1, Hk1 in En. destruct (cached_agent s); [left|by right].
      rewrite bool_decide_eq_true_2 in En by eauto. simpl in En. by apply negb_true_iff, bool_decide_eq_false in En. }
    rewrite <-Hd1. unfold bind at 1 3. destruct (sync_step config effective s1 Hs1) as [(Hf & s2 & a & E & H2)|(He & Hf & E)]; rewrite E.
    + left. split; [by left|]. destruct H2 as (Hs2 & Ha & Hsv & Hk & Hd). rewrite Hd1 in *. by apply (Hrest s2 a).
    + right. by split_and!.
  - left. unfold needs_sync_reload in En. rewrite Ha1, Hk1 in En. apply orb_false_iff in En as [Ea Ek].
    apply negb_false_iff, bool_decide_eq_true in Ea, Ek. split; [by right|]. unfold bind at 1. simpl. destruct Ea as [a Ea].
    apply (Hrest s1 a); [done|congruence|by apply (so_agent _ Hs)|congruence|done].
Qed.

(** The tensors of a request for [n] pods, whatever their widths *)
Definition request_valid (r : request) (n : nat) : Prop :=
  request_ok (current_config r).1 n (as_batch (rq_pod_features r)) (as_batch (rq_kv_hit_ratios r)) (as_batch (rq_request_features r)) ∧
  length (rq_pods r) = n ∧ draws_ok n (rq_draws r).

Lemma request_pods r n : request_valid r n → (current_config r).2 = n.
Proof.
  intros [([Hl Hp] & _ & _ & _) _]. simpl. destruct (as_batch (rq_pod_features r)) as [|x l]; [simpl in Hl; lia|].
  apply Forall_cons in Hp as [[Hx _] _]. done.
Qed.

Lemma index_all {A} (l : list A) : omapM (λ i, py_index l i) (py_range (py_len l)) = Ret l.
Proof.
  unfold py_range, py_len. rewrite Nat2Z.id, omapM_fmap.
  assert (∀ k, (k ≤ length l)%nat → omapM (λ x, py_index l (Z.of_nat x)) (seq k (length l - k)) = Ret (drop k l)) as H.
  { intros k Hk. remember (length l - k)%nat as m eqn:Em. revert k Hk Em. induction m as [|m IH]; intros k Hk Em.
    - simpl. rewrite drop_ge by lia. done.
    - destruct (lookup_lt_is_Some_2 l k) as [x Hx]; [lia|]. simpl. rewrite (py_index_lookup l (Z.of_nat k) x) by (lia || by rewrite Nat2Z.id).
      cbn [obind]. rewrite IH by lia. cbn [obind]. by rewrite (drop_S l x k). }
  specialize (H 0%nat ltac:(lia)). by rewrite Nat.sub_0_r, drop_0 in H.
Qed.

Lemma probabilities_runs rewards pods : length rewards = length pods → ∃ p, probabilities np_exp rewards pods = Ret p.
Proof.
  intros Hl. unfold probabilities. case_match; [by eexists|]. set (l := (λ x, x / _)%Q <$> _).
  assert (py_len pods = py_len l) as -> by (unfold py_len, l; by rewrite !length_fmap, Hl). rewrite index_all. by eexists.
Qed.

(** The result of a request: an index of a pod with its reward, one reward per pod *)
Definition result_ok (n : nat) (res : result) : Prop :=
  (selected_index res < n)%nat ∧ length (rewards_of_pods res) = n ∧ rewards_of_pods res !! selected_index res = Some (chosen_reward res).

Lemma after_choice_serves key i a : serves key a → serves key (after_choice i a).
Proof. intros [[H1 H1'] H2 H3 H4 H5]. by split. Qed.

Lemma answer_runs r s a n :
  service_ok s → cached_agent s = Some a → serves (current_config r) a → cached_config_key s = Some (current_config r) →
  request_valid r n → method ∈ known_methods →
  ∃ res s' i, answer np_exp hp r s = (Ret res, s') ∧ result_ok n res ∧ selected_index res = i ∧
    rewards_of_pods res = predictions a (dr_keep (rq_draws r)) (as_batch (rq_pod_features r)) (as_batch (rq_kv_hit_ratios r)) (as_batch (rq_request_features r)) n ∧
    service_ok s' ∧ cached_agent s' = Some (after_choice i a) ∧
    (default true (explore hp) = false → greatest_at i (rewards_of_pods res)).
Proof.
  intros Hs Ha Hsv Hk (Hr & Hl & Hd) Hm. rewrite <-(sv_dims _ _ Hsv) in Hr. rewrite <-(sv_method _ _ Hsv) in Hm.
  destruct (choose_action_runs a (rq_draws r) (negb (default true (explore hp))) _ _ _ n (sv_ok _ _ Hsv) Hr Hm Hd) as (Hlen & i & e & E & Hi & Hg).
  set (rewards := predictions a _ _ _ _ n) in *. destruct (lookup_lt_is_Some_2 rewards i) as [v Hv]; [lia|].
  assert (on_agent (choose_action (as_batch (rq_pod_features r)) (as_batch (rq_kv_hit_ratios r)) (as_batch (rq_request_features r))
    (negb (default true (explore hp))) (rq_draws r)) s = (Ret (i, rewards, e), set_cached (after_choice i a) (cached_config_key s) s)) as Eo.
  { unfold on_agent. by rewrite Ha, E. }
  assert (∃ p, (if 1 <=? default 0 (RETURN_POD_PROBABILITIES hp)
                then try* p := probabilities np_exp rewards (rq_pods r) in Ret (Some p) else Ret None) = Ret p) as [p Ep].
  { case_match; [|by eexists]. destruct (probabilities_runs rewards (rq_pods r)) as [p ->]; [congruence|]. by eexists. }
  unfold answer. unfold bind at 1. rewrite Eo. unfold bind at 1, lift at 1. rewrite (py_index_lookup rewards (Z.of_nat i) v); [|lia|by rewrite Nat2Z.id].
  unfold bind at 1, lift at 1. rewrite Ep, bind_get. simpl. eexists _, _, i. split; [done|]. simpl. split_and!; try done.
  - rewrite Hk. apply set_cached_ok; [done|by apply after_choice_serves].
  - intros He. apply Hg. left. by rewrite He.
Qed.

Lemma answer_ok r s : service_ok s → service_ok (answer np_exp hp r s).2.
Proof.
  intros Hs. assert (∀ {A} (m : M RewardPredictor A), (∀ key a, serves key a → serves key (m a).2) → service_ok (on_agent m s).2) as Hon.
  { intros A m Hm. unfold on_agent. destruct (cached_agent s) as [a|] eqn:Ea; [|done].
    destruct (cached_config_key s) as [key|] eqn:Hk; [|destruct (m a), Hs as [H1 H0 H2 H3 H4]; by split].
    specialize (Hm key a (so_agent _ Hs a key Ea Hk)). destruct (m a) as [o a']. by apply set_cached_ok. }
  unfold answer. set (m := choose_action _ _ _ _ _). assert (service_ok (on_agent m s).2) as H.
  { apply Hon. intros key a Hsv. unfold m, choose_action, bind, lift, get, modify, ret. destruct (create_per_pod_contexts _ _ _); [|done..].
    destruct (forward _ _ _ _); [|done..]. destruct (select_action _ _ _ _) as [[i e]| |]; [|done..]. by apply after_choice_serves. }
  unfold bind at 1. destruct (on_agent m s) as [[[[i rew] e]| |] s1]; [|done..]. simpl in H.
  unfold bind, lift, get. destruct (py_index _ _); [|done..].
  generalize (if 1 <=? default 0 (RETURN_POD_PROBABILITIES hp)
    then try* p := probabilities np_exp rew (rq_pods r) in Ret (Some p) else Ret None).
  intros [p| |]; [|done..]. by destruct (cached_agent s1).
Qed.

Lemma finish_reload_ok s : service_ok s → ∃ s', finish_reload env_metadata s = (Ret tt, s') ∧ service_ok s' ∧ model_dir s' = model_dir s.
Proof.
  intros Hs. unfold finish_reload. rewrite bind_get. destruct (reload s) as [j|] eqn:Ej; [|by exists s].
  pose proof (so_job _ Hs j Ej) as Hj. pose proof (so_dir _ Hs) as Hd.
  assert (∃ a, reload_body env_metadata j (model_dir s) = Ret a ∧ serves (rj_dims j, rj_pods j) a) as (a & -> & Ha).
  { unfold reload_body. rewrite Hj. pose proof (new_serves (rj_dims j) (rj_pods j)) as Hn. destruct (net_exists (model_dir s)) eqn:He; [|by eexists].
    destruct Hd as [Hd|(saved & Hok & Hw & Hf)]; [congruence|].
    destruct (decide (in_features (scorer_0 (reward_net saved)) = per_pod_context_dim (rj_dims j))) as [Hdim|Hdim].
    - edestruct load_serves as (a' & -> & Ha'); [exact Hn|exact He|right; eauto| |by exists a']. intros w Hw'. destruct Hf as [Hf _]. simplify_eq. done.
    - edestruct load_misfit as (a' & -> & -> & Ha'); [exact Hn|exact He|right; eauto| |by exists a']. intros w Hw'. destruct Hf as [Hf _]. simplify_eq. done. }
  unfold bind, modify. eexists. split; [done|]. split; [|done].
  destruct (set_cached_ok _ _ s Hs (keep_exploration_serves _ (rj_epsilon j) (rj_steps j) _ Ha)) as [H1 H0 H2 H3 H4].
  split; simpl; done.
Qed.

Lemma new_loaded_Ret d n b fs a : dir_ok fs → new_loaded_agent d n hp b fs = Ret a → serves (d, n) a.
Proof.
  intros Hd E. assert (fits d fs) as Hf.
  { destruct (net_exists fs) eqn:He; [|by apply fits_absent]. destruct (fits_dec d fs Hd He) as [|Hf]; [done|]. by rewrite new_loaded_misfit in E. }
  destruct (new_loaded_serves d n b fs Hd Hf) as (a' & E' & Ha'). congruence.
Qed.

(** The start, with no reload on its way, leaves the service in order, whatever comes of it. *)
Lemma preload_ok num_pods s : service_ok s → reload s = None → service_ok (preload_agent_from_metadata hp num_pods s).2.
Proof.
  intros Hs Hr. unfold preload_agent_from_metadata. rewrite bind_get. destruct (_ !! _) as [[| |md]|]; try done. destruct (md_state_dim md) as [d|]; [|done].
  set (n := match num_pods with Some n => n | None => default 0%nat (md_action_dim md) end). destruct (n =? 0)%nat; [done|]. destruct (_ || _ || _); [done|].
  destruct (_ && _); [done|]. unfold bind at 1, lift. destruct (new_loaded_agent _ _ _ _ _) as [a| |] eqn:E; [|done..].
  apply new_loaded_Ret in E; [|apply Hs]. destruct (set_cached_ok _ _ s Hs E) as [H1 H0 H2 H3 H4].
  unfold bind, modify, ret. simpl. split; simpl; try done. by rewrite Hr; split; [intros [? [=]]|].
Qed.

(** ** The life of the service *)

(** A request, the end of the reloading thread, or a model saved by a training round *)
Inductive event := Request (r : request) | ReloadDone | Saved (num_trains : option Z) (a : RewardPredictor).

Definition serve_event (s : service) (e : event) : service :=
  match e with
  | Request r => (infer_from_tensor env_metadata np_exp hp r s).2
  | ReloadDone => (finish_reload env_metadata s).2
  | Saved n a => set_model_dir (save n a (model_dir s)) s
  end.

Definition event_ok (e : event) : Prop :=
  match e with
  | Saved _ a => agent_ok a ∧ net_wf (per_pod_context_dim (state_dim (fixed a))) hidden (reward_net a)
  | _ => True
  end.

Definition after_events (es : list event) : service := foldl serve_event new_service es.

Lemma infer_ok r s : service_ok s → service_ok (infer_from_tensor env_metadata np_exp hp r s).2.
Proof.
  intros Hs. unfold infer_from_tensor, bind. destruct (prepare_agent_runs r s Hs) as [(_ & s' & a & -> & Hs' & _)|(_ & _ & _ & ->)].
  - by apply answer_ok.
  - simpl. case_match; [done|by apply set_consumed_ok].
Qed.

Lemma serve_event_ok s e : service_ok s → event_ok e → service_ok (serve_event s e).
Proof.
  intros Hs He. destruct e as [r| |n a]; simpl in *.
  - by apply infer_ok.
  - by destruct (finish_reload_ok s Hs) as (s' & -> & Hs' & _).
  - destruct Hs as [H1 H0 H2 H3 H4]. split; simpl; try done. right. exists a. split_and!; [by apply He..|]. apply save_files.
Qed.

Lemma after_events_ok es : Forall event_ok es → service_ok (after_events es).
Proof.
  intros Hes. unfold after_events. assert (service_ok new_service) as H0.
  { split; simpl; [done|done|done|done|]. left. unfold net_exists. by rewrite lookup_empty. }
  revert H0. generalize new_service. induction Hes as [|e es He Hes IH]; intros s Hs; [done|]. simpl. by apply IH, serve_event_ok.
Qed.

Lemma infer_runs r s n :
  service_ok s → request_valid r n → method ∈ known_methods → fits (current_config r).1 (model_dir s) →
  ∃ res s' a, infer_from_tensor env_metadata np_exp hp r s = (Ret res, s') ∧ result_ok n res ∧ service_ok s' ∧ training a = true ∧
    cached_agent s' = Some (after_choice (selected_index res) a) ∧
    rewards_of_pods res = predictions a (dr_keep (rq_draws r)) (as_batch (rq_pod_features r)) (as_batch (rq_kv_hit_ratios r)) (as_batch (rq_request_features r)) n ∧
    (default true (explore hp) = false → greatest_at (selected_index res) (rewards_of_pods res)).
Proof.
  intros Hs Hr Hm Hf. destruct (prepare_agent_runs r s Hs) as [(_ & s1 & a & E & Hs1 & Ha & Hsv & Hk & _)|(_ & Hn & _)]; [|done].
  destruct (answer_runs r s1 a n Hs1 Ha Hsv Hk Hr Hm) as (res & s' & i & E' & Hres & <- & Hrew & Hs' & Ha' & Hg).
  exists res, s', a. split_and!; try done; [|apply Hsv]. unfold infer_from_tensor, bind. by rewrite E.
Qed.

(** The part of the answer the routing decision is made from *)
Definition agent_result_of (res : result) : agent_result :=
  mkAgentResult (Z.of_nat (selected_index res)) (rewards_of_pods res) (chosen_reward res) (was_explored res).

(** From the tensors of a request to the pod it is sent to: after any requests, reloads and
    trained models, a request whose features fit the model in the directory is answered by the
    agent, and the prefix filter and the tie-break make of the answer a pod of
    the cluster and its address. *)
Theorem request_routed es r n tuple_hash cfg random_choice num_trains use_fallback raw waiting pgm :
  Forall event_ok es → request_valid r n → method ∈ known_methods → fits (current_config r).1 (model_dir (after_events es)) →
  NoDup (rq_pods r) → (∀ p, p ∈ rq_pods r → is_Some (generalpodid_to_pod_ip cfg !! p)) → (∀ l, l ≠ [] → random_choice l ∈ l) →
  ∃ res s' resp, infer_from_tensor env_metadata np_exp hp r (after_events es) = (Ret res, s') ∧
    (route_request tuple_hash cfg (rq_pods r) random_choice num_trains use_fallback raw waiting (agent_result_of res) pgm).1 = Ret resp ∧
    selected_pod_generalpodid resp ∈ rq_pods r ∧ generalpodid_to_pod_ip cfg !! selected_pod_generalpodid resp = Some (selected_pod resp).
Proof.
  intros Hes Hr Hm Hf Hnd Hip Hrand.
  destruct (infer_runs r _ n (after_events_ok es Hes) Hr Hm Hf) as (res & s' & a & E & (Hi & Hl & _) & _). destruct Hr as (_ & Hp & _).
  destruct (route_request_runs NP tuple_hash cfg (rq_pods r) random_choice num_trains use_fallback raw waiting (agent_result_of res) pgm)
    as (resp & E' & Hin & Hpip & _); [done|simpl; congruence|simpl; unfold py_len; lia|done|done|].
  by exists res, s', resp.
Qed.

(** Requests one after the other *)
Definition after_requests (rs : list request) (s : service) : service := foldl (λ s r, serve_event s (Request r)) s rs.

Lemma misfit_request r s :
  service_ok s → net_exists (model_dir s) = true → ¬ fits (current_config r).1 (model_dir s) → cached_config_key s ≠ Some (current_config r) →
  infer_from_tensor env_metadata np_exp hp r s = (Raise RuntimeError, if rq_model_updated r then s else set_consumed false s).
Proof.
  intros Hs He Hf Hk. unfold infer_from_tensor, bind. destruct (prepare_agent_runs r s Hs) as [([Hf'|[Hk' _]] & _)|(_ & _ & _ & ->)]; done.
Qed.

(** A model of other dimensions stops the serving: when the features of the requests change
    so that the model in the directory has another width of contexts, then not only the first
    request raises. Every request of the new configuration does, however many come,
    because the agent that is cached stays the old one. *)
Theorem dimension_change_refused es config rs r :
  Forall event_ok es → let s := after_events es in
  net_exists (model_dir s) = true → ¬ fits config.1 (model_dir s) → cached_config_key s ≠ Some config →
  Forall (λ r, current_config r = config) (rs ++ [r]) →
  (infer_from_tensor env_metadata np_exp hp r (after_requests rs s)).1 = Raise RuntimeError ∧
  cached_agent (after_requests rs s) = cached_agent s.
Proof.
  intros Hes s He Hf Hk [Hrs [Hr _]%Forall_cons]%Forall_app.
  assert (∀ s', service_ok s' ∧ model_dir s' = model_dir s ∧ cached_config_key s' = cached_config_key s ∧ cached_agent s' = cached_agent s →
    Forall (λ r, current_config r = config) rs →
    let s'' := after_requests rs s' in
    service_ok s'' ∧ model_dir s'' = model_dir s ∧ cached_config_key s'' = cached_config_key s ∧ cached_agent s'' = cached_agent s) as Hind.
  { clear Hrs. induction rs as [|q rs IH]; intros s' Hs' Hrs; [done|]. apply Forall_cons in Hrs as [Hq Hrs]. apply IH; [|done].
    destruct Hs' as (Hs' & Hd & Hk' & Ha). simpl. rewrite misfit_request; [|done|congruence|by rewrite Hd, Hq|congruence].
    simpl. case_match; [done|]. split_and!; [by apply set_consumed_ok|done..]. }
  destruct (Hind s) as (Hs' & Hd & Hk' & Ha); [by split_and!; [apply after_events_ok|..]|done|]. split; [|done].
  rewrite misfit_request; [done|done|congruence|by rewrite Hd, Hr|congruence].
Qed.

(** A reload is on its way, and the update that started it is marked as taken. *)
Definition reloading (config : state_dims * nat) (j : reload_job) (fs : files) (s : service) : Prop :=
  service_ok s ∧ reload s = Some j ∧ model_updated_consumed s = true ∧ cached_config_key s = Some config ∧ is_Some (cached_agent s) ∧ model_dir s = fs.

Lemma on_agent_keeps {A} (m : M RewardPredictor A) (s : service) :
  is_Some (cached_agent s) →
  let s' := (on_agent m s).2 in
  is_Some (cached_agent s') ∧ reload s' = reload s ∧ model_updated_consumed s' = model_updated_consumed s ∧
  cached_config_key s' = cached_config_key s ∧ model_dir s' = model_dir s.
Proof. intros [a Ha]. unfold on_agent. rewrite Ha. destruct (m a). simpl. eauto. Qed.

Lemma answer_state r s : (answer np_exp hp r s).2 = (on_agent (choose_action (as_batch (rq_pod_features r)) (as_batch (rq_kv_hit_ratios r))
  (as_batch (rq_request_features r)) (negb (default true (explore hp))) (rq_draws r)) s).2.
Proof.
  unfold answer. unfold bind at 1. destruct (on_agent _ s) as [[[[i rew] e]| |] s1]; [|done..].
  unfold bind, lift, get. destruct (py_index _ _); [|done..].
  generalize (if 1 <=? default 0 (RETURN_POD_PROBABILITIES hp)
    then try* p := probabilities np_exp rew (rq_pods r) in Ret (Some p) else Ret None).
  intros [p| |]; [|done..]. by destruct (cached_agent s1).
Qed.

Lemma reloading_request config j fs r s :
  reloading config j fs s → current_config r = config → rq_model_updated r = true → reloading config j fs (serve_event s (Request r)).
Proof.
  intros (Hs & Hj & Hc & Hk & Ha & Hd) Hr Hu. split; [by apply serve_event_ok|]. simpl. unfold infer_from_tensor.
  assert (prepare env_metadata hp r s = (Ret tt, s)) as Hp.
  { unfold prepare, bind. rewrite Hu, Hr. simpl. rewrite Hc. unfold needs_sync_reload. rewrite !bool_decide_eq_true_2 by done. done. }
  unfold bind. rewrite Hp, answer_state. destruct (on_agent_keeps (choose_action (as_batch (rq_pod_features r)) (as_batch (rq_kv_hit_ratios r))
    (as_batch (rq_request_features r)) (negb (default true (explore hp))) (rq_draws r)) s Ha) as (H1 & H2 & H3 & H4 & H5).
  rewrite H2, H3, H4, H5. done.
Qed.

Lemma reloading_requests config j fs rs s :
  reloading config j fs s → Forall (λ q, rq_model_updated q = true ∧ current_config q = config) rs → reloading config j fs (after_requests rs s).
Proof.
  intros Hs Hrs. revert s Hs. induction Hrs as [|q rs [Hu Hq] Hrs IH]; intros s Hs; [done|]. by apply IH, reloading_request.
Qed.

(** The reload starts with the first request that sees the update. *)
Lemma first_update_request r s old :
  service_ok s → cached_agent s = Some old → cached_config_key s = Some (current_config r) → rq_model_updated r = true →
  rq_acquired r = true → model_updated_consumed s = false → reload_in_progress s = false →
  reloading (current_config r) (mkReload (current_config r).1 (current_config r).2 hp (epsilon old) (total_steps old)) (model_dir s)
    (serve_event s (Request r)).
Proof.
  intros Hs Ha Hk Hu Hacq Hc Hp. split; [by apply serve_event_ok|]. simpl. unfold infer_from_tensor.
  set (s1 := set_consumed true (set_reload true (Some (mkReload (current_config r).1 (current_config r).2 hp (epsilon old) (total_steps old))) s)).
  assert (prepare env_metadata hp r s = (Ret tt, s1)) as Hprep.
  { unfold prepare, bind. rewrite Hu. simpl. rewrite Hc. unfold needs_sync_reload. rewrite !bool_decide_eq_true_2 by (done || by rewrite Ha). simpl.
    unfold start_reload, bind. simpl. by rewrite Ha, Hacq, Hp. }
  unfold bind. rewrite Hprep, answer_state. destruct (on_agent_keeps (choose_action (as_batch (rq_pod_features r)) (as_batch (rq_kv_hit_ratios r))
    (as_batch (rq_request_features r)) (negb (default true (explore hp))) (rq_draws r)) s1) as (H1 & H2 & H3 & H4 & H5); [by exists old|].
  rewrite H2, H3, H4, H5. done.
Qed.

Lemma reload_body_weights j fs w :
  dir_ok fs → rj_hyper j = hp → fs !! file_name "reward_net" "" ".pth" = Some (FNet w) → in_features (scorer_0 w) = per_pod_context_dim (rj_dims j) →
  ∃ a, reload_body env_metadata j fs = Ret a ∧ reward_net a = w.
Proof.
  intros Hd Hj Hw Hin. assert (net_exists fs = true) as He by (unfold net_exists; apply bool_decide_eq_true_2; by rewrite Hw).
  destruct Hd as [?|(saved & Hok & Hnet & Hf)]; [congruence|]. assert (reward_net saved = w) as <- by (destruct Hf as [Hf _]; congruence).
  pose proof (new_serves (rj_dims j) (rj_pods j)) as Hn. unfold reload_body. rewrite He, Hj. rewrite (load_weights_runs _ _ _ _ _ _ Hf).
  - destruct (load_metadata_on_infer _ _); (eexists; split; [reflexivity|done]).
  - rewrite (nw_shapes _ _ _ (sv_net _ _ Hn)), (nw_shapes _ _ _ Hnet). simpl. rewrite <-Hin, (net_wf_in _ _ _ Hnet). done.
Qed.

(** C22: A trained model reaches the requests: the first request after the update starts one
    reload; the requests that still see the flag of the update, however many and whatever comes of
    them, leave that reload as it is; and when the thread ends, the cached agent has the weights of the
    model in the directory, the exploration state of the start, and the flags say so. *)
Theorem model_update_applied es r rs w :
  Forall event_ok es → let s := after_events es in
  model_dir s !! file_name "reward_net" "" ".pth" = Some (FNet w) → in_features (scorer_0 w) = per_pod_context_dim (current_config r).1 →
  cached_config_key s = Some (current_config r) → is_Some (cached_agent s) →
  rq_acquired r = true → model_updated_consumed s = false → reload_in_progress s = false →
  Forall (λ q, rq_model_updated q = true ∧ current_config q = current_config r) (r :: rs) →
  let s' := after_requests (r :: rs) s in
  ∃ a, cached_agent (serve_event s' ReloadDone) = Some a ∧ reward_net a = w ∧
    (∀ old, cached_agent s = Some old → epsilon a = epsilon old ∧ total_steps a = total_steps old) ∧
    is_Some (reload s') ∧ reload (serve_event s' ReloadDone) = None ∧ model_updated_consumed (serve_event s' ReloadDone) = true.
Proof.
  intros Hes s Hw Hin Hk [old Ha] Hacq Hc Hp [[Hu Hq] Hrs]%Forall_cons s'. pose proof (after_events_ok es Hes) as Hs. fold s in Hs.
  set (j := mkReload (current_config r).1 (current_config r).2 hp (epsilon old) (total_steps old)).
  assert (reloading (current_config r) j (model_dir s) s') as (Hs' & Hj & Hc' & _ & _ & Hd).
  { apply (reloading_requests _ _ _ rs (serve_event s (Request r))); [by apply first_update_request|done]. }
  destruct (reload_body_weights j (model_dir s) w) as (a & E & Ew); [apply Hs|done|done|done|].
  exists (keep_exploration (epsilon old) (total_steps old) a). simpl. unfold finish_reload, bind. simpl. rewrite Hj, Hd, E. simpl.
  split_and!; [done|done| |by eexists|done|done]. intros old'. rewrite Ha. by intros [= <-].
Qed.

(** C24: Requests are served with the dropout layers on: no call puts the network of a new agent
    into evaluation mode for the choice of a pod, so, after any requests, reloads and trained
    models, also without exploration, the reward of a pod depends on which hidden units
    happen to be dropped for it, so that pods with equal features can get different rewards. *)
Theorem serving_with_dropout es r n :
  Forall event_ok es → request_valid r n → method ∈ known_methods → fits (current_config r).1 (model_dir (after_events es)) →
  ∃ res s' a, infer_from_tensor env_metadata np_exp hp r (after_events es) = (Ret res, s') ∧
    cached_agent s' = Some (after_choice (selected_index res) a) ∧
    ∀ j x, (j < n)%nat →
      context_at (as_batch (rq_pod_features r)) (as_batch (rq_kv_hit_ratios r)) (as_batch (rq_request_features r)) 0 j = Some x →
      rewards_of_pods res !! j = Some (score (reward_net a) true (dr_keep (rq_draws r) j) x).
Proof.
  intros Hes Hr Hm Hf. destruct (infer_runs r _ n (after_events_ok es Hes) Hr Hm Hf) as (res & s' & a & E & _ & _ & Ht & Ha & Hrew & _).
  exists res, s', a. split_and!; [done..|]. intros j x Hj Hx. rewrite Hrew, <-Ht. by apply predictions_lookup.
Qed.

Lemma Qsum_div l c : (Qsum ((λ x, x / c)%Q <$> l) == Qsum l / c)%Q.
Proof. induction l as [|x l IH]; csimpl; [unfold Qdiv; ring|]. rewrite IH. unfold Qdiv. ring. Qed.

Lemma Qsum_positive l : Forall (λ x, 0 < x)%Q l → (0 <= Qsum l)%Q.
Proof. induction 1 as [|x l Hx Hl IH]; [apply Qle_refl|]. csimpl. cbv beta in *. lra. Qed.

Lemma Qsum_pos l : Forall (λ x, 0 < x)%Q l → l ≠ [] → (0 < Qsum l)%Q.
Proof. intros [|x l' Hx Hl] Hne; [done|]. csimpl. pose proof (Qsum_positive _ Hl). cbv beta in *. lra. Qed.

(** The probabilities of a result are a distribution over the pods, one for each, all
    positive, with sum one, and a pod of greater predicted reward has no smaller probability. *)
Theorem probabilities_distribution rewards pods :
  (∀ x, 0 < np_exp x)%Q → (∀ x y, x <= y → np_exp x <= np_exp y)%Q →
  rewards ≠ [] → NoDup pods → length pods = length rewards →
  ∃ ps, probabilities np_exp rewards pods = Ret (zip pods ps) ∧ length ps = length pods ∧ Forall (λ p, 0 < p)%Q ps ∧ (Qsum ps == 1)%Q ∧
    ∀ i j ri rj pi pj, rewards !! i = Some ri → rewards !! j = Some rj → ps !! i = Some pi → ps !! j = Some pj →
      (ri <= rj)%Q → (pi <= pj)%Q.
Proof.
  intros Hpos Hmono Hne Hnd Hl. unfold probabilities. set (exps := (λ x, np_exp (x - np_max rewards)%Q) <$> rewards).
  assert (0 < Qsum exps)%Q as Hsum.
  { apply Qsum_pos; [|by destruct rewards]. apply Forall_fmap, Forall_forall. intros x _. apply Hpos. }
  destruct (Qeq_bool (Qsum exps) 0) eqn:Eq; [apply Qeq_bool_iff in Eq; lra|]. set (ps := (λ x, x / Qsum exps)%Q <$> exps).
  assert (length ps = length pods) as Hps by (unfold ps, exps; by rewrite !length_fmap).
  exists ps. split_and!; [|done| | |].
  - assert (py_len pods = py_len ps) as -> by (unfold py_len; by rewrite Hps). rewrite index_all. simpl.
    rewrite assoc_update_nil; [done|]. change (zip pods ps).*1 with (fst <$> zip pods ps). rewrite fst_zip by lia. done.
  - unfold ps. apply Forall_fmap. apply Forall_fmap, Forall_forall. intros x _. simpl. apply Qlt_shift_div_l; [done|]. rewrite Qmult_0_l. apply Hpos.
  - unfold ps. rewrite Qsum_div. field. lra.
  - intros i j ri rj pi pj Hi Hj Hpi Hpj Hle. unfold ps, exps in Hpi, Hpj. rewrite !list_lookup_fmap, Hi in Hpi. rewrite !list_lookup_fmap, Hj in Hpj.
    simpl in *. injection Hpi as <-. injection Hpj as <-. unfold Qdiv. apply Qmult_le_compat_r; [apply Hmono; lra|].
    apply Qinv_le_0_compat, Qlt_le_weak, Hsum.
Qed.

End serving.

(** ** Lemmas: splitting and batching *)

Section split.
Context {T : Torch} {TL : TorchLaws T}.

(** The rows of [x] at some places *)
Definition rows_at {A} (idx : list nat) (x : list A) : list A := omap (λ i, x !! i) idx.

Lemma rows_at_seq {A} (x : list A) : rows_at (seq 0 (length x)) x = x.
Proof.
  assert (∀ k, (k ≤ length x)%nat → omap (λ i, x !! i) (seq k (length x - k)) = drop k x) as H.
  { intros k Hk. remember (length x - k)%nat as m eqn:Em. revert k Hk Em. induction m as [|m IH]; intros k Hk Em.
    - simpl. by rewrite drop_ge by lia.
    - destruct (lookup_lt_is_Some_2 x k) as [y Hy]; [lia|]. csimpl. rewrite Hy, IH by lia. by rewrite (drop_S x y k). }
  specialize (H 0%nat ltac:(lia)). by rewrite Nat.sub_0_r, drop_0 in H.
Qed.

Lemma rows_at_perm {A} idx (x : list A) : idx ≡ₚ seq 0 (length x) → rows_at idx x ≡ₚ x.
Proof. intros Hp. rewrite <-(rows_at_seq x) at 2. unfold rows_at. by rewrite Hp. Qed.

Lemma rows_at_app {A} i1 i2 (x : list A) : rows_at (i1 ++ i2) x = rows_at i1 x ++ rows_at i2 x.
Proof. induction i1 as [|i i1 IH]; [done|]. unfold rows_at in *. csimpl. destruct (x !! i); simpl; by rewrite IH. Qed.

Lemma rows_at_length {A} idx (x : list A) : Forall (λ i, (i < length x)%nat) idx → length (rows_at idx x) = length idx.
Proof.
  induction 1 as [|i idx Hi Hidx IH]; [done|]. unfold rows_at in *. csimpl. destruct (lookup_lt_is_Some_2 x i Hi) as [y ->]. simpl. by rewrite IH.
Qed.

Lemma rows_at_Forall {A} (P : A → Prop) idx x : Forall P x → Forall P (rows_at idx x).
Proof.
  intros Hx. induction idx as [|i idx IH]; [constructor|]. unfold rows_at in *. csimpl. destruct (x !! i) as [y|] eqn:E; [|done].
  apply Forall_cons. split; [exact (Forall_lookup_1 _ _ _ _ Hx E)|exact IH].
Qed.

Lemma rows_at_zip {A B} idx (x : list A) (y : list B) : length x = length y → rows_at idx (zip x y) = zip (rows_at idx x) (rows_at idx y).
Proof.
  intros Hl. induction idx as [|i idx IH]; [done|]. unfold rows_at in *. csimpl. rewrite lookup_zip_with.
  destruct (x !! i) as [v|] eqn:E; simpl.
  - destruct (lookup_lt_is_Some_2 y i) as [w ->]; [rewrite <-Hl; by eapply lookup_lt_Some|]. simpl. by rewrite IH.
  - assert (y !! i = None) as -> by (apply lookup_ge_None; rewrite <-Hl; by apply lookup_ge_None). exact IH.
Qed.

(** A sample of a file: the tensors of its row, its action and its reward *)
Definition samples (b : batch) : list (np2 * np2 * list Q * Z * Q) :=
  zip (zip (zip (zip (b_pod_features b) (b_kv_hit_ratios b)) (b_request_features b)) (b_actions b)) (b_rewards b).

Definition aligned (b : batch) : Prop :=
  let n := length (b_actions b) in
  length (b_pod_features b) = n ∧ length (b_kv_hit_ratios b) = n ∧ length (b_request_features b) = n ∧ length (b_rewards b) = n.

Lemma split_samples idx b : aligned b → samples (split_batch (length (b_actions b)) idx b) = rows_at idx (samples b).
Proof.
  intros (H1 & H2 & H3 & H4). unfold samples, split_batch, split_rows. simpl. rewrite H1, H2, H3, H4, !Nat.eqb_refl. fold @rows_at.
  rewrite !rows_at_zip by (rewrite ?length_zip_with; lia). done.
Qed.

Lemma samples_length b : aligned b → length (samples b) = length (b_actions b).
Proof. intros (H1 & H2 & H3 & H4). unfold samples. rewrite !length_zip_with. lia. Qed.

Lemma test_size_pos n ratio : (1 ≤ test_size n ratio)%nat.
Proof. unfold test_size. lia. Qed.

Lemma omap_split {A B} (p : A → bool) (f : A → option B) (l : list A) :
  omap (λ i, if p i then None else f i) l ++ omap (λ i, if p i then f i else None) l ≡ₚ omap f l.
Proof.
  induction l as [|x l IH]; [done|]. csimpl. destruct (p x); simpl; [|destruct (f x); simpl; by rewrite ?IH].
  destruct (f x); simpl; [|done]. by rewrite <-Permutation_middle, IH.
Qed.

Lemma split_file_samples ratio perm d :
  (∀ n, perm n ≡ₚ seq 0 n) → aligned (ds_batch d) →
  let '(a, b) := split_file ratio perm d in
  samples (ds_batch a) ++ samples (ds_batch b) ≡ₚ samples (ds_batch d) ∧
  length (samples (ds_batch b)) = Nat.min (test_size (ds_size d) ratio) (ds_size d).
Proof.
  intros Hp Ha. unfold split_file, split_dataset, ds_size. cbn [ds_batch]. rewrite !split_samples by done. set (n := length (b_actions (ds_batch d))).
  pose proof (samples_length _ Ha) as Hn. fold n in Hn. split.
  - rewrite Permutation_app_comm, <-rows_at_app, take_drop. apply rows_at_perm. by rewrite Hn.
  - rewrite rows_at_length, length_take; [by rewrite (Permutation_length (Hp n)), length_seq|]. apply Forall_take, Forall_forall. intros i Hi.
    rewrite (Hp n) in Hi. apply elem_of_seq in Hi. lia.
Qed.

(** The test rows of a round are held out: with five files or more every file is either
    a training or a test file; with fewer, the samples of every file are divided into
    training and test samples, as they are and each into one of the two, with at least one
    test sample. So nothing is trained from a file with a single sample. *)
Theorem split_partitions ratio td ds :
  (∀ k n, split_perm td k n ≡ₚ seq 0 n) → Forall (λ d, aligned (ds_batch d)) ds →
  let '(tr, te) := train_test_split ratio td ds in
  ((5 ≤ length ds)%nat → tr ++ te ≡ₚ ds) ∧
  ((length ds < 5)%nat → length tr = length ds ∧ length te = length ds ∧
     ∀ k d, ds !! k = Some d → ∃ a b, tr !! k = Some a ∧ te !! k = Some b ∧
       samples (ds_batch a) ++ samples (ds_batch b) ≡ₚ samples (ds_batch d) ∧
       length (samples (ds_batch b)) = Nat.min (test_size (ds_size d) ratio) (ds_size d) ∧
       (ds_size d = 1%nat → samples (ds_batch a) = [])).
Proof.
  intros Hp Hds. unfold train_test_split. destruct (Nat.leb_spec 5 (length ds)) as [H5|H5]; split; try lia; intros _.
  - rewrite (omap_split (λ i, bool_decide (i ∈ _)) (λ i, ds !! i)). fold (rows_at (seq 0 (length ds)) ds). by rewrite rows_at_seq.
  - rewrite !length_fmap, length_imap. split_and!; [done..|]. intros k d Hk.
    pose proof (split_file_samples ratio (split_perm td k) d (Hp k) (Forall_lookup_1 _ _ _ _ Hds Hk)) as Hs.
    destruct (split_file ratio (split_perm td k) d) as [a b] eqn:E. exists a, b. rewrite !list_lookup_fmap, list_lookup_imap, Hk. cbv [fmap option_fmap option_map]. rewrite E.
    destruct Hs as [Hs Hl]. split_and!; [done..|]. intros H1. pose proof (test_size_pos (ds_size d) ratio). apply Permutation_length in Hs.
    pose proof (samples_length _ (Forall_lookup_1 _ _ _ _ Hds Hk)) as Hd. fold (ds_size d) in Hd. rewrite length_app in Hs.
    apply nil_length_inv. lia.
Qed.

End split.

(** ** Lemmas: a training round *)

Section training.
Context {T : Torch} {TL : TorchLaws T} {NP : Numpy Q} {SQ : Sqrt Q} (norm2 : list Q → Q).

Definition decay_step (st : settings) (e : Q) : Q := py_max (epsilon_min st) (e * epsilon_decay st)%Q.

(** What [k] updates leave of an agent, and what they change *)
Record trained (k : nat) (a a' : RewardPredictor) : Prop := mkTrained {
  tr_ok : agent_ok a';
  tr_fixed : fixed a' = fixed a;
  tr_mode : training a' = training a;
  tr_lr : adam_lr (optimizer a') = adam_lr (optimizer a);
  tr_scheduler : scheduler a' = scheduler a;
  tr_epsilon : epsilon a' = Nat.iter k (decay_step (fixed a)) (epsilon a);
  tr_counts : action_counts a' = action_counts a;
  tr_steps : total_steps a' = total_steps a;
  tr_losses : mlen (training_metrics a') "losses" = (mlen (training_metrics a) "losses" + k)%nat;
  tr_eval : mlen (training_metrics a') "eval_losses" = mlen (training_metrics a) "eval_losses";
  tr_net : ∀ d h, net_wf d h (reward_net a) → net_wf d h (reward_net a')
}.

Lemma trained_0 a : agent_ok a → trained 0 a a.
Proof. intros Ha. by split; try done; simpl; lia. Qed.

Lemma trained_trans j k a b c : trained j a b → trained k b c → trained (j + k) a c.
Proof.
  intros [] []. split; try done; try congruence; [|lia|auto]. rewrite tr_epsilon1, tr_epsilon0, tr_fixed0, Nat.add_comm, Nat.iter_add. done.
Qed.

Lemma index_rows_ok {A} idx (x : list A) : Forall (λ i, (i < length x)%nat) idx → index_rows idx x = Ret (rows_at idx x).
Proof.
  induction 1 as [|i idx Hi Hidx IH]; [done|]. unfold index_rows in *. simpl. destruct (lookup_lt_is_Some_2 x i Hi) as [y Hy]. rewrite Hy. simpl.
  rewrite IH. unfold rows_at. csimpl. by rewrite ?Hy.
Qed.

Definition opt_len {A} (n : nat) (x : option (list A)) : Prop := ∀ l, x = Some l → length l = n.

Lemma index_opt_ok {A} idx n (x : option (list A)) :
  opt_len n x → Forall (λ i, (i < n)%nat) idx → ∃ y, index_opt idx x = Ret y ∧ opt_len (length idx) y ∧ (y = None ↔ x = None).
Proof.
  intros Hx Hi. destruct x as [l|]; [|by exists None]. simpl. pose proof (Hx l eq_refl) as Hl. subst n. rewrite index_rows_ok by done.
  eexists. split; [done|]. split; [|done]. intros l' [= <-]. by apply rows_at_length.
Qed.

Lemma index_batch_ok d n b idx :
  batch_ok d n b → Forall (λ i, (i < length (b_actions b))%nat) idx →
  ∃ b', index_batch idx b = Ret b' ∧ batch_ok d n b' ∧ length (b_actions b') = length idx.
Proof.
  intros [Hn [Lp Hp] [Lk Hk] [Lr Hr] Ha Lw Ht Hw] Hi. unfold index_batch. rewrite !index_rows_ok by (by rewrite ?Lp, ?Lk, ?Lr, ?Lw). cbn [obind].
  destruct (index_opt_ok idx _ (b_input_tokens b) Ht Hi) as (tk & -> & Htk & _). cbn [obind].
  destruct (index_opt_ok idx _ (b_sample_weights b) Hw Hi) as (sw & -> & Hsw & _). cbn [obind].
  assert (∀ {A} (x : list A), length x = length (b_actions b) → length (rows_at idx x) = length idx) as Hl.
  { intros A x Hx. apply rows_at_length. by rewrite Hx. }
  eexists. split; [done|]. split; [|simpl; by apply Hl].
  split; simpl; rewrite ?(Hl _ (b_actions b)) by done; try done.
  - split; [by apply Hl|by apply rows_at_Forall].
  - split; [by apply Hl|by apply rows_at_Forall].
  - split; [by apply Hl|by apply rows_at_Forall].
  - by apply rows_at_Forall.
  - by apply Hl.
Qed.

(** A file of a round: for some number of pods, with one latency per row where given *)
Definition dataset_ok (d : state_dims) (x : dataset) : Prop :=
  (∃ n, batch_ok d n (ds_batch x)) ∧ opt_len (ds_size x) (ds_ttft x) ∧ opt_len (ds_size x) (ds_avg_tpot x).

Lemma py_index_defined {A} (l : list A) i : (i < length l)%nat → ∃ x, py_index l (Z.of_nat i) = Ret x.
Proof.
  intros Hi. destruct (lookup_lt_is_Some_2 l i Hi) as [x Hx]. exists x. apply py_index_lookup; [lia|]. by rewrite Nat2Z.id.
Qed.

Lemma latency_entries_ok b ttft tpot i n :
  (i < n)%nat → length (b_rewards b) = n → length ttft = n → opt_len n tpot → opt_len n (b_input_tokens b) →
  ∃ es, latency_entries b ttft tpot i = Ret es ∧ known_keys es = true ∧
    (∀ k, k ∉ ["reward_latency_pairs"; "ttft_values"; "tpot_values"; "reward_latency_input_tuples"] → added k es = 0%nat).
Proof.
  intros Hi Hr Ht Hp Hk. unfold latency_entries. destruct (py_index_defined (b_rewards b) i) as [rew ->]; [lia|].
  destruct (py_index_defined ttft i) as [t ->]; [lia|]. cbn [obind].
  assert (∃ p, match tpot with Some l => try* v := py_index l (Z.of_nat i) in Ret [("tpot_values", [MNum v])] | None => Ret [] end = Ret p ∧
    (p = [] ∨ ∃ v, p = [("tpot_values", [MNum v])])) as (p & -> & Hpv).
  { destruct tpot as [l|]; [|by exists []; auto]. destruct (py_index_defined l i) as [v ->]; [by rewrite (Hp l)|]. eexists. split; [done|]. right. by eexists. }
  cbn [obind].
  assert (∃ k, match b_input_tokens b with
    | Some l => try* v := py_index l (Z.of_nat i) in Ret [("reward_latency_input_tuples", [MTriple rew t v])] | None => Ret [] end = Ret k ∧
    (k = [] ∨ ∃ v, k = [("reward_latency_input_tuples", [MTriple rew t v])])) as (k & -> & Hkv).
  { destruct (b_input_tokens b) as [l|]; [|by exists []; auto]. destruct (py_index_defined l i) as [v ->]; [by rewrite (Hk l)|]. eexists. split; [done|]. right. by eexists. }
  cbn [obind]. eexists. split; [done|]. split.
  - destruct Hpv as [->|[v ->]], Hkv as [->|[v' ->]]; done.
  - intros key Hkey. rewrite !not_elem_of_cons in Hkey. destruct Hkey as (H1 & H2 & H3 & H4 & _).
    apply String.eqb_neq in H1, H2, H3, H4. destruct Hpv as [->|[v ->]], Hkv as [->|[v' ->]]; simpl; by rewrite ?H1, ?H2, ?H3, ?H4.
Qed.

(** Extensions of lists that no update extends *)
Lemma extend_trained es a :
  agent_ok a → known_keys es = true →
  (∀ k, k ∉ ["reward_latency_pairs"; "ttft_values"; "tpot_values"; "reward_latency_input_tuples"] → added k es = 0%nat) →
  trained 0 a (on_metrics (extend_metrics es) a).
Proof.
  intros Ha Hk Hz. pose proof (ao_metrics a Ha) as Hm.
  assert (∀ k, bool_decide (k ∉ ["reward_latency_pairs"; "ttft_values"; "tpot_values"; "reward_latency_input_tuples"]) = true → added k es = 0%nat) as Hz'.
  { intros k Hb. apply Hz. by apply bool_decide_eq_true in Hb. }
  split; try done; simpl; try (rewrite known_len, Hz' by done; lia). split; [apply Ha|]. apply extend_ok; [done|done| | |].
  - apply Forall_forall. intros k Hin. rewrite (Hz' "losses") by done. apply Hz'. unfold update_keys in Hin.
    repeat (apply elem_of_cons in Hin as [->|Hin]; [done|]). by apply not_elem_of_nil in Hin.
  - apply Forall_forall. intros k Hin. rewrite (Hz' "counterfactual_gains") by done. apply Hz'. unfold sampled_keys in Hin.
    repeat (apply elem_of_cons in Hin as [->|Hin]; [done|]). by apply not_elem_of_nil in Hin.
  - rewrite Hz' by done. pose proof (mo_tables _ Hm). lia.
Qed.

Lemma for_results_trained {A B} st (l : list A) (body : A → M RewardPredictor B) (f : A → nat) (g : A → B → Prop) :
  (∀ x a, x ∈ l → agent_ok a → fixed a = st → ∃ r a', body x a = (Ret r, a') ∧ trained (f x) a a' ∧ g x r) →
  ∀ a, agent_ok a → fixed a = st → ∃ rs a', for_results l body a = (Ret rs, a') ∧ trained (sum_list_with f l) a a' ∧ Forall2 g l rs.
Proof.
  induction l as [|x l IH]; intros Hb a Ha Hst; [exists [], a; split_and!; [done|by apply trained_0|constructor]|].
  destruct (Hb x a) as (y & a1 & E & H1 & Hg); [left|done..|].
  destruct (IH ltac:(intros; apply Hb; [by right|done..]) a1) as (ys & a' & E' & H2 & Hgs); [apply H1|by rewrite (tr_fixed _ _ _ H1)|].
  exists (y :: ys), a'. split_and!; [|simpl; by eapply trained_trans|by constructor]. simpl. unfold bind at 1. rewrite E. unfold bind at 1. by rewrite E'.
Qed.

Lemma for_each_trained {A} st (l : list A) (body : A → M RewardPredictor unit) :
  (∀ x a, x ∈ l → agent_ok a → fixed a = st → ∃ a', body x a = (Ret tt, a') ∧ trained 0 a a') →
  ∀ a, agent_ok a → fixed a = st → ∃ a', for_each l body a = (Ret tt, a') ∧ trained 0 a a'.
Proof.
  induction l as [|x l IH]; intros Hb a Ha Hst; [exists a; split; [done|by apply trained_0]|].
  destruct (Hb x a) as (a1 & E & H1); [left|done..|].
  destruct (IH ltac:(intros; apply Hb; [by right|done..]) a1) as (a' & E' & H2); [apply H1|by rewrite (tr_fixed _ _ _ H1)|].
  exists a'. split; [|by apply (trained_trans 0 0 _ a1)]. simpl. unfold bind. by rewrite E.
Qed.

Lemma record_latencies_runs d x idx b rows a :
  agent_ok a → dataset_ok d x → Forall (λ i, (i < ds_size x)%nat) idx → length (b_actions b) = length idx → length (b_rewards b) = length idx →
  opt_len (length idx) (b_input_tokens b) → Forall (λ i, (i < length idx)%nat) (rows (length idx)) →
  ∃ a', record_latencies x idx b rows a = (Ret tt, a') ∧ trained 0 a a'.
Proof.
  intros Ha (_ & Ht & Hp) Hi La Lr Htok Hrows. unfold record_latencies. destruct (ds_ttft x) as [ttft|] eqn:Ett; [|exists a; split; [done|by apply trained_0]].
  rewrite index_rows_ok by (by rewrite (Ht ttft)). unfold bind at 1, lift at 1.
  destruct (index_opt_ok idx _ (ds_avg_tpot x) Hp Hi) as (tp & -> & Htp & _). unfold bind at 1, lift at 1. rewrite La.
  apply (for_each_trained (fixed a)); [|done..]. intros i a1 Hin Ha1 _. rewrite Forall_forall in Hrows. specialize (Hrows i Hin). simpl in Hrows.
  destruct (latency_entries_ok b (rows_at idx ttft) tp i (length idx)) as (es & E & Hk & Hz); [done|done| |done|done|].
  { apply rows_at_length. by rewrite (Ht ttft). }
  unfold bind, lift, modify. rewrite E. eexists. split; [done|]. by apply extend_trained.
Qed.

Lemma updated_trained a a' : agent_ok a' → updated a a' → trained 1 a a'.
Proof. intros Ha []. split; try done. lia. Qed.

Lemma train_batch_runs d x idx rows keep a :
  agent_ok a → state_dim (fixed a) = d → dataset_ok d x → Forall (λ i, (i < ds_size x)%nat) idx → idx ≠ [] →
  Forall (λ i, (i < length idx)%nat) (rows (length idx)) →
  ∃ r a', train_batch norm2 x idx rows keep a = (Ret r, a') ∧ trained 1 a a'.
Proof.
  intros Ha Hd Hx Hi Hne Hrows. destruct Hx as [[n Hb] Hx]. destruct (index_batch_ok d n (ds_batch x) idx Hb Hi) as (b & E & Hb' & Lb).
  destruct (record_latencies_runs d x idx b rows a) as (a1 & E1 & H1); [done|split; [by exists n|done]|done|done| | |done|].
  { by rewrite (bo_rewards _ _ _ Hb'). } { intros t Ht. by rewrite (bo_tokens _ _ _ Hb' t Ht). }
  destruct (learn_runs norm2 keep b n a1) as (loss & a' & E2 & Ha' & Hu); [apply H1|by rewrite (tr_fixed _ _ _ H1), Hd| |].
  { intros E0. rewrite E0 in Lb. by destruct idx. }
  eexists _, a'. split; [|apply (trained_trans 0 1 _ a1); [done|by apply updated_trained]].
  unfold train_batch. unfold bind at 1, lift at 1. rewrite E. unfold bind at 1. rewrite E1. exact E2.
Qed.

(** The batches of a file *)
Lemma batch_indices_take indices bs (k : nat) :
  0 < bs → Z.of_nat k * bs ≤ py_len indices → batch_indices indices bs (Z.of_nat k) = take (Z.to_nat bs) (drop (k * Z.to_nat bs) indices).
Proof.
  intros Hb Hk. unfold batch_indices. rewrite py_slice_take_drop by (unfold py_len in *; lia).
  replace (Z.to_nat (Z.of_nat k * bs)) with (k * Z.to_nat bs)%nat by nia. unfold py_len in *.
  destruct (Z.le_gt_cases (Z.of_nat k * bs + bs) (Z.of_nat (length indices))).
  - f_equal. lia.
  - rewrite !take_ge; [done|rewrite length_drop; nia..].
Qed.

Lemma num_batches_spec n bs k : 0 < bs → (k < Z.to_nat (num_batches n bs))%nat ↔ Z.of_nat k * bs < Z.of_nat n.
Proof.
  intros Hb. unfold num_batches. pose proof (Z.div_mod (Z.of_nat n + bs - 1) bs ltac:(lia)). pose proof (Z.mod_pos_bound (Z.of_nat n + bs - 1) bs Hb). nia.
Qed.

Lemma batches_cover indices bs :
  0 < bs → concat (batch_indices indices bs <$> py_range (num_batches (length indices) bs)) = indices.
Proof.
  intros Hb. unfold py_range. rewrite <-list_fmap_compose. set (m := Z.to_nat (num_batches (length indices) bs)).
  trans (concat ((λ i, take (Z.to_nat bs) (drop (i * Z.to_nat bs) indices)) <$> seq 0 m)).
  - f_equal. apply list_fmap_ext. intros j k Hk%lookup_seq. unfold compose. apply batch_indices_take; [done|].
    unfold py_len. apply Z.lt_le_incl, (num_batches_spec (length indices)); [done|]. fold m. lia.
  - rewrite chunks_take. apply take_ge. destruct (decide (length indices ≤ m * Z.to_nat bs)%nat) as [|Hn]; [done|]. exfalso.
    assert (m < Z.to_nat (num_batches (length indices) bs))%nat; [|unfold m in *; lia]. apply num_batches_spec; [done|]. nia.
Qed.

(** What the random permutations of a round are *)
Record train_draws_ok (td : train_draws) : Prop := mkTrainDrawsOk {
  tdo_split : ∀ k n, split_perm td k n ≡ₚ seq 0 n;
  tdo_files : ∀ e n, file_order td e n ≡ₚ seq 0 n;
  tdo_rows : ∀ e p n, row_order td e p n ≡ₚ seq 0 n;
  tdo_recorded : ∀ e p k n, Forall (λ i, (i < n)%nat) (recorded td e p k n)
}.

Definition updates_of (hp : hyper) (x : dataset) : nat := Z.to_nat (num_batches (ds_size x) (default 256 (hp_batch_size hp))).

Lemma train_file_runs td hp epoch pos d x a :
  train_draws_ok td → 0 < default 256 (hp_batch_size hp) → agent_ok a → state_dim (fixed a) = d → dataset_ok d x →
  ∃ rs a', train_file norm2 td hp epoch pos x a = (Ret rs, a') ∧ trained (updates_of hp x) a a' ∧ length rs = updates_of hp x.
Proof.
  intros Htd Hb Ha Hd Hx. unfold train_file, updates_of. set (bs := default 256 (hp_batch_size hp)) in *.
  rewrite (proj2 (Z.eqb_neq bs 0)) by lia. set (indices := row_order td epoch pos (ds_size x)).
  assert (length indices = ds_size x) as Hlen by (unfold indices; by rewrite (Permutation_length (tdo_rows td Htd _ _ _)), length_seq).
  assert (Forall (λ i, (i < ds_size x)%nat) indices) as Hidx.
  { apply Forall_forall. intros i Hi. unfold indices in Hi. rewrite (tdo_rows td Htd) in Hi. apply elem_of_seq in Hi. lia. }
  edestruct (for_results_trained (fixed a) (py_range (num_batches (ds_size x) bs)) (λ k, train_batch norm2 x (batch_indices indices bs k)
    (recorded td epoch pos (Z.to_nat k)) (batch_keep td epoch pos (Z.to_nat k))) (λ _, 1%nat) (λ _ _, True)) as (rs & a' & E & H & Hg); [|exact Ha|done|].
  - intros k a1 Hk Ha1 Hf. unfold py_range in Hk. apply list_elem_of_fmap in Hk as (j & -> & Hj%elem_of_seq).
    pose proof (proj1 (num_batches_spec (ds_size x) bs j Hb) ltac:(lia)) as Hlt.
    destruct (train_batch_runs d x (batch_indices indices bs (Z.of_nat j)) (recorded td epoch pos (Z.to_nat (Z.of_nat j)))
      (batch_keep td epoch pos (Z.to_nat (Z.of_nat j))) a1) as (r & a2 & E2 & H2); [done|by rewrite Hf|done| | |apply (tdo_recorded td Htd)|by exists r, a2].
    + rewrite batch_indices_take by (unfold py_len; lia). by apply Forall_take, Forall_drop.
    + rewrite batch_indices_take by (unfold py_len; lia). intros E0. apply (f_equal length) in E0. rewrite length_take, length_drop in E0. simpl in E0. nia.
  - exists rs, a'. assert (length (py_range (num_batches (ds_size x) bs)) = Z.to_nat (num_batches (ds_size x) bs)) as Hr
      by (unfold py_range; by rewrite length_fmap, length_seq).
    split_and!; [exact E| |by rewrite <-(Forall2_length _ _ _ Hg)]. rewrite <-Hr. clear -H. revert H.
    generalize (py_range (num_batches (ds_size x) bs)). intros l. replace (sum_list_with (λ _, 1%nat) l) with (length l); [done|].
    induction l as [|y l IH]; [done|]. simpl. by rewrite IH.
Qed.

(** What some epochs with [k] updates and [e] evaluations leave and change *)
Record epochs_done (k e : nat) (a a' : RewardPredictor) : Prop := mkEpochsDone {
  ed_ok : agent_ok a';
  ed_fixed : fixed a' = fixed a;
  ed_mode : training a' = training a;
  ed_epsilon : epsilon a' = Nat.iter k (decay_step (fixed a)) (epsilon a);
  ed_counts : action_counts a' = action_counts a;
  ed_steps : total_steps a' = total_steps a;
  ed_losses : mlen (training_metrics a') "losses" = (mlen (training_metrics a) "losses" + k)%nat;
  ed_eval : mlen (training_metrics a') "eval_losses" = (mlen (training_metrics a) "eval_losses" + e)%nat;
  ed_net : ∀ d h, net_wf d h (reward_net a) → net_wf d h (reward_net a')
}.

Lemma trained_epochs k a a' : trained k a a' → epochs_done k 0 a a'.
Proof. intros []. split; try done. lia. Qed.

Lemma epochs_trans k1 e1 k2 e2 a b c : epochs_done k1 e1 a b → epochs_done k2 e2 b c → epochs_done (k1 + k2) (e1 + e2) a c.
Proof.
  intros [] []. split; try done; try congruence; [|lia|lia|auto]. rewrite ed_epsilon1, ed_epsilon0, ed_fixed0, Nat.add_comm, Nat.iter_add. done.
Qed.

Lemma step_scheduler_runs u a : agent_ok a → ∃ a', step_scheduler u a = (Ret tt, a') ∧ epochs_done 0 0 a a'.
Proof.
  intros Ha. assert (∀ sc o, epochs_done 0 0 a (set_scheduler sc o a)) as Hset.
  { intros sc o. split; simpl; try done; try lia. by destruct Ha. }
  unfold step_scheduler. rewrite bind_get. destruct (scheduler a) as [[g|p]|]; [by eexists| |exists a; split; [done|by apply trained_epochs, trained_0]].
  destruct (gradient_norms a) as [|x l]; [exists a; split; [done|by apply trained_epochs, trained_0]|].
  case_match; [|exists a; split; [done|by apply trained_epochs, trained_0]]. destruct (plateau_step _ _) as [p' o]. by eexists.
Qed.

Lemma evaluate_test_runs test d a :
  agent_ok a → training a = true → state_dim (fixed a) = d → Forall (dataset_ok d) test →
  ∃ a', evaluate_test test a = (Ret tt, a') ∧ epochs_done 0 (if decide (test = []) then 0 else 1) a a'.
Proof.
  intros Ha Ht Hd Hte. assert (∃ ls, for_results test (λ x, evaluate_loss (ds_batch x)) a = (Ret ls, a)) as [ls E].
  { induction Hte as [|x test [[n Hx] _] Hte [ls IH]]; [by exists []|]. rewrite <-Hd in Hx.
    destruct (evaluate_loss_runs (ds_batch x) n a Ha Hx Ht) as [l El]. exists (l :: ls). simpl. unfold bind at 1. rewrite El. unfold bind. by rewrite IH. }
  unfold evaluate_test. destruct test as [|x test]; [exists a; split; [done|by apply trained_epochs, trained_0]|].
  unfold bind. rewrite E. eexists. split; [done|]. rewrite decide_False by done. unfold modify. simpl.
  pose proof (ao_metrics a Ha) as Hm. set (es := [("eval_losses", [MNum (np_mean ls)])]). 
  assert (extend_metric "eval_losses" [MNum (np_mean ls)] (training_metrics a) = extend_metrics es (training_metrics a)) as Hes by done.
  split; try done; simpl; rewrite ?Hes.
  - split; [apply Ha|]. simpl. rewrite Hes. apply extend_ok; [done|done|by repeat constructor..|]. pose proof (mo_tables _ Hm). simpl. lia.
  - rewrite known_len by done. simpl. lia.
  - rewrite known_len by done. simpl. lia.
Qed.

Lemma sum_list_perm {A} (f : A → nat) l l' : l ≡ₚ l' → sum_list_with f l = sum_list_with f l'.
Proof. induction 1; simpl; lia. Qed.

Lemma train_epoch_runs td hp train test epoch d a :
  train_draws_ok td → 0 < default 256 (hp_batch_size hp) → agent_ok a → training a = true → state_dim (fixed a) = d →
  Forall (dataset_ok d) train → Forall (dataset_ok d) test →
  ∃ a', train_epoch norm2 td hp train test epoch a = (Ret tt, a') ∧
    epochs_done (sum_list_with (updates_of hp) train) (if decide (test = []) then 0 else 1) a a'.
Proof.
  intros Htd Hb Ha Ht Hd Htr Hte. unfold train_epoch. fold (rows_at (file_order td epoch (length train)) train).
  set (shuffled := rows_at _ train). assert (shuffled ≡ₚ train) as Hp by (apply rows_at_perm, (tdo_files td Htd)).
  set (l := zip (seq 0 (length shuffled)) shuffled).
  assert (l.*2 = shuffled) as Hl by (unfold l; rewrite snd_zip; [done|by rewrite length_seq]).
  edestruct (for_results_trained (fixed a) l (λ pd, train_file norm2 td hp epoch pd.1 pd.2) (λ pd, updates_of hp pd.2)
    (λ pd rs, length rs = updates_of hp pd.2)) as (rss & a1 & E1 & H1 & Hg); [|exact Ha|done|].
  { intros [p x] a0 Hin Ha0 Hf. assert (x ∈ train) as Hx.
    { rewrite <-Hp, <-Hl. apply list_elem_of_fmap. by exists (p, x). }
    rewrite Forall_forall in Htr. destruct (train_file_runs td hp epoch p d x a0) as (rs & a2 & E2 & H2 & L2);
      [done|done|done|by rewrite Hf|by apply Htr|]. by exists rs, a2. }
  assert (sum_list_with (λ pd : nat * dataset, updates_of hp pd.2) l = sum_list_with (updates_of hp) train) as Hsum.
  { rewrite <-(sum_list_perm _ _ _ Hp), <-Hl. generalize l. intros l'. induction l' as [|y l' IH]; [done|]. simpl. by rewrite IH. }
  rewrite Hsum in H1. destruct (step_scheduler_runs (length (concat rss)) a1 (tr_ok _ _ _ H1)) as (a2 & E2 & H2).
  destruct (evaluate_test_runs test d a2) as (a3 & E3 & H3); [apply H2|by rewrite (ed_mode _ _ _ _ H2), (tr_mode _ _ _ H1)
    |by rewrite (ed_fixed _ _ _ _ H2), (tr_fixed _ _ _ H1)|done|].
  exists a3. split.
  - unfold bind at 1. rewrite E1. unfold bind. by rewrite E2.
  - rewrite <-(Nat.add_0_r (sum_list_with _ _)). apply (epochs_trans _ 0 0 _ _ a1); [by apply trained_epochs|].
    by apply (epochs_trans 0 0 0 _ _ a2).
Qed.

Lemma split_rows_at {A} n idx (x : list A) : length x = n → split_rows n idx x = rows_at idx x.
Proof. intros Hx. unfold split_rows. by rewrite Hx, Nat.eqb_refl. Qed.

Lemma split_opt n idx (x : option (list Q)) :
  opt_len n x → Forall (λ i, (i < n)%nat) idx → opt_len (length idx) (split_rows n idx <$> x).
Proof.
  intros Hx Hi l. destruct x as [y|]; [|done]. intros [= <-]. pose proof (Hx y eq_refl) as Hy. subst n. rewrite split_rows_at by done. by apply rows_at_length.
Qed.

Lemma split_dataset_ok d x idx :
  dataset_ok d x → Forall (λ i, (i < ds_size x)%nat) idx → dataset_ok d (split_dataset (ds_size x) idx x).
Proof.
  intros ([n [Hn [Lp Hp] [Lk Hk] [Lr Hr] Ha Lw Ht Hw]] & Htt & Htp) Hi. unfold ds_size in *.
  assert (∀ {A} (y : list A), length y = length (b_actions (ds_batch x)) → length (split_rows (length (b_actions (ds_batch x))) idx y) = length idx) as Hl.
  { intros A y Hy. rewrite split_rows_at by done. apply rows_at_length. by rewrite Hy. }
  assert (∀ {A} (P : A → Prop) y, length y = length (b_actions (ds_batch x)) → Forall P y → Forall P (split_rows (length (b_actions (ds_batch x))) idx y)) as Hf.
  { intros A P y Hy HP. rewrite split_rows_at by done. by apply rows_at_Forall. }
  unfold dataset_ok, ds_size. cbn [split_dataset ds_batch split_batch b_actions ds_ttft ds_avg_tpot]. rewrite (Hl _ (b_actions (ds_batch x)) eq_refl).
  split_and!; [exists n|by apply split_opt..]. split; cbn [split_batch b_actions b_pod_features b_kv_hit_ratios b_request_features b_rewards b_input_tokens b_sample_weights];
    rewrite ?(Hl _ (b_actions (ds_batch x)) eq_refl); try done; [split; [by apply Hl|by apply Hf]..|by apply Hf|by apply Hl|by apply split_opt|by apply split_opt].
Qed.

Lemma rows_in {A} idx (x : list A) (P : A → Prop) (f : nat → option A) : (∀ i, f i = None ∨ f i = x !! i) → Forall P x → Forall P (omap f idx).
Proof.
  intros Hf HP. induction idx as [|i idx IH]; [constructor|]. csimpl. destruct (f i) as [y|] eqn:E; [|done]. constructor; [|done].
  destruct (Hf i) as [?|H]; [congruence|]. rewrite E in H. symmetry in H. exact (Forall_lookup_1 _ _ _ _ HP H).
Qed.

Lemma split_ok ratio td ds d :
  train_draws_ok td → Forall (dataset_ok d) ds →
  Forall (dataset_ok d) (train_test_split ratio td ds).1 ∧ Forall (dataset_ok d) (train_test_split ratio td ds).2.
Proof.
  intros Htd Hds. unfold train_test_split. case_match; simpl.
  - split; (apply (rows_in _ ds); [intros i; case_match; auto|done]).
  - split; apply Forall_fmap, Forall_lookup; intros k p Hk; rewrite list_lookup_imap in Hk; destruct (ds !! k) as [x|] eqn:E; try done;
      injection Hk as <-; unfold compose, split_file; simpl; (apply split_dataset_ok; [by eapply Forall_lookup_1|]);
      (apply Forall_drop || apply Forall_take); apply Forall_forall; intros i Hi; rewrite (tdo_split td Htd) in Hi; apply elem_of_seq in Hi; lia.
Qed.

(** ** Lemmas: the agent of a round *)

Context (hp : hyper).

Lemma dataset_dims d x :
  dataset_ok d x → (0 < ds_size x)%nat →
  mkDims (dim3 (b_pod_features (ds_batch x))) (dim3 (b_kv_hit_ratios (ds_batch x))) (length (default [] (head (b_request_features (ds_batch x))))) = d.
Proof.
  intros [[n [Hn Hp Hk Hr _ _ _ _]] _] Hs. unfold ds_size in Hs.
  assert (∀ y m k, tensor3 y (length (b_actions (ds_batch x))) m k → (0 < m)%nat → dim3 y = k) as H3.
  { intros y m k [Hl Hy] Hm. unfold dim3. destruct y as [|s y]; [simpl in Hl; lia|]. apply Forall_cons in Hy as [[Hlen Hrow] _].
    destruct s as [|row s]; [simpl in Hlen; lia|]. by apply Forall_cons in Hrow as []. }
  rewrite (H3 _ _ _ Hp Hn), (H3 _ _ _ Hk Hn). destruct Hr as [Hl Hr]. destruct (b_request_features (ds_batch x)) as [|row rf]; [simpl in Hl; lia|].
  apply Forall_cons in Hr as [Hrow _]. simpl. rewrite Hrow. by destruct d.
Qed.

(** Loading a model whatever its dimensions, with the exception logged *)
Lemma load_caught key fs a s :
  serves hp key a → net_exists fs = true → dir_ok hp fs → cached_agent s = Some a →
  ∃ a', catch (on_agent (load_model fs true)) (λ _, ret tt) s = (Ret tt, set_cached a' (cached_config_key s) s) ∧ serves hp key a'.
Proof.
  intros Hsv He Hd Ha. pose proof Hd as [?|(saved & _ & _ & Hn & _)]; [congruence|].
  destruct (decide (in_features (scorer_0 (reward_net saved)) = per_pod_context_dim key.1)) as [Hin|Hin].
  - destruct (load_serves hp key fs true a Hsv He Hd) as (a' & E & Ha'); [intros w Hw; rewrite Hn in Hw; by injection Hw as <-|].
    exists a'. split; [|done]. unfold catch, on_agent. by rewrite Ha, E.
  - destruct (load_misfit hp key fs true a Hsv He Hd) as (a' & E & _ & Ha'); [intros w Hw; rewrite Hn in Hw; by injection Hw as <-|].
    exists a'. split; [|done]. unfold catch, on_agent. by rewrite Ha, E.
Qed.

Lemma init_train_agent_runs d first s :
  dataset_ok d first → (0 < ds_size first)%nat → dir_ok hp (model_dir s) →
  (∀ a, cached_agent s = Some a → ∃ n, serves hp (d, n) a) →
  ∃ a n, init_train_agent hp first s = (Ret tt, set_cached a (cached_config_key s) s) ∧ serves hp (d, n) a.
Proof.
  intros Hx Hsz Hd Hc. unfold init_train_agent. rewrite (dataset_dims d first Hx Hsz). set (n0 := length _).
  pose proof (new_serves hp d n0) as Hf. set (fresh := new_RewardPredictor d n0 hp) in *. rewrite bind_get.
  set (scratch := default false (ONLINE_TRAIN_FROM_SCRATCH hp)).
  assert (∃ a n, (match cached_agent s with None => modify (set_cached fresh (cached_config_key s))
      | Some _ => if scratch then modify (set_cached fresh (cached_config_key s)) else ret tt end) s =
    (Ret tt, set_cached a (cached_config_key s) s) ∧ serves hp (d, n) a) as (a & n & E & Ha).
  { destruct (cached_agent s) as [a|] eqn:Ea; [|by exists fresh, n0]. destruct scratch; [by exists fresh, n0|].
    destruct (Hc a eq_refl) as [n Hn]. exists a, n. split; [|done]. unfold ret. f_equal. unfold set_cached. rewrite <-Ea. by destruct s. }
  unfold bind. rewrite E. destruct scratch; [by exists a, n|]. destruct (net_exists (model_dir s)) eqn:He; [|by exists a, n].
  destruct (load_caught (d, n) (model_dir s) a (set_cached a (cached_config_key s) s) Ha He Hd eq_refl) as (a' & E' & Ha'). by exists a', n.
Qed.

Lemma reset_lr_runs key num_trains a : serves hp key a → ∃ a', reset_lr hp num_trains a = (Ret tt, a') ∧ serves hp key a'.
Proof.
  intros Ha. assert (∀ sc o, serves hp key (set_scheduler sc o a)) as Hset.
  { intros sc o. destruct Ha as [[H1 H1'] H2 H3 H4 H5]. by split. }
  unfold reset_lr. rewrite bind_get. destruct (scheduler a), num_trains; try by exists a. case_match; [by eexists|by exists a].
Qed.

Lemma on_agent_runs {A} (m : M RewardPredictor A) (s : service) a o a' :
  cached_agent s = Some a → m a = (o, a') → on_agent m s = (o, set_cached a' (cached_config_key s) s).
Proof. intros Ha E. unfold on_agent. by rewrite Ha, E. Qed.

Lemma on_cached_runs {A} (m : M RewardPredictor A) a key (s : service) o a' :
  m a = (o, a') → on_agent m (set_cached a key s) = (o, set_cached a' key s).
Proof. intros E. unfold on_agent. simpl. by rewrite E. Qed.

Lemma epochs_run td train test d es a s :
  train_draws_ok td → 0 < default 256 (hp_batch_size hp) → cached_agent s = Some a → agent_ok a → training a = true → state_dim (fixed a) = d →
  Forall (dataset_ok d) train → Forall (dataset_ok d) test →
  ∃ a', for_each es (λ epoch, on_agent (train_epoch norm2 td hp train test epoch)) s = (Ret tt, set_cached a' (cached_config_key s) s) ∧
    epochs_done (length es * sum_list_with (updates_of hp) train) (length es * (if decide (test = []) then 0 else 1)) a a'.
Proof.
  intros Htd Hb. revert a s. induction es as [|e es IH]; intros a s Hc Ha Ht Hd Htr Hte.
  { exists a. split; [|by apply trained_epochs, trained_0]. simpl. unfold ret. f_equal. unfold set_cached. rewrite <-Hc. by destruct s. }
  destruct (train_epoch_runs td hp train test e d a) as (a1 & E1 & H1); [done..|].
  destruct (IH a1 (set_cached a1 (cached_config_key s) s)) as (a' & E' & H'); [done|apply H1|by rewrite (ed_mode _ _ _ _ H1)|by rewrite (ed_fixed _ _ _ _ H1)|done|done|].
  exists a'. split; [|simpl; by apply (epochs_trans _ _ _ _ _ a1)]. simpl. unfold bind. by rewrite (on_agent_runs _ s a _ _ Hc E1), E'.
Qed.

Lemma test_nonempty ratio td ds : train_draws_ok td → ds ≠ [] → (train_test_split ratio td ds).2 ≠ [].
Proof.
  intros Htd Hne. unfold train_test_split. case_match eqn:E; simpl.
  - apply Nat.leb_le in E. pose proof (tdo_split td Htd 0 (length ds)) as Hp. pose proof (test_size_pos (length ds) ratio) as H1.
    destruct (split_perm td 0 (length ds)) as [|i l] eqn:El; [apply Permutation_length in Hp; rewrite length_seq in Hp; simpl in Hp; lia|].
    assert (i ∈ seq 0 (length ds)) as Hi by (rewrite <-Hp; left). pose proof Hi as [_ Hlt]%elem_of_seq.
    destruct (lookup_lt_is_Some_2 ds i) as [x Hx]; [lia|]. intros E0. apply (f_equal (λ l, x ∈ l)) in E0. apply (not_elem_of_nil x). rewrite <-E0.
    apply list_elem_of_omap. exists i. split; [done|]. rewrite bool_decide_eq_true_2; [done|].
    destruct (test_size (length ds) ratio); [lia|]. simpl. left.
  - by destruct ds.
Qed.

Lemma epochs_serves key k e a a' : serves hp key a → epochs_done k e a a' → serves hp key a'.
Proof. intros [H1 H2 H3 H4 H5] []. split; [done|by apply ed_net0|congruence..]. Qed.

Lemma first_ok d x xs ratio td :
  train_draws_ok td → Forall (λ y, dataset_ok d y ∧ (0 < ds_size y)%nat) (x :: xs) →
  let first := if (length (x :: xs) <? 5)%nat then x else default x (head (train_test_split ratio td (x :: xs)).1) in
  dataset_ok d first ∧ (0 < ds_size first)%nat.
Proof.
  intros Htd Hxs first. pose proof Hxs as [Hx _]%Forall_cons. unfold first. destruct (Nat.ltb_spec (length (x :: xs)) 5) as [|H5]; [done|].
  assert (Forall (λ y, dataset_ok d y ∧ (0 < ds_size y)%nat) (train_test_split ratio td (x :: xs)).1) as Hall.
  { unfold train_test_split. rewrite (proj2 (Nat.leb_le 5 _)) by lia. cbn [fst]. apply (rows_in _ (x :: xs)); [intros i; case_match; auto|done]. }
  destruct (train_test_split ratio td (x :: xs)).1 as [|y l]; [done|]. by apply Forall_cons in Hall as [? _].
Qed.

Lemma serves_pods d n n' a : serves hp (d, n) a → serves hp (d, n') a.
Proof. intros []. by split. Qed.

Lemma train_round_runs td num_trains items d s :
  train_draws_ok td → 0 < default 256 (hp_batch_size hp) → (tensor_files items).*2 ≠ [] →
  Forall (λ x, dataset_ok d x ∧ (0 < ds_size x)%nat) (tensor_files items).*2 → dir_ok hp (model_dir s) →
  (∀ a, cached_agent s = Some a → ∃ n, serves hp (d, n) a) →
  let training_part := (train_test_split (default (2 # 10) (test_split_ratio hp)) td (tensor_files items).*2).1 in
  let epochs := Z.to_nat (default 10 (training_epochs hp)) in
  ∃ a, train norm2 hp td num_trains (Some items) s =
      (Ret (Some tt), set_model_dir (save num_trains a (model_dir s)) (set_cached a (cached_config_key s) s)) ∧ (∀ n, serves hp (d, n) a) ∧
    mlen (training_metrics a) "losses" = (epochs * sum_list_with (updates_of hp) training_part)%nat ∧
    mlen (training_metrics a) "eval_losses" = epochs.
Proof.
  intros Htd Hb Hne Hds Hd Hc tr epochs. unfold train. destruct (tensor_files items).*2 as [|x xs] eqn:Ef; [done|].
  pose proof (first_ok d x xs (default (2 # 10) (test_split_ratio hp)) td Htd Hds) as [Hf Hsz]. pose proof (test_nonempty (default (2 # 10) (test_split_ratio hp)) td (x :: xs) Htd ltac:(done)) as Hte.
  assert (Forall (dataset_ok d) (x :: xs)) as Hds' by (eapply Forall_impl; [exact Hds|]; by intros y [? _]).
  destruct (split_ok (default (2 # 10) (test_split_ratio hp)) td (x :: xs) d Htd Hds') as [Htr Htest]. fold tr in Htr. unfold tr in *.
  destruct (train_test_split _ td (x :: xs)) as [train_files test_files]. simpl fst in *. simpl snd in *.
  destruct (init_train_agent_runs d _ s Hf Hsz Hd Hc) as (a0 & n & E0 & Ha0). unfold bind at 1. rewrite E0.
  destruct (reset_lr_runs (d, n) num_trains a0 Ha0) as (a1 & E1 & Ha1). unfold bind at 1.
  rewrite (on_cached_runs _ a0 _ s _ _ E1). unfold bind at 1. set (a2 := on_metrics (λ _, new_metrics) a1).
  rewrite (on_cached_runs (modify (on_metrics (λ _, new_metrics))) a1 _ s (Ret tt) a2 eq_refl).
  assert (serves hp (d, n) a2) as Ha2 by (apply set_metrics_serves; [done|apply new_metrics_ok]).
  destruct (epochs_run td train_files test_files d (seq 0 epochs) a2 (set_cached a2 (cached_config_key s) s)) as (a3 & E3 & H3);
    [done|done|done|apply Ha2|apply Ha2|apply (sv_dims _ _ _ Ha2)|done|done|].
  unfold bind at 1. fold epochs. rewrite E3.
  exists a3. split; [done|]. rewrite decide_False, length_seq in H3 by done. simpl. pose proof (epochs_serves _ _ _ a2 a3 Ha2 H3) as Ha3.
  split_and!; [intros n'; by eapply serves_pods|by rewrite (ed_losses _ _ _ _ H3)|rewrite (ed_eval _ _ _ _ H3); unfold mlen; simpl; lia].
Qed.

(** C20: A training round on well-formed files ends: it makes one update for every mini-batch of
    the training part of every file in every epoch and one evaluation of the test part per
    epoch, leaves an agent that can serve requests of these dimensions, whether it
    started from the cached agent, from the directory or from scratch, and saves exactly that
    agent, whatever the directory held before. *)
Theorem train_round_correct td num_trains items d s :
  train_draws_ok td → 0 < default 256 (hp_batch_size hp) → (tensor_files items).*2 ≠ [] →
  Forall (λ x, dataset_ok d x ∧ (0 < ds_size x)%nat) (tensor_files items).*2 → dir_ok hp (model_dir s) →
  (∀ a, cached_agent s = Some a → ∃ n, serves hp (d, n) a) →
  let training_part := (train_test_split (default (2 # 10) (test_split_ratio hp)) td (tensor_files items).*2).1 in
  let epochs := Z.to_nat (default 10 (training_epochs hp)) in
  ∃ a s', train norm2 hp td num_trains (Some items) s = (Ret (Some tt), s') ∧ cached_agent s' = Some a ∧ (∀ n, serves hp (d, n) a) ∧
    mlen (training_metrics a) "losses" = (epochs * sum_list_with (updates_of hp) training_part)%nat ∧
    mlen (training_metrics a) "eval_losses" = epochs ∧
    model_files (model_dir s') (reward_net a) (optimizer a) (metadata_of a).
Proof.
  intros Htd Hb Hne Hds Hd Hc tr epochs. destruct (train_round_runs td num_trains items d s) as (a & E & Hsv & Hl & He); [done..|].
  eexists a, _. split; [exact E|]. split_and!; [done..|apply save_files].
Qed.

(** A round on well-formed files leaves the service in order. *)
Lemma train_round_ok td num_trains items d s :
  train_draws_ok td → 0 < default 256 (hp_batch_size hp) → (tensor_files items).*2 ≠ [] →
  Forall (λ x, dataset_ok d x ∧ (0 < ds_size x)%nat) (tensor_files items).*2 → service_ok hp s →
  (∀ a, cached_agent s = Some a → ∃ n, serves hp (d, n) a) →
  ∃ s', train norm2 hp td num_trains (Some items) s = (Ret (Some tt), s') ∧ service_ok hp s'.
Proof.
  intros Htd Hb Hne Hds [H1 H0 H2 H3 H4] Hc. destruct (train_round_runs td num_trains items d s) as (a & E & Hsv & _); [done..|].
  eexists. split; [exact E|]. split; simpl; try done.
  - intros ? [d' n'] [= <-] Hk. destruct (cached_agent s) as [old|] eqn:Eo; [|by rewrite H0 in Hk].
    destruct (Hc old eq_refl) as [n Hn]. pose proof (H1 old _ eq_refl Hk) as Ho. assert (d' = d) as -> by (rewrite <-(sv_dims _ _ _ Hn : _ = d); symmetry; apply (sv_dims _ _ _ Ho)). apply Hsv.
  - right. exists a. destruct (Hsv 0%nat) as [Ha1 Ha2 Ha3 Ha4 Ha5]. simpl in *. split_and!; [done|by rewrite Ha4|apply save_files].
Qed.

(** In every epoch every row of a training file is learnt from exactly once: the mini-batches
    are consecutive parts of a permutation of the rows, none is empty and none is larger than
    the batch size. *)
Theorem epoch_covers_rows td epoch pos x :
  train_draws_ok td → let bs := default 256 (hp_batch_size hp) in 0 < bs →
  let batches := batch_indices (row_order td epoch pos (ds_size x)) bs <$> py_range (num_batches (ds_size x) bs) in
  concat batches ≡ₚ seq 0 (ds_size x) ∧ Forall (λ b, (0 < length b)%nat ∧ py_len b ≤ bs) batches.
Proof.
  intros Htd bs Hb batches. pose proof (tdo_rows td Htd epoch pos (ds_size x)) as Hp. unfold batches.
  assert (length (row_order td epoch pos (ds_size x)) = ds_size x) as Hl by (by rewrite (Permutation_length Hp), length_seq).
  split; [rewrite <-Hl at 2; by rewrite batches_cover|]. apply Forall_fmap, Forall_forall. intros k Hk. unfold py_range in Hk.
  apply list_elem_of_fmap in Hk as (j & -> & Hj%elem_of_seq). pose proof (proj1 (num_batches_spec (ds_size x) bs j Hb) ltac:(lia)) as Hlt.
  unfold compose. rewrite batch_indices_take by (unfold py_len; lia). unfold py_len. rewrite length_take, length_drop. nia.
Qed.

(** ** The learning rate *)

(** The end of [n] epochs, each with [u] updates *)
Definition end_epochs (n u : nat) : M RewardPredictor unit := for_each (seq 0 n) (λ _, step_scheduler u).

(** The exponential schedule multiplies the learning rate by gamma in every epoch. *)
Theorem exponential_schedule n u gamma a :
  scheduler a = Some (ExponentialLR gamma) →
  ∃ a', end_epochs n u a = (Ret tt, a') ∧ (adam_lr (optimizer a') == decayed gamma n (adam_lr (optimizer a)))%Q.
Proof.
  unfold end_epochs. generalize 0%nat. revert a. induction n as [|n IH]; intros a k Hs; [by exists a|].
  set (a1 := set_scheduler (scheduler a) (exponential_step gamma (optimizer a)) a).
  assert (step_scheduler u a = (Ret tt, a1)) as E by (unfold step_scheduler; rewrite bind_get, Hs; unfold a1; by rewrite Hs).
  destruct (IH a1 (S k) Hs) as (a' & E' & Hl). exists a'. split; [simpl; unfold bind; by rewrite E|].
  rewrite Hl, decayed_S. apply decayed_proper, exponential_lr.
Qed.

(** The adaptive schedule does not react to the first alarms: although every epoch whose
    gradients are too small or too large is meant to reduce the learning rate, the scheduler it
    calls has patience, and after up to three such epochs of a new agent the rate is what it was. *)
Theorem first_alarms_ignored n u a :
  (n ≤ 3)%nat → scheduler a = Some (ReduceLROnPlateau new_plateau) → gradient_norms a ≠ [] → (u ≤ length (gradient_norms a))%nat →
  let avg := np_mean (py_slice (gradient_norms a) (- Z.of_nat u) (py_len (gradient_norms a))) in (avg < 1 # 10000 ∨ 10 < avg)%Q →
  ∃ a', end_epochs n u a = (Ret tt, a') ∧ adam_lr (optimizer a') = adam_lr (optimizer a).
Proof.
  intros Hn Hs Hg Hu avg Havg.
  assert (∀ m k i, let po := Nat.iter i (plateau_step (1 # 10)) (new_plateau, optimizer a) in
    ∃ a', for_each (seq k m) (λ _, step_scheduler u) (set_scheduler (Some (ReduceLROnPlateau po.1)) po.2 a) = (Ret tt, a') ∧
      optimizer a' = (Nat.iter (m + i) (plateau_step (1 # 10)) (new_plateau, optimizer a)).2) as H.
  { induction m as [|m IH]; intros k i po; [by eexists|]. destruct (IH (S k) (S i)) as (a' & E & Ho). exists a'. split; [|by rewrite Ho, Nat.add_succ_r].
    rewrite <-E. simpl for_each. unfold bind. replace (step_scheduler u _) with (Ret (A:=unit) tt,
      set_scheduler (Some (ReduceLROnPlateau (plateau_step (1 # 10) po).1)) (plateau_step (1 # 10) po).2 a); [done|].
    unfold step_scheduler. rewrite bind_get. simpl. destruct (gradient_norms a) as [|x l] eqn:El; [done|].
    assert ((u <=? S (length l))%nat = true) as -> by apply Nat.leb_le, Hu.
    match goal with |- _ = (if ?c then _ else _) _ => assert (c = true) as -> end.
    { change (negb (Qle_bool (1 # 10000) avg) || negb (Qle_bool avg 10) = true). destruct (Qle_bool_spec (1 # 10000) avg), (Qle_bool_spec avg 10); simpl; try done. lra. }
    rewrite <-(surjective_pairing po). by destruct (plateau_step (1 # 10) po). }
  destruct (H n 0%nat 0%nat) as (a' & E & Ho). exists a'. split.
  - unfold end_epochs. rewrite <-E. f_equal. simpl. unfold set_scheduler. rewrite <-Hs. by destruct a.
  - rewrite Ho, Nat.add_0_r. by apply plateau_patient.
Qed.

End training.

(** ** Requests during a training round *)

Section race.
Context {T : Torch} {TL : TorchLaws T} {NP : Numpy Q} {SQ : Sqrt Q} (env_metadata : bool) (np_exp : Q → Q) (hp : hyper).

Lemma new_loaded_weights d n b fs w :
  dir_ok hp fs → skip_weights hp = false → fs !! file_name "reward_net" "" ".pth" = Some (FNet w) → in_features (scorer_0 w) = per_pod_context_dim d →
  ∃ a, new_loaded_agent d n hp b fs = Ret a ∧ reward_net a = w.
Proof.
  intros Hd Hs Hw Hin. assert (net_exists fs = true) as He by (unfold net_exists; apply bool_decide_eq_true_2; by rewrite Hw).
  destruct Hd as [?|(saved & Hok & Hnet & Hf)]; [congruence|]. assert (reward_net saved = w) as <- by (destruct Hf as [Hf _]; congruence).
  pose proof (new_serves hp d n) as Hn. unfold new_loaded_agent. rewrite He, Hs. simpl. rewrite (load_weights_runs _ _ _ _ _ _ Hf).
  - destruct b; (eexists; split; [reflexivity|done]).
  - rewrite (nw_shapes _ _ _ (sv_net _ _ _ Hn)), (nw_shapes _ _ _ Hnet). simpl. rewrite <-Hin, (net_wf_in _ _ _ Hnet). done.
Qed.

Lemma choose_action_net pf kv rf ev d (a : RewardPredictor) : reward_net (choose_action pf kv rf ev d a).2 = reward_net a.
Proof.
  unfold choose_action, bind, lift, get, modify, ret. destruct (create_per_pod_contexts _ _ _); [|done..].
  destruct (forward _ _ _ _); [|done..]. by destruct (select_action _ _ _ _) as [[i e]| |].
Qed.

(** Training and serving share the cached agent: when the number of pods changes during a round,
    the first request for the new cluster replaces the agent by one with the weights of the
    directory. Whatever the round had learnt until then is gone, and the model that the
    round saves at its end is built on the old weights. *)
Theorem scale_up_loses_training {A} (learnt : M RewardPredictor A) r s w num_trains fs :
  dir_ok hp (model_dir s) → skip_weights hp = false → is_Some (cached_agent s) → cached_config_key s ≠ Some (current_config r) →
  model_dir s !! file_name "reward_net" "" ".pth" = Some (FNet w) → in_features (scorer_0 w) = per_pod_context_dim (current_config r).1 →
  rq_model_updated r = false →
  let s1 := (on_agent learnt s).2 in
  let s2 := (infer_from_tensor env_metadata np_exp hp r s1).2 in
  ∃ a, cached_agent s2 = Some a ∧ reward_net a = w ∧ save num_trains a fs !! file_name "reward_net" "" ".pth" = Some (FNet w).
Proof.
  intros Hd Hs Ha Hk Hw Hin Hu s1 s2. destruct (on_agent_keeps learnt s Ha) as (Ha1 & _ & _ & Hk1 & Hd1). fold s1 in Ha1, Hk1, Hd1. clearbody s1.
  destruct (new_loaded_weights (current_config r).1 (current_config r).2 (load_metadata_on_infer env_metadata hp) (model_dir s) w) as (a & E & Ew); [done..|].
  assert (∃ s' a', prepare env_metadata hp r s1 = (Ret tt, s') ∧ cached_agent s' = Some a' ∧ reward_net a' = w) as (s' & a' & Ep & Ha' & Ew').
  { unfold prepare. rewrite Hu. unfold bind at 1. simpl. rewrite bind_get. unfold needs_sync_reload. simpl. rewrite Hk1, (bool_decide_eq_false_2 (cached_config_key s = _)) by done.
    rewrite orb_true_r. unfold sync_reload, bind, lift, get, modify, ret. cbn [model_dir set_consumed]. rewrite Hd1, E. eexists _, _. split; [done|]. split; [done|].
    simpl. by destruct (cached_agent s1). }
  assert (cached_agent s2 = Some (choose_action (as_batch (rq_pod_features r)) (as_batch (rq_kv_hit_ratios r)) (as_batch (rq_request_features r))
    (negb (default true (explore hp))) (rq_draws r) a').2) as E2.
  { unfold s2, infer_from_tensor, bind. rewrite Ep, answer_state. unfold on_agent. rewrite Ha'. by destruct (choose_action _ _ _ _ _ a'). }
  eexists. split; [exact E2|]. rewrite choose_action_net. split; [done|]. destruct (save_files num_trains (choose_action (as_batch (rq_pod_features r))
    (as_batch (rq_kv_hit_ratios r)) (as_batch (rq_request_features r)) (negb (default true (explore hp))) (rq_draws r) a').2 fs) as [-> _].
  by rewrite choose_action_net, Ew'.
Qed.

End race.

(** ** Concrete runs *)

Definition demo_exp (x : Q) : Q := if Qle_bool 0 x then 2 else 1.

Definition demo_request (updated : bool) (keep : noise) (width : nat) : request :=
  mkRequest (inl (replicate 3 (replicate width 1%Q))) (inl (replicate 3 [0%Q])) (inl [1%Q]) updated ["pod_0"; "pod_1"; "pod_2"] true
    (mkDraws keep 1 (λ _, 0%nat) (λ n, replicate n 0%Q)).

Lemma demo_request_valid b keep : request_valid (demo_request b keep 1) 3.
Proof. split; [|split; [done|by split; simpl; [lia|]]]. split_and!; try (by repeat constructor). Qed.

Lemma demo_event_ok n : event_ok demo_hyper (Saved n demo_agent).
Proof. split; [apply new_agent_ok|exact (new_net_wf 3 2 "static" 42)]. Qed.

(** A directory with the model of the demonstration *)
Definition demo_events : list event := [Saved (Some 1) demo_agent].

Lemma demo_events_ok : Forall (event_ok demo_hyper) demo_events.
Proof. apply Forall_cons. split; [apply demo_event_ok|done]. Qed.

Abbreviation demo_after := (after_events (NP := demo_numpy) false demo_exp demo_hyper).
Abbreviation demo_infer := (infer_from_tensor (NP := demo_numpy) false demo_exp demo_hyper).

Lemma demo_dir : model_dir (demo_after demo_events) !! file_name "reward_net" "" ".pth" = Some (FNet (reward_net demo_agent)).
Proof. by destruct (save_files (Some 1) demo_agent ∅) as [H _]. Qed.

Lemma demo_fits width : (width = 1%nat) ↔ fits demo_hyper (mkDims width 1 1) (model_dir (demo_after demo_events)).
Proof.
  unfold fits. rewrite demo_dir. split; [intros ->; right; by intros w [= <-]|]. intros [[=]|H].
  specialize (H _ eq_refl). change (3 = width + 1 + 1)%nat in H. lia.
Qed.

Lemma request_routed_witness :
  ∃ res s' resp, demo_infer (demo_request false (λ _ _ _, true) 1) (demo_after demo_events) = (Ret res, s') ∧
    (route_request (NP := demo_numpy) (λ a b, a + b) (demo_infer_config 2) ["pod_0"; "pod_1"; "pod_2"] (λ l, default 0%nat (head l)) 1 0 None true
       (agent_result_of res) None).1 = Ret resp ∧
    selected_pod_generalpodid resp ∈ ["pod_0"; "pod_1"; "pod_2"] ∧
    generalpodid_to_pod_ip (demo_infer_config 2) !! selected_pod_generalpodid resp = Some (selected_pod resp).
Proof.
  apply (request_routed (NP := demo_numpy) false demo_exp demo_hyper demo_events (demo_request false (λ _ _ _, true) 1) 3).
  - exact demo_events_ok.
  - apply demo_request_valid.
  - by apply (bool_decide_unpack _).
  - by apply (demo_fits 1).
  - by apply (bool_decide_unpack _).
  - apply Forall_forall, (bool_decide_unpack _). by vm_compute.
  - intros [|x l] Hl; [done|left].
Defined.

Lemma dimension_change_refused_witness :
  (demo_infer (demo_request true (λ _ _ _, true) 2)
     (after_requests (NP := demo_numpy) false demo_exp demo_hyper [demo_request false (λ _ _ _, true) 2] (demo_after demo_events))).1 = Raise RuntimeError.
Proof.
  apply (dimension_change_refused (NP := demo_numpy) false demo_exp demo_hyper demo_events (mkDims 2 1 1, 3%nat)
    [demo_request false (λ _ _ _, true) 2] (demo_request true (λ _ _ _, true) 2)).
  - exact demo_events_ok.
  - unfold net_exists. rewrite demo_dir. by apply bool_decide_eq_true_2.
  - intros H%demo_fits. done.
  - done.
  - by repeat constructor.
Defined.

(** Serving with a first model, then a second one is saved *)
Definition demo_updated : list event := [Saved None demo_agent; Request (demo_request false (λ _ _ _, true) 1); Saved (Some 2) demo_negative].

Lemma demo_updated_ok : Forall (event_ok demo_hyper) demo_updated.
Proof.
  apply Forall_cons. split; [apply demo_event_ok|]. apply Forall_cons. split; [done|]. apply Forall_cons. split; [|done].
  split; [exact demo_negative_ok|]. split; [done|by repeat constructor].
Qed.

Lemma model_update_applied_witness :
  let s' := after_requests (NP := demo_numpy) false demo_exp demo_hyper [demo_request true (λ _ _ _, true) 1; demo_request true (λ _ _ _, true) 1]
              (demo_after demo_updated) in
  ∃ a, cached_agent (serve_event (NP := demo_numpy) false demo_exp demo_hyper s' ReloadDone) = Some a ∧ reward_net a = reward_net demo_negative.
Proof.
  destruct (model_update_applied (NP := demo_numpy) false demo_exp demo_hyper demo_updated (demo_request true (λ _ _ _, true) 1)
    [demo_request true (λ _ _ _, true) 1] (reward_net demo_negative)) as (a & H1 & H2 & _).
  - exact demo_updated_ok.
  - exact (proj1 (save_files (Some 2) demo_negative _)).
  - done.
  - by vm_compute.
  - vm_compute. by eexists.
  - done.
  - by vm_compute.
  - by vm_compute.
  - by repeat constructor.
  - exists a. exact (conj H1 H2).
Defined.

(** Three pods with equal features, the hidden units of the first one dropped *)
Lemma serving_with_dropout_witness :
  ∃ res s', demo_infer (demo_request false (λ row _ _, negb (row =? 0)%nat) 1) (demo_after demo_events) = (Ret res, s') ∧
    ∃ v w, rewards_of_pods res !! 0%nat = Some v ∧ rewards_of_pods res !! 1%nat = Some w ∧ (v < w)%Q.
Proof.
  destruct (serving_with_dropout (NP := demo_numpy) false demo_exp demo_hyper demo_events (demo_request false (λ row _ _, negb (row =? 0)%nat) 1) 3)
    as (res & s' & a & E & Ha & Hr); [exact demo_events_ok|apply demo_request_valid|by apply (bool_decide_unpack _)|by apply (demo_fits 1)|].
  exists res, s'. split; [exact E|]. assert (reward_net a = reward_net demo_agent) as Hnet.
  { pose proof (f_equal (λ p, reward_net <$> cached_agent p.2) E) as H. cbn beta in H. simpl snd in H at 2. rewrite Ha in H. vm_compute in H. by injection H. }
  eexists _, _. split; [apply (Hr 0%nat); [lia|done]|]. split; [apply (Hr 1%nat); [lia|done]|]. rewrite Hnet. by vm_compute.
Defined.

Lemma probabilities_distribution_witness :
  ∃ ps, probabilities (NP := demo_numpy) demo_exp [1; 3; 2]%Q ["pod_0"; "pod_1"; "pod_2"] = Ret (zip ["pod_0"; "pod_1"; "pod_2"] ps) ∧ (Qsum ps == 1)%Q.
Proof.
  destruct (probabilities_distribution (NP := demo_numpy) demo_exp [1; 3; 2]%Q ["pod_0"; "pod_1"; "pod_2"]) as (ps & E & _ & _ & Hs & _).
  - intros x. unfold demo_exp. by destruct (Qle_bool 0 x).
  - intros x y Hxy. unfold demo_exp. destruct (Qle_bool_spec 0 x), (Qle_bool_spec 0 y); try (by vm_compute). lra.
  - done.
  - by apply (bool_decide_unpack _).
  - done.
  - exists ps. exact (conj E Hs).
Defined.

(** Permutations that leave everything in place *)
Definition demo_train_draws : train_draws :=
  mkTrainDraws (λ _ n, seq 0 n) (λ _ n, seq 0 n) (λ _ _ n, seq 0 n) (λ _ _ _ n, take 1 (seq 0 n)) (λ _ _ _ _ _ _, true).

Lemma demo_train_draws_ok : train_draws_ok demo_train_draws.
Proof. split; try done. intros. apply Forall_take, Forall_forall. intros i Hi%elem_of_seq. lia. Qed.

Definition demo_dataset : dataset := mkDataset demo_batch (Some [10; 20]%Q) None.

Lemma demo_dataset_ok : dataset_ok demo_dims demo_dataset.
Proof. split; [exists 3%nat; exact demo_batch_ok|]. split; [by intros l [= <-]|done]. Qed.

Lemma split_partitions_witness :
  let '(tr, te) := train_test_split (2 # 10) demo_train_draws [demo_dataset] in length tr = 1%nat ∧ length te = 1%nat.
Proof.
  destruct (split_partitions (2 # 10) demo_train_draws [demo_dataset]) as [_ H]; [done|by repeat constructor|].
  destruct H as (H1 & H2 & _); [simpl; lia|]. exact (conj H1 H2).
Defined.

Lemma epoch_covers_rows_witness :
  concat (batch_indices (seq 0 2) 256 <$> py_range (num_batches 2 256)) ≡ₚ seq 0 2.
Proof. exact (proj1 (epoch_covers_rows demo_hyper demo_train_draws 0 0 demo_dataset demo_train_draws_ok ltac:(simpl; lia))). Defined.

Lemma train_round_correct_witness :
  ∃ a s', train (NP := demo_numpy) (λ _, 0%Q) demo_hyper demo_train_draws (Some 1) (Some [("batch_1", Subdirectory (Some demo_dataset))]) new_service =
      (Ret (Some tt), s') ∧ cached_agent s' = Some a ∧ (∀ n, serves demo_hyper (demo_dims, n) a) ∧
    mlen (training_metrics a) "losses" = 10%nat ∧ mlen (training_metrics a) "eval_losses" = 10%nat.
Proof.
  destruct (train_round_correct (NP := demo_numpy) (λ _, 0%Q) demo_hyper demo_train_draws (Some 1) [("batch_1", Subdirectory (Some demo_dataset))]
    demo_dims new_service) as (a & s' & E & Ha & Hs & Hl & He & _).
  - exact demo_train_draws_ok.
  - simpl. lia.
  - done.
  - apply Forall_cons. split; [|done]. split; [exact demo_dataset_ok|]. unfold ds_size. simpl. lia.
  - left. by vm_compute.
  - done.
  - exists a, s'. split; [exact E|]. split; [exact Ha|]. split; [exact Hs|]. split; [exact Hl|exact He].
Defined.

Lemma scale_up_loses_training_witness :
  let s1 := (on_agent (learn (λ _, 0%Q) (λ _ _ _, true) demo_batch) (set_cached demo_agent (Some (demo_dims, 2%nat)) (demo_after demo_events))).2 in
  ∃ a, cached_agent (demo_infer (demo_request false (λ _ _ _, true) 1) s1).2 = Some a ∧ reward_net a = reward_net demo_agent.
Proof.
  destruct (scale_up_loses_training (NP := demo_numpy) false demo_exp demo_hyper (learn (λ _, 0%Q) (λ _ _ _, true) demo_batch)
    (demo_request false (λ _ _ _, true) 1) (set_cached demo_agent (Some (demo_dims, 2%nat)) (demo_after demo_events)) (reward_net demo_agent) None ∅)
    as (a & H1 & H2 & _).
  - exact (so_dir _ _ (after_events_ok (NP := demo_numpy) false demo_exp demo_hyper demo_events demo_events_ok)).
  - done.
  - by eexists.
  - done.
  - exact demo_dir.
  - done.
  - done.
  - exists a. exact (conj H1 H2).
Defined.

Definition demo_scheduled (sch : lr_scheduler) : RewardPredictor := set_scheduler (T := demo_torch) (Some sch) (1 # 10)%Q demo_agent.

Lemma exponential_schedule_witness :
  ∃ a', end_epochs (NP := demo_numpy) 2 0 (demo_scheduled (ExponentialLR (1 # 2))) = (Ret tt, a') ∧ (adam_lr (optimizer a') == 1 # 40)%Q.
Proof.
  destruct (exponential_schedule (NP := demo_numpy) 2 0 (1 # 2) (demo_scheduled (ExponentialLR (1 # 2)))) as (a' & E & Hl); [done|].
  exists a'. split; [exact E|]. rewrite Hl. by vm_compute.
Defined.

Lemma first_alarms_ignored_witness :
  let a := add_gradient_norm 0 (demo_scheduled (ReduceLROnPlateau new_plateau)) in
  ∃ a', end_epochs (NP := demo_numpy) 3 1 a = (Ret tt, a') ∧ adam_lr (optimizer a') = (1 # 10)%Q.
Proof.
  apply (first_alarms_ignored (NP := demo_numpy) 3 1 (add_gradient_norm 0 (demo_scheduled (ReduceLROnPlateau new_plateau))));
    [lia|done|done|simpl; lia|]. left. by vm_compute.
Defined.
