(* ===== verification/RowNorm.v ===== *)
(** * Normalizing the row of a request

    Models the dictionary branch of [normalize_features_batch_inference] of
    [python/routing_agent_service/agent_codes/data_normalizer.py], which the handler of
    requests uses: the row of a request is changed in place, value by value. The branch of
    a frame is in [FeatureNorm]; that both do the same to a frame of one row is proved
    here. *)

From S2P Require Import Prelude Num RunningStats FeatureNorm Preprocess.

Open Scope Z_scope.
Open Scope py_scope.

(** What the normalization of a row works on: the caches of the module and the row *)
Record row_state (F : Type) := mkRowState { rw_caches : caches; rw_row : dict (value F) }.

Arguments mkRowState {F}.
Arguments rw_caches {F}.
Arguments rw_row {F}.

Section row.
Context {F : Type} {NF : Num F} {NP : Numpy F} {SQ : Sqrt F}.

(** The number in a value that arithmetic accepts *)
Definition real_of (v : value F) : option F :=
  match v with
  | VBool b => Some (lit (if b then 1 else 0))
  | VInt z => Some (lit z)
  | VFloat x => Some x
  | _ => None
  end.

Definition set_row (row : dict (value F)) (st : row_state F) : row_state F := mkRowState (rw_caches st) row.

Definition row_caches {A} (m : M caches A) : M (row_state F) A := zoom rw_caches (λ c st, mkRowState c (rw_row st)) m.

Definition row_value {A} (o : option A) : M (row_state F) A := match o with Some x => ret x | None => raise TypeError end.

Definition row_column (mean_val std_val : F) (col : string) : M (row_state F) unit :=
  let* row := gets rw_row in
  match assoc col row with
  | None => ret tt
  | Some v =>
    let* raw_val := row_value (real_of v) in
    let normalized_val := ndiv (nsub raw_val mean_val) std_val in
    if nisnan normalized_val then ret tt else modify (set_row (assoc_set col (VFloat normalized_val) row))
  end.

Definition row_columns (s : RunningStats F) (std : F) (cols : list string) : M (row_state F) unit :=
  if is_zero std || nisnan std then ret tt
  else
    let* mean := row_value (RunningStats.rs_mean s) in
    for_each cols (row_column mean std).

Definition row_pod_type (fs : FeatureStats F) (feature_type : string) : M (row_state F) unit :=
  match assoc feature_type (feature_stats fs) with
  | None => raise AssertionError
  | Some s =>
    let* std := row_value (RunningStats.rs_std s) in
    if np_isclose0 (nlit 1 100000000) std then ret tt
    else
      let* columns := gets (λ st, (rw_row st).*1) in
      let* matching_columns := row_caches (get_matching_columns_cached columns feature_type) in
      match matching_columns with
      | [] => ret tt
      | _ => row_columns s std matching_columns
      end
  end.

Definition row_own_feature (fs : FeatureStats F) (pod_feature_types : list string) (feature : string) : M (row_state F) unit :=
  if bool_decide (feature ∈ pod_feature_types) then ret tt
  else
    match assoc feature (feature_stats fs) with
    | None => raise AssertionError
    | Some s =>
      let* columns := gets (λ st, (rw_row st).*1) in
      if negb (bool_decide (feature ∈ columns)) then ret tt
      else
        let* std := row_value (RunningStats.rs_std s) in
        if np_isclose0 (nlit 1 100000000) std then ret tt
        else row_columns s std [feature]
    end.

Definition normalize_row (fs : FeatureStats F) (normalizable_features pod_feature_types : list string) : M (row_state F) unit :=
  for_each pod_feature_types (row_pod_type fs) ;;
  for_each normalizable_features (row_own_feature fs pod_feature_types).

(** ** Lemmas: in step with a frame of one row *)

(** The frame has the columns of the row, and where the row has a number, that number *)
Definition in_step (fs : FeatureStats F) (st : row_state F) (ns : nstate F) : Prop :=
  n_caches ns = rw_caches st ∧ n_stats ns = fs ∧ f_columns (n_df ns) = (rw_row st).*1 ∧
  ∀ c, f_data (n_df ns) !! c = (λ x, [x]) <$> (assoc c (rw_row st) ≫= real_of).

(** Both return, and the states are still in step, or both raise. *)
Definition same_end {A} (fs : FeatureStats F) (r : outcome A * row_state F) (r' : outcome A * nstate F) : Prop :=
  match r.1, r'.1 with
  | Ret a, Ret b => a = b ∧ in_step fs r.2 r'.2
  | Raise _, Raise _ => True
  | _, _ => False
  end.

Lemma same_end_bind {A B} fs (m : M (row_state F) A) (m' : M (nstate F) A) (k : A → M (row_state F) B) (k' : A → M (nstate F) B) st ns :
  same_end fs (m st) (m' ns) → (∀ a st' ns', in_step fs st' ns' → same_end fs (k a st') (k' a ns')) →
  same_end fs (bind m k st) (bind m' k' ns).
Proof.
  intros Hm Hk. unfold bind, same_end in *. destruct (m st) as [[a| |] st'], (m' ns) as [[b| |] ns']; simpl in *; try done.
  destruct Hm as [-> Hi]. by apply Hk.
Qed.

Lemma same_end_for {A} fs (l : list A) (body : A → M (row_state F) unit) (body' : A → M (nstate F) unit) st ns :
  (∀ x st ns, in_step fs st ns → same_end fs (body x st) (body' x ns)) → in_step fs st ns →
  same_end fs (for_each l body st) (for_each l body' ns).
Proof.
  intros Hb. revert st ns. induction l as [|x l IH]; intros st ns Hi; [by split|]. simpl.
  apply same_end_bind; [by apply Hb|]. intros _ st' ns' Hi'. by apply IH.
Qed.

Lemma value_in_step {A} fs (o : option A) st ns : in_step fs st ns → same_end fs (row_value o st) (need_value o ns).
Proof. intros Hi. by destruct o. Qed.

Lemma column_in_step fs mean std col st ns : in_step fs st ns → same_end fs (row_column mean std col st) (batch_column mean std col ns).
Proof.
  intros (Hc & Hs & Hcols & Hd). unfold row_column, batch_column. unfold bind at 1 3, gets. rewrite Hcols.
  destruct (assoc col (rw_row st)) as [v|] eqn:Ev.
  - rewrite bool_decide_eq_true_2 by (apply assoc_elem in Ev; apply list_elem_of_fmap; by exists (col, v)).
    specialize (Hd col) as Hdc. rewrite Ev in Hdc. simpl in Hdc. unfold FeatureNorm.column, bind, gets. rewrite Hdc.
    destruct (real_of v) as [x|] eqn:Er; simpl; [|done]. rewrite orb_false_r. destruct (nisnan _); [by split|].
    split; [done|]. split_and!; simpl; [done..| |].
    + rewrite assoc_set_dom, decide_True; [done|]. apply assoc_elem in Ev. apply list_elem_of_fmap. by exists (col, v).
    + intros c. destruct (decide (c = col)) as [->|Hne]; [by rewrite lookup_insert_eq, assoc_set_eq|].
      by rewrite lookup_insert_ne, assoc_set_ne.
  - rewrite bool_decide_eq_false_2; [by split|]. intros Hin. destruct (assoc_Some _ _ Hin) as [v Hv]. congruence.
Qed.

Lemma columns_in_step fs s std cols st ns : in_step fs st ns → same_end fs (row_columns s std cols st) (batch_columns s std cols ns).
Proof.
  intros Hi. unfold row_columns, batch_columns. destruct (_ || _); [by split|].
  apply same_end_bind; [by apply value_in_step|]. intros mean st' ns' Hi'. apply same_end_for; [|done].
  intros col st1 ns1 H1. by apply column_in_step.
Qed.

Lemma pod_type_in_step fs t st ns : in_step fs st ns → same_end fs (row_pod_type fs t st) (batch_pod_type t ns).
Proof.
  intros Hi. unfold row_pod_type, batch_pod_type. unfold bind at 4, gets at 2. rewrite (proj1 (proj2 Hi)).
  destruct (assoc t (feature_stats fs)) as [s|]; [|done]. apply same_end_bind; [by apply value_in_step|]. intros std st' ns' Hi'.
  destruct (np_isclose0 _ std); [by split|]. unfold bind at 1 3, gets. pose proof Hi' as (Hc & Hs & Hcols & Hd). rewrite Hcols.
  apply same_end_bind.
  - unfold row_caches, with_caches, zoom. rewrite Hc. destruct (get_matching_columns_cached _ _ _) as [[m| |] c'] eqn:E; simpl; [by split|done|].
    unfold get_matching_columns_cached, bind in E. simpl in E. destruct (cache_find _ _); [done|].
    destruct (filter_m _ _ _) as [[l| |] c1] eqn:Ef; [done..|]. exfalso. clear -Ef. set (c0 := rw_caches st') in Ef. clearbody c0.
    revert c0 c1 Ef. induction ((rw_row st').*1) as [|x l IH]; intros c0 c1; simpl; [done|]. unfold bind.
    unfold extract_pod_feature_type, bind. simpl. destruct (cache_find x _); simpl; destruct (filter_m _ l _) as [[?| |] ?] eqn:E; try done; intros _; by eapply IH.
  - intros [|m ms] st1 ns1 H1; [by split|]. by apply columns_in_step.
Qed.

Lemma own_in_step fs types f st ns : in_step fs st ns → same_end fs (row_own_feature fs types f st) (batch_own_feature types f ns).
Proof.
  intros Hi. unfold row_own_feature, batch_own_feature. case_bool_decide; [by split|]. unfold bind at 3, gets at 2.
  rewrite (proj1 (proj2 Hi)). destruct (assoc f (feature_stats fs)) as [s|]; [|done]. unfold bind at 1 3, gets.
  pose proof Hi as (_ & _ & -> & _). case_bool_decide; simpl; [|by split]. apply same_end_bind; [by apply value_in_step|].
  intros std st' ns' Hi'. destruct (np_isclose0 _ std); [by split|]. by apply columns_in_step.
Qed.

(** ** Lemmas: what becomes of the row *)

(** The keys stay, and a value stays or is a number that became another one. *)
Definition kept (row row' : dict (value F)) : Prop :=
  row'.*1 = row.*1 ∧
  ∀ c v', assoc c row' = Some v' → ∃ v, assoc c row = Some v ∧ (v' = v ∨ is_Some (real_of v) ∧ ∃ x, v' = VFloat x).

Lemma kept_refl row : kept row row.
Proof. split; [done|]. intros c v' H. exists v'. auto. Qed.

Lemma kept_real row row' c v : kept row row' → assoc c row = Some v → is_Some (real_of v) → ∃ v', assoc c row' = Some v' ∧ is_Some (real_of v').
Proof.
  intros [Hk Hv] E Hr. destruct (assoc_Some c row') as [v' E'].
  { rewrite Hk. apply assoc_elem in E. apply list_elem_of_fmap. by exists (c, v). }
  exists v'. split; [done|]. destruct (Hv c v' E') as (v0 & E0 & [->|[_ [x ->]]]); [congruence|by eexists].
Qed.

Lemma kept_set row row' c v x : kept row row' → assoc c row' = Some v → is_Some (real_of v) → kept row (assoc_set c (VFloat x) row').
Proof.
  intros [Hk Hv] E Hr. assert (c ∈ row'.*1) as Hin by (apply assoc_elem in E; apply list_elem_of_fmap; by exists (c, v)).
  split; [by rewrite assoc_set_dom, decide_True|]. intros c' v'. destruct (decide (c' = c)) as [->|]; [|rewrite assoc_set_ne by done; apply Hv].
  rewrite assoc_set_eq. intros [= <-]. destruct (Hv c v E) as (v0 & E0 & H0). exists v0. split; [done|]. right.
  split; [|by eexists]. destruct H0 as [->|[? _]]; done.
Qed.

(** The row so far, and caches that can be relied on *)
Definition row_ok (row : dict (value F)) (st : row_state F) : Prop := kept row (rw_row st) ∧ FeatureNorm.caches_ok (rw_caches st).

Section kept.
Context (row : dict (value F)) (Hnd : NoDup row.*1) (fs : FeatureStats F).

Lemma row_value_keeps {A} (o : option A) : keeps (row_ok row) (row_value o).
Proof. destruct o; simpl; auto with lodestar. Qed.

Lemma row_column_keeps mean std col : keeps (row_ok row) (row_column mean std col).
Proof.
  intros st [Hk Hc]. unfold row_column, bind, gets. destruct (assoc col (rw_row st)) as [v|] eqn:E; [|done].
  unfold row_value. destruct (real_of v) as [x|] eqn:Er; [|done]. simpl. destruct (nisnan _); [done|].
  split; [|done]. simpl. eapply kept_set; eauto.
Qed.

Lemma row_columns_keeps s std cols : keeps (row_ok row) (row_columns s std cols).
Proof.
  unfold row_columns. destruct (_ || _); [apply keeps_ret|]. apply keeps_bind; [apply row_value_keeps|].
  intros mean. apply keeps_for_each. intros. apply row_column_keeps.
Qed.

(** The columns of a type are found, whether they are cached or not. *)
Lemma row_matching t st : row_ok row st →
  ∃ m c', row_caches (get_matching_columns_cached row.*1 t) st = (Ret m, mkRowState c' (rw_row st)) ∧
    row_ok row (mkRowState c' (rw_row st)) ∧ m ≡ₚ matching_of row.*1 t.
Proof.
  intros [Hk Hc]. destruct (matching_ok row.*1 t (rw_caches st) Hc Hnd) as (m & c' & E & Hc' & Hm).
  exists m, c'. unfold row_caches, zoom. by rewrite E.
Qed.

Lemma row_pod_type_keeps t : keeps (row_ok row) (row_pod_type fs t).
Proof.
  unfold row_pod_type. destruct (assoc t _) as [s|]; [|apply keeps_raise].
  apply keeps_bind; [apply row_value_keeps|]. intros std. destruct (np_isclose0 _ _); [apply keeps_ret|].
  intros st Hst. unfold bind at 1, gets. rewrite (proj1 (proj1 Hst)). destruct (row_matching t st Hst) as (m & c' & E & Hok & _).
  rewrite (bind_Ret _ _ _ _ _ E). destruct m; [done|]. by apply row_columns_keeps.
Qed.

Lemma row_own_keeps types f : keeps (row_ok row) (row_own_feature fs types f).
Proof.
  unfold row_own_feature. case_bool_decide; [apply keeps_ret|]. destruct (assoc f _) as [s|]; [|apply keeps_raise].
  apply keeps_bind; [apply keeps_gets|]. intros cols. destruct (negb _); [apply keeps_ret|].
  apply keeps_bind; [apply row_value_keeps|]. intros std. destruct (np_isclose0 _ _); [apply keeps_ret|apply row_columns_keeps].
Qed.

Lemma normalize_row_keeps features types : keeps (row_ok row) (normalize_row fs features types).
Proof.
  apply keeps_bind; [apply keeps_for_each; intros; apply row_pod_type_keeps|]. intros _. apply keeps_for_each. intros. apply row_own_keeps.
Qed.

(** A loop returns when every turn does. *)
Lemma for_each_returns {S A} (I : S → Prop) (l : list A) (body : A → M S unit) s :
  (∀ x s, x ∈ l → I s → ∃ s', body x s = (Ret tt, s') ∧ I s') → I s → ∃ s', for_each l body s = (Ret tt, s') ∧ I s'.
Proof.
  revert s. induction l as [|x l IH]; intros s Hb Hs; [by exists s|]. destruct (Hb x s) as (s1 & E & H1); [left|done|].
  simpl. rewrite (bind_Ret _ _ _ _ _ E). apply IH; [|done]. intros y s' Hy. apply Hb. by right.
Qed.

(** Statistics that were computed *)
Definition has_stats (f : string) : Prop :=
  ∃ s m d, assoc f (feature_stats fs) = Some s ∧ RunningStats.rs_mean s = Some m ∧ RunningStats.rs_std s = Some d.

Definition real_column (c : string) : Prop := ∃ v, assoc c row = Some v ∧ is_Some (real_of v).

Lemma row_columns_return s m std cols st :
  RunningStats.rs_mean s = Some m → Forall real_column cols → row_ok row st → ∃ st', row_columns s std cols st = (Ret tt, st') ∧ row_ok row st'.
Proof.
  intros Hm Hcols Hst. unfold row_columns. destruct (_ || _); [by exists st|]. rewrite Hm. unfold bind, row_value, ret at 1.
  apply (for_each_returns (row_ok row)); [|done]. intros c st1 Hc H1. rewrite Forall_forall in Hcols. destruct (Hcols c Hc) as (v & Ev & Hv).
  destruct (kept_real _ _ _ _ (proj1 H1) Ev Hv) as (v' & Ev' & [x Hx]). pose proof (row_column_keeps m std c st1 H1) as Hk.
  assert (∃ st', row_column m std c st1 = (Ret tt, st')) as [st' E]; [|rewrite E in Hk; by exists st'].
  unfold row_column, bind, gets. rewrite Ev'. unfold row_value. rewrite Hx. simpl. destruct (nisnan _); by eexists.
Qed.

(** The normalization returns when every feature has statistics and every column it covers
    has a number. *)
Lemma normalize_row_returns features types st :
  (∀ t, t ∈ types → has_stats t) → (∀ f, f ∈ features → f ∉ types → has_stats f) →
  (∀ t c, t ∈ types → c ∈ matching_of row.*1 t → real_column c) → (∀ f, f ∈ features → f ∉ types → f ∈ row.*1 → real_column f) →
  row_ok row st → ∃ st', normalize_row fs features types st = (Ret tt, st') ∧ row_ok row st'.
Proof.
  intros Ht Hf Hct Hcf Hst. unfold normalize_row.
  destruct (for_each_returns (row_ok row) types (row_pod_type fs) st) as (st1 & E1 & H1); [|done|].
  { intros t s Hin Hs. destruct (Ht t Hin) as (rs & m & d & E & Em & Ed). unfold row_pod_type. rewrite E, Ed. unfold bind at 1, row_value, ret at 1.
    destruct (np_isclose0 _ d); [by exists s|]. unfold bind at 1, gets. rewrite (proj1 (proj1 Hs)).
    destruct (row_matching t s Hs) as (cs & c' & Ecs & Hok & Hp). rewrite (bind_Ret _ _ _ _ _ Ecs).
    destruct cs as [|c cs]; [by eexists|]. apply (row_columns_return rs m); [done| |done]. apply Forall_forall. intros x Hx.
    apply (Hct t); [done|]. by rewrite <-Hp. }
  rewrite (bind_Ret _ _ _ _ _ E1). apply (for_each_returns (row_ok row)); [|done]. intros f s Hin Hs. unfold row_own_feature.
  case_bool_decide as Hty; [by exists s|]. destruct (Hf f Hin Hty) as (rs & m & d & E & Em & Ed). rewrite E. unfold bind at 1, gets.
  rewrite (proj1 (proj1 Hs)). case_bool_decide as Hcol; [|by exists s]. simpl. rewrite Ed. unfold bind at 1, row_value, ret at 1.
  destruct (np_isclose0 _ d); [by exists s|]. apply (row_columns_return rs m); [done| |done]. constructor; [by apply Hcf|constructor].
Qed.

End kept.

(** ** The two branches *)

(** The frame of one row, with the caches and statistics at hand *)
Definition row_frame (row : dict (value F)) : FeatureNorm.frame F :=
  FeatureNorm.mkFrame row.*1 (list_to_map (omap (λ c, (λ x, (c, [x])) <$> (assoc c row ≫= real_of)) row.*1)).

Definition row_nstate (fs : FeatureStats F) (st : row_state F) : nstate F := mkNState (rw_caches st) fs (row_frame (rw_row st)).

Lemma row_nstate_in_step fs st : in_step fs st (row_nstate fs st).
Proof.
  split_and!; [done..|]. intros c. simpl.
  assert (∀ keys, (list_to_map (omap (λ c, (λ x, (c, [x])) <$> (assoc c (rw_row st) ≫= real_of)) keys) : gmap string (list F)) !! c =
            if decide (c ∈ keys) then (λ x, [x]) <$> (assoc c (rw_row st) ≫= real_of) else None) as H.
  { induction keys as [|k keys IH]; [done|]. csimpl. destruct (assoc k (rw_row st) ≫= real_of) as [x|] eqn:E; csimpl.
    - destruct (decide (c = k)) as [->|Hne]; [rewrite lookup_insert_eq, decide_True by left; by rewrite E|].
      rewrite lookup_insert_ne, IH by done. repeat case_decide; set_solver.
    - rewrite IH. destruct (decide (c = k)) as [->|Hne]; [rewrite E; simpl; by repeat case_decide|]. repeat case_decide; set_solver. }
  rewrite H. case_decide as Hin; [done|]. by rewrite (assoc_None _ _ Hin).
Qed.

(** C34: The two branches of the inference normalization agree: whatever the row, the statistics and
    the features are, normalizing the row of a request and normalizing the frame of that one
    row either both fail, or both return and end with the same caches, columns and numbers. *)
Theorem row_is_one_row_frame fs features types st :
  match normalize_row fs features types st, normalize_features_batch_inference features types (row_nstate fs st) with
  | (Ret _, st'), (Ret _, ns') => in_step fs st' ns'
  | (Raise _, _), (Raise _, _) => True
  | _, _ => False
  end.
Proof.
  assert (same_end fs (normalize_row fs features types st) (normalize_features_batch_inference features types (row_nstate fs st))) as H.
  { apply same_end_bind; [apply same_end_for; [apply pod_type_in_step|apply row_nstate_in_step]|]. intros _ st' ns' Hi'.
    apply same_end_for; [apply own_in_step|done]. }
  unfold same_end in H. destruct (normalize_row _ _ _ _) as [[?| |] ?], (normalize_features_batch_inference _ _ _) as [[?| |] ?]; simpl in *; tauto.
Qed.

End row.
