(* ===== verification/HandleInfer.v ===== *)
(** * The handler of a routing request, from the message to the answer

    Models [handle_infer] of
    [python/routing_agent_service/agent_codes/routing_agent_service.py] as a whole, over the
    components it calls: the message has its addresses replaced ([PodRegistry]), is parsed
    and preprocessed ([Preprocess]), the raw features are watched for shifts
    ([ShiftDetector]) and kept for the prefix filter ([Inference], [PrefixGroup]), the row
    is normalized ([RowNorm]) and encoded ([Encoding]), the agent chooses a pod
    ([RewardService]), and the filter and the tie-break make the response ([Inference]).

    The state is the record of the globals the handler reads and writes. Times and log
    lines are left out, except where they raise; the answer of the latency predictor of
    unused_models/, which a message may ask for, is an argument. *)

From stdpp Require Import sorting.
From Stdlib Require Import Ascii.
From S2P Require Import Prelude Digits Num PodRegistry RunningStats FeatureNorm ShiftDetector PrefixGroup.
From S2P Require Import Inference RewardNet RewardService Preprocess Encoding RowNorm.

Open Scope Z_scope.
Open Scope py_scope.

(** ** The globals *)

(** What is fixed when the service starts. The addresses in [routing] are replaced by
    those of the registry. *)
Record handler_config := mkHandlerConfig {
  ROUTING_STRATEGY : string;
  MODEL_TYPE : string;
  preprocessing : Preprocess.hyper (F:=Q);       (* excluded features and the half-life *)
  NO_NORMALIZE_FEATURES : list string;
  INCLUDE_GPU_FEATURES : option bool;
  request_features_train : list string;
  agent_hyper : RewardNet.hyper;
  routing : infer_config;
  TARGET_GPU_MODEL : option string
}.

Section handler.
Context {T : Torch} {NP : Numpy Q} {SQ : Sqrt Q}.

Record server := mkServer {
  INIT_DONE : bool;
  LODESTAR_PRELOADED : bool;
  pods_registry : registry;
  distribution_shift_monitor : option DistributionShiftMonitor;
  per_sample_ood_detector : option PerSampleOODDetector;
  prefix_group_manager : option PrefixGroupManager;
  stats_instance : option (FeatureStats Q);
  norm_caches : caches;
  inference_encoder : option DataEncoder;
  LODESTAR_AGENT : bool;
  agent : service;
  MODEL_UPDATED : bool;
  NUM_TRAINS : Z;
  batch_1 : option (option (metadata (F:=Q)))  (* encoded_data/batch_1 of the model directory, if it is there, with its metadata.json *)
}.

Definition set_registry (r : registry) (s : server) : server :=
  mkServer (INIT_DONE s) (LODESTAR_PRELOADED s) r (distribution_shift_monitor s) (per_sample_ood_detector s) (prefix_group_manager s)
    (stats_instance s) (norm_caches s) (inference_encoder s) (LODESTAR_AGENT s) (agent s) (MODEL_UPDATED s) (NUM_TRAINS s) (batch_1 s).

Definition set_monitor (m : option DistributionShiftMonitor) (s : server) : server :=
  mkServer (INIT_DONE s) (LODESTAR_PRELOADED s) (pods_registry s) m (per_sample_ood_detector s) (prefix_group_manager s)
    (stats_instance s) (norm_caches s) (inference_encoder s) (LODESTAR_AGENT s) (agent s) (MODEL_UPDATED s) (NUM_TRAINS s) (batch_1 s).

Definition set_detector (d : option PerSampleOODDetector) (s : server) : server :=
  mkServer (INIT_DONE s) (LODESTAR_PRELOADED s) (pods_registry s) (distribution_shift_monitor s) d (prefix_group_manager s)
    (stats_instance s) (norm_caches s) (inference_encoder s) (LODESTAR_AGENT s) (agent s) (MODEL_UPDATED s) (NUM_TRAINS s) (batch_1 s).

Definition set_groups (g : option PrefixGroupManager) (s : server) : server :=
  mkServer (INIT_DONE s) (LODESTAR_PRELOADED s) (pods_registry s) (distribution_shift_monitor s) (per_sample_ood_detector s) g
    (stats_instance s) (norm_caches s) (inference_encoder s) (LODESTAR_AGENT s) (agent s) (MODEL_UPDATED s) (NUM_TRAINS s) (batch_1 s).

Definition set_norm_caches (c : caches) (s : server) : server :=
  mkServer (INIT_DONE s) (LODESTAR_PRELOADED s) (pods_registry s) (distribution_shift_monitor s) (per_sample_ood_detector s) (prefix_group_manager s)
    (stats_instance s) c (inference_encoder s) (LODESTAR_AGENT s) (agent s) (MODEL_UPDATED s) (NUM_TRAINS s) (batch_1 s).

Definition set_encoder (e : option DataEncoder) (s : server) : server :=
  mkServer (INIT_DONE s) (LODESTAR_PRELOADED s) (pods_registry s) (distribution_shift_monitor s) (per_sample_ood_detector s) (prefix_group_manager s)
    (stats_instance s) (norm_caches s) e (LODESTAR_AGENT s) (agent s) (MODEL_UPDATED s) (NUM_TRAINS s) (batch_1 s).

(** [LODESTAR_AGENT = "initialized"] *)
Definition mark_initialized (s : server) : server :=
  mkServer (INIT_DONE s) (LODESTAR_PRELOADED s) (pods_registry s) (distribution_shift_monitor s) (per_sample_ood_detector s) (prefix_group_manager s)
    (stats_instance s) (norm_caches s) (inference_encoder s) true (agent s) (MODEL_UPDATED s) (NUM_TRAINS s) (batch_1 s).

Definition set_agent (a : service) (s : server) : server :=
  mkServer (INIT_DONE s) (LODESTAR_PRELOADED s) (pods_registry s) (distribution_shift_monitor s) (per_sample_ood_detector s) (prefix_group_manager s)
    (stats_instance s) (norm_caches s) (inference_encoder s) (LODESTAR_AGENT s) a (MODEL_UPDATED s) (NUM_TRAINS s) (batch_1 s).

Definition set_updated (b : bool) (s : server) : server :=
  mkServer (INIT_DONE s) (LODESTAR_PRELOADED s) (pods_registry s) (distribution_shift_monitor s) (per_sample_ood_detector s) (prefix_group_manager s)
    (stats_instance s) (norm_caches s) (inference_encoder s) (LODESTAR_AGENT s) (agent s) b (NUM_TRAINS s) (batch_1 s).

Definition set_stats (st : option (FeatureStats Q)) (s : server) : server :=
  mkServer (INIT_DONE s) (LODESTAR_PRELOADED s) (pods_registry s) (distribution_shift_monitor s) (per_sample_ood_detector s) (prefix_group_manager s)
    st (norm_caches s) (inference_encoder s) (LODESTAR_AGENT s) (agent s) (MODEL_UPDATED s) (NUM_TRAINS s) (batch_1 s).

Definition set_preloaded (b : bool) (s : server) : server :=
  mkServer (INIT_DONE s) b (pods_registry s) (distribution_shift_monitor s) (per_sample_ood_detector s) (prefix_group_manager s)
    (stats_instance s) (norm_caches s) (inference_encoder s) (LODESTAR_AGENT s) (agent s) (MODEL_UPDATED s) (NUM_TRAINS s) (batch_1 s).

(** [INIT_DONE = True] *)
Definition set_done (s : server) : server :=
  mkServer true (LODESTAR_PRELOADED s) (pods_registry s) (distribution_shift_monitor s) (per_sample_ood_detector s) (prefix_group_manager s)
    (stats_instance s) (norm_caches s) (inference_encoder s) (LODESTAR_AGENT s) (agent s) (MODEL_UPDATED s) (NUM_TRAINS s) (batch_1 s).

(** [NUM_TRAINS += 1] *)
Definition next_round (s : server) : server :=
  mkServer (INIT_DONE s) (LODESTAR_PRELOADED s) (pods_registry s) (distribution_shift_monitor s) (per_sample_ood_detector s) (prefix_group_manager s)
    (stats_instance s) (norm_caches s) (inference_encoder s) (LODESTAR_AGENT s) (agent s) (MODEL_UPDATED s) (NUM_TRAINS s + 1) (batch_1 s).

Definition set_batch_1 (b : option (option (metadata (F:=Q)))) (s : server) : server :=
  mkServer (INIT_DONE s) (LODESTAR_PRELOADED s) (pods_registry s) (distribution_shift_monitor s) (per_sample_ood_detector s) (prefix_group_manager s)
    (stats_instance s) (norm_caches s) (inference_encoder s) (LODESTAR_AGENT s) (agent s) (MODEL_UPDATED s) (NUM_TRAINS s) b.

(** ** Requests and replies *)

(** The body is a text or an object of texts; the rest is what the request meets: whether
    the lock of the agent is free, the random draws, and the latency predictor's answer. *)
Record http_request := mkHttp {
  http_body : string + dict string;
  http_acquired : bool;
  http_draws : draws;
  http_choice : list nat → nat;
  http_latency : outcome agent_result
}.

Inductive reply :=
| Answered (request_id : string) (num_trains exploration : Z) (r : response)
| Refused (code : Z).

Context (json_loads : string → option (value Q)) (json_gpus : string → option (dict string)) (float_of_string : string → option Q).
Context (repr : value Q → string) (np_exp f32 nan_to_num : Q → Q) (nan : Q) (tuple_hash : Z → Z → Z) (env_metadata : bool).
Context (cfg : handler_config).

Abbreviation row_t := (dict (value Q)).

(** ** The message *)

(** The text before the first occurrence of another *)
Fixpoint before (p s : string) : string :=
  if String.prefix p s then EmptyString
  else match s with String c s' => String c (before p s') | EmptyString => EmptyString end.

(** [log_message.split("requestID@")[1].split("@")[0]] *)
Definition request_id_of (log_message : string) : string :=
  match after "requestID@" log_message with
  | None => "default"
  | Some rest => default EmptyString (head (split_at (before "requestID@" rest)))
  end.

(** [None] for an object that has not exactly one entry *)
Definition message_of (body : string + dict string) : option string :=
  match body with
  | inl text => Some text
  | inr [(_, text)] => Some text
  | inr _ => None
  end.

Definition on_registry {A} (m : M registry A) : M server A := zoom pods_registry set_registry m.

Definition excluded_of : list string := default [] (EXCLUDED_POD_FEATURES (preprocessing cfg)).

(** [HYPERPARAMETERS['generalpodid_to_pod_ip']], which the registry keeps *)
Definition addresses (r : registry) : gmap pod_id string :=
  match PodRegistry.hyperparameters r with Some v => list_to_map (hp_generalpodid_to_pod_ip v) | None => ∅ end.

Definition routing_of (r : registry) : infer_config :=
  let c := routing cfg in
  mkInferConfig (CANDIDATE_K c) (GPU_KV_SATURATION_THRESHOLD c) (PREFIX_SHARING_MIN_BENEFIT_THRESHOLD c) (ENABLE_FALLBACK c)
    (Inference.LOAD_PRETRAINED_MODEL c) (Inference.RETRAIN_AT_STARTUP c) (fixed_range_mode c) (REWARD_SIMILARITY_THRESHOLD c)
    (addresses r) (group_config c).

(** ** Watching the raw features *)

(** [float(row[col])] for the columns that are there *)
Definition floats_there (row : row_t) (cols : list string) : outcome (gmap string Q) :=
  try* xs := omapM (λ c, try* x := Preprocess.to_float float_of_string (dget row c (VInt 0)) in Ret (c, x))
               (List.filter (λ c, bool_decide (c ∈ row.*1)) cols) in
  Ret (list_to_map xs).

(** [float(row.get(col, 0))] *)
Definition floats_at (row : row_t) (cols : list string) : outcome (gmap string Q) :=
  try* xs := omapM (λ c, try* x := Preprocess.to_float float_of_string (dget row c (VInt 0)) in Ret (c, x)) cols in
  Ret (list_to_map xs).

(** The numbers of a row under some columns; the names of request features are those of
    numeric columns. *)
Definition numbers (row : row_t) (names : list (string * string)) : dict Q :=
  omap (λ '(name, col), (λ x, (name, x)) <$> (assoc col row ≫= real_of)) names.

(** A sample of the first pod; what goes wrong is logged. *)
Definition monitor_step (row : row_t) (pods : list pod_id) (m : DistributionShiftMonitor) : DistributionShiftMonitor :=
  match pods with
  | [] => m
  | p :: _ =>
    let m := add_sample (numbers row ((λ f, (f, col_of p f)) <$> pod_ood_names))
               (numbers row ((λ f, (f, f)) <$> request_features_train cfg)) m in
    match should_check m with
    | Ret true => (check_distribution_shift m).2
    | _ => m
    end
  end.

(** The check of the sample; an entry that is no number ends it without a result. *)
Definition detector_step (r : registry) (row : row_t) (pods : list pod_id) (d : option PerSampleOODDetector) : Z * option PerSampleOODDetector :=
  let cols := "input_tokens" :: match pods with [] => [] | p :: _ => col_of p <$> pod_ood_names end in
  match floats_there row cols with
  | Ret m => ood_check (routing_of r) m pods d
  | _ => (0, d)
  end.

Definition pod_columns (feats : list string) (pods : list pod_id) : list string :=
  concat ((λ p, col_of p <$> feats) <$> pods) ++ ["input_tokens"].

Definition filtering_features (r : registry) (row : row_t) (pods : list pod_id) (log_message : string) : option raw_features :=
  match floats_at row (pod_columns ["gpu_kv_cache"; "kv_hit_ratio"] pods) with
  | Ret m => raw_features_for_filtering (routing_of r) m pods log_message
  | _ => None
  end.

(** [raw_features_for_lmetric['waiting_per_pod']] *)
Definition waiting_features (row : row_t) (pods : list pod_id) : option (gmap pod_id Q) :=
  match floats_at row (pod_columns ["kv_hit_ratio"; "running_requests"; "waiting_requests"] pods) with
  | Ret m => Some (list_to_map ((λ p, (p, raw_get m (col_of p "waiting_requests"))) <$> pods))
  | _ => None
  end.

Definition watch (row : row_t) (pods : list pod_id) (log_message : string) : M server (Z * option raw_features * option (gmap pod_id Q)) :=
  let* s := get in
  modify (set_monitor (monitor_step row pods <$> distribution_shift_monitor s)) ;;
  let '(fallback, d) := detector_step (pods_registry s) row pods (per_sample_ood_detector s) in
  modify (set_detector d) ;;
  let raw := filtering_features (pods_registry s) row pods log_message in
  let waiting := waiting_features row pods in
  (if DYNAMIC_K (routing cfg) then
     modify (set_groups (update_pod_states ((λ f, list_to_map (gpu_kv_per_pod f)) <$> raw) waiting pods <$> prefix_group_manager s))
   else ret tt) ;;
  ret (fallback, raw, waiting).

(** ** Normalization *)

Definition on_norm_caches {A} (m : M caches A) : M server A := zoom norm_caches set_norm_caches m.

(** [normalize_features_batch_inference] on the row; the normalized row *)
Definition normalized (fs : FeatureStats Q) (features types : list string) (row : row_t) : M server row_t :=
  let* s := get in
  let '(o, st) := normalize_row fs features types (mkRowState (norm_caches s) row) in
  modify (set_norm_caches (rw_caches st)) ;;
  let* _ := lift o in
  ret (rw_row st).

(** [None] without statistics, which the handler answers by itself *)
Definition normalize_request (row : row_t) : M server (option row_t) :=
  let* s := get in
  match stats_instance s with
  | None => ret None
  | Some fs =>
    if get_max_count fs =? 0 then raise AssertionError
    else
      let* found := on_norm_caches (get_normalizable_features row.*1 (NO_NORMALIZE_FEATURES cfg)) in
      let '(features, _, types) := found in
      let known f := match assoc f (FeatureNorm.feature_stats fs) with Some _ => true | None => false end in
      if forallb known types && forallb (λ f, bool_decide (f ∈ types) || known f) features then
        let* row' := normalized fs features types row in ret (Some row')
      else raise AssertionError
  end.

(** [f"{v:.4f}"] *)
Definition format_float (v : value Q) : outcome unit :=
  match v with
  | VBool _ | VInt _ | VFloat _ => Ret tt
  | VStr _ => Raise ValueError
  | _ => Raise TypeError
  end.

(** [row[col]] *)
Definition item (row : row_t) (col : string) : outcome (value Q) :=
  match assoc col row with Some v => Ret v | None => Raise KeyError end.

(** Every hundredth request is logged with its normalized values. *)
Definition checkpoint (request_id : string) (row : row_t) (pods : list pod_id) : outcome unit :=
  match py_int request_id with
  | None => Raise ValueError
  | Some n =>
    if n mod 100 =? 0 then
      try* _ := omapM (λ c, try* v := item row c in format_float v) ["input_tokens"; "output_tokens"] in
      try* _ := omapM (λ c, match assoc c row with Some v => format_float v | None => Ret tt end)
                  (concat ((λ p, (λ f, col_of p f) <$> List.filter (λ f, bool_decide (f ∉ excluded_of))
                                                      ["kv_hit_ratio"; "inflight_requests"; "prefill_tokens"]) <$> take 3 pods)) in
      Ret tt
    else Ret tt
  end.

(** ** The choice of the agent *)

Definition lodestar_algorithms : list string :=
  ["lodestar"; "random"; "least_latency"; "least_request"; "least_kv_cache"; "least_prefill_tokens"; "prefix_cache_1"; "prefix_cache_2";
   "prefix_hit_threshold_or_least_request"].

Definition agent_request (t : inference_tensors (F:=Q)) (pods : list pod_id) (updated : bool) (q : http_request) : RewardService.request :=
  RewardService.mkRequest (inr (it_pod_features_with_staleness t)) (inr (it_kv_hit_ratios t)) (inr (it_request_features t)) updated pods
    (http_acquired q) (http_draws q).

(** The flag of an updated model is cleared once the agent has seen it. *)
Definition ask_agent (t : inference_tensors (F:=Q)) (pods : list pod_id) (q : http_request) : M server agent_result :=
  modify mark_initialized ;;
  let* s := get in
  let* res := zoom agent set_agent
                (infer_from_tensor env_metadata np_exp (agent_hyper cfg) (agent_request t pods (MODEL_UPDATED s) q)) in
  modify (set_updated false) ;;
  ret (agent_result_of res).

Definition choose (algorithm : value Q) (t : inference_tensors (F:=Q)) (pods : list pod_id) (q : http_request) : M server agent_result :=
  match algorithm with
  | VStr name =>
    if String.eqb name "latency_predictor" then lift (http_latency q)
    else if bool_decide (name ∈ lodestar_algorithms) then ask_agent t pods q
    else raise AssertionError
  | _ => raise AssertionError
  end.

(** ** The handler *)

Definition route (pods : list pod_id) (q : http_request) (fallback : Z) (raw : option raw_features) (waiting : option (gmap pod_id Q))
    (r : agent_result) : M server response :=
  let* s := get in
  let '(o, groups) := route_request tuple_hash (routing_of (pods_registry s)) pods (http_choice q) (NUM_TRAINS s) fallback raw
                        (bool_decide (is_Some waiting)) r (prefix_group_manager s) in
  modify (set_groups groups) ;; lift o.

(** From the normalized row to the answer *)
Definition answer_row (q : http_request) (request_id : string) (pods : list pod_id) (watched : Z * option raw_features * option (gmap pod_id Q))
    (row : row_t) : M server reply :=
  lift (checkpoint request_id row pods) ;;
  let* s := get in
  let* t := zoom inference_encoder set_encoder
              (encode_for_inference float_of_string repr f32 nan_to_num nan (Row row) pods (request_features_train cfg)
                 (hyper_of (pods_registry s) excluded_of (INCLUDE_GPU_FEATURES cfg))) in
  let* algorithm := lift (item row "subAlgorithm") in
  let* res := choose algorithm t pods q in
  let '(fallback, raw, waiting) := watched in
  let* resp := route pods q fallback raw waiting res in
  let* _ := lift (match py_int request_id with Some _ => Ret tt | None => Raise ValueError end) in
  let* s := get in
  ret (Answered request_id (NUM_TRAINS s) (if explored res then 1 else 0) resp).

(** The body of the [try] *)
Definition infer_message (q : http_request) (message : string) : M server reply :=
  let* log_message := on_registry (replace_in_message json_gpus (TARGET_GPU_MODEL cfg) message) in
  let* pre := lift (main_inference json_loads float_of_string np_exp nan log_message (Some (preprocessing cfg))) in
  let '(row, pods) := pre in
  let* watched := watch row pods log_message in
  let* row := normalize_request row in
  match row with
  | None => ret (Refused 500)
  | Some row => answer_row q (request_id_of log_message) pods watched row
  end.

(** An exception is answered with an error; the exit of the interpreter is no [Exception]. *)
Definition answer_error (e : exn) : M server reply := if decide (e = SystemExit) then raise e else ret (Refused 500).

Definition handle_infer (q : http_request) : M server reply :=
  let* s := get in
  if negb (INIT_DONE s) then ret (Refused 503)
  else if String.eqb (ROUTING_STRATEGY cfg) "lodestar" && negb (LODESTAR_PRELOADED s) then ret (Refused 503)
  else match message_of (http_body q) with
       | None => ret (Refused 400)
       | Some message => catch (infer_message q message) answer_error
       end.

(** ** The start of the service and the end of a training round *)

(** The model is loaded at the start unless its weights are to be skipped. *)
Definition preload_model (num_pods : nat) : M service bool :=
  if String.eqb (ROUTING_STRATEGY cfg) "lodestar" then
    if skip_weights (agent_hyper cfg) then ret true
    else catch (preload_agent_from_metadata (agent_hyper cfg) (Some num_pods)) (λ _, ret false)
  else ret true.

(** The globals of the module, with the files of the model directory *)
Definition booted (fs : files) (batch : option (option (metadata (F:=Q)))) : server :=
  mkServer false false new_registry None None None None new_caches None false (set_model_dir fs new_service) true 0 batch.

(** The pods that run and their GPUs, the statistics and the watchers are what the cluster
    and the files of the directory have. *)
Definition initialize (running_pod_ips : list string) (ip_to_gpu : dict string) (stats : FeatureStats Q)
    (monitor : option DistributionShiftMonitor) (detector : option PerSampleOODDetector) (groups : option PrefixGroupManager) : M server unit :=
  modify (set_stats (Some stats)) ;;
  let* _ := on_registry (register_pod_ips running_pod_ips ip_to_gpu None (TARGET_GPU_MODEL cfg)) in
  let* loaded := zoom agent set_agent (preload_model (length running_pod_ips)) in
  modify (set_preloaded loaded) ;;
  modify (set_monitor monitor) ;; modify (set_detector detector) ;; modify (set_groups groups) ;;
  modify set_done.

(** What the strategy trains with: an agent of unused_models/, the agent here, or nothing *)
Inductive trainer := OtherTrainer | RewardTrainer | NoTrainer.

Definition trainer_of (strategy : string) : trainer :=
  if py_contains "perpodmodel_advanced" strategy || py_contains "policygradient" strategy then OtherTrainer
  else if py_contains "perpodmodel_checkpoint" strategy then RewardTrainer else NoTrainer.

(** The metadata of the new data is copied over that of the pretrained model, when both are there. *)
Definition copy_metadata (fresh : option (metadata (F:=Q))) (s : server) : server :=
  match fresh, batch_1 s with
  | Some m, Some _ => set_batch_1 (Some (Some m)) s
  | _, _ => s
  end.

(** The statistics and the caches are those of the new data, which is encoded. *)
Definition prepare_round (stats : FeatureStats Q) (c : caches) (fresh : option (metadata (F:=Q))) : M server unit :=
  modify (set_stats (Some stats)) ;; modify (set_norm_caches c) ;; modify (copy_metadata fresh).

(** The watchers get the statistics, and the round is counted. *)
Definition finish_round (baseline : dict running_stats) : M server unit :=
  modify (λ s, set_monitor (update_baseline_from_stats baseline <$> distribution_shift_monitor s) s) ;;
  modify (λ s, set_detector (update_stats baseline <$> per_sample_ood_detector s) s) ;;
  modify (set_updated true) ;; modify next_round.

(** What a trainer of unused_models/ leaves in the model directory is a parameter. *)
Definition train_elsewhere (other : files → files) : M server unit :=
  modify (λ s, set_agent (set_model_dir (other (model_dir (agent s))) (agent s)) s).

(** A training round whose data could be prepared, by the type of the model: the agent learns from the
    encoded files; a strategy without a trainer ends the round before it is counted, and a type that
    is not known before anything is done. *)
Definition end_round (norm2 : list Q → Q) (td : train_draws) (items : list (string * dir_item)) (stats : FeatureStats Q) (c : caches)
    (baseline : dict running_stats) (fresh : option (metadata (F:=Q))) (other : files → files) : M server unit :=
  if String.eqb (MODEL_TYPE cfg) "latency_predictor" then prepare_round stats c fresh ;; train_elsewhere other ;; finish_round baseline
  else if py_contains "contextual_bandit" (MODEL_TYPE cfg) then
    prepare_round stats c fresh ;;
    match trainer_of (ROUTING_STRATEGY cfg) with
    | NoTrainer => ret tt
    | OtherTrainer => train_elsewhere other ;; finish_round baseline
    | RewardTrainer =>
      let* s := get in
      let* _ := zoom agent set_agent (train norm2 (agent_hyper cfg) td (Some (NUM_TRAINS s)) (Some items)) in
      finish_round baseline
    end
  else ret tt.

End handler.

(** ** Lemmas: dictionaries and rows *)

Lemma list_to_map_assoc {A} (l : dict A) k : (list_to_map l : gmap string A) !! k = assoc k l.
Proof.
  induction l as [|[k' v] l IH]; [done|]. simpl. case_decide as E; [subst; by rewrite lookup_insert_eq|]. by rewrite lookup_insert_ne.
Qed.

Lemma assoc_update_NoDup {A} (d e : dict A) : NoDup d.*1 → NoDup (assoc_update d e).*1.
Proof. revert d. induction e as [|[k v] e IH]; intros d Hd; [done|]. simpl. by apply IH, assoc_set_NoDup. Qed.

(** A preprocessed row has every key once. *)
Lemma fast_row_NoDup json_loads float_of_string np_exp (nan : Q) row hp pods res :
  preprocess_inference_fast json_loads float_of_string np_exp nan row hp pods = Ret res → NoDup res.*1.
Proof.
  assert (∀ (l : dict (value Q)), Ret l = Ret res → NoDup l.*1 → NoDup res.*1) as Hret by (intros l [= ->]; done).
  unfold preprocess_inference_fast. destruct (ofold _ _ _) as [row1| |]; [|done..]. cbn [obind]. set (row2 := numbered _ _ _). clearbody row2.
  destruct (fast_fresh _ _ _ _ _ _) as [fresh| |]; [|done..]. cbn [obind]. intros E. eapply Hret; [exact E|]. rewrite <-list_fmap_compose.
  change (NoDup (assoc_update (assoc_update (assoc_update (Preprocess.base_features row2) (fast_features float_of_string hp row2 pods)) fresh)
    (gpu_features hp row2 pods)).*1). do 3 apply assoc_update_NoDup. by_decision.
Qed.

Lemma main_inference_NoDup json_loads float_of_string np_exp (nan : Q) message hp row pods :
  main_inference json_loads float_of_string np_exp nan message hp = Ret (row, pods) → NoDup row.*1.
Proof.
  unfold main_inference. destruct (String.eqb _ _); [done|]. destruct (parse_log_to_dict _ _ _); [done|].
  destruct (single_row_pods _) as [ps| |]; [|done..]. cbn [obind].
  destruct (preprocess_inference_fast _ _ _ _ _ _ _) as [res| |] eqn:E; [|done..]. intros [= <- <-]. by eapply fast_row_NoDup.
Qed.

(** ** Lemmas: the invariant of the service *)

Section invariant.
Context {T : Torch} {TL : TorchLaws T} {NP : Numpy Q} {SQ : Sqrt Q}.
Context (json_loads : string → option (value Q)) (json_gpus : string → option (dict string)) (float_of_string : string → option Q).
Context (repr : value Q → string) (np_exp f32 nan_to_num : Q → Q) (nan : Q) (tuple_hash : Z → Z → Z) (env_metadata : bool).
Context (cfg : handler_config).

Abbreviation handle := (handle_infer json_loads json_gpus float_of_string repr np_exp f32 nan_to_num nan tuple_hash env_metadata cfg).

(** The registry and the encoder, the caches of the normalizer, and the agent are in order. *)
Record server_ok (s : server) : Prop := mkServerOk {
  ok_serving : serving_inv (pods_registry s, inference_encoder s);
  ok_caches : FeatureNorm.caches_ok (norm_caches s);
  ok_agent : service_ok (agent_hyper cfg) (agent s)
}.

Lemma replace_registry env message r :
  registry_inv r → let r' := (replace_in_message json_gpus env message r).2 in registry_inv r' ∧ extends r r'.
Proof.
  intros Hr. unfold replace_in_message. case_bool_decide; [done|].
  pose proof (register_inv (elements (extract_pod_ips_from_content message)) (extract_gpu_map_from_log_message json_gpus message) None env r Hr) as H'.
  unfold bind. destruct (register_pod_ips _ _ _ _ r) as [[m| |] r']; simpl in *; [|done..]. by destruct (omap _ _).
Qed.

Lemma registry_keeps env message : keeps server_ok (on_registry (replace_in_message json_gpus env message)).
Proof.
  intros s [H1 H2 H3]. destruct (replace_registry env message (pods_registry s) (proj1 H1)) as [Hr Hx].
  unfold on_registry, zoom. destruct (replace_in_message _ _ _ _) as [o r']. simpl in *. split; [by apply (serving_grow (pods_registry s))|done..].
Qed.

Lemma watch_keeps row pods message : keeps server_ok (watch float_of_string cfg row pods message).
Proof.
  intros s [H1 H2 H3]. unfold watch. rewrite bind_get, bind_modify. destruct (detector_step _ _ _ _ _ _) as [fallback d]. rewrite bind_modify.
  by destruct (DYNAMIC_K _).
Qed.

Lemma normalized_keeps fs features types row : NoDup row.*1 → keeps server_ok (normalized fs features types row).
Proof.
  intros Hnd s [H1 H2 H3]. unfold normalized. rewrite bind_get.
  pose proof (normalize_row_keeps row Hnd fs features types (mkRowState (norm_caches s) row)) as H.
  destruct (normalize_row _ _ _ _) as [o st]. simpl in H. destruct H as [_ Hc]; [by split; [apply kept_refl|]|].
  rewrite bind_modify. unfold bind, lift. by destruct o.
Qed.

Lemma normalize_keeps row : NoDup row.*1 → keeps server_ok (normalize_request cfg row).
Proof.
  intros Hnd s Hs. unfold normalize_request. rewrite bind_get. destruct (stats_instance s) as [fs|]; [|done].
  destruct (get_max_count fs =? 0); [done|]. unfold bind at 1, on_norm_caches, zoom.
  destruct (normalizable_ok row.*1 (NO_NORMALIZE_FEATURES cfg) (norm_caches s) (ok_caches s Hs) Hnd) as ([[features others] types] & c' & E & Hc' & _).
  rewrite E. assert (server_ok (set_norm_caches c' s)) as Hs' by (by destruct Hs). destruct (_ && _); [|done].
  apply (keeps_bind _ (normalized fs features types row)); [by apply normalized_keeps|by intros; apply keeps_ret|done].
Qed.

Lemma keeps_encode row pods (k : inference_tensors (F:=Q) → M server reply) : (∀ t, keeps server_ok (k t)) →
  keeps server_ok (let* s := get in
    let* t := zoom inference_encoder set_encoder
      (encode_for_inference float_of_string repr f32 nan_to_num nan (Row row) pods (request_features_train cfg)
         (hyper_of (pods_registry s) (excluded_of cfg) (INCLUDE_GPU_FEATURES cfg))) in k t).
Proof.
  intros Hk s [H1 H2 H3]. rewrite bind_get. unfold bind, zoom.
  destruct (serving_encode float_of_string repr f32 nan_to_num nan _ _ (Row row) pods (request_features_train cfg) (excluded_of cfg) (INCLUDE_GPU_FEATURES cfg) H1) as [H _].
  destruct (encode_for_inference _ _ _ _ _ _ _ _ _ _) as [[t| |] e']; [apply Hk|..]; by split.
Qed.

Lemma choose_keeps algorithm t pods q : keeps server_ok (choose np_exp env_metadata cfg algorithm t pods q).
Proof.
  unfold choose. destruct algorithm as [| | | |name| |]; try apply keeps_raise. destruct (String.eqb _ _); [apply keeps_lift|]. case_bool_decide; [|apply keeps_raise].
  intros s [H1 H2 H3]. unfold ask_agent. rewrite bind_modify, bind_get. unfold bind, zoom.
  pose proof (infer_ok env_metadata np_exp (agent_hyper cfg) (agent_request t pods (MODEL_UPDATED (mark_initialized s)) q) (agent s) H3) as Ha.
  simpl in *. by destruct (infer_from_tensor _ _ _ _ _) as [[res| |] a'].
Qed.

Lemma route_keeps pods q fallback raw waiting r : keeps server_ok (route tuple_hash cfg pods q fallback raw waiting r).
Proof. intros s [H1 H2 H3]. unfold route. rewrite bind_get. by destruct (route_request _ _ _ _ _ _ _ _ _ _). Qed.

Lemma answer_row_keeps q id pods watched row :
  keeps server_ok (answer_row float_of_string repr np_exp f32 nan_to_num nan tuple_hash env_metadata cfg q id pods watched row).
Proof.
  unfold answer_row. apply keeps_lift_bind. intros _ _. destruct watched as [[fallback raw] waiting].
  apply (keeps_encode row pods). intros t. apply keeps_lift_bind. intros algorithm _. apply keeps_bind; [apply choose_keeps|].
  intros res. apply keeps_bind; [apply route_keeps|]. intros resp. repeat keeps_step.
Qed.

Lemma infer_message_keeps q message :
  keeps server_ok (infer_message json_loads json_gpus float_of_string repr np_exp f32 nan_to_num nan tuple_hash env_metadata cfg q message).
Proof.
  unfold infer_message. apply keeps_bind; [apply registry_keeps|]. intros log_message. apply keeps_lift_bind. intros [row pods] Hrow.
  apply main_inference_NoDup in Hrow. apply keeps_bind; [apply watch_keeps|]. intros watched.
  apply keeps_bind; [by apply normalize_keeps|]. intros [row'|]; [apply answer_row_keeps|apply keeps_ret].
Qed.

(** Whatever a request is, the service is in order after it. *)
Lemma handle_infer_keeps q : keeps server_ok (handle q).
Proof.
  intros s Hs. unfold handle_infer. rewrite bind_get. destruct (negb _); [done|]. destruct (_ && _); [done|].
  destruct (message_of _) as [message|]; [|done]. apply keeps_catch; [apply infer_message_keeps| |done].
  intros e. unfold answer_error. case_decide; [apply keeps_raise|apply keeps_ret].
Qed.

(** ** The life of the service *)

(** Requests are handled, reloads end, and training rounds on well-formed files of the widths
    of the cached agent end, in any order; rounds of agents of unused_models/ are left out. *)
Inductive step : server → server → Prop :=
| requested s q : step s (handle q s).2
| reloaded s : step s (zoom agent set_agent (finish_reload env_metadata) s).2
| retrained s norm2 td items d stats c baseline fresh other :
    (∀ fs, dir_ok (agent_hyper cfg) fs → dir_ok (agent_hyper cfg) (other fs)) → train_draws_ok td → 0 < default 256 (hp_batch_size (agent_hyper cfg)) → (tensor_files items).*2 ≠ [] →
    Forall (λ x, dataset_ok d x ∧ (0 < ds_size x)%nat) (tensor_files items).*2 →
    (∀ a, cached_agent (agent s) = Some a → ∃ n, serves (agent_hyper cfg) (d, n) a) → FeatureNorm.caches_ok c →
    step s (end_round cfg norm2 td items stats c baseline fresh other s).2.

(** A start on some model directory *)
Definition starts (fs : files) (s : server) : Prop :=
  ∃ ips gpus stats monitor detector groups batch, s = (initialize cfg ips gpus stats monitor detector groups (booted fs batch)).2.

(** The service was started on a directory that has no model or a saved one. *)
Definition reachable (s : server) : Prop := ∃ fs s0, dir_ok (agent_hyper cfg) fs ∧ starts fs s0 ∧ rtc step s0 s.

Lemma preload_model_ok n s : service_ok (agent_hyper cfg) s → reload s = None → service_ok (agent_hyper cfg) (preload_model cfg n s).2.
Proof.
  intros Hs Hr. unfold preload_model. destruct (String.eqb _ _); [|done]. destruct (skip_weights _); [done|]. unfold catch.
  pose proof (preload_ok (agent_hyper cfg) (Some n) s Hs Hr) as H. by destruct (preload_agent_from_metadata _ _ _) as [[b| |] s'].
Qed.

Lemma initialize_ok ips gpus stats monitor detector groups fs batch :
  dir_ok (agent_hyper cfg) fs → server_ok (initialize cfg ips gpus stats monitor detector groups (booted fs batch)).2.
Proof.
  intros Hd. assert (service_ok (agent_hyper cfg) (set_model_dir fs new_service)) as Ha by (split; simpl; [done..|split; [by intros [? [=]]|done]|done|done]).
  assert (serving_inv (new_registry, None)) as H0 by (split; [apply new_registry_inv|]; intros _ excluded include; apply new_encoder_ok).
  unfold initialize. rewrite bind_modify. unfold bind at 1, on_registry, zoom.
  pose proof (register_inv ips gpus None (TARGET_GPU_MODEL cfg) new_registry new_registry_inv) as [Hr Hx].
  simpl. destruct (register_pod_ips _ _ _ _ _) as [[m| |] r]; simpl in *;
    (assert (serving_inv (r, None)) as Hs by (by apply (serving_grow new_registry))); [|split; [done|apply new_caches_ok|done]..].
  pose proof (preload_model_ok (length ips) _ Ha eq_refl) as Hp. unfold bind at 1, zoom. simpl.
  destruct (preload_model _ _ _) as [[b| |] a]; simpl in *; (split; [done|apply new_caches_ok|done]).
Qed.

Lemma preload_dir hp num_pods (s : service) : model_dir (preload_agent_from_metadata hp num_pods s).2 = model_dir s.
Proof.
  unfold preload_agent_from_metadata. rewrite bind_get. destruct (_ !! _) as [[| |md]|]; try done. destruct (md_state_dim md) as [d|]; [|done].
  destruct (_ =? _)%nat; [done|]. destruct (_ || _ || _); [done|]. destruct (_ && _); [done|]. unfold bind at 1, lift. by destruct (new_loaded_agent _ _ _ _ _).
Qed.

(** The start only reads the model directory. *)
Lemma start_dir fs s : starts fs s → model_dir (agent s) = fs.
Proof.
  intros (ips & gpus & stats & monitor & detector & groups & batch & ->). unfold initialize. rewrite bind_modify. unfold bind at 1, on_registry, zoom. simpl.
  destruct (register_pod_ips _ _ _ _ _) as [[m| |] r]; [|done..]. unfold bind at 1, zoom. simpl.
  assert (model_dir (preload_model cfg (length ips) (set_model_dir fs new_service)).2 = fs) as H.
  { unfold preload_model. destruct (String.eqb _ _); [|done]. destruct (skip_weights _); [done|]. unfold catch.
    pose proof (preload_dir (agent_hyper cfg) (Some (length ips)) (set_model_dir fs new_service)) as H.
    by destruct (preload_agent_from_metadata _ _ _) as [[b| |] a]. }
  by destruct (preload_model _ _ _) as [[b| |] a].
Qed.

(** The service after the preparation of a round *)
Definition prepared (stats : FeatureStats Q) (c : caches) (fresh : option (metadata (F:=Q))) (s : server) : server :=
  copy_metadata fresh (set_norm_caches c (set_stats (Some stats) s)).

Lemma round_prepared {A} stats c fresh (m : M server A) s : (prepare_round stats c fresh ;; m) s = m (prepared stats c fresh s).
Proof. done. Qed.

Lemma copy_metadata_cases fresh s : copy_metadata fresh s = s ∨ is_Some (batch_1 s) ∧ ∃ m, copy_metadata fresh s = set_batch_1 (Some (Some m)) s.
Proof. unfold copy_metadata. destruct fresh as [m|]; [|by left]. destruct (batch_1 s); [right|by left]. split; [by eexists|by exists m]. Qed.

Lemma prepared_ok stats c fresh s : FeatureNorm.caches_ok c → server_ok s → server_ok (prepared stats c fresh s) ∧ agent (prepared stats c fresh s) = agent s.
Proof.
  intros Hc [H1 H2 H3]. unfold prepared. destruct (copy_metadata_cases fresh (set_norm_caches c (set_stats (Some stats) s))) as [->|[_ [m ->]]]; (split; [by split|done]).
Qed.

Lemma finish_keeps baseline : keeps server_ok (finish_round baseline).
Proof. intros s [H1 H2 H3]. by split. Qed.

Lemma elsewhere_keeps other : (∀ fs, dir_ok (agent_hyper cfg) fs → dir_ok (agent_hyper cfg) (other fs)) → keeps server_ok (train_elsewhere other).
Proof. intros Ho s [H1 H2 [A1 A2 A3 A4 A5]]. split; [done..|]. split; simpl; [done..|by apply Ho]. Qed.

Lemma server_step_ok s s' : server_ok s → step s s' → server_ok s'.
Proof.
  intros Hs. destruct 1 as [s q|s|s norm2 td items d stats c baseline fresh other Ho Htd Hb Hne Hds Hc Hcc]; [by apply handle_infer_keeps|..].
  - destruct Hs as [H1 H2 H3]. unfold zoom. destruct (finish_reload_ok env_metadata (agent_hyper cfg) (agent s) H3) as (a' & -> & Ha' & _). by split.
  - destruct (prepared_ok stats c fresh s Hcc Hs) as [Hp Ha]. unfold end_round. destruct (String.eqb _ _).
    { rewrite round_prepared. apply keeps_bind; [by apply elsewhere_keeps|intros _; apply finish_keeps|done]. }
    destruct (py_contains _ _); [|done]. rewrite round_prepared. destruct (trainer_of _); [|rewrite bind_get|done].
    + apply keeps_bind; [by apply elsewhere_keeps|intros _; apply finish_keeps|done].
    + set (s1 := prepared stats c fresh s) in *. unfold bind at 1, zoom. rewrite Ha. destruct Hp as [H1 H2 H3]. rewrite Ha in H3.
      destruct (train_round_ok norm2 (agent_hyper cfg) td (Some (NUM_TRAINS s1)) items d (agent s)) as (a' & -> & Ha'); [done..|]. apply finish_keeps. by split.
Qed.

(** Whatever happens to the service, it stays in order. *)
Lemma server_reachable_ok s : reachable s → server_ok s.
Proof.
  intros (fs & s0 & Hd & (ips & gpus & stats & monitor & detector & groups & batch & ->) & Hsteps). revert s Hsteps.
  apply rtc_ind_r; [by apply initialize_ok|]. intros s1 s2 _ Hst Hs1. by apply (server_step_ok s1).
Qed.

(** ** A service that is not ready *)

(** The model was not loaded at the start. *)
Definition not_ready (s : server) : Prop := INIT_DONE s = false ∨ LODESTAR_PRELOADED s = false.

Lemma not_ready_refused q s : ROUTING_STRATEGY cfg = "lodestar" → not_ready s → handle q s = (Ret (Refused 503), s).
Proof.
  intros Hl [Hi|Hp]; unfold handle_infer; rewrite bind_get; [by rewrite Hi|]. rewrite Hl, Hp. by destruct (INIT_DONE s).
Qed.

Lemma not_ready_step s s' : ROUTING_STRATEGY cfg = "lodestar" → not_ready s → step s s' → not_ready s'.
Proof.
  intros Hl Hn. destruct 1 as [s q|s|s norm2 td items d stats c baseline fresh other].
  - by rewrite not_ready_refused.
  - unfold zoom. by destruct (finish_reload _ _).
  - assert (not_ready (prepared stats c fresh s)) as Hp.
    { unfold prepared. by destruct (copy_metadata_cases fresh (set_norm_caches c (set_stats (Some stats) s))) as [->|[_ [m ->]]]. }
    unfold end_round. destruct (String.eqb _ _); [by rewrite round_prepared|]. destruct (py_contains _ _); [|done]. rewrite round_prepared.
    destruct (trainer_of _); [done| |done]. rewrite bind_get. unfold bind at 1, zoom. by destruct (train _ _ _ _ _ _) as [[o| |] a'].
Qed.

Lemma start_not_ready fs s :
  ROUTING_STRATEGY cfg = "lodestar" → skip_weights (agent_hyper cfg) = false → fs !! file_name "metadata" "" ".pkl" = None → starts fs s → not_ready s.
Proof.
  intros Hl Hw Hm (ips & gpus & stats & monitor & detector & groups & batch & ->). unfold initialize. rewrite bind_modify. unfold bind at 1, on_registry, zoom. simpl.
  destruct (register_pod_ips _ _ _ _ _) as [[m| |] r]; [|by left..]. right. unfold bind at 1, zoom. simpl.
  unfold preload_model. rewrite Hl, Hw, String.eqb_refl. unfold catch, preload_agent_from_metadata. rewrite bind_get. simpl. by rewrite Hm.
Qed.

(** ** What requests leave alone *)

(** Of the encoded data of the pretrained model only the metadata may be another, where it is there. *)
Definition batch_kept (b b' : option (option (metadata (F:=Q)))) : Prop := b' = b ∨ is_Some b ∧ ∃ m, b' = Some (Some m).

(** The files of the model and the number of training rounds *)
Definition files_kept (s s' : server) : Prop :=
  model_dir (agent s') = model_dir (agent s) ∧ NUM_TRAINS s' = NUM_TRAINS s ∧ batch_kept (batch_1 s) (batch_1 s').

Lemma files_kept_refl s : files_kept s s.
Proof. split_and!; [done..|by left]. Qed.

Lemma files_kept_trans s1 s2 s3 : files_kept s1 s2 → files_kept s2 s3 → files_kept s1 s3.
Proof.
  intros (H1 & H2 & H3) (H1' & H2' & H3'). split_and!; [congruence..|]. destruct H3' as [->|[Hb Hm]]; [done|]. right. split; [|done].
  destruct H3 as [<-|[Hs _]]; done.
Qed.

Lemma infer_dir r (s : service) : model_dir (infer_from_tensor env_metadata np_exp (agent_hyper cfg) r s).2 = model_dir s.
Proof.
  unfold infer_from_tensor, bind at 1.
  assert (model_dir (prepare env_metadata (agent_hyper cfg) r s).2 = model_dir s) as Hp.
  { unfold prepare. set (s1 := if rq_model_updated r then s else set_consumed false s).
    assert ((if rq_model_updated r then ret tt else modify (set_consumed false)) s = (Ret tt, s1)) as E1 by (unfold s1; by case_match).
    assert (model_dir s1 = model_dir s) as <- by (unfold s1; by case_match). unfold bind at 1. rewrite E1, bind_get.
    unfold sync_reload, start_reload, bind, get, lift, modify, ret. repeat (case_match; simplify_eq/=; try done). }
  destruct (prepare _ _ _ s) as [[[]| |] s1]; simpl in *; [|done..]. rewrite answer_state, <-Hp. unfold on_agent. destruct (cached_agent s1); [|done].
  by destruct (choose_action _ _ _ _ _ _).
Qed.

Lemma on_registry_files s0 {A} (m : M registry A) : keeps (files_kept s0) (on_registry m).
Proof. intros s H. unfold on_registry, zoom. by destruct (m _). Qed.

Lemma watch_files s0 row pods message : keeps (files_kept s0) (watch float_of_string cfg row pods message).
Proof.
  intros s H. unfold watch. rewrite bind_get, bind_modify. destruct (detector_step _ _ _ _ _ _) as [fallback d]. rewrite bind_modify. by destruct (DYNAMIC_K _).
Qed.

Lemma normalize_files s0 row : keeps (files_kept s0) (normalize_request cfg row).
Proof.
  intros s H. unfold normalize_request. rewrite bind_get. destruct (stats_instance s) as [fs|]; [|done]. destruct (get_max_count fs =? 0); [done|].
  unfold bind at 1, on_norm_caches, zoom. destruct (get_normalizable_features _ _ _) as [[[[features others] types]| |] c]; [|done..].
  destruct (_ && _); [|done]. unfold normalized, bind, get, modify, lift. destruct (normalize_row _ _ _ _) as [[u| |] st]; done.
Qed.

Lemma encode_files s0 t pods hyper :
  keeps (files_kept s0) (zoom inference_encoder set_encoder (encode_for_inference float_of_string repr f32 nan_to_num nan t pods (request_features_train cfg) hyper)).
Proof. intros s H. unfold zoom. by destruct (encode_for_inference _ _ _ _ _ _ _ _ _ _). Qed.

Lemma choose_files s0 algorithm t pods q : keeps (files_kept s0) (choose np_exp env_metadata cfg algorithm t pods q).
Proof.
  unfold choose. destruct algorithm as [| | | |name| |]; try apply keeps_raise. destruct (String.eqb _ _); [apply keeps_lift|]. case_bool_decide; [|apply keeps_raise].
  intros s (H1 & H2 & H3). unfold ask_agent. rewrite bind_modify, bind_get. unfold bind, zoom.
  pose proof (infer_dir (agent_request t pods (MODEL_UPDATED (mark_initialized s)) q) (agent s)) as Ha.
  simpl in *. destruct (infer_from_tensor _ _ _ _ _) as [[res| |] a']; simpl in *; (split_and!; simpl; [congruence..|done]).
Qed.

Lemma route_files s0 pods q fallback raw waiting r : keeps (files_kept s0) (route tuple_hash cfg pods q fallback raw waiting r).
Proof. intros s H. unfold route. rewrite bind_get. by destruct (route_request _ _ _ _ _ _ _ _ _ _). Qed.

Lemma answer_row_files s0 q id pods watched row :
  keeps (files_kept s0) (answer_row float_of_string repr np_exp f32 nan_to_num nan tuple_hash env_metadata cfg q id pods watched row).
Proof.
  unfold answer_row. apply keeps_lift_bind. intros _ _. destruct watched as [[fallback raw] waiting].
  apply keeps_bind; [apply keeps_get|]. intros s1. apply keeps_bind; [apply encode_files|]. intros t. apply keeps_lift_bind. intros algorithm _.
  apply keeps_bind; [apply choose_files|]. intros res. apply keeps_bind; [apply route_files|]. intros resp. repeat keeps_step.
Qed.

Lemma handle_files q s : files_kept s (handle q s).2.
Proof.
  pose proof (files_kept_refl s) as Hr. unfold handle_infer. rewrite bind_get. destruct (negb _); [done|]. destruct (_ && _); [done|].
  destruct (message_of _) as [message|]; [|done]. apply keeps_catch; [|intros e; unfold answer_error; case_decide; [apply keeps_raise|apply keeps_ret]|done].
  unfold infer_message. apply keeps_bind; [apply on_registry_files|]. intros log_message. apply keeps_lift_bind. intros [row pods] _.
  apply keeps_bind; [apply watch_files|]. intros watched. apply keeps_bind; [apply normalize_files|].
  intros [row'|]; [apply answer_row_files|apply keeps_ret].
Qed.

(** Without a trainer no step changes them. *)
Lemma untrained_step s s' : MODEL_TYPE cfg ≠ "latency_predictor" → trainer_of (ROUTING_STRATEGY cfg) = NoTrainer → step s s' → files_kept s s'.
Proof.
  intros Hm Ht. pose proof (files_kept_refl s) as Hr. destruct 1 as [s q|s|s norm2 td items d stats c baseline fresh other].
  - apply handle_files.
  - unfold zoom, finish_reload. rewrite bind_get. destruct (reload (agent s)) as [j|]; [|done]. unfold bind, modify. by destruct (reload_body _ _ _).
  - unfold end_round. rewrite (proj2 (String.eqb_neq _ _) Hm). destruct (py_contains _ _); [|done]. rewrite round_prepared, Ht. simpl. unfold prepared.
    destruct (copy_metadata_cases fresh (set_norm_caches c (set_stats (Some stats) s))) as [->|[Hb [m ->]]]; [done|].
    split_and!; [done..|]. right. split; [done|by exists m].
Qed.

Lemma start_untrained fs s : starts fs s → NUM_TRAINS s = 0.
Proof.
  intros (ips & gpus & stats & monitor & detector & groups & batch & ->). unfold initialize. rewrite bind_modify. unfold bind at 1, on_registry, zoom. simpl.
  destruct (register_pod_ips _ _ _ _ _) as [[m| |] r]; [|done..]. unfold bind at 1, zoom. simpl. by destruct (preload_model _ _ _) as [[b| |] a].
Qed.

End invariant.

(** ** Lemmas: the row of a request *)

Section rows.
Context (json_loads : string → option (value Q)) (float_of_string : string → option Q) (np_exp : Q → Q) (nan : Q).
Context (hp : option (Preprocess.hyper (F:=Q))) (sent : dict (value Q)) (pods : list string).
Context (Hsent : sent_row float_of_string sent pods) (Hpods : NoDup pods).
Context (Hgpus : ∀ d p s, assoc "GPU" sent = Some (VDict d) → assoc p d = Some (VStr s) → known_gpu s = true).

(** The row after the conversion of its numbers *)
Abbreviation row := (numbered float_of_string nan sent).

Let Hrow : row_with number row pods := numbered_plain float_of_string nan sent pods Hsent.

Abbreviation groups := (all_groups float_of_string np_exp nan hp row).

Definition fast_row : dict (value Q) := assoc_update (Preprocess.base_features row) (block groups pods).

Lemma fast_row_eq : preprocess_inference_fast json_loads float_of_string np_exp nan sent hp pods = Ret fast_row.
Proof.
  rewrite (fast_path_eq json_loads float_of_string np_exp nan sent pods hp Hsent Hpods). f_equal. unfold fast_row.
  rewrite <-(list_fmap_id (assoc_update _ _)) at 2. apply list_fmap_ext. intros i [k v] _. simpl. by destruct v.
Qed.

Lemma fast_row_lookup k : assoc k fast_row = match assoc k (block groups pods) with Some v => Some v | None => assoc k (Preprocess.base_features row) end.
Proof. apply assoc_update_lookup, block_NoDup; [done|apply groups_NoDup|apply groups_no_dash]. Qed.

Lemma fast_row_keys k : k ∈ fast_row.*1 ↔ is_Some (assoc k fast_row).
Proof.
  split; [by intros [v H]%assoc_Some; eexists|]. intros [v H%assoc_elem]. apply list_elem_of_fmap. by exists (k, v).
Qed.

Lemma base_not_pod k : is_pod_column k = true → assoc k (Preprocess.base_features row) = None.
Proof.
  intros Hk. apply assoc_None. intros Hin. assert (Forall (λ k, is_pod_column k = false) (Preprocess.base_features row).*1) as H by repeat constructor.
  rewrite Forall_forall in H. by rewrite (H k Hin) in Hk.
Qed.

(** The columns of pods are those of the features. *)
Lemma fast_row_pod col :
  col ∈ fast_row.*1 → is_pod_column col = true → ∃ g pod, g ∈ groups ∧ pod ∈ pods ∧ col = pod_key pod g.1 ∧ assoc col fast_row = Some (g.2 pod).
Proof.
  intros [v Hv]%fast_row_keys Hp. rewrite fast_row_lookup in *. rewrite (base_not_pod col Hp) in *.
  destruct (assoc col (block groups pods)) as [w|] eqn:E; [|done]. apply assoc_elem, block_elem in E as (g & pod & Hg & Hpod & Hk & Hw).
  exists g, pod. by rewrite Hw.
Qed.

Definition numeric_names : list string := feature_configs.*1 ++ ["kv_hit_ratio_fresh"].

(** The GPU of a pod is a known model, the other features are numbers. *)
Lemma group_value g pod :
  g ∈ groups → (g.1 = "GPU" ∧ ∃ s, g.2 pod = VStr s ∧ known_gpu s = true) ∨ (g.1 ∈ numeric_names ∧ ∃ x, g.2 pod = VFloat x).
Proof.
  unfold all_groups. rewrite !elem_of_app. intros [Hg|[Hg|Hg]].
  - right. unfold feature_groups in Hg. apply elem_of_concat_map in Hg as (fc & Hfc & Hg). unfold feature_group in Hg.
    destruct (excluded hp fc.1); [by apply not_elem_of_nil in Hg|]. apply list_elem_of_singleton in Hg as ->. split; [|by eexists].
    apply elem_of_app. left. apply list_elem_of_fmap. by exists fc.
  - right. unfold fresh_group in Hg. destruct (_ || _); [by apply not_elem_of_nil in Hg|]. apply list_elem_of_singleton in Hg as ->.
    split; [by_decision|by eexists].
  - left. unfold gpu_group in Hg. destruct (excluded hp "GPU"); [by apply not_elem_of_nil in Hg|]. apply list_elem_of_singleton in Hg as ->.
    split; [done|]. cbn [snd]. unfold map_of, dget at 2. destruct (assoc "GPU" row) as [v|] eqn:Ev; [|by eexists].
    destruct (gr_maps _ _ _ Hrow "GPU" v) as [d ->]; [by_decision|done|]. simpl. unfold dget. destruct (assoc pod d) as [w|] eqn:Ew; [|by eexists].
    destruct (gr_gpus _ _ _ Hrow d pod w Ev Ew) as [s ->]. exists s. split; [done|]. rewrite numbered_lookup, decide_False, option_fmap_id in Ev by by_decision. by eapply Hgpus.
Qed.

Definition numeric_columns_of_row : list string :=
  ["input_tokens"; "output_tokens"; "total_tokens"; "ttft"; "avg_tpot"; "e2e_latency"; "request_start_time"; "request_end_time"].

Lemma fast_row_base k : k ∈ (Preprocess.base_features row).*1 → assoc k fast_row = assoc k (Preprocess.base_features row).
Proof.
  intros Hk. rewrite fast_row_lookup, block_no_dash; [done|].
  assert (Forall (λ k, no_dash k = true) (Preprocess.base_features row).*1) as H by repeat constructor. rewrite Forall_forall in H. by apply H.
Qed.

Lemma fast_row_number k : k ∈ numeric_columns_of_row → ∃ v, assoc k fast_row = Some v ∧ number v.
Proof.
  intros Hk. assert (∀ c, c ∈ numeric_columns → number (dget row c (VInt 0))) as Hn.
  { intros c Hc. unfold dget. destruct (assoc c row) as [v|] eqn:E; [|done]. by apply (gr_numeric _ _ _ Hrow c). }
  assert (Forall (λ k, k ∈ (Preprocess.base_features row).*1) numeric_columns_of_row) as Hb by by_decision. rewrite Forall_forall in Hb.
  rewrite fast_row_base by auto. clear Hb.
  unfold numeric_columns_of_row in Hk. repeat (apply elem_of_cons in Hk as [->|Hk]; [eexists; split; [reflexivity|]; apply Hn; by_decision|]).
  by apply not_elem_of_nil in Hk.
Qed.

(** ** Lemmas: the normalized row *)

Context (Hids : Forall pod_id_ok pods).

Lemma feature_type_key pod f : pod_id_ok pod → pod_feature_type_of (pod_key pod f) = Some f.
Proof.
  intros [Hp Hd]. unfold pod_feature_type_of. pose proof (pod_column_key pod f (conj Hp Hd)) as Hk. unfold is_pod_column in Hk. rewrite Hk. clear Hp Hk. unfold pod_key.
  induction pod as [|c pod IH]; [done|]. cbn [no_dash] in Hd. apply andb_true_iff in Hd as [Hc Hd]. rewrite append_cons. cbn [after_dash].
  apply negb_true_iff in Hc. change (Ascii.ascii_of_nat 45) with "-"%char. rewrite Hc. by apply IH.
Qed.

Lemma contains_gpu pod : py_contains "GPU" (pod_key pod "GPU") = true.
Proof.
  unfold py_contains. assert (∃ n, String.index 0 "GPU" (pod_key pod "GPU") = Some n) as [n ->]; [|done].
  unfold pod_key. induction pod as [|c pod [n IH]]; [by eexists|]. rewrite append_cons. cbn [String.index]. destruct (String.prefix _ _); [by eexists|].
  rewrite IH. by eexists.
Qed.

(** The types that are normalized are numeric features, and so are all their columns. *)
Lemma type_numeric nn t : t ∈ types_of nn fast_row.*1 → t ∈ numeric_names.
Proof.
  intros (col & Hcol & Ht)%elem_of_types_of. unfold FeatureNorm.pod_column in Ht. destruct (_ && _ && _) eqn:Hc; [|done].
  apply andb_true_iff in Hc as [[Hp _]%andb_true_iff Hgpu]. destruct (fast_row_pod col Hcol Hp) as (g & pod & Hg & Hpod & -> & _).
  rewrite Forall_forall in Hids. rewrite feature_type_key in Ht by auto. destruct (_ && _); [|done]. injection Ht as <-.
  destruct (group_value g pod Hg) as [[E _]|[H _]]; [|done]. by rewrite E, contains_gpu in Hgpu.
Qed.

Lemma pod_column_real t c : t ∈ numeric_names → c ∈ matching_of fast_row.*1 t → real_column fast_row c.
Proof.
  intros Ht [Hc Hcol]%elem_of_matching. assert (is_pod_column c = true) as Hp.
  { unfold pod_feature_type_of in Hc. unfold is_pod_column. by destruct (String.prefix "pod_" c). }
  destruct (fast_row_pod c Hcol Hp) as (g & pod & Hg & Hpod & -> & E). rewrite Forall_forall in Hids. rewrite feature_type_key in Hc by auto.
  injection Hc as <-. destruct (group_value g pod Hg) as [[Eg _]|[_ [x Hx]]].
  - exfalso. rewrite Eg in Ht. assert ("GPU" ∉ numeric_names) as Hn by by_decision. by apply Hn.
  - exists (g.2 pod). rewrite Hx. split; [by rewrite <-Hx|by eexists].
Qed.

Lemma number_real v : number v → is_Some (real_of (F:=Q) v).
Proof. destruct v; simpl; try done; by eexists. Qed.

Lemma base_real f : f ∈ FeatureNorm.base_features → real_column fast_row f.
Proof.
  intros Hf. destruct (fast_row_number f) as (v & E & Hv); [|exists v; split; [done|by apply number_real]].
  revert f Hf. apply Forall_forall. by_decision.
Qed.

(** ** Lemmas: the row as a frame *)

Context (nan_to_num : Q → Q) (Hnn : ∀ x, nan_to_num x = x) (req : list string) (ehp : enc_hyper).
Context (Hreq : ∀ f, f ∈ req → f ∈ numeric_columns_of_row) (Hne : pods ≠ []) (Hkv : excluded hp "kv_hit_ratio" = false).
Context (Hekv : "kv_hit_ratio" ∉ enc_excluded ehp) (Hinc : is_Some (enc_include_gpu ehp)).
Context (Hleft : pod_numeric (config_of (enc_excluded ehp) 0) ≠ [] ∨ enc_include_gpu ehp = Some true).
Context (Hgpu_ids : ∀ pod, pod ∈ pods → ∃ z, assoc pod (enc_pod_gpu_ids ehp) = Some z ∧ 0 ≤ z < Z.of_nat (length GPU_MODEL_TO_ENCODE)).

Lemma kept_number nrow col v' :
  kept fast_row nrow → assoc col nrow = Some v' → (∀ v, assoc col fast_row = Some v → number v) → finite_number nan_to_num v'.
Proof.
  intros [_ Hv] E Hn. destruct (Hv col v' E) as (v & Ev & [->|[_ [x ->]]]); [|by split].
  specialize (Hn v Ev). destruct v; try done; by split.
Qed.

Lemma kept_string nrow col s : kept fast_row nrow → assoc col fast_row = Some (VStr s) → assoc col nrow = Some (VStr s).
Proof.
  intros [Hk Hv] E. destruct (assoc_Some col nrow) as [v' E']; [rewrite Hk; apply fast_row_keys; by eexists|]. rewrite E'.
  destruct (Hv col v' E') as (v & Ev & [->|[Hr _]]); rewrite E in Ev; [done|]. injection Ev as <-. by destruct Hr.
Qed.

Definition doubled (nrow : dict (value Q)) : dict (list (value Q)) := dict_map (λ v, [v; v]) nrow.

Lemma doubled_row nrow : row_at 0 (doubled nrow) = nrow.
Proof.
  unfold row_at, doubled, dict_map. rewrite <-list_fmap_compose. rewrite <-(list_fmap_id nrow) at 2. apply list_fmap_ext. by intros i [k v] _.
Qed.

Lemma doubled_lookup nrow col vs : assoc col (doubled nrow) = Some vs → ∃ v, assoc col nrow = Some v ∧ vs = [v; v].
Proof. unfold doubled. rewrite assoc_dict_map. destruct (assoc col nrow) as [v|]; [|done]. intros [= <-]. by exists v. Qed.

(** The feature of a pod column, whatever became of its value *)
Lemma kept_pod nrow col pod f :
  kept fast_row nrow → col ∈ nrow.*1 → is_pod_column col = true → split_dash col = Some (pod, f) →
  pod ∈ pods ∧ ∃ g, g ∈ groups ∧ g.1 = f ∧ assoc col fast_row = Some (g.2 pod).
Proof.
  intros [Hk _] Hcol Hp Hs. rewrite Hk in Hcol. destruct (fast_row_pod col Hcol Hp) as (g & pod' & Hg & Hpod & -> & E).
  rewrite Forall_forall in Hids. rewrite (split_dash_key _ _ (proj2 (Hids pod' Hpod))) in Hs. injection Hs as <- <-. eauto.
Qed.

Lemma list_choice_ne {A} (l : list A) : l ≠ [] → ∃ x, x ∈ l.
Proof. destruct l as [|x l]; [done|]. intros _. exists x. left. Qed.

Lemma hit_column nrow : kept fast_row nrow → ∃ col pod f, col ∈ nrow.*1 ∧ is_pod_column col = true ∧ split_dash col = Some (pod, f).
Proof.
  intros [Hk _]. destruct (list_choice_ne pods Hne) as [pod Hin]. rewrite Forall_forall in Hids. exists (pod_key pod "kv_hit_ratio"), pod, "kv_hit_ratio". split_and!.
  - rewrite Hk. apply fast_row_keys. rewrite fast_row_lookup.
    assert (("kv_hit_ratio", Preprocess.fast_feature float_of_string (map_of row "allPodsKvCacheHitRatios")) ∈ groups) as Hg
      by (apply elem_of_app; left; by apply hits_in_features).
    pose proof (block_lookup groups pods _ pod Hpods (groups_NoDup _ _ _ hp row) (groups_no_dash _ _ _ hp row) Hg Hin) as E. cbn [fst] in E.
    rewrite E. by eexists.
  - by apply pod_column_key, Hids.
  - by apply split_dash_key, Hids.
Qed.

(** Two copies of the normalized row are a frame the encoder can encode. *)
Lemma row_training_frame nrow : kept fast_row nrow → training_frame nan_to_num 2 (doubled nrow) pods req ehp.
Proof.
  intros Hk. assert (∀ col vs, assoc col (doubled nrow) = Some vs → col ∈ nrow.*1) as Hkey.
  { intros col vs (v & E & _)%doubled_lookup. apply assoc_elem in E. apply list_elem_of_fmap. by exists (col, v). }
  assert ((doubled nrow).*1 = nrow.*1) as Hkeys by apply dict_map_keys. split; try done.
  - intros col vs (v & _ & ->)%doubled_lookup. done.
  - intros col pod f Hcol Hp Hs. rewrite Hkeys in Hcol. by destruct (kept_pod nrow col pod f Hk Hcol Hp Hs).
  - rewrite Hkeys. by apply hit_column.
  - intros col vs pod f Hcol Hp Hs Hf. destruct (kept_pod nrow col pod f Hk (Hkey _ _ Hcol) Hp Hs) as (Hpod & g & Hg & <- & E).
    apply doubled_lookup in Hcol as (v & Ev & ->). assert (finite_number nan_to_num v) as Hv; [|by repeat constructor].
    apply (kept_number nrow col); [done..|]. intros w. rewrite E. intros [= <-].
    destruct (group_value g pod Hg) as [[Eg _]|[_ [x ->]]]; [|done]. exfalso. rewrite Eg in Hf.
    assert ("GPU" ∉ base_features_list) as Hn by by_decision. by apply Hn.
  - intros col vs pod Hcol Hp Hs. destruct (kept_pod nrow col pod "GPU" Hk (Hkey _ _ Hcol) Hp Hs) as (Hpod & g & Hg & Eg & E).
    apply doubled_lookup in Hcol as (v & Ev & ->). destruct (group_value g pod Hg) as [[_ (s & Es & Hs')]|[Hn _]].
    + exists s. rewrite Es in E. rewrite (kept_string nrow col s Hk E) in Ev. injection Ev as <-. done.
    + exfalso. rewrite Eg in Hn. assert ("GPU" ∉ numeric_names) as Hn' by by_decision. by apply Hn'.
  - intros col Hcol vs Hvs. pose proof (Hkey _ _ Hvs) as Hin. apply doubled_lookup in Hvs as (v & Ev & ->).
    assert (finite_number nan_to_num v) as Hv; [|by repeat constructor]. apply (kept_number nrow col); [done..|]. intros w Hw.
    assert (col ∈ numeric_columns_of_row) as Hnum; [|destruct (fast_row_number col Hnum) as (w' & Ew & Hw'); congruence].
    apply elem_of_cons in Hcol as [->|[Hcol|Hcol]%elem_of_app]; [|by apply Hreq|].
    + rewrite fast_row_lookup, block_no_dash in Hw by done. by vm_compute in Hw.
    + unfold target_columns in Hcol. repeat (apply elem_of_cons in Hcol as [->|Hcol];
        [first [by_decision | exfalso; rewrite fast_row_lookup, block_no_dash in Hw by done; by vm_compute in Hw]|]). by apply not_elem_of_nil in Hcol.
  - intros f Hf. rewrite Hkeys, (proj1 Hk). apply fast_row_keys. destruct (fast_row_number f (Hreq f Hf)) as (v & E & _). by eexists.
Qed.

End rows.

(** ** Lemmas: a pod of the registry *)

Lemma pod_name_id_ok i : (i < 1000)%nat → pod_id_ok (pod_name i).
Proof.
  intros Hi. assert (forallb (λ i, is_pod_column (pod_name i) && no_dash (pod_name i)) (seq 0 1000) = true) as H by (vm_compute; reflexivity).
  rewrite forallb_forall in H. assert (In i (seq 0 1000)) as Hin by (apply in_seq; lia). by apply andb_true_iff, H.
Qed.

Lemma gpu_code_in_range s z : assoc s GPU_MODEL_TO_ENCODE = Some z → 0 ≤ z < Z.of_nat (length GPU_MODEL_TO_ENCODE).
Proof.
  intros H%assoc_elem. assert (Forall (λ e : string * Z, 0 ≤ e.2 < Z.of_nat (length GPU_MODEL_TO_ENCODE)) GPU_MODEL_TO_ENCODE) as Hall
    by (repeat constructor; simpl; lia). rewrite Forall_forall in Hall. by apply (Hall _ H).
Qed.

(** Its id can be told apart from a feature, and it has an address and a GPU. *)
Lemma registered_pod r p ex inc :
  registry_inv r → (length (pod_ip_to_generalpodid r) < 1000)%nat → p ∈ (pod_ip_to_generalpodid r).*2 →
  pod_id_ok p ∧ (∃ ip, assoc ip (pod_ip_to_generalpodid r) = Some p ∧ addresses r !! p = Some ip) ∧
  ∃ z, assoc p (enc_pod_gpu_ids (hyper_of r ex inc)) = Some z ∧ 0 ≤ z < Z.of_nat (length GPU_MODEL_TO_ENCODE).
Proof.
  intros [(Hnd & Hids & Hlen & Hgk & Hgv) Hcur] Hlt Hp. specialize (Hcur Hlt). unfold current in Hcur.
  split; [rewrite Hids in Hp; apply list_elem_of_fmap in Hp as (i & -> & Hi%elem_of_seq); apply pod_name_id_ok; lia|].
  apply list_elem_of_fmap in Hp as ([ip p'] & -> & Hip). apply assoc_elem_of in Hip; [|done]. simpl.
  unfold addresses, hyper_of. destruct (PodRegistry.hyperparameters r) as [v|]; [|by rewrite Hcur in Hip].
  destruct Hcur as (_ & _ & Hinv & _ & _ & Hgpu & _). split.
  - exists ip. split; [done|]. rewrite list_to_map_assoc. by apply Hinv.
  - destruct (assoc_Some ip (pod_ip_to_gpu_model r)) as [gm Hgm].
    { rewrite Hgk. apply assoc_elem in Hip. apply list_elem_of_fmap. by exists (ip, p'). }
    destruct (Hgpu ip p' gm Hip Hgm) as (_ & _ & _ & E). simpl. rewrite E.
    rewrite Forall_forall in Hgv. pose proof (Hgv _ (assoc_elem _ _ _ Hgm)) as Hk. unfold known_gpu in Hk. cbn [snd] in Hk.
    destruct (assoc gm GPU_MODEL_TO_ENCODE) as [z|] eqn:Ez; [|done]. exists z. split; [done|by eapply gpu_code_in_range].
Qed.

(** ** A message that can be routed *)

Section answered.
Context {T : Torch} {TL : TorchLaws T} {NP : Numpy Q} {SQ : Sqrt Q}.
Context (json_loads : string → option (value Q)) (json_gpus : string → option (dict string)) (float_of_string : string → option Q).
Context (repr : value Q → string) (np_exp f32 nan_to_num : Q → Q) (nan : Q) (tuple_hash : Z → Z → Z) (env_metadata : bool).
Context (cfg : handler_config).

Abbreviation handle := (handle_infer json_loads json_gpus float_of_string repr np_exp f32 nan_to_num nan tuple_hash env_metadata cfg).
Abbreviation parsed := (parse_log_to_dict json_loads float_of_string).

(** The widths of the contexts with these settings *)
Definition context_dims (include : bool) : state_dims :=
  mkDims (length (pod_numeric (config_of (sorted_set (excluded_of cfg)) (gpu_types_of include))) + gpu_types_of include) 1
    (length (request_features_train cfg)).

(** The service is ready: it was initialized, the hit ratio is used and something else, the
    features of requests are numbers of the row, every numeric feature has statistics, the
    exploration is a known one, and the model in the directory has the widths of the settings. *)
Record ready (s : server) (include : bool) (fs : FeatureStats Q) : Prop := {
  rd_init : INIT_DONE s = true;
  rd_preloaded : ROUTING_STRATEGY cfg = "lodestar" → LODESTAR_PRELOADED s = true;
  rd_include : INCLUDE_GPU_FEATURES cfg = Some include;
  rd_hits : "kv_hit_ratio" ∉ excluded_of cfg;
  rd_left : pod_numeric (config_of (excluded_of cfg) 0) ≠ [] ∨ include = true;
  rd_requests f : f ∈ request_features_train cfg → f ∈ numeric_columns_of_row;
  rd_stats : stats_instance s = Some fs;
  rd_count : get_max_count fs ≠ 0;
  rd_features f : f ∈ FeatureNorm.base_features ++ numeric_names → has_stats fs f;
  rd_method : method (agent_hyper cfg) ∈ known_methods;
  rd_model : fits (agent_hyper cfg) (context_dims include) (model_dir (agent s))
}.

(** The message is one of the gateway: with its addresses replaced, it names one of the
    algorithms, and its row is as the gateway writes it, for pods of the registry with known
    GPUs; the draws it meets are draws. *)
Record routable (s : server) (q : http_request) (message : string) (r : registry) (pods : list pod_id) : Prop := {
  rt_body : ∃ text, message_of (http_body q) = Some text ∧
    replace_in_message json_gpus (TARGET_GPU_MODEL cfg) text (pods_registry s) = (Ret message, r);
  rt_room : (length (pod_ip_to_generalpodid r) < 1000)%nat;
  rt_row : sent_row float_of_string (parsed message) pods;
  rt_pods : single_row_pods (parsed message) = Ret pods;
  rt_known p : p ∈ pods → p ∈ (pod_ip_to_generalpodid r).*2;
  rt_gpus d p g : assoc "GPU" (parsed message) = Some (VDict d) → assoc p d = Some (VStr g) → known_gpu g = true;
  rt_algorithm : ∃ name, assoc "subAlgorithm" (parsed message) = Some (VStr name) ∧ name ∈ lodestar_algorithms;
  rt_draws : draws_ok (length pods) (http_draws q);
  rt_choice l : l ≠ [] → http_choice q l ∈ l
}.

Lemma excluded_hits : "kv_hit_ratio" ∉ excluded_of cfg → excluded (Some (preprocessing cfg)) "kv_hit_ratio" = false.
Proof.
  intros H. unfold excluded, excluded_features, excluded_of in *. apply bool_decide_eq_false_2.
  destruct (preprocessing cfg) as [[ex|] hl]; [|apply not_elem_of_nil]. simpl in *. destruct (_ || _); [apply not_elem_of_nil|done].
Qed.

Lemma single_row_pods_ok (row : dict (value Q)) pods : single_row_pods row = Ret pods → NoDup pods ∧ pods ≠ [].
Proof.
  unfold single_row_pods. destruct (omapM _ _) as [ks| |]; [|done..]. cbn [obind].
  assert (NoDup (sorted_set (concat ks))) as Hnd by (unfold sorted_set; rewrite merge_sort_Permutation; apply NoDup_remove_dups).
  destruct (sorted_set (concat ks)) as [|p ps]; [done|]. by intros [= <-].
Qed.

Section message.
Context (s : server) (q : http_request) (message : string) (r : registry) (pods : list pod_id) (include : bool) (fs : FeatureStats Q).
Context (Hs : server_ok cfg s) (Hready : ready s include fs) (Hmsg : routable s q message r pods) (Hnn : ∀ x, nan_to_num x = x).

Abbreviation hp := (Some (preprocessing cfg)).
Abbreviation first_row := (fast_row float_of_string np_exp nan hp (parsed message) pods).

Lemma pods_ok : NoDup pods ∧ pods ≠ [].
Proof. eapply single_row_pods_ok, (rt_pods _ _ _ _ _ Hmsg). Qed.

Lemma registry_ok : registry_inv r ∧ extends (pods_registry s) r.
Proof.
  destruct (rt_body _ _ _ _ _ Hmsg) as (text & _ & E). pose proof (replace_registry json_gpus (TARGET_GPU_MODEL cfg) text (pods_registry s) (proj1 (ok_serving _ _ Hs))) as H.
  by rewrite E in H.
Qed.

Lemma pod_registered p ex inc : p ∈ pods →
  pod_id_ok p ∧ (∃ ip, assoc ip (pod_ip_to_generalpodid r) = Some p ∧ addresses r !! p = Some ip) ∧
  ∃ z, assoc p (enc_pod_gpu_ids (hyper_of r ex inc)) = Some z ∧ 0 ≤ z < Z.of_nat (length GPU_MODEL_TO_ENCODE).
Proof. intros Hp. apply registered_pod; [apply registry_ok|apply (rt_room _ _ _ _ _ Hmsg)|by apply (rt_known _ _ _ _ _ Hmsg)]. Qed.

Lemma message_preprocessed : main_inference json_loads float_of_string np_exp nan message hp = Ret (first_row, pods).
Proof.
  unfold main_inference. destruct (String.eqb_spec message EmptyString) as [E|_].
  { destruct (rt_algorithm _ _ _ _ _ Hmsg) as (name & Hv & _). by rewrite E in Hv. }
  destruct (parsed message) as [|e l] eqn:E.
  { destruct (rt_algorithm _ _ _ _ _ Hmsg) as (name & Hv & _). by rewrite E in Hv. }
  rewrite <-E. rewrite (rt_pods _ _ _ _ _ Hmsg). cbn [obind].
  rewrite (fast_row_eq json_loads float_of_string np_exp nan hp _ pods (rt_row _ _ _ _ _ Hmsg) (proj1 pods_ok)). done.
Qed.

Lemma ids_ok : Forall pod_id_ok pods.
Proof. apply Forall_forall. intros p Hp. by apply (pod_registered p [] None). Qed.

Lemma first_row_NoDup : NoDup first_row.*1.
Proof. eapply main_inference_NoDup, message_preprocessed. Qed.

(** The row is normalized, whatever the caches hold. *)
Lemma request_normalized s1 :
  stats_instance s1 = Some fs → FeatureNorm.caches_ok (norm_caches s1) →
  ∃ nrow c', normalize_request cfg first_row s1 = (Ret (Some nrow), set_norm_caches c' s1) ∧ kept first_row nrow ∧ FeatureNorm.caches_ok c'.
Proof.
  intros Hst Hc. unfold normalize_request. rewrite bind_get, Hst. rewrite (proj2 (Z.eqb_neq _ _) (rd_count _ _ _ Hready)).
  destruct (normalizable_ok first_row.*1 (NO_NORMALIZE_FEATURES cfg) (norm_caches s1) Hc first_row_NoDup) as ([[features others] types] & c1 & E & Hc1 & Hf & _ & Ht).
  unfold bind at 1, on_norm_caches, zoom. rewrite E. unfold normalizable_of in Hf, Ht. cbn [fst snd] in Hf, Ht.
  assert (∀ t, t ∈ types → t ∈ numeric_names) as Htypes.
  { intros t. rewrite Ht. apply (type_numeric float_of_string np_exp nan hp (parsed message) pods (rt_row _ _ _ _ _ Hmsg) (proj1 pods_ok) (rt_gpus _ _ _ _ _ Hmsg) ids_ok). }
  assert (∀ f, f ∈ features → f ∉ types → f ∈ FeatureNorm.base_features) as Hfeat.
  { intros f Hin Hnt. rewrite Hf, elem_of_app in Hin. destruct Hin as [|Hin]; [done|]. unfold py_sorted in Hin. rewrite merge_sort_Permutation, <-Ht in Hin. done. }
  assert (∀ t, t ∈ types → has_stats fs t) as Hst' by (intros t Hin; apply (rd_features _ _ _ Hready), elem_of_app; right; by apply Htypes).
  assert (∀ f, f ∈ features → f ∉ types → has_stats fs f) as Hsf by (intros f Hin Hnt; apply (rd_features _ _ _ Hready), elem_of_app; left; by apply Hfeat).
  assert (∀ f, has_stats fs f → match assoc f (FeatureNorm.feature_stats fs) with Some _ => true | None => false end = true) as Hknown
    by (by intros f (rs & m & d & -> & _)).
  rewrite (proj2 (forallb_forall _ _)) by (intros t Hin%list_elem_of_In; by apply Hknown, Hst').
  rewrite (proj2 (forallb_forall _ _)) by (intros f Hin%list_elem_of_In; case_bool_decide; [done|]; by apply Hknown, Hsf). cbn [andb].
  destruct (normalize_row_returns first_row first_row_NoDup fs features types (mkRowState c1 first_row)) as (st' & En & Hk & Hc').
  - done.
  - done.
  - intros t c Hin. apply (pod_column_real float_of_string np_exp nan hp (parsed message) pods (rt_row _ _ _ _ _ Hmsg) (proj1 pods_ok) (rt_gpus _ _ _ _ _ Hmsg) ids_ok), Htypes, Hin.
  - intros f Hin Hnt _. by apply (base_real float_of_string np_exp nan hp (parsed message) pods (rt_row _ _ _ _ _ Hmsg) (proj1 pods_ok)), Hfeat.
  - split; [apply kept_refl|done].
  - unfold normalized. unfold bind at 1. rewrite bind_get. simpl. rewrite En, bind_modify, bind_lift. by eexists _, _.
Qed.

(** The numbers of the row are still numbers. *)
Lemma kept_real_value nrow c v' :
  kept first_row nrow → assoc c nrow = Some v' → (∀ v, assoc c first_row = Some v → is_Some (real_of v)) → is_Some (real_of v').
Proof. intros [_ Hv] E Hr. destruct (Hv c v' E) as (v & Ev & [->|[_ [x ->]]]); [by apply Hr|by eexists]. Qed.

Lemma format_real (v : value Q) : is_Some (real_of v) → format_float v = Ret tt.
Proof. intros [x Hx]. by destruct v. Qed.

Lemma shown_column nrow p f v :
  kept first_row nrow → p ∈ pods → f ∈ numeric_names → assoc (col_of p f) nrow = Some v → is_Some (real_of v).
Proof.
  intros Hk Hp Hf E. pose proof ids_ok as Hids. rewrite Forall_forall in Hids. apply (kept_real_value nrow (col_of p f)); [done..|]. intros w Hw.
  destruct (pod_column_real float_of_string np_exp nan hp (parsed message) pods (rt_row _ _ _ _ _ Hmsg) (proj1 pods_ok) (rt_gpus _ _ _ _ _ Hmsg) ids_ok f (pod_key p f))
    as (v0 & E0 & Hv0); [done| |change (pod_key p f) with (col_of p f) in E0; congruence].
  apply elem_of_matching. split; [by apply feature_type_key, Hids|]. apply assoc_elem in Hw. apply list_elem_of_fmap. by exists (col_of p f, w).
Qed.

Lemma checkpoint_passes nrow : is_Some (py_int (request_id_of message)) → kept first_row nrow → checkpoint cfg (request_id_of message) nrow pods = Ret tt.
Proof.
  intros [n Hid] Hk. unfold checkpoint. rewrite Hid. destruct (n mod 100 =? 0); [|done].
  rewrite (omapM_Ret _ (λ _, tt)).
  2: { apply Forall_forall. intros c Hc. destruct (base_real float_of_string np_exp nan hp (parsed message) pods (rt_row _ _ _ _ _ Hmsg) (proj1 pods_ok) c) as (v & E & Hv).
       { revert c Hc. apply Forall_forall. by_decision. }
       destruct (kept_real _ _ c v Hk E Hv) as (v' & E' & Hv'). unfold item. rewrite E'. by apply format_real. }
  cbn [obind]. rewrite (omapM_Ret _ (λ _, tt)); [done|]. apply Forall_forall. intros c (p & Hp & Hc)%elem_of_concat_map.
  apply list_elem_of_fmap in Hc as (f & -> & [_ Hf]%elem_of_filter_b). destruct (assoc (col_of p f) nrow) as [v|] eqn:E; [|done].
  apply format_real. assert (Forall (λ f, f ∈ numeric_names) ["kv_hit_ratio"; "inflight_requests"; "prefill_tokens"]) as Hall by by_decision.
  rewrite Forall_forall in Hall. apply (shown_column nrow p f); [done| |by apply Hall|done].
  apply elem_of_take in Hp as (? & Hp & _). by apply list_elem_of_lookup_2 in Hp.
Qed.

Abbreviation enc_of := (hyper_of r (excluded_of cfg) (INCLUDE_GPU_FEATURES cfg)).

(** The row is encoded into tensors of the widths of the settings. *)
Lemma request_encoded nrow e :
  kept first_row nrow → serving_inv (r, e) →
  ∃ t e', encode_for_inference float_of_string repr f32 nan_to_num nan (Row nrow) pods (request_features_train cfg) enc_of e = (Ret t, e') ∧
    serving_inv (r, e') ∧ request_ok (context_dims include) (length pods) (it_pod_features_with_staleness t) (it_kv_hit_ratios t) (it_request_features t).
Proof.
  intros Hk He. destruct (serving_encode float_of_string repr f32 nan_to_num nan r e (Row nrow) pods (request_features_train cfg) (excluded_of cfg) (INCLUDE_GPU_FEATURES cfg) He) as [He' Er].
  specialize (Er (rt_room _ _ _ _ _ Hmsg)).
  assert (training_frame nan_to_num 2 (doubled nrow) pods (request_features_train cfg) enc_of) as Hf.
  { apply (row_training_frame float_of_string np_exp nan hp (parsed message) pods (rt_row _ _ _ _ _ Hmsg) (proj1 pods_ok) (rt_gpus _ _ _ _ _ Hmsg) ids_ok); try done.
    - apply (rd_requests _ _ _ Hready).
    - apply pods_ok.
    - apply excluded_hits, (rd_hits _ _ _ Hready).
    - apply (rd_hits _ _ _ Hready).
    - simpl. rewrite (rd_include _ _ _ Hready). by eexists.
    - simpl. rewrite (rd_include _ _ _ Hready). destruct (rd_left _ _ _ Hready) as [?| ->]; [by left|by right].
    - intros p Hp. by apply pod_registered. }
  destruct (row_tensors float_of_string repr f32 nan_to_num nan 2 (doubled nrow) pods (request_features_train cfg) enc_of Hf include 0)
    as (p & Ep & (x & Ex & Hx & Hxr) & (k & Ek & Hkl & Hkr) & (rf & Erf & Hrf)); [apply (rd_include _ _ _ Hready)|lia|].
  rewrite doubled_row in Ep. rewrite Ep in Er. cbn [obind] in Er.
  destruct (encode_for_inference _ _ _ _ _ _ _ _ _ _) as [o e'] eqn:E. simpl in Er, He'. subst o. exists (tensors_of p), e'. split; [done|]. split; [done|].
  cbn [it_pod_features_with_staleness it_kv_hit_ratios it_request_features tensors_of]. rewrite Ex, Ek, Erf. unfold request_ok.
  assert (0 < length pods)%nat as Hl by (destruct pods_ok as [_ Hne]; destruct pods; [done|simpl; lia]).
  split_and!; [split; [done|]; by repeat constructor..|done].
Qed.

(** What the watching of the raw features leaves alone *)
Definition same_core (s1 s2 : server) : Prop :=
  pods_registry s2 = pods_registry s1 ∧ stats_instance s2 = stats_instance s1 ∧ norm_caches s2 = norm_caches s1 ∧
  inference_encoder s2 = inference_encoder s1 ∧ agent s2 = agent s1 ∧ MODEL_UPDATED s2 = MODEL_UPDATED s1.

Lemma watch_returns row ps m s1 : ∃ v s2, watch float_of_string cfg row ps m s1 = (Ret v, s2) ∧ same_core s1 s2.
Proof.
  unfold watch. rewrite bind_get, bind_modify. destruct (detector_step _ _ _ _ _ _) as [fallback d]. rewrite bind_modify.
  destruct (DYNAMIC_K _); by eexists _, _.
Qed.

(** The agent was asked, with the flag of an updated model, and the flag is cleared. *)
Definition asked (s' : server) : Prop :=
  MODEL_UPDATED s' = false ∧
  ∃ ar, rq_model_updated ar = MODEL_UPDATED s ∧ rq_acquired ar = http_acquired q ∧ current_config ar = (context_dims include, length pods) ∧
    agent s' = (infer_from_tensor env_metadata np_exp (agent_hyper cfg) ar (agent s)).2.

(** The agent chooses one of the pods. *)
Lemma agent_asked t s1 :
  request_ok (context_dims include) (length pods) (it_pod_features_with_staleness t) (it_kv_hit_ratios t) (it_request_features t) →
  agent s1 = agent s → MODEL_UPDATED s1 = MODEL_UPDATED s →
  ∃ res s2, ask_agent np_exp env_metadata cfg t pods q s1 = (Ret res, s2) ∧ pods_registry s2 = pods_registry s1 ∧ asked s2 ∧
    length (predicted_rewards res) = length pods ∧ 0 ≤ selected_pod_index res < py_len pods.
Proof.
  intros Hr Ha Hu. unfold ask_agent. rewrite bind_modify, bind_get. set (s2 := mark_initialized s1). set (ar := agent_request t pods (MODEL_UPDATED s2) q).
  assert ((current_config ar).1 = context_dims include) as Hdims.
  { destruct Hr as ([Hl1 H1] & [Hl2 H2] & [Hl3 H3] & Hn). unfold current_config, ar, agent_request. simpl.
    destruct (it_pod_features_with_staleness t) as [|x xs]; [done|]. destruct (it_kv_hit_ratios t) as [|y ys]; [done|]. destruct (it_request_features t) as [|z zs]; [done|].
    apply Forall_cons in H1 as [[Hx Hx'] _], H2 as [[Hy Hy'] _], H3 as [Hz _]. unfold context_dims in *. simpl in *.
    destruct x as [|x0 x]; [simpl in Hx; lia|]. destruct y as [|y0 y]; [simpl in Hy; lia|]. apply Forall_cons in Hx' as [Hx0 _], Hy' as [Hy0 _].
    unfold RewardService.dim3. simpl. by rewrite Hx0, Hy0, Hz. }
  assert (request_valid ar (length pods)) as Hv by (split_and!; [by rewrite Hdims|done|apply (rt_draws _ _ _ _ _ Hmsg)]).
  destruct (infer_runs env_metadata np_exp (agent_hyper cfg) ar (agent s) (length pods)) as (res & a' & a & E & (Hi & Hlen & _) & _).
  - apply (ok_agent _ _ Hs).
  - done.
  - apply (rd_method _ _ _ Hready).
  - rewrite Hdims. apply (rd_model _ _ _ Hready).
  - unfold bind, zoom. assert (agent s2 = agent s) as -> by done. rewrite E. eexists _, _. split; [done|]. simpl. split_and!; try done; [|lia|unfold py_len; lia].
    split; [done|]. exists ar. split_and!; [done..| |by rewrite E]. rewrite <-(request_pods ar _ Hv), <-Hdims. by destruct (current_config ar).
Qed.

Lemma choice_made t nrow s1 :
  kept first_row nrow →
  request_ok (context_dims include) (length pods) (it_pod_features_with_staleness t) (it_kv_hit_ratios t) (it_request_features t) →
  agent s1 = agent s → MODEL_UPDATED s1 = MODEL_UPDATED s →
  ∃ v res s2, item nrow "subAlgorithm" = Ret v ∧ choose np_exp env_metadata cfg v t pods q s1 = (Ret res, s2) ∧ pods_registry s2 = pods_registry s1 ∧ asked s2 ∧
    length (predicted_rewards res) = length pods ∧ 0 ≤ selected_pod_index res < py_len pods.
Proof.
  intros Hk Hr Ha Hu. destruct (rt_algorithm _ _ _ _ _ Hmsg) as (name & En & Hname). destruct (agent_asked t s1 Hr Ha Hu) as (res & s2 & E & H).
  assert (assoc "subAlgorithm" first_row = Some (VStr name)) as E1.
  { rewrite (fast_row_base float_of_string np_exp nan hp (parsed message) pods (proj1 pods_ok)) by by_decision. rewrite base_lookup_columns.
    change (assoc "subAlgorithm" base_columns) with (Some ("subAlgorithm", VNone (F:=Q))). cbn [fmap option_fmap option_map fst snd].
    rewrite numbered_other by by_decision. unfold dget. by rewrite En. }
  exists (VStr name), res, s2. unfold item. rewrite (kept_string float_of_string np_exp nan hp (parsed message) pods nrow _ _ Hk E1).
  split; [done|]. split; [|done]. unfold choose. rewrite bool_decide_eq_true_2 by done. destruct (String.eqb_spec name "latency_predictor") as [->|]; [|done].
  exfalso. assert ("latency_predictor" ∉ lodestar_algorithms) as Hn by by_decision. by apply Hn.
Qed.

Lemma route_returns fallback raw waiting res s1 :
  pods_registry s1 = r → length (predicted_rewards res) = length pods → 0 ≤ selected_pod_index res < py_len pods →
  ∃ resp s2, route tuple_hash cfg pods q fallback raw waiting res s1 = (Ret resp, s2) ∧ agent s2 = agent s1 ∧ MODEL_UPDATED s2 = MODEL_UPDATED s1 ∧
    selected_pod_generalpodid resp ∈ pods ∧ assoc (selected_pod resp) (pod_ip_to_generalpodid r) = Some (selected_pod_generalpodid resp).
Proof.
  intros Hr Hl Hi. unfold route. rewrite bind_get, Hr.
  destruct (route_request_runs NP tuple_hash (routing_of cfg r) pods (http_choice q) (NUM_TRAINS s1) fallback raw (bool_decide (is_Some waiting)) res (prefix_group_manager s1))
    as (resp & E & Hin & Hip & _); [apply pods_ok|done|done| |apply (rt_choice _ _ _ _ _ Hmsg)|].
  { intros p Hp. destruct (pod_registered p [] None Hp) as (_ & (ip & _ & Ha) & _). simpl. rewrite Ha. by eexists. }
  destruct (route_request _ _ _ _ _ _ _ _ _ _) as [o groups]. simpl in E. subst o. rewrite bind_modify. eexists _, _. do 4 (split; [done|]).
  destruct (pod_registered _ [] None Hin) as (_ & (ip & Hreg & Ha) & _). simpl in Hip. rewrite Ha in Hip. by injection Hip as <-.
Qed.

(** The message reaches its normalized row. *)
Lemma message_row text :
  replace_in_message json_gpus (TARGET_GPU_MODEL cfg) text (pods_registry s) = (Ret message, r) →
  ∃ watched nrow s1, infer_message json_loads json_gpus float_of_string repr np_exp f32 nan_to_num nan tuple_hash env_metadata cfg q text s =
      answer_row float_of_string repr np_exp f32 nan_to_num nan tuple_hash env_metadata cfg q (request_id_of message) pods watched nrow s1 ∧
    kept first_row nrow ∧ pods_registry s1 = r ∧ serving_inv (r, inference_encoder s1) ∧ agent s1 = agent s ∧ MODEL_UPDATED s1 = MODEL_UPDATED s.
Proof.
  intros Er. unfold infer_message. unfold bind at 1, on_registry, zoom at 1. rewrite Er, message_preprocessed, bind_lift.
  destruct (watch_returns first_row pods message (set_registry r s)) as (watched & s1 & Ew & Hreg & Hst & Hc & Henc & Hag & Hup).
  rewrite (bind_Ret _ _ _ _ _ Ew). destruct (request_normalized s1) as (nrow & c' & En & Hk & Hc').
  { by rewrite Hst, <-(rd_stats _ _ _ Hready). } { rewrite Hc. apply (ok_caches _ _ Hs). }
  rewrite (bind_Ret _ _ _ _ _ En). exists watched, nrow, (set_norm_caches c' s1). destruct registry_ok as [Hri Hx].
  split; [done|]. split_and!; try done. simpl. rewrite Henc. apply (serving_grow (pods_registry s)); [apply (ok_serving _ _ Hs)|done..].
Qed.

Lemma row_answered watched nrow s1 :
  is_Some (py_int (request_id_of message)) → kept first_row nrow → pods_registry s1 = r → serving_inv (r, inference_encoder s1) →
  agent s1 = agent s → MODEL_UPDATED s1 = MODEL_UPDATED s →
  ∃ n e resp s', answer_row float_of_string repr np_exp f32 nan_to_num nan tuple_hash env_metadata cfg q (request_id_of message) pods watched nrow s1 =
      (Ret (Answered (request_id_of message) n e resp), s') ∧ asked s' ∧
    selected_pod_generalpodid resp ∈ pods ∧ assoc (selected_pod resp) (pod_ip_to_generalpodid r) = Some (selected_pod_generalpodid resp).
Proof.
  intros Hid Hk Hreg He Hag Hup. unfold answer_row. rewrite checkpoint_passes, bind_lift, bind_get, Hreg by done.
  destruct (request_encoded nrow (inference_encoder s1) Hk He) as (t & e' & Ee & _ & Hok). unfold bind at 1, zoom at 1. rewrite Ee.
  destruct (choice_made t nrow (set_encoder e' s1) Hk Hok Hag Hup) as (v & res & s2 & Ev & Ech & Hr2 & [Has1 Has2] & Hl & Hi).
  rewrite Ev, bind_lift, (bind_Ret _ _ _ _ _ Ech). destruct watched as [[fallback raw] waiting].
  destruct (route_returns fallback raw waiting res s2) as (resp & s3 & Ero & Ea3 & Eu3 & Hresp); [by rewrite Hr2|done|done|].
  rewrite (bind_Ret _ _ _ _ _ Ero). destruct Hid as [n ->]. rewrite bind_lift, bind_get. eexists _, _, resp, _. split; [done|].
  split; [|done]. unfold asked. by rewrite Ea3, Eu3.
Qed.

(** Past the guards the handler runs the body of its [try]. *)
Lemma handle_runs text :
  message_of (http_body q) = Some text →
  handle q s = catch (infer_message json_loads json_gpus float_of_string repr np_exp f32 nan_to_num nan tuple_hash env_metadata cfg q text) answer_error s.
Proof.
  intros Et. unfold handle_infer. rewrite bind_get, (rd_init _ _ _ Hready), Et.
  assert (String.eqb (ROUTING_STRATEGY cfg) "lodestar" && negb (LODESTAR_PRELOADED s) = false) as ->; [|done].
  destruct (String.eqb_spec (ROUTING_STRATEGY cfg) "lodestar") as [Hl|]; [|done]. by rewrite (rd_preloaded _ _ _ Hready Hl).
Qed.

Lemma message_answered :
  is_Some (py_int (request_id_of message)) →
  ∃ n e resp s', handle q s = (Ret (Answered (request_id_of message) n e resp), s') ∧ server_ok cfg s' ∧ asked s' ∧
    selected_pod_generalpodid resp ∈ pods ∧ assoc (selected_pod resp) (pod_ip_to_generalpodid r) = Some (selected_pod_generalpodid resp).
Proof.
  intros Hid. pose proof (handle_infer_keeps json_loads json_gpus float_of_string repr np_exp f32 nan_to_num nan tuple_hash env_metadata cfg q s Hs) as Hkeep.
  destruct (rt_body _ _ _ _ _ Hmsg) as (text & Et & Er). destruct (message_row text Er) as (watched & nrow & s1 & E & Hk & H1 & H2 & H3 & H4).
  destruct (row_answered watched nrow s1 Hid Hk H1 H2 H3 H4) as (n & e & resp & s' & Ea & Hresp).
  rewrite (handle_runs text Et) in *. unfold catch in *. rewrite E, Ea in *. by exists n, e, resp, s'.
Qed.

Lemma unnumbered_refused :
  py_int (request_id_of message) = None → ∃ s', handle q s = (Ret (Refused 500), s') ∧ agent s' = agent s ∧ pods_registry s' = r.
Proof.
  intros Hid. destruct (rt_body _ _ _ _ _ Hmsg) as (text & Et & Er). destruct (message_row text Er) as (watched & nrow & s1 & E & Hk & H1 & H2 & H3 & H4).
  exists s1. split; [|done]. rewrite (handle_runs text Et). unfold catch. rewrite E. unfold answer_row, checkpoint. by rewrite Hid.
Qed.

End message.

(** C3: From the message to the address: after any requests, reloads and training rounds, a
    ready service answers a message of the gateway whose request id is a number with one of the pods
    that the message names and the address that the registry has for it, the addresses of the message
    included, and is in order for the next request, whatever was drawn, whatever the shift monitors,
    the prefix groups and the caches hold. *)
Theorem message_routed s q message r pods include fs :
  reachable json_loads json_gpus float_of_string repr np_exp f32 nan_to_num nan tuple_hash env_metadata cfg s →
  ready s include fs → routable s q message r pods → (∀ x, nan_to_num x = x) → is_Some (py_int (request_id_of message)) →
  ∃ n e resp s', handle q s = (Ret (Answered (request_id_of message) n e resp), s') ∧ server_ok cfg s' ∧ MODEL_UPDATED s' = false ∧
    selected_pod_generalpodid resp ∈ pods ∧ assoc (selected_pod resp) (pod_ip_to_generalpodid r) = Some (selected_pod_generalpodid resp).
Proof.
  intros Hs Hready Hmsg Hnn Hid. apply server_reachable_ok in Hs.
  destruct (message_answered s q message r pods include fs Hs Hready Hmsg Hnn Hid) as (n & e & resp & s' & E & Hok & [Hu _] & Hresp). by exists n, e, resp, s'.
Qed.

(** C27: A message without a request id is not routed: the handler takes the id default for it,
    as it logs, and then reads the id as a number. The message, though it could be routed with any
    number for an id, is answered with the status 500, before the agent is asked; its pods stay
    registered. *)
Theorem unnumbered_message_refused s q message r pods include fs :
  reachable json_loads json_gpus float_of_string repr np_exp f32 nan_to_num nan tuple_hash env_metadata cfg s →
  ready s include fs → routable s q message r pods → after "requestID@" message = None →
  ∃ s', handle q s = (Ret (Refused 500), s') ∧ agent s' = agent s ∧ pods_registry s' = r.
Proof.
  intros Hs Hready Hmsg Hid. apply server_reachable_ok in Hs. apply (unnumbered_refused s q message r pods include fs Hs Hready Hmsg).
  unfold request_id_of. by rewrite Hid.
Qed.

(** C26: A service that found no model at its start never becomes ready, though it logs that
    it is refusing requests until it is: the flag that the handler asks for is only set at the
    start, so every request is refused with the status 503, after any requests, reloads and training
    rounds, in any order. *)
Theorem unready_forever fs s0 s q :
  ROUTING_STRATEGY cfg = "lodestar" → skip_weights (agent_hyper cfg) = false → fs !! file_name "metadata" "" ".pkl" = None →
  starts cfg fs s0 → rtc (step json_loads json_gpus float_of_string repr np_exp f32 nan_to_num nan tuple_hash env_metadata cfg) s0 s →
  handle q s = (Ret (Refused 503), s).
Proof.
  intros Hl Hw Hm H0 Hsteps. apply not_ready_refused; [done|]. apply start_not_ready in H0; [|done..].
  revert s Hsteps. apply rtc_ind_r; [done|]. intros s1 s2 _ Hst Hn. by eapply not_ready_step.
Qed.

(** C25: With the routing strategy lodestar the service never learns, unless its model is the latency
    predictor: no trainer is chosen, so that, whatever is requested, reloaded and collected, no round is
    counted and the files of the model are those of the start. All that a round leaves in the model
    directory is the metadata of its data, copied over that of the pretrained model where this is there. *)
Theorem lodestar_never_trains fs s0 s :
  ROUTING_STRATEGY cfg = "lodestar" → MODEL_TYPE cfg ≠ "latency_predictor" → starts cfg fs s0 →
  rtc (step json_loads json_gpus float_of_string repr np_exp f32 nan_to_num nan tuple_hash env_metadata cfg) s0 s →
  model_dir (agent s) = fs ∧ NUM_TRAINS s = 0 ∧ batch_kept (batch_1 s0) (batch_1 s).
Proof.
  intros Hl Hm H0 Hsteps. rewrite <-(start_dir cfg fs s0 H0) at 1. rewrite <-(start_untrained cfg fs s0 H0). change (files_kept s0 s).
  revert s Hsteps. apply rtc_ind_r; [apply files_kept_refl|]. intros s1 s2 _ Hst H1. apply (files_kept_trans _ s1); [done|].
  apply (untrained_step json_loads json_gpus float_of_string repr np_exp f32 nan_to_num nan tuple_hash env_metadata cfg s1 s2); [done|by rewrite Hl|done].
Qed.

End answered.

(** ** A concrete service

    Two pods, of which the hit ratio, one more feature and the input tokens are used. *)

(** A parser of JSON that knows maps of two pods, with numbers that [float32] does not have, and one of their GPUs *)
Definition demo_json (s : string) : option (value Q) :=
  if String.eqb s "{count pod_0000,pod_0001}" then Some (VDict [("pod_0000", VInt 40); ("pod_0001", VInt 10)])
  else if String.eqb s "{ratio pod_0000,pod_0001}" then
    Some (VDict [("pod_0000", VFloat (9147457006952076 # 1000000000000000000)%Q); ("pod_0001", VFloat (1 # 3)%Q)])
  else if String.eqb s "{time pod_0000,pod_0001}" then Some (VDict [("pod_0000", VInt 16777217); ("pod_0001", VInt 0)])
  else if String.eqb s "{gpu}" then Some (VDict [("pod_0000", VStr "NVIDIA-A30")])
  else None.

(** A message in the format of the gateway, with negative integers where nothing is known yet *)
Definition demo_message (ids : list (string * string)) : string := log_line
  (ids ++ [("request_start_time", "-25051")] ++
   ((λ c, (c, "-9999")) <$> ["request_end_time"; "selectedpod"; "ttft"; "avg_tpot"; "total_decode_time"; "e2e"]) ++
   [("numInputTokens", "2102"); ("numOutputTokens", "1"); ("numTotalTokens", "2103")] ++
   [("allPodsKvCacheHitRatios", "{ratio 10.0.0.1,10.0.0.2}"); ("allPodsKvCacheLastAccess", "{time 10.0.0.1,10.0.0.2}")] ++
   ((λ c, (c, "{count 10.0.0.1,10.0.0.2}")) <$> ["numInflightRequestsAllPods"; "numInflightPrefillRequestsAllPods"; "numInflightDecodeRequestsAllPods"]) ++
   ((λ c, (c, "{ratio 10.0.0.1,10.0.0.2}")) <$> ["vllmGPUKVCacheUsage"; "vllmCPUKVCacheUsage"]) ++
   ((λ c, (c, "{count 10.0.0.1,10.0.0.2}")) <$> ["vllmNumRequestsRunning"; "vllmNumRequestsWaiting"; "vllmNumPreemptions";
                          "numPrefillTokensForAllPods"; "numDecodeTokensForAllPods"]) ++
   [("subAlgorithm", "lodestar"); ("prev_reward", "-7.000000"); ("GPU", "{gpu}")]).

Definition demo_excluded : list string :=
  List.filter (λ f, bool_decide (f ∉ ["kv_hit_ratio"; "running_requests"])) base_features_list.

Definition demo_cfg : handler_config :=
  mkHandlerConfig "lodestar" "contextual_bandit" (Preprocess.mkHyper (Some demo_excluded) None) [] (Some false) ["input_tokens"] demo_hyper (demo_infer_config 2) None.

(** The statistics of every feature *)
Definition demo_all_stats : FeatureStats Q :=
  mkFeatureStats (demo_stats 100 20 <$> FeatureNorm.base_features ++ numeric_names) ∅ 0 4.

(** The directory has the model of an agent for two pods. *)
Definition demo_files : files := save None demo_agent ∅.

Definition demo_started : server :=
  (initialize demo_cfg ["10.0.0.1"] [] demo_all_stats None None None (booted demo_files (Some None))).2.

Definition demo_http (message : string) : http_request := mkHttp (inl message) true demo_draws demo_random (Raise ValueError).

Definition demo_ids (numbered : bool) : list (string * string) := if numbered then [("requestID", "7")] else [].

Definition demo_replaced (numbered : bool) : outcome string * registry :=
  replace_in_message (λ _, None) None (demo_message (demo_ids numbered)) (pods_registry demo_started).

Definition demo_text (numbered : bool) : string := match (demo_replaced numbered).1 with Ret m => m | _ => EmptyString end.

Definition demo_two : list pod_id := ["pod_0000"; "pod_0001"].

Abbreviation demo_parsed b := (parse_log_to_dict demo_json demo_float (demo_text b)).

Abbreviation demo_repr := (λ _ : value Q, EmptyString).

Abbreviation demo_handle := (handle_infer (NP := demo_numpy) demo_json (λ _, None) demo_float demo_repr demo_exp demo_f32 (λ x, x) 0%Q (λ a b, a + b) false demo_cfg).

Abbreviation demo_reach := (reachable (NP := demo_numpy) demo_json (λ _, None) demo_float demo_repr demo_exp demo_f32 (λ x, x) 0%Q (λ a b, a + b) false demo_cfg).

Lemma demo_files_ok : dir_ok demo_hyper demo_files.
Proof. right. exists demo_agent. split; [apply new_agent_ok|]. split; [exact (new_net_wf 3 2 "static" 42)|apply save_files]. Qed.

Lemma demo_starts : starts demo_cfg demo_files demo_started.
Proof. exists ["10.0.0.1"], [], demo_all_stats, None, None, None, (Some None). exact eq_refl. Qed.

Lemma demo_server_reachable : demo_reach demo_started.
Proof. exists demo_files, demo_started. split; [exact demo_files_ok|]. split; [exact demo_starts|apply rtc_refl]. Qed.

Lemma demo_ready : ready demo_cfg demo_started false demo_all_stats.
Proof.
  split; try by vm_compute.
  - by_decision.
  - left. by vm_compute.
  - intros f ->%list_elem_of_singleton. by_decision.
  - intros f Hf. assert (Forall (λ f, ∃ s m d, assoc f (FeatureNorm.feature_stats demo_all_stats) = Some s ∧ RunningStats.rs_mean s = Some m ∧ RunningStats.rs_std s = Some d)
      (FeatureNorm.base_features ++ numeric_names)) as Hall by (repeat constructor; by eexists _, _, _). rewrite Forall_forall in Hall. by apply Hall.
  - by_decision.
  - right. intros w Hw. rewrite (start_dir _ _ _ demo_starts) in Hw.
    destruct (save_files None demo_agent ∅) as [Hn _]. unfold demo_files in Hw. rewrite Hn in Hw. by injection Hw as <-.
Qed.

Lemma demo_routable b : routable demo_json (λ _, None) demo_float demo_cfg demo_started
  (demo_http (demo_message (demo_ids b))) (demo_text b) (demo_replaced b).2 demo_two.
Proof.
  split.
  - eexists. split; [done|]. destruct b; vm_compute; reflexivity.
  - apply (bool_decide_unpack _). destruct b; vm_compute; exact I.
  - apply sent_row_checked. destruct b; vm_compute; reflexivity.
  - destruct b; vm_compute; reflexivity.
  - apply Forall_forall, (bool_decide_unpack _). destruct b; vm_compute; exact I.
  - intros d p g Hd Hg. assert (d = [("pod_0000", VStr "NVIDIA-A30")]) as -> by (destruct b; vm_compute in Hd; by injection Hd).
    simpl in Hg. case_decide; by simplify_eq.
  - exists "lodestar". split; [destruct b; vm_compute; reflexivity|by_decision].
  - split; [simpl; lia|done].
  - apply demo_random_ok.
Qed.

Lemma message_routed_witness :
  ∃ n e resp s', demo_handle (demo_http (demo_message (demo_ids true))) demo_started = (Ret (Answered "7" n e resp), s') ∧
    selected_pod_generalpodid resp ∈ demo_two ∧
    assoc (selected_pod resp) [("10.0.0.1", "pod_0000"); ("10.0.0.2", "pod_0001")] = Some (selected_pod_generalpodid resp).
Proof.
  destruct (message_routed (NP := demo_numpy) demo_json (λ _, None) demo_float demo_repr demo_exp demo_f32 (λ x, x) 0%Q (λ a b, a + b) false demo_cfg
    demo_started (demo_http (demo_message (demo_ids true))) (demo_text true) (demo_replaced true).2 demo_two false demo_all_stats)
    as (n & e & resp & s' & E & _ & _ & Hin & Hip).
  - exact demo_server_reachable.
  - exact demo_ready.
  - exact (demo_routable true).
  - done.
  - vm_compute. by eexists.
  - exists n, e, resp, s'. split; [|split; [exact Hin|]].
    + assert (request_id_of (demo_text true) = "7") as Hid by (vm_compute; reflexivity). rewrite Hid in E. exact E.
    + assert (pod_ip_to_generalpodid (demo_replaced true).2 = [("10.0.0.1", "pod_0000"); ("10.0.0.2", "pod_0001")]) as Hr by (vm_compute; reflexivity).
      rewrite Hr in Hip. exact Hip.
Defined.

Lemma unnumbered_message_refused_witness :
  ∃ s', demo_handle (demo_http (demo_message (demo_ids false))) demo_started = (Ret (Refused 500), s') ∧ agent s' = agent demo_started.
Proof.
  destruct (unnumbered_message_refused (NP := demo_numpy) demo_json (λ _, None) demo_float demo_repr demo_exp demo_f32 (λ x, x) 0%Q (λ a b, a + b) false demo_cfg
    demo_started (demo_http (demo_message (demo_ids false))) (demo_text false) (demo_replaced false).2 demo_two false demo_all_stats) as (s' & E & Ha & _).
  - exact demo_server_reachable.
  - exact demo_ready.
  - exact (demo_routable false).
  - vm_compute. reflexivity.
  - exists s'. split; [exact E|exact Ha].
Defined.

(** A service that started without a model, after a request and a round *)
Definition demo_unloaded : server := (initialize demo_cfg [] [] demo_all_stats None None None (booted ∅ None)).2.

Abbreviation demo_served s := (demo_handle (demo_http (demo_message (demo_ids true))) s).2.

(** The metadata of the new data *)
Definition demo_metadata : metadata (F:=Q) := mkMetadata 2 2 false 2 [] [] [] demo_two [] (0, 0, 0, 0)%Q [] 0 0.

Abbreviation demo_round s :=
  (end_round (NP := demo_numpy) demo_cfg (λ _, 0%Q) demo_train_draws [("batch_1", Subdirectory (Some demo_dataset))] demo_all_stats new_caches [] (Some demo_metadata) id s).2.

Abbreviation demo_step := (step (NP := demo_numpy) demo_json (λ _, None) demo_float demo_repr demo_exp demo_f32 (λ x, x) 0%Q (λ a b, a + b) false demo_cfg).

Lemma demo_served_step s : demo_step s (demo_served s).
Proof. apply requested. Qed.

Lemma demo_round_step s :
  (∀ a, cached_agent (agent s) = Some a → ∃ n, serves demo_hyper (demo_dims, n) a) → demo_step s (demo_round s).
Proof.
  intros Ha. apply retrained with (d := demo_dims); [done|exact demo_train_draws_ok|simpl; lia|done| |done|apply new_caches_ok].
  apply Forall_cons. split; [|done]. split; [exact demo_dataset_ok|]. unfold ds_size. simpl. lia.
Qed.

Lemma unready_forever_witness :
  let s := demo_round demo_unloaded in demo_handle (demo_http (demo_message (demo_ids true))) s = (Ret (Refused 503), s).
Proof.
  apply (unready_forever (NP := demo_numpy) demo_json (λ _, None) demo_float demo_repr demo_exp demo_f32 (λ x, x) 0%Q (λ a b, a + b) false demo_cfg
    ∅ demo_unloaded (demo_round demo_unloaded) (demo_http (demo_message (demo_ids true)))).
  - done.
  - done.
  - done.
  - exists [], [], demo_all_stats, None, None, None, None. exact eq_refl.
  - apply rtc_once, demo_round_step. by vm_compute.
Defined.

(** A service with a model, after a round on the data of a cluster and a request: the metadata is that of the round, the
    model that of the start. *)
Lemma lodestar_never_trains_witness :
  let s := demo_served (demo_round demo_started) in
  model_dir (agent s) = demo_files ∧ NUM_TRAINS s = 0 ∧ batch_1 demo_started = Some None ∧ batch_1 (demo_round demo_started) = Some (Some demo_metadata).
Proof.
  destruct (lodestar_never_trains (NP := demo_numpy) demo_json (λ _, None) demo_float demo_repr demo_exp demo_f32 (λ x, x) 0%Q (λ a b, a + b) false demo_cfg
    demo_files demo_started (demo_served (demo_round demo_started))) as (H1 & H2 & _).
  - done.
  - done.
  - exact demo_starts.
  - apply (rtc_l _ _ (demo_round demo_started)); [|apply rtc_once, demo_served_step]. apply demo_round_step. intros a Ha.
    pose proof (server_reachable_ok _ _ _ _ _ _ _ _ _ _ _ _ demo_server_reachable) as [_ _ [Hso _ _ _ _]].
    exists 1%nat. apply (Hso a (demo_dims, 1%nat)); [exact Ha|]. vm_compute. reflexivity.
  - split; [exact H1|]. split; [exact H2|]. split; vm_compute; reflexivity.
Defined.
