(* ===== verification/CacheSim.v ===== *)
(** * The simulator of the prefix cache

    Models [python/routing_agent_service/workloads/mooncake/simulate_kvcache.py], which
    replays the blocks of a workload against a cache of some capacity with three
    policies: the least recently used block goes ([simulate_lru]), the oldest one
    ([simulate_fifo]), or the one whose next use is farthest in the future
    ([simulate_belady]). A request is a list of block ids and earns a hit for every block of
    its longest prefix that is cached; then all its blocks are inserted. Ratios are exact
    rationals; a heap is the list of its entries in the order in which [heapq] pops them. The
    lines of a file are given parsed, and the plots are left out. *)

From stdpp Require Import sorting.
From S2P Require Import Prelude Num.

Open Scope Z_scope.
Open Scope py_scope.

(** ** Replaying requests *)

(** The number of blocks before the first one that is not cached *)
Fixpoint prefix_match (cache_contains : Z → bool) (hids : list Z) : Z :=
  match hids with
  | [] => 0
  | b :: hids' => if cache_contains b then 1 + prefix_match cache_contains hids' else 0
  end.

Section replay.
Context {S : Type} (contains : S → Z → bool) (access : Z → M S unit).

(** The hit ratio of a request, whose blocks are accessed in order *)
Definition replay_request (hids : list Z) : M S Q :=
  match hids with
  | [] => ret 0%Q
  | _ =>
    let* cache := get in
    let m := prefix_match (contains cache) hids in
    for_each hids access ;;
    ret (inject_Z m / inject_Z (py_len hids))%Q
  end.

Fixpoint replay (sequences : list (list Z)) : M S (list Q) :=
  match sequences with
  | [] => ret []
  | hids :: rest =>
    let* hit_ratio := replay_request hids in
    let* hit_ratios := replay rest in
    ret (hit_ratio :: hit_ratios)
  end.

End replay.

(** ** The policies *)

(** An [OrderedDict], the oldest key first *)
Definition lru_contains (cache : list Z) (b : Z) : bool := bool_decide (b ∈ cache).

Definition move_to_end (b : Z) (cache : list Z) : list Z := List.filter (λ x, negb (x =? b)) cache ++ [b].

Definition lru_access (capacity b : Z) : M (list Z) unit :=
  let* cache := get in
  if lru_contains cache b then modify (move_to_end b)
  else
    (if capacity <=? py_len cache then
       match cache with
       | [] => raise KeyError
       | _ :: rest => modify (λ _, rest)
       end
     else ret tt) ;;
    modify (λ cache, cache ++ [b]).

Definition simulate_lru (sequences : list (list Z)) (capacity : Z) : outcome (list Q) :=
  (replay lru_contains (lru_access capacity) sequences []).1.

Record fifo := mkFifo { cache_set : gset Z; cache_q : list Z }.

Definition fifo_contains (s : fifo) (b : Z) : bool := bool_decide (b ∈ cache_set s).

Definition fifo_access (capacity b : Z) : M fifo unit :=
  let* s := get in
  if fifo_contains s b then ret tt
  else
    (if capacity <=? Z.of_nat (size (cache_set s)) then
       match cache_q s with
       | [] => raise IndexError
       | evicted :: rest => modify (λ s, mkFifo (cache_set s ∖ {[evicted]}) rest)
       end
     else ret tt) ;;
    modify (λ s, mkFifo ({[b]} ∪ cache_set s) (cache_q s ++ [b])).

Definition simulate_fifo (sequences : list (list Z)) (capacity : Z) : outcome (list Q) :=
  (replay fifo_contains (fifo_access capacity) sequences (mkFifo ∅ [])).1.

(** [next_use] from a position on, with the position at which each block is seen first; the
    loop runs from the end to the front. *)
Fixpoint next_uses (n p : Z) (flat : list Z) : list Z * gmap Z Z :=
  match flat with
  | [] => ([], ∅)
  | b :: flat' =>
    let '(nu, last_seen) := next_uses n (p + 1) flat' in
    (default n (last_seen !! b) :: nu, <[b := p]> last_seen)
  end.

(** Tuples are compared from the left. *)
Definition entry_leb (x y : Z * Z) : bool := (x.1 <? y.1) || ((x.1 =? y.1) && (x.2 <=? y.2)).

Fixpoint heappush (e : Z * Z) (heap : list (Z * Z)) : list (Z * Z) :=
  match heap with
  | [] => [e]
  | x :: heap' => if entry_leb e x then e :: heap else x :: heappush e heap'
  end.

Record belady := mkBelady { cache_nu : gmap Z Z; heap : list (Z * Z); pos : Z }.

Definition belady_contains (s : belady) (b : Z) : bool := bool_decide (is_Some (cache_nu s !! b)).

(** Entries are popped until one is still valid; its block is evicted. *)
Fixpoint evict (cache : gmap Z Z) (heap : list (Z * Z)) : gmap Z Z * list (Z * Z) :=
  match heap with
  | [] => (cache, [])
  | (neg_nu, cand) :: heap' =>
    if bool_decide (cache !! cand = Some (- neg_nu)) then (delete cand cache, heap') else evict cache heap'
  end.

Definition belady_access (next_use : list Z) (capacity b : Z) : M belady unit :=
  let* s := get in
  let* nu := lift (py_index next_use (pos s)) in
  let '(cache, h) :=
    if belady_contains s b then (cache_nu s, heap s)
    else if capacity <=? Z.of_nat (size (cache_nu s)) then evict (cache_nu s) (heap s)
    else (cache_nu s, heap s) in
  modify (λ s, mkBelady (<[b := nu]> cache) (heappush (- nu, b) h) (pos s + 1)).

Definition simulate_belady (sequences : list (list Z)) (capacity : Z) : outcome (list Q) :=
  let flat := concat sequences in
  let next_use := (next_uses (py_len flat) 0 flat).1 in
  (replay belady_contains (belady_access next_use capacity) sequences (mkBelady ∅ [] 0)).1.

Inductive policy := Lru | Fifo | Belady.

(** [POLICY_FNS] *)
Definition policy_fn (p : policy) : list (list Z) → Z → outcome (list Q) :=
  match p with Lru => simulate_lru | Fifo => simulate_fifo | Belady => simulate_belady end.

(** ** Aggregates *)

(** [int(round(x))]: to the nearest integer, to the even one of two *)
Definition py_round (x : Q) : Z :=
  let f := Qfloor x in
  match Qcompare (x - inject_Z f) (1 # 2) with
  | Lt => f
  | Gt => f + 1
  | Eq => if Z.even f then f else f + 1
  end.

Definition totals (sequences : list (list Z)) (hit_ratios : list Q) : Z * Z :=
  foldl (λ '(total_blocks, total_hits) '(hids, hr),
    match hids with
    | [] => (total_blocks, total_hits)
    | _ => (total_blocks + py_len hids, total_hits + py_round (hr * inject_Z (py_len hids)))
    end) (0, 0) (zip sequences hit_ratios).

Definition aggregate_hit_ratio (sequences : list (list Z)) (hit_ratios : list Q) : Q :=
  let '(total_blocks, total_hits) := totals sequences hit_ratios in
  if 0 <? total_blocks then (inject_Z total_hits / inject_Z total_blocks)%Q else 0%Q.

(** The aggregate hit ratio at each capacity, for one of the policies that are simulated *)
Definition mrc (p : policy) (sequences : list (list Z)) (mrc_capacities_blocks : list Z) : outcome (list Q) :=
  omapM (λ cap, try* ratios := policy_fn p sequences cap in Ret (aggregate_hit_ratio sequences ratios)) mrc_capacities_blocks.

Definition KB_PER_GB : Z := 1024 * 1024.

Definition gb_to_blocks (gb kv_kb_per_token dtype_mult : Q) (tokens_per_block : Z) : outcome Z :=
  let kb_per_token := (kv_kb_per_token * dtype_mult)%Q in
  if Qeq_bool kb_per_token 0 || (tokens_per_block =? 0) then Raise ZeroDivisionError
  else
    let tokens := (gb * inject_Z KB_PER_GB / kb_per_token)%Q in
    Ret (Z.max 1 (Qfloor (tokens / inject_Z tokens_per_block))).

(** [sorted(set(l))] *)
Definition sorted_unique (l : list Z) : list Z := merge_sort Z.le (remove_dups l).

(** The sizes of the sweep come from [np.logspace] and are an argument. *)
Definition auto_mrc_capacities_blocks (gbs : list Q) (kv_kb_per_token dtype_mult : Q) (tokens_per_block : Z) : outcome (list Z) :=
  try* blocks := omapM (λ g, gb_to_blocks g kv_kb_per_token dtype_mult tokens_per_block) gbs in
  Ret (sorted_unique blocks).

(** An option that is not given is the empty list. *)
Record capacity_args := mkCapacityArgs { cache_capacity_blocks : list Z; cache_capacity_tokens : list Z; cache_capacity_gb : list Q; mrc_capacities : list Z }.

Definition ts_capacities_blocks (args : capacity_args) (kv_kb_per_token dtype_mult : Q) (tokens_per_block : Z) : outcome (list Z) :=
  match cache_capacity_blocks args, cache_capacity_tokens args with
  | (_ :: _) as blocks, _ => Ret (sorted_unique blocks)
  | [], (_ :: _) as tokens =>
    if tokens_per_block =? 0 then Raise ZeroDivisionError
    else Ret (sorted_unique ((λ t, Z.max 1 (t / tokens_per_block)) <$> tokens))
  | [], [] =>
    try* blocks := omapM (λ g, gb_to_blocks g kv_kb_per_token dtype_mult tokens_per_block) (cache_capacity_gb args) in
    Ret (sorted_unique blocks)
  end.

Definition mrc_capacities_blocks (args : capacity_args) (gbs : list Q) (kv_kb_per_token dtype_mult : Q) (tokens_per_block : Z) : outcome (list Z) :=
  match mrc_capacities args with
  | [] => auto_mrc_capacities_blocks gbs kv_kb_per_token dtype_mult tokens_per_block
  | capacities => Ret (sorted_unique capacities)
  end.

(** ** The workload *)

(** A request of a line of the file; both keys may be missing. *)
Record workload_request := mkWorkloadRequest { hash_ids : option (list Z); prompt_length : option Z }.

Definition load_request (st : list (list Z) * option Z) (req : workload_request) : list (list Z) * option Z :=
  let '(sequences, inferred_tpb) := st in
  let hids := default [] (hash_ids req) in
  let pl := default 0 (prompt_length req) in
  (sequences ++ [hids],
   match inferred_tpb, hids with
   | None, _ :: _ => if 0 <? pl then Some (Z.max 1 (py_round (inject_Z pl / inject_Z (py_len hids))%Q)) else None
   | _, _ => inferred_tpb
   end).

Definition load_workload (lines : list (list workload_request)) : list (list Z) * Z :=
  let '(sequences, inferred_tpb) := foldl (foldl load_request) ([], None) lines in
  (sequences, default 128 inferred_tpb).

(** ** Specification

    A cache that holds at most [cap] blocks and inserts every block that is accessed; a block is
    evicted when there is no room. *)

Section demand.
Context (cap : nat).

Definition insert_block (b v : Z) (C : gset Z) : gset Z := {[b]} ∪ (if decide (size C < cap)%nat then C else C ∖ {[v]}).

(** The block can be evicted, or none has to be. *)
Definition victim (v : Z) (C : gset Z) : Prop := v ∈ C ∨ (size C < cap)%nat.

(** Some choice of victims has this many misses. *)
Inductive demand : gset Z → list Z → nat → Prop :=
| demand_nil C : demand C [] 0
| demand_hit C b l n : b ∈ C → demand C l n → demand C (b :: l) n
| demand_miss C b v l n : b ∉ C → victim v C → demand (insert_block b v C) l n → demand C (b :: l) (S n).

(** The number of accesses before the next one of a block *)
Fixpoint distance (l : list Z) (b : Z) : nat :=
  match l with
  | [] => 0
  | x :: l' => if decide (x = b) then 0 else S (distance l' b)
  end.

(** ** Lemmas: no choice beats the farthest next use *)

Context (Hcap : (1 ≤ cap)%nat).

Lemma size_remove (C : gset Z) x : x ∈ C → size C = S (size (C ∖ {[x]})).
Proof.
  intros Hx. assert (C = {[x]} ∪ C ∖ {[x]}) as E by (by apply union_difference_singleton_L). rewrite E at 1.
  rewrite size_union by set_solver. by rewrite size_singleton.
Qed.

Lemma insert_size b v C : b ∉ C → victim v C → (size C ≤ cap)%nat → (size (insert_block b v C) ≤ cap)%nat.
Proof.
  intros Hb Hv HC. unfold insert_block. rewrite size_union, size_singleton by (case_decide; set_solver). case_decide; [lia|].
  destruct Hv as [Hv|]; [|lia]. rewrite (size_remove C v Hv) in HC. lia.
Qed.

(** A block of a larger set *)
Lemma spare (C D : gset Z) : (size C < size D)%nat → ∃ u, u ∈ D ∧ u ∉ C.
Proof.
  intros H. destruct (set_choose_or_empty (D ∖ C)) as [[u Hu]|He]; [exists u; set_solver|].
  assert (size D ≤ size C)%nat; [apply subseteq_size; set_solver|lia].
Qed.

(** A victim with which the larger cache stays the larger one *)
Lemma victim_more b v C D : victim v C → C ⊆ D → ∃ u, victim u D ∧ insert_block b v C ⊆ insert_block b u D.
Proof.
  unfold victim, insert_block. intros Hv HD. destruct (decide (size D < cap)%nat) as [Hr|Hr]; [exists v; case_decide; set_solver|].
  destruct (decide (size C < cap)%nat) as [Hc|Hc]; [|destruct Hv; [exists v; set_solver|lia]].
  destruct (spare C D) as (u & Hu & Hnu); [lia|]. exists u. set_solver.
Qed.

(** More blocks in the cache are no worse. *)
Lemma demand_more C l n : demand C l n → ∀ D, C ⊆ D → (size D ≤ cap)%nat → ∃ m, demand D l m ∧ (m ≤ n)%nat.
Proof.
  induction 1 as [C|C b l n Hb _ IH|C b v l n Hb Hv _ IH]; intros D HD Hsz.
  - exists 0%nat. by split; [constructor|].
  - destruct (IH D HD Hsz) as (m & Hm & Hle). exists m. split; [apply demand_hit; set_solver|done].
  - destruct (decide (b ∈ D)) as [Hin|Hin].
    { destruct (IH D) as (m & Hm & Hle); [unfold insert_block; case_decide; set_solver|done|]. exists m. split; [by apply demand_hit|lia]. }
    destruct (victim_more b v C D Hv HD) as (u & Hu & Hsub). destruct (IH _ Hsub) as (m & Hm & Hle); [by apply insert_size|].
    exists (S m). split; [by apply (demand_miss _ _ u)|lia].
Qed.

(** A victim with which the smaller cache lacks one block at most *)
Lemma victim_less b v C D y : victim v C → C ⊆ {[y]} ∪ D → y ∈ C → ∃ u z, victim u D ∧ insert_block b v C ⊆ {[z]} ∪ insert_block b u D.
Proof.
  unfold victim, insert_block. intros Hv HD Hy. destruct (decide (size D < cap)%nat) as [Hr|Hr]; [exists v, y; case_decide; set_solver|].
  destruct (decide (size C < cap)%nat) as [Hc|Hc].
  - destruct (spare C D) as (u & Hu & Hnu); [lia|]. exists u, y. set_solver.
  - destruct Hv as [Hv|]; [|lia]. destruct (decide (v = y)) as [->|Hvy].
    2: { assert (v ∈ D) as HvD by (apply HD, elem_of_union in Hv as [Hv%elem_of_singleton|]; done). exists v, y. split; [by left|]. clear -HD. intros x. set_solver. }
    destruct (set_choose_or_empty D) as [[u Hu]|He]; [exists u, u; split; [set_solver|]; intros x; destruct (decide (x = u)); set_solver|].
    apply size_empty_iff in He. lia.
Qed.

(** One block less costs one miss at most. *)
Lemma demand_less C l n : demand C l n → ∀ D y, C ⊆ {[y]} ∪ D → (size C ≤ cap)%nat → (size D ≤ cap)%nat → ∃ m, demand D l m ∧ (m ≤ S n)%nat.
Proof.
  assert (∀ C l n D y, demand C l n → y ∉ C → C ⊆ {[y]} ∪ D → (size D ≤ cap)%nat → ∃ m, demand D l m ∧ (m ≤ S n)%nat) as Hmore.
  { intros C' l' n' D' y' Hd Hy HC Hs. destruct (demand_more C' l' n' Hd D') as (m & Hm & Hle); [set_solver|done|]. exists m. split; [done|lia]. }
  induction 1 as [C|C b l n Hb H IH|C b v l n Hb Hv H IH]; intros D y HC HszC HszD.
  - exists 0%nat. split; [constructor|lia].
  - destruct (decide (b ∈ D)) as [Hin|Hin].
    { destruct (IH D y HC HszC HszD) as (m & Hm & Hle). exists m. split; [by apply demand_hit|done]. }
    assert (b = y) as -> by (apply HC, elem_of_union in Hb as [Hb%elem_of_singleton|]; done).
    assert (∃ u, victim u D ∧ C ⊆ insert_block y u D) as (u & Hu & Hsub).
    { unfold victim, insert_block. case_decide as Hr; [exists y; set_solver|]. destruct (spare (C ∖ {[y]}) D) as (u & Hu & Hnu).
      { rewrite (size_remove C y Hb) in HszC. lia. } exists u. set_solver. }
    destruct (demand_more C l n H _ Hsub) as (m & Hm & Hle); [by apply insert_size|]. exists (S m). split; [by apply (demand_miss _ _ u)|lia].
  - destruct (decide (y ∈ C)) as [Hy|Hy]; [|by apply (Hmore C _ _ _ y); [apply (demand_miss _ _ v)|..]].
    pose proof (insert_size b v C Hb Hv HszC) as Hsz. destruct (decide (b ∈ D)) as [Hin|Hin].
    { destruct (IH D y) as (m & Hm & Hle); [unfold insert_block; case_decide; set_solver|done..|]. exists m. split; [by apply demand_hit|lia]. }
    destruct (victim_less b v C D y Hv HC Hy) as (u & z & Hu & Hsub). destruct (IH _ _ Hsub Hsz) as (m & Hm & Hle); [by apply insert_size|].
    exists (S m). split; [by apply (demand_miss _ _ u)|lia].
Qed.

Ltac in_sets := rewrite ?elem_of_union, ?elem_of_difference, ?elem_of_union, ?elem_of_difference, ?elem_of_singleton in *.

(** A victim with which the cache that has [v] instead of [w] still does *)
Lemma victim_exchange b x v w C D :
  victim x C → C ⊆ {[w]} ∪ D ∖ {[v]} → w ∈ C → v ∈ D → w ∉ D → b ≠ v →
  ∃ u, victim u D ∧ (insert_block b x C ⊆ insert_block b u D ∨ v ∈ insert_block b u D ∧ insert_block b x C ⊆ {[w]} ∪ insert_block b u D ∖ {[v]}).
Proof.
  unfold victim, insert_block. intros Hx HD Hw Hv Hnw Hbv. destruct (decide (size D < cap)%nat) as [Hr|Hr].
  { exists x. split; [by right|]. right. split; [set_solver|]. case_decide; set_solver. }
  destruct (decide (size C < cap)%nat) as [Hc|Hc].
  - destruct (spare (C ∖ {[w]}) (D ∖ {[v]})) as (u & Hu & Hnu).
    { rewrite (size_remove C w Hw) in Hc. rewrite (size_remove D v Hv) in Hr. lia. }
    apply elem_of_difference in Hu as [Hu Huv%not_elem_of_singleton]. exists u. split; [by left|]. right. clear -Hv HD Hnu Huv Hbv. split; [set_solver|].
    intros y Hy. pose proof (HD y) as Hy'. in_sets. destruct (decide (y = w)) as [->|Hyw]; [by left|]. right.
    destruct Hy as [->|Hy]; [split; [by left|done]|]. destruct (Hy' Hy) as [->|[HyD Hyv]]; [done|]. split; [right|done]. split; [done|]. by intros ->; apply Hnu.
  - destruct Hx as [Hx|]; [|lia]. destruct (decide (x = w)) as [->|Hxw].
    { exists v. split; [by left|]. left. clear -HD. intros y Hy. pose proof (HD y) as Hy'. in_sets. tauto. }
    assert (x ∈ D ∧ x ≠ v) as [HxD Hxv] by (apply HD in Hx; in_sets; tauto). exists x. split; [by left|]. right. clear -Hv HD Hxv Hbv. split; [set_solver|].
    intros y Hy. pose proof (HD y) as Hy'. in_sets. destruct Hy as [->|[Hy Hyx]]; [right; split; [by left|done]|].
    destruct (Hy' Hy) as [->|[HyD Hyv]]; [by left|]. right. split; [by right|done].
Qed.

Lemma exchange_cases (C D : gset Z) v w : C ⊆ {[w]} ∪ D ∖ {[v]} → C ⊆ D ∨ w ∈ C ∧ w ∉ D.
Proof.
  intros HC. destruct (decide (w ∈ C)) as [Hw|Hw], (decide (w ∈ D)) as [Hd|Hd]; [left|by right|left..];
    intros y Hy; pose proof (HC y Hy) as Hy'; in_sets; destruct Hy' as [->|[? _]]; done.
Qed.

(** A miss of the larger set keeps the relation to a set that has the block. *)
Lemma insert_subset b x w v C D : C ⊆ {[w]} ∪ D ∖ {[v]} → b ∈ D → b ≠ v → insert_block b x C ⊆ {[w]} ∪ D ∖ {[v]}.
Proof. unfold insert_block. intros HC Hb Hv y Hy. pose proof (HC y) as Hy'. case_decide; in_sets; destruct Hy as [->|Hy]; tauto. Qed.

(** The block that is used sooner is the better one to have. *)
Lemma demand_exchange C l n : demand C l n → ∀ D v w,
  C ⊆ {[w]} ∪ D ∖ {[v]} → v ∈ D → (size C ≤ cap)%nat → (size D ≤ cap)%nat → (distance l v ≤ distance l w)%nat → ∃ m, demand D l m ∧ (m ≤ n)%nat.
Proof.
  intros Hd. pose proof Hd as H. induction H as [C|C b l n Hb H IH|C b x l n Hb Hx H IH]; intros D v w HC Hv HszC HszD Hdist;
    (destruct (exchange_cases C D v w HC) as [Hsub|[Hw Hnw]]; [by eapply demand_more|]).
  - exists 0%nat. split; [constructor|lia].
  - assert (b ≠ w) as Hbw. { intros ->. simpl in Hdist. rewrite (decide_True _ _ (eq_refl w)) in Hdist. case_decide as E; [by rewrite E in Hnw|lia]. }
    assert (b ∈ D ∧ b ≠ v) as [HbD Hbv] by (apply HC in Hb; in_sets; tauto). simpl in Hdist. rewrite !decide_False in Hdist by done.
    destruct (IH H D v w) as (m & Hm & Hle); [done..|lia|]. exists m. split; [by apply demand_hit|done].
  - assert (b ≠ w) as Hbw by (by intros ->). pose proof (insert_size b x C Hb Hx HszC) as Hsz. destruct (decide (b = v)) as [->|Hbv].
    { destruct (demand_less _ _ _ H D w) as (m & Hm & Hle); [|done..|].
      { clear -HC Hv. unfold insert_block. intros y Hy. pose proof (HC y) as Hy'. case_decide; in_sets; destruct Hy as [->|Hy]; tauto. }
      exists m. split; [by apply demand_hit|lia]. }
    simpl in Hdist. rewrite !decide_False in Hdist by done. destruct (decide (b ∈ D)) as [Hin|Hin].
    { destruct (IH H D v w) as (m & Hm & Hle); [by apply insert_subset|done..|lia|]. exists m. split; [by apply demand_hit|lia]. }
    destruct (victim_exchange b x v w C D) as (u & Hu & Hcase); [done..|]. pose proof (insert_size b u D Hin Hu HszD) as Hsz'.
    assert (∃ m, demand (insert_block b u D) l m ∧ (m ≤ n)%nat) as (m & Hm & Hle).
    { destruct Hcase as [Hcase|[Hv' Hcase]]; [by eapply demand_more|apply (IH H _ v w); [done..|lia]]. }
    exists (S m). split; [by apply (demand_miss _ _ u)|lia].
Qed.

(** Evicting a block that is used last is no worse than any other choice. *)
Lemma demand_farthest C b v x l n :
  b ∉ C → victim x C → victim v C → (size C ≤ cap)%nat → ((size C < cap)%nat ∨ ∀ y, y ∈ C → (distance l y ≤ distance l v)%nat) →
  demand (insert_block b x C) l n → ∃ m, demand (insert_block b v C) l m ∧ (m ≤ n)%nat.
Proof.
  intros Hb Hx Hv Hsz Hfar H. pose proof (insert_size b x C Hb Hx Hsz) as H1. pose proof (insert_size b v C Hb Hv Hsz) as H2.
  destruct (decide (size C < cap)%nat) as [Hr|Hr]; [apply (demand_more _ _ _ H); [unfold insert_block; rewrite !decide_True by done; done|done]|].
  destruct Hfar as [|Hfar]; [lia|]. destruct Hx as [Hx|]; [|lia]. destruct Hv as [Hv|]; [|lia].
  destruct (decide (x = v)) as [->|Hxv]; [by exists n|].
  apply (demand_exchange _ _ _ H _ x v); [unfold insert_block; rewrite !decide_False by done|unfold insert_block; rewrite decide_False by done|done..|by apply Hfar].
  - intros y. destruct (decide (y = v)); set_solver.
  - set_solver.
Qed.

End demand.

(** ** Lemmas: replaying *)

Lemma prefix_match_bounds c hids : 0 ≤ prefix_match c hids ≤ py_len hids.
Proof. induction hids as [|b l IH]; [done|]. simpl. unfold py_len in *. simpl length. destruct (c b); lia. Qed.

Lemma prefix_match_mono c c' hids : (∀ b, c b = true → c' b = true) → prefix_match c hids ≤ prefix_match c' hids.
Proof.
  intros Hc. induction hids as [|b l IH]; [done|]. simpl. specialize (Hc b). pose proof (prefix_match_bounds c' l).
  destruct (c b); [rewrite Hc by done; lia|destruct (c' b); lia].
Qed.

(** The ratios of some numbers of hits *)
Definition ratios (sequences : list (list Z)) (ms : list Z) : list Q := zip_with (λ hids m, (inject_Z m / inject_Z (py_len hids))%Q) sequences ms.

Section runs.
Context {S : Type} (contains : S → Z → bool) (access : Z → M S unit).

(** The hits of the requests, and the accesses to blocks that are not cached *)
Fixpoint matches (sequences : list (list Z)) (s : S) : list Z :=
  match sequences with
  | [] => []
  | hids :: rest => prefix_match (contains s) hids :: matches rest (for_each hids access s).2
  end.

Fixpoint misses (l : list Z) (s : S) : nat :=
  match l with
  | [] => 0
  | b :: l' => (if contains s b then 0 else 1) + misses l' (access b s).2
  end.

(** What holds as long as these blocks are still to be accessed *)
Context (P : list Z → S → Prop) (Hstep : ∀ b l s, P (b :: l) s → ∃ s', access b s = (Ret tt, s') ∧ P l s').

Lemma accesses_run hids l s : P (hids ++ l) s → ∃ s', for_each hids access s = (Ret tt, s') ∧ P l s'.
Proof.
  revert s. induction hids as [|b hids IH]; intros s Hs; [by exists s|]. destruct (Hstep b (hids ++ l) s Hs) as (s1 & E & H1).
  destruct (IH s1 H1) as (s' & E' & H'). exists s'. split; [|done]. simpl. unfold bind. by rewrite E.
Qed.

Lemma replay_runs sequences s : P (concat sequences) s → (replay contains access sequences s).1 = Ret (ratios sequences (matches sequences s)).
Proof.
  revert s. induction sequences as [|hids rest IH]; intros s Hs; [done|]. simpl in Hs. destruct (accesses_run hids (concat rest) s Hs) as (s' & E & Hs').
  assert (replay_request contains access hids s = (Ret (inject_Z (prefix_match (contains s) hids) / inject_Z (py_len hids))%Q, s')) as Er.
  { unfold replay_request. destruct hids as [|b hids]; [injection E as <-; done|]. rewrite bind_get. by rewrite (bind_Ret _ _ _ _ _ E). }
  simpl. rewrite (bind_Ret _ _ _ _ _ Er), E. cbn [snd]. specialize (IH s' Hs'). unfold bind. destruct (replay _ _ rest s') as [o s2]. simpl in IH. by subst o.
Qed.

Lemma matches_bounds sequences s : Forall2 (λ hids m, 0 ≤ m ≤ py_len hids) sequences (matches sequences s).
Proof. revert s. induction sequences as [|hids rest IH]; intros s; constructor; [apply prefix_match_bounds|apply IH]. Qed.

(** With requests of one block a block that is not cached is a request without a hit. *)
Lemma matches_single l s : foldr Z.add 0 (matches ((λ b, [b]) <$> l) s) = py_len l - Z.of_nat (misses l s).
Proof.
  revert s. induction l as [|b l IH]; intros s; [done|]. rewrite fmap_cons. cbn [matches foldr misses]. rewrite IH. unfold py_len. simpl length.
  assert ((for_each [b] access s).2 = (access b s).2) as -> by (simpl; unfold bind; by destruct (access b s) as [[[]| |] s']).
  simpl prefix_match. destruct (contains s b); lia.
Qed.

End runs.

(** ** Lemmas: aggregates *)

Lemma py_round_int x z : (x == inject_Z z)%Q → py_round x = z.
Proof.
  intros Hx. unfold py_round. rewrite (Qfloor_comp _ _ Hx), Qfloor_Z. assert ((x - inject_Z z == 0)%Q) as E by (rewrite Hx; ring).
  by rewrite E.
Qed.

Lemma totals_matches sequences ms a h :
  Forall2 (λ hids m, 0 ≤ m ≤ py_len hids) sequences ms →
  foldl (λ '(total_blocks, total_hits) '(hids, hr),
    match hids with
    | [] => (total_blocks, total_hits)
    | _ => (total_blocks + py_len hids, total_hits + py_round (hr * inject_Z (py_len hids)))
    end) (a, h) (zip sequences (ratios sequences ms)) = (a + py_len (concat sequences), h + foldr Z.add 0 ms).
Proof.
  intros H. revert a h. induction H as [|hids m sequences ms [H0 Hm] H IH]; intros a h; [simpl; f_equal; unfold py_len; simpl; lia|].
  csimpl. rewrite py_len_app. destruct hids as [|b hids]; [rewrite IH; unfold py_len in *; simpl in *; f_equal; lia|].
  rewrite IH, (py_round_int _ m); [f_equal; lia|]. field. intros E. unfold Qeq, inject_Z, py_len in E. simpl in E. lia.
Qed.

(** The aggregate of all requests *)
Lemma aggregate_matches sequences ms :
  Forall2 (λ hids m, 0 ≤ m ≤ py_len hids) sequences ms →
  aggregate_hit_ratio sequences (ratios sequences ms) =
    if 0 <? py_len (concat sequences) then (inject_Z (foldr Z.add 0%Z ms) / inject_Z (py_len (concat sequences)))%Q else 0%Q.
Proof. intros H. unfold aggregate_hit_ratio, totals. by rewrite totals_matches. Qed.

Lemma aggregate_le sequences ms ms' :
  Forall2 (λ hids m, 0 ≤ m ≤ py_len hids) sequences ms → Forall2 (λ hids m, 0 ≤ m ≤ py_len hids) sequences ms' →
  foldr Z.add 0 ms ≤ foldr Z.add 0 ms' →
  (aggregate_hit_ratio sequences (ratios sequences ms) <= aggregate_hit_ratio sequences (ratios sequences ms'))%Q.
Proof.
  intros H H' Hle. rewrite !aggregate_matches by done. destruct (Z.ltb_spec 0 (py_len (concat sequences))) as [Hpos|]; [|apply Qle_refl].
  apply Qmult_le_compat_r; [by rewrite <-Zle_Qle|]. apply Qinv_le_0_compat. change 0%Q with (inject_Z 0). rewrite <-Zle_Qle. lia.
Qed.

(** ** Lemmas: the recency order *)

Definition lru_ok (capacity : Z) (_ : list Z) (cache : list Z) : Prop := NoDup cache ∧ py_len cache ≤ capacity.

(** What an access leaves *)
Definition lru_next (capacity b : Z) (cache : list Z) : list Z :=
  if decide (b ∈ cache) then move_to_end b cache
  else if decide (capacity ≤ py_len cache) then tail cache ++ [b] else cache ++ [b].

Lemma lru_access_eq capacity b cache : 1 ≤ capacity → lru_access capacity b cache = (Ret tt, lru_next capacity b cache).
Proof.
  intros Hc. unfold lru_access, lru_next, lru_contains. rewrite bind_get. case_decide as Hb; [by rewrite bool_decide_eq_true_2|].
  rewrite bool_decide_eq_false_2 by done. case_decide as Hf.
  - rewrite (proj2 (Z.leb_le _ _) Hf). destruct cache as [|x rest]; [unfold py_len in Hf; simpl in Hf; lia|]. done.
  - by rewrite (proj2 (Z.leb_gt _ _)) by lia.
Qed.

Lemma elem_of_move b x cache : x ∈ move_to_end b cache ↔ x ∈ cache ∨ x = b.
Proof.
  unfold move_to_end. rewrite elem_of_app, list_elem_of_singleton, elem_of_filter_b, negb_true_iff, Z.eqb_neq.
  destruct (decide (x = b)) as [->|]; tauto.
Qed.

Lemma filter_absent b (l : list Z) : b ∉ l → List.filter (λ x, negb (x =? b)) l = l.
Proof.
  induction l as [|x l IH]; [done|]. rewrite not_elem_of_cons. intros [Hx Hl]. simpl. rewrite (proj2 (Z.eqb_neq x b)) by done. simpl. by rewrite IH.
Qed.

Lemma move_NoDup b cache : NoDup cache → NoDup (move_to_end b cache).
Proof.
  intros H. unfold move_to_end. apply NoDup_app. split_and!; [by apply NoDup_ListNoDup, List.NoDup_filter, NoDup_ListNoDup| |apply NoDup_singleton].
  intros x. rewrite elem_of_filter_b, list_elem_of_singleton, negb_true_iff, Z.eqb_neq. tauto.
Qed.

Lemma move_length b cache : NoDup cache → b ∈ cache → length (move_to_end b cache) = length cache.
Proof.
  intros Hnd (l1 & l2 & ->)%list_elem_of_split. apply NoDup_app in Hnd as (_ & H1 & [H2 _]%NoDup_cons).
  unfold move_to_end. rewrite List.filter_app. simpl. rewrite Z.eqb_refl. simpl.
  rewrite !filter_absent; [rewrite !length_app; simpl; lia|done|]. intros Hb. apply (H1 b Hb). left.
Qed.

Lemma tail_snoc_NoDup b (cache : list Z) : NoDup cache → b ∉ cache → NoDup (tail cache ++ [b]).
Proof.
  intros Hnd Hb. apply NoDup_app. split_and!; [destruct cache; [constructor|by apply NoDup_cons in Hnd as [_ ?]]| |apply NoDup_singleton].
  intros x Hx ->%list_elem_of_singleton. apply Hb. destruct cache; [done|by right].
Qed.

Lemma lru_step capacity b l cache : 1 ≤ capacity → lru_ok capacity (b :: l) cache → ∃ s', lru_access capacity b cache = (Ret tt, s') ∧ lru_ok capacity l s'.
Proof.
  intros Hc [Hnd Hlen]. rewrite lru_access_eq by done. eexists. split; [done|]. unfold lru_next, lru_ok, py_len in *. case_decide as Hb.
  - split; [by apply move_NoDup|]. by rewrite move_length.
  - case_decide; [split; [by apply tail_snoc_NoDup|]|split; [apply NoDup_app; split_and!; [done|set_solver|apply NoDup_singleton]|]];
      rewrite length_app; simpl; [|lia]. destruct cache; simpl in *; lia.
Qed.

(** The cache of the smaller capacity is the younger end of the other one. *)
Definition younger (c c' : Z) (cache cache' : list Z) : Prop :=
  NoDup cache' ∧ py_len cache ≤ c ∧ py_len cache' ≤ c' ∧ ∃ older, cache' = older ++ cache ∧ (older = [] ∨ py_len cache = c).

Lemma lru_next_ok capacity b cache : 1 ≤ capacity → lru_ok capacity [] cache → lru_ok capacity [] (lru_next capacity b cache).
Proof. intros Hc Hok. destruct (lru_step capacity b [] cache Hc Hok) as (s' & E & H). rewrite lru_access_eq in E by done. by injection E as <-. Qed.

Lemma younger_step c c' b cache cache' : 1 ≤ c ≤ c' → younger c c' cache cache' → younger c c' (lru_next c b cache) (lru_next c' b cache').
Proof.
  intros Hc (Hnd & Hl & Hl' & older & -> & Ho). pose proof Hnd as (_ & Hdis & Hndc)%NoDup_app.
  destruct (lru_next_ok c b cache) as [_ Hok]; [lia|done|]. destruct (lru_next_ok c' b (older ++ cache)) as [Hnd' Hok']; [lia|done|].
  split_and!; [done..|]. unfold lru_next, py_len in *. destruct (decide (b ∈ cache)) as [Hb|Hb].
  { rewrite decide_True by set_solver. exists older. rewrite move_length by done. split; [|done]. unfold move_to_end. rewrite List.filter_app, <-app_assoc.
    rewrite (filter_absent b older); [done|]. intros Hin. by apply (Hdis b). }
  destruct (decide (c ≤ Z.of_nat (length cache))) as [Hf|Hf].
  - destruct cache as [|x rest]; [simpl in Hf; lia|]. cbn [tail]. assert (Z.of_nat (length (rest ++ [b])) = c) as Hlen by (rewrite length_app in *; simpl in *; lia).
    destruct (decide (b ∈ older ++ x :: rest)) as [Hin|Hin].
    { exists (List.filter (λ y, negb (y =? b)) older ++ [x]). split; [|by right]. unfold move_to_end. rewrite List.filter_app, (filter_absent b (x :: rest)) by done.
      by rewrite <-!app_assoc. }
    destruct (decide (c' ≤ _)) as [Hf'|Hf']; [|exists (older ++ [x]); split; [by rewrite <-!app_assoc|by right]].
    destruct older as [|y older]; [exists []; auto|]. exists (older ++ [x]). split; [simpl; by rewrite <-!app_assoc|by right].
  - destruct Ho as [->|Ho]; [|lia]. simpl. rewrite !decide_False by (done || lia). exists []. auto.
Qed.

Lemma younger_contains c c' cache cache' b : younger c c' cache cache' → lru_contains cache b = true → lru_contains cache' b = true.
Proof. unfold lru_contains. rewrite !bool_decide_eq_true. intros (_ & _ & _ & older & -> & _). set_solver. Qed.

Lemma younger_accesses c c' hids cache cache' : 1 ≤ c ≤ c' → younger c c' cache cache' →
  younger c c' (for_each hids (lru_access c) cache).2 (for_each hids (lru_access c') cache').2.
Proof.
  intros Hc. revert cache cache'. induction hids as [|b hids IH]; intros cache cache' H; [done|]. simpl. unfold bind.
  rewrite !lru_access_eq by lia. by apply IH, younger_step.
Qed.

Lemma younger_matches c c' sequences cache cache' : 1 ≤ c ≤ c' → younger c c' cache cache' →
  Forall2 Z.le (matches lru_contains (lru_access c) sequences cache) (matches lru_contains (lru_access c') sequences cache').
Proof.
  intros Hc. revert cache cache'. induction sequences as [|hids rest IH]; intros cache cache' H; simpl; constructor.
  - apply prefix_match_mono. intros b. by apply (younger_contains c c').
  - by apply IH, younger_accesses.
Qed.

Lemma lru_runs sequences capacity : 1 ≤ capacity →
  simulate_lru sequences capacity = Ret (ratios sequences (matches lru_contains (lru_access capacity) sequences [])).
Proof.
  intros Hc. apply (replay_runs _ _ (lru_ok capacity)); [intros b l s; by apply lru_step|]. split; [constructor|unfold py_len; simpl; lia].
Qed.

Lemma sum_mono l l' : Forall2 Z.le l l' → foldr Z.add 0 l ≤ foldr Z.add 0 l'.
Proof. induction 1; simpl; lia. Qed.

Lemma lru_aggregate_mono sequences c c' : 1 ≤ c ≤ c' →
  let ms c := matches lru_contains (lru_access c) sequences [] in
  (aggregate_hit_ratio sequences (ratios sequences (ms c)) <= aggregate_hit_ratio sequences (ratios sequences (ms c')))%Q.
Proof.
  intros Hc ms. apply aggregate_le; [apply matches_bounds..|]. apply sum_mono, younger_matches; [done|].
  split_and!; [constructor|unfold py_len; simpl; lia..|]. by exists []; auto.
Qed.

(** C37: The curve of the least recently used policy never falls: at every capacity of at least one
    block the simulation returns, and over increasing capacities the aggregate hit ratio of any
    workload does not decrease, since the smaller cache always holds the most recent part of
    the larger one. *)
Theorem lru_curve_rises sequences capacities :
  Forall (λ c, 1 ≤ c) capacities → StronglySorted Z.le capacities →
  ∃ curve, mrc Lru sequences capacities = Ret curve ∧ length curve = length capacities ∧ StronglySorted Qle curve.
Proof.
  intros Hc Hs. set (f c := aggregate_hit_ratio sequences (ratios sequences (matches lru_contains (lru_access c) sequences []))).
  exists (f <$> capacities). split; [|split; [apply length_fmap|]].
  - unfold mrc. apply omapM_Ret. eapply Forall_impl; [exact Hc|]. intros c H. simpl. by rewrite lru_runs.
  - induction Hs as [|c l Hl IH Hcl]; [constructor|]. apply Forall_cons in Hc as [H1 Hc]. rewrite fmap_cons. constructor; [by apply IH|].
    apply Forall_fmap. apply Forall_forall. intros c' Hin. rewrite Forall_forall in Hcl. apply lru_aggregate_mono. specialize (Hcl c' Hin). lia.
Qed.

(** ** Lemmas: the capacities of a run *)

Lemma sorted_unique_elem l x : x ∈ sorted_unique l ↔ x ∈ l.
Proof. unfold sorted_unique. by rewrite merge_sort_Permutation, elem_of_remove_dups. Qed.

Lemma sorted_unique_sorted l : StronglySorted Z.le (sorted_unique l) ∧ NoDup (sorted_unique l).
Proof.
  unfold sorted_unique. split; [apply StronglySorted_merge_sort; apply _|]. rewrite merge_sort_Permutation. apply NoDup_remove_dups.
Qed.

Section capacities.
Context (kv_kb_per_token dtype_mult : Q) (tokens_per_block : Z).
Context (Hkb : ¬ (kv_kb_per_token * dtype_mult == 0)%Q) (Htpb : tokens_per_block ≠ 0).

Lemma gb_to_blocks_positive gb : ∃ n, gb_to_blocks gb kv_kb_per_token dtype_mult tokens_per_block = Ret n ∧ 1 ≤ n.
Proof.
  unfold gb_to_blocks. destruct (Qeq_bool _ 0) eqn:E; [by apply Qeq_bool_iff in E|]. rewrite (proj2 (Z.eqb_neq tokens_per_block 0)) by done.
  eexists. split; [reflexivity|lia].
Qed.

(** Whatever sizes are swept, the capacities in blocks are positive, distinct and in order. *)
Lemma sweep_capacities gbs : ∃ capacities, auto_mrc_capacities_blocks gbs kv_kb_per_token dtype_mult tokens_per_block = Ret capacities ∧
  Forall (λ c, 1 ≤ c) capacities ∧ StronglySorted Z.le capacities ∧ NoDup capacities.
Proof.
  unfold auto_mrc_capacities_blocks. destruct (omapM_total (λ g, gb_to_blocks g kv_kb_per_token dtype_mult tokens_per_block) gbs) as (blocks & -> & Hb).
  { apply Forall_forall. intros g _. destruct (gb_to_blocks_positive g) as (n & E & _). by exists n. }
  exists (sorted_unique blocks). split; [done|]. split; [|apply sorted_unique_sorted]. apply Forall_forall. intros c Hc. rewrite sorted_unique_elem in Hc.
  apply list_elem_of_lookup in Hc as (i & Hi). destruct (Forall2_lookup_r _ _ _ _ _ Hb Hi) as (g & _ & E).
  destruct (gb_to_blocks_positive g) as (n & E' & Hn). by rewrite E in E'; injection E' as <-.
Qed.

End capacities.

Lemma load_request_sequences sequences tpb reqs : (foldl load_request (sequences, tpb) reqs).1 = sequences ++ (default [] ∘ hash_ids <$> reqs).
Proof. revert sequences tpb. induction reqs as [|r reqs IH]; intros sequences tpb; simpl; [by rewrite app_nil_r|]. by rewrite IH, <-app_assoc. Qed.

(** The requests of a file in its order, without regard to its lines *)
Lemma load_workload_sequences lines : (load_workload lines).1 = default [] ∘ hash_ids <$> concat lines.
Proof.
  unfold load_workload. change (default [] ∘ hash_ids <$> concat lines) with ([] ++ (default [] ∘ hash_ids <$> concat lines)).
  generalize (@nil (list Z)) as sequences, (@None Z) as tpb. induction lines as [|reqs lines IH]; intros sequences tpb; [by rewrite app_nil_r|].
  cbn [foldl concat]. pose proof (load_request_sequences sequences tpb reqs) as E. destruct (foldl load_request (sequences, tpb) reqs) as [seqs tpb'].
  simpl in E. subst seqs. by rewrite IH, fmap_app, app_assoc.
Qed.

(** ** Lemmas: the online policies are choices of victims *)

Lemma lru_demand capacity l cache : 1 ≤ capacity → lru_ok capacity [] cache →
  demand (Z.to_nat capacity) (list_to_set cache) l (misses lru_contains (lru_access capacity) l cache).
Proof.
  intros Hc. revert cache. induction l as [|b l IH]; intros cache Hok; [constructor|]. simpl. rewrite lru_access_eq by done. simpl.
  pose proof (IH _ (lru_next_ok capacity b cache Hc Hok)) as Hd. destruct Hok as [Hnd Hlen]. unfold lru_next in *. unfold lru_contains at 1.
  case_decide as Hb.
  - rewrite bool_decide_eq_true_2 by done. apply demand_hit; [set_solver|]. simpl. replace (list_to_set cache : gset Z) with (list_to_set (move_to_end b cache) : gset Z); [done|].
    apply set_eq. intros x. rewrite !elem_of_list_to_set, elem_of_move. split; [intros [?| ->]; done|auto].
  - rewrite bool_decide_eq_false_2 by done. apply (demand_miss _ _ _ (default 0 (head cache))); [set_solver|..].
    + unfold victim. rewrite size_list_to_set by done. unfold py_len in Hlen. destruct cache as [|x rest]; simpl in *; [right; lia|left; set_solver].
    + unfold insert_block. rewrite size_list_to_set by done. unfold py_len in *. case_decide as Hr; case_decide; try lia.
      * assert (list_to_set (tail cache ++ [b]) =@{gset Z} {[b]} ∪ list_to_set cache ∖ {[default 0 (head cache)]}) as <-; [|done].
        destruct cache as [|x rest]; [simpl in *; lia|]. simpl. apply NoDup_cons in Hnd as [Hx _]. clear -Hx. apply set_eq. intros y.
        rewrite list_to_set_app. destruct (decide (y = x)) as [->|]; set_solver.
      * assert (list_to_set (cache ++ [b]) =@{gset Z} {[b]} ∪ list_to_set cache) as <-; [set_solver|done].
Qed.

Definition fifo_ok (capacity : Z) (_ : list Z) (s : fifo) : Prop :=
  cache_set s = list_to_set (cache_q s) ∧ NoDup (cache_q s) ∧ py_len (cache_q s) ≤ capacity.

Lemma fifo_step capacity b l s : 1 ≤ capacity → fifo_ok capacity (b :: l) s → ∃ s', fifo_access capacity b s = (Ret tt, s') ∧ fifo_ok capacity l s' ∧
  if decide (b ∈ cache_set s) then s' = s
  else ∃ v, victim (Z.to_nat capacity) v (cache_set s) ∧ cache_set s' = insert_block (Z.to_nat capacity) b v (cache_set s).
Proof.
  intros Hc (Hset & Hnd & Hlen). unfold fifo_access, fifo_contains, fifo_ok, victim, insert_block. rewrite bind_get. case_decide as Hb.
  { rewrite bool_decide_eq_true_2 by done. by exists s. }
  rewrite bool_decide_eq_false_2 by done. destruct s as [set q]. simpl in *. subst set. rewrite size_list_to_set by done. unfold py_len in *.
  assert (b ∉ q) as Hq by set_solver. destruct (Z.leb_spec capacity (Z.of_nat (length q))) as [Hf|Hf].
  - destruct q as [|x rest]; [simpl in *; lia|]. eexists. split; [done|]. simpl. pose proof Hnd as [Hx Hnr]%NoDup_cons.
    assert (({[b]} ∪ ({[x]} ∪ list_to_set rest) ∖ {[x]} : gset Z) = {[b]} ∪ list_to_set rest) as E.
    { clear -Hx. apply set_eq. intros y. destruct (decide (y = x)) as [->|]; set_solver. }
    split.
    { split_and!; [rewrite E; set_solver|by apply (tail_snoc_NoDup b (x :: rest))|rewrite length_app; simpl in *; lia]. }
    exists x. rewrite decide_False by (simpl in *; lia). split; [left; set_solver|done].
  - eexists. split; [done|]. simpl. split.
    { split_and!; [set_solver|apply NoDup_app; split_and!; [done|set_solver|apply NoDup_singleton]|rewrite length_app; simpl; lia]. }
    exists 0. rewrite decide_True by lia. split; [right; lia|done].
Qed.

Lemma fifo_demand capacity l s : 1 ≤ capacity → fifo_ok capacity [] s →
  demand (Z.to_nat capacity) (cache_set s) l (misses fifo_contains (fifo_access capacity) l s).
Proof.
  intros Hc. revert s. induction l as [|b l IH]; intros s Hok; [constructor|]. simpl.
  destruct (fifo_step capacity b [] s Hc Hok) as (s' & E & Hok' & Hs'). rewrite E. simpl. pose proof (IH s' Hok') as Hd. unfold fifo_contains at 1.
  case_decide as Hb; [subst s'; rewrite bool_decide_eq_true_2 by done; by apply demand_hit|].
  rewrite bool_decide_eq_false_2 by done. destruct Hs' as (v & Hv & Hset). rewrite Hset in Hd. by apply (demand_miss _ _ _ v).
Qed.

(** ** Lemmas: next uses and the heap *)

Lemma next_uses_spec n p l : n = p + py_len l →
  (∀ b, (next_uses n p l).2 !! b = if decide (b ∈ l) then Some (p + Z.of_nat (distance l b)) else None) ∧ length (next_uses n p l).1 = length l.
Proof.
  revert p. induction l as [|x l IH]; intros p Hn; [split; [intros b; simpl; by rewrite lookup_empty|done]|]. simpl.
  destruct (IH (p + 1)) as [H1 H2]; [unfold py_len in *; simpl in *; lia|]. destruct (next_uses n (p + 1) l) as [nu seen]. simpl in *. split; [|by rewrite H2].
  intros b. destruct (decide (x = b)) as [->|Hx]; [rewrite lookup_insert_eq, decide_True by left; f_equal; lia|].
  rewrite lookup_insert_ne, H1 by done. destruct (decide (b ∈ l)); [rewrite decide_True by (by right); f_equal; lia|rewrite decide_False; [done|]]. set_solver.
Qed.

Lemma distance_absent l b : b ∉ l → distance l b = length l.
Proof. induction l as [|x l IH]; [done|]. rewrite not_elem_of_cons. intros [Hx Hl]. simpl. rewrite decide_False by done. by rewrite IH. Qed.

(** The next use of the block at the front *)
Lemma next_uses_cons n p b l : n = p + py_len (b :: l) →
  (next_uses n p (b :: l)).1 = p + 1 + Z.of_nat (distance l b) :: (next_uses n (p + 1) l).1.
Proof.
  intros Hn. assert (n = p + 1 + py_len l) as Hn' by (unfold py_len in *; simpl in *; lia). destruct (next_uses_spec n (p + 1) l Hn') as [H _]. specialize (H b).
  simpl. destruct (next_uses n (p + 1) l) as [nu seen]. simpl in *. rewrite H. f_equal. case_decide as Hb; simpl; [done|]. rewrite distance_absent by done. unfold py_len in Hn'. lia.
Qed.

Definition entry_le (x y : Z * Z) : Prop := entry_leb x y = true.

Lemma entry_le_spec x y : entry_le x y ↔ x.1 < y.1 ∨ (x.1 = y.1 ∧ x.2 ≤ y.2).
Proof. unfold entry_le, entry_leb. rewrite orb_true_iff, andb_true_iff, Z.ltb_lt, Z.eqb_eq, Z.leb_le. done. Qed.

Lemma elem_of_push e x h : x ∈ heappush e h ↔ x = e ∨ x ∈ h.
Proof. induction h as [|y h IH]; simpl; [set_solver|]. destruct (entry_leb e y); [set_solver|]. rewrite !elem_of_cons, IH. tauto. Qed.

Lemma push_sorted e h : StronglySorted entry_le h → StronglySorted entry_le (heappush e h).
Proof.
  induction 1 as [|x h Hs IH Hx]; simpl; [by repeat constructor|]. destruct (entry_leb e x) eqn:E.
  - constructor; [by constructor|]. apply Forall_cons. split; [done|]. eapply Forall_impl; [exact Hx|]. intros y Hy.
    change (entry_le e x) in E. rewrite entry_le_spec in *. lia.
  - constructor; [done|]. apply Forall_forall. intros y [->|Hy]%elem_of_push; [|by rewrite Forall_forall in Hx; apply Hx].
    apply entry_le_spec. apply not_true_iff_false in E. change (¬ entry_le e x) in E. rewrite entry_le_spec in E. lia.
Qed.

(** Every cached block has its entry in the heap. *)
Definition heap_ok (cache : gmap Z Z) (h : list (Z * Z)) : Prop :=
  StronglySorted entry_le h ∧ ∀ b nu, cache !! b = Some nu → (- nu, b) ∈ h.

(** The block with the farthest next use is evicted. *)
Lemma evict_farthest cache h : heap_ok cache h → cache ≠ ∅ →
  ∃ v nu h', evict cache h = (delete v cache, h') ∧ cache !! v = Some nu ∧ (∀ b nb, cache !! b = Some nb → nb ≤ nu) ∧ heap_ok (delete v cache) h'.
Proof.
  intros [Hs Hin] Hne. induction Hs as [|[neg c] h Hs IH Hx].
  { destruct (map_choose cache Hne) as (b & nu & Hb). by apply Hin, not_elem_of_nil in Hb. }
  simpl. case_bool_decide as Hv.
  - exists c, (- neg), h. split_and!; [done|done| |split; [done|]].
    + intros b nb Hb. apply Hin in Hb. rewrite Forall_forall in Hx. apply elem_of_cons in Hb as [[= <- <-]|Hb]; [lia|].
      apply Hx, entry_le_spec in Hb. simpl in Hb. lia.
    + intros b nb Hb. destruct (decide (b = c)) as [->|Hbc]; [by rewrite lookup_delete_eq in Hb|]. rewrite lookup_delete_ne in Hb by done.
      apply Hin, elem_of_cons in Hb as [[= _ ->]|Hb]; [done|exact Hb].
  - apply IH. intros b nb Hb. pose proof (Hin b nb Hb) as Hm. apply elem_of_cons in Hm as [[= <- <-]|Hm]; [|done]. by rewrite Z.opp_involutive in Hv.
Qed.

(** ** Lemmas: the policy with the farthest next use *)

Section belady.
Context (capacity : Z) (Hcap : 1 ≤ capacity) (next_use : list Z).

(** The remaining next uses, and what the cache and the heap know of them *)
Definition belady_ok (l : list Z) (s : belady) : Prop :=
  (∃ before, next_use = before ++ (next_uses (pos s + py_len l) (pos s) l).1 ∧ py_len before = pos s) ∧
  (∀ b nu, cache_nu s !! b = Some nu → nu = pos s + Z.of_nat (distance l b)) ∧
  heap_ok (cache_nu s) (heap s) ∧ Z.of_nat (size (cache_nu s)) ≤ capacity.

Lemma belady_index b l s : belady_ok (b :: l) s →
  py_index next_use (pos s) = Ret (pos s + 1 + Z.of_nat (distance l b)) ∧
  ∃ before, next_use = before ++ (next_uses (pos s + 1 + py_len l) (pos s + 1) l).1 ∧ py_len before = pos s + 1.
Proof.
  intros ((before & E & Hb) & _). rewrite next_uses_cons in E by done. replace (pos s + py_len (b :: l)) with (pos s + 1 + py_len l) in E by (unfold py_len; simpl; lia).
  split; [|exists (before ++ [pos s + 1 + Z.of_nat (distance l b)]); split; [by rewrite <-app_assoc|rewrite py_len_app, Hb; done]].
  unfold py_index, py_norm_index. assert (0 ≤ pos s) as H0 by (rewrite <-Hb; apply py_len_nonneg).
  rewrite !(proj2 (Z.ltb_ge (pos s) 0)) by lia. rewrite E.
  rewrite lookup_app_r by (unfold py_len in Hb; lia). unfold py_len in Hb. by rewrite <-Hb, Nat2Z.id, Nat.sub_diag.
Qed.

(** The state after an access, from the cache and the heap that the eviction leaves *)
Lemma belady_insert b l s cache h :
  belady_ok (b :: l) s → heap_ok cache h → (∀ c nu, c ≠ b → cache !! c = Some nu → cache_nu s !! c = Some nu) →
  Z.of_nat (size (<[b := pos s + 1 + Z.of_nat (distance l b)]> cache)) ≤ capacity →
  let nu := pos s + 1 + Z.of_nat (distance l b) in belady_ok l (mkBelady (<[b := nu]> cache) (heappush (- nu, b) h) (pos s + 1)).
Proof.
  intros Hok [Hs Hin] Hsub Hsz nu. destruct (belady_index b l s Hok) as [_ Hb]. destruct Hok as (_ & Hnu & _ & _). split_and!; [done| |split|done]; simpl.
  - intros c n. destruct (decide (c = b)) as [->|Hcb]; [rewrite lookup_insert_eq; by intros [= <-]|]. rewrite lookup_insert_ne by done. intros Hc.
    rewrite (Hnu c n (Hsub c n Hcb Hc)). simpl. rewrite decide_False by done. lia.
  - by apply push_sorted.
  - intros c n. rewrite elem_of_push. destruct (decide (c = b)) as [->|Hcb]; [rewrite lookup_insert_eq; intros [= <-]; by left|].
    rewrite lookup_insert_ne by done. intros Hc. right. by apply Hin.
Qed.

Lemma belady_contains_dom s b : belady_contains s b = bool_decide (b ∈ dom (cache_nu s)).
Proof. apply bool_decide_ext. by rewrite elem_of_dom. Qed.

Lemma belady_step b l s : belady_ok (b :: l) s → ∃ s', belady_access next_use capacity b s = (Ret tt, s') ∧ belady_ok l s' ∧
  if decide (b ∈ dom (cache_nu s)) then dom (cache_nu s') = dom (cache_nu s)
  else ∃ v, victim (Z.to_nat capacity) v (dom (cache_nu s)) ∧ dom (cache_nu s') = insert_block (Z.to_nat capacity) b v (dom (cache_nu s)) ∧
    ((size (dom (cache_nu s)) < Z.to_nat capacity)%nat ∨ ∀ y, y ∈ dom (cache_nu s) → (distance l y ≤ distance l v)%nat).
Proof.
  intros Hok. pose proof Hok as (_ & Hnu & Hheap & Hsz). destruct (belady_index b l s Hok) as [Ei _].
  unfold belady_access, victim, insert_block. rewrite bind_get, Ei, bind_lift, belady_contains_dom, !size_dom. set (nu := pos s + 1 + _).
  destruct (decide (b ∈ dom (cache_nu s))) as [Hb|Hb].
  { rewrite bool_decide_eq_true_2 by done. eexists. split; [done|]. split; [|simpl; rewrite dom_insert_L; set_solver].
    apply belady_insert; [done..|]. pose proof Hb as [n Hn]%elem_of_dom. rewrite map_size_insert_Some by (by eexists). done. }
  rewrite bool_decide_eq_false_2 by done. pose proof Hb as Hn%not_elem_of_dom. destruct (Z.leb_spec capacity (Z.of_nat (size (cache_nu s)))) as [Hf|Hf].
  - destruct (evict_farthest (cache_nu s) (heap s) Hheap) as (v & nv & h' & -> & Hv & Hfar & Hh').
    { intros E. rewrite E, map_size_empty in Hf. lia. }
    pose proof Hv as Hvd%elem_of_dom_2. assert (v ≠ b) as Hvb by (by intros ->). eexists. split; [done|]. split.
    { apply belady_insert; [done..| |].
      - intros c n _ Hc. by apply lookup_delete_Some in Hc as [_ ?].
      - rewrite map_size_insert_None by (by rewrite lookup_delete_ne). pose proof (map_size_delete_Some v (cache_nu s) ltac:(by eexists)) as Hd. lia. }
    exists v. rewrite decide_False by lia. simpl. split; [by left|]. split; [by rewrite dom_insert_L, dom_delete_L|]. right. intros y [n Hy]%elem_of_dom.
    pose proof (Hfar y n Hy) as Hle. rewrite (Hnu y n Hy), (Hnu v nv Hv) in Hle. simpl in Hle. rewrite !decide_False in Hle; [lia|congruence..].
  - eexists. split; [done|]. split; [apply belady_insert; [done..|]; rewrite map_size_insert_None by done; lia|].
    exists 0. rewrite decide_True by lia. simpl. split; [right; lia|]. split; [by rewrite dom_insert_L|left; lia].
Qed.

(** No choice of victims has fewer misses. *)
Lemma belady_least l s n : belady_ok l s → demand (Z.to_nat capacity) (dom (cache_nu s)) l n → (misses belady_contains (belady_access next_use capacity) l s ≤ n)%nat.
Proof.
  revert s n. induction l as [|b l IH]; intros s n Hok Hd; [simpl; lia|]. destruct (belady_step b l s Hok) as (s' & E & Hok' & Hs'). simpl. rewrite E. simpl.
  pose proof Hok as (_ & _ & _ & Hsz). rewrite belady_contains_dom.
  inversion Hd as [|? ? ? ? Hb Hd'|? ? x ? m Hb Hx Hd']; subst.
  - rewrite decide_True in Hs' by done. rewrite bool_decide_eq_true_2 by done. apply IH; [done|by rewrite Hs'].
  - rewrite decide_False in Hs' by done. rewrite bool_decide_eq_false_2 by done. destruct Hs' as (v & Hv & Hdom & Hfar).
    destruct (demand_farthest (Z.to_nat capacity) ltac:(lia) (dom (cache_nu s)) b v x l m) as (k & Hk & Hle); [done..|rewrite size_dom; lia|done|done|].
    rewrite <-Hdom in Hk. pose proof (IH s' k Hok' Hk). lia.
Qed.

End belady.

(** ** The three policies *)

Lemma fifo_runs sequences capacity : 1 ≤ capacity →
  simulate_fifo sequences capacity = Ret (ratios sequences (matches fifo_contains (fifo_access capacity) sequences (mkFifo ∅ []))).
Proof.
  intros Hc. apply (replay_runs _ _ (fifo_ok capacity)); [|split_and!; [done|constructor|unfold py_len; simpl; lia]].
  intros b l s Hs. destruct (fifo_step capacity b l s Hc Hs) as (s' & E & H & _). by exists s'.
Qed.

Abbreviation uses sequences := (next_uses (py_len (concat sequences)) 0 (concat sequences)).1.

Lemma belady_start sequences capacity : 1 ≤ capacity → belady_ok capacity (uses sequences) (concat sequences) (mkBelady ∅ [] 0).
Proof.
  intros Hc. split_and!; simpl; [by exists []|by intros b nu Hb%lookup_empty_Some|split; [constructor|by intros b nu Hb%lookup_empty_Some]|]. rewrite map_size_empty. lia.
Qed.

Lemma belady_runs sequences capacity : 1 ≤ capacity →
  simulate_belady sequences capacity =
    Ret (ratios sequences (matches belady_contains (belady_access (uses sequences) capacity) sequences (mkBelady ∅ [] 0))).
Proof.
  intros Hc. apply (replay_runs _ _ (belady_ok capacity (uses sequences))); [|by apply belady_start].
  intros b l s Hs. destruct (belady_step capacity Hc (uses sequences) b l s Hs) as (s' & E & H & _). by exists s'.
Qed.

Lemma ratios_bounds sequences ms :
  Forall2 (λ hids m, 0 ≤ m ≤ py_len hids) sequences ms → Forall (λ x, 0 <= x /\ x <= 1)%Q (ratios sequences ms) ∧ length (ratios sequences ms) = length sequences.
Proof.
  induction 1 as [|hids m sequences ms [H0 Hm] H [IH1 IH2]]; [done|]. csimpl. split; [|by rewrite IH2]. constructor; [|done].
  destruct (Z.eq_dec (py_len hids) 0) as [E|E]; [rewrite E; split; apply Qle_bool_imp_le; destruct m; done|].
  assert (0 < inject_Z (py_len hids))%Q as Hpos by (change 0%Q with (inject_Z 0); rewrite <-Zlt_Qlt; lia). split.
  - apply Qle_shift_div_l; [done|]. rewrite Qmult_0_l. change 0%Q with (inject_Z 0). by rewrite <-Zle_Qle.
  - apply Qle_shift_div_r; [done|]. rewrite Qmult_1_l. by rewrite <-Zle_Qle.
Qed.

(** Every policy returns a ratio for every request. *)
Lemma policy_runs p sequences capacity : 1 ≤ capacity →
  ∃ ms, policy_fn p sequences capacity = Ret (ratios sequences ms) ∧ Forall2 (λ hids m, 0 ≤ m ≤ py_len hids) sequences ms.
Proof.
  intros Hc. destruct p; simpl; [rewrite lru_runs by done|rewrite fifo_runs by done|rewrite belady_runs by done]; (eexists; split; [done|apply matches_bounds]).
Qed.

(** The misses of a policy on single blocks are those of some choice of victims. *)
Lemma policy_single p l capacity : 1 ≤ capacity →
  ∃ ms n, policy_fn p ((λ b, [b]) <$> l) capacity = Ret (ratios ((λ b, [b]) <$> l) ms) ∧
    Forall2 (λ hids m, 0 ≤ m ≤ py_len hids) ((λ b, [b]) <$> l) ms ∧ foldr Z.add 0 ms = py_len l - Z.of_nat n ∧
    (p ≠ Belady → demand (Z.to_nat capacity) ∅ l n) ∧ (p = Belady → ∀ k, demand (Z.to_nat capacity) ∅ l k → (n ≤ k)%nat).
Proof.
  intros Hc. destruct p; simpl; [rewrite lru_runs by done|rewrite fifo_runs by done|rewrite belady_runs by done];
    (eexists _, _; split; [done|]; split; [apply matches_bounds|]; split; [apply matches_single|]; split; [intros Hp|intros Hp]; try done).
  - apply (lru_demand capacity l []); [done|]. split; [constructor|unfold py_len; simpl; lia].
  - apply (fifo_demand capacity l (mkFifo ∅ [])); [done|]. split_and!; [done|constructor|unfold py_len; simpl; lia].
  - intros k Hk. apply (belady_least capacity Hc); [|done]. pose proof (belady_start ((λ b, [b]) <$> l) capacity Hc) as Hok. by rewrite concat_singletons in Hok |- *.
Qed.

(** C38: For single blocks the offline policy is optimal: for every list of accesses and every
    capacity of at least one block all three simulations return, no choice of victims whatever, online or
    not, has more hits than [simulate_belady], and its aggregate hit ratio is at least that
    of the other two. *)
Theorem belady_optimal l capacity :
  1 ≤ capacity → let sequences := (λ b, [b]) <$> l in
  ∃ best, simulate_belady sequences capacity = Ret best ∧
    (∀ n, demand (Z.to_nat capacity) ∅ l n → (inject_Z (py_len l - Z.of_nat n) <= aggregate_hit_ratio sequences best * inject_Z (py_len l))%Q) ∧
    ∀ p, ∃ ratios, policy_fn p sequences capacity = Ret ratios ∧ (aggregate_hit_ratio sequences ratios <= aggregate_hit_ratio sequences best)%Q.
Proof.
  intros Hc sequences. destruct (policy_single Belady l capacity Hc) as (ms & n & E & Hms & Hsum & _ & Hbest). specialize (Hbest eq_refl).
  exists (ratios sequences ms). split; [exact E|]. split.
  - intros k Hk. rewrite aggregate_matches by done. unfold sequences. rewrite concat_singletons, Hsum. pose proof (Hbest k Hk).
    destruct (Z.ltb_spec 0 (py_len l)) as [Hpos|Hpos]; [|pose proof (py_len_nonneg l); apply Qle_trans with (inject_Z 0); [rewrite <-Zle_Qle; lia|apply Qle_lteq; right; simpl; ring]].
    rewrite Qmult_comm, Qmult_div_r; [rewrite <-Zle_Qle; lia|]. intros Eq. unfold Qeq, inject_Z in Eq. simpl in Eq. lia.
  - intros p. destruct (policy_single p l capacity Hc) as (ms' & n' & E' & Hms' & Hsum' & Hd & _). exists (ratios sequences ms'). split; [done|].
    destruct p; [..|rewrite E in E'; injection E' as E'; unfold sequences; rewrite <-E'; apply Qle_refl];
      (apply aggregate_le; [done..|]; rewrite Hsum, Hsum'; pose proof (Hbest n' (Hd ltac:(done))); lia).
Qed.







(** A larger cache may be the worse one for the oldest-first policy. *)
Lemma fifo_anomaly :
  mrc Fifo ((λ b, [b]) <$> [1; 2; 3; 4; 1; 2; 5; 1; 2; 3; 4; 5]) [3; 4] = Ret [3 # 12; 2 # 12]%Q.
Proof. by vm_compute. Qed.

Lemma replay_raises {S} contains (access : Z → M S unit) b hids rest s s' e :
  access b s = (Raise e, s') → (replay contains access ((b :: hids) :: rest) s).1 = Raise e.
Proof. intros E. cbn [replay replay_request for_each]. unfold bind, get. by rewrite E. Qed.

(** Without room for a block only the offline policy returns. *)
Lemma no_capacity sequences capacity : capacity ≤ 0 → concat sequences ≠ [] →
  simulate_lru sequences capacity = Raise KeyError ∧ simulate_fifo sequences capacity = Raise IndexError.
Proof.
  intros Hc Hne. unfold simulate_lru, simulate_fifo. induction sequences as [|[|b hids] rest IH]; [done|simpl in Hne; destruct (IH Hne) as [H1 H2]|].
  - simpl. unfold bind at 1 3. simpl. unfold bind. destruct (replay _ _ rest []) as [o1 s1], (replay _ _ rest (mkFifo ∅ [])) as [o2 s2]. simpl in *. by subst.
  - assert ((capacity <=? 0) = true) as E by (by apply Z.leb_le). split.
    + apply (replay_raises _ _ _ _ _ _ []). unfold lru_access, lru_contains. rewrite bind_get.
      rewrite bool_decide_eq_false_2 by set_solver. change (py_len []) with 0. by rewrite E.
    + apply (replay_raises _ _ _ _ _ _ (mkFifo ∅ [])). unfold fifo_access, fifo_contains. rewrite bind_get. cbn [cache_set cache_q].
      rewrite bool_decide_eq_false_2 by set_solver.
      rewrite size_empty. change (Z.of_nat 0) with 0. by rewrite E.
Qed.

(** ** Concrete runs *)

Lemma lru_curve_rises_witness :
  ∃ curve, mrc Lru [[1; 2]; [3]; [1; 2]; [3]] [1; 2; 3] = Ret curve ∧ StronglySorted Qle curve.
Proof.
  destruct (lru_curve_rises [[1; 2]; [3]; [1; 2]; [3]] [1; 2; 3]) as (curve & E & _ & Hs).
  - repeat constructor; lia.
  - repeat constructor; lia.
  - exists curve. exact (conj E Hs).
Defined.

Lemma belady_optimal_witness :
  ∃ best ratios, simulate_belady [[1]; [2]; [3]; [1]; [2]] 2 = Ret best ∧ simulate_lru [[1]; [2]; [3]; [1]; [2]] 2 = Ret ratios ∧
    (aggregate_hit_ratio [[1]; [2]; [3]; [1]; [2]]%Z ratios <= aggregate_hit_ratio [[1]; [2]; [3]; [1]; [2]]%Z best)%Q.
Proof.
  destruct (belady_optimal [1; 2; 3; 1; 2] 2) as (best & E & _ & Hp); [lia|]. destruct (Hp Lru) as (r & Er & Hle). exists best, r. exact (conj E (conj Er Hle)).
Defined.
